(* ===== verification/_CoqProject ===== *)
-Q . S2P
Prelude.v
Ring.v
Mem.v
Str.v
Pmm.v
PmmSpec.v
PmmProps.v
PmmInit.v
PmmClaims.v
Heap.v
HeapProps.v
HeapClaims.v
Vmm.v
VmmProps.v
VmmClaims.v
Slab.v
SlabClaims.v
Graph.v
GraphProps.v
Capability.v
Channel.v
Sched.v
SchedProps.v
SchedClaims.v
Wait.v
WaitClaims.v
Pipe.v
Fd.v
FdProps.v
FdClaims.v
Block.v
Bcache.v
BcacheProps.v
BcacheClaims.v
Fat32.v
FatProps.v
FatFiles.v
FatDirs.v
FatClaims.v
FatCache.v
Cstr.v
Kprintf.v
VfsPath.v
Ramfs.v
RamfsClaims.v
Input.v
Touch.v
Vtty.v
Pseudo.v
Vfs.v
VfsMount.v
VfsClaims.v
NetBase.v
Net.v
NetProps.v
NetClaims.v
TcpClaims.v
UserSpace.v
VmmFork.v
Elf.v
ElfProps.v
ElfClaims.v
ElfExec.v
