(* ===== verification/Prelude.v ===== *)
(** * YamKernel: the kernel's core, modelled and verified in Rocq

    YamKernel is a hobby operating system in C.  This library models the part
    of its kernel that manages memory, resources, tasks and files, as
    functions on explicit state translated from the sources under src/, and
    proves what makes each component correct.

    ** The parts and how they fit

    [Pmm] hands out physical pages.  [Vmm] builds page tables from them and
    [Heap] takes regions of them for the kernel's allocations; [Slab] cuts
    pages into objects.  [Graph] records which task may do what to which
    resource; [Capability] and [Channel] are the kernel's authority checks and
    its message passing on top of it.  [Sched] runs tasks; [Wait] blocks and
    wakes them, and [Pipe] and [Fd] (descriptors) build on both.  [Block] is
    the table of disks, [Bcache] caches their sectors and [Fat32] is the file
    system on the cached sectors.  [Mem] and [Str] are byte memory and the
    kernel's string library, which most of the above use.

    Components are joined by type classes.  [Pages] (Heap.v) is what the heap
    needs of the page allocator, [Frames] (Vmm.v) what virtual memory and the
    slab caches need of it; HeapClaims and VmmClaims prove that [Pmm]
    implements them.  [Kheap] (Vmm.v) stands for kmalloc where only a fresh
    address is needed.  [PermGraph] (Channel.v) is what channels need of the
    graph, which [Graph] implements; [Fifo] (Ring.v) is what a bounded queue
    promises; [Sync] (Wait.v) describes a blocking primitive, and mutexes,
    semaphores and read-write locks are its instances.  [Disks] (Block.v) is
    the contents of a disk and whether a write was lost; the laws of a driver
    are [dev_ok] (BcacheProps.v).  [Store] (Fat32.v) and [StoreLaws]
    (FatProps.v) are sectors as the file system uses them, which FatCache.v
    implements with the block cache.

    ** Conventions

    A w-bit integer is a [Z] and wrap-around is written out ([u8] .. [u64],
    [i32], [i64]).  An array is a total function from indices, updated by
    [a.[i <- x]]; a struct is a record, and [r <| f := v |>] is the assignment
    to a field.  A pointer to a table entry is its index, to memory its
    address, 0 is NULL.  State is passed explicitly.  Code under a spinlock
    runs as one step.  Printing, statistics output and locks as such are left
    out.

    ** Files

    - Prelude: record update, arrays, integers, loops, sums.  Ring: circular
      arrays and [Fifo].  Mem, Str (src/src/lib/string.c): bytes, strings.
    - Pmm (src/src/mem/pmm.c): [pmm_init], [pmm_alloc_pages_internal],
      [pmm_free_pages], reference counts, zones, the page descriptors.  PmmSpec
      has the forest of cells and its invariant, PmmProps the operations on it,
      PmmInit booting, PmmClaims the theorems: no page is handed out twice,
      every reachable state is well formed, exact outcomes of allocation and
      freeing, complete merging, round trip, boot.
    - Heap (src/src/mem/heap.c): [kmalloc], [kfree], [krealloc], buckets.
      HeapProps: the block list in byte memory; HeapClaims: large and small
      requests get disjoint memory, freeing merges neighbours.
    - Vmm (src/src/mem/vmm.c): page tables, copy on write, address spaces, mmap,
      brk, page faults.  VmmProps: page-table trees in memory; VmmClaims:
      mapping and unmapping change the translation of one page only, and a
      copy-on-write fault gives a private copy with the same bytes.
    - Slab (src/src/mem/slab.c), SlabClaims: the objects of a cache are
      disjoint, aligned and keep what their owner wrote.
    - Graph (src/src/nexus/graph.c), GraphProps: well-formedness, exactly which
      edges give a permission, where a permission can come from, destroyed nodes
      have none.  Capability (capability.c): revocation is final, delegation
      attenuates.  Channel (channel.c): delivery in order, send is guarded.
    - Sched (src/src/sched/sched.c), SchedProps, SchedClaims: sorted run queues,
      the least virtual runtime runs next, sleepers wake, dead tasks are freed
      only when no processor uses them, exit status reaches the parent.  Wait
      (src/src/sched/wait.c), WaitClaims: mutual exclusion of mutexes and
      read-write locks under any interleaving, waking drains a queue.
    - Pipe (src/src/ipc/pipe.c): a pipe is a bounded stream of bytes.  Fd
      (descriptors of src/src/fs/vfs.c, [sys_pipe]), FdProps, FdClaims: no
      sequence of calls frees an object twice or uses one that is gone.
    - Block (src/src/drivers/block/block.c), Bcache (src/src/fs/bcache.c),
      BcacheProps, BcacheClaims: reads, writes and flushes through the cache are
      those of flat disks.
    - Fat32 (src/src/fs/fat32.c), FatProps (the table and the clusters),
      FatFiles (chains and data), FatDirs (directories), FatClaims: a file of the
      root directory is read back as it was written; FatCache: also after a
      flush and a restart behind the block cache.

    Theorems that a property of the manifest names carry its number.  Those
    with hypotheses have a witness, mostly in a module [Demo] at the end of the
    file, which applies them to a concrete state.  [Example]s without a number
    evaluate the model where the code does something it should not.

    ** Fuel

    Recursion that follows pointers or runs until a condition holds has fuel.
    [cell_try_merge] goes to the parent of a cell, whose index is smaller, so the
    index is enough; the search and the splitting go down the forest, whose
    sizes shrink by four at each level.  [bsearch] halves at most 256 slots:
    9 rounds.  Lists linked through memory (heap blocks, sleep list, deferred
    reaps, wait queues) need as many rounds as the list has elements; the
    theorems ask for that much and hold for any fuel beyond it.  A string
    function needs the distance to the terminator.  The loops of the block cache take one round per sector at most.
    Chains of a FAT32 volume have no cluster twice and so at most
    [total_clusters] elements; with a cyclic chain the code does not return,
    and neither does the model ([cyclic_directory_hangs]).

    ** Not modelled

    Code that drives hardware: boot, CPU tables, interrupts, context switch and
    the device drivers; where the models need a device its behaviour is a law
    of an interface.  Of the scheduler, spawning and forking tasks and more
    than one processor; of vfs.c, mounts, paths and sockets; concurrency below
    spinlocks.  The system call layer, the ELF loader, the network stack,
    control groups, the compositor and the other user programs, the C library
    of user space, and stb_image, which is a third-party file for the build.
    kmalloc in the file system and for the block cache is taken to succeed. *)

From stdpp Require Export base list numbers.
From Stdlib Require Export ZArith Lia.

#[global] Open Scope Z_scope.
#[global] Set Default Goal Selector "!".

(** ** Record update

    A C assignment to one field of a struct keeps every other field.  [Eta R]
    names the field-by-field copy of a value of [R]; the setter of a field is
    derived from it, so that [r <| f := v |>] reads like [r.f = v]. *)

Class Eta (R : Type) := eta : R -> R.
Class Setter {R E : Type} (field : R -> E) := setter : E -> R -> R.
Arguments setter {R E} field {_} _ _ /.

Ltac build_setter R E field :=
  exact (fun (v : E) (r : R) =>
    ltac:(let e := constr:(@eta R _ r) in
          let b := eval hnf in e in
          lazymatch b with
          | context C [field r] => let b' := context C [v] in exact b'
          end)).

#[export] Hint Extern 1 (@Setter ?R ?E ?field) =>
  build_setter R E field : typeclass_instances.

Declare Scope yam_scope.
Delimit Scope yam_scope with yam.
#[global] Open Scope yam_scope.

Notation "r <| f := v |>" := (setter f v r)
  (at level 1, left associativity, format "r  <| f  :=  v |>") : yam_scope.

(** ** Arrays

    A statically allocated C array is a total map from its index; that the
    code only uses indices inside the array is a matter for the guards of the
    code and for the theorems, never for the map. *)

Definition upd {A : Type} (a : Z -> A) (i : Z) (v : A) : Z -> A :=
  fun j => if j =? i then v else a j.

Notation "a .[ i <- v ]" := (upd a i v)
  (at level 1, left associativity, format "a .[ i  <-  v ]") : yam_scope.

Section arrays.
Context {A : Type}.
Implicit Types (a : Z -> A) (v w : A).

Lemma upd_eq a i v : a.[i <- v] i = v.
Proof. unfold upd. by rewrite Z.eqb_refl. Qed.

Lemma upd_ne a i j v : j <> i -> a.[i <- v] j = a j.
Proof. intros H. unfold upd. by rewrite (proj2 (Z.eqb_neq j i) H). Qed.

Lemma upd_cases a i v j : (j = i /\ a.[i <- v] j = v) \/ (j <> i /\ a.[i <- v] j = a j).
Proof. unfold upd. destruct (Z.eqb_spec j i); auto. Qed.
End arrays.

(** Case analysis on every array read of an updated array in sight. *)
Ltac upd_cases :=
  repeat (unfold upd in *;
          match goal with
          | H : context [if ?j =? ?i then _ else _] |- _ => destruct (Z.eqb_spec j i)
          | |- context [if ?j =? ?i then _ else _] => destruct (Z.eqb_spec j i)
          end).

(** ** Machine integers

    Unsigned arithmetic of width [w] is arithmetic modulo [2^w]; the source's
    [u8], [u16], [u32], [u64] and [usize] are the representatives in
    [0 .. 2^w - 1], and a signed [i32] or [i64] its two's complement reading. *)

Definition wrap (w x : Z) : Z := x mod 2 ^ w.
Notation u8 := (wrap 8).
Notation u16 := (wrap 16).
Notation u32 := (wrap 32).
Notation u64 := (wrap 64).

Definition swrap (w x : Z) : Z := (x + 2 ^ (w - 1)) mod 2 ^ w - 2 ^ (w - 1).
Notation i32 := (swrap 32).
Notation i64 := (swrap 64).

Lemma wrap_range w x : 0 <= w -> 0 <= wrap w x < 2 ^ w.
Proof. intros H. apply Z.mod_pos_bound. by apply Z.pow_pos_nonneg. Qed.

Lemma wrap_small w x : 0 <= x < 2 ^ w -> wrap w x = x.
Proof. apply Z.mod_small. Qed.

Lemma swrap_small w x : 0 < w -> - 2 ^ (w - 1) <= x < 2 ^ (w - 1) -> swrap w x = x.
Proof.
  intros Hw Hx. unfold swrap. rewrite Z.mod_small; [lia|].
  replace w with (Z.succ (w - 1)) at 3 by lia. rewrite Z.pow_succ_r by lia. lia.
Qed.

Create HintDb yam discriminated.
#[export] Hint Rewrite @upd_eq : yam.
#[export] Hint Resolve wrap_small wrap_range : yam.

(** [C]'s [x & flag] used as a condition. *)
Definition has (x flag : Z) : bool := negb (Z.land x flag =? 0).

(** Masking with a block of [n] ones at bit [k] keeps that bit field. *)
Lemma land_field x n k :
  0 <= n -> 0 <= k -> Z.land x (Z.shiftl (Z.ones n) k) = (x / 2 ^ k) mod 2 ^ n * 2 ^ k.
Proof.
  intros Hn Hk. rewrite <- Z.shiftr_div_pow2, <- Z.land_ones, <- Z.shiftl_mul_pow2 by lia.
  apply Z.bits_inj'. intros i Hi. rewrite Z.land_spec, !Z.shiftl_spec by lia.
  destruct (decide (k <= i)).
  - rewrite Z.land_spec, Z.shiftr_spec by lia. by replace (i - k + k) with i by lia.
  - rewrite !(Z.testbit_neg_r _ (i - k)) by lia. apply andb_false_r.
Qed.

(** A call that returns a tuple, from its parts. *)
Lemma pair_parts {A B : Type} (t : A * B) a : fst t = a -> t = (a, snd t).
Proof. by destruct t; intros <-. Qed.

Lemma triple_parts {A B C : Type} (t : A * B * C) a : fst (fst t) = a -> t = (a, snd (fst t), snd t).
Proof. by destruct t as [[? ?] ?]; intros <-. Qed.

(** ** Counted loops *)

(** [for (i = lo; i < lo + n; i++) s = body(i, s)] *)
Fixpoint for_loop {S : Type} (n : nat) (lo : Z) (body : Z -> S -> S) (s : S) : S :=
  match n with
  | O => s
  | Datatypes.S n' => for_loop n' (lo + 1) body (body lo s)
  end.

Lemma for_loop_snoc {S : Type} (n : nat) (lo : Z) (body : Z -> S -> S) (s : S) :
  for_loop (Datatypes.S n) lo body s = body (lo + Z.of_nat n) (for_loop n lo body s).
Proof.
  revert lo s. induction n as [|n IH]; intros lo s; [cbn; by rewrite Z.add_0_r|].
  change (for_loop (Datatypes.S (Datatypes.S n)) lo body s) with (for_loop (Datatypes.S n) (lo + 1) body (body lo s)).
  rewrite IH. cbn [for_loop]. f_equal. lia.
Qed.

(** The loop that overwrites a range of an array acts on every index of the
    range, and on no other. *)
Lemma for_loop_upd {A : Type} (g : A -> A) (n : nat) (lo : Z) (a : Z -> A) (j : Z) :
  for_loop n lo (fun i b => b.[i <- g (b i)]) a j
  = if (lo <=? j) && (j <? lo + Z.of_nat n) then g (a j) else a j.
Proof.
  revert lo a. induction n as [|n IH]; intros lo a; cbn [for_loop].
  { destruct (Z.leb_spec lo j), (Z.ltb_spec j (lo + Z.of_nat 0)); cbn; auto; lia. }
  rewrite IH. unfold upd.
  destruct (Z.leb_spec (lo + 1) j), (Z.ltb_spec j (lo + 1 + Z.of_nat n)),
    (Z.leb_spec lo j), (Z.ltb_spec j (lo + Z.of_nat (S n))), (Z.eqb_spec j lo);
    cbn; subst; auto; lia.
Qed.

(** An invariant of the body is an invariant of the loop. *)
Lemma for_loop_ind {S : Type} (P : S -> Prop) (n : nat) (lo : Z) (body : Z -> S -> S) (s : S) :
  (forall i s', lo <= i < lo + Z.of_nat n -> P s' -> P (body i s')) ->
  P s -> P (for_loop n lo body s).
Proof.
  revert lo s. induction n as [|n IH]; intros lo s Hstep H0; cbn; auto.
  apply IH; [intros; apply Hstep; auto; lia | apply Hstep; auto; lia].
Qed.

(** First index of [lo .. lo+n-1] that satisfies a test. *)
Fixpoint find_index (n : nat) (lo : Z) (p : Z -> bool) : option Z :=
  match n with
  | O => None
  | S n' => if p lo then Some lo else find_index n' (lo + 1) p
  end.

Lemma find_index_Some n lo p i :
  find_index n lo p = Some i ->
  lo <= i < lo + Z.of_nat n /\ p i = true /\ (forall j, lo <= j < i -> p j = false).
Proof.
  revert lo. induction n as [|n IH]; intros lo H; cbn in H; [done|].
  destruct (p lo) eqn:E.
  - injection H as <-. repeat split; auto; lia.
  - apply IH in H as (? & ? & Hlt). split_and!; auto; try lia.
    intros j Hj. destruct (decide (j = lo)) as [->|]; auto. apply Hlt. lia.
Qed.

Lemma find_index_None n lo p :
  find_index n lo p = None <-> (forall j, lo <= j < lo + Z.of_nat n -> p j = false).
Proof.
  revert lo. induction n as [|n IH]; intros lo; cbn.
  { split; auto. intros; lia. }
  destruct (p lo) eqn:E.
  - split; [done|]. intros H. rewrite H in E by lia. done.
  - rewrite IH. split; intros H j Hj.
    + destruct (decide (j = lo)) as [->|]; auto. apply H. lia.
    + apply H. lia.
Qed.

Lemma find_index_ext n lo p q : (forall i, lo <= i < lo + Z.of_nat n -> p i = q i) -> find_index n lo p = find_index n lo q.
Proof.
  revert lo. induction n as [|n IH]; intros lo H; cbn; [done|]. rewrite H by lia.
  destruct (q lo); [done|]. apply IH. intros. apply H. lia.
Qed.

(** ** Sums over an index range *)

Fixpoint sum_range (n : nat) (lo : Z) (f : Z -> Z) : Z :=
  match n with
  | O => 0
  | S n' => f lo + sum_range n' (lo + 1) f
  end.

Lemma sum_range_ext n lo f g :
  (forall i, lo <= i < lo + Z.of_nat n -> f i = g i) -> sum_range n lo f = sum_range n lo g.
Proof.
  revert lo. induction n as [|n IH]; intros lo H; cbn; auto.
  rewrite H by lia. rewrite (IH (lo + 1)); auto. intros. apply H. lia.
Qed.

Lemma sum_range_zero n lo : sum_range n lo (fun _ => 0) = 0.
Proof. revert lo. induction n as [|n IH]; intros lo; cbn; rewrite ?IH; auto. Qed.

(** Changing the summand at one index changes the sum by the difference. *)
Lemma sum_range_upd n lo f g k :
  lo <= k < lo + Z.of_nat n ->
  (forall i, lo <= i < lo + Z.of_nat n -> i <> k -> g i = f i) ->
  sum_range n lo g = sum_range n lo f - f k + g k.
Proof.
  revert lo. induction n as [|n IH]; intros lo Hk Hg; cbn; [lia|].
  destruct (decide (k = lo)) as [->|Hne].
  - rewrite (sum_range_ext n (lo + 1) g f); [lia|]. intros. apply Hg; lia.
  - rewrite (IH (lo + 1)) by (auto with lia || intros; apply Hg; lia).
    rewrite (Hg lo) by lia. lia.
Qed.

Lemma sum_range_assign n lo f k v :
  lo <= k < lo + Z.of_nat n -> sum_range n lo f.[k <- v] = sum_range n lo f - f k + v.
Proof.
  intros Hk. rewrite (sum_range_upd n lo f f.[k <- v] k Hk), upd_eq; auto using upd_ne.
Qed.

Lemma sum_range_app n m lo f :
  sum_range (n + m) lo f = sum_range n lo f + sum_range m (lo + Z.of_nat n) f.
Proof.
  revert lo. induction n as [|n IH]; intros lo; cbn.
  { by rewrite Z.add_0_r. }
  rewrite IH. replace (lo + 1 + Z.of_nat n) with (lo + Z.of_nat (S n)) by lia. lia.
Qed.

Lemma sum_range_nonneg n lo f :
  (forall i, lo <= i < lo + Z.of_nat n -> 0 <= f i) -> 0 <= sum_range n lo f.
Proof.
  revert lo. induction n as [|n IH]; intros lo H; cbn; [lia|].
  pose proof (H lo ltac:(lia)). pose proof (IH (lo + 1) ltac:(intros; apply H; lia)). lia.
Qed.

Lemma sum_range_le_one n lo f k :
  (forall i, lo <= i < lo + Z.of_nat n -> 0 <= f i) ->
  lo <= k < lo + Z.of_nat n -> f k <= sum_range n lo f.
Proof.
  intros Hpos Hk.
  pose proof (sum_range_upd n lo f (fun i => if i =? k then 0 else f i) k Hk) as Hs.
  cbv beta in Hs. rewrite Z.eqb_refl in Hs.
  assert (0 <= sum_range n lo (fun i => if i =? k then 0 else f i)).
  { apply sum_range_nonneg. intros i Hi. destruct (i =? k); [lia|auto]. }
  rewrite Hs in H; [lia|]. intros i _ Hne. by rewrite (proj2 (Z.eqb_neq i k) Hne).
Qed.

(** ** Powers of four, the cell sizes of the physical allocator *)

Lemma pow4_pos k : 0 <= k -> 0 < 4 ^ k.
Proof. intros. by apply Z.pow_pos_nonneg. Qed.

Lemma pow4_succ k : 0 <= k -> 4 ^ (k + 1) = 4 * 4 ^ k.
Proof. intros. rewrite Z.pow_add_r by lia. lia. Qed.

#[export] Hint Resolve pow4_pos : yam.

(** Destruct the boolean tests of a goal or hypothesis, keeping their
    meaning as hypotheses that [lia] reads. *)
Ltac case_bool :=
  match goal with
  | |- context [if ?b then _ else _] => destruct b eqn:?
  | H : context [if ?b then _ else _] |- _ => destruct b eqn:?
  end.
