(* ===== verification/Ring.v ===== *)
(** * Ring buffers and the bounded-queue interface

    The kernel keeps its queues in circular arrays: the two directions of an
    IPC channel and pipes count their elements, the keyboard, event, gesture,
    terminal, window and TCP queues tell full from empty by leaving one slot
    free.  [window] is the part of the array that holds the queue; [Fifo]
    states what every such queue promises, and [fifo_trace] is the
    consequence clients use: what comes out is what went in, in order. *)

From S2P Require Import Prelude.

(** ** The occupied part of a circular array *)

(** The [n] elements from index [start] on, modulo [N]. *)
Definition window {A : Type} (N : Z) (buf : Z -> A) (start n : Z) : list A :=
  map (fun i => buf ((start + i) mod N)) (seqZ 0 n).

Section window.
Context {A : Type} (N : Z).
Implicit Types (buf : Z -> A) (x : A).

Lemma window_length buf start n : length (window N buf start n) = Z.to_nat n.
Proof. unfold window. by rewrite length_map, length_seqZ. Qed.

Lemma window_nil buf start : window N buf start 0 = [].
Proof. done. Qed.

Lemma window_ext buf buf' start n :
  (forall i, 0 <= i < n -> buf ((start + i) mod N) = buf' ((start + i) mod N)) ->
  window N buf start n = window N buf' start n.
Proof.
  intros H. unfold window. apply map_ext_in. intros i Hi.
  apply list_elem_of_In, elem_of_seqZ in Hi. apply H. lia.
Qed.

Lemma window_mod buf start n : window N buf (start mod N) n = window N buf start n.
Proof. unfold window. apply map_ext. intros i. by rewrite Zplus_mod_idemp_l. Qed.

Lemma window_snoc buf start n :
  0 <= n -> window N buf start (n + 1) = window N buf start n ++ [buf ((start + n) mod N)].
Proof.
  intros Hn. unfold window. by rewrite seqZ_app, map_app by lia.
Qed.

Lemma window_cons buf start n :
  0 < n -> window N buf start n = buf (start mod N) :: window N buf ((start + 1) mod N) (n - 1).
Proof.
  intros Hn. rewrite window_mod. unfold window. rewrite seqZ_cons by lia. cbn.
  rewrite Z.add_0_r. f_equal. replace (Z.pred n) with (n - 1) by lia.
  replace (Z.succ 0) with (1 + 0) by lia. rewrite <- (fmap_add_seqZ 1 0), map_map.
  apply map_ext. intros i. f_equal. f_equal. lia.
Qed.

(** Storing behind the window leaves the window alone while it is not full. *)
Lemma window_store buf start n x :
  0 <= n < N -> window N buf.[(start + n) mod N <- x] start n = window N buf start n.
Proof.
  intros Hn. apply window_ext. intros i Hi. apply upd_ne.
  intros E. assert ((start + n) mod N - (start + i) mod N = 0) as E' by lia.
  assert ((n - i) mod N = 0) as Hz.
  { replace (n - i) with ((start + n) - (start + i)) by lia. rewrite Zminus_mod, E'. done. }
  rewrite Z.mod_small in Hz by lia. lia.
Qed.

Lemma window_push buf start n x :
  0 <= n < N -> window N buf.[(start + n) mod N <- x] start (n + 1) = window N buf start n ++ [x].
Proof. intros Hn. by rewrite window_snoc, upd_eq, window_store by lia. Qed.
End window.

(** ** Bounded queues *)

Class Fifo (Q A : Type) := {
  fifo_ok : Q -> Prop;
  fifo_contents : Q -> list A;
  fifo_cap : Z;
  fifo_put : A -> Q -> bool * Q;
  fifo_take : Q -> option A * Q
}.

(** [put] accepts an element exactly while there is room, at the end; [take]
    removes the first element, if there is one. *)
Class FifoLaws (Q A : Type) `{Fifo Q A} := {
  fifo_put_ok x q : fifo_ok q -> fifo_ok (snd (fifo_put x q));
  fifo_put_accepts x q : fifo_ok q ->
    fst (fifo_put x q) = (Z.of_nat (length (fifo_contents q)) <? fifo_cap);
  fifo_put_contents x q : fifo_ok q -> fifo_contents (snd (fifo_put x q)) =
    fifo_contents q ++ (if fst (fifo_put x q) then [x] else []);
  fifo_take_ok q : fifo_ok q -> fifo_ok (snd (fifo_take q));
  fifo_take_first q : fifo_ok q -> fst (fifo_take q) = head (fifo_contents q);
  fifo_take_contents q : fifo_ok q -> fifo_contents (snd (fifo_take q)) = tail (fifo_contents q)
}.

Inductive fifo_op (A : Type) := Put (x : A) | Take.
Arguments Put {A} x.
Arguments Take {A}.

(** The elements accepted and the elements delivered by a run of calls. *)
Fixpoint fifo_run {Q A} `{Fifo Q A} (ops : list (fifo_op A)) (q : Q) : list A * list A * Q :=
  match ops with
  | [] => ([], [], q)
  | Put x :: ops =>
      let '(accepted, delivered, q') := fifo_run ops (snd (fifo_put x q)) in
      ((if fst (fifo_put x q) then [x] else []) ++ accepted, delivered, q')
  | Take :: ops =>
      let '(accepted, delivered, q') := fifo_run ops (snd (fifo_take q)) in
      (accepted, option_list (fst (fifo_take q)) ++ delivered, q')
  end.

Section laws.
Context {Q A : Type} `{FifoLaws Q A}.

Lemma fifo_take_split (q : Q) : fifo_ok q ->
  fifo_contents q = option_list (fst (fifo_take q)) ++ fifo_contents (snd (fifo_take q)).
Proof.
  intros Hq. rewrite fifo_take_first, fifo_take_contents by done.
  by destruct (fifo_contents q).
Qed.

(** Nothing is lost, duplicated or reordered: what was in the queue and what
    it accepted is what it delivered and what it still holds. *)
Lemma fifo_trace ops (q : Q) : fifo_ok q ->
  let '(accepted, delivered, q') := fifo_run ops q in
  fifo_ok q' /\ fifo_contents q ++ accepted = delivered ++ fifo_contents q'.
Proof.
  revert q. induction ops as [|[x|] ops IH]; intros q Hq; cbn [fifo_run].
  - by rewrite app_nil_r.
  - specialize (IH _ (fifo_put_ok x q Hq)). pose proof (fifo_put_contents x q Hq) as E.
    destruct (fifo_run ops (snd (fifo_put x q))) as [[acc del] q']. destruct IH as [Hok IH].
    split; [done|]. by rewrite <- IH, E, app_assoc.
  - specialize (IH _ (fifo_take_ok q Hq)). pose proof (fifo_take_split q Hq) as E.
    destruct (fifo_run ops (snd (fifo_take q))) as [[acc del] q']. destruct IH as [Hok IH].
    split; [done|]. by rewrite E, <- !app_assoc, IH.
Qed.
End laws.

(** ** Rings that leave one slot free

    [wr] is the index of the next store and [rd] of the next load; the queue
    is full when [wr + 1] meets [rd]. *)

Definition ring_next (N i : Z) : Z := (i + 1) mod N.
Definition ring_used (N wr rd : Z) : Z := (wr - rd) mod N.
Definition ring_queue {A : Type} (N : Z) (buf : Z -> A) (wr rd : Z) : list A :=
  window N buf rd (ring_used N wr rd).

Section open_ring.
Context {A : Type} (N wr rd : Z) (HN : 1 < N) (Hwr : 0 <= wr < N) (Hrd : 0 <= rd < N).
Implicit Types (buf : Z -> A).

Lemma ring_full_iff : ring_next N wr = rd <-> ring_used N wr rd = N - 1.
Proof.
  unfold ring_next, ring_used. destruct (decide (rd <= wr)).
  - rewrite (Z.mod_small (wr - rd)) by lia. destruct (decide (wr + 1 = N)) as [E|].
    + rewrite E, Z.mod_same by lia. lia.
    + rewrite Z.mod_small by lia. lia.
  - rewrite (Z.mod_small (wr + 1)) by lia.
    replace (wr - rd) with (wr - rd + N + -1 * N) by lia. rewrite Z.mod_add, Z.mod_small by lia. lia.
Qed.

Lemma ring_used_range : 0 <= ring_used N wr rd < N.
Proof. apply Z.mod_pos_bound. lia. Qed.

Lemma ring_used_zero : ring_used N wr rd = 0 <-> wr = rd.
Proof.
  unfold ring_used. split; [|intros ->; by rewrite Z.sub_diag].
  intros H. rewrite Z.mod_divide in H by lia. destruct H as [k Hk].
  assert (k <= -1 \/ k = 0 \/ 1 <= k) as [?|[->|?]] by lia; nia.
Qed.

Lemma ring_end : (rd + ring_used N wr rd) mod N = wr.
Proof.
  unfold ring_used. rewrite Zplus_mod_idemp_r. replace (rd + (wr - rd)) with wr by lia.
  apply Z.mod_small. lia.
Qed.

Lemma ring_next_range i : 0 <= ring_next N i < N.
Proof. apply Z.mod_pos_bound. lia. Qed.

Lemma ring_used_put : ring_next N wr <> rd -> ring_used N (ring_next N wr) rd = ring_used N wr rd + 1.
Proof.
  intros Hf. rewrite ring_full_iff in Hf. pose proof ring_used_range.
  assert (ring_used N (ring_next N wr) rd = (ring_used N wr rd + 1) mod N) as ->.
  { unfold ring_used, ring_next. rewrite Zplus_mod_idemp_l, Zminus_mod_idemp_l. f_equal. lia. }
  apply Z.mod_small. lia.
Qed.

Lemma ring_used_take : wr <> rd -> ring_used N wr (ring_next N rd) = ring_used N wr rd - 1.
Proof.
  intros He. rewrite <- ring_used_zero in He. pose proof ring_used_range.
  assert (ring_used N wr (ring_next N rd) = (ring_used N wr rd - 1) mod N) as ->.
  { unfold ring_used, ring_next. rewrite Zminus_mod_idemp_r, Zminus_mod_idemp_l. f_equal. lia. }
  apply Z.mod_small. lia.
Qed.

Lemma ring_queue_length buf : Z.of_nat (length (ring_queue N buf wr rd)) = ring_used N wr rd.
Proof. unfold ring_queue. rewrite window_length. pose proof ring_used_range. lia. Qed.

Lemma ring_queue_nil buf : wr = rd -> ring_queue N buf wr rd = [].
Proof. intros E. unfold ring_queue. by rewrite (proj2 ring_used_zero E). Qed.

Lemma ring_queue_put buf x :
  ring_next N wr <> rd ->
  ring_queue N buf.[wr <- x] (ring_next N wr) rd = ring_queue N buf wr rd ++ [x].
Proof.
  intros Hf. unfold ring_queue. rewrite ring_used_put by done. rewrite ring_full_iff in Hf.
  pose proof ring_used_range as Hr. rewrite <- (window_push N buf rd _ x Hr). by rewrite ring_end.
Qed.

Lemma ring_queue_take buf :
  wr <> rd -> ring_queue N buf wr rd = buf rd :: ring_queue N buf wr (ring_next N rd).
Proof.
  intros He. unfold ring_queue. rewrite ring_used_take by done. rewrite <- ring_used_zero in He.
  pose proof ring_used_range. rewrite (window_cons N) by lia.
  by rewrite (Z.mod_small rd) by lia.
Qed.
End open_ring.
