(* ===== verification/Mem.v ===== *)
(** * Byte memory

    Memory as a total function from addresses to bytes, with little-endian
    loads and stores of 1 to 8 bytes, as the components that keep their
    structures in raw memory (string library, heap, page tables) use it. *)

From S2P Require Import Prelude.

Module Mem.

Definition mem := Z -> Z.

(** Little-endian load and store of [n] bytes. *)
Fixpoint load (n : nat) (a : Z) (m : mem) : Z :=
  match n with
  | O => 0
  | S n' => m a + 256 * load n' (a + 1) m
  end.

Fixpoint store (n : nat) (a v : Z) (m : mem) : mem :=
  match n with
  | O => m
  | S n' => store n' (a + 1) (v / 256) (m.[a <- v mod 256])
  end.

Definition bytes (m : mem) : Prop := forall a, 0 <= m a < 256.

Lemma store_outside n a v m b : b < a \/ a + Z.of_nat n <= b -> store n a v m b = m b.
Proof.
  revert a v m. induction n as [|n IH]; intros a v m Hb; cbn [store]; [done|].
  rewrite IH by lia. apply upd_ne. lia.
Qed.

Lemma load_ext n a m m' : (forall b, a <= b < a + Z.of_nat n -> m' b = m b) -> load n a m' = load n a m.
Proof.
  revert a. induction n as [|n IH]; intros a Hm; cbn [load]; [done|].
  rewrite Hm by lia. rewrite IH; [done|]. intros b Hb. apply Hm. lia.
Qed.

Lemma load_store_other n k a b v m :
  b + Z.of_nat k <= a \/ a + Z.of_nat n <= b -> load k b (store n a v m) = load k b m.
Proof. intros H. apply load_ext. intros c Hc. apply store_outside. lia. Qed.

Lemma load_store_same n a v m : 0 <= v < 256 ^ Z.of_nat n -> load n a (store n a v m) = v.
Proof.
  revert a v m. induction n as [|n IH]; intros a v m Hv; cbn [load store].
  - rewrite Z.pow_0_r in Hv. lia.
  - rewrite Nat2Z.inj_succ, Z.pow_succ_r in Hv by lia.
    rewrite IH by (split; [apply Z.div_pos; lia|apply Z.div_lt_upper_bound; lia]).
    rewrite store_outside by lia. rewrite upd_eq. pose proof (Z.div_mod v 256). lia.
Qed.

Lemma load_range n a m : bytes m -> 0 <= load n a m < 256 ^ Z.of_nat n.
Proof.
  intros Hm. revert a. induction n as [|n IH]; intros a; cbn [load]; [rewrite Z.pow_0_r; lia|].
  rewrite Nat2Z.inj_succ, Z.pow_succ_r by lia. specialize (IH (a + 1)). specialize (Hm a). lia.
Qed.

Lemma store_bytes n a v m : bytes m -> bytes (store n a v m).
Proof.
  revert a v m. induction n as [|n IH]; intros a v m Hm; cbn [store]; [done|].
  apply IH. intros b. unfold upd. destruct (b =? a); [|apply Hm]. apply Z.mod_pos_bound. lia.
Qed.

(** ** Images in memory *)

(** The memory image of an integer field of [n] bytes. *)
Fixpoint le (n : nat) (v : Z) : list Z :=
  match n with
  | O => []
  | S n' => v mod 256 :: le n' (v / 256)
  end.

(** The bytes [l] at offset [off]. *)
Definition holds (b : mem) (off : Z) (l : list Z) : Prop :=
  forall i, 0 <= i < Z.of_nat (length l) -> b (off + i) = nth (Z.to_nat i) l 0.

Lemma le_length n v : length (le n v) = n.
Proof. revert v. induction n as [|n IH]; intros v; cbn; [done|]. by rewrite IH. Qed.

Lemma holds_cons b off x l : holds b off (x :: l) <-> b off = x /\ holds b (off + 1) l.
Proof.
  unfold holds. cbn [length]. split.
  - intros H. split; [specialize (H 0 ltac:(lia)); by rewrite Z.add_0_r in H|].
    intros i Hi. specialize (H (1 + i) ltac:(lia)). replace (Z.to_nat (1 + i)) with (S (Z.to_nat i)) in H by lia.
    cbn in H. rewrite <- H. f_equal. lia.
  - intros [H0 H] i Hi. destruct (decide (i = 0)) as [->|]; [by rewrite Z.add_0_r|].
    specialize (H (i - 1) ltac:(lia)). replace (Z.to_nat i) with (S (Z.to_nat (i - 1))) by lia. cbn. rewrite <- H. f_equal. lia.
Qed.

Lemma holds_nil b off : holds b off [].
Proof. intros i Hi. cbn in Hi. lia. Qed.

Lemma holds_app b off l1 l2 : holds b off (l1 ++ l2) <-> holds b off l1 /\ holds b (off + Z.of_nat (length l1)) l2.
Proof.
  revert off. induction l1 as [|x l1 IH]; intros off; cbn [app length].
  - change (Z.of_nat 0) with 0. rewrite Z.add_0_r. split; [split; [apply holds_nil|done]|by intros [_ H]].
  - rewrite !holds_cons, IH. replace (off + 1 + Z.of_nat (length l1)) with (off + Z.of_nat (S (length l1))) by lia. tauto.
Qed.

Lemma load_le n v b off : holds b off (le n v) -> 0 <= v < 256 ^ Z.of_nat n -> load n off b = v.
Proof.
  revert v off. induction n as [|n IH]; intros v off H Hv; cbn [load le] in *.
  - rewrite Z.pow_0_r in Hv. lia.
  - apply holds_cons in H as [-> H]. rewrite Nat2Z.inj_succ, Z.pow_succ_r in Hv by lia.
    rewrite (IH (v / 256)); [pose proof (Z.div_mod v 256); lia|done|].
    split; [apply Z.div_pos; lia|apply Z.div_lt_upper_bound; lia].
Qed.

End Mem.
