(* ===== verification/Str.v ===== *)
(** * The kernel's string library (src/src/lib/string.c)

    Byte copies and C strings over the byte memory of Mem.  Loops over a
    terminated string take the number of rounds as fuel; the theorems give the
    result for every fuel that reaches the terminator. *)

From S2P Require Import Prelude Mem.
Import Mem.

Module Str.

(** ** Copies *)

(** rep stosb: [dest] and the count advance together, and the advanced pointer
    is what the function returns. *)
Definition memset (dest val count : Z) (m : mem) : Z * mem :=
  (dest + count, for_loop (Z.to_nat count) 0 (fun i m => m.[dest + i <- u8 val]) m).

(** rep movsb *)
Definition memcpy (dest src count : Z) (m : mem) : Z * mem :=
  (dest, for_loop (Z.to_nat count) 0 (fun i m => m.[dest + i <- m (src + i)]) m).

(** [for (i = count; i > 0; i--) d[i - 1] = s[i - 1];] *)
Fixpoint copy_down (n : nat) (d s : Z) (m : mem) : mem :=
  match n with
  | O => m
  | S n' => copy_down n' d s (m.[d + Z.of_nat n' <- m (s + Z.of_nat n')])
  end.

Definition memmove (dest src count : Z) (m : mem) : Z * mem :=
  (dest, if dest <? src then for_loop (Z.to_nat count) 0 (fun i m => m.[dest + i <- m (src + i)]) m
         else copy_down (Z.to_nat count) dest src m).

Fixpoint cmp_loop (n : nat) (a b : Z) (m : mem) : Z :=
  match n with
  | O => 0
  | S n' => if m a =? m b then cmp_loop n' (a + 1) (b + 1) m else m a - m b
  end.

Definition memcmp (a b count : Z) (m : mem) : Z := cmp_loop (Z.to_nat count) a b m.

(** ** Strings *)

Fixpoint strchr (fuel : nat) (s c : Z) (m : mem) : Z :=
  match fuel with
  | O => 0
  | S fuel' =>
      if m s =? 0 then if u8 c =? 0 then s else 0
      else if m s =? u8 c then s else strchr fuel' (s + 1) c m
  end.

Fixpoint len_loop (fuel : nat) (s len : Z) (m : mem) : Z :=
  match fuel with
  | O => len
  | S fuel' => if m (s + len) =? 0 then len else len_loop fuel' s (len + 1) m
  end.

Definition strlen (fuel : nat) (s : Z) (m : mem) : Z := len_loop fuel s 0 m.

Fixpoint strcmp (fuel : nat) (a b : Z) (m : mem) : Z :=
  match fuel with
  | O => 0
  | S fuel' =>
      if negb (m a =? 0) && (m a =? m b) then strcmp fuel' (a + 1) (b + 1) m else m a - m b
  end.

Fixpoint strncmp_loop (n : nat) (a b : Z) (m : mem) : Z :=
  match n with
  | O => 0
  | S n' =>
      if negb (m a =? m b) then m a - m b
      else if m a =? 0 then 0 else strncmp_loop n' (a + 1) (b + 1) m
  end.

Definition strncmp (a b n : Z) (m : mem) : Z := strncmp_loop (Z.to_nat n) a b m.

Fixpoint cpy_loop (fuel : nat) (d s : Z) (m : mem) : mem :=
  match fuel with
  | O => m
  | S fuel' =>
      let c := m s in
      let m := m.[d <- c] in
      if c =? 0 then m else cpy_loop fuel' (d + 1) (s + 1) m
  end.

Definition strcpy (fuel : nat) (dest src : Z) (m : mem) : Z * mem := (dest, cpy_loop fuel dest src m).

(** The two loops of strncpy; [n] characters of the field are left. *)
Fixpoint ncpy_loop (n : nat) (d s : Z) (m : mem) : mem :=
  match n with
  | O => m
  | S n' =>
      if m s =? 0 then for_loop n 0 (fun i m => m.[d + i <- 0]) m
      else ncpy_loop n' (d + 1) (s + 1) (m.[d <- m s])
  end.

Definition strncpy (dest src n : Z) (m : mem) : Z * mem := (dest, ncpy_loop (Z.to_nat n) dest src m).

(** The inner loop of strstr: whether it leaves [n] at the needle's end. *)
Fixpoint match_loop (fuel : nat) (h n : Z) (m : mem) : bool :=
  match fuel with
  | O => false
  | S fuel' =>
      if negb (m h =? 0) && negb (m n =? 0) && (m h =? m n) then match_loop fuel' (h + 1) (n + 1) m
      else m n =? 0
  end.

Fixpoint strstr_loop (fuel : nat) (h needle : Z) (m : mem) : Z :=
  match fuel with
  | O => 0
  | S fuel' =>
      if m h =? 0 then 0
      else if (m h =? m needle) && match_loop fuel h needle m then h
      else strstr_loop fuel' (h + 1) needle m
  end.

Definition strstr (fuel : nat) (haystack needle : Z) (m : mem) : Z :=
  if m needle =? 0 then haystack else strstr_loop fuel haystack needle m.

(** ** Copies move the bytes that were there before *)

Definition copied (d s n : Z) (m : mem) (a : Z) : Z :=
  if (d <=? a) && (a <? d + n) then m (s + (a - d)) else m a.

Lemma copy_up_ok n d s lo (m : mem) a : d <= s \/ s + lo + Z.of_nat n <= d + lo ->
  for_loop n lo (fun i (m : mem) => m.[d + i <- m (s + i)]) m a
  = if (d + lo <=? a) && (a <? d + lo + Z.of_nat n) then m (s + (a - d)) else m a.
Proof.
  revert lo m. induction n as [|n IH]; intros lo m H; cbn [for_loop].
  - destruct (Z.leb_spec (d + lo) a), (Z.ltb_spec a (d + lo + Z.of_nat 0)); cbn; auto; lia.
  - rewrite IH by lia. unfold upd.
    destruct (Z.leb_spec (d + (lo + 1)) a), (Z.ltb_spec a (d + (lo + 1) + Z.of_nat n)),
      (Z.leb_spec (d + lo) a), (Z.ltb_spec a (d + lo + Z.of_nat (S n))); cbn [andb]; try lia;
      repeat match goal with |- context [?x =? ?y] => destruct (Z.eqb_spec x y) end; try lia; auto; f_equal; lia.
Qed.

Lemma copy_down_ok n d s m a : s <= d ->
  copy_down n d s m a = if (d <=? a) && (a <? d + Z.of_nat n) then m (s + (a - d)) else m a.
Proof.
  revert m. induction n as [|n IH]; intros m H; cbn [copy_down].
  - destruct (Z.leb_spec d a), (Z.ltb_spec a (d + Z.of_nat 0)); cbn; auto; lia.
  - rewrite IH by lia. unfold upd.
    destruct (Z.leb_spec d a), (Z.ltb_spec a (d + Z.of_nat n)), (Z.ltb_spec a (d + Z.of_nat (S n)));
      cbn [andb]; try lia;
      repeat match goal with |- context [?x =? ?y] => destruct (Z.eqb_spec x y) end; try lia; auto; f_equal; lia.
Qed.


(** ** Strings *)

(** The terminated string at [s] holds the characters [l]. *)
Fixpoint cstr (m : mem) (s : Z) (l : list Z) : Prop :=
  match l with
  | [] => m s = 0
  | c :: l' => m s = c /\ c <> 0 /\ cstr m (s + 1) l'
  end.

Lemma strlen_ok fuel m s l k : cstr m (s + k) l -> (length l < fuel)%nat ->
  len_loop fuel s k m = k + Z.of_nat (length l).
Proof.
  revert fuel k. induction l as [|c l IH]; intros [|fuel] k Hs Hf; cbn [length] in *; try lia; cbn [len_loop].
  - cbn in Hs. rewrite Hs. cbn. lia.
  - destruct Hs as (-> & Hc & Hs). rewrite (proj2 (Z.eqb_neq _ _) Hc). rewrite IH; [lia| |lia].
    by replace (s + (k + 1)) with (s + k + 1) by lia.
Qed.

Lemma strcmp_ok fuel m a b la lb : cstr m a la -> cstr m b lb -> (length la < fuel)%nat ->
  strcmp fuel a b m = 0 <-> la = lb.
Proof.
  revert fuel a b lb. induction la as [|c la IH]; intros [|fuel] a b lb Ha Hb Hf; cbn [length] in *; try lia;
    cbn [strcmp].
  - cbn in Ha. rewrite Ha. cbn [Z.eqb negb andb]. destruct lb as [|d lb].
    + cbn in Hb. rewrite Hb. done.
    + destruct Hb as (-> & Hd & _). split; [lia|done].
  - destruct Ha as (-> & Hc & Ha). rewrite (proj2 (Z.eqb_neq _ _) Hc). cbn [negb andb].
    destruct lb as [|d lb].
    + cbn in Hb. rewrite Hb, (proj2 (Z.eqb_neq _ _) Hc). split; [lia|done].
    + destruct Hb as (-> & Hd & Hb). destruct (Z.eqb_spec c d) as [->|Hne].
      * rewrite (IH fuel _ _ lb); auto; [|lia]. split; [by intros ->|]. congruence.
      * split; [lia|congruence].
Qed.

Lemma match_ok fuel m h n lh ln : cstr m h lh -> cstr m n ln -> (length lh < fuel)%nat ->
  match_loop fuel h n m = true <-> ln `prefix_of` lh.
Proof.
  revert fuel h n ln. induction lh as [|c lh IH]; intros [|fuel] h n ln Hh Hn Hf; cbn [length] in *; try lia;
    cbn [match_loop].
  - cbn in Hh. rewrite Hh. cbn [Z.eqb negb andb]. destruct ln as [|d ln].
    + cbn in Hn. rewrite Hn. split; [intros _; apply prefix_nil|done].
    + destruct Hn as (-> & Hd & _). rewrite (proj2 (Z.eqb_neq _ _) Hd).
      split; [done|]. by intros ?%prefix_nil_not.
  - destruct Hh as (-> & Hc & Hh). rewrite (proj2 (Z.eqb_neq _ _) Hc). cbn [negb andb].
    destruct ln as [|d ln].
    + cbn in Hn. rewrite Hn. cbn. split; [intros _; apply prefix_nil|done].
    + destruct Hn as (-> & Hd & Hn). rewrite (proj2 (Z.eqb_neq _ _) Hd). cbn [negb andb].
      destruct (Z.eqb_spec c d) as [->|Hne].
      * rewrite (IH fuel _ _ ln); auto; [|lia]. split; [apply prefix_cons|apply prefix_cons_inv_2].
      * split; [done|]. intros ?%prefix_cons_inv_1. congruence.
Qed.

(** [k] is the first place in [lh] where [ln] occurs. *)
Definition first_at (ln lh : list Z) (k : nat) : Prop :=
  ln `prefix_of` drop k lh /\ forall j, (j < k)%nat -> ~ ln `prefix_of` drop j lh.

Lemma strstr_loop_ok fuel m h n lh ln :
  0 < h -> cstr m h lh -> cstr m n ln -> ln <> [] -> (length lh < fuel)%nat ->
  (exists k, (k < length lh)%nat /\ first_at ln lh k /\ strstr_loop fuel h n m = h + Z.of_nat k) \/
  (strstr_loop fuel h n m = 0 /\ forall k, ~ ln `prefix_of` drop k lh).
Proof.
  revert fuel h. induction lh as [|c lh IH]; intros [|fuel] h H0 Hh Hn Hnil Hf; cbn [length] in *; try lia;
    cbn [strstr_loop].
  { right. cbn in Hh. rewrite Hh. split; [done|]. intros k. rewrite drop_nil. destruct ln; [done|apply prefix_nil_not]. }
  pose proof (match_ok (S fuel) m h n (c :: lh) ln Hh Hn ltac:(cbn; lia)) as Hm.
  destruct Hh as (Hc & Hc0 & Hh). rewrite Hc, (proj2 (Z.eqb_neq _ _) Hc0).
  assert ((c =? m n) && match_loop (S fuel) h n m = match_loop (S fuel) h n m) as ->.
  { destruct (match_loop (S fuel) h n m) eqn:E; [|apply andb_false_r]. destruct ln as [|d ln]; [done|].
    destruct Hm as [Hm _]. specialize (Hm eq_refl). apply prefix_cons_inv_1 in Hm as ->.
    destruct Hn as (-> & _). by rewrite Z.eqb_refl. }
  destruct (match_loop (S fuel) h n m).
  - left. exists 0%nat. split; [lia|]. split; [|lia]. split; [by apply Hm|intros; lia].
  - assert (~ ln `prefix_of` c :: lh) as Hno by (intros H; by apply Hm in H).
    destruct (IH fuel (h + 1)) as [(k & Hk & [P1 P2] & ->)|[-> P]]; auto; try lia.
    + left. exists (S k). split; [lia|]. split; [|lia]. split; [done|].
      intros [|j] Hj; [done|]. apply P2. lia.
    + right. split; [done|]. intros [|k]; [done|apply P].
Qed.

(** memmove copies the bytes the source range held before the call, for any
    overlap of the two ranges, returns the destination and changes nothing
    else. *)
Theorem memmove_overlap dest src n m :
  0 <= n -> fst (memmove dest src n m) = dest /\ forall a, snd (memmove dest src n m) a = copied dest src n m a.
Proof.
  intros Hn. split; [done|]. intros a. unfold memmove, copied. cbn [snd].
  destruct (Z.ltb_spec dest src).
  - rewrite copy_up_ok by lia. by rewrite Z.add_0_r, Z2Nat.id.
  - rewrite copy_down_ok by lia. by rewrite Z2Nat.id.
Qed.

Lemma memmove_overlap_witness : snd (memmove 101 100 3 (fun a => a - 90)) 103 = 12.
Proof. destruct (memmove_overlap 101 100 3 (fun a => a - 90)) as [_ ->]; [lia|reflexivity]. Defined.

(** [strstr] returns the address of the first occurrence of the needle in the
    haystack, and NULL exactly when there is none. *)
Theorem strstr_first fuel m h n lh ln :
  0 < h -> cstr m h lh -> cstr m n ln -> (length lh < fuel)%nat ->
  (exists k, (k <= length lh)%nat /\ first_at ln lh k /\ strstr fuel h n m = h + Z.of_nat k) \/
  (strstr fuel h n m = 0 /\ forall k, ~ ln `prefix_of` drop k lh).
Proof.
  intros H0 Hh Hn Hf. unfold strstr. destruct ln as [|c ln].
  - cbn in Hn. rewrite Hn. left. exists 0%nat. split; [lia|]. split; [|cbn; lia].
    split; [apply prefix_nil|intros; lia].
  - pose proof Hn as (E & Hc & _). rewrite E, (proj2 (Z.eqb_neq _ _) Hc).
    destruct (strstr_loop_ok fuel m h n lh (c :: ln)) as [(k & Hk & P)|P]; auto.
    left. exists k. split; [lia|done].
Qed.

(** ababc at 100, abc at 200 *)
Definition demo_strings : mem :=
  (fun _ => 0).[100 <- 97].[101 <- 98].[102 <- 97].[103 <- 98].[104 <- 99]
              .[200 <- 97].[201 <- 98].[202 <- 99].

Lemma strstr_first_witness : strstr 6 100 200 demo_strings = 102.
Proof.
  destruct (strstr_first 6 demo_strings 100 200 [97; 98; 97; 98; 99] [97; 98; 99])
    as [(k & Hk & _ & E)|[E _]].
  - lia.
  - vm_compute. repeat split; discriminate.
  - vm_compute. repeat split; discriminate.
  - cbn. lia.
  - exact (eq_refl 102).
  - exfalso. vm_compute in E. discriminate E.
Defined.

(** The bytes after memcpy of ranges that do not overlap. *)
Lemma memcpy_at d s n m a : 0 <= n -> s + n <= d \/ d + n <= s -> snd (memcpy d s n m) a = copied d s n m a.
Proof.
  intros Hn Hd. unfold memcpy, copied. cbn [snd]. rewrite copy_up_ok by lia. by rewrite Z.add_0_r, Z2Nat.id.
Qed.

(** The bytes after memset. *)
Lemma memset_at d v n m a : 0 <= n ->
  snd (memset d v n m) a = if (d <=? a) && (a <? d + n) then u8 v else m a.
Proof.
  intros Hn. unfold memset. cbn [snd].
  assert (forall k lo m, for_loop k lo (fun i (m : mem) => m.[d + i <- u8 v]) m a
    = if (d + lo <=? a) && (a <? d + lo + Z.of_nat k) then u8 v else m a) as Hl.
  { induction k as [|k IH]; intros lo m0; cbn [for_loop].
    - destruct (Z.leb_spec (d + lo) a), (Z.ltb_spec a (d + lo + Z.of_nat 0)); cbn; auto; lia.
    - rewrite IH. destruct (Z.leb_spec (d + (lo + 1)) a), (Z.ltb_spec a (d + (lo + 1) + Z.of_nat k)),
        (Z.leb_spec (d + lo) a), (Z.ltb_spec a (d + lo + Z.of_nat (S k))); cbn [andb]; try lia; try done;
        first [replace a with (d + lo) by lia; apply upd_eq|apply upd_ne; lia]. }
  rewrite Hl, Z.add_0_r, Z2Nat.id by lia. done.
Qed.

Lemma memset_bytes d v n m : bytes m -> bytes (snd (memset d v n m)).
Proof.
  intros Hb. unfold memset. cbn [snd]. apply for_loop_ind; [|done]. intros i m' _ Hm a.
  destruct (upd_cases m' (d + i) (u8 v) a) as [[_ ->]|[_ ->]]; [apply (wrap_range 8); lia|apply Hm].
Qed.

(** memset returns the end of the filled range. *)
Example memset_returns_end : fst (memset 1000 0 16 (fun _ => 1)) = 1016.
Proof. reflexivity. Qed.

End Str.
