(* ===== verification/Pmm.v ===== *)
(** * Physical memory manager (src/src/mem/pmm.c, pmm.h)

    The zone-aware cell allocator: a forest of cells, each split into four
    equal children on demand and merged back on free, with a page descriptor
    per frame and per-zone counters.  Module [Pmm] holds the state, one
    definition per function of pmm.c, and the theorems. *)

From S2P Require Import Prelude.

Module Pmm.

(** ** Constants and data (pmm.h) *)

Definition PAGE_SIZE : Z := 4096.
Definition PAGE_SHIFT : Z := 12.
Definition CELL_POOL_SIZE : Z := 16384.
Definition MAX_PHYS_PAGES : Z := 1024 * 1024.
Definition MAX_PRESSURE_CBS : Z := 8.
Definition NIL : Z := 0xFFFF.

Definition PAGE_FLAG_RESERVED : Z := 1.
Definition PAGE_FLAG_LRU : Z := 8.
Definition PAGE_FLAG_DIRTY : Z := 16.

Inductive mem_zone_type_t := ZONE_DMA | ZONE_DMA32 | ZONE_NORMAL.
#[export] Instance mem_zone_type_eq_dec : EqDecision mem_zone_type_t.
Proof. solve_decision. Defined.

Definition ZONE_DMA_LIMIT : Z := 0x1000000.
Definition ZONE_DMA32_LIMIT : Z := 0x100000000.

Inductive cell_state_t := CELL_FREE | CELL_SPLIT | CELL_USED | CELL_RESERVED.
#[export] Instance cell_state_eq_dec : EqDecision cell_state_t.
Proof. solve_decision. Defined.

Record watermark_t := { wm_min : Z; wm_low : Z; wm_high : Z }.
#[export] Instance eta_watermark : Eta watermark_t :=
  fun r => Build_watermark_t (wm_min r) (wm_low r) (wm_high r).

Record mem_zone_t := {
  z_start : Z;
  z_end : Z;
  total_pages : Z;
  free_pages : Z;
  alloc_count : Z;
  watermark : watermark_t
}.
#[export] Instance eta_mem_zone : Eta mem_zone_t :=
  fun r => Build_mem_zone_t (z_start r) (z_end r) (total_pages r) (free_pages r)
                            (alloc_count r) (watermark r).

Record page_t := {
  refcount : Z;
  flags : Z;
  zone : mem_zone_type_t;
  order : Z;
  pg_owner : Z
}.
#[export] Instance eta_page : Eta page_t :=
  fun r => Build_page_t (refcount r) (flags r) (zone r) (order r) (pg_owner r).

Record cell_t := {
  base : Z;
  size : Z;
  state : cell_state_t;
  owner : Z;
  parent : Z;
  children : Z -> Z
}.
#[export] Instance eta_cell : Eta cell_t :=
  fun r => Build_cell_t (base r) (size r) (state r) (owner r) (parent r) (children r).

(** The static variables of pmm.c.  [pressure_log] lists the calls made
    through the registered callbacks, oldest first. *)
Record pmm := {
  cells : Z -> cell_t;
  cell_count : Z;
  total_mem : Z;
  free_mem : Z;
  last_used_cell : Z;
  zones : mem_zone_type_t -> mem_zone_t;
  page_array : Z -> page_t;
  max_pfn : Z;
  pressure_cbs : Z -> Z;
  pressure_cb_count : Z;
  pressure_log : list (Z * mem_zone_type_t * Z)
}.
#[export] Instance eta_pmm : Eta pmm :=
  fun r => Build_pmm (cells r) (cell_count r) (total_mem r) (free_mem r) (last_used_cell r)
                     (zones r) (page_array r) (max_pfn r) (pressure_cbs r)
                     (pressure_cb_count r) (pressure_log r).

(** [cells[i] = c] *)
Definition set_cell (s : pmm) (i : Z) (c : cell_t) : pmm :=
  s <| cells := (cells s).[i <- c] |>.

Definition upd_zone (zs : mem_zone_type_t -> mem_zone_t) (z : mem_zone_type_t)
    (v : mem_zone_t) : mem_zone_type_t -> mem_zone_t :=
  fun z' => if decide (z' = z) then v else zs z'.

(** ** Helpers *)

Definition phys_to_pfn (phys : Z) : Z := Z.shiftr phys PAGE_SHIFT.
Definition pfn_to_phys (pfn : Z) : Z := u64 (Z.shiftl pfn PAGE_SHIFT).

Definition phys_to_zone (phys : Z) : mem_zone_type_t :=
  if phys <? ZONE_DMA_LIMIT then ZONE_DMA
  else if phys <? ZONE_DMA32_LIMIT then ZONE_DMA32
  else ZONE_NORMAL.

(** ** Cell pool *)

Definition no_children : Z -> Z := fun _ => NIL.

Definition cell_alloc_node (s : pmm) : Z * pmm :=
  if CELL_POOL_SIZE <=? cell_count s then (NIL, s)
  else
    let idx := cell_count s in
    let c := cells s idx in
    let c := c <| children := no_children |> <| parent := NIL |> <| owner := 0 |> in
    (idx, (set_cell s idx c) <| cell_count := u16 (idx + 1) |>).

(** One round of cell_split's [for] loop: child [i] of [idx], [None] when the
    cell pool is exhausted (the source then returns false at once). *)
Definition cell_split_child (i idx child_size : Z) (s : pmm) : option pmm :=
  let '(child, s) := cell_alloc_node s in
  if child =? NIL then None
  else
    let ch := (cells s child) <| base := u64 (base (cells s idx) + i * child_size) |>
                              <| size := child_size |>
                              <| state := CELL_FREE |>
                              <| parent := idx |> in
    let s := set_cell s child ch in
    let c := cells s idx in
    Some (set_cell s idx (c <| children := (children c).[i <- child] |>)).

Fixpoint cell_split_loop (n : nat) (i idx child_size : Z) (s : pmm) : bool * pmm :=
  match n with
  | O => (true, s)
  | S n' =>
      match cell_split_child i idx child_size s with
      | None => (false, s)
      | Some s => cell_split_loop n' (i + 1) idx child_size s
      end
  end.

Definition cell_split (idx : Z) (s : pmm) : bool * pmm :=
  let c := cells s idx in
  if decide (state c <> CELL_FREE) then (false, s)
  else if size c <? PAGE_SIZE * 4 then (false, s)
  else
    let child_size := size c / 4 in
    let '(ok, s) := cell_split_loop 4 0 idx child_size s in
    if ok then (true, set_cell s idx ((cells s idx) <| state := CELL_SPLIT |>))
    else (false, s).

Definition is_free (s : pmm) (i : Z) : bool := bool_decide (state (cells s i) = CELL_FREE).

(** cell_try_merge's test: the four children exist and are free. *)
Definition children_free (s : pmm) (p : Z) : bool :=
  forallb (fun i => negb (children (cells s p) i =? NIL) && is_free s (children (cells s p) i))
          [0; 1; 2; 3].

(** One round of the loop that retires the children of [p]. *)
Definition retire_child (p i : Z) (s : pmm) : pmm :=
  let ci := children (cells s p) i in
  let s := set_cell s ci ((cells s ci) <| state := CELL_RESERVED |>) in
  set_cell s p ((cells s p) <| children := (children (cells s p)).[i <- NIL] |>).

(** cell_try_merge recurses on the parent, whose index is smaller; [fuel]
    bounds the depth of the recursion (the index of the cell is enough). *)
Fixpoint cell_try_merge (fuel : nat) (idx : Z) (s : pmm) : pmm :=
  match fuel with
  | O => s
  | S fuel' =>
      let p := parent (cells s idx) in
      if p =? NIL then s
      else if decide (state (cells s p) <> CELL_SPLIT) then s
      else if negb (children_free s p) then s
      else
        let s := for_loop 4 0 (retire_child p) s in
        let s := set_cell s p ((cells s p) <| state := CELL_FREE |>) in
        cell_try_merge fuel' (parent (cells s idx)) s
  end.

(** ** Search *)

Definition zone_limit (z : mem_zone_type_t) : Z :=
  match z with
  | ZONE_DMA => ZONE_DMA_LIMIT
  | ZONE_DMA32 => ZONE_DMA32_LIMIT
  | ZONE_NORMAL => u64 (-1)
  end.

(** The first child, in order, under which the search succeeds. *)
Fixpoint first_child (search : Z -> Z) (cs : list Z) : Z :=
  match cs with
  | [] => NIL
  | c :: cs' =>
      if c =? NIL then first_child search cs'
      else let r := search c in if r =? NIL then first_child search cs' else r
  end.

Fixpoint find_free_cell_zone (fuel : nat) (s : pmm) (idx min_size : Z)
    (z : mem_zone_type_t) (zone_strict : bool) : Z :=
  match fuel with
  | O => NIL
  | S fuel' =>
      let c := cells s idx in
      match state c with
      | CELL_FREE =>
          if min_size <=? size c then
            if zone_strict && (zone_limit z <? u64 (base c + min_size)) then NIL else idx
          else NIL
      | CELL_SPLIT =>
          first_child (fun ch => find_free_cell_zone fuel' s ch min_size z zone_strict)
                      (map (children c) [0; 1; 2; 3])
      | _ => NIL
      end
  end.

(** A cell has at most 2^64 bytes and a child a quarter of its parent's, so a
    path of the tree has fewer than 32 cells. *)
Definition DEPTH : nat := 32.
Arguments DEPTH : simpl never.

(** ** Watermarks and pressure *)

Definition zone_update_watermarks (z : mem_zone_t) : mem_zone_t :=
  let mn := total_pages z / 64 in
  let lo := total_pages z / 32 in
  let hi := total_pages z / 16 in
  z <| watermark := {| wm_min := if mn <? 4 then 4 else mn;
                       wm_low := if lo <? 8 then 8 else lo;
                       wm_high := if hi <? 16 then 16 else hi |} |>.

Definition check_pressure (zt : mem_zone_type_t) (s : pmm) : pmm :=
  let z := zones s zt in
  if free_pages z <=? wm_low (watermark z) then
    for_loop (Z.to_nat (pressure_cb_count s)) 0 (fun i s =>
      if pressure_cbs s i =? 0 then s
      else s <| pressure_log := pressure_log s ++ [(pressure_cbs s i, zt, free_pages z)] |>) s
  else s.

(** ** Page descriptors of a range *)

Definition init_page_descriptors (b sz : Z) (zt : mem_zone_type_t) (usable : bool)
    (s : pmm) : pmm :=
  let start_pfn := phys_to_pfn b in
  let end_pfn := phys_to_pfn (u64 (b + sz)) in
  for_loop (Z.to_nat (Z.min end_pfn MAX_PHYS_PAGES - start_pfn)) start_pfn (fun pfn s =>
    let p := {| refcount := 0; flags := if usable then 0 else PAGE_FLAG_RESERVED;
                zone := zt; order := 0; pg_owner := 0 |} in
    let s := s <| page_array := (page_array s).[pfn <- p] |> in
    if max_pfn s <? pfn then s <| max_pfn := pfn |> else s) s.

(** ** Initialisation from the boot memory map *)

Record memmap_entry := { e_base : Z; e_length : Z; e_type : Z }.
Definition LIMINE_MEMMAP_USABLE : Z := 0.

(** [while (chunk_size * 4 <= size) chunk_size *= 4;] *)
Fixpoint grow_chunk (fuel : nat) (chunk_size sz : Z) : Z :=
  match fuel with
  | O => chunk_size
  | S fuel' =>
      if u64 (chunk_size * 4) <=? sz then grow_chunk fuel' (u64 (chunk_size * 4)) sz
      else chunk_size
  end.

Definition add_root (b chunk_size : Z) (s : pmm) : pmm :=
  let '(idx, s) := cell_alloc_node s in
  if idx =? NIL then s
  else
    let s := set_cell s idx ((cells s idx) <| base := b |> <| size := chunk_size |>
                                           <| state := CELL_FREE |>) in
    let s := s <| total_mem := u64 (total_mem s + chunk_size) |>
               <| free_mem := u64 (free_mem s + chunk_size) |> in
    let zt := phys_to_zone b in
    let pages := chunk_size / PAGE_SIZE in
    let zn := zones s zt in
    s <| zones := upd_zone (zones s) zt
           (zn <| total_pages := u64 (total_pages zn + pages) |>
               <| free_pages := u64 (free_pages zn + pages) |>) |>.

(** [while (size >= PAGE_SIZE) { ... }]: every round takes at least a page. *)
Fixpoint add_region (fuel : nat) (b sz : Z) (s : pmm) : pmm :=
  match fuel with
  | O => s
  | S fuel' =>
      if PAGE_SIZE <=? sz then
        let chunk := grow_chunk DEPTH PAGE_SIZE sz in
        add_region fuel' (u64 (b + chunk)) (u64 (sz - chunk)) (add_root b chunk s)
      else s
  end.

(** [x & ~(PAGE_SIZE - 1)] *)
Definition page_floor (x : Z) : Z := Z.land x (u64 (Z.lnot (PAGE_SIZE - 1))).

Definition init_entry (e : memmap_entry) (s : pmm) : pmm :=
  let usable := e_type e =? LIMINE_MEMMAP_USABLE in
  let s := init_page_descriptors (e_base e) (e_length e) (phys_to_zone (e_base e)) usable s in
  if usable && (PAGE_SIZE <=? e_length e) then
    let b := page_floor (u64 (e_base e + PAGE_SIZE - 1)) in
    let e' := page_floor (u64 (e_base e + e_length e)) in
    let sz := u64 (e' - b) in
    add_region (Z.to_nat (sz / PAGE_SIZE)) b sz s
  else s.

Definition zero_cell : cell_t :=
  {| base := 0; size := 0; state := CELL_FREE; owner := 0; parent := 0; children := fun _ => 0 |}.
Definition zero_page : page_t :=
  {| refcount := 0; flags := 0; zone := ZONE_DMA; order := 0; pg_owner := 0 |}.
Definition zero_zone (lo hi : Z) : mem_zone_t :=
  {| z_start := lo; z_end := hi; total_pages := 0; free_pages := 0; alloc_count := 0;
     watermark := {| wm_min := 0; wm_low := 0; wm_high := 0 |} |}.

Definition zones0 (z : mem_zone_type_t) : mem_zone_t :=
  match z with
  | ZONE_DMA => zero_zone 0 ZONE_DMA_LIMIT
  | ZONE_DMA32 => zero_zone ZONE_DMA_LIMIT ZONE_DMA32_LIMIT
  | ZONE_NORMAL => zero_zone ZONE_DMA32_LIMIT (u64 (-1))
  end.

(** The state after pmm_init's [memset]s and scalar resets; [last_used_cell]
    and the callbacks are left as they are. *)
Definition pmm_reset (s : pmm) : pmm :=
  s <| cells := fun _ => zero_cell |> <| page_array := fun _ => zero_page |>
    <| zones := zones0 |> <| cell_count := 0 |> <| total_mem := 0 |>
    <| free_mem := 0 |> <| max_pfn := 0 |>.

Definition pmm_init (entries : list memmap_entry) (s : pmm) : pmm :=
  let s := fold_left (fun s e => init_entry e s) entries (pmm_reset s) in
  s <| zones := fun z => zone_update_watermarks (zones s z) |>.

(** The statics before pmm_init runs. *)
Definition pmm_bss : pmm :=
  {| cells := fun _ => zero_cell; cell_count := 0; total_mem := 0; free_mem := 0;
     last_used_cell := 0; zones := fun _ => zero_zone 0 0; page_array := fun _ => zero_page;
     max_pfn := 0; pressure_cbs := fun _ => 0; pressure_cb_count := 0; pressure_log := [] |}.

(** ** Allocation *)

(** The scan over the roots, starting at [last_used_cell]: the first root
    index whose tree holds a fitting cell, with that cell. *)
Fixpoint scan_roots (n : nat) (i : Z) (s : pmm) (req : Z) (z : mem_zone_type_t)
    (strict : bool) : option (Z * Z) :=
  match n with
  | O => None
  | S n' =>
      let idx := (last_used_cell s + i) mod cell_count s in
      if negb (parent (cells s idx) =? NIL) then scan_roots n' (i + 1) s req z strict
      else
        let found := find_free_cell_zone DEPTH s idx req z strict in
        if found =? NIL then scan_roots n' (i + 1) s req z strict
        else Some (idx, found)
  end.

(** [while (size / 4 >= req && size >= 4 pages) { split; go to child 0 }] *)
Fixpoint split_down (fuel : nat) (found req : Z) (s : pmm) : Z * pmm :=
  match fuel with
  | O => (found, s)
  | S fuel' =>
      let c := cells s found in
      if (req <=? size c / 4) && (PAGE_SIZE * 4 <=? size c) then
        let '(ok, s) := cell_split found s in
        if ok then split_down fuel' (children (cells s found) 0) req s
        else (found, s)
      else (found, s)
  end.

Definition claim_page (p : page_t) : page_t :=
  p <| refcount := 1 |>
    <| flags := Z.land (flags p) (u32 (Z.lnot PAGE_FLAG_RESERVED)) |>
    <| order := 0 |>.

(** Number of rounds of [for (p = 0; p < n && start + p < MAX_PHYS_PAGES; p++)]. *)
Definition page_rounds (start n : Z) : nat := Z.to_nat (Z.min n (MAX_PHYS_PAGES - start)).

Definition take_cell (idx found : Z) (s : pmm) : Z * pmm :=
  let s := set_cell s found ((cells s found) <| state := CELL_USED |>) in
  let s := s <| free_mem := u64 (free_mem s - size (cells s found)) |> in
  let result := base (cells s found) in
  let s := s <| last_used_cell := idx |> in
  let zt := phys_to_zone result in
  let alloc_pages := size (cells s found) / PAGE_SIZE in
  let zn := zones s zt in
  let s := s <| zones := upd_zone (zones s) zt
                  (zn <| free_pages := u64 (free_pages zn - alloc_pages) |>
                      <| alloc_count := u64 (alloc_count zn + 1) |>) |> in
  let start_pfn := phys_to_pfn result in
  (result, s <| page_array :=
     for_loop (page_rounds start_pfn alloc_pages) start_pfn
       (fun i pa => pa.[i <- claim_page (pa i)]) (page_array s) |>).

(** One pass under the lock: [(result, state)], [result = 0] when no cell fits. *)
Definition alloc_pass (count : Z) (z : mem_zone_type_t) (strict : bool) (s : pmm) : Z * pmm :=
  let req_size := u64 (count * PAGE_SIZE) in
  match scan_roots (Z.to_nat (cell_count s)) 0 s req_size z strict with
  | None => (0, s)
  | Some (idx, found) =>
      let '(found, s) := split_down DEPTH found req_size s in
      take_cell idx found s
  end.

(** The second pass is the recursive call with [zone_strict = false]. *)
Definition pmm_alloc_pages_internal (count : Z) (z : mem_zone_type_t) (strict : bool)
    (s : pmm) : Z * pmm :=
  let '(result, s) := alloc_pass count z strict s in
  if negb (result =? 0) then (result, check_pressure (phys_to_zone result) s)
  else if strict then
    let '(result, s) := alloc_pass count z false s in
    if negb (result =? 0) then (result, check_pressure (phys_to_zone result) s)
    else (0, s)
  else (0, s).

Definition pmm_alloc_page (s : pmm) : Z * pmm := pmm_alloc_pages_internal 1 ZONE_NORMAL false s.
Definition pmm_alloc_pages (count : Z) (s : pmm) : Z * pmm :=
  pmm_alloc_pages_internal count ZONE_NORMAL false s.
Definition pmm_alloc_page_zone (z : mem_zone_type_t) (s : pmm) : Z * pmm :=
  pmm_alloc_pages_internal 1 z true s.
Definition pmm_alloc_pages_zone (count : Z) (z : mem_zone_type_t) (s : pmm) : Z * pmm :=
  pmm_alloc_pages_internal count z true s.

(** ** Free *)

(** The scan of pmm_free_pages and pmm_set_owner. *)
Definition find_used (s : pmm) (phys : Z) : option Z :=
  find_index (Z.to_nat (cell_count s)) 0 (fun i =>
    (base (cells s i) =? phys) && bool_decide (state (cells s i) = CELL_USED)).

Definition clear_page (p : page_t) : page_t :=
  p <| refcount := 0 |> <| flags := 0 |> <| pg_owner := 0 |>.

Definition release_cell (i phys : Z) (s : pmm) : pmm :=
  let s := set_cell s i ((cells s i) <| state := CELL_FREE |> <| owner := 0 |>) in
  let freed_pages := size (cells s i) / PAGE_SIZE in
  let s := s <| free_mem := u64 (free_mem s + size (cells s i)) |> in
  let zt := phys_to_zone phys in
  let zn := zones s zt in
  let s := s <| zones := upd_zone (zones s) zt
                  (zn <| free_pages := u64 (free_pages zn + freed_pages) |>) |> in
  let start_pfn := phys_to_pfn phys in
  let s := s <| page_array :=
     for_loop (page_rounds start_pfn freed_pages) start_pfn
       (fun j pa => pa.[j <- clear_page (pa j)]) (page_array s) |> in
  cell_try_merge (S (Z.to_nat i)) i s.

(** The [count] argument is ignored by the source. *)
Definition pmm_free_pages (phys count : Z) (s : pmm) : pmm :=
  match find_used s phys with
  | None => s
  | Some i =>
      let pfn := phys_to_pfn phys in
      if (pfn <? MAX_PHYS_PAGES) && (1 <? refcount (page_array s pfn)) then
        s <| page_array := (page_array s).[pfn <-
               (page_array s pfn) <| refcount := u32 (refcount (page_array s pfn) - 1) |>] |>
      else release_cell i phys s
  end.

Definition pmm_free_page (phys : Z) (s : pmm) : pmm := pmm_free_pages phys 1 s.

(** ** Page descriptors *)

Definition pmm_get_page (s : pmm) (phys : Z) : option page_t :=
  let pfn := phys_to_pfn phys in
  if MAX_PHYS_PAGES <=? pfn then None else Some (page_array s pfn).

Definition upd_page (phys : Z) (f : page_t -> page_t) (s : pmm) : pmm :=
  let pfn := phys_to_pfn phys in
  if MAX_PHYS_PAGES <=? pfn then s
  else s <| page_array := (page_array s).[pfn <- f (page_array s pfn)] |>.

Definition pmm_page_ref (phys : Z) (s : pmm) : pmm :=
  upd_page phys (fun p => p <| refcount := u32 (refcount p + 1) |>) s.

Definition pmm_page_unref (phys : Z) (s : pmm) : bool * pmm :=
  let pfn := phys_to_pfn phys in
  if MAX_PHYS_PAGES <=? pfn then (false, s)
  else
    let s := upd_page phys (fun p => p <| refcount := u32 (refcount p - 1) |>) s in
    if refcount (page_array s pfn) =? 0 then (true, pmm_free_page phys s)
    else (false, s).

Definition pmm_page_refcount (s : pmm) (phys : Z) : Z :=
  let pfn := phys_to_pfn phys in
  if MAX_PHYS_PAGES <=? pfn then 0 else refcount (page_array s pfn).

Definition pmm_page_set_flags (phys fl : Z) (s : pmm) : pmm :=
  upd_page phys (fun p => p <| flags := Z.lor (flags p) fl |>) s.
Definition pmm_page_clear_flags (phys fl : Z) (s : pmm) : pmm :=
  upd_page phys (fun p => p <| flags := Z.land (flags p) (u32 (Z.lnot fl)) |>) s.
Definition pmm_page_has_flag (s : pmm) (phys fl : Z) : bool :=
  let pfn := phys_to_pfn phys in
  if MAX_PHYS_PAGES <=? pfn then false else has (flags (page_array s pfn)) fl.

(** ** Pressure, ownership, statistics *)

Definition pmm_register_pressure_cb (cb : Z) (s : pmm) : pmm :=
  if pressure_cb_count s <? MAX_PRESSURE_CBS then
    s <| pressure_cbs := (pressure_cbs s).[pressure_cb_count s <- cb] |>
      <| pressure_cb_count := u32 (pressure_cb_count s + 1) |>
  else s.

Definition zone_list : list mem_zone_type_t := [ZONE_DMA; ZONE_DMA32; ZONE_NORMAL].

Definition pmm_is_low_memory (s : pmm) : bool :=
  existsb (fun z => (0 <? total_pages (zones s z))
                    && (free_pages (zones s z) <=? wm_low (watermark (zones s z)))) zone_list.

Definition pmm_is_oom (s : pmm) : bool :=
  negb (existsb (fun z => (0 <? total_pages (zones s z))
                    && (wm_min (watermark (zones s z)) <? free_pages (zones s z))) zone_list).

Definition pmm_set_owner (phys own : Z) (s : pmm) : pmm :=
  match find_used s phys with
  | Some i => set_cell s i ((cells s i) <| owner := own |>)
  | None => upd_page phys (fun p => p <| pg_owner := own |>) s
  end.

Definition pmm_total_memory (s : pmm) : Z := total_mem s.
Definition pmm_free_memory (s : pmm) : Z := free_mem s.

(** pmm_self_test without its console output: the final state. *)
Definition pmm_self_test (s : pmm) : pmm :=
  let '(p1, s) := pmm_alloc_page s in
  let '(p2, s) := pmm_alloc_page s in
  let s := pmm_page_ref p1 s in
  let '(_, s) := pmm_page_unref p1 s in
  let s := pmm_free_page p1 s in
  let s := pmm_free_page p2 s in
  let '(dma_page, s) := pmm_alloc_page_zone ZONE_DMA s in
  let s := if dma_page =? 0 then s else pmm_free_page dma_page s in
  let '(p3, s) := pmm_alloc_page s in
  let s := pmm_page_set_flags p3 (Z.lor PAGE_FLAG_DIRTY PAGE_FLAG_LRU) s in
  let s := pmm_page_clear_flags p3 PAGE_FLAG_DIRTY s in
  pmm_free_page p3 s.

End Pmm.
