(* ===== verification/PmmSpec.v ===== *)
(** * The cell forest of the physical allocator: invariant and lemmas

    The cells form a forest: roots from the boot memory map, and four children
    per split cell.  [wf] is the invariant; [desc] is reachability in the
    forest.  The lemmas below describe the tree operations of pmm.c (split,
    merge, search) on it; PmmProps.v puts them together. *)

From S2P Require Import Prelude Pmm.

Module PmmSpec.
Import Pmm.

(** ** Reachability and the invariant *)

(** Cell [i] is on the forest: a root, or listed by its split parent. *)
Definition linked (s : pmm) (i : Z) : Prop :=
  parent (cells s i) = NIL \/
  (state (cells s (parent (cells s i))) = CELL_SPLIT /\
   exists k, 0 <= k < 4 /\ children (cells s (parent (cells s i))) k = i).

Definition linkedb (s : pmm) (i : Z) : bool :=
  (parent (cells s i) =? NIL) ||
  (bool_decide (state (cells s (parent (cells s i))) = CELL_SPLIT) &&
   existsb (fun k => children (cells s (parent (cells s i))) k =? i) [0; 1; 2; 3]).

Inductive desc (s : pmm) : Z -> Z -> Prop :=
| desc_refl r : desc s r r
| desc_child r k i :
    state (cells s r) = CELL_SPLIT -> 0 <= k < 4 ->
    desc s (children (cells s r) k) i -> desc s r i.

Definition disjoint_cells (c d : cell_t) : Prop :=
  base c + size c <= base d \/ base d + size d <= base c.

(** What a split cell promises about its child number [k]. *)
Record child_ok (s : pmm) (p k : Z) : Prop := {
  co_lt : p < children (cells s p) k < cell_count s;
  co_parent : parent (cells s (children (cells s p) k)) = p;
  co_size : size (cells s (children (cells s p) k)) = size (cells s p) / 4;
  co_base : base (cells s (children (cells s p) k)) = base (cells s p) + k * (size (cells s p) / 4);
  co_state : state (cells s (children (cells s p) k)) <> CELL_RESERVED
}.

Record cell_ok (s : pmm) (i : Z) : Prop := {
  ck_size : exists k, 0 <= k /\ size (cells s i) = PAGE_SIZE * 4 ^ k;
  ck_base : 0 < base (cells s i) /\ base (cells s i) + size (cells s i) < 2 ^ 64;
  ck_align : base (cells s i) mod PAGE_SIZE = 0;
  ck_parent : parent (cells s i) = NIL \/ 0 <= parent (cells s i) < i;
  ck_root : parent (cells s i) = NIL -> state (cells s i) <> CELL_RESERVED;
  ck_big : state (cells s i) = CELL_SPLIT -> PAGE_SIZE * 4 <= size (cells s i);
  ck_children : state (cells s i) = CELL_SPLIT -> forall k, 0 <= k < 4 -> child_ok s i k;
  ck_linked : state (cells s i) = CELL_SPLIT \/ state (cells s i) = CELL_USED -> linked s i
}.

Definition in_pool (s : pmm) (i : Z) : Prop := 0 <= i < cell_count s.

Record forest (s : pmm) : Prop := {
  fo_count : 0 <= cell_count s <= CELL_POOL_SIZE;
  fo_cells : forall i, in_pool s i -> cell_ok s i;
  fo_roots : forall i j, in_pool s i -> in_pool s j -> i <> j ->
    parent (cells s i) = NIL -> parent (cells s j) = NIL ->
    disjoint_cells (cells s i) (cells s j)
}.

(** A split cell has a child that is not free, except possibly when that
    child is [x]. *)
Definition coalesced_but (s : pmm) (x : Z) : Prop :=
  forall p, in_pool s p -> state (cells s p) = CELL_SPLIT ->
  exists k, 0 <= k < 4 /\ (state (cells s (children (cells s p) k)) <> CELL_FREE \/
                           children (cells s p) k = x).

Definition coalesced (s : pmm) : Prop :=
  forall p, in_pool s p -> state (cells s p) = CELL_SPLIT ->
  exists k, 0 <= k < 4 /\ state (cells s (children (cells s p) k)) <> CELL_FREE.

(** Bytes on the forest in a given state. *)
Definition bytes_at (st : cell_state_t) (s : pmm) (i : Z) : Z :=
  if bool_decide (state (cells s i) = st) && linkedb s i then size (cells s i) else 0.
Definition bytes_in (st : cell_state_t) (s : pmm) : Z :=
  sum_range (Z.to_nat (cell_count s)) 0 (bytes_at st s).

(** [free_mem] counts the free bytes, and every byte handed to the allocator
    at boot is either free or in a used cell. *)
Record accounted (s : pmm) : Prop := {
  ac_free : free_mem s = bytes_in CELL_FREE s;
  ac_total : total_mem s = bytes_in CELL_FREE s + bytes_in CELL_USED s;
  ac_bound : total_mem s < 2 ^ 64
}.

Record wf (s : pmm) : Prop := {
  wf_forest : forest s;
  wf_coalesced : coalesced s;
  wf_accounted : accounted s
}.

(** ** Generic facts *)

(** Arithmetic with the allocator's constants. *)
Ltac pmm_lia := unfold in_pool, PAGE_SIZE, CELL_POOL_SIZE, NIL in *; lia.
Ltac pmm_nia := unfold in_pool, PAGE_SIZE, CELL_POOL_SIZE, NIL in *; nia.

Lemma linkedb_spec s i : linkedb s i = true <-> linked s i.
Proof.
  unfold linkedb, linked. rewrite orb_true_iff, andb_true_iff, Z.eqb_eq, bool_decide_eq_true, existsb_exists.
  split; (intros [H|[H1 [k [Hk1 Hk2]]]]; [by left|right; split; [done|exists k]]).
  - cbn in Hk1. rewrite Z.eqb_eq in Hk2. split; [|done]. intuition lia.
  - rewrite Z.eqb_eq. split; [|done]. cbn. lia.
Qed.

Lemma linkedb_ext s s' i j : (linked s i <-> linked s' j) -> linkedb s i = linkedb s' j.
Proof.
  intros H. rewrite <- !linkedb_spec in H.
  destruct (linkedb s i), (linkedb s' j); intuition congruence.
Qed.

Lemma size_div4 k : 1 <= k -> (PAGE_SIZE * 4 ^ k) / 4 = PAGE_SIZE * 4 ^ (k - 1).
Proof.
  intros H. replace k with (k - 1 + 1) at 1 by lia. rewrite pow4_succ by lia.
  replace (PAGE_SIZE * (4 * 4 ^ (k - 1))) with ((PAGE_SIZE * 4 ^ (k - 1)) * 4) by lia.
  by rewrite Z.div_mul.
Qed.

Lemma cell_size_min s i : cell_ok s i -> PAGE_SIZE <= size (cells s i).
Proof.
  intros H. destruct (ck_size _ _ H) as (k & Hk & ->). pose proof (pow4_pos k Hk). pmm_nia.
Qed.

(** A cell of four pages or more is exactly four of its quarters, and a
    quarter is again a legal size. *)
Lemma cell_quarter s i :
  cell_ok s i -> PAGE_SIZE * 4 <= size (cells s i) ->
  4 * (size (cells s i) / 4) = size (cells s i) /\
  exists k, 0 <= k /\ size (cells s i) / 4 = PAGE_SIZE * 4 ^ k.
Proof.
  intros H Hbig. destruct (ck_size _ _ H) as (k & Hk & E). rewrite E in *.
  assert (1 <= k).
  { destruct (decide (k = 0)) as [->|]; [|lia]. cbn in Hbig. unfold PAGE_SIZE in *. lia. }
  rewrite size_div4 by lia. split.
  - replace k with (k - 1 + 1) at 2 by lia. rewrite pow4_succ by lia. lia.
  - exists (k - 1). split; [lia|done].
Qed.

Lemma desc_trans s r i j : desc s r i -> desc s i j -> desc s r j.
Proof. induction 1; eauto using desc. Qed.

Section forest_facts.
Context (s : pmm) (F : forest s).

Lemma forest_child p k :
  in_pool s p -> state (cells s p) = CELL_SPLIT -> 0 <= k < 4 -> child_ok s p k.
Proof. intros. by apply (ck_children s p); [apply F|..]. Qed.

Lemma child_in_pool p k :
  in_pool s p -> state (cells s p) = CELL_SPLIT -> 0 <= k < 4 ->
  in_pool s (children (cells s p) k).
Proof. intros Hp Hs Hk. pose proof (co_lt _ _ _ (forest_child p k Hp Hs Hk)). unfold in_pool in *. lia. Qed.

Lemma desc_range r i :
  desc s r i -> in_pool s r ->
  in_pool s i /\ r <= i /\ base (cells s r) <= base (cells s i) /\
  base (cells s i) + size (cells s i) <= base (cells s r) + size (cells s r).
Proof.
  induction 1 as [r|r k i Hs Hk _ IH]; intros Hr; [auto with lia|].
  destruct IH as (Hi & Hle & Hb1 & Hb2); [by apply child_in_pool|].
  destruct (forest_child r k Hr Hs Hk) as [Hlt _ Hsz Hbase _].
  pose proof (cell_quarter s r (fo_cells _ F r Hr) (ck_big _ _ (fo_cells _ F r Hr) Hs)) as [H4 _].
  pose proof (cell_size_min s r (fo_cells _ F r Hr)).
  rewrite Hsz, Hbase in *. split; [done|]. split; [lia|]. pmm_nia.
Qed.

(** Every linked cell hangs below a root. *)
Lemma linked_root i :
  in_pool s i -> linked s i ->
  exists r, in_pool s r /\ parent (cells s r) = NIL /\ desc s r i.
Proof.
  remember (Z.to_nat i) as n eqn:En. revert i En.
  induction (lt_wf n) as [n _ IH]. intros i -> Hi [Hroot|[Hs (k & Hk & Hc)]].
  { exists i. eauto using desc. }
  destruct (ck_parent _ _ (fo_cells _ F i Hi)) as [Hroot|Hp]; [exists i; eauto using desc|].
  set (p := parent (cells s i)) in *.
  assert (in_pool s p) as Hpp by (unfold in_pool in *; lia).
  destruct (IH (Z.to_nat p) ltac:(lia) p eq_refl Hpp) as (r & Hr & Hrn & Hd).
  { by apply (ck_linked _ _ (fo_cells _ F p Hpp)); left. }
  exists r. split_and!; [done..|]. eapply desc_trans; [done|].
  eapply desc_child; [done|exact Hk|]. rewrite Hc. constructor.
Qed.

Lemma desc_linked r i : desc s r i -> in_pool s r -> linked s r -> linked s i.
Proof.
  induction 1 as [r|r k i Hs Hk _ IH]; intros Hr Hl; [done|].
  apply IH; [by apply child_in_pool|].
  right. rewrite (co_parent _ _ _ (forest_child r k Hr Hs Hk)). eauto.
Qed.

(** Two leaves below the same cell do not overlap. *)
Lemma desc_leaves_disjoint r i j :
  desc s r i -> desc s r j -> in_pool s r -> i <> j ->
  state (cells s i) <> CELL_SPLIT -> state (cells s j) <> CELL_SPLIT ->
  disjoint_cells (cells s i) (cells s j).
Proof.
  intros Hi. revert j. induction Hi as [r|r k i Hs Hk Hd IH]; intros j Hj Hr Hne Hi' Hj'.
  { inversion Hj; subst; congruence. }
  inversion Hj as [|? k' ? _ Hk' Hd']; subst; [congruence|].
  destruct (decide (k = k')) as [->|Hkk]; [apply IH; auto using child_in_pool|].
  destruct (desc_range _ _ Hd (child_in_pool _ _ Hr Hs Hk)) as (_ & _ & H1 & H2).
  destruct (desc_range _ _ Hd' (child_in_pool _ _ Hr Hs Hk')) as (_ & _ & H3 & H4).
  destruct (forest_child r k Hr Hs Hk) as [_ _ Hsz Hb _].
  destruct (forest_child r k' Hr Hs Hk') as [_ _ Hsz' Hb' _].
  rewrite Hsz, Hb, Hsz', Hb' in *. set (q := size (cells s r) / 4) in *.
  assert (0 <= q).
  { pose proof (cell_size_min s r (fo_cells _ F r Hr)). unfold PAGE_SIZE in *. apply Z.div_pos; lia. }
  unfold disjoint_cells. assert (k < k' \/ k' < k) as [?|?] by lia; [left|right]; nia.
Qed.

(** Two distinct leaves of the forest do not overlap. *)
Lemma leaves_disjoint i j :
  in_pool s i -> in_pool s j -> linked s i -> linked s j -> i <> j ->
  state (cells s i) <> CELL_SPLIT -> state (cells s j) <> CELL_SPLIT ->
  disjoint_cells (cells s i) (cells s j).
Proof.
  intros Hi Hj Hli Hlj Hne Hsi Hsj.
  destruct (linked_root i Hi Hli) as (r & Hr & Hrn & Hd).
  destruct (linked_root j Hj Hlj) as (r' & Hr' & Hrn' & Hd').
  destruct (decide (r = r')) as [<-|Hrr]; [by eapply desc_leaves_disjoint|].
  pose proof (desc_range _ _ Hd Hr). pose proof (desc_range _ _ Hd' Hr').
  destruct (fo_roots _ F r r' Hr Hr' Hrr Hrn Hrn'); unfold disjoint_cells; lia.
Qed.
End forest_facts.

(** ** Splitting *)

(** [s'] is [s] after [m] rounds of cell_split's loop on [idx], starting with
    child number [i]. *)
Record split_rounds (s s' : pmm) (idx i q : Z) (m : Z) : Prop := {
  sr_rest : s' = s <| cells := cells s' |> <| cell_count := cell_count s' |>;
  sr_count : cell_count s' = cell_count s + m;
  sr_pool : cell_count s' <= CELL_POOL_SIZE;
  sr_frame : forall j, j <> idx -> ~ cell_count s <= j < cell_count s' -> cells s' j = cells s j;
  sr_self : cells s' idx = (cells s idx) <| children := children (cells s' idx) |>;
  sr_children : forall t, 0 <= t < m -> children (cells s' idx) (i + t) = cell_count s + t;
  sr_old : forall k, ~ i <= k < i + m -> children (cells s' idx) k = children (cells s idx) k;
  sr_new : forall t, 0 <= t < m ->
    base (cells s' (cell_count s + t)) = u64 (base (cells s idx) + (i + t) * q) /\
    size (cells s' (cell_count s + t)) = q /\
    state (cells s' (cell_count s + t)) = CELL_FREE /\
    parent (cells s' (cell_count s + t)) = idx
}.

Lemma cell_alloc_node_Some s idx s' :
  0 <= cell_count s <= CELL_POOL_SIZE -> cell_alloc_node s = (idx, s') -> idx <> NIL ->
  idx = cell_count s /\ cell_count s < CELL_POOL_SIZE /\ cell_count s' = cell_count s + 1 /\
  s' = s <| cells := (cells s).[idx <- (cells s idx) <| children := no_children |>
                                        <| parent := NIL |> <| owner := 0 |>] |>
         <| cell_count := cell_count s + 1 |>.
Proof.
  intros Hc. unfold cell_alloc_node. destruct (Z.leb_spec CELL_POOL_SIZE (cell_count s)).
  { intros [= <- <-]. congruence. }
  intros [= <- <-] _. cbn. rewrite wrap_small by pmm_lia. auto.
Qed.

Lemma split_rounds_0 s idx i q : cell_count s <= CELL_POOL_SIZE -> split_rounds s s idx i q 0.
Proof. intros. split; intros; try lia; auto; [by destruct s|by destruct (cells s idx)]. Qed.

Lemma split_rounds_1 s s' idx i q :
  0 <= idx < cell_count s -> cell_count s <= CELL_POOL_SIZE ->
  cell_split_child i idx q s = Some s' -> split_rounds s s' idx i q 1.
Proof.
  intros Hidx Hpool. unfold cell_split_child.
  destruct (cell_alloc_node s) as [child s1] eqn:Ea.
  destruct (Z.eqb_spec child NIL) as [|Hne]; [done|].
  apply cell_alloc_node_Some in Ea as (-> & Hlt & Hc1 & ->); [|lia|done].
  intros [= <-]. split; cbn; auto; try lia; intros; upd_cases; cbn;
    upd_cases; auto; try lia.
  by replace t with 0 by lia; rewrite !Z.add_0_r.
Qed.

Lemma split_rounds_cons s s1 s2 idx i q m :
  0 <= m -> 0 <= idx < cell_count s ->
  split_rounds s s1 idx i q 1 -> split_rounds s1 s2 idx (i + 1) q m ->
  split_rounds s s2 idx i q (1 + m).
Proof.
  intros Hm Hidx [R1 C1 P1 F1 S1 K1 O1 N1] [R2 C2 P2 F2 S2 K2 O2 N2]. split; try lia.
  - rewrite R2 at 1. rewrite R1. by destruct s.
  - intros j Hj1 Hj2. rewrite F2, F1; auto; lia.
  - rewrite S2 at 1. rewrite S1. by destruct (cells s idx).
  - intros t Ht. destruct (decide (t = 0)) as [->|].
    + rewrite O2 by lia. rewrite K1; lia.
    + replace (i + t) with (i + 1 + (t - 1)) by lia. rewrite K2; lia.
  - intros k Hk. rewrite O2, O1; auto; lia.
  - intros t Ht. destruct (decide (t = 0)) as [->|].
    + rewrite F2 by lia. apply N1. lia.
    + replace (cell_count s + t) with (cell_count s1 + (t - 1)) by lia.
      replace (i + t) with (i + 1 + (t - 1)) by lia.
      replace (base (cells s idx)) with (base (cells s1 idx)) by (rewrite S1; done).
      apply N2. lia.
Qed.

Lemma cell_split_loop_rounds n i idx q s ok s' :
  0 <= idx < cell_count s -> cell_count s <= CELL_POOL_SIZE ->
  cell_split_loop n i idx q s = (ok, s') ->
  exists m, 0 <= m <= Z.of_nat n /\ (ok = true -> m = Z.of_nat n) /\
            split_rounds s s' idx i q m.
Proof.
  revert i s. induction n as [|n IH]; intros i s Hidx Hpool; cbn [cell_split_loop].
  { intros [= <- <-]. exists 0. split_and!; auto using split_rounds_0; lia. }
  destruct (cell_split_child i idx q s) as [s1|] eqn:E.
  - apply split_rounds_1 in E; [|lia..]. intros H.
    pose proof (sr_count _ _ _ _ _ _ E). pose proof (sr_pool _ _ _ _ _ _ E).
    apply IH in H as (m & Hm & Hok & R); [|lia..].
    exists (1 + m). split_and!; [lia|lia|intros; rewrite Hok; auto; lia|].
    eapply split_rounds_cons; eauto; lia.
  - intros [= <- <-]. exists 0. split_and!; [lia|lia|done|by apply split_rounds_0].
Qed.

(** Two states that agree on the place of a cell in the forest. *)
Definition same_place (s s' : pmm) (j : Z) : Prop :=
  base (cells s' j) = base (cells s j) /\ size (cells s' j) = size (cells s j) /\
  parent (cells s' j) = parent (cells s j) /\ state (cells s' j) = state (cells s j) /\
  (state (cells s j) = CELL_SPLIT -> forall k, 0 <= k < 4 ->
     children (cells s' j) k = children (cells s j) k).

(** A fresh cell that no split cell lists yet. *)
Record orphan (s : pmm) (j : Z) : Prop := {
  or_size : exists k, 0 <= k /\ size (cells s j) = PAGE_SIZE * 4 ^ k;
  or_base : 0 < base (cells s j) /\ base (cells s j) + size (cells s j) < 2 ^ 64;
  or_align : base (cells s j) mod PAGE_SIZE = 0;
  or_parent : 0 <= parent (cells s j) < j /\ parent (cells s j) <> NIL;
  or_state : state (cells s j) = CELL_FREE;
  or_up : state (cells s (parent (cells s j))) <> CELL_SPLIT
}.

Section grow.
Context (s s' : pmm) (F : forest s).
Context (Hcount : cell_count s <= cell_count s' <= CELL_POOL_SIZE).
Context (Hold : forall j, in_pool s j -> same_place s s' j).
Context (Hnew : forall j, cell_count s <= j < cell_count s' -> orphan s' j).

Lemma grow_linked j : in_pool s j -> (linked s' j <-> linked s j).
Proof.
  intros Hj. destruct (Hold j Hj) as (_ & _ & Hp & _ & _). unfold linked. rewrite Hp.
  destruct (ck_parent _ _ (fo_cells _ F j Hj)) as [E|Hlt]; [by rewrite E; tauto|].
  destruct (Hold (parent (cells s j))) as (_ & _ & _ & Hs & Hk); [pmm_lia|]. rewrite Hs.
  split; (intros [?|[HS (k & Hk4 & E)]]; [by left|right; split; [done|exists k; split; [done|]]]).
  - by rewrite <- Hk.
  - by rewrite Hk.
Qed.

Lemma grow_unlinked j : cell_count s <= j < cell_count s' -> ~ linked s' j.
Proof.
  intros Hj [E|[E _]]; destruct (Hnew j Hj) as [? ? ? [? ?] ? ?]; congruence.
Qed.

Lemma grow_child_ok p k :
  in_pool s p -> state (cells s p) = CELL_SPLIT -> 0 <= k < 4 -> child_ok s' p k.
Proof.
  intros Hp Hs Hk. destruct (Hold p Hp) as (Hb & Hsz & _ & _ & Hc).
  pose proof (child_in_pool s F p k Hp Hs Hk) as Hin.
  destruct (Hold _ Hin) as (Hb' & Hsz' & Hp' & Hs' & _).
  destruct (forest_child s F p k Hp Hs Hk).
  split; rewrite (Hc Hs k Hk), ?Hb, ?Hsz, ?Hb', ?Hsz', ?Hp', ?Hs'; auto. pmm_lia.
Qed.

Lemma grow_forest : forest s'.
Proof.
  pose proof (fo_count _ F). split; [lia| |].
  - intros j Hj. destruct (decide (j < cell_count s)) as [Hlt|].
    + assert (in_pool s j) as Hin by pmm_lia.
      destruct (Hold j Hin) as (Hb & Hsz & Hp & Hs & _). destruct (fo_cells _ F j Hin).
      split; rewrite ?Hb, ?Hsz, ?Hp, ?Hs, ?grow_linked; auto using grow_child_ok.
    + destruct (Hnew j ltac:(pmm_lia)) as [? ? ? [? ?] Hst ?].
      split; rewrite ?Hst; auto; try done. by intros [?|?].
  - intros i j Hi Hj Hne Ei Ej.
    assert (forall x, in_pool s' x -> parent (cells s' x) = NIL -> in_pool s x) as Hroot.
    { intros x Hx Ex. destruct (decide (x < cell_count s)); [pmm_lia|].
      destruct (Hnew x ltac:(pmm_lia)) as [? ? ? [? ?] ? ?]. congruence. }
    pose proof (Hroot i Hi Ei) as Hi'. pose proof (Hroot j Hj Ej) as Hj'.
    destruct (Hold i Hi') as (Bi & Si & Pi & _), (Hold j Hj') as (Bj & Sj & Pj & _).
    unfold disjoint_cells. rewrite Bi, Si, Bj, Sj.
    apply (fo_roots _ F); congruence.
Qed.

Lemma grow_bytes st : bytes_in st s' = bytes_in st s.
Proof.
  pose proof (fo_count _ F). unfold bytes_in.
  replace (Z.to_nat (cell_count s')) with
    (Z.to_nat (cell_count s) + Z.to_nat (cell_count s' - cell_count s))%nat by lia.
  rewrite sum_range_app.
  rewrite (sum_range_ext (Z.to_nat (cell_count s' - _)) _ _ (fun _ => 0)).
  - rewrite (sum_range_ext _ 0 _ (bytes_at st s)).
    + rewrite sum_range_zero. lia.
    + intros j Hj. destruct (Hold j ltac:(pmm_lia)) as (_ & Hsz & _ & Hs & _).
      unfold bytes_at. rewrite Hsz, Hs.
      by rewrite (linkedb_ext s' s j j (grow_linked j ltac:(pmm_lia))).
  - intros j Hj. unfold bytes_at.
    destruct (linkedb s' j) eqn:E; [|by rewrite andb_false_r].
    apply linkedb_spec in E. by apply grow_unlinked in E; [|lia].
Qed.

Lemma grow_coalesced x : coalesced_but s x -> coalesced_but s' x.
Proof.
  intros HC p Hp Hs. destruct (decide (p < cell_count s)) as [Hlt|].
  - assert (in_pool s p) as Hin by pmm_lia.
    destruct (Hold p Hin) as (_ & _ & _ & Hst & Hc). rewrite Hst in Hs.
    destruct (HC p Hin Hs) as (k & Hk & Hor). exists k. split; [done|].
    rewrite (Hc Hs k Hk). destruct Hor as [Hor|]; [left|by right].
    destruct (Hold _ (child_in_pool s F p k Hin Hs Hk)) as (_ & _ & _ & -> & _). done.
  - destruct (Hnew p ltac:(pmm_lia)); congruence.
Qed.
End grow.

(** The rounds of cell_split only add orphans. *)
Lemma split_rounds_grow s s' idx m :
  forest s -> in_pool s idx -> state (cells s idx) = CELL_FREE ->
  PAGE_SIZE * 4 <= size (cells s idx) -> 0 <= m <= 4 ->
  split_rounds s s' idx 0 (size (cells s idx) / 4) m ->
  cell_count s <= cell_count s' <= CELL_POOL_SIZE /\
  (forall j, in_pool s j -> same_place s s' j) /\
  (forall j, cell_count s <= j < cell_count s' -> orphan s' j).
Proof.
  intros F Hidx Hfree Hbig Hm [_ Hc Hpool Hframe Hself _ _ Hnew]. split; [lia|]. split.
  - intros j Hj. destruct (decide (j = idx)) as [->|].
    + unfold same_place. rewrite Hself. cbn. by split_and!; [..|rewrite Hfree].
    + unfold same_place. rewrite Hframe by pmm_lia. done.
  - intros j Hj. destruct (Hnew (j - cell_count s)) as (Hb & Hsz & Hs & Hp); [lia|].
    replace (cell_count s + (j - cell_count s)) with j in * by lia.
    pose proof (fo_cells _ F idx Hidx) as Hok. pose proof (ck_base _ _ Hok).
    destruct (cell_quarter s idx Hok Hbig) as (H4 & kq & Hkq & Eq).
    pose proof (pow4_pos kq Hkq).
    assert (0 <= (0 + (j - cell_count s)) * (size (cells s idx) / 4) <= 3 * (size (cells s idx) / 4)).
    { rewrite Eq in *. unfold PAGE_SIZE. nia. }
    rewrite wrap_small in Hb by (rewrite Eq in *; pmm_nia).
    pose proof (ck_align _ _ Hok) as Hal.
    split; rewrite ?Hb, ?Hsz, ?Hs, ?Hp; auto.
    + eauto.
    + rewrite Eq in *. pmm_nia.
    + rewrite Eq. rewrite Z.add_mod, Hal by pmm_lia.
      replace ((0 + (j - cell_count s)) * (PAGE_SIZE * 4 ^ kq))
        with ((j - cell_count s) * 4 ^ kq * PAGE_SIZE) by lia.
      by rewrite Z.mod_mul by pmm_lia.
    + pmm_lia.
    + rewrite Hself. cbn. by rewrite Hfree.
Qed.

(** ** A successful split *)

Section split.
Context (s s1 : pmm) (idx : Z).
Let q := size (cells s idx) / 4.
Let s' := set_cell s1 idx ((cells s1 idx) <| state := CELL_SPLIT |>).
Context (F : forest s) (Hidx : in_pool s idx) (Hfree : state (cells s idx) = CELL_FREE).
Context (Hbig : PAGE_SIZE * 4 <= size (cells s idx)) (Hlinked : linked s idx).
Context (R : split_rounds s s1 idx 0 q 4).

Lemma split_count : cell_count s' = cell_count s + 4.
Proof. apply (sr_count _ _ _ _ _ _ R). Qed.

Lemma split_frame j : in_pool s j -> j <> idx -> cells s' j = cells s j.
Proof.
  intros Hj Hne. cbn. rewrite upd_ne by done. apply (sr_frame _ _ _ _ _ _ R); [done|pmm_lia].
Qed.

Lemma split_self :
  base (cells s' idx) = base (cells s idx) /\ size (cells s' idx) = size (cells s idx) /\
  parent (cells s' idx) = parent (cells s idx) /\ state (cells s' idx) = CELL_SPLIT /\
  forall k, 0 <= k < 4 -> children (cells s' idx) k = cell_count s + k.
Proof.
  cbn. rewrite upd_eq. cbn. rewrite (sr_self _ _ _ _ _ _ R). cbn. split_and!; try done.
  intros k Hk. apply (sr_children _ _ _ _ _ _ R k). lia.
Qed.

Lemma split_new k : 0 <= k < 4 ->
  base (cells s' (cell_count s + k)) = base (cells s idx) + k * q /\
  size (cells s' (cell_count s + k)) = q /\
  state (cells s' (cell_count s + k)) = CELL_FREE /\
  parent (cells s' (cell_count s + k)) = idx.
Proof.
  intros Hk. cbn. rewrite upd_ne by pmm_lia.
  destruct (sr_new _ _ _ _ _ _ R k Hk) as (Hb & ? & ? & ?). split_and!; auto.
  rewrite Hb. apply wrap_small.
  pose proof (fo_cells _ F idx Hidx) as Hok. pose proof (ck_base _ _ Hok).
  destruct (cell_quarter s idx Hok Hbig) as (H4 & kq & Hkq & Eq). fold q in H4, Eq.
  pose proof (pow4_pos kq Hkq). rewrite Eq in *. pmm_nia.
Qed.

Lemma split_linked j : in_pool s j -> (linked s' j <-> linked s j).
Proof.
  intros Hj. destruct split_self as (_ & _ & Hp & Hs & Hc).
  assert (parent (cells s' j) = parent (cells s j)) as Epar.
  { destruct (decide (j = idx)) as [->|]; [done|by rewrite split_frame]. }
  unfold linked. rewrite Epar.
  destruct (decide (parent (cells s j) = idx)) as [E|Hne].
  - rewrite E, Hs, Hfree. split; intros [?|[HS (k & Hk & Hck)]]; try by left.
    rewrite Hc in Hck by done. pmm_lia.
  - destruct (ck_parent _ _ (fo_cells _ F j Hj)) as [E|Hlt]; [by rewrite E; tauto|].
    rewrite split_frame by pmm_lia. done.
Qed.

Lemma split_new_linked k : 0 <= k < 4 -> linked s' (cell_count s + k).
Proof.
  intros Hk. right. destruct (split_new k Hk) as (_ & _ & _ & ->).
  destruct split_self as (_ & _ & _ & Hs & Hc). split; [done|]. exists k. auto.
Qed.

Lemma split_children p k :
  in_pool s' p -> state (cells s' p) = CELL_SPLIT -> 0 <= k < 4 -> child_ok s' p k.
Proof.
  intros Hp Hs Hk. destruct split_self as (Hb & Hsz & Hpar & Hst & Hc).
  pose proof split_count as Hcnt. destruct (decide (p = idx)) as [->|Hne].
  - destruct (split_new k Hk) as (? & ? & HF & ?).
    split; rewrite (Hc k Hk), ?Hsz, ?Hb; auto; [pmm_lia|by rewrite HF].
  - destruct (decide (p < cell_count s)) as [Hlt|].
    + assert (in_pool s p) as Hin by pmm_lia. rewrite split_frame in Hs by done.
      pose proof (forest_child s F p k Hin Hs Hk) as [Hl Hpp Hss Hbb Hst'].
      pose proof (child_in_pool s F p k Hin Hs Hk) as Hcin.
      destruct (decide (children (cells s p) k = idx)) as [E|Hce].
      * split; rewrite (split_frame p) by done; rewrite E in *; try congruence. pmm_lia.
      * split; rewrite (split_frame p) by done; try (rewrite split_frame by done; done). pmm_lia.
    + destruct (split_new (p - cell_count s)) as (_ & _ & HF & _); [pmm_lia|].
      replace (cell_count s + (p - cell_count s)) with p in HF by lia. congruence.
Qed.

Lemma split_forest : forest s'.
Proof.
  destruct split_self as (Hb & Hsz & Hpar & Hst & Hc). pose proof split_count as Hcnt.
  pose proof (fo_count _ F). pose proof (sr_pool _ _ _ _ _ _ R) as Hpool.
  pose proof (sr_count _ _ _ _ _ _ R).
  assert (cell_count s' <= CELL_POOL_SIZE) by done.
  split; [lia| |].
  - intros j Hj. destruct (decide (j < cell_count s)) as [Hlt|].
    + assert (in_pool s j) as Hin by pmm_lia. destruct (fo_cells _ F j Hin).
      destruct (decide (j = idx)) as [->|].
      * split; rewrite ?Hb, ?Hsz, ?Hpar, ?Hst; auto using split_children; try done.
        intros _. by apply split_linked.
      * split; rewrite ?split_frame by done; auto.
        -- intros Hs k Hk. apply split_children; auto. by rewrite split_frame.
        -- intros. rewrite split_linked; auto.
    + destruct (split_rounds_grow s s1 idx 4 F Hidx Hfree Hbig ltac:(lia) R) as (_ & _ & Hor).
      destruct (Hor j ltac:(pmm_lia)) as [? ? ? [? ?] Hst' ?].
      assert (cells s' j = cells s1 j) as E by (cbn; rewrite upd_ne; pmm_lia || done).
      split; rewrite E, ?Hst'; auto; try done. by intros [?|?].
  - intros i j Hi Hj Hne Ei Ej.
    assert (forall x, in_pool s' x -> parent (cells s' x) = NIL ->
      in_pool s x /\ parent (cells s x) = NIL /\ base (cells s' x) = base (cells s x) /\
      size (cells s' x) = size (cells s x)) as Hroot.
    { intros x Hx Ex. destruct (decide (x < cell_count s)).
      - destruct (decide (x = idx)) as [->|]; [rewrite Hpar in Ex; split_and!; auto; pmm_lia|].
        rewrite split_frame in * by pmm_lia. split_and!; auto; pmm_lia.
      - destruct (split_new (x - cell_count s)) as (_ & _ & _ & HF); [pmm_lia|].
        replace (cell_count s + (x - cell_count s)) with x in HF by lia. pmm_lia. }
    destruct (Hroot i Hi Ei) as (? & ? & Bi & Si), (Hroot j Hj Ej) as (? & ? & Bj & Sj).
    unfold disjoint_cells. rewrite Bi, Si, Bj, Sj. by apply (fo_roots _ F).
Qed.

Lemma split_coalesced : coalesced_but s idx -> coalesced_but s' (cell_count s).
Proof.
  intros HC p Hp Hs. destruct split_self as (_ & _ & _ & Hst & Hc).
  destruct (decide (p = idx)) as [->|Hne].
  - exists 0. split; [lia|right]. rewrite Hc; lia.
  - destruct (decide (p < cell_count s)) as [Hlt|].
    + assert (in_pool s p) as Hin by pmm_lia. rewrite split_frame in * by done.
      destruct (HC p Hin Hs) as (k & Hk & Hor). exists k. split; [done|left].
      pose proof (child_in_pool s F p k Hin Hs Hk).
      destruct (decide (children (cells s p) k = idx)) as [->|]; [by rewrite Hst|].
      rewrite split_frame by done. by destruct Hor.
    + pose proof split_count. destruct (split_new (p - cell_count s)) as (_ & _ & HF & _); [pmm_lia|].
      replace (cell_count s + (p - cell_count s)) with p in HF by lia. congruence.
Qed.

Lemma split_bytes st : st <> CELL_SPLIT -> bytes_in st s' = bytes_in st s.
Proof.
  intros Hst'. destruct split_self as (Hb & Hsz & Hpar & Hst & Hc). pose proof split_count as Hcnt.
  pose proof (fo_count _ F).
  unfold bytes_in. rewrite Hcnt.
  replace (Z.to_nat (cell_count s + 4)) with (Z.to_nat (cell_count s) + 4)%nat by lia.
  rewrite sum_range_app. cbn [sum_range]. rewrite Z2Nat.id by lia.
  rewrite (sum_range_upd _ 0 (bytes_at st s) (bytes_at st s') idx); [|pmm_lia|].
  - assert (forall k, 0 <= k < 4 -> bytes_at st s' (0 + cell_count s + k) =
      if bool_decide (CELL_FREE = st) then q else 0) as Hn.
    { intros k Hk. unfold bytes_at. destruct (split_new k Hk) as (_ & Hq & HF & _).
      rewrite Z.add_0_l, Hq, HF.
      rewrite (proj2 (linkedb_spec s' _) (split_new_linked k Hk)). by rewrite andb_true_r. }
    pose proof (Hn 0 ltac:(lia)) as H0. rewrite Z.add_0_r in H0.
    rewrite H0. replace (0 + cell_count s + 1 + 1 + 1) with (0 + cell_count s + 3) by lia.
    replace (0 + cell_count s + 1 + 1) with (0 + cell_count s + 2) by lia.
    rewrite !Hn by lia. unfold bytes_at. rewrite Hst, Hfree.
    rewrite (proj2 (linkedb_spec s idx) Hlinked), (proj2 (linkedb_spec s' idx)) by by apply split_linked.
    destruct (cell_quarter s idx (fo_cells _ F idx Hidx) Hbig) as (H4 & _). fold q in H4.
    rewrite !andb_true_r, Hsz.
    destruct st; repeat case_bool_decide; try done; lia.
  - intros i Hi Hne. unfold bytes_at. rewrite split_frame by pmm_lia.
    by rewrite (linkedb_ext s' s i i (split_linked i ltac:(pmm_lia))).
Qed.
End split.

(** ** Taking and releasing a leaf *)

Definition leaf_state (st : cell_state_t) : Prop := st = CELL_FREE \/ st = CELL_USED.

Section retag.
Context (s s' : pmm) (i : Z) (c' : cell_t).
Context (F : forest s) (Hi : in_pool s i) (Hlinked : linked s i).
Context (Hcells : cells s' = (cells s).[i <- c']) (Hcount : cell_count s' = cell_count s).
Context (Hbase : base c' = base (cells s i)) (Hsize : size c' = size (cells s i)).
Context (Hparent : parent c' = parent (cells s i)).
Context (Hst : leaf_state (state (cells s i))) (Hst' : leaf_state (state c')).

Lemma retag_ne j : j <> i -> cells s' j = cells s j.
Proof. intros. by rewrite Hcells, upd_ne. Qed.
Lemma retag_eq : cells s' i = c'.
Proof. by rewrite Hcells, upd_eq. Qed.
Lemma retag_parent j : parent (cells s' j) = parent (cells s j).
Proof. destruct (decide (j = i)) as [->|]; [by rewrite retag_eq|by rewrite retag_ne]. Qed.
Lemma retag_split j : state (cells s' j) = CELL_SPLIT <-> state (cells s j) = CELL_SPLIT /\ j <> i.
Proof.
  destruct (decide (j = i)) as [->|]; [rewrite retag_eq|rewrite retag_ne by done; tauto].
  destruct Hst', Hst; intuition congruence.
Qed.
Lemma leaf_not_split : state (cells s i) <> CELL_SPLIT.
Proof. destruct Hst; congruence. Qed.

Lemma retag_linked j : linked s' j <-> linked s j.
Proof.
  unfold linked. rewrite retag_parent, retag_split. pose proof leaf_not_split.
  split; (intros [?|[HS (k & Hk & E)]]; [by left|right]).
  - destruct HS as [HS Hne]. rewrite retag_ne in E by done. eauto.
  - assert (parent (cells s j) <> i) by congruence. rewrite retag_ne by done. eauto.
Qed.

Lemma retag_child_ok p k :
  in_pool s p -> state (cells s p) = CELL_SPLIT -> 0 <= k < 4 -> child_ok s' p k.
Proof.
  intros Hp HS Hk. destruct (forest_child s F p k Hp HS Hk) as [Hl Hpp Hss Hbb Hstt].
  pose proof leaf_not_split. assert (p <> i) by congruence.
  split; rewrite (retag_ne p) by done; rewrite ?Hcount; auto;
    (destruct (decide (children (cells s p) k = i)) as [E|];
     [rewrite E in *; rewrite retag_eq; try congruence|by rewrite retag_ne]).
  destruct Hst'; congruence.
Qed.

Lemma retag_forest : forest s'.
Proof.
  split; [rewrite Hcount; apply F| |].
  - intros j Hj. assert (in_pool s j) as Hin by (unfold in_pool in *; congruence).
    destruct (fo_cells _ F j Hin). destruct (decide (j = i)) as [->|].
    + split; rewrite ?retag_linked, ?retag_eq, ?Hbase, ?Hsize, ?Hparent; auto;
        intros; destruct Hst'; congruence.
    + split; rewrite ?retag_linked, ?retag_ne by done; auto using retag_child_ok.
  - intros x y Hx Hy Hne. rewrite !retag_parent.
    assert (forall z, base (cells s' z) = base (cells s z) /\ size (cells s' z) = size (cells s z)) as E.
    { intros z. destruct (decide (z = i)) as [->|]; [by rewrite retag_eq|by rewrite retag_ne]. }
    unfold disjoint_cells, in_pool in *. rewrite Hcount in *.
    destruct (E x) as [-> ->], (E y) as [-> ->]. apply (fo_roots _ F); auto.
Qed.

Lemma retag_bytes st :
  bytes_in st s' = bytes_in st s
    - (if bool_decide (state (cells s i) = st) then size (cells s i) else 0)
    + (if bool_decide (state c' = st) then size (cells s i) else 0).
Proof.
  unfold bytes_in. rewrite Hcount.
  rewrite (sum_range_upd _ 0 (bytes_at st s) (bytes_at st s') i); [|pmm_lia|].
  - unfold bytes_at. rewrite retag_eq, Hsize.
    rewrite (linkedb_ext s' s i i (retag_linked i)), (proj2 (linkedb_spec s i) Hlinked).
    by rewrite !andb_true_r.
  - intros j _ Hne. unfold bytes_at. rewrite retag_ne by done.
    by rewrite (linkedb_ext s' s j j (retag_linked j)).
Qed.

Lemma retag_coalesced_take : state c' = CELL_USED -> coalesced_but s i -> coalesced s'.
Proof.
  intros HU HC p Hp [HS Hne]%retag_split. unfold in_pool in Hp. rewrite Hcount in Hp.
  destruct (HC p Hp HS) as (k & Hk & Hor). exists k. split; [done|].
  rewrite (retag_ne p) by done. destruct (decide (children (cells s p) k = i)) as [->|Hn].
  - by rewrite retag_eq, HU.
  - rewrite retag_ne by done. by destruct Hor.
Qed.

Lemma retag_coalesced_release : coalesced s -> coalesced_but s' i.
Proof.
  intros HC p Hp [HS Hne]%retag_split. unfold in_pool in Hp. rewrite Hcount in Hp.
  destruct (HC p Hp HS) as (k & Hk & Hor). exists k. split; [done|].
  rewrite (retag_ne p) by done. destruct (decide (children (cells s p) k = i)) as [|Hn]; [by right|].
  left. by rewrite retag_ne.
Qed.
End retag.

(** ** Merging *)

(** [s'] is [s] after the rounds [i .. i+n-1] of the loop that retires the
    children of [p]. *)
Record retired (s s' : pmm) (p i n : Z) : Prop := {
  rt_rest : s' = s <| cells := cells s' |>;
  rt_self : cells s' p = (cells s p) <| children := children (cells s' p) |>;
  rt_nil : forall k, i <= k < i + n -> children (cells s' p) k = NIL;
  rt_old : forall k, ~ i <= k < i + n -> children (cells s' p) k = children (cells s p) k;
  rt_child : forall k, i <= k < i + n ->
     cells s' (children (cells s p) k) = (cells s (children (cells s p) k)) <| state := CELL_RESERVED |>;
  rt_frame : forall j, j <> p -> (forall k, i <= k < i + n -> children (cells s p) k <> j) ->
     cells s' j = cells s j
}.

Lemma retire_rounds n i p s :
  (forall k, i <= k < i + Z.of_nat n -> children (cells s p) k <> p) ->
  (forall k l, i <= k < i + Z.of_nat n -> i <= l < i + Z.of_nat n ->
     children (cells s p) k = children (cells s p) l -> k = l) ->
  retired s (for_loop n i (retire_child p) s) p i (Z.of_nat n).
Proof.
  revert i s. induction n as [|n IH]; intros i s Hp Hinj; cbn [for_loop].
  { split; intros; try lia; auto; [by destruct s|by destruct (cells s p)]. }
  set (ci := children (cells s p) i). pose proof (Hp i ltac:(lia)) as Hci. fold ci in Hci.
  set (s1 := retire_child p i s).
  assert (cells s1 p = (cells s p) <| children := (children (cells s p)).[i <- NIL] |>) as E1.
  { unfold s1, retire_child. cbn. rewrite !upd_eq. fold ci. rewrite !upd_ne by done. done. }
  assert (cells s1 ci = (cells s ci) <| state := CELL_RESERVED |>) as E2.
  { unfold s1, retire_child. cbn. fold ci. rewrite upd_ne by done. by rewrite upd_eq. }
  assert (forall j, j <> p -> j <> ci -> cells s1 j = cells s j) as E3.
  { intros. unfold s1, retire_child. cbn. fold ci. by rewrite !upd_ne. }
  assert (forall k, k <> i -> children (cells s1 p) k = children (cells s p) k) as E4.
  { intros. rewrite E1. cbn. by rewrite upd_ne. }
  destruct (IH (i + 1) s1) as [R S N O C Fr].
  { intros k Hk. rewrite E4 by lia. apply Hp. lia. }
  { intros k l Hk Hl. rewrite !E4 by lia. apply Hinj; lia. }
  split.
  - rewrite R. by destruct s.
  - rewrite S, E1. by destruct (cells s p).
  - intros k Hk. destruct (decide (k = i)) as [->|]; [|apply N; lia].
    rewrite O by lia. rewrite E1. cbn. by rewrite upd_eq.
  - intros k Hk. rewrite O, E4 by lia. done.
  - intros k Hk. destruct (decide (k = i)) as [->|].
    + fold ci. rewrite Fr; [done|done|]. intros l Hl. rewrite E4 by lia.
      intros E. apply Hinj in E; lia.
    + specialize (C k ltac:(lia)). rewrite E4 in C by done. rewrite C.
      rewrite E3; [done|apply Hp; lia|]. intros E. apply Hinj in E; lia.
  - intros j Hj Hn. rewrite Fr, E3; auto.
    + intros ->. by apply (Hn i); [lia|].
    + intros k Hk. rewrite E4 by lia. apply Hn. lia.
Qed.

Section merge.
Context (s s1 : pmm) (p : Z).
Let s' := set_cell s1 p ((cells s1 p) <| state := CELL_FREE |>).
Context (F : forest s) (Hp : in_pool s p) (Hsplit : state (cells s p) = CELL_SPLIT).
Context (Hfree : forall k, 0 <= k < 4 -> state (cells s (children (cells s p) k)) = CELL_FREE).
Context (R : retired s s1 p 0 4).

Let is_child (j : Z) : Prop := exists k, 0 <= k < 4 /\ children (cells s p) k = j.

#[local] Instance is_child_dec j : Decision (is_child j).
Proof.
  destruct (existsb (fun k => children (cells s p) k =? j) [0; 1; 2; 3]) eqn:E; [left|right].
  - apply existsb_exists in E as (k & Hk & E). exists k. cbn in Hk. lia.
  - intros (k & Hk & Ek). assert (exists x, In x [0; 1; 2; 3] /\ (children (cells s p) x =? j) = true) as H.
    { exists k. cbn. lia. }
    apply existsb_exists in H. congruence.
Qed.

Lemma merge_count : cell_count s' = cell_count s.
Proof. cbn. by rewrite (rt_rest _ _ _ _ _ R). Qed.

Lemma merge_child_gt j :
  is_child j -> p < j < cell_count s /\ parent (cells s j) = p /\ p <> NIL.
Proof.
  intros (k & Hk & <-). pose proof (fo_count _ F). assert (p <> NIL) by pmm_lia. destruct (forest_child s F p k Hp Hsplit Hk). auto.
Qed.

Lemma merge_self :
  base (cells s' p) = base (cells s p) /\ size (cells s' p) = size (cells s p) /\
  parent (cells s' p) = parent (cells s p) /\ state (cells s' p) = CELL_FREE.
Proof. cbn. rewrite upd_eq. cbn. by rewrite (rt_self _ _ _ _ _ R). Qed.

Lemma merge_child j : is_child j -> cells s' j = (cells s j) <| state := CELL_RESERVED |>.
Proof.
  intros Hj. pose proof (merge_child_gt j Hj). destruct Hj as (k & Hk & <-). cbn.
  rewrite upd_ne by lia. by rewrite (rt_child _ _ _ _ _ R k Hk).
Qed.

Lemma merge_frame j : j <> p -> ~ is_child j -> cells s' j = cells s j.
Proof.
  intros Hj Hn. cbn. rewrite upd_ne by done. apply (rt_frame _ _ _ _ _ R); [done|].
  intros k Hk E. apply Hn. exists k. auto.
Qed.

Lemma merge_place j :
  base (cells s' j) = base (cells s j) /\ size (cells s' j) = size (cells s j) /\
  parent (cells s' j) = parent (cells s j).
Proof.
  destruct (decide (j = p)) as [->|]; [by destruct merge_self as (? & ? & ? & ?)|].
  destruct (decide (is_child j)); [by rewrite merge_child|by rewrite merge_frame].
Qed.

Lemma merge_split j :
  state (cells s' j) = CELL_SPLIT <-> state (cells s j) = CELL_SPLIT /\ j <> p.
Proof.
  destruct (decide (j = p)) as [->|].
  { destruct merge_self as (_ & _ & _ & ->). split; [done|tauto]. }
  destruct (decide (is_child j)) as [Hc|]; [|rewrite merge_frame; tauto].
  rewrite merge_child by done. cbn. destruct Hc as (k & Hk & <-). rewrite Hfree by done. split; [done|]. by intros [? ?].
Qed.

Lemma merge_split_frame j : state (cells s j) = CELL_SPLIT -> j <> p -> cells s' j = cells s j.
Proof.
  intros HS Hne. apply merge_frame; [done|]. intros (k & Hk & <-). rewrite Hfree in HS; done.
Qed.

Lemma merge_linked j : linked s' j <-> linked s j /\ ~ is_child j.
Proof.
  unfold linked. destruct (merge_place j) as (_ & _ & ->). rewrite merge_split.
  split.
  - intros [E|[[HS Hne] (k & Hk & Ek)]].
    + split; [by left|]. intros Hc. pose proof (merge_child_gt j Hc). pmm_lia.
    + rewrite merge_split_frame in Ek by done. split; [right; eauto|].
      intros Hc. pose proof (merge_child_gt j Hc). tauto.
  - intros [[E|[HS (k & Hk & Ek)]] Hn]; [by left|right].
    assert (parent (cells s j) <> p) by (intros E; apply Hn; exists k; by rewrite <- E).
    rewrite merge_split_frame by done. eauto.
Qed.

Lemma merge_forest : forest s'.
Proof.
  pose proof merge_count as Hc. split; [rewrite Hc; apply F| |].
  - intros j Hj. assert (in_pool s j) as Hin by (unfold in_pool in *; congruence).
    destruct (fo_cells _ F j Hin) as [? ? ? ? Hroot Hbig Hch Hl]. destruct (merge_place j) as (Hb & Hsz & Hpar).
    split; rewrite ?Hb, ?Hsz, ?Hpar, ?merge_linked; auto.
    + intros E. destruct (decide (j = p)) as [->|]; [destruct merge_self as (_ & _ & _ & ->); done|].
      destruct (decide (is_child j)) as [Hch'|]; [pose proof (merge_child_gt j Hch'); pmm_lia|].
      rewrite merge_frame by done. auto.
    + intros [? ?]%merge_split. auto.
    + intros [HS Hne]%merge_split k Hk. destruct (Hch HS k Hk) as [Hlt Hpp Hss Hbb Hst].
      destruct (merge_place (children (cells s j) k)) as (Hb' & Hsz' & Hpar').
      split; rewrite (merge_split_frame j) by done; rewrite ?Hc, ?Hb', ?Hsz', ?Hpar'; auto.
      destruct (decide (children (cells s j) k = p)) as [->|]; [destruct merge_self as (_ & _ & _ & ->); done|].
      rewrite merge_frame; auto. intros Hic. pose proof (merge_child_gt _ Hic). lia.
    + intros [HS|HU].
      * apply merge_split in HS as [HS Hne]. split; [auto|].
        intros (k & Hk & <-). rewrite Hfree in HS; done.
      * destruct (decide (is_child j)) as [Hic|Hic]; [rewrite merge_child in HU by done; done|].
        destruct (decide (j = p)) as [->|]; [destruct merge_self as (_ & _ & _ & E); congruence|].
        rewrite merge_frame in HU by done. auto.
  - intros i j Hi Hj Hne. unfold disjoint_cells, in_pool in *. rewrite Hc in *.
    destruct (merge_place i) as (-> & -> & ->), (merge_place j) as (-> & -> & ->). by apply (fo_roots _ F).
Qed.

Lemma merge_coalesced x : is_child x -> coalesced_but s x -> coalesced_but s' p.
Proof.
  intros Hx HC i Hi [HS Hne]%merge_split. unfold in_pool in Hi. rewrite merge_count in Hi.
  destruct (HC i Hi HS) as (k & Hk & Hor). exists k. split; [done|].
  rewrite (merge_split_frame i) by done.
  pose proof (forest_child s F i k Hi HS Hk) as Hco. pose proof (co_parent _ _ _ Hco) as Hpar.
  destruct (decide (children (cells s i) k = p)) as [|Hnp]; [by right|left].
  destruct (decide (is_child (children (cells s i) k))) as [Hic|Hic].
  { destruct (merge_child_gt _ Hic) as (_ & ? & _). congruence. }
  rewrite merge_frame by done. destruct Hor as [|E]; [done|]. by rewrite E in Hic.
Qed.

Lemma merge_children_distinct k l :
  0 <= k < 4 -> 0 <= l < 4 -> k <> l -> children (cells s p) k <> children (cells s p) l.
Proof.
  intros Hk Hl Hne E.
  pose proof (co_base _ _ _ (forest_child s F p k Hp Hsplit Hk)) as Hbk.
  pose proof (co_base _ _ _ (forest_child s F p l Hp Hsplit Hl)) as Hbl. rewrite E in Hbk.
  pose proof (fo_cells _ F p Hp) as Hok.
  destruct (cell_quarter s p Hok (ck_big _ _ Hok Hsplit)) as (H4 & _).
  pose proof (cell_size_min s p Hok). pmm_nia.
Qed.

Lemma merge_bytes st :
  st <> CELL_SPLIT -> st <> CELL_RESERVED -> bytes_in st s' = bytes_in st s.
Proof.
  intros N1 N2. unfold bytes_in. rewrite merge_count. set (n := Z.to_nat (cell_count s)).
  set (c := children (cells s p)). set (q := size (cells s p) / 4).
  set (v := if bool_decide (CELL_FREE = st) then size (cells s p) else 0).
  pose proof (fo_cells _ F p Hp) as Hok.
  destruct (cell_quarter s p Hok (ck_big _ _ Hok Hsplit)) as (H4 & _).
  assert (linked s p) as Hlp by (apply (ck_linked _ _ Hok); by left).
  assert (forall k, 0 <= k < 4 -> bytes_at st s (c k) = if bool_decide (CELL_FREE = st) then q else 0) as Hbc.
  { intros k Hk. unfold bytes_at, c. rewrite Hfree by done.
    destruct (forest_child s F p k Hp Hsplit Hk) as [_ Hpar -> _ _].
    rewrite (proj2 (linkedb_spec s _)), andb_true_r; [done|].
    right. rewrite Hpar. split; [done|]. exists k. auto. }
  assert (bytes_at st s p = 0) as Hbp.
  { unfold bytes_at. rewrite Hsplit. by rewrite bool_decide_eq_false_2. }
  assert (forall k, 0 <= k < 4 -> 0 <= c k < 0 + Z.of_nat n /\ p <> c k) as Hrng.
  { intros k Hk. destruct (merge_child_gt (c k)) as (? & _); [by exists k|]. pmm_lia. }
  rewrite (sum_range_ext n 0 (bytes_at st s')
    (bytes_at st s).[p <- v].[c 0 <- 0].[c 1 <- 0].[c 2 <- 0].[c 3 <- 0]).
  - pose proof (merge_children_distinct) as Hd. fold c in Hd.
    rewrite !sum_range_assign by (apply Hrng || pmm_lia; lia).
    rewrite !upd_ne by (apply not_eq_sym, Hrng || apply Hd; lia).
    rewrite !Hbc by lia. rewrite Hbp. unfold v. fold q in H4. case_bool_decide; lia.
  - intros j Hj. destruct (decide (is_child j)) as [Hic|Hic].
    + unfold bytes_at at 1. rewrite merge_child by done. cbn.
      rewrite bool_decide_eq_false_2 by congruence. destruct Hic as (k & Hk & <-). fold c.
      assert (k = 0 \/ k = 1 \/ k = 2 \/ k = 3) as [-> | [-> | [-> | ->] ] ] by lia;
        unfold upd; rewrite ?Z.eqb_refl; repeat case_bool; done.
    + assert (forall k, 0 <= k < 4 -> j <> c k) as Hnc by (intros k Hk ->; apply Hic; by exists k).
      rewrite !(upd_ne _ (c _)) by (apply Hnc; lia).
      destruct (decide (j = p)) as [->|Hne].
      * rewrite upd_eq. unfold bytes_at, v. destruct merge_self as (_ & -> & _ & ->).
        rewrite (proj2 (linkedb_spec s' p)), andb_true_r; [done|by apply merge_linked].
      * rewrite upd_ne by done. unfold bytes_at. rewrite merge_frame by done.
        rewrite (linkedb_ext s' s j j); [done|]. rewrite merge_linked. tauto.
Qed.
End merge.

End PmmSpec.
