(* ===== verification/PmmProps.v ===== *)
(** * Correctness of the physical allocator

    Search, allocation, free and boot initialisation of pmm.c on the forest of
    PmmSpec.v: the invariant [wf] holds in every reachable state, an allocation
    never overlaps memory in use, it fails only when no cell fits, and freeing
    everything coalesces the forest back to its roots. *)

From S2P Require Import Prelude Pmm PmmSpec.

Module PmmProps.
Import Pmm PmmSpec.

(** ** Search *)

Lemma first_child_found f cs r :
  first_child f cs = r -> r <> NIL -> exists c, In c cs /\ c <> NIL /\ f c = r.
Proof.
  induction cs as [|c cs IH]; cbn; [congruence|].
  destruct (Z.eqb_spec c NIL).
  - intros H Hn. destruct (IH H Hn) as (c' & ? & ? & ?). eauto.
  - destruct (Z.eqb_spec (f c) NIL); [|eauto].
    intros H Hn. destruct (IH H Hn) as (c' & ? & ? & ?). eauto.
Qed.

Lemma first_child_none f cs :
  first_child f cs = NIL -> forall c, In c cs -> c <> NIL -> f c = NIL.
Proof.
  induction cs as [|c cs IH]; cbn; [done|].
  destruct (Z.eqb_spec c NIL); [|destruct (Z.eqb_spec (f c) NIL)];
    intros H c' [->|Hin] Hn; try congruence; auto.
Qed.

(** The test the search applies to a free cell. *)
Definition fits (s : pmm) (i req : Z) (z : mem_zone_type_t) (strict : bool) : Prop :=
  state (cells s i) = CELL_FREE /\ req <= size (cells s i) /\
  (strict = true -> u64 (base (cells s i) + req) <= zone_limit z).

Lemma find_sound fuel s r req z strict f :
  find_free_cell_zone fuel s r req z strict = f -> f <> NIL ->
  desc s r f /\ fits s f req z strict.
Proof.
  revert r. induction fuel as [|fuel IH]; intros r; cbn [find_free_cell_zone]; [congruence|].
  destruct (state (cells s r)) eqn:Hs; try congruence.
  - destruct (Z.leb_spec req (size (cells s r))); [|congruence].
    destruct strict; cbn; [destruct (Z.ltb_spec (zone_limit z) (u64 (base (cells s r) + req)))|];
      try congruence; intros <- _; (split; [constructor|unfold fits; split_and!; auto; done]).
  - intros Hf Hn. apply first_child_found in Hf as (c & Hin & _ & Hc); [|done].
    destruct (IH c Hc Hn) as [Hd Hfit]. split; [|done].
    apply in_map_iff in Hin as (k & <- & Hk).
    apply (desc_child s r k); [done| |done]. cbn in Hk. lia.
Qed.

Lemma find_complete fuel s r req z strict i :
  forest s -> in_pool s r -> size (cells s r) < PAGE_SIZE * 4 ^ Z.of_nat fuel ->
  find_free_cell_zone fuel s r req z strict = NIL ->
  desc s r i -> ~ fits s i req z strict.
Proof.
  intros F. revert r. induction fuel as [|fuel IH]; intros r Hr Hsz Hf Hd (HF & Hreq & Hz).
  { pose proof (cell_size_min s r (fo_cells _ F r Hr)). cbn in Hsz. lia. }
  cbn [find_free_cell_zone] in Hf. pose proof (fo_count _ F).
  destruct Hd as [r|r k i HS Hk Hd].
  - rewrite HF in Hf. rewrite (proj2 (Z.leb_le _ _) Hreq) in Hf.
    destruct strict; cbn in Hf; [|pmm_lia].
    destruct (Z.ltb_spec (zone_limit z) (u64 (base (cells s r) + req))); [|pmm_lia].
    specialize (Hz eq_refl). lia.
  - rewrite HS in Hf. pose proof (child_in_pool s F r k Hr HS Hk) as Hin.
    apply (IH (children (cells s r) k)); unfold fits; auto.
    + destruct (forest_child s F r k Hr HS Hk) as [_ _ -> _ _].
      rewrite Nat2Z.inj_succ, Z.pow_succ_r in Hsz by lia. apply Z.div_lt_upper_bound; lia.
    + eapply first_child_none in Hf; [exact Hf| |pmm_lia].
      apply in_map. cbn. lia.
Qed.

Lemma depth_enough s r : forest s -> in_pool s r -> size (cells s r) < PAGE_SIZE * 4 ^ Z.of_nat DEPTH.
Proof.
  intros F Hr. pose proof (ck_base _ _ (fo_cells _ F r Hr)). 
  change (4 ^ Z.of_nat DEPTH) with (2 ^ 64). pmm_lia.
Qed.

Opaque find_free_cell_zone.

Lemma scan_roots_Some n i s req z strict idx found :
  0 <= i -> 0 < cell_count s ->
  scan_roots n i s req z strict = Some (idx, found) ->
  in_pool s idx /\ parent (cells s idx) = NIL /\ desc s idx found /\ fits s found req z strict.
Proof.
  intros Hi Hc. revert i Hi. induction n as [|n IH]; intros i Hi; cbn [scan_roots]; [done|].
  set (x := (last_used_cell s + i) mod cell_count s).
  destruct (Z.eqb_spec (parent (cells s x)) NIL) as [Hp|]; cbn [negb]; [|apply IH; lia].
  destruct (Z.eqb_spec (find_free_cell_zone DEPTH s x req z strict) NIL) as [|Hn]; [apply IH; lia|].
  intros [= <- <-]. destruct (find_sound _ _ _ _ _ _ _ eq_refl Hn).
  split_and!; auto. unfold in_pool, x. apply Z.mod_pos_bound. lia.
Qed.

Lemma scan_roots_None n i s req z strict :
  scan_roots n i s req z strict = None ->
  forall j, i <= j < i + Z.of_nat n ->
  let idx := (last_used_cell s + j) mod cell_count s in
  parent (cells s idx) = NIL -> find_free_cell_zone DEPTH s idx req z strict = NIL.
Proof.
  revert i. induction n as [|n IH]; intros i H j Hj idx Hp; [lia|]. cbn [scan_roots] in H.
  destruct (decide (j = i)) as [->|].
  - fold idx in H. rewrite Hp, Z.eqb_refl in H. cbn [negb] in H.
    destruct (Z.eqb_spec (find_free_cell_zone DEPTH s idx req z strict) NIL); [done|done].
  - apply (IH (i + 1)); auto; [|lia].
    destruct (negb _); [done|]. by destruct (_ =? NIL).
Qed.

(** The scan visits every root: when it fails, no cell of the forest fits. *)
Lemma scan_complete s req z strict i :
  forest s -> scan_roots (Z.to_nat (cell_count s)) 0 s req z strict = None ->
  in_pool s i -> linked s i -> ~ fits s i req z strict.
Proof.
  intros F Hscan Hi Hl. destruct (linked_root s F i Hi Hl) as (r & Hr & Hrn & Hd).
  assert ((last_used_cell s + (r - last_used_cell s) mod cell_count s) mod cell_count s = r) as E.
  { rewrite Zplus_mod_idemp_r. replace (last_used_cell s + (r - last_used_cell s)) with r by lia.
    apply Z.mod_small. pmm_lia. }
  pose proof (Z.mod_pos_bound (r - last_used_cell s) (cell_count s) ltac:(pmm_lia)).
  pose proof (scan_roots_None _ _ _ _ _ _ Hscan ((r - last_used_cell s) mod cell_count s)) as Hn.
  cbv zeta in Hn. rewrite E in Hn.
  apply (find_complete DEPTH s r req z strict i F Hr (depth_enough s r F Hr)); [|done].
  apply Hn; [pmm_lia|done].
Qed.

(** ** Descending to the smallest cell that fits *)

Record descended (s s' : pmm) (f f' req : Z) : Prop := {
  de_forest : forest s';
  de_pool : in_pool s' f';
  de_linked : linked s' f';
  de_free : state (cells s' f') = CELL_FREE;
  de_base : base (cells s' f') = base (cells s f);
  de_size : req <= size (cells s' f') <= size (cells s f);
  de_coalesced : coalesced_but s f -> coalesced_but s' f';
  de_bytes : forall st, st <> CELL_SPLIT -> bytes_in st s' = bytes_in st s;
  de_used : forall j, in_pool s j -> state (cells s j) = CELL_USED -> cells s' j = cells s j;
  de_only : forall j, in_pool s' j -> state (cells s' j) = CELL_USED ->
    in_pool s j /\ state (cells s j) = CELL_USED;
  de_grow : cell_count s <= cell_count s';
  de_rest : s' = s <| cells := cells s' |> <| cell_count := cell_count s' |>
}.

Lemma descended_refl s f req :
  forest s -> in_pool s f -> linked s f -> state (cells s f) = CELL_FREE ->
  req <= size (cells s f) -> descended s s f f req.
Proof. intros. split; auto; try lia. by destruct s. Qed.

Lemma descended_trans s s1 s2 f f1 f2 req :
  descended s s1 f f1 req -> descended s1 s2 f1 f2 req -> descended s s2 f f2 req.
Proof.
  intros [F1 P1 L1 E1 B1 Z1 C1 Y1 U1 V1 G1 R1] [F2 P2 L2 E2 B2 Z2 C2 Y2 U2 V2 G2 R2].
  split; auto; try lia.
  - intros st Hst. by rewrite Y2, Y1.
  - intros j Hj Hu. rewrite U2, U1; auto; [pmm_lia|by rewrite U1].
  - intros j Hj Hu. destruct (V2 j Hj Hu). auto.
  - rewrite R2 at 1. rewrite R1. by destruct s.
Qed.

Lemma cell_split_ok s f s' req :
  forest s -> in_pool s f -> linked s f -> req <= size (cells s f) / 4 ->
  cell_split f s = (true, s') -> descended s s' f (children (cells s' f) 0) req.
Proof.
  intros F Hf Hl Hreq. unfold cell_split.
  destruct (decide (state (cells s f) <> CELL_FREE)) as [|Hst]; [done|].
  apply dec_stable in Hst. destruct (Z.ltb_spec (size (cells s f)) (PAGE_SIZE * 4)) as [|Hbig]; [done|].
  destruct (cell_split_loop 4 0 f (size (cells s f) / 4) s) as [ok s1] eqn:Eloop.
  pose proof (fo_count _ F).
  apply cell_split_loop_rounds in Eloop as (m & Hm & Hok & R); [|pmm_lia..].
  destruct ok; [|done]. rewrite Hok in R by done. intros Heq.
  assert (s' = set_cell s1 f ((cells s1 f) <| state := CELL_SPLIT |>)) as -> by congruence.
  clear Heq. pose proof (split_self s s1 f R) as (Hb & Hsz & Hp & Hs & Hc).
  pose proof (split_count s s1 f R) as Hcnt.
  destruct (split_new s s1 f F Hf Hbig R 0 ltac:(lia)) as (Nb & Nsz & Nst & Np).
  rewrite !Hc, !Z.add_0_r in * by lia.
  split; auto.
  - by apply (split_forest s s1 f).
  - unfold in_pool. rewrite Hcnt. pmm_lia.
  - rewrite <- (Z.add_0_r (cell_count s)). apply (split_new_linked s s1 f); auto. lia.
  - rewrite Nsz. pose proof (cell_size_min s f (fo_cells _ F f Hf)).
    split; [done|]. apply Z.div_le_upper_bound; pmm_lia.
  - by apply (split_coalesced s s1 f).
  - intros st Hst'. by apply (split_bytes s s1 f).
  - intros j Hj Hu. apply (split_frame s s1 f); auto. congruence.
  - intros j Hj Hu. unfold in_pool in Hj. rewrite Hcnt in Hj.
    destruct (decide (j = f)) as [->|Hne]; [cbn in Hu; by rewrite upd_eq in Hu|].
    destruct (decide (in_pool s j)) as [Hin|Hni].
    + by rewrite (split_frame s s1 f) in Hu by auto.
    + destruct (split_new s s1 f F Hf Hbig R (j - cell_count s) ltac:(pmm_lia)) as (_ & _ & Hn & _).
      replace (cell_count s + (j - cell_count s)) with j in Hn by lia. congruence.
  - rewrite Hcnt. lia.
  - cbn. rewrite (sr_rest _ _ _ _ _ _ R). by destruct s.
Qed.

(** A failed split leaves only orphans behind, and fails only because the pool
    of cells is exhausted. *)
Lemma cell_split_fail s f s' req :
  forest s -> in_pool s f -> linked s f -> state (cells s f) = CELL_FREE ->
  PAGE_SIZE * 4 <= size (cells s f) -> req <= size (cells s f) ->
  cell_split f s = (false, s') -> descended s s' f f req.
Proof.
  intros F Hf Hl Hst Hbig Hreq. unfold cell_split.
  destruct (decide (state (cells s f) <> CELL_FREE)) as [|_]; [done|].
  destruct (Z.ltb_spec (size (cells s f)) (PAGE_SIZE * 4)); [lia|].
  destruct (cell_split_loop 4 0 f (size (cells s f) / 4) s) as [ok s1] eqn:Eloop.
  pose proof (fo_count _ F).
  apply cell_split_loop_rounds in Eloop as (m & Hm & _ & R); [|pmm_lia..].
  destruct ok; [done|]. intros Heq. assert (s' = s1) as -> by congruence. clear Heq.
  destruct (split_rounds_grow s s1 f m F Hf Hst Hbig ltac:(lia) R) as (Hc & Hold & Hnew).
  destruct (Hold f Hf) as (Hb & Hsz & Hp & Hs & _).
  split; rewrite ?Hb, ?Hsz, ?Hs; auto; try lia.
  - by eapply grow_forest.
  - pmm_lia.
  - by eapply grow_linked.
  - by apply grow_coalesced.
  - intros st _. by apply grow_bytes.
  - intros j Hj Hu. apply (sr_frame _ _ _ _ _ _ R); [congruence|pmm_lia].
  - intros j Hj Hu. destruct (decide (in_pool s j)) as [Hin|Hni].
    + by destruct (Hold j Hin) as (_ & _ & _ & <- & _).
    + pose proof (or_state _ _ (Hnew j ltac:(pmm_lia))). congruence.
  - apply (sr_rest _ _ _ _ _ _ R).
Qed.

Lemma split_down_ok fuel s f req f' s' :
  forest s -> in_pool s f -> linked s f -> state (cells s f) = CELL_FREE ->
  req <= size (cells s f) -> split_down fuel f req s = (f', s') ->
  descended s s' f f' req.
Proof.
  revert s f. induction fuel as [|fuel IH]; intros s f F Hf Hl Hst Hreq; cbn [split_down].
  { intros [= <- <-]. by apply descended_refl. }
  destruct (Z.leb_spec req (size (cells s f) / 4)), (Z.leb_spec (PAGE_SIZE * 4) (size (cells s f)));
    cbn [andb]; try (intros [= <- <-]; by apply descended_refl).
  destruct (cell_split f s) as [ok s1] eqn:Es. destruct ok.
  - apply (cell_split_ok s f s1 req) in Es as D; auto. intros Hd.
    eapply descended_trans; [exact D|]. destruct D as [D1 D2 D3 D4 D5 D6]. eapply IH; eauto; lia.
  - intros [= <- <-]. eapply cell_split_fail; eauto.
Qed.

(** ** Allocation *)

(** [wf] only reads the cells and the two byte counters. *)
Lemma wf_ext s s' :
  cells s' = cells s -> cell_count s' = cell_count s ->
  free_mem s' = free_mem s -> total_mem s' = total_mem s -> wf s -> wf s'.
Proof.
  intros E1 E2 E3 E4 [F C A].
  assert (forall st, bytes_in st s' = bytes_in st s) as Eb.
  { intros st. unfold bytes_in, bytes_at, linkedb. by rewrite E1, E2. }
  split.
  - destruct F as [Fc Fk Fr]. split; unfold in_pool in *; rewrite ?E1, ?E2; auto.
    intros i Hi. destruct (Fk i Hi) as [? ? ? ? ? ? Hch Hl]. unfold linked in Hl.
    split; unfold linked; rewrite ?E1; auto. intros HS k Hk. destruct (Hch HS k Hk).
    split; rewrite ?E1, ?E2; auto.
  - unfold coalesced, in_pool in *. rewrite E1, E2. done.
  - destruct A. split; rewrite ?Eb; congruence.
Qed.

Lemma bytes_at_nonneg st s i : forest s -> in_pool s i -> 0 <= bytes_at st s i.
Proof.
  intros F Hi. unfold bytes_at. pose proof (cell_size_min s i (fo_cells _ F i Hi)).
  case_bool; pmm_lia.
Qed.

Lemma bytes_in_nonneg st s : forest s -> 0 <= bytes_in st s.
Proof.
  intros F. pose proof (fo_count _ F). apply sum_range_nonneg. intros i Hi.
  apply bytes_at_nonneg; auto. pmm_lia.
Qed.

Lemma bytes_in_cell st s i :
  forest s -> in_pool s i -> linked s i -> state (cells s i) = st -> size (cells s i) <= bytes_in st s.
Proof.
  intros F Hi Hl Hst. pose proof (fo_count _ F).
  assert (bytes_at st s i = size (cells s i)) as <-.
  { unfold bytes_at. rewrite (proj2 (linkedb_spec s i) Hl). by rewrite bool_decide_eq_true_2. }
  apply sum_range_le_one; [|pmm_lia]. intros j Hj. apply bytes_at_nonneg; auto. pmm_lia.
Qed.

(** The page frames of a cell. *)
Definition frame_of (c : cell_t) (pfn : Z) : Prop :=
  phys_to_pfn (base c) <= pfn < phys_to_pfn (base c) + size c / PAGE_SIZE /\ pfn < MAX_PHYS_PAGES.

(** [s'] is [s] with the fresh cell [i] at [r] handed out for [req] bytes. *)
Record allocated (s s' : pmm) (req r i : Z) : Prop := {
  al_pool : in_pool s' i;
  al_used : state (cells s' i) = CELL_USED;
  al_base : base (cells s' i) = r;
  al_size : req <= size (cells s' i);
  al_fresh : forall j, in_pool s j -> state (cells s j) = CELL_USED ->
    j <> i /\ in_pool s' j /\ cells s' j = cells s j /\ disjoint_cells (cells s' i) (cells s j);
  al_only : forall j, in_pool s' j -> state (cells s' j) = CELL_USED -> j <> i ->
    in_pool s j /\ state (cells s j) = CELL_USED;
  al_free : free_mem s' = free_mem s - size (cells s' i);
  al_total : total_mem s' = total_mem s;
  al_refs : forall pfn, frame_of (cells s' i) pfn -> refcount (page_array s' pfn) = 1;
  al_keep : forall pfn, ~ frame_of (cells s' i) pfn -> page_array s' pfn = page_array s pfn
}.

(** The loop over the descriptors of a cell acts on its frames only. *)
Lemma page_loop (g : page_t -> page_t) c pa pfn :
  (frame_of c pfn -> for_loop (page_rounds (phys_to_pfn (base c)) (size c / PAGE_SIZE))
    (phys_to_pfn (base c)) (fun i pa => pa.[i <- g (pa i)]) pa pfn = g (pa pfn)) /\
  (~ frame_of c pfn -> for_loop (page_rounds (phys_to_pfn (base c)) (size c / PAGE_SIZE))
    (phys_to_pfn (base c)) (fun i pa => pa.[i <- g (pa i)]) pa pfn = pa pfn).
Proof.
  rewrite (for_loop_upd g). unfold page_rounds, frame_of.
  set (n := size c / PAGE_SIZE). set (b := phys_to_pfn (base c)).
  destruct (Z.leb_spec b pfn), (Z.ltb_spec pfn (b + Z.of_nat (Z.to_nat (Z.min n (MAX_PHYS_PAGES - b)))));
    cbn; split; intros Hf; try done; exfalso; lia.
Qed.

Lemma take_cell_ok s idx f r s' req :
  forest s -> accounted s -> in_pool s f -> linked s f -> state (cells s f) = CELL_FREE ->
  req <= size (cells s f) -> coalesced_but s f -> take_cell idx f s = (r, s') ->
  wf s' /\ allocated s s' req r f.
Proof.
  intros F A Hf Hl Hst Hreq HC Ht.
  set (c' := (cells s f) <| state := CELL_USED |>).
  assert (cells s' = (cells s).[f <- c'] /\ cell_count s' = cell_count s /\
          r = base (cells s f) /\ free_mem s' = u64 (free_mem s - size (cells s f)) /\
          total_mem s' = total_mem s) as (Ec & En & Er & Ef & Et).
  { unfold take_cell in Ht. cbn in Ht. rewrite upd_eq in Ht. by injection Ht as <- <-. }
  assert (forall pfn, (frame_of (cells s f) pfn -> refcount (page_array s' pfn) = 1) /\
    (~ frame_of (cells s f) pfn -> page_array s' pfn = page_array s pfn)) as Hrefs.
  { unfold take_cell in Ht. cbn in Ht. rewrite upd_eq in Ht. injection Ht as _ <-.
    intros pfn. destruct (page_loop claim_page (cells s f) (page_array s) pfn) as [H1 H2].
    split; intros Hp; cbn; [by rewrite H1|by rewrite H2]. }
  clear Ht. assert (leaf_state (state (cells s f)) /\ leaf_state (state c')) as [HL HL'].
  { split; [by left|by right]. }
  assert (forest s') as F' by (by eapply (retag_forest s s' f c')).
  assert (forall st, bytes_in st s' = bytes_in st s
      - (if bool_decide (state (cells s f) = st) then size (cells s f) else 0)
      + (if bool_decide (state c' = st) then size (cells s f) else 0)) as Hby.
  { intros st. by eapply (retag_bytes s s' f c'). }
  destruct A as [A1 A2 A3]. pose proof (bytes_in_nonneg CELL_FREE s F).
  pose proof (bytes_in_nonneg CELL_USED s F). pose proof (bytes_in_cell CELL_FREE s f F Hf Hl Hst).
  pose proof (cell_size_min s f (fo_cells _ F f Hf)).
  rewrite wrap_small in Ef by pmm_lia.
  pose proof (Hby CELL_FREE) as HbF. pose proof (Hby CELL_USED) as HbU. cbn in HbF, HbU.
  rewrite Hst in HbF, HbU. repeat case_bool_decide; try done.
  split; [split; [done| |split; lia]|].
  - by eapply retag_coalesced_take.
  - assert (cells s' f = c') as Ecf by (by rewrite Ec, upd_eq).
    split; rewrite ?Ecf; auto; try (cbn; lia); try apply Hrefs.
    + unfold in_pool. by rewrite En.
    + intros j Hj Hu. assert (j <> f) by congruence. rewrite Ec, upd_ne by done. split_and!; auto.
      * unfold in_pool. by rewrite En.
      * pose proof (leaves_disjoint s F f j Hf Hj Hl) as Hd. apply Hd; try congruence.
        by apply (ck_linked _ _ (fo_cells _ F j Hj)); right.
    + intros j Hj Hu Hne. rewrite Ec, upd_ne in Hu by done. unfold in_pool in *. by rewrite <- En.
Qed.

Lemma coalesced_weaken s x : coalesced s -> coalesced_but s x.
Proof. intros HC p Hp HS. destruct (HC p Hp HS) as (k & Hk & ?). eauto. Qed.

Lemma alloc_pass_spec count z strict s r s' :
  wf s -> alloc_pass count z strict s = (r, s') ->
  (r = 0 /\ s' = s /\ forall i, in_pool s i -> linked s i ->
      ~ fits s i (u64 (count * PAGE_SIZE)) z strict) \/
  (wf s' /\ exists i, allocated s s' (u64 (count * PAGE_SIZE)) r i /\
     (strict = true -> u64 (r + u64 (count * PAGE_SIZE)) <= zone_limit z)).
Proof.
  intros [F C A]. unfold alloc_pass. set (req := u64 (count * PAGE_SIZE)).
  destruct (scan_roots _ 0 s req z strict) as [[idx f]|] eqn:Escan.
  2: { intros [= <- <-]. left. split_and!; auto. intros i Hi Hl. by apply scan_complete. }
  destruct (decide (cell_count s = 0)) as [E0|]; [by rewrite E0 in Escan|].
  pose proof (fo_count _ F). apply scan_roots_Some in Escan as (Hidx & Hroot & Hd & Hst & Hreq & Hz); [|lia..].
  destruct (desc_range s F idx f Hd Hidx) as (Hf & _).
  pose proof (desc_linked s F idx f Hd Hidx (or_introl Hroot)) as Hl.
  destruct (split_down DEPTH f req s) as [f1 s1] eqn:Esd. intros Ht. right.
  apply split_down_ok in Esd as D; auto. destruct D as [F1 P1 L1 S1 B1 Z1 C1 Y1 U1 V1 G1 R1].
  assert (accounted s1) as A1.
  { destruct A as [X1 X2 X3].
    assert (free_mem s1 = free_mem s /\ total_mem s1 = total_mem s) as [E1 E2] by (by rewrite R1).
    split; rewrite ?Y1, ?E1, ?E2 by done; done. }
  destruct (take_cell_ok s1 idx f1 r s' req) as (W & [T1 T2 T3 T4 T5 T5' T6 T7 T8 T9]); auto; try lia.
  { by apply C1, coalesced_weaken. }
  split; [done|]. exists f1.
  assert (free_mem s1 = free_mem s /\ total_mem s1 = total_mem s /\ page_array s1 = page_array s)
    as (E1 & E2 & E3) by (by rewrite R1).
  assert (base (cells s' f1) = base (cells s f)) as Eb.
  { rewrite T3. unfold take_cell in Ht. cbn in Ht. rewrite upd_eq in Ht. injection Ht as <- _. done. }
  split.
  - split; auto; try congruence; [|intros j Hj Hu Hne; by apply V1; apply T5'|by rewrite <- E3]. intros j Hj Hu. pose proof (U1 j Hj Hu) as E.
    rewrite <- E. apply T5; [pmm_lia|congruence].
  - intros Hs. rewrite <- T3, Eb. by apply Hz.
Qed.

Lemma check_pressure_rest zt s : exists l, check_pressure zt s = s <| pressure_log := l |>.
Proof.
  unfold check_pressure. case_bool; [|exists (pressure_log s); by destruct s].
  set (P := fun s' => exists l, s' = s <| pressure_log := l |>). fold (P s).
  apply (for_loop_ind P).
  - intros i s' _ [l ->]. case_bool; eexists; done.
  - exists (pressure_log s). by destruct s.
Qed.

(** The result of an allocation, whatever the zone and strictness: either no
    free cell is large enough, nothing changes and 0 is returned, or a fresh
    cell is handed out; a strict request that some cell of its zone can serve
    is served from the zone. *)
Lemma alloc_internal_spec count z strict s r s' :
  wf s -> pmm_alloc_pages_internal count z strict s = (r, s') ->
  let req := u64 (count * PAGE_SIZE) in
  (r = 0 /\ s' = s /\ forall i, in_pool s i -> linked s i -> state (cells s i) = CELL_FREE ->
      size (cells s i) < req) \/
  (r <> 0 /\ wf s' /\ (exists i, allocated s s' req r i) /\
   (strict = true -> u64 (r + req) <= zone_limit z \/
      forall i, in_pool s i -> linked s i -> ~ fits s i req z true)).
Proof.
  intros W. unfold pmm_alloc_pages_internal. cbv zeta. set (req := u64 (count * PAGE_SIZE)).
  assert (forall st r1 s1 i, wf s1 -> allocated s s1 req r1 i -> r1 <> 0 /\
    wf (check_pressure st s1) /\ allocated s (check_pressure st s1) req r1 i) as Hpass.
  { intros st r1 s1 i W1 Ha. destruct (check_pressure_rest st s1) as [l ->].
    split_and!; [|by apply (wf_ext s1)|by destruct Ha].
    rewrite <- (al_base _ _ _ _ _ Ha).
    pose proof (ck_base _ _ (fo_cells _ (wf_forest _ W1) i (al_pool _ _ _ _ _ Ha))). lia. }
  destruct (alloc_pass count z strict s) as [r1 s1] eqn:E1.
  apply (alloc_pass_spec _ _ _ _ _ _ W) in E1 as [(-> & -> & Hn)|(W1 & i & Ha & Hz)].
  - cbn. destruct strict.
    + destruct (alloc_pass count z false s) as [r2 s2] eqn:E2.
      apply (alloc_pass_spec _ _ _ _ _ _ W) in E2 as [(-> & -> & Hn')|(W2 & i & Ha & _)].
      * cbn. intros [= <- <-]. left. split_and!; auto. intros i Hi Hl Hs.
        destruct (decide (size (cells s i) < req)); [done|]. exfalso. apply (Hn' i Hi Hl).
        unfold fits. split_and!; auto; [lia|done].
      * destruct (Hpass (phys_to_zone r2) r2 s2 i W2 Ha) as (Hr & W3 & Ha').
        rewrite (proj2 (Z.eqb_neq r2 0) Hr). cbn. intros [= <- <-]. right. eauto 6.
    + intros [= <- <-]. left. split_and!; auto. intros i Hi Hl Hs.
      destruct (decide (size (cells s i) < req)); [done|]. exfalso. apply (Hn i Hi Hl).
      unfold fits. split_and!; auto; [lia|done].
  - destruct (Hpass (phys_to_zone r1) r1 s1 i W1 Ha) as (Hr & W3 & Ha').
    rewrite (proj2 (Z.eqb_neq r1 0) Hr). cbn. intros [= <- <-]. right.
    split_and!; eauto.
Qed.

(** ** Free *)

Lemma find_used_Some s phys i :
  0 <= cell_count s -> find_used s phys = Some i ->
  in_pool s i /\ base (cells s i) = phys /\ state (cells s i) = CELL_USED.
Proof.
  intros Hc H. apply find_index_Some in H as (Hi & Hp & _).
  apply andb_true_iff in Hp as [Hb Hs%bool_decide_eq_true]. split_and!; [pmm_lia|lia|done].
Qed.

Lemma find_used_None s phys i :
  find_used s phys = None -> in_pool s i -> base (cells s i) = phys -> state (cells s i) <> CELL_USED.
Proof.
  intros H Hi Hb Hs. unfold find_used in H. rewrite find_index_None in H.
  specialize (H i ltac:(pmm_lia)). rewrite Hb, Z.eqb_refl, Hs in H. by cbn in H.
Qed.

Lemma children_free_spec s p :
  children_free s p = true ->
  forall k, 0 <= k < 4 -> children (cells s p) k <> NIL /\ state (cells s (children (cells s p) k)) = CELL_FREE.
Proof.
  unfold children_free. rewrite forallb_forall. intros H k Hk.
  specialize (H k ltac:(cbn; lia)). apply andb_true_iff in H as [Hn Hf].
  unfold is_free in Hf. apply bool_decide_eq_true in Hf.
  apply negb_true_iff, Z.eqb_neq in Hn. done.
Qed.

Lemma children_busy s p :
  forest s -> in_pool s p -> state (cells s p) = CELL_SPLIT -> children_free s p = false ->
  exists k, 0 <= k < 4 /\ state (cells s (children (cells s p) k)) <> CELL_FREE.
Proof.
  intros F Hp HS. pose proof (fo_count _ F). unfold children_free.
  assert (forall k, 0 <= k < 4 -> (children (cells s p) k =? NIL) = false) as Hn.
  { intros k Hk. pose proof (child_in_pool s F p k Hp HS Hk). apply Z.eqb_neq. pmm_lia. }
  cbn [forallb]. rewrite !Hn by lia. cbn [negb andb]. rewrite andb_true_r. intros H4.
  apply andb_false_iff in H4 as [H4|H4]; [exists 0|apply andb_false_iff in H4 as [H4|H4];
    [exists 1|apply andb_false_iff in H4 as [H4|H4]; [exists 2|exists 3]]];
    unfold is_free in H4; apply bool_decide_eq_false in H4; (split; [lia|done]).
Qed.

(** When the parent of [x] cannot be merged, [x] is no exception any more. *)
Lemma coalesced_settle s x :
  forest s -> coalesced_but s x ->
  (parent (cells s x) <> NIL -> state (cells s (parent (cells s x))) = CELL_SPLIT ->
   children_free s (parent (cells s x)) = false) ->
  coalesced s.
Proof.
  intros F HC Hp q Hq HS. destruct (HC q Hq HS) as (k & Hk & [?|E]); [eauto|].
  pose proof (co_parent _ _ _ (forest_child s F q k Hq HS Hk)) as Epq. rewrite E in Epq.
  rewrite Epq in Hp. pose proof (fo_count _ F).
  apply children_busy; auto. apply Hp; [pmm_lia|done].
Qed.

Definition keeps_used (s s' : pmm) : Prop :=
  forall j, state (cells s j) = CELL_USED \/ state (cells s' j) = CELL_USED -> cells s' j = cells s j.

Definition keeps_bytes (s s' : pmm) : Prop :=
  forall st, leaf_state st -> bytes_in st s' = bytes_in st s.

Lemma set_cell_rest s t i c :
  t = s <| cells := cells t |> -> set_cell t i c = s <| cells := cells (set_cell t i c) |>.
Proof. intros ->. by destruct s. Qed.

(** One merge step of cell_try_merge at the parent [p] of [x]. *)
Lemma merge_step s x :
  let p := parent (cells s x) in
  let s1 := for_loop 4 0 (retire_child p) s in
  let s2 := set_cell s1 p ((cells s1 p) <| state := CELL_FREE |>) in
  forest s -> in_pool s x -> linked s x -> coalesced_but s x ->
  p <> NIL -> state (cells s p) = CELL_SPLIT -> children_free s p = true ->
  forest s2 /\ in_pool s2 p /\ linked s2 p /\ coalesced_but s2 p /\ p < x /\
  parent (cells s2 x) = p /\ keeps_bytes s s2 /\ keeps_used s s2 /\ s2 = s <| cells := cells s2 |>.
Proof.
  intros p s1 s2 F Hx Hl HC Hpn HS Hfree.
  assert (0 <= p < x) as Hlt.
  { destruct (ck_parent _ _ (fo_cells _ F x Hx)); [done|done]. }
  assert (in_pool s p) as Hp by pmm_lia.
  assert (exists k, 0 <= k < 4 /\ children (cells s p) k = x) as Hchild.
  { destruct Hl as [|[_ Hk] ]; [done|done]. }
  assert (forall k, 0 <= k < 4 -> state (cells s (children (cells s p) k)) = CELL_FREE) as Hf.
  { intros k Hk. by apply (children_free_spec s p Hfree k Hk). }
  assert (retired s s1 p 0 4) as R.
  { apply (retire_rounds 4); cbn.
    - intros k Hk E. rewrite <- E in HS at 1. by rewrite Hf in HS.
    - intros k l Hk Hl' E. destruct (decide (k = l)); [done|].
      by apply (merge_children_distinct s p F Hp HS k l) in E. }
  split_and!.
  - by apply (merge_forest s s1 p).
  - unfold in_pool, s2. rewrite (merge_count s s1 p R). done.
  - apply (merge_linked s s1 p); auto. split.
    + apply (ck_linked _ _ (fo_cells _ F p Hp)). by left.
    + intros (k & Hk & E). rewrite <- E in HS at 1. by rewrite Hf in HS.
  - by eapply (merge_coalesced s s1 p).
  - lia.
  - by apply (merge_place s s1 p).
  - intros st [-> | ->]; by apply (merge_bytes s s1 p).
  - intros j Hj. apply (merge_frame s s1 p); [done| |].
    + intros ->. destruct (merge_self s s1 p R) as (_ & _ & _ & E).
      change (state (cells s2 p) = CELL_FREE) in E. destruct Hj; congruence.
    + intros Hc. pose proof (merge_child s s1 p F Hp HS R j Hc) as E. unfold s2 in Hj. rewrite E in Hj.
      destruct Hc as (k & Hk & <-). rewrite Hf in Hj by done. by destruct Hj.
  - apply set_cell_rest, (rt_rest _ _ _ _ _ R).
Qed.

(** Merging from [x] upwards restores coalescing, keeps the byte counts and
    every used cell.  The index of [x] bounds the recursion. *)
Lemma cell_try_merge_ok fuel s x :
  forest s -> in_pool s x -> linked s x -> x < Z.of_nat fuel -> coalesced_but s x ->
  let s' := cell_try_merge fuel x s in
  forest s' /\ coalesced s' /\ keeps_bytes s s' /\ keeps_used s s' /\ s' = s <| cells := cells s' |>.
Proof.
  revert s x. induction fuel as [|fuel IH]; intros s x F Hx Hl Hfuel HC; [pmm_lia|].
  cbn [cell_try_merge]. pose proof (coalesced_settle s x F HC) as Hset.
  assert (coalesced s -> forest s /\ coalesced s /\ keeps_bytes s s /\ keeps_used s s /\
    s = s <| cells := cells s |>) as Hstop.
  { intros. split_and!; auto; try done. by destruct s. }
  destruct (Z.eqb_spec (parent (cells s x)) NIL); [apply Hstop, Hset; congruence|].
  destruct (decide (state (cells s (parent (cells s x))) <> CELL_SPLIT)) as [|HS];
    [apply Hstop, Hset; congruence|apply dec_stable in HS].
  destruct (children_free s (parent (cells s x))) eqn:Hfree; cbn [negb]; [|apply Hstop, Hset; done].
  destruct (merge_step s x) as (F2 & P2 & L2 & C2 & Hlt & Epar & B2 & U2 & R2); auto.
  cbv zeta in *. set (s2 := set_cell _ _ _) in *. rewrite Epar.
  destruct (IH s2 (parent (cells s x)) F2 P2 L2 ltac:(lia) C2) as (F3 & C3 & B3 & U3 & R3).
  split_and!; auto.
  - intros st Hst. by rewrite B3, B2.
  - intros j Hj.
    assert (cells s2 j = cells s j) as E.
    { apply U2. destruct Hj as [|Hj]; [by left|right]. by rewrite <- (U3 j) by by right. }
    rewrite <- E. apply U3. by rewrite E.
Qed.

(** [s'] is [s] after the used cell [i] went back to the forest. *)
Record released (s s' : pmm) (i : Z) : Prop := {
  re_gone : in_pool s i /\ state (cells s i) = CELL_USED;
  re_count : cell_count s' = cell_count s;
  re_others : forall j, j <> i -> state (cells s j) = CELL_USED -> cells s' j = cells s j;
  re_only : forall j, j <> i -> state (cells s' j) = CELL_USED -> state (cells s j) = CELL_USED;
  re_not_used : state (cells s' i) <> CELL_USED;
  re_free : free_mem s' = free_mem s + size (cells s i);
  re_total : total_mem s' = total_mem s;
  re_refs : forall pfn, frame_of (cells s i) pfn -> refcount (page_array s' pfn) = 0;
  re_keep : forall pfn, ~ frame_of (cells s i) pfn -> page_array s' pfn = page_array s pfn
}.

Lemma release_cell_ok s i :
  wf s -> in_pool s i -> state (cells s i) = CELL_USED ->
  let s' := release_cell i (base (cells s i)) s in wf s' /\ released s s' i.
Proof.
  intros [F C A] Hi Hu. unfold release_cell. cbv zeta.
  set (c' := (cells s i) <| state := CELL_FREE |> <| owner := 0 |>).
  match goal with |- context [cell_try_merge _ i ?x] => set (s1 := x) end.
  assert (forall pfn, (frame_of (cells s i) pfn -> refcount (page_array s1 pfn) = 0) /\
    (~ frame_of (cells s i) pfn -> page_array s1 pfn = page_array s pfn)) as Hrefs.
  { intros pfn. unfold s1. cbn. rewrite upd_eq. cbn.
    destruct (page_loop clear_page (cells s i) (page_array s) pfn) as [H1 H2].
    split; intros Hp; [by rewrite H1|by rewrite H2]. }
  assert (cells s1 = (cells s).[i <- c'] /\ cell_count s1 = cell_count s /\
          free_mem s1 = u64 (free_mem s + size (cells s i)) /\ total_mem s1 = total_mem s)
    as (Ec & En & Ef & Et) by (unfold s1; cbn; by rewrite upd_eq).
  clearbody s1. pose proof (fo_count _ F).
  assert (linked s i) as Hl by (apply (ck_linked _ _ (fo_cells _ F i Hi)); by right).
  assert (leaf_state (state (cells s i)) /\ leaf_state (state c')) as [HL HL'].
  { split; [by right|by left]. }
  assert (forest s1) as F1 by (by eapply (retag_forest s s1 i c')).
  assert (linked s1 i) as L1 by (by eapply (retag_linked s s1 i c')).
  assert (coalesced_but s1 i) as C1 by (by eapply (retag_coalesced_release s s1 i c')).
  pose proof (bytes_in_cell CELL_USED s i F Hi Hl Hu).
  assert (forall st, bytes_in st s1 = bytes_in st s
      - (if bool_decide (state (cells s i) = st) then size (cells s i) else 0)
      + (if bool_decide (state c' = st) then size (cells s i) else 0)) as Hby.
  { intros st. by eapply (retag_bytes s s1 i c'). }
  assert (in_pool s1 i) as Hi1 by (unfold in_pool; by rewrite En).
  destruct (cell_try_merge_ok (S (Z.to_nat i)) s1 i F1 Hi1 L1 ltac:(pmm_lia) C1)
    as (F2 & C2 & B2 & U2 & R2).
  set (s2 := cell_try_merge (S (Z.to_nat i)) i s1) in *. clearbody s2.
  assert (free_mem s2 = free_mem s1 /\ total_mem s2 = total_mem s1 /\ cell_count s2 = cell_count s1 /\
    page_array s2 = page_array s1) as (E1 & E2 & E3 & E4) by (by rewrite R2).
  destruct A as [A1 A2 A3]. pose proof (bytes_in_nonneg CELL_FREE s F).
  pose proof (cell_size_min s i (fo_cells _ F i Hi)).
  rewrite wrap_small in Ef by pmm_lia.
  pose proof (B2 CELL_FREE ltac:(by left)) as HbF. pose proof (B2 CELL_USED ltac:(by right)) as HbU.
  rewrite Hby in HbF, HbU. cbn in HbF, HbU. rewrite Hu in HbF, HbU.
  repeat case_bool_decide; try done.
  split; [split; [done|done|split; lia]|].
  split; rewrite ?E4; auto; try congruence; try apply Hrefs.
  - intros j Hj Hju. rewrite U2, Ec, upd_ne; auto. left. by rewrite Ec, upd_ne.
  - intros j Hj Hju. rewrite U2, Ec, upd_ne in Hju; auto.
  - intros Hc. rewrite U2, Ec, upd_eq in Hc by by right. done.
Qed.

Lemma free_pages_spec s phys count :
  wf s -> let s' := pmm_free_pages phys count s in
  wf s' /\
  match find_used s phys with
  | None => s' = s
  | Some i =>
      if (phys_to_pfn phys <? MAX_PHYS_PAGES) && (1 <? refcount (page_array s (phys_to_pfn phys)))
      then cells s' = cells s /\ free_mem s' = free_mem s /\
           refcount (page_array s' (phys_to_pfn phys)) = u32 (refcount (page_array s (phys_to_pfn phys)) - 1)
      else released s s' i
  end.
Proof.
  intros W. unfold pmm_free_pages. destruct (find_used s phys) as [i|] eqn:Ef; [|done].
  pose proof (fo_count _ (wf_forest _ W)).
  apply find_used_Some in Ef as (Hi & <- & Hu); [|lia].
  case_bool.
  - cbn. rewrite upd_eq. split_and!; try done. by apply (wf_ext s).
  - by apply release_cell_ok.
Qed.

End PmmProps.
