(* ===== verification/PmmInit.v ===== *)
(** * Boot initialisation of the physical allocator

    pmm_init turns a sane boot memory map into a well-formed forest whose
    roots are exactly the usable pages, and the invariant then holds in every
    state the kernel reaches through the allocator's operations. *)

From S2P Require Import Prelude Pmm PmmSpec PmmProps.

Module PmmInit.
Import Pmm PmmSpec PmmProps.

(** ** Rounding and chunking *)

Lemma page_floor_eq x : 0 <= x < 2 ^ 64 -> page_floor x = x / PAGE_SIZE * PAGE_SIZE.
Proof.
  intros Hx. unfold page_floor.
  change (u64 (Z.lnot (PAGE_SIZE - 1))) with (Z.shiftl (Z.ones 52) 12).
  rewrite land_field by lia. change (2 ^ 12) with PAGE_SIZE.
  rewrite Z.mod_small; [done|]. unfold PAGE_SIZE.
  split; [apply Z.div_pos; lia|apply Z.div_lt_upper_bound; lia].
Qed.

Lemma grow_chunk_ok fuel sz c :
  0 <= sz < 2 ^ 62 -> c <= sz -> (exists k, 0 <= k /\ c = PAGE_SIZE * 4 ^ k) ->
  let c' := grow_chunk fuel c sz in c <= c' <= sz /\ exists k, 0 <= k /\ c' = PAGE_SIZE * 4 ^ k.
Proof.
  intros Hsz. revert c. induction fuel as [|fuel IH]; intros c Hc (k & Hk & ->); cbn [grow_chunk].
  { split; [lia|eauto]. }
  pose proof (pow4_pos k Hk).
  destruct (Z.leb_spec (u64 (PAGE_SIZE * 4 ^ k * 4)) sz) as [H4|]; [|split; [lia|eauto]].
  rewrite wrap_small in * by pmm_lia.
  destruct (IH (PAGE_SIZE * 4 ^ k * 4)) as [? ?]; [lia| |].
  - exists (k + 1). rewrite pow4_succ by lia. lia.
  - split; [pmm_lia|done].
Qed.

(** ** States that only hold free roots *)

Record flat (s : pmm) : Prop := {
  fl_count : 0 <= cell_count s <= CELL_POOL_SIZE;
  fl_root : forall i, in_pool s i -> parent (cells s i) = NIL /\ state (cells s i) = CELL_FREE;
  fl_size : forall i, in_pool s i -> exists k, 0 <= k /\ size (cells s i) = PAGE_SIZE * 4 ^ k;
  fl_base : forall i, in_pool s i -> 0 < base (cells s i) /\ base (cells s i) + size (cells s i) < 2 ^ 64 /\
                      base (cells s i) mod PAGE_SIZE = 0;
  fl_disjoint : forall i j, in_pool s i -> in_pool s j -> i <> j ->
    disjoint_cells (cells s i) (cells s j);
  fl_free : free_mem s = sum_range (Z.to_nat (cell_count s)) 0 (fun i => size (cells s i));
  fl_total : total_mem s = free_mem s;
  fl_bound : total_mem s < 2 ^ 64
}.

Lemma flat_wf s : flat s -> wf s.
Proof.
  intros [Hc Hr Hs Hb Hd Hf Ht Hlt].
  assert (forall i, in_pool s i -> linked s i) as Hl by (intros i Hi; left; by apply Hr).
  split.
  - split; [done| |].
    + intros i Hi. destruct (Hr i Hi) as [Hp Hst], (Hb i Hi) as (? & ? & ?).
      split; rewrite ?Hst; auto; try done.
    + intros i j Hi Hj Hne _ _. auto.
  - intros p Hp. destruct (Hr p Hp) as [_ ->]. done.
  - assert (bytes_in CELL_FREE s = free_mem s) as E1.
    { rewrite Hf. apply sum_range_ext. intros i Hi. unfold bytes_at.
      assert (in_pool s i) as Hin by pmm_lia. destruct (Hr i Hin) as [_ ->].
      by rewrite (proj2 (linkedb_spec s i) (Hl i Hin)). }
    assert (bytes_in CELL_USED s = 0) as E2.
    { unfold bytes_in. transitivity (sum_range (Z.to_nat (cell_count s)) 0 (fun _ => 0)).
      - apply sum_range_ext. intros i Hi. unfold bytes_at.
        assert (in_pool s i) as Hin by pmm_lia. by destruct (Hr i Hin) as [_ ->].
      - apply sum_range_zero. }
    split; lia.
Qed.

(** The root of a chunk that overlaps no cell yet. *)
Lemma add_root_ok s b c :
  flat s -> 0 < b -> b + c < 2 ^ 64 -> b mod PAGE_SIZE = 0 ->
  (exists k, 0 <= k /\ c = PAGE_SIZE * 4 ^ k) -> total_mem s + c < 2 ^ 64 ->
  (forall i, in_pool s i -> base (cells s i) + size (cells s i) <= b \/ b + c <= base (cells s i)) ->
  let s' := add_root b c s in
  flat s' /\ cell_count s <= cell_count s' /\
  (forall i, in_pool s i -> cells s' i = cells s i) /\
  (forall i, in_pool s' i -> ~ in_pool s i -> base (cells s' i) = b /\ size (cells s' i) = c) /\
  total_mem s' = total_mem s + (if cell_count s <? CELL_POOL_SIZE then c else 0) /\
  (cell_count s' < CELL_POOL_SIZE -> cell_count s < CELL_POOL_SIZE).
Proof.
  intros Fl Hb Hbc Hal Hc Htot Hdis. unfold add_root.
  destruct Fl as [Hcnt Hr Hs Hbs Hd Hf Ht Hlt].
  assert (0 < c) as Hcpos.
  { destruct Hc as (k & Hk & ->). pose proof (pow4_pos k Hk). pmm_nia. }
  destruct (cell_alloc_node s) as [idx s1] eqn:Ea.
  destruct (Z.eqb_spec idx NIL) as [->|Hne].
  { unfold cell_alloc_node in Ea.
    destruct (Z.leb_spec CELL_POOL_SIZE (cell_count s)); [|injection Ea as E _; pmm_lia].
    injection Ea as <-. destruct (Z.ltb_spec (cell_count s) CELL_POOL_SIZE); [lia|].
    split_and!; auto; try lia; [split; auto|tauto]. }
  apply cell_alloc_node_Some in Ea as (-> & Hlt' & _ & ->); [|lia|done].
  destruct (Z.ltb_spec (cell_count s) CELL_POOL_SIZE); [|lia].
  assert (0 <= total_mem s) as Hpos.
  { rewrite Ht, Hf. apply sum_range_nonneg. intros i Hi.
    destruct (Hs i ltac:(pmm_lia)) as (k & Hk & ->). pose proof (pow4_pos k Hk). pmm_nia. }
  cbn. rewrite !upd_eq. cbn. rewrite !(wrap_small 64) by lia.
  split_and!; try lia.
  - split; unfold in_pool in *; cbn; try lia.
    + intros i Hi. upd_cases; cbn; auto. apply Hr. lia.
    + intros i Hi. upd_cases; cbn; auto. apply Hs. lia.
    + intros i Hi. upd_cases; cbn; auto. apply Hbs. lia.
    + intros i j Hi Hj Hij. unfold disjoint_cells. upd_cases; cbn; try lia.
      * destruct (Hdis j); lia.
      * destruct (Hdis i); lia.
      * apply Hd; lia.
    + replace (Z.to_nat (cell_count s + 1)) with (Z.to_nat (cell_count s) + 1)%nat by lia.
      rewrite sum_range_app. cbn. rewrite Hf. f_equal.
      * apply sum_range_ext. intros i Hi. rewrite !upd_ne by lia. done.
      * rewrite Z2Nat.id by lia. rewrite !upd_eq. cbn. lia.
  - intros i Hi. rewrite !upd_ne by pmm_lia. done.
  - intros i Hi Hni. replace i with (cell_count s) by (unfold in_pool in *; cbn in *; lia).
    by rewrite !upd_eq.
Qed.

(** [s'] is [s] with more roots, all of them inside [lo, hi). *)
Record extended (s s' : pmm) (lo hi : Z) : Prop := {
  ex_flat : flat s';
  ex_count : cell_count s <= cell_count s';
  ex_old : forall i, in_pool s i -> cells s' i = cells s i;
  ex_new : forall i, in_pool s' i -> ~ in_pool s i ->
    lo <= base (cells s' i) /\ base (cells s' i) + size (cells s' i) <= hi;
  ex_total : total_mem s <= total_mem s' <= total_mem s + (hi - lo)
}.

Lemma add_region_ok fuel s b sz :
  flat s -> 0 < b -> 0 <= sz -> b + sz < 2 ^ 52 -> b mod PAGE_SIZE = 0 -> sz mod PAGE_SIZE = 0 ->
  sz <= PAGE_SIZE * Z.of_nat fuel -> total_mem s + sz < 2 ^ 64 ->
  (forall i, in_pool s i -> base (cells s i) + size (cells s i) <= b \/ b + sz <= base (cells s i)) ->
  let s' := add_region fuel b sz s in
  extended s s' b (b + sz) /\
  (cell_count s' < CELL_POOL_SIZE -> total_mem s' = total_mem s + sz).
Proof.
  revert s b sz. induction fuel as [|fuel IH]; intros s b sz Fl Hb Hsz Hhi Hal Hszal Hfuel Htot Hdis;
    cbn [add_region].
  { split; [split; auto; try lia; tauto|pmm_lia]. }
  destruct (Z.leb_spec PAGE_SIZE sz) as [Hge|Hlt].
  2: { assert (sz = 0) as -> by (rewrite Z.mod_small in Hszal; lia).
       split; [split; auto; try lia; tauto|lia]. }
  destruct (grow_chunk_ok DEPTH sz PAGE_SIZE) as (Hc & k & Hk & Ek); [lia|lia|by exists 0|].
  set (c := grow_chunk DEPTH PAGE_SIZE sz) in *. clearbody c.
  rewrite !wrap_small by pmm_lia.
  assert (c mod PAGE_SIZE = 0) as Hcal by (rewrite Ek, Z.mul_comm; apply Z.mod_mul; pmm_lia).
  destruct (add_root_ok s b c) as (F1 & G1 & O1 & N1 & T1 & P1);
    [done|lia|lia|done|by exists k|lia|intros i Hi; destruct (Hdis i Hi); lia|].
  set (s1 := add_root b c s) in *. clearbody s1. pose proof (fl_count _ F1). pose proof (fl_count _ Fl).
  assert (total_mem s1 <= total_mem s + c) by (rewrite T1; case_bool; pmm_lia).
  assert (total_mem s <= total_mem s1) by (rewrite T1; case_bool; pmm_lia).
  destruct (IH s1 (b + c) (sz - c)) as ([F2 G2 O2 N2 T2] & X2); auto; try pmm_lia.
  { rewrite Z.add_mod, Hal, Hcal by pmm_lia. done. }
  { rewrite Zminus_mod, Hszal, Hcal. done. }
  { intros i Hi. destruct (decide (in_pool s i)) as [Hin|Hni].
    - rewrite O1 by done. destruct (Hdis i Hin); lia.
    - destruct (N1 i Hi Hni). lia. }
  split; [split|]; auto; try pmm_lia.
  - intros i Hi. rewrite O2, O1; auto. pmm_lia.
  - intros i Hi Hni. destruct (decide (in_pool s1 i)) as [Hin|Hni1].
    + rewrite O2 by done. destruct (N1 i Hin Hni). lia.
    + destruct (N2 i Hi Hni1). lia.
  - intros Hroom. rewrite X2, T1 by done.
    destruct (Z.ltb_spec (cell_count s) CELL_POOL_SIZE); lia.
Qed.

Lemma init_page_descriptors_rest b sz zt u s :
  exists pa mp, init_page_descriptors b sz zt u s = s <| page_array := pa |> <| max_pfn := mp |>.
Proof.
  unfold init_page_descriptors.
  set (P := fun s' => exists pa mp, s' = s <| page_array := pa |> <| max_pfn := mp |>).
  apply (for_loop_ind P).
  - intros i s' _ (pa & mp & ->). cbn. case_bool; do 2 eexists; done.
  - exists (page_array s), (max_pfn s). by destruct s.
Qed.

(** ** Memory maps *)

(** An entry the allocator takes pages from. *)
Definition is_ram (e : memmap_entry) : bool :=
  (e_type e =? LIMINE_MEMMAP_USABLE) && (PAGE_SIZE <=? e_length e).

Definition first_page (e : memmap_entry) : Z := (e_base e + PAGE_SIZE - 1) / PAGE_SIZE * PAGE_SIZE.
Definition last_page (e : memmap_entry) : Z := (e_base e + e_length e) / PAGE_SIZE * PAGE_SIZE.
Definition ram_bytes (e : memmap_entry) : Z := if is_ram e then last_page e - first_page e else 0.

Definition apart (e f : memmap_entry) : Prop :=
  is_ram e = true -> is_ram f = true ->
  e_base e + e_length e <= e_base f \/ e_base f + e_length f <= e_base e.

(** What the boot protocol promises of a memory map: usable entries avoid
    address 0, lie below 2^52 and do not overlap. *)
Record sane_map (es : list memmap_entry) : Prop := {
  sm_range : Forall (fun e => is_ram e = true ->
    0 < e_base e /\ e_base e + e_length e < 2 ^ 52) es;
  sm_apart : ForallOrdPairs apart es;
  sm_total : foldr Z.add 0 (map ram_bytes es) < 2 ^ 64
}.

Lemma ram_range e :
  is_ram e = true -> 0 < e_base e -> e_base e + e_length e < 2 ^ 52 ->
  e_base e <= first_page e <= last_page e /\ last_page e <= e_base e + e_length e /\
  0 < first_page e.
Proof.
  intros Hr Hb Hh. apply andb_true_iff in Hr as [_ Hl]. unfold first_page, last_page.
  rewrite Z.leb_le in Hl. unfold PAGE_SIZE in *. Z.to_euclidean_division_equations. lia.
Qed.

Lemma init_entry_ok s e :
  flat s -> (is_ram e = true -> 0 < e_base e /\ e_base e + e_length e < 2 ^ 52) ->
  total_mem s + ram_bytes e < 2 ^ 64 ->
  (is_ram e = true -> forall i, in_pool s i ->
     base (cells s i) + size (cells s i) <= e_base e \/ e_base e + e_length e <= base (cells s i)) ->
  let s' := init_entry e s in
  flat s' /\ cell_count s <= cell_count s' /\
  (forall i, in_pool s i -> cells s' i = cells s i) /\
  (forall i, in_pool s' i -> ~ in_pool s i -> is_ram e = true /\
     e_base e <= base (cells s' i) /\ base (cells s' i) + size (cells s' i) <= e_base e + e_length e) /\
  total_mem s <= total_mem s' <= total_mem s + ram_bytes e /\
  (cell_count s' < CELL_POOL_SIZE -> total_mem s' = total_mem s + ram_bytes e).
Proof.
  intros Fl Hrng Htot Hdis. unfold init_entry. fold (is_ram e). unfold ram_bytes in *.
  destruct (init_page_descriptors_rest (e_base e) (e_length e) (phys_to_zone (e_base e))
    (e_type e =? LIMINE_MEMMAP_USABLE) s) as (pa & mp & ->).
  set (s0 := s <| page_array := pa |> <| max_pfn := mp |>).
  assert (flat s0) as F0 by (by destruct Fl).
  destruct (is_ram e) eqn:Hram.
  2: { unfold s0 in *. cbn in *. split_and!; auto; try lia. intros i Hi Hni. exfalso. by apply Hni. }
  destruct (Hrng eq_refl) as [Hb Hh]. destruct (ram_range e Hram Hb Hh) as (H1 & H2 & H3).
  pose proof Hram as Hl. apply andb_true_iff in Hl as [_ Hl%Z.leb_le].
  cbv zeta. rewrite !page_floor_eq by (rewrite !wrap_small by pmm_lia; pmm_lia).
  rewrite (wrap_small 64 (e_base e + PAGE_SIZE - 1)), (wrap_small 64 (e_base e + e_length e)) by pmm_lia.
  fold (first_page e) (last_page e). rewrite (wrap_small 64 (last_page e - first_page e)) by pmm_lia.
  assert (forall x, x / PAGE_SIZE * PAGE_SIZE mod PAGE_SIZE = 0) as Hm by (intros; apply Z.mod_mul; pmm_lia).
  assert ((last_page e - first_page e) mod PAGE_SIZE = 0) as Hsz.
  { rewrite Zminus_mod. unfold first_page, last_page. by rewrite !Hm. }
  destruct (add_region_ok (Z.to_nat ((last_page e - first_page e) / PAGE_SIZE)) s0 (first_page e)
    (last_page e - first_page e)) as ([F1 G1 O1 N1 T1] & X1); auto; try lia.
  - unfold first_page. apply Hm.
  - rewrite Z2Nat.id by (apply Z.div_pos; pmm_lia).
    pose proof (Z.div_mod (last_page e - first_page e) PAGE_SIZE ltac:(pmm_lia)). lia.
  - intros i Hi. destruct (Hdis eq_refl i Hi); cbn; lia.
  - set (s1 := add_region _ _ _ s0) in *. clearbody s1. cbn in T1, X1, G1.
    split_and!; auto; try lia.
    intros i Hi Hni. destruct (N1 i Hi Hni). split_and!; auto; lia.
Qed.

Lemma init_entries_ok es s :
  flat s -> sane_map es ->
  (forall e i, In e es -> is_ram e = true -> in_pool s i ->
     base (cells s i) + size (cells s i) <= e_base e \/ e_base e + e_length e <= base (cells s i)) ->
  total_mem s + foldr Z.add 0 (map ram_bytes es) < 2 ^ 64 ->
  let s' := fold_left (fun s e => init_entry e s) es s in
  flat s' /\ cell_count s <= cell_count s' /\
  (cell_count s' < CELL_POOL_SIZE -> total_mem s' = total_mem s + foldr Z.add 0 (map ram_bytes es)).
Proof.
  revert s. induction es as [|e es IH]; intros s Fl Hsane Hdis Htot; cbn [fold_left].
  { cbn. split_and!; auto; lia. }
  destruct Hsane as [Hrng Hap Hsum]. inversion Hrng as [|? ? Hre Hres]; subst.
  inversion Hap as [|? ? Hae Haes]; subst. cbn in Htot, Hsum.
  assert (forall l, Forall (fun e => is_ram e = true -> 0 < e_base e /\ e_base e + e_length e < 2 ^ 52) l ->
    0 <= foldr Z.add 0 (map ram_bytes l)) as Hpos.
  { induction 1 as [|x l Hx _ IHl]; cbn; [lia|]. unfold ram_bytes at 1. destruct (is_ram x) eqn:E; [|lia].
    destruct (Hx eq_refl). destruct (ram_range x E); lia. }
  pose proof (Hpos es Hres).
  destruct (init_entry_ok s e Fl Hre) as (F1 & G1 & O1 & N1 & T1 & X1).
  { lia. }
  { intros Hr i Hi. apply Hdis; auto. by left. }
  set (s1 := init_entry e s) in *. clearbody s1.
  destruct (IH s1 F1) as (F2 & G2 & X2).
  { split; auto. pose proof (Hpos [e]) as He. cbn in He.
    assert (0 <= ram_bytes e) by (specialize (He ltac:(auto)); lia). lia. }
  { intros f i Hf Hr Hi. destruct (decide (in_pool s i)) as [Hin|Hni].
    - rewrite O1 by done. apply Hdis; auto. by right.
    - destruct (N1 i Hi Hni) as (Hre' & ? & ?). rewrite Forall_forall in Hae.
      destruct (Hae f Hf Hre' Hr); lia. }
  { lia. }
  split_and!; auto; [lia|]. intros Hroom. cbn. rewrite X2, X1; [lia| |done]. lia.
Qed.

Lemma reset_flat s : flat (pmm_reset s).
Proof.
  split; unfold in_pool; cbn; try (intros; lia); auto. unfold CELL_POOL_SIZE; lia.
Qed.

(** Boot: a sane memory map gives a well-formed allocator that manages every
    page of usable memory, unless the pool of cells runs out. *)
Lemma init_ok es s :
  sane_map es -> let s' := pmm_init es s in
  wf s' /\ free_mem s' = total_mem s' /\
  (cell_count s' < CELL_POOL_SIZE -> total_mem s' = foldr Z.add 0 (map ram_bytes es)).
Proof.
  intros Hs. destruct (init_entries_ok es (pmm_reset s) (reset_flat s) Hs) as (F & _ & X).
  - intros e i _ _ Hi. unfold in_pool in Hi. cbn in Hi. lia.
  - apply Hs.
  - unfold pmm_init. set (s1 := fold_left _ es (pmm_reset s)) in *. clearbody s1. cbn in X |- *.
    split_and!; [|by rewrite (fl_total _ F)|done].
    apply (wf_ext s1); auto. by apply flat_wf.
Qed.

End PmmInit.
