(* ===== verification/PmmClaims.v ===== *)
(** * What the physical allocator guarantees its clients

    Histories of allocator calls from boot on, and the theorems about them:
    the invariant of every reachable state, no double allocation, the outcome
    of allocation and free on every branch, coalescing, and two boundary
    cases in which the code does not do what it means to. *)

From S2P Require Import Prelude Pmm PmmSpec PmmProps PmmInit.

Module PmmClaims.
Import Pmm PmmSpec PmmProps PmmInit.

(** ** Histories *)

(** The calls of pmm.h that change the allocator's state after boot. *)
Inductive op :=
| Alloc (count : Z) (z : mem_zone_type_t) (strict : bool)
| Free (phys count : Z)
| Ref (phys : Z)
| Unref (phys : Z)
| SetFlags (phys fl : Z)
| ClearFlags (phys fl : Z)
| SetOwner (phys own : Z)
| RegisterCb (cb : Z).

Definition run (s : pmm) (o : op) : pmm :=
  match o with
  | Alloc count z strict => snd (pmm_alloc_pages_internal count z strict s)
  | Free phys count => pmm_free_pages phys count s
  | Ref phys => pmm_page_ref phys s
  | Unref phys => snd (pmm_page_unref phys s)
  | SetFlags phys fl => pmm_page_set_flags phys fl s
  | ClearFlags phys fl => pmm_page_clear_flags phys fl s
  | SetOwner phys own => pmm_set_owner phys own s
  | RegisterCb cb => pmm_register_pressure_cb cb s
  end.

Definition run_all (ops : list op) (s : pmm) : pmm := fold_left run ops s.

(** The call may return the block at [phys] to the allocator. *)
Definition releases (phys : Z) (o : op) : bool :=
  match o with
  | Free p _ | Unref p => p =? phys
  | _ => false
  end.

Inductive reachable : pmm -> Prop :=
| reach_boot es s0 : sane_map es -> reachable (pmm_init es s0)
| reach_call s o : reachable s -> reachable (run s o).

(** The bytes in whole pages of usable memory. *)
Definition usable_bytes (es : list memmap_entry) : Z := foldr Z.add 0 (map ram_bytes es).

(** ** One call *)

Lemma upd_page_rest phys f s : exists pa, upd_page phys f s = s <| page_array := pa |>.
Proof. unfold upd_page. case_bool; [exists (page_array s); by destruct s|by eexists]. Qed.

Lemma upd_page_wf phys f s : wf s -> wf (upd_page phys f s).
Proof. intros W. destruct (upd_page_rest phys f s) as [pa ->]. by apply (wf_ext s). Qed.

(** The place, size and state of a cell in use. *)
Definition holds (s : pmm) (i r n : Z) : Prop :=
  in_pool s i /\ state (cells s i) = CELL_USED /\ base (cells s i) = r /\ size (cells s i) = n.

Lemma set_owner_wf phys own s : wf s -> wf (pmm_set_owner phys own s).
Proof.
  intros W. unfold pmm_set_owner. destruct (find_used s phys) as [i|] eqn:E; [|exact (upd_page_wf _ _ _ W)].
  pose proof (fo_count _ (wf_forest _ W)).
  apply find_used_Some in E as (Hi & _ & Hu); [|lia]. destruct W as [F C A].
  set (c' := (cells s i) <| owner := own |>).
  assert (leaf_state (state (cells s i)) /\ leaf_state (state c')) as [HL HL'] by (split; by right).
  assert (linked s i) as Hl by (apply (ck_linked _ _ (fo_cells _ F i Hi)); by right).
  assert (forall st, bytes_in st (set_cell s i c') = bytes_in st s) as Hb.
  { intros st. rewrite (retag_bytes s (set_cell s i c') i c') by done. cbn. case_bool_decide; lia. }
  split.
  - by eapply (retag_forest s _ i c').
  - by eapply (retag_coalesced_take s (set_cell s i c') i c'); auto using coalesced_weaken.
  - destruct A. split; rewrite ?Hb; done.
Qed.

Lemma unref_wf phys s : wf s -> wf (snd (pmm_page_unref phys s)).
Proof.
  intros W. unfold pmm_page_unref. cbv zeta. case_bool; [done|]. case_bool; cbn [snd]; [|exact (upd_page_wf _ _ _ W)].
  by apply free_pages_spec, upd_page_wf.
Qed.

Lemma run_wf s o : wf s -> wf (run s o).
Proof.
  intros W. destruct o; cbn [run];
    [|exact (proj1 (free_pages_spec s phys count W))|exact (upd_page_wf _ _ _ W)|by apply unref_wf|exact (upd_page_wf _ _ _ W)
     |exact (upd_page_wf _ _ _ W)|by apply set_owner_wf|].
  - destruct (pmm_alloc_pages_internal count z strict s) as [r s'] eqn:E.
    apply (alloc_internal_spec _ _ _ _ _ _ W) in E as [(_ & -> & _)|(_ & ? & _)]; done.
  - unfold pmm_register_pressure_cb. case_bool; [|done]. by apply (wf_ext s).
Qed.

Lemma reach_wf s : reachable s -> wf s.
Proof. induction 1; [by apply init_ok|by apply run_wf]. Qed.

Lemma reach_alloc count z strict s :
  reachable s -> reachable (snd (pmm_alloc_pages_internal count z strict s)).
Proof. intros R. exact (reach_call s (Alloc count z strict) R). Qed.

Lemma reach_all ops s : reachable s -> reachable (run_all ops s).
Proof. revert s. induction ops as [|o ops IH]; intros s R; [done|]. apply IH. by constructor. Qed.

#[export] Hint Resolve reach_wf : yam.

(** ** A block stays in use until it is released *)

Lemma holds_alloc count z strict s i r n :
  wf s -> holds s i r n -> holds (snd (pmm_alloc_pages_internal count z strict s)) i r n.
Proof.
  intros W (Hi & Hu & Hb & Hs). destruct (pmm_alloc_pages_internal count z strict s) as [r' s'] eqn:E.
  apply (alloc_internal_spec _ _ _ _ _ _ W) in E as [(_ & -> & _)|(_ & _ & (k & Ha) & _)]; [done|].
  destruct (al_fresh _ _ _ _ _ Ha i Hi Hu) as (_ & Hi' & Ec & _).
  unfold holds. cbn [snd]. by rewrite Ec.
Qed.

Lemma holds_free phys count s i r n :
  wf s -> holds s i r n -> phys <> r -> holds (pmm_free_pages phys count s) i r n.
Proof.
  intros W (Hi & Hu & Hb & Hs) Hne.
  destruct (free_pages_spec s phys count W) as [_ Hf]. cbv zeta in Hf.
  pose proof (fo_count _ (wf_forest _ W)).
  unfold pmm_free_pages in *. destruct (find_used s phys) as [j|] eqn:E; [|done].
  apply find_used_Some in E as (Hj & Hbj & Huj); [|lia].
  destruct (_ && _); [done|]. destruct Hf as [_ Ec Ho _ _ _ _ _ _].
  unfold holds, in_pool. rewrite Ec, Ho; [done|congruence|done].
Qed.

Lemma holds_run s o i r n :
  wf s -> holds s i r n -> releases r o = false -> holds (run s o) i r n.
Proof.
  intros W H Hr. destruct o; cbn [run releases] in *; auto using holds_alloc.
  - apply holds_free; auto. by apply Z.eqb_neq.
  - unfold pmm_page_ref. by destruct (upd_page_rest phys (fun p => p <| refcount := u32 (refcount p + 1) |>) s) as [pa ->].
  - apply Z.eqb_neq in Hr. unfold pmm_page_unref. cbv zeta. case_bool; [done|].
    destruct (upd_page_rest phys (fun p => p <| refcount := u32 (refcount p - 1) |>) s) as [pa ->].
    case_bool; cbn [snd]; [|done]. apply holds_free; auto. by apply (wf_ext s).
  - unfold pmm_page_set_flags. by destruct (upd_page_rest phys (fun p => p <| flags := Z.lor (flags p) fl |>) s) as [pa ->].
  - unfold pmm_page_clear_flags.
    by destruct (upd_page_rest phys (fun p => p <| flags := Z.land (flags p) (u32 (Z.lnot fl)) |>) s) as [pa ->].
  - unfold pmm_set_owner. destruct (find_used s phys) as [j|].
    + unfold holds, set_cell, in_pool in *. cbn. destruct H as (? & ? & ? & ?).
      destruct (decide (i = j)) as [->|]; [by rewrite upd_eq|by rewrite upd_ne].
    + by destruct (upd_page_rest phys (fun p => p <| pg_owner := own |>) s) as [pa ->].
  - unfold pmm_register_pressure_cb. case_bool; done.
Qed.

Lemma holds_run_all ops s i r n :
  wf s -> holds s i r n -> forallb (fun o => negb (releases r o)) ops = true ->
  holds (run_all ops s) i r n.
Proof.
  revert s. induction ops as [|o ops IH]; intros s W H Hops; [done|]. cbn in Hops.
  apply andb_true_iff in Hops as [Ho Hops]. apply IH; auto using run_wf.
  apply holds_run; auto. by destruct (releases r o).
Qed.

Lemma alloc_holds count z strict s r s' :
  wf s -> pmm_alloc_pages_internal count z strict s = (r, s') -> r <> 0 ->
  exists i n, holds s' i r n /\ u64 (count * PAGE_SIZE) <= n /\
    forall j r' n', holds s j r' n' -> r + n <= r' \/ r' + n' <= r.
Proof.
  intros W E Hr. apply (alloc_internal_spec _ _ _ _ _ _ W) in E as [(-> & _)|(_ & _ & (i & Ha) & _)]; [done|].
  destruct Ha as [Hp Hu Hb Hs Hf _ _ _ _ _]. exists i, (size (cells s' i)). unfold holds. split_and!; auto.
  intros j r' n' (Hj & Huj & <- & <-). destruct (Hf j Hj Huj) as (_ & _ & _ & Hd).
  rewrite <- Hb. apply Hd.
Qed.

(** ** Quiescent states are fully coalesced *)

Lemma quiescent_no_split s :
  wf s -> (forall i, in_pool s i -> state (cells s i) <> CELL_USED) ->
  forall i, in_pool s i -> state (cells s i) <> CELL_SPLIT.
Proof.
  intros [F C _] Hq i Hi. remember (Z.to_nat (cell_count s - i)) as n eqn:En. revert i Hi En.
  induction (lt_wf n) as [n _ IH]. intros i Hi -> HS.
  destruct (C i Hi HS) as (k & Hk & Hnf).
  pose proof (child_in_pool s F i k Hi HS Hk) as Hc.
  destruct (forest_child s F i k Hi HS Hk) as [Hlt _ _ _ Hnr].
  apply (IH (Z.to_nat (cell_count s - children (cells s i) k)) ltac:(pmm_lia) _ Hc eq_refl).
  specialize (Hq _ Hc). by destruct (state (cells s (children (cells s i) k))).
Qed.

Lemma quiescent_bytes s :
  (forall i, in_pool s i -> state (cells s i) <> CELL_USED) -> 0 <= cell_count s ->
  bytes_in CELL_USED s = 0.
Proof.
  intros Hq Hc. unfold bytes_in. rewrite (sum_range_ext _ _ _ (fun _ => 0)); [apply sum_range_zero|].
  intros i Hi. unfold bytes_at. rewrite bool_decide_eq_false_2; [done|]. apply Hq. pmm_lia.
Qed.

(** ** Freeing a block in use *)

Lemma used_linked s i : forest s -> in_pool s i -> state (cells s i) = CELL_USED -> linked s i.
Proof. intros F Hi Hu. apply (ck_linked _ _ (fo_cells _ F i Hi)). by right. Qed.

Lemma find_used_holds s i r n : wf s -> holds s i r n -> find_used s r = Some i.
Proof.
  intros [F C A] (Hi & Hu & Hb & Hs). pose proof (fo_count _ F).
  destruct (find_used s r) as [j|] eqn:E.
  - apply find_used_Some in E as (Hj & Hbj & Huj); [|lia]. f_equal.
    destruct (decide (j = i)) as [|Hne]; [done|].
    destruct (leaves_disjoint s F j i Hj Hi) as [?|?]; auto using used_linked; try congruence.
    + pose proof (cell_size_min s j (fo_cells _ F j Hj)). pmm_lia.
    + pose proof (cell_size_min s i (fo_cells _ F i Hi)). pmm_lia.
  - exfalso. by apply (find_used_None s r i E Hi).
Qed.

Lemma free_held s i r n count :
  wf s -> holds s i r n ->
  (phys_to_pfn r < MAX_PHYS_PAGES -> refcount (page_array s (phys_to_pfn r)) <= 1) ->
  released s (pmm_free_pages r count s) i.
Proof.
  intros W H Hr. destruct (free_pages_spec s r count W) as [_ Hf]. cbv zeta in Hf.
  rewrite (find_used_holds s i r n W H) in Hf.
  destruct (Z.ltb_spec (phys_to_pfn r) MAX_PHYS_PAGES); cbn [andb] in Hf; [|done].
  destruct (Z.ltb_spec 1 (refcount (page_array s (phys_to_pfn r)))); [|done].
  specialize (Hr ltac:(done)). lia.
Qed.

Lemma first_frame s i : forest s -> in_pool s i ->
  phys_to_pfn (base (cells s i)) < MAX_PHYS_PAGES -> frame_of (cells s i) (phys_to_pfn (base (cells s i))).
Proof.
  intros F Hi Hm. split; [|done]. pose proof (cell_size_min s i (fo_cells _ F i Hi)).
  assert (1 <= size (cells s i) / PAGE_SIZE) by (apply Z.div_le_lower_bound; pmm_lia). lia.
Qed.

Lemma released_holds s s' i j r m :
  released s s' i -> holds s' j r m <-> holds s j r m /\ j <> i.
Proof.
  intros [_ Rc Ro Ry Rn _ _ _ _]. unfold holds, in_pool. rewrite Rc. split.
  - intros (Hj & Huj & <- & <-). assert (j <> i) as Hne by congruence.
    rewrite (Ro j Hne (Ry j Hne Huj)). auto.
  - intros [(Hj & Huj & <- & <-) Hne]. by rewrite (Ro j Hne Huj).
Qed.

Lemma holds_inj s i j r n m : wf s -> holds s i r n -> holds s j r m -> i = j.
Proof. intros W Hi%find_used_holds Hj%find_used_holds; auto. congruence. Qed.

(** The blocks in use are the same in both states. *)
Definition same_blocks (s s' : pmm) : Prop := forall i r n, holds s i r n <-> holds s' i r n.

Lemma alloc_free s count z strict r s1 c :
  wf s -> pmm_alloc_pages_internal count z strict s = (r, s1) -> r <> 0 ->
  let s2 := pmm_free_pages r c s1 in
  wf s2 /\ same_blocks s s2 /\ free_mem s2 = free_mem s /\ total_mem s2 = total_mem s.
Proof.
  intros W E Hr. cbv zeta.
  apply (alloc_internal_spec _ _ _ _ _ _ W) in E as [(-> & _)|(_ & W1 & (i & Ha) & _)]; [done|].
  destruct Ha as [Hp Hu Hb Hs Hf Ho Hfr Ht Hrefs _].
  assert (holds s1 i r (size (cells s1 i))) as Hh by done.
  assert (released s1 (pmm_free_pages r c s1) i) as [_ Rc Ro Ry Rn Rf Rt _ _].
  { apply (free_held _ _ _ _ _ W1 Hh). rewrite <- Hb. intros Hm.
    rewrite Hrefs; [lia|]. apply first_frame; auto. apply W1. }
  split_and!; [apply (proj1 (free_pages_spec s1 r c W1))| |lia|lia].
  intros j r' n'. unfold holds, in_pool in *. rewrite Rc. split.
  - intros (Hj & Huj & <- & <-). destruct (Hf j Hj Huj) as (Hne & Hj1 & Ec & _).
    rewrite Ro, Ec; [done..|congruence].
  - intros (Hj & Huj & <- & <-). destruct (decide (j = i)) as [->|Hne]; [done|].
    pose proof (Ry j Hne Huj) as Hu1. destruct (Ho j Hj Hu1 Hne) as [Hj0 Hu0].
    destruct (Hf j Hj0 Hu0) as (_ & _ & Ec & _). rewrite (Ro j Hne Hu1), Ec in *. done.
Qed.


(** ** Properties *)

(** C2: The allocator's invariant holds in every state the kernel can reach
    from boot by calls of pmm.h: the cells form a forest whose leaves do not
    overlap, a split cell always has a busy child, and the byte counters count
    exactly the free and the used leaves. *)
Theorem reachable_wf s : reachable s -> wf s.
Proof. apply reach_wf. Qed.

(** C1: No double allocation.  A block returned by an allocation and not freed
    or unreferenced since is disjoint from every block returned later, whatever
    calls happen in between. *)
Theorem no_double_allocation s count z strict r s1 ops count2 z2 strict2 r2 s2 :
  reachable s ->
  pmm_alloc_pages_internal count z strict s = (r, s1) -> r <> 0 ->
  forallb (fun o => negb (releases r o)) ops = true ->
  pmm_alloc_pages_internal count2 z2 strict2 (run_all ops s1) = (r2, s2) -> r2 <> 0 ->
  r + u64 (count * PAGE_SIZE) <= r2 \/ r2 + u64 (count2 * PAGE_SIZE) <= r.
Proof.
  intros R E Hr Hops E2 Hr2.
  assert (reachable s1) as R1.
  { pose proof (reach_alloc count z strict s R) as R1. by rewrite E in R1. }
  destruct (alloc_holds _ _ _ _ _ _ (reach_wf s R) E Hr) as (i & n & H & Hn & _).
  pose proof (holds_run_all ops s1 i r n (reach_wf s1 R1) H Hops) as H'.
  destruct (alloc_holds _ _ _ _ _ _ (reach_wf _ (reach_all ops s1 R1)) E2 Hr2) as (j & n2 & _ & Hn2 & Hd).
  destruct (Hd i r n H'); lia.
Qed.

(** C3: The outcome of an allocation.  Either it fails, changes nothing, and no
    free cell of the forest is large enough; or it returns a page-aligned block
    of the requested size, disjoint from every block in use, with its pages'
    reference counts at one and the free counter lowered by its size, and a
    zone-strict request leaves its zone only when no cell of the zone fits. *)
Theorem alloc_outcome s count z strict r s' :
  reachable s -> pmm_alloc_pages_internal count z strict s = (r, s') ->
  let req := u64 (count * PAGE_SIZE) in
  (r = 0 /\ s' = s /\ forall i, in_pool s i -> linked s i -> state (cells s i) = CELL_FREE ->
      size (cells s i) < req) \/
  (r <> 0 /\ r mod PAGE_SIZE = 0 /\ r + req < 2 ^ 64 /\ (exists i, allocated s s' req r i) /\
   (strict = true -> r + req <= zone_limit z \/
      forall i, in_pool s i -> linked s i -> ~ fits s i req z true)).
Proof.
  intros R E. cbv zeta.
  apply (alloc_internal_spec _ _ _ _ _ _ (reach_wf s R)) in E as [?|(Hr & W' & (i & Ha) & Hz)]; [by left|].
  right. pose proof (fo_cells _ (wf_forest _ W') i (al_pool _ _ _ _ _ Ha)) as Hc.
  pose proof (al_base _ _ _ _ _ Ha). pose proof (al_size _ _ _ _ _ Ha).
  pose proof (ck_base _ _ Hc). pose proof (ck_align _ _ Hc).
  pose proof (wrap_range 64 (count * PAGE_SIZE) ltac:(lia)).
  assert (r + u64 (count * PAGE_SIZE) < 2 ^ 64) by lia.
  rewrite (wrap_small 64 (r + _)) in Hz by lia.
  split_and!; eauto; congruence.
Qed.

(** C4: Freeing.  A free of an address at which no block is in use changes
    nothing (a double free in particular); while other references to the first
    page remain, it only drops one; otherwise the block goes back to the
    forest, its bytes to the free counter, and no other block is touched. *)
Theorem free_outcome s phys count :
  reachable s -> let s' := pmm_free_pages phys count s in
  ((forall i n, ~ holds s i phys n) /\ s' = s) \/
  (exists i n, holds s i phys n /\ phys_to_pfn phys < MAX_PHYS_PAGES /\
     1 < refcount (page_array s (phys_to_pfn phys)) /\ same_blocks s s' /\ free_mem s' = free_mem s /\
     refcount (page_array s' (phys_to_pfn phys)) = u32 (refcount (page_array s (phys_to_pfn phys)) - 1)) \/
  (exists i n, holds s i phys n /\ released s s' i /\
     forall j r m, holds s' j r m <-> holds s j r m /\ j <> i).
Proof.
  intros R. apply reach_wf in R as W. cbv zeta. pose proof (fo_count _ (wf_forest _ W)).
  destruct (find_used s phys) as [i|] eqn:E.
  - apply find_used_Some in E as Hi; [|lia]. destruct Hi as (Hi & Hb & Hu).
    assert (holds s i phys (size (cells s i))) as Hh by done. right.
    destruct (decide (phys_to_pfn phys < MAX_PHYS_PAGES /\ 1 < refcount (page_array s (phys_to_pfn phys))))
      as [[H1 H2]|Hn].
    + left. exists i, (size (cells s i)). unfold pmm_free_pages. rewrite E.
      rewrite (proj2 (Z.ltb_lt _ _) H1), (proj2 (Z.ltb_lt _ _) H2). cbn. rewrite upd_eq. done.
    + right. exists i, (size (cells s i)). split; [done|].
      assert (released s (pmm_free_pages phys count s) i) as Re by (apply (free_held _ _ _ _ _ W Hh); lia).
      split; [done|]. intros j r m. by apply released_holds.
  - left. split; [|by unfold pmm_free_pages; rewrite E].
    intros i n (Hi & Hu & Hb & _). by apply (find_used_None s phys i E Hi).
Qed.

(** Coalescing.  In a reachable state with no block in use every cell of
    the forest is a free root again, and all memory is free: fragmentation
    does not survive the blocks that caused it. *)
Theorem quiescent_coalesced s :
  reachable s -> (forall i r n, ~ holds s i r n) ->
  free_mem s = total_mem s /\
  forall i, in_pool s i -> linked s i -> parent (cells s i) = NIL /\ state (cells s i) = CELL_FREE.
Proof.
  intros R Hq. apply reach_wf in R as W. assert (forall i, in_pool s i -> state (cells s i) <> CELL_USED) as Hq'.
  { intros i Hi Hu. by apply (Hq i (base (cells s i)) (size (cells s i))). }
  pose proof (quiescent_no_split s W Hq') as Hns. destruct W as [F C [A1 A2 A3]].
  split; [rewrite A2, A1, quiescent_bytes; auto; [lia|apply F]|].
  intros i Hi Hl. destruct (ck_parent _ _ (fo_cells _ F i Hi)) as [Hroot|Hp].
  - split; [done|]. pose proof (ck_root _ _ (fo_cells _ F i Hi) Hroot). specialize (Hq' i Hi). specialize (Hns i Hi).
    by destruct (state (cells s i)).
  - destruct Hl as [|[HS _]]; [pose proof (fo_count _ F); pmm_lia|]. exfalso.
    apply (Hns (parent (cells s i))); [pmm_lia|done].
Qed.

(** Allocating a block and freeing it restores the blocks in use and the
    byte counters. *)
Theorem alloc_free_roundtrip s count z strict r s1 c :
  reachable s -> pmm_alloc_pages_internal count z strict s = (r, s1) -> r <> 0 ->
  let s2 := pmm_free_pages r c s1 in
  same_blocks s s2 /\ free_mem s2 = free_mem s /\ total_mem s2 = total_mem s.
Proof. intros R E Hr. by apply (alloc_free _ _ _ _ _ _ _ (reach_wf s R) E Hr). Qed.

(** Boot.  For a memory map whose usable entries are apart, all of the
    usable pages become free memory unless the pool of cells runs out. *)
Theorem boot_manages_ram es s0 :
  sane_map es -> cell_count (pmm_init es s0) < CELL_POOL_SIZE ->
  free_mem (pmm_init es s0) = usable_bytes es /\ total_mem (pmm_init es s0) = usable_bytes es.
Proof. intros Hs Hc. destruct (init_ok es s0 Hs) as (_ & E & X). rewrite E, X; auto. Qed.

(** Dropping the last reference to a block's first page frees the block,
    and dropping any other only lowers the count. *)
Theorem unref_outcome s phys i n :
  reachable s -> holds s i phys n -> phys_to_pfn phys < MAX_PHYS_PAGES ->
  let c := refcount (page_array s (phys_to_pfn phys)) in
  0 < c < 2 ^ 32 ->
  let '(freed, s') := pmm_page_unref phys s in
  freed = (c =? 1) /\
  (c = 1 -> free_mem s' = free_mem s + n /\ forall j m, ~ holds s' j phys m) /\
  (c <> 1 -> same_blocks s s' /\ pmm_page_refcount s' phys = c - 1).
Proof.
  intros R H Hm c Hc. apply reach_wf in R as W. unfold pmm_page_unref, upd_page. cbv zeta.
  rewrite (proj2 (Z.leb_gt _ _) Hm). set (pfn := phys_to_pfn phys) in *.
  set (p' := (page_array s pfn) <| refcount := u32 (refcount (page_array s pfn) - 1) |>).
  set (s1 := s <| page_array := (page_array s).[pfn <- p'] |>).
  assert (refcount (page_array s1 pfn) = c - 1) as Er.
  { change (page_array s1) with ((page_array s).[pfn <- p']). rewrite upd_eq.
    change (refcount p') with (u32 (c - 1)). apply wrap_small. lia. }
  assert (holds s1 i phys n) as H1 by done. assert (same_blocks s s1) as Hsame by done.
  assert (wf s1) as W1 by (by apply (wf_ext s)). assert (free_mem s1 = free_mem s) as <- by done.
  clearbody s1. rewrite Er. clear p' H. destruct (Z.eqb_spec (c - 1) 0) as [E|E].
  - assert (released s1 (pmm_free_page phys s1) i) as Re.
    { apply (free_held s1 i phys n 1 W1 H1). intros _. fold pfn. lia. }
    split; [by destruct (Z.eqb_spec c 1); [|lia]|]. split; [intros _|lia]. split.
    { rewrite (re_free _ _ _ Re). by destruct H1 as (_ & _ & _ & ->). }
    intros j m [H2 Hne]%(released_holds _ _ _ _ _ _ Re). by apply Hne, (holds_inj s1 j i phys m n).
  - split; [by destruct (Z.eqb_spec c 1); [lia|]|]. split; [lia|]. intros _. split; [done|].
    unfold pmm_page_refcount. cbv zeta. fold pfn. by rewrite (proj2 (Z.leb_gt _ _) Hm).
Qed.

(** ** A machine with 4 MiB of RAM above 16 MiB, on which the properties apply *)

Definition ram (b len : Z) : memmap_entry :=
  {| e_base := b; e_length := len; e_type := LIMINE_MEMMAP_USABLE |}.
Definition demo_map : list memmap_entry := [ram 0x1000000 0x10000; ram 0x1100000 0x5000].
Definition demo : pmm := pmm_init demo_map pmm_bss.

Lemma demo_sane : sane_map demo_map.
Proof.
  split.
  - repeat constructor.
  - repeat constructor; vm_compute; congruence.
  - vm_compute. reflexivity.
Qed.

Lemma demo_reach : reachable demo.
Proof. apply reach_boot, demo_sane. Qed.

Definition demo_first : Z * pmm := pmm_alloc_pages_internal 1 ZONE_NORMAL false demo.

Lemma demo_first_reach : reachable (snd demo_first).
Proof. apply reach_alloc, demo_reach. Qed.

Lemma reachable_wf_witness : wf demo.
Proof. apply reachable_wf, demo_reach. Defined.

Definition demo_calls : list op := [Alloc 1 ZONE_NORMAL false; Free 0x1001000 1; Ref 0x1000000].
Definition demo_second : Z * pmm :=
  pmm_alloc_pages_internal 4 ZONE_NORMAL false (run_all demo_calls (snd demo_first)).

Lemma no_double_allocation_witness :
  fst demo_first + u64 (1 * PAGE_SIZE) <= fst demo_second \/
  fst demo_second + u64 (4 * PAGE_SIZE) <= fst demo_first.
Proof.
  apply (no_double_allocation demo 1 ZONE_NORMAL false (fst demo_first) (snd demo_first)
           demo_calls 4 ZONE_NORMAL false (fst demo_second) (snd demo_second)).
  - apply demo_reach.
  - unfold demo_first. by destruct (pmm_alloc_pages_internal 1 ZONE_NORMAL false demo).
  - vm_compute. congruence.
  - vm_compute. reflexivity.
  - unfold demo_second. by destruct (pmm_alloc_pages_internal 4 ZONE_NORMAL false _).
  - vm_compute. congruence.
Defined.

Lemma alloc_outcome_witness :
  fst demo_first = 0x1000000 /\ exists i, allocated demo (snd demo_first) 4096 (fst demo_first) i.
Proof.
  assert (fst demo_first = 0x1000000) as E by (vm_compute; reflexivity). split; [done|].
  destruct (alloc_outcome demo 1 ZONE_NORMAL false (fst demo_first) (snd demo_first)) as [[H _]|(_ & _ & _ & H & _)].
  - apply demo_reach.
  - unfold demo_first. by destruct (pmm_alloc_pages_internal 1 ZONE_NORMAL false demo).
  - exfalso. rewrite E in H. done.
  - exact H.
Defined.

Lemma free_outcome_witness :
  free_mem (pmm_free_pages 0x1000000 1 (snd demo_first)) = free_mem (snd demo_first) + 4096.
Proof.
  destruct (free_outcome (snd demo_first) 0x1000000 1 demo_first_reach) as [[H _]|[(i & n & _ & _ & H & _)|(i & n & _ & H & _)]].
  - exfalso. apply (H 7 4096). unfold holds, in_pool. split_and!; vm_compute; congruence.
  - exfalso. vm_compute in H. congruence.
  - vm_compute. reflexivity.
Defined.

Lemma quiescent_coalesced_witness :
  free_mem demo = total_mem demo /\ parent (cells demo 0) = NIL.
Proof.
  destruct (quiescent_coalesced demo demo_reach) as [H1 H2].
  - intros i r n (Hi & Hu & _).
    assert (cell_count demo = 3) as E by (vm_compute; reflexivity). unfold in_pool in Hi. rewrite E in Hi.
    assert (i = 0 \/ i = 1 \/ i = 2) as [->|[->| ->]] by lia; vm_compute in Hu; congruence.
  - split; [exact H1|]. apply H2; [|left]; vm_compute; split; congruence.
Defined.


Lemma alloc_free_roundtrip_witness :
  free_mem (pmm_free_pages (fst demo_first) 1 (snd demo_first)) = free_mem demo.
Proof.
  apply (alloc_free_roundtrip demo 1 ZONE_NORMAL false (fst demo_first) (snd demo_first) 1 demo_reach).
  - unfold demo_first. by destruct (pmm_alloc_pages_internal 1 ZONE_NORMAL false demo).
  - vm_compute. congruence.
Defined.

Lemma boot_manages_ram_witness : free_mem demo = 0x15000.
Proof.
  apply (boot_manages_ram demo_map pmm_bss demo_sane). vm_compute. reflexivity.
Defined.

Lemma unref_outcome_witness :
  fst (pmm_page_unref 0x1000000 (snd demo_first)) = true /\
  forall j m, ~ holds (snd (pmm_page_unref 0x1000000 (snd demo_first))) j 0x1000000 m.
Proof.
  assert (refcount (page_array (snd demo_first) (phys_to_pfn 0x1000000)) = 1) as E by (vm_compute; reflexivity).
  pose proof (unref_outcome (snd demo_first) 0x1000000 7 4096 demo_first_reach) as H. cbv zeta in H.
  rewrite E in H. destruct (pmm_page_unref 0x1000000 (snd demo_first)) as [freed s'].
  destruct H as (-> & H & _).
  - unfold holds, in_pool. split_and!; vm_compute; congruence.
  - reflexivity.
  - lia.
  - split; [reflexivity|]. apply H. reflexivity.
Defined.

(** ** Boundary cases *)

(** With usable memory at address 0 the first allocation returns 0, the value
    that also means failure: the block is marked used and lost.  The retry of a
    zone-strict request then takes a second block. *)
Example page_zero_lost :
  let s := pmm_init [ram 0 0x2000] pmm_bss in
  let '(r, s1) := pmm_alloc_page s in
  r = 0 /\ free_mem s = 0x2000 /\ free_mem s1 = 0x1000.
Proof. vm_compute. auto. Qed.

(** A usable region that straddles a zone limit is counted in the zone of its
    first page only, so that freeing pages above the limit credits, and
    allocating them debits, a zone that never had them: its counter wraps. *)
Example zone_counter_wraps :
  let s := pmm_init [ram 0xFFF000 0x4000] pmm_bss in
  let s := snd (pmm_alloc_page (snd (pmm_alloc_page s))) in
  total_pages (zones s ZONE_DMA32) = 0 /\ free_pages (zones s ZONE_DMA32) = 2 ^ 64 - 1.
Proof. vm_compute. auto. Qed.

(** A request for 2^52 pages wraps to a request of 0 bytes and is served with
    one page. *)
Example huge_request_served :
  let '(r, s') := pmm_alloc_pages (2 ^ 52) demo in
  r = 0x1000000 /\ free_mem s' = free_mem demo - 4096.
Proof. vm_compute. auto. Qed.

(** Merged children are not recycled: allocating and freeing one page consumes
    cells of the pool for good. *)
Example merge_leaks_cells :
  let '(r, s1) := pmm_alloc_page demo in
  let s2 := pmm_free_page r s1 in
  free_mem s2 = free_mem demo /\ cell_count demo = 3 /\ cell_count s2 = 11.
Proof. vm_compute. auto. Qed.

(** pmm_set_owner on a block in use records the owner in the cell and not in
    the page descriptor. *)
Example set_owner_skips_descriptor :
  let s := pmm_set_owner 0x1000000 77 (snd demo_first) in
  owner (cells s 7) = 77 /\ pg_owner (page_array s (phys_to_pfn 0x1000000)) = 0.
Proof. vm_compute. auto. Qed.


End PmmClaims.
