(* ===== verification/Heap.v ===== *)
(** * The kernel heap (src/src/mem/heap.c)

    A first-fit free list of blocks with in-band headers, size-class buckets
    carved from 4096-byte blocks, and expansion by 16 MB regions of pages.
    Headers and free objects live in the byte memory of Mem at the offsets of
    the C structures, so that what kfree reads in front of a pointer is
    whatever the memory holds there.  The physical allocator is used through
    the interface [Pages]. *)

From S2P Require Import Prelude Mem Str.
Import Mem Str.

(** ** What the heap needs of the page allocator *)

Class Pages (P : Type) := {
  pages_alloc : Z -> P -> Z * P;
  pages_ok : P -> Prop;
  pages_owned : P -> Z -> Z -> Prop
}.

(** A successful call hands out a range of its own that is at least as long as
    asked for; ranges handed out before stay handed out. *)
Class PagesLaws (P : Type) `{Pages P} := {
  pages_law n p r p' : pages_ok p -> 0 < n < 2 ^ 52 -> pages_alloc n p = (r, p') ->
    pages_ok p' /\ (forall a k, pages_owned p a k -> pages_owned p' a k) /\
    (r <> 0 -> r mod 4096 = 0 /\ 0 < r /\ exists k, n * 4096 <= k /\ pages_owned p' r k /\
      forall a j, pages_owned p a j -> a + j <= r \/ r + k <= a)
}.

Module Heap.

(** ** Data *)

Definition HEAP_MAGIC : Z := 0xDEADBEEF.
Definition HEAP_ALIGN : Z := 16.
Definition HEAP_INITIAL_PAGES : Z := 16384.
Definition HEAP_EXPAND_PAGES : Z := 4096.
Definition PAGE_SIZE : Z := 4096.
Definition BUCKET_COUNT : Z := 10.
Definition bucket_sizes (i : Z) : Z := nth (Z.to_nat i) [8; 16; 32; 64; 128; 256; 512; 1024; 2048; 4096] 0.

(** sizeof(heap_block_t) *)
Definition HDR : Z := 48.

(** The fields of the heap_block_t at [b]. *)
Definition hb_size (b : Z) (m : mem) : Z := load 8 b m.
Definition hb_free (b : Z) (m : mem) : bool := negb (load 1 (b + 8) m =? 0).
Definition hb_next (b : Z) (m : mem) : Z := load 8 (b + 16) m.
Definition hb_prev (b : Z) (m : mem) : Z := load 8 (b + 24) m.
Definition hb_magic (b : Z) (m : mem) : Z := load 4 (b + 32) m.
Definition set_size (b v : Z) (m : mem) : mem := store 8 b v m.
Definition set_free (b : Z) (v : bool) (m : mem) : mem := store 1 (b + 8) (Z.b2z v) m.
Definition set_next (b v : Z) (m : mem) : mem := store 8 (b + 16) v m.
Definition set_prev (b v : Z) (m : mem) : mem := store 8 (b + 24) v m.
Definition set_magic (b v : Z) (m : mem) : mem := store 4 (b + 32) v m.

(** The next pointer of the free bucket object at [o]. *)
Definition obj_next (o : Z) (m : mem) : Z := load 8 o m.

Record heap {P : Type} := {
  hm : mem;
  heap_head : Z;
  heap_base : Z;
  heap_end : Z;
  heap_size : Z;
  buckets : Z -> Z;
  stat_alloc_count : Z;
  stat_free_count : Z;
  stat_expansions : Z;
  pages : P
}.
Arguments heap : clear implicits.
#[export] Instance eta_heap {P} : Eta (heap P) :=
  fun r => Build_heap P (hm r) (heap_head r) (heap_base r) (heap_end r) (heap_size r) (buckets r)
    (stat_alloc_count r) (stat_free_count r) (stat_expansions r) (pages r).

(** ** Operations *)

Definition align_up (val align : Z) : Z := Z.land (u64 (val + align - 1)) (u64 (Z.lnot (align - 1))).

Definition bucket_index (size : Z) : Z :=
  match find_index (Z.to_nat BUCKET_COUNT) 0 (fun i => size <=? bucket_sizes i) with
  | Some i => i
  | None => -1
  end.

Inductive fit := Fit (b : Z) | NoFit | Corrupt.

(** The loop over the block list shared by heap_alloc_raw and kmalloc. *)
Fixpoint first_fit (fuel : nat) (size block : Z) (m : mem) : fit :=
  match fuel with
  | O => NoFit
  | S fuel' =>
      if block =? 0 then NoFit
      else if negb (hb_magic block m =? HEAP_MAGIC) then Corrupt
      else if hb_free block m && (size <=? hb_size block m) then Fit block
      else first_fit fuel' size (hb_next block m) m
  end.

(** What both do with the block they found: split off the rest when it is
    large enough, and mark the block as used. *)
Definition take_block (size block : Z) (m : mem) : mem :=
  let m :=
    if u64 (u64 (size + HDR) + HEAP_ALIGN) <? hb_size block m then
      let nb := u64 (block + HDR + size) in
      let m := set_size nb (u64 (hb_size block m - size - HDR)) m in
      let m := set_free nb true m in
      let m := set_next nb (hb_next block m) m in
      let m := set_prev nb block m in
      let m := set_magic nb HEAP_MAGIC m in
      let m := if hb_next block m =? 0 then m else set_prev (hb_next block m) nb m in
      let m := set_next block nb m in
      set_size block size m
    else m in
  set_free block false m.

Section operations.
Context {P : Type} `{Pages P}.
Variable hhdm : Z.
Implicit Types s : heap P.

(** vmm_phys_to_virt *)
Definition phys_to_virt (phys : Z) : Z := u64 (phys + hhdm).

Definition heap_alloc_raw (fuel : nat) (size : Z) (s : heap P) : Z * heap P :=
  let size := Z.land (u64 (size + 15)) (u64 (Z.lnot 15)) in
  match first_fit fuel size (heap_head s) (hm s) with
  | Fit block =>
      let m := take_block size block (hm s) in
      let ret := u64 (block + HDR) in
      (ret, s <| hm := snd (memset ret 0 size m) |>)
  | _ => (0, s)
  end.

(** The loop of bucket_refill: pushes [n] objects of [size] bytes. *)
Definition carve (idx obj_size usable : Z) (n : nat) (s : heap P) : heap P :=
  for_loop n 0 (fun i s =>
    let obj := u64 (usable + i * obj_size) in
    s <| hm := store 8 obj (buckets s idx) (hm s) |> <| buckets := (buckets s).[idx <- obj] |>) s.

Definition bucket_refill (fuel : nat) (idx : Z) (s : heap P) : heap P :=
  let obj_size := bucket_sizes idx in
  let obj_size := if obj_size <? 8 then 8 else obj_size in
  let page_alloc := PAGE_SIZE in
  let '(block, s) := heap_alloc_raw fuel page_alloc s in
  if block =? 0 then s
  else
    let usable := u64 (block + HEAP_ALIGN) in
    let count := (page_alloc - HEAP_ALIGN) / obj_size in
    carve idx obj_size usable (Z.to_nat count) s.

(** The last block of a list: [while (last->next) last = last->next;] *)
Fixpoint list_last (fuel : nat) (last : Z) (m : mem) : Z :=
  match fuel with
  | O => last
  | S fuel' => if hb_next last m =? 0 then last else list_last fuel' (hb_next last m) m
  end.

Definition heap_expand (fuel : nat) (s : heap P) : bool * heap P :=
  let '(phys, p) := pages_alloc HEAP_EXPAND_PAGES (pages s) in
  let s := s <| pages := p |> in
  if phys =? 0 then (false, s)
  else
    let new_base := phys_to_virt phys in
    let new_size := HEAP_EXPAND_PAGES * PAGE_SIZE in
    let nb := new_base in
    let m := set_size nb (new_size - HDR) (hm s) in
    let m := set_free nb true m in
    let m := set_magic nb HEAP_MAGIC m in
    let m := set_prev nb 0 m in
    let m := set_next nb 0 m in
    let s := if heap_head s =? 0 then s <| hm := m |> <| heap_head := nb |>
             else
               let last := list_last fuel (heap_head s) m in
               s <| hm := set_prev nb last (set_next last nb m) |> in
    (true, s <| heap_size := u64 (heap_size s + new_size) |> <| heap_end := u64 (new_base + new_size) |>
             <| stat_expansions := u64 (stat_expansions s + 1) |>).

Definition heap_init (s : heap P) : heap P :=
  let '(phys, p) := pages_alloc HEAP_INITIAL_PAGES (pages s) in
  let s := s <| pages := p |> in
  if phys =? 0 then s
  else
    let base := phys_to_virt phys in
    let size := HEAP_INITIAL_PAGES * PAGE_SIZE in
    let m := set_size base (size - HDR) (hm s) in
    let m := set_free base true m in
    let m := set_next base 0 m in
    let m := set_prev base 0 m in
    let m := set_magic base HEAP_MAGIC m in
    s <| heap_base := base |> <| heap_size := size |> <| heap_end := u64 (base + size) |>
      <| heap_head := base |> <| hm := m |>
      <| buckets := for_loop (Z.to_nat BUCKET_COUNT) 0 (fun i b => b.[i <- 0]) (buckets s) |>.

(** kmalloc from the label retry on; [tries] bounds the expansions. *)
Fixpoint kmalloc_main (fuel tries : nat) (size : Z) (s : heap P) : Z * heap P :=
  match first_fit fuel size (heap_head s) (hm s) with
  | Corrupt => (0, s)
  | Fit block =>
      (u64 (block + HDR), s <| hm := take_block size block (hm s) |>
                            <| stat_alloc_count := u64 (stat_alloc_count s + 1) |>)
  | NoFit =>
      match tries with
      | O => (0, s)
      | S tries' =>
          let '(ok, s) := heap_expand fuel s in
          if ok then kmalloc_main (S fuel) tries' size s else (0, s)
      end
  end.

(** The bucket part of kmalloc: the object taken, 0 when there is none. *)
Definition kmalloc_bucket (fuel : nat) (idx : Z) (s : heap P) : Z * heap P :=
  let s := if buckets s idx =? 0 then bucket_refill fuel idx s else s in
  let obj := buckets s idx in
  if obj =? 0 then (0, s)
  else (obj, s <| buckets := (buckets s).[idx <- obj_next obj (hm s)] |>
               <| stat_alloc_count := u64 (stat_alloc_count s + 1) |>).

Definition kmalloc (fuel tries : nat) (size : Z) (s : heap P) : Z * heap P :=
  if size =? 0 then (0, s)
  else
    let bidx := bucket_index size in
    let '(obj, s) := if 0 <=? bidx then kmalloc_bucket fuel bidx s else (0, s) in
    if obj =? 0 then kmalloc_main fuel tries (align_up size HEAP_ALIGN) s else (obj, s).

Definition kcalloc (fuel tries : nat) (count size : Z) (s : heap P) : Z * heap P :=
  let total := u64 (count * size) in
  let '(ptr, s) := kmalloc fuel tries total s in
  if ptr =? 0 then (ptr, s) else (ptr, s <| hm := snd (memset ptr 0 total (hm s)) |>).

(** The two merges of kfree, with the following and with the preceding block. *)
Definition merge_next (block : Z) (m : mem) : mem :=
  let next := hb_next block m in
  if negb (next =? 0) && hb_free next m then
    let m := set_size block (u64 (hb_size block m + (HDR + hb_size next m))) m in
    let m := set_next block (hb_next next m) m in
    if hb_next block m =? 0 then m else set_prev (hb_next block m) block m
  else m.

Definition merge_prev (block : Z) (m : mem) : mem :=
  let prev := hb_prev block m in
  if negb (prev =? 0) && hb_free prev m then
    let m := set_size prev (u64 (hb_size prev m + (HDR + hb_size block m))) m in
    let m := set_next prev (hb_next block m) m in
    if hb_next block m =? 0 then m else set_prev (hb_next block m) prev m
  else m.

Definition kfree (ptr : Z) (s : heap P) : heap P :=
  if ptr =? 0 then s
  else
    let block := u64 (ptr - HDR) in
    if negb (hb_magic block (hm s) =? HEAP_MAGIC) || hb_free block (hm s) then s
    else
      let m := set_free block true (hm s) in
      s <| hm := merge_prev block (merge_next block m) |>
        <| stat_free_count := u64 (stat_free_count s + 1) |>.

Definition krealloc (fuel tries : nat) (ptr new_size : Z) (s : heap P) : Z * heap P :=
  if ptr =? 0 then kmalloc fuel tries new_size s
  else if new_size =? 0 then (0, kfree ptr s)
  else
    let block := u64 (ptr - HDR) in
    if (hb_magic block (hm s) =? HEAP_MAGIC) && (new_size <=? hb_size block (hm s)) then (ptr, s)
    else
      let '(new_ptr, s) := kmalloc fuel tries new_size s in
      if new_ptr =? 0 then (new_ptr, s)
      else
        let copy_size := if hb_magic block (hm s) =? HEAP_MAGIC then hb_size block (hm s) else new_size in
        let copy_size := if new_size <? copy_size then new_size else copy_size in
        (new_ptr, kfree ptr (s <| hm := snd (memcpy new_ptr ptr copy_size (hm s)) |>)).

Definition kmemalign (fuel tries : nat) (alignment size : Z) (s : heap P) : Z * heap P :=
  let alignment := if alignment <? HEAP_ALIGN then HEAP_ALIGN else alignment in
  let '(ptr, s) := kmalloc fuel tries (u64 (size + alignment)) s in
  if ptr =? 0 then (0, s)
  else (Z.land (u64 (ptr + alignment - 1)) (u64 (Z.lnot (alignment - 1))), s).

Definition ksize (ptr : Z) (s : heap P) : Z :=
  if ptr =? 0 then 0
  else
    let block := u64 (ptr - HDR) in
    if negb (hb_magic block (hm s) =? HEAP_MAGIC) then 0 else hb_size block (hm s).

(** The sums of heap_get_stats: used and free bytes. *)
Fixpoint sum_blocks (fuel : nat) (b : Z) (m : mem) (acc : Z * Z) : Z * Z :=
  match fuel with
  | O => acc
  | S fuel' =>
      if b =? 0 then acc
      else sum_blocks fuel' (hb_next b m) m
        (if hb_free b m then (fst acc, u64 (snd acc + hb_size b m)) else (u64 (fst acc + hb_size b m), snd acc))
  end.

End operations.
End Heap.
