(* ===== verification/HeapProps.v ===== *)
(** * The block list of the kernel heap

    The heap's doubly linked list represents a list of blocks whose extents do
    not overlap; taking a block, freeing it with coalescing and appending a
    region act on that list, and change no byte outside block headers. *)

From S2P Require Import Prelude Mem Str Heap.
Import Mem Str Heap.

Module HeapProps.

(** ** Headers *)

Record hdr_at (m : mem) (a sz : Z) (f : bool) (n p : Z) : Prop := {
  ha_size : hb_size a m = sz;
  ha_free : hb_free a m = f;
  ha_next : hb_next a m = n;
  ha_prev : hb_prev a m = p;
  ha_magic : hb_magic a m = HEAP_MAGIC
}.

(** The two memories have the same bytes in a range. *)
Definition same_on (m m' : mem) (a n : Z) : Prop := forall b, a <= b < a + n -> m' b = m b.

Lemma hdr_frame m m' a sz f n p : same_on m m' a HDR -> hdr_at m a sz f n p -> hdr_at m' a sz f n p.
Proof.
  unfold same_on, HDR. intros Hs [A B C D E].
  split; [rewrite <- A|rewrite <- B|rewrite <- C|rewrite <- D|rewrite <- E];
    unfold hb_size, hb_free, hb_next, hb_prev, hb_magic; rewrite (load_ext _ _ m m'); auto; intros; apply Hs; lia.
Qed.

(** One-byte flags. *)
Lemma flag_byte (v : bool) : negb (Z.b2z v =? 0) = v.
Proof. by destruct v. Qed.

Lemma flag_range (v : bool) : 0 <= Z.b2z v < 256 ^ Z.of_nat 1.
Proof. destruct v; cbn; lia. Qed.

Definition word (v : Z) : Prop := 0 <= v < 2 ^ 64.

Lemma word_bytes v : word v -> 0 <= v < 256 ^ Z.of_nat 8.
Proof. done. Qed.

(** Reads of a header after writes to headers. *)
Ltac hdr_side := first [exact (flag_range _) | apply word_bytes; unfold word in *; lia
                       | unfold HEAP_MAGIC; cbn; lia | unfold word in *; cbn; lia].
Ltac hdr_simpl :=
  unfold hb_size, hb_free, hb_next, hb_prev, hb_magic, set_size, set_free, set_next, set_prev, set_magic in *;
  repeat first [ rewrite load_store_same by hdr_side | rewrite load_store_other by (cbn; lia) ];
  rewrite ?flag_byte.

Lemma set_size_hdr m a sz f n p v : word v -> hdr_at m a sz f n p -> hdr_at (set_size a v m) a v f n p.
Proof. intros Hv [A B C D E]. split; hdr_simpl; auto. Qed.

Lemma set_free_hdr m a sz f n p v : hdr_at m a sz f n p -> hdr_at (set_free a v m) a sz v n p.
Proof. intros [A B C D E]. split; hdr_simpl; auto. Qed.

Lemma set_next_hdr m a sz f n p v : word v -> hdr_at m a sz f n p -> hdr_at (set_next a v m) a sz f v p.
Proof. intros Hv [A B C D E]. split; hdr_simpl; auto. Qed.

Lemma set_prev_hdr m a sz f n p v : word v -> hdr_at m a sz f n p -> hdr_at (set_prev a v m) a sz f n v.
Proof. intros Hv [A B C D E]. split; hdr_simpl; auto. Qed.

(** A setter changes no byte outside its header. *)
Definition only_in (a : Z) (m m' : mem) : Prop := forall b, b < a \/ a + HDR <= b -> m' b = m b.

Lemma set_size_only a v m : only_in a m (set_size a v m).
Proof. intros b Hb. apply store_outside. unfold HDR in Hb. cbn. lia. Qed.
Lemma set_free_only a v m : only_in a m (set_free a v m).
Proof. intros b Hb. apply store_outside. unfold HDR in Hb. cbn. lia. Qed.
Lemma set_next_only a v m : only_in a m (set_next a v m).
Proof. intros b Hb. apply store_outside. unfold HDR in Hb. cbn. lia. Qed.
Lemma set_prev_only a v m : only_in a m (set_prev a v m).
Proof. intros b Hb. apply store_outside. unfold HDR in Hb. cbn. lia. Qed.
Lemma set_magic_only a v m : only_in a m (set_magic a v m).
Proof. intros b Hb. apply store_outside. unfold HDR in Hb. cbn. lia. Qed.

Lemma only_in_trans a m1 m2 m3 : only_in a m1 m2 -> only_in a m2 m3 -> only_in a m1 m3.
Proof. intros H1 H2 b Hb. by rewrite H2, H1. Qed.

Lemma only_in_hdr c m m' a sz f n p :
  only_in c m m' -> a + HDR <= c \/ c + HDR <= a -> hdr_at m a sz f n p -> hdr_at m' a sz f n p.
Proof. intros Ho Hd. apply hdr_frame. intros b Hb. apply Ho. lia. Qed.

#[export] Hint Resolve set_size_only set_free_only set_next_only set_prev_only set_magic_only : yam.

(** ** Blocks and lists *)

Record blk := { ba : Z; bs : Z; bf : bool }.

Definition bend (b : blk) : Z := ba b + HDR + bs b.
Definition blk_ok (b : blk) : Prop := 0 < ba b /\ 0 <= bs b /\ bend b <= 2 ^ 64 - HEAP_ALIGN.
Definition off (x y : blk) : Prop := bend x <= ba y \/ bend y <= ba x.

Fixpoint apart (l : list blk) : Prop :=
  match l with
  | [] => True
  | b :: l' => blk_ok b /\ (forall y, In y l' -> off b y) /\ apart l'
  end.

Lemma apart_app l1 l2 :
  apart (l1 ++ l2) <-> apart l1 /\ apart l2 /\ forall x y, In x l1 -> In y l2 -> off x y.
Proof.
  induction l1 as [|b l1 IH]; cbn [apart app].
  { split; [intros; split_and!; auto; by intros|]. by intros (_ & ? & _). }
  rewrite IH. split.
  - intros (H1 & H2 & H3 & H4 & H5). split_and!; auto.
    + intros y Hy. apply H2, in_or_app. by left.
    + intros x y [<-|Hx] Hy; [apply H2, in_or_app; by right|auto].
  - intros ((H1 & H2 & H3) & H4 & H5). split_and!; auto.
    + intros y [Hy|Hy]%in_app_or; [auto|apply H5; auto; by left].
    + intros x y Hx Hy. apply H5; auto. by right.
Qed.

Lemma apart_in l x : apart l -> In x l -> blk_ok x.
Proof.
  induction l as [|y l IH]; [done|]. intros (Hy & _ & Ha) [->|Hx]; auto.
Qed.

Lemma off_sym x y : off x y -> off y x.
Proof. unfold off. tauto. Qed.

(** The list from [h] on, whose first block has predecessor [p] and whose last
    block is [q] with successor [e]. *)
Fixpoint dseg (m : mem) (p h : Z) (l : list blk) (q e : Z) : Prop :=
  match l with
  | [] => h = e /\ q = p
  | b :: l' => h = ba b /\ exists n, hdr_at m (ba b) (bs b) (bf b) n p /\ dseg m (ba b) n l' q e
  end.

Lemma dseg_app m p h l1 l2 q e :
  dseg m p h (l1 ++ l2) q e <-> exists q1 e1, dseg m p h l1 q1 e1 /\ dseg m q1 e1 l2 q e.
Proof.
  revert p h. induction l1 as [|b l1 IH]; intros p h; cbn [dseg app].
  - split; [eauto|]. by intros (q1 & e1 & (-> & ->) & H).
  - split.
    + intros (-> & n & Hb & (q1 & e1 & H1 & H2)%IH). eauto 8.
    + intros (q1 & e1 & (-> & n & Hb & H1) & H2). split; [done|]. exists n. split; [done|]. apply IH. eauto.
Qed.

Lemma dseg_frame m m' p h l q e :
  (forall b, In b l -> same_on m m' (ba b) HDR) -> dseg m p h l q e -> dseg m' p h l q e.
Proof.
  revert p h. induction l as [|b l IH]; intros p h Hs; cbn [dseg]; [done|]. intros (-> & n & Hb & H).
  split; [done|]. exists n. split; [apply (hdr_frame m); auto; apply Hs; by left|].
  apply IH; auto. intros x Hx. apply Hs. by right.
Qed.

Lemma dseg_head m p h l q e : dseg m p h l q e -> h = match l with [] => e | b :: _ => ba b end.
Proof. destruct l; cbn; [by intros [-> _]|by intros [-> _]]. Qed.

(** Changing the predecessor of the first block. *)
Lemma dseg_reprev m m' p p' h l q :
  dseg m p h l q 0 -> apart l -> word p' ->
  m' = (if h =? 0 then m else set_prev h p' m) -> exists q', dseg m' p' h l q' 0.
Proof.
  intros H Ha Hw ->. destruct l as [|b l]; cbn [dseg apart] in *.
  - destruct H as [-> _]. exists p'. done.
  - destruct H as (-> & n & Hb & H), Ha as ((Hb0 & Hb1 & Hb2) & Ho & Ha).
    rewrite (proj2 (Z.eqb_neq _ _)) by lia. exists q. split; [done|]. exists n. split; [by eapply set_prev_hdr|].
    eapply dseg_frame; [|exact H]. intros x Hx c Hc. apply set_prev_only.
    destruct (Ho x Hx) as [Hd|Hd], (apart_in _ _ Ha Hx) as (_ & ? & _); unfold bend in Hd; lia.
Qed.

(** ** Taking a block *)

(** The writes of a split: block [b] of size [S] becomes one of size [size]
    followed by [nb]. *)
Lemma split_writes m b S f n p size :
  let nb := b + HDR + size in
  let m' :=
    let m := set_size nb (S - size - HDR) m in
    let m := set_free nb true m in
    let m := set_next nb (hb_next b m) m in
    let m := set_prev nb b m in
    let m := set_magic nb HEAP_MAGIC m in
    let m := if hb_next b m =? 0 then m else set_prev (hb_next b m) nb m in
    let m := set_next b nb m in
    set_size b size m in
  hdr_at m b S f n p -> 0 < b -> 0 <= size -> size + HDR <= S -> b + HDR + S < 2 ^ 64 -> word n ->
  (n = 0 \/ n + HDR <= b \/ b + HDR + S <= n) ->
  hdr_at m' b size f nb p /\ hdr_at m' nb (S - size - HDR) true n b /\
  exists m0, m' = set_size b size (set_next b nb (if n =? 0 then m0 else set_prev n nb m0)) /\
             only_in nb m m0.
Proof.
  cbv zeta. set (nb := b + HDR + size). intros Hh H0 Hs HS Hend Hn Hdis.
  assert (HDR = 48) as EH by done.
  set (m1 := set_size nb _ m). set (m2 := set_free nb true m1).
  assert (only_in nb m m2) as O2 by (eapply only_in_trans; [apply set_size_only|apply set_free_only]).
  assert (hb_next b m2 = n) as E2 by (eapply ha_next, (only_in_hdr nb m); [exact O2|lia|exact Hh]).
  rewrite E2. set (m3 := set_next nb n m2). set (m4 := set_prev nb b m3). set (m5 := set_magic nb HEAP_MAGIC m4).
  assert (only_in nb m m5) as O5.
  { eapply only_in_trans; [exact O2|]. eapply only_in_trans; [apply set_next_only|].
    eapply only_in_trans; [apply set_prev_only|apply set_magic_only]. }
  assert (hdr_at m5 b S f n p) as B5 by (apply (only_in_hdr nb m); auto; lia).
  assert (hdr_at m5 nb (S - size - HDR) true n b) as N5.
  { unfold m5, m4, m3, m2, m1, word in *. split; hdr_simpl; auto. }
  rewrite (ha_next _ _ _ _ _ _ B5). set (m6 := if n =? 0 then m5 else set_prev n nb m5).
  assert (n <> 0 /\ only_in n m5 m6 \/ m6 = m5) as O6.
  { unfold m6. destruct (Z.eqb_spec n 0); [by right|left; split; [done|apply set_prev_only]]. }
  assert (hdr_at m6 b S f n p) as B6 by (destruct O6 as [[Hn0 O6]| ->]; [apply (only_in_hdr n m5); auto; lia|done]).
  assert (hdr_at m6 nb (S - size - HDR) true n b) as N6.
  { destruct O6 as [[Hn0 O6]| ->]; [apply (only_in_hdr n m5); auto; lia|done]. }
  split_and!.
  - eapply set_size_hdr, set_next_hdr; [unfold word; lia|unfold word; lia|exact B6].
  - apply (only_in_hdr b (set_next b nb m6)); [auto with yam|lia|].
    apply (only_in_hdr b m6); [auto with yam|lia|done].
  - exists m5. split; [done|exact O5].
Qed.

Definition split_blk (b : blk) (size : Z) : list blk :=
  if size + HDR + HEAP_ALIGN <? bs b
  then [{| ba := ba b; bs := size; bf := false |};
        {| ba := ba b + HDR + size; bs := bs b - size - HDR; bf := true |}]
  else [{| ba := ba b; bs := bs b; bf := false |}].


Lemma blk_ok_word b : blk_ok b -> word (ba b) /\ word (bs b).
Proof. unfold blk_ok, bend, word, HDR, HEAP_ALIGN. lia. Qed.

(** The successor of a block is NULL or the start of a block that is apart. *)
Lemma dseg_next m p n l q b :
  dseg m p n l q 0 -> apart (b :: l) ->
  word n /\ (n = 0 \/ n + HDR <= ba b \/ bend b <= n).
Proof.
  intros H (_ & Ho & Ha). apply dseg_head in H. destruct l as [|y l]; subst n.
  - split; [unfold word; lia|by left].
  - destruct (Ho y (or_introl eq_refl)) as [Hd|Hd], (apart_in _ y Ha (or_introl eq_refl)) as (? & ? & ?);
      unfold bend, word, HDR, HEAP_ALIGN in *; split; lia.
Qed.

Lemma split_apart b l size : apart (b :: l) -> 0 <= size <= bs b -> apart (split_blk b size ++ l).
Proof.
  intros ((H0 & H1 & H2) & Ho & Ha) Hs. unfold split_blk.
  assert (forall x, ba b <= ba x -> bend x <= bend b -> forall y, In y l -> off x y) as Hx.
  { intros x L U y Hy. destruct (Ho y Hy) as [Hd|Hd]; unfold off; lia. }
  destruct (Z.ltb_spec (size + HDR + HEAP_ALIGN) (bs b)); cbn [app apart];
    unfold blk_ok, bend, HDR, HEAP_ALIGN in *; cbn [ba bs] in *.
  - split; [lia|]. split.
    + intros y [<-|Hy]; [unfold off, bend, HDR; cbn; lia|]. apply Hx; auto; cbn; lia.
    + split; [lia|]. split; [|done]. apply Hx; cbn; lia.
  - split; [lia|]. split; [|done]. apply Hx; cbn; lia.
Qed.

Lemma split_range b size x : 0 <= size <= bs b -> blk_ok b -> In x (split_blk b size) ->
  ba b <= ba x /\ bend x <= bend b.
Proof.
  intros Hs (H0 & H1 & H2). unfold split_blk, bend, HDR, HEAP_ALIGN.
  destruct (Z.ltb_spec (size + 48 + 16) (bs b)); cbn; [intros [<-|[<-|[]]]|intros [<-|[]]]; cbn; lia.
Qed.

(** The bytes of the headers in a list. *)
Definition in_headers (l : list blk) (a : Z) : Prop := exists x, In x l /\ ba x <= a < ba x + HDR.

Lemma header_free l a x : ~ in_headers l a -> In x l -> a < ba x \/ ba x + HDR <= a.
Proof. intros Hout Hx. destruct (decide (a < ba x)); [by left|]. destruct (decide (ba x + HDR <= a)); [by right|].
  exfalso. apply Hout. exists x. split; [done|lia].
Qed.

(** The local effect of [take_block] on the block and what follows it. *)
Lemma take_local m p b n l q size :
  hdr_at m (ba b) (bs b) (bf b) n p -> dseg m (ba b) n l q 0 -> apart (b :: l) -> 0 <= size <= bs b ->
  let m' := take_block size (ba b) m in
  (exists q', dseg m' p (ba b) (split_blk b size ++ l) q' 0) /\
  forall a, ~ in_headers (split_blk b size ++ l) a -> m' a = m a.
Proof.
  intros Hb Hl Ha Hs. destruct (dseg_next _ _ _ _ _ b Hl Ha) as [Hnw Hnd].
  destruct Ha as ((H0 & H1 & H2) & Ho & Ha). assert (HDR = 48 /\ HEAP_ALIGN = 16) as [EH EA] by done.
  unfold bend in *. cbv zeta. unfold take_block. rewrite (ha_size _ _ _ _ _ _ Hb).
  rewrite (wrap_small 64 (size + HDR)), (wrap_small 64 (size + HDR + HEAP_ALIGN)) by lia.
  unfold split_blk. destruct (Z.ltb_spec (size + HDR + HEAP_ALIGN) (bs b)) as [Hlt|_].
  - rewrite (wrap_small 64 (ba b + HDR + size)), (wrap_small 64 (bs b - size - HDR)) by lia. cbv zeta.
    destruct (split_writes m (ba b) (bs b) (bf b) n p size Hb) as (B & N & m0 & E & O0); try lia; auto.
    cbv zeta in B, N, E. set (nb := ba b + HDR + size) in *. rewrite E in *.
    set (m1 := if n =? 0 then m0 else set_prev n nb m0) in *.
    set (m2 := set_size (ba b) size _) in *. set (m' := set_free (ba b) false m2).
    assert (only_in (ba b) m1 m') as O1.
    { unfold m', m2. eapply only_in_trans; [apply set_next_only|].
      eapply only_in_trans; [apply set_size_only|apply set_free_only]. }
    assert (exists q', dseg m1 nb n l q' 0) as [q' Hl1].
    { eapply (dseg_reprev m0 m1 (ba b)); [|exact Ha|unfold word; lia|done].
      eapply dseg_frame; [|exact Hl]. intros x Hx c Hc. apply O0. pose proof (apart_in _ _ Ha Hx) as (? & ? & ?).
      destruct (Ho x Hx) as [Hd|Hd]; unfold bend in Hd; lia. }
    assert (dseg m' nb n l q' 0) as Hl2.
    { eapply dseg_frame; [|exact Hl1]. intros x Hx c Hc. apply O1. pose proof (apart_in _ _ Ha Hx) as (? & ? & ?).
      destruct (Ho x Hx) as [Hd|Hd]; unfold bend in Hd; lia. }
    split.
    + exists q'. cbn [app dseg ba bs bf]. split; [done|]. exists nb. split; [by eapply set_free_hdr|].
      split; [done|]. exists n. split; [|exact Hl2]. apply (only_in_hdr (ba b) m2); [apply set_free_only|lia|done].
    + intros a Hout. apply dseg_head in Hl. pose proof (fun x => header_free _ a x Hout) as Hfree.
      rewrite O1 by exact (Hfree _ (or_introl eq_refl)).
      rewrite <- (O0 a) by exact (Hfree _ (or_intror (or_introl eq_refl))).
      unfold m1. destruct (Z.eqb_spec n 0) as [|Hn0]; [done|]. apply set_prev_only.
      destruct l as [|y l]; [done|]. subst n. apply Hfree. right. right. by left.
  - split.
    + exists q. cbn [app dseg ba bs bf]. split; [done|]. exists n. split; [by eapply set_free_hdr|].
      eapply dseg_frame; [|exact Hl]. intros x Hx c Hc. apply set_free_only. pose proof (apart_in _ _ Ha Hx) as (? & ? & ?).
      destruct (Ho x Hx) as [Hd|Hd]; unfold bend in Hd; lia.
    + intros a Hout. apply set_free_only. exact (header_free _ a _ Hout (or_introl eq_refl)).
Qed.


Lemma take_ok m h l1 b l2 q size :
  dseg m 0 h (l1 ++ b :: l2) q 0 -> apart (l1 ++ b :: l2) -> 0 <= size <= bs b ->
  let m' := take_block size (ba b) m in
  let l' := l1 ++ split_blk b size ++ l2 in
  (exists q', dseg m' 0 h l' q' 0) /\ apart l' /\ forall a, ~ in_headers l' a -> m' a = m a.
Proof.
  intros Hd Ha Hs. cbv zeta. apply dseg_app in Hd as (q1 & e1 & Hd1 & -> & n & Hb & Hd2).
  apply apart_app in Ha as (Ha1 & Ha2 & Ho).
  destruct (take_local m q1 b n l2 q size Hb Hd2 Ha2 Hs) as [[q' Hd'] Hm]. cbv zeta in Hd', Hm.
  set (m' := take_block _ _ m) in *. clearbody m'. pose proof (proj1 Ha2) as Hbok.
  assert (apart (l1 ++ split_blk b size ++ l2)) as Ha'.
  { apply apart_app. split_and!; [done|by apply split_apart|]. intros x y Hx [Hy|Hy]%in_app_or.
    - destruct (split_range b size y Hs Hbok Hy) as [L U].
      destruct (Ho x b Hx (or_introl eq_refl)) as [O|O]; unfold off; lia.
    - apply Ho; auto. by right. }
  split_and!; auto.
  - exists q'. apply dseg_app. exists q1, (ba b). split; [|done].
    eapply dseg_frame; [|exact Hd1]. intros x Hx c Hc. apply Hm. intros (y & Hy & Hcy).
    apply apart_app in Ha' as (_ & Ha' & Ho'). pose proof (apart_in _ _ Ha1 Hx) as (_ & ? & _).
    pose proof (apart_in _ _ Ha' Hy) as (_ & ? & _).
    destruct (Ho' x y Hx Hy) as [O|O]; unfold bend in O; lia.
  - intros a Hout. apply Hm. intros (y & Hy & Hc). apply Hout. exists y. split; [|done]. apply in_or_app. by right.
Qed.

(** ** The search *)

Definition fits (size : Z) (b : blk) : bool := bf b && (size <=? bs b).

Lemma first_fit_ok fuel size m p h l q :
  dseg m p h l q 0 -> apart l -> (length l <= fuel)%nat ->
  first_fit fuel size h m = match List.find (fits size) l with Some b => Fit (ba b) | None => NoFit end.
Proof.
  revert fuel p h. induction l as [|b l IH]; intros fuel p h Hd Ha Hf; cbn [List.find].
  { destruct Hd as [-> _]. by destruct fuel. }
  destruct fuel as [|fuel]; [cbn in Hf; lia|]. destruct Hd as (-> & n & [A B C D E] & Hd), Ha as ((H0 & _) & _ & Ha).
  cbn [first_fit]. rewrite (proj2 (Z.eqb_neq _ _)) by lia. rewrite E, A, B, C, Z.eqb_refl. cbn [negb].
  fold (fits size b). destruct (fits size b); [done|]. apply (IH fuel (ba b)); auto. cbn in Hf. lia.
Qed.

Lemma find_split {A} (f : A -> bool) l x : List.find f l = Some x ->
  f x = true /\ exists l1 l2, l = l1 ++ x :: l2.
Proof.
  intros H. apply find_some in H as [Hin Hf]. split; [done|]. by apply in_split.
Qed.

(** ** Appending a region *)

Lemma list_last_ok fuel m p h l b q : dseg m p h (l ++ [b]) q 0 -> apart (l ++ [b]) ->
  (length l < fuel)%nat -> list_last fuel h m = ba b.
Proof.
  revert fuel p h. induction l as [|x l IH]; intros [|fuel] p h Hd Ha Hf; cbn [length] in Hf; try lia;
    cbn [list_last]; destruct Hd as (-> & n & [A B C D E] & Hd); rewrite C.
  - destruct Hd as [-> _]. done.
  - destruct Ha as (_ & _ & Ha). pose proof (dseg_head _ _ _ _ _ _ Hd) as Hn.
    assert (n <> 0) as Hn0.
    { destruct l as [|y l]; cbn in Hn; subst n; [pose proof (apart_in _ b Ha (or_introl eq_refl)) as (? & _)
        |pose proof (apart_in _ y Ha (or_introl eq_refl)) as (? & _)]; lia. }
    rewrite (proj2 (Z.eqb_neq _ _) Hn0). apply (IH fuel (ba x)); auto. lia.
Qed.

(** Setting the successor of the last block. *)
Lemma dseg_relast m p h l b q v :
  dseg m p h (l ++ [b]) q 0 -> apart (l ++ [b]) -> word v ->
  dseg (set_next (ba b) v m) p h (l ++ [b]) (ba b) v.
Proof.
  intros Hd Ha Hv. apply dseg_app in Hd as (q1 & e1 & Hd1 & -> & n & Hb & _ & ->).
  apply apart_app in Ha as (Ha1 & (Hb0 & _) & Ho). apply dseg_app. exists q1, (ba b). split.
  - eapply dseg_frame; [|exact Hd1]. intros x Hx c Hc. apply set_next_only.
    pose proof (apart_in _ _ Ha1 Hx) as (_ & ? & _). destruct Hb0 as (_ & ? & _).
    destruct (Ho x b Hx (or_introl eq_refl)) as [O|O]; unfold bend in O; lia.
  - cbn [dseg]. split; [done|]. exists v. split; [by eapply set_next_hdr|done].
Qed.


(** ** Merging *)

Definition join (b y : blk) : blk := {| ba := ba b; bs := bs b + HDR + bs y; bf := bf b |}.

Definition join_next (b : blk) (l : list blk) : list blk :=
  match l with
  | y :: l' => if bf y then join b y :: l' else b :: l
  | [] => [b]
  end.

(** A free successor starts where the block ends. *)
Definition snug (b : blk) (l : list blk) : Prop :=
  match l with y :: _ => bf y = true -> bend b = ba y | [] => True end.

Lemma join_apart b l : apart (b :: l) -> snug b l -> apart (join_next b l).
Proof.
  intros Ha Hsn. destruct l as [|y l]; [done|]. cbn [join_next]. destruct (bf y) eqn:E; [|done].
  specialize (Hsn E). destruct Ha as ((A1 & A2 & A3) & Ho & ((B1 & B2 & B3) & Hoy & Ha)).
  unfold bend in *. cbn [apart]. split_and!; [unfold blk_ok, bend, join, HDR in *; cbn; lia| |done].
  intros z Hz. pose proof (apart_in _ _ Ha Hz) as (C1 & C2 & _).
  destruct (Ho z (or_intror Hz)) as [O|O], (Hoy z Hz) as [O'|O']; unfold off, bend, join, HDR in *; cbn; lia.
Qed.

Lemma merge_next_local m p b n l q :
  hdr_at m (ba b) (bs b) (bf b) n p -> dseg m (ba b) n l q 0 -> apart (b :: l) -> snug b l ->
  let m' := merge_next (ba b) m in
  (exists q', dseg m' p (ba b) (join_next b l) q' 0) /\ forall a, ~ in_headers (b :: l) a -> m' a = m a.
Proof.
  intros Hb Hl Ha Hsn. cbv zeta. unfold merge_next. rewrite (ha_next _ _ _ _ _ _ Hb).
  destruct l as [|y l].
  { destruct Hl as [-> ->]. cbn. split; [|done]. exists (ba b). split; [done|]. by exists 0. }
  pose proof (join_apart b (y :: l) Ha Hsn) as Hj.
  destruct Hl as (-> & ny & Hy & Hl), Ha as ((A1 & A2 & A3) & Ho & ((B1 & B2 & B3) & Hoy & Ha)).
  rewrite (ha_free _ _ _ _ _ _ Hy), (ha_size _ _ _ _ _ _ Hy), (ha_size _ _ _ _ _ _ Hb).
  rewrite (proj2 (Z.eqb_neq (ba y) 0)) by lia. cbn [negb andb join_next] in *. destruct (bf y) eqn:Ey; cbv zeta.
  2: { split; [|done]. exists q. split; [done|]. exists (ba y). split; [done|]. split; [done|]. exists ny.
       by rewrite Ey. }
  specialize (Hsn Ey). destruct Hj as ((J1 & J2 & J3) & Hoj & _). unfold bend, join in *. cbn [ba bs bf] in *.
  assert (HDR = 48 /\ HEAP_ALIGN = 16) as [EH EA] by done.
  rewrite (wrap_small 64 (bs b + (HDR + bs y))), Z.add_assoc by lia.
  set (m1 := set_size (ba b) _ m).
  assert (only_in (ba b) m m1) as O1 by apply set_size_only.
  rewrite (ha_next m1 (ba y) (bs y) true ny (ba b)) by (apply (only_in_hdr (ba b) m); auto; lia).
  set (m2 := set_next (ba b) ny m1).
  assert (word ny) as Hny.
  { apply dseg_head in Hl. destruct l as [|z l]; subst ny; [unfold word; lia|].
    pose proof (apart_in _ z Ha (or_introl eq_refl)) as (C1 & C2 & C3). unfold word, bend in *. lia. }
  assert (hdr_at m2 (ba b) (bs b + HDR + bs y) (bf b) ny p) as H2.
  { eapply set_next_hdr; [done|]. eapply set_size_hdr; [unfold word; lia|exact Hb]. }
  rewrite (ha_next _ _ _ _ _ _ H2). set (m3 := if ny =? 0 then m2 else _).
  assert (only_in (ba b) m m2) as O2 by (eapply only_in_trans; [exact O1|apply set_next_only]).
  assert (dseg m2 (ba y) ny l q 0) as Hl2.
  { eapply dseg_frame; [|exact Hl]. intros x Hx c Hc. apply O2. pose proof (apart_in _ _ Ha Hx) as (? & ? & ?).
    destruct (Hoj x Hx) as [O|O]; unfold bend in O; cbn in O; lia. }
  destruct (dseg_reprev m2 m3 (ba y) (ba b) ny l q Hl2 Ha) as [q' Hl3]; [unfold word; lia|done|].
  split.
  - exists q'. split; [done|]. exists ny. split; [|done]. unfold m3. destruct (Z.eqb_spec ny 0); [done|].
    apply (only_in_hdr ny m2); [apply set_prev_only| |done]. apply dseg_head in Hl. destruct l as [|z l]; [done|].
    subst ny. pose proof (apart_in _ z Ha (or_introl eq_refl)) as (? & ? & ?).
    destruct (Hoj z (or_introl eq_refl)) as [O|O]; unfold bend in O; cbn [ba bs] in O |- *; lia.
  - intros a Hout. pose proof (fun x => header_free _ a x Hout) as Hfree.
    rewrite <- (O2 a) by (apply Hfree; by left). unfold m3. destruct (Z.eqb_spec ny 0); [done|].
    apply set_prev_only. apply dseg_head in Hl. destruct l as [|z l]; [done|]. subst ny. apply Hfree.
    right. right. by left.
Qed.

(** Merging into a free predecessor is merging that block with its successor. *)
Lemma merge_prev_eq m b x sz n sz' f' p' :
  hdr_at m b sz true n x -> x <> 0 -> hdr_at m x sz' f' b p' -> b <> 0 -> (x + HDR <= b \/ b + HDR <= x) -> word n ->
  merge_prev b m = if f' then merge_next x m else m.
Proof.
  intros Hb Hx0 Hx Hb0 Hd Hn. unfold merge_prev, merge_next.
  rewrite (ha_prev _ _ _ _ _ _ Hb), (ha_free _ _ _ _ _ _ Hx), (ha_next _ _ _ _ _ _ Hx), (ha_free _ _ _ _ _ _ Hb).
  rewrite (proj2 (Z.eqb_neq _ _) Hx0), (proj2 (Z.eqb_neq _ _) Hb0). cbn [negb andb]. destruct f'; [|done]. cbv zeta.
  set (m1 := set_size x _ m).
  assert (hdr_at m1 b sz true n x) as H1 by (apply (only_in_hdr x m); [apply set_size_only|lia|done]).
  rewrite (ha_next _ _ _ _ _ _ H1). set (m2 := set_next x n m1).
  assert (hdr_at m2 b sz true n x) as H2 by (apply (only_in_hdr x m1); [apply set_next_only|lia|done]).
  assert (hb_next x m2 = n) as E.
  { unfold m2, hb_next, set_next. by rewrite load_store_same by (by apply word_bytes). }
  by rewrite (ha_next _ _ _ _ _ _ H2), E.
Qed.


Lemma join_off x b l : blk_ok x -> apart (b :: l) -> snug b l -> (forall y, In y (b :: l) -> off x y) ->
  forall y, In y (join_next b l) -> off x y.
Proof.
  intros (X1 & X2 & X3) Ha Hsn Ho y. destruct l as [|z l]; [apply Ho|]. cbn [join_next].
  destruct (bf z) eqn:E; [|apply Ho]. specialize (Hsn E). intros [<-|Hy]; [|apply Ho; by right; right].
  destruct Ha as ((A1 & A2 & A3) & _ & ((B1 & B2 & B3) & _)).
  destruct (Ho b (or_introl eq_refl)) as [O|O], (Ho z (or_intror (or_introl eq_refl))) as [O'|O'];
    unfold off, bend, join, HDR in *; cbn; lia.
Qed.

Lemma merge_ok m h l1 b l2 q :
  dseg m 0 h (l1 ++ b :: l2) q 0 -> apart (l1 ++ b :: l2) -> snug b l2 ->
  let m' := merge_next (ba b) m in
  let l' := l1 ++ join_next b l2 in
  (exists q', dseg m' 0 h l' q' 0) /\ apart l' /\ forall a, ~ in_headers (l1 ++ b :: l2) a -> m' a = m a.
Proof.
  intros Hd Ha Hsn. cbv zeta. apply dseg_app in Hd as (q1 & e1 & Hd1 & -> & n & Hb & Hd2).
  apply apart_app in Ha as (Ha1 & Ha2 & Ho).
  destruct (merge_next_local m q1 b n l2 q Hb Hd2 Ha2 Hsn) as [[q' Hd'] Hm]. cbv zeta in Hd', Hm.
  set (m' := merge_next _ m) in *. clearbody m'. split_and!.
  - exists q'. apply dseg_app. exists q1, (ba b). split; [|done].
    eapply dseg_frame; [|exact Hd1]. intros x Hx c Hc. apply Hm. intros (y & Hy & Hcy).
    pose proof (apart_in _ _ Ha1 Hx) as (_ & ? & _). pose proof (apart_in _ _ Ha2 Hy) as (_ & ? & _).
    destruct (Ho x y Hx Hy) as [O|O]; unfold bend in O; lia.
  - apply apart_app. split_and!; [done|by apply join_apart|]. intros x y Hx. apply join_off; auto.
    by apply (apart_in l1).
  - intros a Hout. apply Hm. intros (y & Hy & Hc). apply Hout. exists y. split; [|done]. apply in_or_app. by right.
Qed.

(** What kfree makes of the list around the block [b]. *)
Definition used_to_free (b : blk) : blk := {| ba := ba b; bs := bs b; bf := true |}.
Definition free_result (l1 : list blk) (b : blk) (l2 : list blk) : list blk :=
  match rev l1 with
  | x :: r => if bf x then rev r ++ join_next x (join_next (used_to_free b) l2)
              else l1 ++ join_next (used_to_free b) l2
  | [] => join_next (used_to_free b) l2
  end.

(** The block and its neighbours are contiguous wherever they would merge. *)
Definition snug_free (l1 : list blk) (b : blk) (l2 : list blk) : Prop :=
  snug b l2 /\ match rev l1 with x :: _ => bf x = true -> bend x = ba b | [] => True end.

Lemma join_next_head b l : exists b2 l3, join_next b l = b2 :: l3 /\ ba b2 = ba b /\ bf b2 = bf b.
Proof.
  destruct l as [|y l]; cbn [join_next]; [eauto|]. destruct (bf y); [|eauto].
  exists (join b y), l. done.
Qed.

Lemma mark_free m h l1 b l2 q :
  dseg m 0 h (l1 ++ b :: l2) q 0 -> apart (l1 ++ b :: l2) ->
  let m' := set_free (ba b) true m in
  let l' := l1 ++ used_to_free b :: l2 in
  dseg m' 0 h l' q 0 /\ apart l' /\ forall a, ~ in_headers l' a -> m' a = m a.
Proof.
  intros Hd Ha. cbv zeta. apply dseg_app in Hd as (q1 & e1 & Hd1 & -> & n & Hb & Hd2).
  pose proof Ha as Ha'. apply apart_app in Ha as (Ha1 & Ha2 & Ho). pose proof Ha2 as ((_ & B2 & _) & Ho2 & Ha3).
  split_and!.
  - apply dseg_app. exists q1, (ba b). split.
    + eapply dseg_frame; [|exact Hd1]. intros x Hx c Hc. apply set_free_only.
      pose proof (apart_in _ _ Ha1 Hx) as (_ & ? & _).
      destruct (Ho x b Hx (or_introl eq_refl)) as [O|O]; unfold bend in O; lia.
    + split; [done|]. exists n. split; [by eapply set_free_hdr|]. eapply dseg_frame; [|exact Hd2].
      intros x Hx c Hc. apply set_free_only. pose proof (apart_in _ _ Ha3 Hx) as (_ & ? & _).
      destruct (Ho2 x Hx) as [O|O]; unfold bend in O; lia.
  - apply apart_app. split_and!; [done|exact Ha2|]. intros x y Hx [<-|Hy]; [exact (Ho x b Hx (or_introl eq_refl))|].
    apply Ho; auto. by right.
  - intros a Hout. apply set_free_only. apply (header_free _ a (used_to_free b) Hout).
    apply in_or_app. right. by left.
Qed.


Lemma free_ok m h l1 b l2 q :
  dseg m 0 h (l1 ++ b :: l2) q 0 -> apart (l1 ++ b :: l2) -> snug_free l1 b l2 ->
  let m' := merge_prev (ba b) (merge_next (ba b) (set_free (ba b) true m)) in
  let l' := free_result l1 b l2 in
  (exists q', dseg m' 0 h l' q' 0) /\ apart l' /\ forall a, ~ in_headers (l1 ++ b :: l2) a -> m' a = m a.
Proof.
  intros Hd Ha [Hs1 Hs2]. cbv zeta. destruct (mark_free m h l1 b l2 q Hd Ha) as (Hd1 & Ha1 & Hm1). cbv zeta in *.
  set (m1 := set_free _ true m) in *. clearbody m1.
  destruct (merge_ok m1 h l1 (used_to_free b) l2 q Hd1 Ha1 Hs1) as ([q2 Hd2] & Ha2 & Hm2). cbv zeta in *.
  change (ba (used_to_free b)) with (ba b) in *. set (m2 := merge_next _ m1) in *. clearbody m2.
  assert (forall a, ~ in_headers (l1 ++ b :: l2) a -> m2 a = m a) as Hm.
  { intros a Hout. assert (~ in_headers (l1 ++ used_to_free b :: l2) a) as Hout'.
    { intros (x & [Hx|[<-|Hx]]%in_app_or & Hc); apply Hout.
      - exists x. split; [apply in_or_app; by left|done].
      - exists b. split; [apply in_or_app; right; by left|done].
      - exists x. split; [apply in_or_app; right; by right|done]. }
    by rewrite Hm2, Hm1. }
  unfold free_result. destruct (join_next_head (used_to_free b) l2) as (b2 & l3 & Ej & Eb & Ef). rewrite Ej in *.
  change (ba (used_to_free b)) with (ba b) in Eb. change (bf (used_to_free b)) with true in Ef.
  destruct l1 as [|x l0 _] using rev_ind.
  - pose proof Hd2 as (_ & n & Hb & _). cbn [rev]. replace (merge_prev (ba b) m2) with m2; [by split_and!; eauto|].
    unfold merge_prev. rewrite <- Eb, (ha_prev _ _ _ _ _ _ Hb). done.
  - rewrite rev_app_distr in Hs2 |- *. cbn [rev app] in Hs2 |- *. rewrite rev_involutive.
    rewrite <- app_assoc in Hd2, Ha2. cbn [app] in Hd2, Ha2.
    pose proof Hd2 as Hd2'. apply dseg_app in Hd2' as (q1 & e1 & _ & -> & n & Hx & -> & n2 & Hb2 & Hl3).
    pose proof Ha2 as Ha2'. apply apart_app in Ha2' as (_ & ((X1 & X2 & X3) & Hox & Ha3) & _).
    pose proof (Hox b2 (or_introl eq_refl)) as Hxb. pose proof (proj1 Ha3) as (B1 & B2 & B3).
    destruct (dseg_next _ _ _ _ _ b2 Hl3 Ha3) as [Hw _].
    rewrite (merge_prev_eq m2 (ba b) (ba x) (bs b2) n2 (bs x) (bf x) q1).
    + destruct (bf x) eqn:Ex.
      * destruct (merge_ok m2 h l0 x (b2 :: l3) q2 Hd2 Ha2) as (Hd3 & Ha4 & Hm3).
        { intros _. rewrite Eb. by apply Hs2. }
        cbv zeta in *. split_and!; auto. intros a Hout. rewrite Hm3; [by apply Hm|].
        intros (y & Hy & Hc). apply Hout. apply in_app_or in Hy as [Hy|[<-|[<-|Hy]]].
        -- exists y. split; [|done]. apply in_or_app. left. apply in_or_app. by left.
        -- exists x. split; [|done]. apply in_or_app. left. apply in_or_app. right. by left.
        -- exists b. rewrite <- Eb. split; [|done]. apply in_or_app. right. by left.
        -- exists y. split; [|done]. apply in_or_app. right. right.
           destruct l2 as [|z l2]; cbn [join_next] in Ej; [by injection Ej as _ <-|].
           destruct (bf z); injection Ej as _ <-; [by right|done].
      * rewrite <- app_assoc. split_and!; eauto.
    + rewrite <- Eb, <- Ef. exact Hb2.
    + lia.
    + rewrite <- Eb. exact Hx.
    + lia.
    + rewrite <- Eb. unfold off, bend in Hxb. lia.
    + done.
Qed.


(** The header heap_expand writes into a new region, and the list with it. *)
Definition fresh_header (nb size : Z) (m : mem) : mem :=
  set_next nb 0 (set_prev nb 0 (set_magic nb HEAP_MAGIC (set_free nb true (set_size nb size m)))).

Lemma fresh_header_ok nb size m : word size ->
  hdr_at (fresh_header nb size m) nb size true 0 0 /\ only_in nb m (fresh_header nb size m).
Proof.
  intros Hw. split; [unfold fresh_header, word in *; split; hdr_simpl; auto|]. unfold fresh_header.
  eapply only_in_trans; [apply set_size_only|]. eapply only_in_trans; [apply set_free_only|].
  eapply only_in_trans; [apply set_magic_only|]. eapply only_in_trans; [apply set_prev_only|apply set_next_only].
Qed.

Lemma append_ok fuel m h l q b :
  dseg m 0 h l q 0 -> apart (l ++ [b]) -> bf b = true -> (length l <= fuel)%nat ->
  let m5 := fresh_header (ba b) (bs b) m in
  let last := list_last fuel h m5 in
  let m' := if h =? 0 then m5 else set_prev (ba b) last (set_next last (ba b) m5) in
  (exists q', dseg m' 0 (if h =? 0 then ba b else h) (l ++ [b]) q' 0) /\
  forall a, ~ in_headers (l ++ [b]) a -> m' a = m a.
Proof.
  intros Hd Ha Hbf Hf. cbv zeta. pose proof Ha as Ha'. apply apart_app in Ha' as (Hal & ((B1 & B2 & B3) & _) & Ho).
  destruct (blk_ok_word b (conj B1 (conj B2 B3))) as [Wb Ws].
  destruct (fresh_header_ok (ba b) (bs b) m Ws) as [H5 O5]. set (m5 := fresh_header _ _ m) in *. clearbody m5.
  assert (forall c m0, only_in (ba b) m0 c -> forall p h q e, dseg m0 p h l q e -> dseg c p h l q e) as Hfr.
  { intros c m0 Hc p0 h0 q0 e0. apply dseg_frame. intros x Hx a Har. apply Hc.
    pose proof (apart_in _ _ Hal Hx) as (_ & ? & _). destruct (Ho x b Hx (or_introl eq_refl)) as [O|O]; unfold bend in O; lia. }
  assert (dseg m5 0 h l q 0) as Hd5 by (by eapply Hfr).
  destruct l as [|z l0 _] using rev_ind.
  { destruct Hd as [-> _]. cbn [Z.eqb app]. split.
    - exists (ba b). split; [done|]. exists 0. rewrite Hbf. done.
    - intros a Hout. apply O5. apply (header_free _ a b Hout). by left. }
  assert (h <> 0) as Hh.
  { apply dseg_head in Hd. destruct l0 as [|y l0]; cbn in Hd; subst h;
      [pose proof (apart_in _ z Hal (or_introl eq_refl)) as (? & _)|pose proof (apart_in _ y Hal (or_introl eq_refl)) as (? & _)]; lia. }
  rewrite (proj2 (Z.eqb_neq _ _) Hh). rewrite length_app in Hf. cbn in Hf.
  rewrite (list_last_ok fuel m5 0 h l0 z q Hd5 Hal) by lia.
  assert (In z (l0 ++ [z])) as Hz by (apply in_or_app; right; by left).
  pose proof (apart_in _ _ Hal Hz) as Hzok. destruct (blk_ok_word z Hzok) as [Wz _].
  pose proof (dseg_relast m5 0 h l0 z q (ba b) Hd5 Hal Wb) as Hd6.
  assert (hdr_at (set_next (ba z) (ba b) m5) (ba b) (bs b) true 0 0) as H6.
  { apply (only_in_hdr (ba z) m5); [apply set_next_only| |done]. destruct Hzok as (_ & ? & _).
    destruct (Ho z b Hz (or_introl eq_refl)) as [O|O]; unfold bend in O; lia. }
  split.
  - exists (ba b). apply dseg_app. exists (ba z), (ba b). split.
    + eapply Hfr; [apply set_prev_only|exact Hd6].
    + split; [done|]. exists 0. rewrite Hbf. split; [by eapply set_prev_hdr|done].
  - intros a Hout. rewrite set_prev_only by (apply (header_free _ a b Hout), in_or_app; right; by left).
    rewrite set_next_only by (apply (header_free _ a z Hout), in_or_app; by left).
    apply O5, (header_free _ a b Hout), in_or_app. right. by left.
Qed.

End HeapProps.
