(* ===== verification/HeapClaims.v ===== *)
(** * What the kernel heap guarantees

    The invariant of the whole heap (block list, pages it owns, bucket lists
    and the small objects handed out), its preservation by the operations and
    the statements a client relies on: large blocks and small objects are
    fresh, aligned and long enough, freeing returns the block's bytes, and
    nobody else's memory changes. *)

From S2P Require Import Prelude Mem Str Heap HeapProps Pmm PmmSpec PmmProps PmmClaims.
Import Mem Str Heap HeapProps.

Module HeapClaims.

(** ** Small objects *)

(** The free list of a bucket. *)
Fixpoint oseg (m : mem) (h : Z) (l : list Z) : Prop :=
  match l with
  | [] => h = 0
  | o :: l' => h = o /\ 0 < o /\ oseg m (obj_next o m) l'
  end.

Lemma oseg_frame m m' h l :
  (forall o, In o l -> same_on m m' o 8) -> oseg m h l -> oseg m' h l.
Proof.
  revert h. induction l as [|o l IH]; intros h Hs; cbn [oseg]; [done|]. intros (-> & H0 & H).
  split_and!; auto. unfold obj_next in *. rewrite (load_ext 8 o m m').
  - apply IH; auto. intros x Hx. apply Hs. by right.
  - intros b Hb. apply (Hs o); [by left|cbn in Hb; lia].
Qed.

Definition clear (x y : Z * Z) : Prop := fst x + snd x <= fst y \/ fst y + snd y <= fst x.

(** The ranges of the free objects of all buckets, and those handed out. *)
Definition bucket_ranges (objs : Z -> list Z) (i : Z) : list (Z * Z) := map (fun o => (o, bucket_sizes i)) (objs i).
Definition small_ranges (objs : Z -> list Z) (out : list (Z * Z)) : list (Z * Z) :=
  out ++ concat (map (bucket_ranges objs) (seqZ 0 BUCKET_COUNT)).

Lemma clear_sym x y : clear x y -> clear y x.
Proof. unfold clear. tauto. Qed.

Lemma sep_perm l l' : l ≡ₚ l' -> ForallOrdPairs clear l -> ForallOrdPairs clear l'.
Proof.
  induction 1 as [|x l l' Hp IH|x y l|l1 l2 l3 _ IH1 _ IH2]; auto.
  - intros H. inversion H; subst. constructor; auto.
    rewrite List.Forall_forall in *. intros z Hz. apply H2. apply Permutation_sym in Hp. by apply (Permutation_in _ Hp).
  - intros H. inversion H as [|? ? Hy H']; subst. inversion H' as [|? ? Hx H'']; subst.
    inversion Hy; subst. constructor; [constructor; [by apply clear_sym|done]|]. by constructor.
Qed.

(** Moving the first object of a bucket to the ones handed out. *)
Lemma small_take objs out i o l : 0 <= i < BUCKET_COUNT -> objs i = o :: l ->
  small_ranges objs out ≡ₚ small_ranges (objs.[i <- l]) ((o, bucket_sizes i) :: out).
Proof.
  intros Hi Eo. unfold small_ranges. cbn [app]. rewrite Permutation_middle. apply Permutation_app_head.
  assert (In i (seqZ 0 BUCKET_COUNT)) as Hin by (apply list_elem_of_In, elem_of_seqZ; lia).
  assert (List.NoDup (seqZ 0 BUCKET_COUNT)) as Hnd by (apply NoDup_ListNoDup, NoDup_seqZ).
  revert Hin Hnd. generalize (seqZ 0 BUCKET_COUNT). intros L Hin Hnd. apply in_split in Hin as (L1 & L2 & ->).
  apply NoDup_remove_2 in Hnd.
  assert (forall K, ~ In i K -> map (bucket_ranges (objs.[i <- l])) K = map (bucket_ranges objs) K) as Hk.
  { intros K HK. apply map_ext_in. intros j Hj. unfold bucket_ranges. rewrite upd_ne; [done|]. intros ->. done. }
  rewrite !map_app, !concat_app. cbn [map concat]. rewrite !Hk by (rewrite in_app_iff in Hnd; tauto).
  replace (bucket_ranges objs i) with ((o, bucket_sizes i) :: bucket_ranges (objs.[i <- l]) i)
    by (unfold bucket_ranges; by rewrite upd_eq, Eo).
  cbn [app]. by rewrite <- Permutation_middle.
Qed.

(** ** The invariant *)

Section heap.
Context {P : Type} `{HP : Pages P} `{HL : !PagesLaws P}.
Variable hhdm : Z.
Implicit Types s : heap P.

(** [l]: the blocks; [pg]: those carved into small objects; [objs]: the free
    objects of each bucket; [out]: the objects handed out. *)
Record heap_ok (s : heap P) (l : list blk) (pg : list Z) (objs : Z -> list Z) (out : list (Z * Z)) : Prop := {
  hk_list : exists q, dseg (hm s) 0 (heap_head s) l q 0;
  hk_apart : apart l;
  hk_align : forall b, In b l -> ba b mod HEAP_ALIGN = 0 /\ bs b mod HEAP_ALIGN = 0;
  hk_own : forall b a, In b l -> ba b <= a < bend b ->
    exists r k, pages_owned (pages s) r k /\ r + hhdm <= a < r + k + hhdm;
  hk_pages : pages_ok (pages s);
  hk_objs : forall i, 0 <= i < BUCKET_COUNT -> oseg (hm s) (buckets s i) (objs i);
  hk_sep : ForallOrdPairs clear (small_ranges objs out);
  hk_home : forall a n, In (a, n) (small_ranges objs out) -> exists b, In b l /\ bf b = false /\ In (ba b) pg /\
    ba b + HDR <= a /\ a + n <= bend b
}.

Lemma apart_off l x y : apart l -> In x l -> In y l -> x = y \/ off x y.
Proof using Type.
  induction l as [|b l IH]; [done|]. intros (_ & Ho & Ha) [->|Hx] [->|Hy]; auto. right. apply off_sym. auto.
Qed.

Lemma bucket_size_min i : 0 <= i < BUCKET_COUNT -> 8 <= bucket_sizes i <= 4096.
Proof using Type.
  unfold BUCKET_COUNT. intros Hi.
  assert (i = 0 \/ i = 1 \/ i = 2 \/ i = 3 \/ i = 4 \/ i = 5 \/ i = 6 \/ i = 7 \/ i = 8 \/ i = 9) as Hk by lia.
  repeat destruct Hk as [->|Hk]; try subst i; vm_compute; split; discriminate.
Qed.

Lemma obj_small objs out i o : 0 <= i < BUCKET_COUNT -> In o (objs i) ->
  In (o, bucket_sizes i) (small_ranges objs out).
Proof using Type.
  intros Hi Ho. apply in_or_app. right. apply in_concat. exists (bucket_ranges objs i). split.
  - apply in_map, list_elem_of_In, elem_of_seqZ. lia.
  - by apply (in_map (fun o => (o, bucket_sizes i))).
Qed.

(** A payload byte of a block is in no header. *)
Lemma payload_clear l b a : apart l -> In b l -> ba b + HDR <= a < bend b -> ~ in_headers l a.
Proof using Type.
  intros Ha Hb Hr (x & Hx & Hc). destruct (apart_off l x b Ha Hx Hb) as [->|[O|O]]; [lia|..];
    pose proof (apart_in _ _ Ha Hx) as (_ & ? & _); unfold bend, HDR in *; lia.
Qed.

(** Writes to headers of a list that has the carved blocks keep the buckets. *)
Lemma objs_keep s l pg objs out L m' i :
  heap_ok s l pg objs out -> apart L -> (forall b, In b l -> bf b = false -> In (ba b) pg -> In b L) ->
  (forall a, ~ in_headers L a -> m' a = hm s a) -> 0 <= i < BUCKET_COUNT -> oseg m' (buckets s i) (objs i).
Proof using Type.
  intros K Ha Hpg Hm Hi. apply (oseg_frame (hm s)); [|by apply (hk_objs _ _ _ _ _ K)].
  intros o Ho a Har. apply Hm. pose proof (bucket_size_min i Hi).
  destruct (hk_home _ _ _ _ _ K _ _ (obj_small objs out i o Hi Ho)) as (b & Hb & Hf & Hp & L1 & L2).
  apply (payload_clear L b); auto. lia.
Qed.

(** Taking a free block. *)
Lemma alloc_step s s' l1 b l2 pg objs out size :
  heap_ok s (l1 ++ b :: l2) pg objs out -> bf b = true -> 0 <= size <= bs b -> size mod HEAP_ALIGN = 0 ->
  hm s' = take_block size (ba b) (hm s) -> heap_head s' = heap_head s -> buckets s' = buckets s ->
  pages s' = pages s ->
  let l' := l1 ++ split_blk b size ++ l2 in
  heap_ok s' l' pg objs out /\
  (forall x, In x (l1 ++ b :: l2) -> bf x = false -> In x l' /\ same_on (hm s) (hm s') (ba x + HDR) (bs x)) /\
  exists n, size <= n /\ In {| ba := ba b; bs := n; bf := false |} l'.
Proof using Type.
  intros K Hbf Hs Hal Em Eh Eb Ep. cbv zeta. destruct (hk_list _ _ _ _ _ K) as [q Hd].
  destruct (take_ok (hm s) (heap_head s) l1 b l2 q size Hd (hk_apart _ _ _ _ _ K) Hs) as (Hd' & Ha' & Hm).
  cbv zeta in Hd', Ha', Hm. rewrite <- Em in Hd', Hm.
  assert (In b (l1 ++ b :: l2)) as Hin by (apply in_or_app; right; by left).
  pose proof (apart_in _ _ (hk_apart _ _ _ _ _ K) Hin) as Hbok.
  assert (forall x, In x (l1 ++ b :: l2) -> bf x = false -> In x (l1 ++ split_blk b size ++ l2)) as Hkeep.
  { intros x Hx Hxf. apply in_app_or in Hx as [Hx|[->|Hx]]; [apply in_or_app; by left|congruence|].
    apply in_or_app. right. apply in_or_app. by right. }
  assert (forall x, In x (l1 ++ split_blk b size ++ l2) -> In x (l1 ++ b :: l2) \/ In x (split_blk b size)) as Hnew.
  { intros x [Hx|[Hx|Hx]%in_app_or]%in_app_or; auto; left; apply in_or_app; [by left|right; by right]. }
  split_and!.
  - split; rewrite ?Eh, ?Eb, ?Ep; auto.
    + intros x [Hx|Hx]%Hnew; [by apply (hk_align _ _ _ _ _ K)|].
      destruct (hk_align _ _ _ _ _ K b Hin) as [A1 A2]. unfold split_blk, HEAP_ALIGN, HDR in *.
      destruct (_ <? _); cbn in Hx; [destruct Hx as [<-|[<-|[]]]|destruct Hx as [<-|[]]]; cbn; try done.
      clear -A1 A2 Hal. Z.to_euclidean_division_equations. lia.
    + intros x a [Hx|Hx]%Hnew Har; [by apply (hk_own _ _ _ _ _ K x)|].
      destruct (split_range b size x Hs Hbok Hx). apply (hk_own _ _ _ _ _ K b); auto. lia.
    + apply (hk_pages _ _ _ _ _ K).
    + intros i Hi. apply (objs_keep s (l1 ++ b :: l2) pg objs out (l1 ++ split_blk b size ++ l2)); auto.
    + apply (hk_sep _ _ _ _ _ K).
    + intros a n Han. destruct (hk_home _ _ _ _ _ K a n Han) as (x & X1 & X2 & X3). exists x. auto.
  - intros x Hx Hxf. split; [auto|]. intros c Hc. apply Hm. apply (payload_clear _ x); auto.
  - unfold split_blk. destruct (_ <? _).
    + exists size. split; [lia|]. apply in_or_app. right. by left.
    + exists (bs b). split; [lia|]. apply in_or_app. right. by left.
Qed.

Definition covers (l : list blk) (x : blk) : Prop :=
  forall a, ba x <= a < bend x -> exists y, In y l /\ ba y <= a < bend y.

Lemma join_covers b l x : snug b l -> (forall y, In y (b :: l) -> ba y mod HEAP_ALIGN = 0 /\ bs y mod HEAP_ALIGN = 0) ->
  In x (join_next b l) -> covers (b :: l) x /\ ba x mod HEAP_ALIGN = 0 /\ bs x mod HEAP_ALIGN = 0.
Proof using Type.
  intros Hsn Hal Hx. assert (In x (b :: l) -> covers (b :: l) x /\ ba x mod HEAP_ALIGN = 0 /\ bs x mod HEAP_ALIGN = 0) as Hold.
  { intros Hin. split; [|auto]. intros a Ha. by exists x. }
  destruct l as [|y l]; [auto|]. cbn [join_next] in Hx. destruct (bf y) eqn:E; [|auto].
  destruct Hx as [<-|Hx]; [|apply Hold; by right; right]. specialize (Hsn E).
  destruct (Hal b (or_introl eq_refl)) as [A1 A2], (Hal y (or_intror (or_introl eq_refl))) as [A3 A4]. split.
  - intros a Ha. destruct (decide (a < bend b)); [exists b; split; [by left|cbn in Ha; lia]|].
    exists y. split; [right; by left|]. unfold bend, join in *. cbn in Ha. lia.
  - unfold join, HEAP_ALIGN, HDR in *. cbn. split; [done|]. clear -A2 A4. Z.to_euclidean_division_equations. lia.
Qed.

Lemma join_keep b l y : In y l -> bf y = false -> In y (join_next b l).
Proof using Type.
  intros Hy Hf. destruct l as [|z l]; [done|]. cbn [join_next]. destruct (bf z) eqn:E; [|by right].
  destruct Hy as [->|Hy]; [congruence|by right].
Qed.

Lemma join_head b l : (forall y, In y l -> 0 <= bs y) ->
  exists f r, join_next b l = f :: r /\ ba f = ba b /\ bf f = bf b /\ bend b <= bend f.
Proof using Type.
  intros Hs. destruct l as [|y l]; cbn [join_next]; [exists b, []; split_and!; auto; lia|].
  destruct (bf y); [|exists b, (y :: l); split_and!; auto; lia]. exists (join b y), l.
  pose proof (Hs y (or_introl eq_refl)). unfold bend, join, HDR. cbn. split_and!; auto; lia.
Qed.

Lemma covers_trans l l' x : (forall y, In y l' -> covers l y) -> covers l' x -> covers l x.
Proof using Type. intros H1 H2 a Ha. destruct (H2 a Ha) as (y & Hy & Hr). by apply (H1 y). Qed.

Definition aligned (x : blk) : Prop := ba x mod HEAP_ALIGN = 0 /\ bs x mod HEAP_ALIGN = 0.

(** The list after a free: covered by the old one, with the used blocks kept
    and the freed one inside a free block. *)
Lemma free_result_ok l1 b l2 :
  (forall x, In x (l1 ++ b :: l2) -> aligned x /\ 0 <= bs x) -> snug_free l1 b l2 ->
  (forall x, In x (free_result l1 b l2) -> covers (l1 ++ b :: l2) x /\ aligned x) /\
  (forall y, In y (l1 ++ l2) -> bf y = false -> In y (free_result l1 b l2)) /\
  exists f, In f (free_result l1 b l2) /\ bf f = true /\ ba f <= ba b /\ bend b <= bend f.
Proof using Type.
  intros Hal [Hs1 Hs2]. set (b1 := used_to_free b).
  assert (forall x, In x (b1 :: l2) -> covers (l1 ++ b :: l2) x /\ aligned x) as Hb1.
  { intros x Hx. assert (exists y, In y (l1 ++ b :: l2) /\ ba y = ba x /\ bs y = bs x) as (y & Hy & Ea & Es).
    { destruct Hx as [<-|Hx]; [exists b|exists x]; split; auto; apply in_or_app; right; [by left|by right]. }
    destruct (Hal y Hy) as [Hay _]. unfold aligned, covers, bend in *. rewrite <- Ea, <- Es. split; [|done].
    intros a Ha. exists y. split; [done|lia]. }
  assert (forall x, In x (join_next b1 l2) -> covers (l1 ++ b :: l2) x /\ aligned x) as Hj.
  { intros x Hx. destruct (join_covers b1 l2 x) as [C A]; auto.
    - intros y Hy. by apply Hb1.
    - split; [|done]. apply (covers_trans _ (b1 :: l2)); auto. intros y Hy. by apply Hb1. }
  assert (forall x, In x l1 -> covers (l1 ++ b :: l2) x /\ aligned x) as Hl1.
  { intros x Hx. assert (In x (l1 ++ b :: l2)) as Hin by (apply in_or_app; by left). split; [|by apply Hal].
    intros a Ha. by exists x. }
  destruct (join_head b1 l2) as (f & r & Ef & Fa & Ff & Fe).
  { intros y Hy. apply (Hal y). apply in_or_app. right. by right. }
  unfold free_result. fold b1. destruct l1 as [|x l0 _] using rev_ind.
  { cbn [rev app]. split_and!; [exact Hj|intros; by apply join_keep|]. exists f. rewrite Ef.
    split_and!; [by left|done|rewrite Fa; done|exact Fe]. }
  rewrite rev_app_distr in *. cbn [rev app] in *. rewrite rev_involutive.
  destruct (bf x) eqn:Ex.
  - assert (snug x (join_next b1 l2)) as Hsx by (rewrite Ef; intros _; rewrite Fa; by apply Hs2).
    assert (forall y, In y (x :: join_next b1 l2) -> covers ((l0 ++ [x]) ++ b :: l2) y /\ aligned y) as Hxj.
    { intros y [<-|Hy]; [apply Hl1, in_or_app; right; by left|auto]. }
    split_and!.
    + intros y [Hy|Hy]%in_app_or; [apply Hl1, in_or_app; by left|].
      destruct (join_covers x (join_next b1 l2) y) as [C A]; auto; [intros z Hz; by apply Hxj|].
      split; [|done]. apply (covers_trans _ (x :: join_next b1 l2)); auto. intros z Hz. by apply Hxj.
    + intros y Hy Hyf. rewrite <- app_assoc in Hy. apply in_app_or in Hy as [Hy|[<-|Hy]]; [apply in_or_app; by left|congruence|].
      apply in_or_app. right. by apply join_keep, Hyf; apply join_keep.
    + rewrite Ef. cbn [join_next]. change (bf b1) with true in Ff. rewrite Ff. exists (join x f).
      split; [apply in_or_app; right; by left|]. split; [done|]. specialize (Hs2 eq_refl).
      change (ba b1) with (ba b) in Fa. change (bend b1) with (bend b) in Fe.
      destruct (Hal x) as [_ ?]; [apply in_or_app; left; apply in_or_app; right; by left|].
      unfold bend, join, HDR in *. cbn. lia.
  - split_and!.
    + intros y [Hy|Hy]%in_app_or; auto.
    + intros y [Hy|Hy]%in_app_or Hyf; apply in_or_app; [by left|right; by apply join_keep].
    + exists f. rewrite Ef. split_and!; [apply in_or_app; right; by left|done|rewrite Fa; done|exact Fe].
Qed.

(** Freeing a used block that is not carved. *)
Lemma free_step s s' l1 b l2 pg objs out :
  heap_ok s (l1 ++ b :: l2) pg objs out -> ~ In (ba b) pg -> snug_free l1 b l2 ->
  hm s' = merge_prev (ba b) (merge_next (ba b) (set_free (ba b) true (hm s))) ->
  heap_head s' = heap_head s -> buckets s' = buckets s -> pages s' = pages s ->
  let l' := free_result l1 b l2 in
  heap_ok s' l' pg objs out /\
  (forall x, In x (l1 ++ l2) -> bf x = false -> In x l' /\ same_on (hm s) (hm s') (ba x + HDR) (bs x)) /\
  exists f, In f l' /\ bf f = true /\ ba f <= ba b /\ bend b <= bend f.
Proof using Type.
  intros K Hpg Hsn Em Eh Eb Ep. cbv zeta. destruct (hk_list _ _ _ _ _ K) as [q Hd]. pose proof (hk_apart _ _ _ _ _ K) as Ha.
  destruct (free_ok (hm s) (heap_head s) l1 b l2 q Hd Ha Hsn) as (Hd' & Ha' & Hm).
  cbv zeta in Hd', Ha', Hm. rewrite <- Em in Hd', Hm.
  destruct (free_result_ok l1 b l2) as (R1 & R2 & R3); auto.
  { intros x Hx. split; [by apply (hk_align _ _ _ _ _ K)|]. apply (apart_in _ x Ha Hx). }
  assert (forall x, In x (l1 ++ l2) -> In x (l1 ++ b :: l2)) as Hin.
  { intros x [Hx|Hx]%in_app_or; apply in_or_app; [by left|right; by right]. }
  assert (forall x, In x (l1 ++ b :: l2) -> In (ba x) pg -> In x (l1 ++ l2)) as Hother.
  { intros x [Hx|[->|Hx]]%in_app_or Hp; [apply in_or_app; by left|done|apply in_or_app; by right]. }
  split_and!; [|intros x Hx Hxf; split; [auto|]|done].
  - split; rewrite ?Eh, ?Eb, ?Ep; auto.
    + intros x Hx. by apply R1.
    + intros x a Hx Har. destruct (R1 x Hx) as [C _]. destruct (C a Har) as (y & Hy & Hya).
      by apply (hk_own _ _ _ _ _ K y).
    + apply (hk_pages _ _ _ _ _ K).
    + intros i Hi. apply (objs_keep s (l1 ++ b :: l2) pg objs out (l1 ++ b :: l2)); auto.
    + apply (hk_sep _ _ _ _ _ K).
    + intros a n Han. destruct (hk_home _ _ _ _ _ K a n Han) as (x & X1 & X2 & X3 & X4 & X5). exists x.
      split_and!; auto.
  - intros c Hc. apply Hm. apply (payload_clear _ x); auto.
Qed.

(** Adding a region of pages. *)
Lemma expand_view s fuel phys p :
  pages_alloc HEAP_EXPAND_PAGES (pages s) = (phys, p) -> phys <> 0 ->
  let nb := phys_to_virt hhdm phys in
  let m5 := fresh_header nb (HEAP_EXPAND_PAGES * PAGE_SIZE - HDR) (hm s) in
  let last := list_last fuel (heap_head s) m5 in
  let s' := snd (heap_expand hhdm fuel s) in
  fst (heap_expand hhdm fuel s) = true /\ pages s' = p /\ buckets s' = buckets s /\
  heap_head s' = (if heap_head s =? 0 then nb else heap_head s) /\
  hm s' = if heap_head s =? 0 then m5 else set_prev nb last (set_next last nb m5).
Proof using Type.
  intros Ep Hp. cbv zeta. unfold heap_expand. rewrite Ep. rewrite (proj2 (Z.eqb_neq _ _) Hp). cbn [fst snd].
  change (heap_head (s <| pages := p |>)) with (heap_head s). by destruct (heap_head s =? 0).
Qed.

Lemma region_apart s l pg objs out p phys k b :
  heap_ok s l pg objs out -> blk_ok b ->
  (forall a j, pages_owned (pages s) a j -> a + j <= phys \/ phys + k <= a) ->
  phys + hhdm <= ba b -> bend b <= phys + k + hhdm -> pages s = p -> apart (l ++ [b]).
Proof using Type.
  intros K Hb Hfresh L U Ep. apply apart_app.
  split_and!; [apply (hk_apart _ _ _ _ _ K)|cbn; split_and!; [apply Hb..|done|done]|].
  intros x y Hx [<-|[]]. destruct (apart_in _ _ (hk_apart _ _ _ _ _ K) Hx) as (X1 & X2 & X3), Hb as (B1 & B2 & B3).
  destruct (decide (bend x <= ba b)) as [|H1]; [by left|]. destruct (decide (bend b <= ba x)) as [|H2]; [by right|]. exfalso.
  destruct (hk_own _ _ _ _ _ K x (Z.max (ba x) (ba b)) Hx) as (r & k0 & O1 & O2).
  { unfold bend, HDR in *. lia. }
  destruct (Hfresh _ _ O1) as [F|F]; unfold bend, HDR in *; lia.
Qed.

Lemma expand_step s l pg objs out fuel :
  heap_ok s l pg objs out -> (length l <= fuel)%nat -> 0 <= hhdm -> hhdm mod HEAP_ALIGN = 0 ->
  (forall r k, pages_owned (snd (pages_alloc HEAP_EXPAND_PAGES (pages s))) r k -> r + k + hhdm <= 2 ^ 64 - HEAP_ALIGN) ->
  let phys := fst (pages_alloc HEAP_EXPAND_PAGES (pages s)) in
  let s' := snd (heap_expand hhdm fuel s) in
  if phys =? 0 then fst (heap_expand hhdm fuel s) = false /\ heap_ok s' l pg objs out /\ hm s' = hm s
  else fst (heap_expand hhdm fuel s) = true /\
    let nb := {| ba := phys + hhdm; bs := HEAP_EXPAND_PAGES * PAGE_SIZE - HDR; bf := true |} in
    heap_ok s' (l ++ [nb]) pg objs out /\ forall x, In x l -> same_on (hm s) (hm s') (ba x + HDR) (bs x).
Proof using HL.
  intros K Hf Hh0 Hh Hmap. cbv zeta.
  destruct (pages_alloc HEAP_EXPAND_PAGES (pages s)) as [phys p] eqn:Ep. cbn [fst snd] in *.
  destruct (pages_law HEAP_EXPAND_PAGES (pages s) phys p (hk_pages _ _ _ _ _ K) ltac:(done) Ep) as (Pok & Pkeep & Pnew).
  destruct (Z.eqb_spec phys 0) as [Hp0|Hp0].
  { unfold heap_expand. rewrite Ep, Hp0. cbn [Z.eqb fst snd]. split_and!; try done. destruct K. split; auto.
    intros x a Hx Hr. destruct (hk_own0 x a Hx Hr) as (r & k & O & ?). exists r, k. auto. }
  destruct (Pnew Hp0) as (Pal & Ppos & k & Hk & Hown & Hfresh). pose proof (Hmap _ _ Hown) as Hlim.
  destruct (expand_view s fuel phys p Ep Hp0) as (V1 & V2 & V3 & V4 & V5). cbv zeta in V4, V5.
  assert (HDR = 48 /\ HEAP_ALIGN = 16 /\ HEAP_EXPAND_PAGES = 4096 /\ PAGE_SIZE = 4096) as (EH & EA & EX & EP) by done.
  unfold phys_to_virt in V4, V5. rewrite (wrap_small 64 (phys + hhdm)) in V4, V5 by lia.
  set (s' := snd (heap_expand hhdm fuel s)) in *. clearbody s'. split; [done|].
  set (b := {| ba := phys + hhdm; bs := HEAP_EXPAND_PAGES * PAGE_SIZE - HDR; bf := true |}).
  assert (blk_ok b) as Hb by (unfold blk_ok, bend, b; cbn [ba bs]; lia).
  assert (apart (l ++ [b])) as Ha.
  { apply (region_apart s l pg objs out (pages s) phys k b); auto; unfold bend, b; cbn [ba bs]; lia. }
  destruct (hk_list _ _ _ _ _ K) as [q Hd].
  destruct (append_ok fuel (hm s) (heap_head s) l q b Hd Ha eq_refl Hf) as [Hd' Hm]. cbv zeta in Hd', Hm.
  change (fresh_header (ba b) (bs b) (hm s)) with (fresh_header (phys + hhdm) (HEAP_EXPAND_PAGES * PAGE_SIZE - HDR) (hm s)) in Hd', Hm.
  change (ba b) with (phys + hhdm) in Hd', Hm. rewrite <- V5 in Hd', Hm. rewrite <- V4 in Hd'. split.
  - split; rewrite ?V2, ?V3; auto.
    + intros x [Hx|[<-|[]]]%in_app_or; [by apply (hk_align _ _ _ _ _ K)|]. unfold b. cbn [ba bs].
      rewrite EH, EA, EX, EP in *. clear -Pal Hh. Z.to_euclidean_division_equations. lia.
    + intros x a [Hx|[<-|[]]]%in_app_or Har.
      * destruct (hk_own _ _ _ _ _ K x a Hx Har) as (r & k0 & O & ?). exists r, k0. auto.
      * exists phys, k. split; [done|]. unfold bend, b in Har. cbn [ba bs] in Har. lia.
    + intros i Hi. apply (objs_keep s l pg objs out (l ++ [b])); auto. intros x Hx _ _. apply in_or_app. by left.
    + apply (hk_sep _ _ _ _ _ K).
    + intros a n Han. destruct (hk_home _ _ _ _ _ K a n Han) as (x & X1 & X2). exists x. split; [apply in_or_app; by left|done].
  - intros x Hx c Hc. apply Hm. apply (payload_clear _ x); auto. apply in_or_app. by left.
Qed.

(** ** Large requests *)

Lemma align_up_ok size : 0 <= size < 2 ^ 64 - 16 ->
  let sz := align_up size HEAP_ALIGN in sz mod HEAP_ALIGN = 0 /\ size <= sz < size + 16.
Proof using Type.
  intros Hs. cbv zeta. unfold align_up, HEAP_ALIGN. rewrite (wrap_small 64) by lia.
  change (u64 (Z.lnot (16 - 1))) with (Z.shiftl (Z.ones 60) 4). rewrite land_field by lia.
  change (2 ^ 4) with 16. rewrite (Z.mod_small _ (2 ^ 60)).
  2: { split; [apply Z.div_pos; lia|apply Z.div_lt_upper_bound; lia]. }
  Z.to_euclidean_division_equations. lia.
Qed.

(** [r] is the payload of a fresh block of at least [size] bytes, apart from
    every block in use before, and those are unchanged. *)
Definition served (s : heap P) (l : list blk) (pg : list Z) (objs : Z -> list Z) (out : list (Z * Z))
    (size r : Z) (s' : heap P) : Prop :=
  exists l' n, heap_ok s' l' pg objs out /\ In {| ba := r - HDR; bs := n; bf := false |} l' /\ size <= n /\
    r mod HEAP_ALIGN = 0 /\ HDR < r /\
    forall x, In x l -> bf x = false ->
      In x l' /\ off x {| ba := r - HDR; bs := n; bf := false |} /\ same_on (hm s) (hm s') (ba x + HDR) (bs x).

Lemma fit_served s s' l pg objs out size b :
  heap_ok s l pg objs out -> List.find (fits size) l = Some b -> 0 <= size -> size mod HEAP_ALIGN = 0 ->
  hm s' = take_block size (ba b) (hm s) -> heap_head s' = heap_head s -> buckets s' = buckets s ->
  pages s' = pages s -> served s l pg objs out size (u64 (ba b + HDR)) s'.
Proof using Type.
  intros K Hfind Hs0 Hal Em Eh Eb Ep. apply find_split in Hfind as [Hfit (l1 & l2 & ->)].
  apply andb_true_iff in Hfit as [Hbf Hsz%Z.leb_le].
  destruct (alloc_step s s' l1 b l2 pg objs out size) as (K' & Hkeep & n & Hn & Hin); auto.
  assert (In b (l1 ++ b :: l2)) as Hb by (apply in_or_app; right; by left).
  pose proof (hk_apart _ _ _ _ _ K) as Ha. destruct (apart_in _ _ Ha Hb) as (B1 & B2 & B3).
  destruct (hk_align _ _ _ _ _ K b Hb) as [A1 _]. unfold bend, HDR, HEAP_ALIGN in *.
  rewrite wrap_small by lia. exists (l1 ++ split_blk b size ++ l2), n. unfold HDR.
  replace (ba b + 48 - 48) with (ba b) by lia. split_and!; auto; try lia.
  - unfold HEAP_ALIGN. clear -A1. Z.to_euclidean_division_equations. lia.
  - intros x Hx Hxf. destruct (Hkeep x Hx Hxf) as [Hx' Hsame]. split_and!; auto.
    destruct (apart_off _ _ _ (hk_apart _ _ _ _ _ K') Hx' Hin) as [E|]; [|done]. exfalso.
    destruct (apart_off _ _ _ Ha Hx Hb) as [->|[O|O]]; [congruence|..];
      destruct (apart_in _ _ Ha Hx) as (_ & ? & _); subst x; unfold bend, HDR in O; cbn in O; lia.
Qed.

Lemma kmalloc_main_ok fuel tries sz s l pg objs out :
  heap_ok s l pg objs out -> 0 <= sz <= HEAP_EXPAND_PAGES * PAGE_SIZE - HDR -> sz mod HEAP_ALIGN = 0 ->
  (length l <= fuel)%nat -> (1 <= tries)%nat -> 0 <= hhdm -> hhdm mod HEAP_ALIGN = 0 ->
  (forall r k, pages_owned (snd (pages_alloc HEAP_EXPAND_PAGES (pages s))) r k -> r + k + hhdm <= 2 ^ 64 - HEAP_ALIGN) ->
  let '(r, s') := kmalloc_main hhdm fuel tries sz s in
  served s l pg objs out sz r s' \/
  (r = 0 /\ List.find (fits sz) l = None /\ fst (pages_alloc HEAP_EXPAND_PAGES (pages s)) = 0 /\
   heap_ok s' l pg objs out /\ hm s' = hm s).
Proof using HL.
  intros K Hsz Hal Hf Ht Hh0 Hh Hmap. destruct tries as [|tries]; [lia|]. cbn [kmalloc_main].
  destruct (hk_list _ _ _ _ _ K) as [q Hd].
  rewrite (first_fit_ok fuel sz (hm s) 0 (heap_head s) l q Hd (hk_apart _ _ _ _ _ K) Hf).
  destruct (List.find (fits sz) l) as [b|] eqn:E.
  { left. by apply (fit_served s _ l pg objs out sz b); try done; lia. }
  pose proof (expand_step s l pg objs out fuel K Hf Hh0 Hh Hmap) as X. cbv zeta in X.
  destruct (heap_expand hhdm fuel s) as [ok s1] eqn:Ex. cbn [fst snd] in X.
  set (phys := fst (pages_alloc HEAP_EXPAND_PAGES (pages s))) in *.
  destruct (Z.eqb_spec phys 0) as [Hp|Hp]; [destruct X as (-> & K1 & Hm); right; auto|].
  destruct X as (-> & K1 & Hsame). set (nb := {| ba := phys + hhdm; bs := _; bf := true |}) in *.
  assert (exists b, List.find (fits sz) (l ++ [nb]) = Some b) as [b Eb].
  { destruct (List.find (fits sz) (l ++ [nb])) as [b|] eqn:E2; [eauto|].
    eapply find_none in E2; [|apply in_or_app; right; by left]. unfold fits, nb in E2. cbn [bf bs andb] in E2.
    rewrite (proj2 (Z.leb_le _ _)) in E2 by lia. done. }
  destruct (hk_list _ _ _ _ _ K1) as [q1 Hd1].
  assert (first_fit (S fuel) sz (heap_head s1) (hm s1) = Fit (ba b)) as Eff.
  { rewrite (first_fit_ok (S fuel) sz (hm s1) 0 _ (l ++ [nb]) q1 Hd1 (hk_apart _ _ _ _ _ K1)).
    - by rewrite Eb.
    - rewrite length_app. cbn. lia. }
  assert (kmalloc_main hhdm (S fuel) tries sz s1 = (u64 (ba b + HDR), s1 <| hm := take_block sz (ba b) (hm s1) |>
    <| stat_alloc_count := u64 (stat_alloc_count s1 + 1) |>)) as -> by (destruct tries; cbn [kmalloc_main]; by rewrite Eff).
  cbv beta iota. left.
  destruct (fit_served s1 (s1 <| hm := take_block sz (ba b) (hm s1) |> <| stat_alloc_count := u64 (stat_alloc_count s1 + 1) |>)
    (l ++ [nb]) pg objs out sz b K1 Eb) as (l' & n & S1 & S2 & S3 & S4 & S5 & S6); try done; try lia.
  exists l', n. split_and!; auto. intros x Hx Hxf. destruct (S6 x) as (X1 & X2 & X3); [apply in_or_app; by left|done|].
  split_and!; auto. intros c Hc. by rewrite X3, (Hsame x Hx).
Qed.

(** ** Small requests *)

(** Writing inside the payload of a used block, away from the small objects. *)
Lemma payload_write s s' l pg objs out c :
  heap_ok s l pg objs out -> In c l ->
  (forall a, a < ba c + HDR \/ bend c <= a -> hm s' a = hm s a) ->
  (forall i o, 0 <= i < BUCKET_COUNT -> In o (objs i) -> same_on (hm s) (hm s') o 8) ->
  heap_head s' = heap_head s -> buckets s' = buckets s -> pages s' = pages s ->
  heap_ok s' l pg objs out.
Proof using Type.
  intros K Hc Hm Hobj Eh Eb Ep. destruct K as [A B C D E F G I]. split; rewrite ?Eh, ?Eb, ?Ep; auto.
  - destruct A as [q A]. exists q. eapply dseg_frame; [|exact A]. intros x Hx a Ha. apply Hm.
    destruct (apart_off l x c B Hx Hc) as [->|[O|O]]; [left; lia|..]; destruct (apart_in _ _ B Hx) as (_ & ? & _);
      unfold bend, HDR in *; lia.
  - intros i Hi. eapply oseg_frame; [|by apply F]. eauto.
Qed.

Lemma small_ranges_ext objs objs' out : (forall i, objs' i = objs i) -> small_ranges objs' out = small_ranges objs out.
Proof using Type.
  intros E. unfold small_ranges, bucket_ranges. f_equal. f_equal. apply map_ext. intros i. by rewrite E.
Qed.

Lemma small_push objs out i o : 0 <= i < BUCKET_COUNT ->
  small_ranges (objs.[i <- o :: objs i]) out ≡ₚ (o, bucket_sizes i) :: small_ranges objs out.
Proof using Type.
  intros Hi. rewrite (small_take _ out i o (objs i) Hi) by (by rewrite upd_eq).
  match goal with |- small_ranges ?f _ ≡ₚ _ => change (small_ranges f ((o, bucket_sizes i) :: out))
    with ((o, bucket_sizes i) :: small_ranges f out) end.
  rewrite (small_ranges_ext objs); [done|]. intros j. unfold upd. by destruct (Z.eqb_spec j i) as [->|].
Qed.

(** One round of carving. *)
Lemma push_ok s l pg objs out c idx o :
  heap_ok s l pg objs out -> In c l -> bf c = false -> In (ba c) pg -> 0 <= idx < BUCKET_COUNT ->
  ba c + HDR <= o -> o + bucket_sizes idx <= bend c ->
  (forall x, In x (small_ranges objs out) -> clear (o, bucket_sizes idx) x) ->
  heap_ok (s <| hm := store 8 o (buckets s idx) (hm s) |> <| buckets := (buckets s).[idx <- o] |>)
          l pg (objs.[idx <- o :: objs idx]) out.
Proof using Type.
  intros K Hc Hcf Hpg Hidx Hlo Hhi Hclear. pose proof (bucket_size_min idx Hidx) as Hmin.
  set (m' := store 8 o (buckets s idx) (hm s)).
  assert (forall a, a < o \/ o + 8 <= a -> m' a = hm s a) as Hm by (intros a Ha; apply store_outside; cbn; lia).
  assert (forall i x, 0 <= i < BUCKET_COUNT -> In x (objs i) -> same_on (hm s) m' x 8) as Hobj.
  { intros i x Hi Hx a Ha. apply Hm. pose proof (bucket_size_min i Hi).
    destruct (Hclear _ (obj_small objs out i x Hi Hx)) as [Q|Q]; cbn [fst snd] in Q; lia. }
  destruct (apart_in _ _ (hk_apart _ _ _ _ _ K) Hc) as (C1 & C2 & C3).
  assert (heap_ok (s <| hm := m' |>) l pg objs out) as [A B C D E F G I].
  { apply (payload_write s _ l pg objs out c); auto. intros a Ha. apply Hm. lia. }
  assert (word (buckets s idx)) as Hw.
  { pose proof (hk_objs _ _ _ _ _ K idx Hidx) as Hseg. destruct (objs idx) as [|x r] eqn:Eo; cbn in Hseg.
    - rewrite Hseg. unfold word. lia.
    - destruct Hseg as (-> & Hx & _).
      destruct (hk_home _ _ _ _ _ K x (bucket_sizes idx)) as (y & Hy & _ & _ & Y1 & Y2).
      { apply obj_small; [done|]. rewrite Eo. by left. }
      destruct (apart_in _ _ B Hy) as (? & ? & ?). unfold word, bend, HDR, HEAP_ALIGN in *. lia. }
  split; auto.
  - intros i Hi. change (hm (s <| hm := m' |> <| buckets := _ |>)) with m'.
    change (buckets (s <| hm := m' |> <| buckets := (buckets s).[idx <- o] |>)) with ((buckets s).[idx <- o]).
    destruct (decide (i = idx)) as [->|Hne]; [|rewrite !upd_ne by done; by apply F].
    rewrite !upd_eq. cbn [oseg]. split_and!; [done|unfold HDR in *; lia|]. unfold obj_next, m'.
    rewrite load_store_same by (by apply word_bytes). by apply F.
  - eapply sep_perm; [symmetry; by apply small_push|]. constructor; [|done]. by apply List.Forall_forall.
  - intros a n Han. apply (Permutation_in _ (small_push objs out idx o Hidx)) in Han as [[= <- <-]|Han]; [|by apply I].
    exists c. split_and!; auto.
Qed.

Lemma carve_ok n lo s l pg objs out c idx usable :
  heap_ok s l pg objs out -> In c l -> bf c = false -> In (ba c) pg -> 0 <= idx < BUCKET_COUNT -> 0 <= lo ->
  ba c + HDR <= usable -> usable + (lo + Z.of_nat n) * bucket_sizes idx <= bend c ->
  (forall x, In x (small_ranges objs out) ->
    fst x + snd x <= ba c + HDR \/ bend c <= fst x \/
    (ba c + HDR <= fst x /\ fst x + snd x <= usable + lo * bucket_sizes idx)) ->
  let s' := for_loop n lo (fun i s =>
    let obj := u64 (usable + i * bucket_sizes idx) in
    s <| hm := store 8 obj (buckets s idx) (hm s) |> <| buckets := (buckets s).[idx <- obj] |>) s in
  (exists objs', heap_ok s' l pg objs' out /\ ((0 < n)%nat -> objs' idx <> []) /\ (n = 0%nat -> objs' = objs)) /\
  (forall a, a < ba c + HDR \/ bend c <= a -> hm s' a = hm s a).
Proof using Type.
  revert lo s objs. induction n as [|n IH]; intros lo s objs K Hc Hcf Hpg Hidx H0 Hlo Hhi Hx; cbv zeta; cbn [for_loop].
  { split; [|done]. exists objs. split_and!; auto. lia. }
  pose proof (bucket_size_min idx Hidx) as Hmin. set (o := usable + lo * bucket_sizes idx).
  destruct (apart_in _ _ (hk_apart _ _ _ _ _ K) Hc) as (C1 & C2 & C3).
  assert (ba c + HDR <= o /\ o + bucket_sizes idx <= bend c) as [O1 O2] by (unfold o; split; nia).
  rewrite (wrap_small 64 o) by (unfold HDR, HEAP_ALIGN in *; lia).
  set (s1 := s <| hm := _ |> <| buckets := _ |>).
  assert (heap_ok s1 l pg (objs.[idx <- o :: objs idx]) out) as K1.
  { apply (push_ok s l pg objs out c); auto. intros x Hin. destruct (Hx x Hin) as [Q|[Q|[Q1 Q2]]]; unfold clear; cbn [fst snd]; lia. }
  destruct (IH (lo + 1) s1 (objs.[idx <- o :: objs idx]) K1) as [(objs' & K' & Hn & Hz) Hm']; auto; try lia.
  { intros x Hin. apply (Permutation_in _ (small_push objs out idx o Hidx)) in Hin as [<-|Hin]; cbn [fst snd].
    - right. right. unfold o. lia.
    - destruct (Hx x Hin) as [Q|[Q|[Q1 Q2]]]; [by left|right; by left|right; right; split; [done|lia]]. }
  split.
  - exists objs'. split_and!; auto; [|done]. intros _. destruct n as [|n]; [|apply Hn; lia].
    rewrite (Hz eq_refl), upd_eq. done.
  - intros a Ha. cbv zeta in Hm'. rewrite Hm' by done. unfold s1. change (hm (_ <| buckets := _ |>)) with (store 8 o (buckets s idx) (hm s)).
    apply store_outside. cbn. lia.
Qed.

Lemma memset_outside d v n m a : a < d \/ d + n <= a -> 0 <= n -> snd (memset d v n m) a = m a.
Proof using Type.
  intros Ha Hn. unfold memset. cbn [snd].
  apply (for_loop_ind (fun m' : mem => m' a = m a)); [|done]. intros i m' Hi Hm'. rewrite upd_ne; [done|lia].
Qed.

Lemma heap_ok_pg s l pg pg' objs out :
  (forall a, In a pg -> In a pg') -> heap_ok s l pg objs out -> heap_ok s l pg' objs out.
Proof using Type.
  intros Hp [A B C D E F G I]. split; auto. intros a n Han. destruct (I a n Han) as (b & ? & ? & ? & ?). exists b. auto.
Qed.

(** Small objects live outside a block that is apart from the used ones. *)
Lemma small_off s l pg objs out c x :
  heap_ok s l pg objs out -> 0 <= bs c -> (forall y, In y l -> bf y = false -> off y c) -> In x (small_ranges objs out) ->
  fst x + snd x <= ba c + HDR \/ bend c <= fst x.
Proof using Type.
  intros K Hc Hoff Hx. destruct x as [a n]. destruct (hk_home _ _ _ _ _ K a n Hx) as (y & Y1 & Y2 & _ & Y4 & Y5).
  destruct (apart_in _ _ (hk_apart _ _ _ _ _ K) Y1) as (_ & ? & _).
  destruct (Hoff y Y1 Y2) as [O|O]; cbn [fst snd]; unfold bend, HDR in *; lia.
Qed.

(** A bucket after a refill. *)
Lemma refill_ok fuel idx s l pg objs out :
  heap_ok s l pg objs out -> 0 <= idx < BUCKET_COUNT -> (length l <= fuel)%nat ->
  let s' := bucket_refill fuel idx s in
  exists l' pg' objs', heap_ok s' l' pg' objs' out /\
    (forall x, In x l -> bf x = false -> In x l' /\ same_on (hm s) (hm s') (ba x + HDR) (bs x)) /\
    (idx < 9 -> List.find (fits PAGE_SIZE) l <> None -> objs' idx <> []).
Proof using Type.
  intros K Hidx Hf. cbv zeta. unfold bucket_refill, heap_alloc_raw. cbv zeta.
  change (Z.land (u64 (PAGE_SIZE + 15)) (u64 (Z.lnot 15))) with PAGE_SIZE.
  destruct (hk_list _ _ _ _ _ K) as [q Hd].
  rewrite (first_fit_ok fuel PAGE_SIZE (hm s) 0 (heap_head s) l q Hd (hk_apart _ _ _ _ _ K) Hf).
  destruct (List.find (fits PAGE_SIZE) l) as [b|] eqn:E.
  2: { cbn [Z.eqb]. exists l, pg, objs. split_and!; auto. by intros x Hx Hxf. }
  set (ret := u64 (ba b + HDR)). set (s0 := s <| hm := take_block PAGE_SIZE (ba b) (hm s) |>).
  destruct (fit_served s s0 l pg objs out PAGE_SIZE b K E) as (l' & n & K0 & Hc & Hn & _ & Hr & Hkeep); try done.
  fold ret in Hc, Hr, Hkeep. set (c := {| ba := ret - HDR; bs := n; bf := false |}) in *.
  assert (HDR = 48 /\ PAGE_SIZE = 4096 /\ HEAP_ALIGN = 16) as (EH & EP & EA) by done.
  destruct (apart_in _ _ (hk_apart _ _ _ _ _ K0) Hc) as (C1 & C2 & C3).
  assert (ba c + HDR = ret /\ bend c = ret + n) as [Ec Ee] by (unfold bend, c; cbn; lia).
  assert (forall y, In y l -> bf y = false -> off y c) as Hoff by (intros y Hy Hyf; apply (Hkeep y Hy Hyf)).
  pose proof (fun x => small_off s l pg objs out c x K C2 Hoff) as Hsm.
  rewrite (proj2 (Z.eqb_neq ret 0)) by lia.
  set (s1 := s <| hm := snd (memset ret 0 PAGE_SIZE (take_block PAGE_SIZE (ba b) (hm s))) |>).
  assert (forall a, a < ba c + HDR \/ bend c <= a -> hm s1 a = hm s0 a) as Hm1.
  { intros a Ha. apply memset_outside; lia. }
  assert (heap_ok s1 l' (ba c :: pg) objs out) as K1.
  { apply (heap_ok_pg _ _ pg); [by right|]. apply (payload_write s0 s1 l' pg objs out c); auto.
    intros i o Hi Ho a Ha. apply Hm1. pose proof (bucket_size_min i Hi).
    destruct (Hsm _ (obj_small objs out i o Hi Ho)) as [Q|Q]; cbn [fst snd] in Q; lia. }
  pose proof (bucket_size_min idx Hidx) as Hmin.
  assert ((if bucket_sizes idx <? 8 then 8 else bucket_sizes idx) = bucket_sizes idx) as ->.
  { destruct (Z.ltb_spec (bucket_sizes idx) 8); lia. }
  rewrite (wrap_small 64 (ret + HEAP_ALIGN)) by (unfold bend in *; lia).
  set (cnt := (PAGE_SIZE - HEAP_ALIGN) / bucket_sizes idx).
  assert (0 <= cnt /\ cnt * bucket_sizes idx <= 4080) as [Hcnt0 Hcnt].
  { unfold cnt. rewrite EP, EA. change (4096 - 16) with 4080.
    pose proof (Z.mul_div_le 4080 (bucket_sizes idx)). pose proof (Z.div_pos 4080 (bucket_sizes idx)). lia. }
  destruct (carve_ok (Z.to_nat cnt) 0 s1 l' (ba c :: pg) objs out c idx (ret + HEAP_ALIGN) K1) as [(objs' & K' & Hne & _) Hm'];
    auto; try lia; [by left| |].
  { intros x Hx. destruct (Hsm x Hx) as [Q|Q]; [by left|right; by left]. }
  cbv zeta in Hm', K'. unfold carve. exists l', (ba c :: pg), objs'. split_and!; auto.
  - intros x Hx Hxf. destruct (Hkeep x Hx Hxf) as (X1 & X2 & X3). split; [done|]. intros a Ha.
    destruct (apart_in _ _ (hk_apart _ _ _ _ _ K) Hx) as (_ & ? & _).
    assert (a < ba c + HDR \/ bend c <= a) as Hout by (destruct X2 as [O|O]; unfold bend in *; lia).
    rewrite Hm', Hm1 by done. by apply X3.
  - intros H9 _. apply Hne. assert (1 <= cnt); [|lia]. unfold cnt. apply Z.div_le_lower_bound; [lia|].
    assert (bucket_sizes idx <= 2048); [|rewrite EP, EA; lia].
    assert (idx = 0 \/ idx = 1 \/ idx = 2 \/ idx = 3 \/ idx = 4 \/ idx = 5 \/ idx = 6 \/ idx = 7 \/ idx = 8) as Hk
      by (unfold BUCKET_COUNT in Hidx; lia).
    clear -Hk. repeat destruct Hk as [->|Hk]; try subst idx; vm_compute; discriminate.
Qed.

(** Handing out the first object of a bucket. *)
Lemma pop_ok s s' l pg objs out idx o r :
  heap_ok s l pg objs out -> 0 <= idx < BUCKET_COUNT -> objs idx = o :: r ->
  hm s' = hm s -> heap_head s' = heap_head s -> buckets s' = (buckets s).[idx <- obj_next o (hm s)] ->
  pages s' = pages s -> heap_ok s' l pg (objs.[idx <- r]) ((o, bucket_sizes idx) :: out).
Proof using Type.
  intros [A B C D E F G I] Hidx Eo Em Eh Eb Ep. pose proof (small_take objs out idx o r Hidx Eo) as Hp.
  split; rewrite ?Em, ?Eh, ?Eb, ?Ep; auto.
  - intros i Hi. destruct (decide (i = idx)) as [->|Hne]; [|rewrite !upd_ne by done; by apply F].
    rewrite !upd_eq. specialize (F idx Hidx). rewrite Eo in F. apply F.
  - by eapply sep_perm.
  - intros a n Han. apply I. eapply Permutation_in; [symmetry; exact Hp|done].
Qed.

End heap.

(** ** The page allocators *)

(** A page source that never reuses an address, for concrete examples. *)
Record bump := Bump { next_page : Z }.

#[export] Instance bump_pages : Pages bump := {
  pages_alloc n p := if next_page p + n * 4096 <=? 2 ^ 40 then (next_page p, Bump (next_page p + n * 4096)) else (0, p);
  pages_ok p := 4096 <= next_page p /\ next_page p mod 4096 = 0;
  pages_owned p a k := a + k <= next_page p <= 2 ^ 40
}.

#[export] Instance bump_pages_laws : PagesLaws bump.
Proof.
  split. intros n [p] r [p'] [H1 H2] Hn. cbn in *. destruct (Z.leb_spec (p + n * 4096) (2 ^ 40)); intros [= <- <-].
  - split_and!; [lia|rewrite Z.mod_add by lia; done|intros; lia|]. intros _. split_and!; [done|lia|].
    exists (n * 4096). split; [lia|]. split; [lia|]. intros a j Ha. left. lia.
  - split_and!; auto. done.
Qed.

(** The physical memory manager keeps the heap's contract. *)
#[export] Instance pmm_pages : Pages Pmm.pmm := {
  pages_alloc n s := Pmm.pmm_alloc_pages n s;
  pages_ok := PmmSpec.wf;
  pages_owned s a k := exists i, PmmClaims.holds s i a k
}.

#[export] Instance pmm_pages_laws : PagesLaws Pmm.pmm.
Proof.
  split. intros n p r p' W Hn E. unfold pages_alloc, pages_ok, pages_owned, pmm_pages in *.
  unfold Pmm.pmm_alloc_pages in E. pose proof E as E'.
  apply (PmmProps.alloc_internal_spec _ _ _ _ _ _ W) in E'. cbv zeta in E'.
  assert (u64 (n * Pmm.PAGE_SIZE) = n * 4096) as Ereq by (apply wrap_small; unfold Pmm.PAGE_SIZE; lia).
  assert (forall a k, (exists i, PmmClaims.holds p i a k) -> exists i, PmmClaims.holds p' i a k) as Hkeep.
  { intros a k [i Hi]. exists i. pose proof (PmmClaims.holds_alloc n Pmm.ZONE_NORMAL false p i a k W Hi) as Hh. by rewrite E in Hh. }
  destruct E' as [(-> & -> & _)|(Hr & W' & (i & A) & _)]; [split_and!; auto; done|]. split_and!; auto. intros _.
  destruct A as [A1 A2 A3 A4 A5 _ _ _ _ _]. rewrite Ereq in A4.
  pose proof (PmmSpec.fo_cells _ (PmmSpec.wf_forest _ W') i A1) as Ck.
  split_and!; [rewrite <- A3; apply (PmmSpec.ck_align _ _ Ck)|rewrite <- A3; apply (PmmSpec.ck_base _ _ Ck)|].
  exists (Pmm.size (Pmm.cells p' i)). split_and!; [done|by exists i|].
  intros a j [k (H1 & H2 & H3 & H4)]. destruct (A5 k H1 H2) as (_ & _ & _ & D).
  unfold PmmSpec.disjoint_cells in D. rewrite A3, H3, H4 in D. lia.
Qed.


(** ** From boot on *)

(** The direct map reaches every page range handed out. *)
Definition direct_map {P} `{Pages P} (hhdm : Z) (p : P) : Prop :=
  forall r k, pages_owned p r k -> r + k + hhdm <= 2 ^ 64 - HEAP_ALIGN.

Lemma heap_init_ok {P} `{HP : Pages P} `{HL : !PagesLaws P} hhdm (s : heap P) :
  pages_ok (pages s) -> 0 <= hhdm -> hhdm mod HEAP_ALIGN = 0 ->
  direct_map hhdm (snd (pages_alloc HEAP_INITIAL_PAGES (pages s))) ->
  fst (pages_alloc HEAP_INITIAL_PAGES (pages s)) <> 0 ->
  let base := fst (pages_alloc HEAP_INITIAL_PAGES (pages s)) + hhdm in
  heap_ok hhdm (heap_init hhdm s)
    [{| ba := base; bs := HEAP_INITIAL_PAGES * PAGE_SIZE - HDR; bf := true |}] [] (fun _ => []) [].
Proof.
  intros Hok Hh0 Hh Hmap. cbv zeta. unfold heap_init.
  destruct (pages_alloc HEAP_INITIAL_PAGES (pages s)) as [phys p] eqn:Ep. cbn [fst snd] in *. intros Hp.
  destruct (pages_law HEAP_INITIAL_PAGES (pages s) phys p Hok ltac:(done) Ep) as (Pok & _ & Pnew).
  destruct (Pnew Hp) as (Pal & Ppos & k & Hk & Hown & _). pose proof (Hmap _ _ Hown) as Hlim.
  assert (HDR = 48 /\ HEAP_ALIGN = 16 /\ HEAP_INITIAL_PAGES = 16384 /\ PAGE_SIZE = 4096) as (EH & EA & EX & EP) by done.
  rewrite (proj2 (Z.eqb_neq _ _) Hp). unfold phys_to_virt. rewrite (wrap_small 64 (phys + hhdm)) by lia.
  set (base := phys + hhdm). set (sz := HEAP_INITIAL_PAGES * PAGE_SIZE - HDR). cbv zeta.
  match goal with |- heap_ok _ (_ <| hm := ?x |> <| buckets := ?y |>) _ _ _ _ => set (m := x); set (bk := y) end.
  assert (word sz) as Hsz by (unfold word, sz; lia).
  assert (hdr_at m base sz true 0 0) as Hhdr by (unfold m, word in *; split; hdr_simpl; auto).
  clearbody m. split.
  - exists base. cbn [dseg ba bs bf]. split; [done|]. exists 0. done.
  - cbn [apart]. split_and!; [|done|done]. unfold blk_ok, bend. cbn [ba bs]. unfold base, sz. lia.
  - intros b [<-|[]]. cbn [ba bs]. unfold base, sz. rewrite EH, EA, EX, EP in *. clear -Pal Hh.
    Z.to_euclidean_division_equations. lia.
  - intros b a [<-|[]] Ha. exists phys, k. split; [done|]. unfold bend, base, sz in Ha. cbn [ba bs] in Ha. lia.
  - done.
  - intros i Hi. cbn [oseg]. change (buckets _) with bk. unfold bk. rewrite (for_loop_upd (fun _ => 0)).
    rewrite (proj2 (Z.leb_le 0 i)), (proj2 (Z.ltb_lt i _)) by (unfold BUCKET_COUNT in *; cbn; lia). done.
  - change (small_ranges (fun _ => []) []) with (@nil (Z * Z)). constructor.
  - intros a n Han. change (small_ranges (fun _ => []) []) with (@nil (Z * Z)) in Han. done.
Qed.


(** ** Claims *)

(** C27: A request of more than 4096 bytes and less than 16 MB returns a fresh,
    16-byte aligned block of at least that size, apart from every block in use,
    whose contents do not change; it returns NULL only when no free block is
    large enough and the page allocator has no more pages. *)
Theorem kmalloc_large {P} `{HP : Pages P} `{HL : !PagesLaws P} hhdm fuel tries size (s : heap P) l pg objs out :
  heap_ok hhdm s l pg objs out -> 4096 < size <= 2 ^ 24 - 4096 -> (length l <= fuel)%nat -> (1 <= tries)%nat ->
  0 <= hhdm -> hhdm mod HEAP_ALIGN = 0 -> direct_map hhdm (snd (pages_alloc HEAP_EXPAND_PAGES (pages s))) ->
  let '(r, s') := kmalloc hhdm fuel tries size s in
  served hhdm s l pg objs out size r s' \/
  (r = 0 /\ (forall b, In b l -> bf b = true -> bs b < size + 16) /\
   fst (pages_alloc HEAP_EXPAND_PAGES (pages s)) = 0 /\ heap_ok hhdm s' l pg objs out /\ hm s' = hm s).
Proof.
  intros K Hs Hf Ht Hh0 Hh Hmap. unfold kmalloc. rewrite (proj2 (Z.eqb_neq size 0)) by lia.
  assert (bucket_index size = -1) as ->.
  { unfold bucket_index. destruct (find_index _ _ _) as [i|] eqn:E; [|done]. exfalso.
    apply find_index_Some in E as (Hi & Hle & _). pose proof (bucket_size_min i ltac:(unfold BUCKET_COUNT in *; lia)).
    apply Z.leb_le in Hle. lia. }
  change (0 <=? -1) with false. cbv iota. change (0 =? 0) with true. cbv iota.
  destruct (align_up_ok size ltac:(lia)) as [A1 A2].
  set (sz := align_up size HEAP_ALIGN) in *. clearbody sz.
  pose proof (kmalloc_main_ok hhdm fuel tries sz s l pg objs out K) as M.
  specialize (M ltac:(unfold HEAP_EXPAND_PAGES, PAGE_SIZE, HDR; lia) A1 Hf Ht Hh0 Hh Hmap).
  destruct (kmalloc_main hhdm fuel tries sz s) as [r s'].
  destruct M as [(l' & n & S1 & S2 & S3 & S4)|(-> & M1 & M2)].
  - cbv beta iota. left. exists l', n. split_and!; auto; try lia; apply S4.
  - cbv beta iota. right. split_and!; auto; try apply M2. intros b Hb Hbf. eapply find_none in M1; [|exact Hb].
    unfold fits in M1. rewrite Hbf in M1. cbn [andb] in M1. apply Z.leb_gt in M1. lia.
Qed.

(** C28: A request of at most 2048 bytes returns an object of its size class that
    overlaps no object handed out before and lies in no other block in use,
    whenever its bucket is not empty or a free block can be carved; contents
    of the blocks in use do not change. *)
Theorem kmalloc_small {P} `{HP : Pages P} `{HL : !PagesLaws P} hhdm fuel tries size (s : heap P) l pg objs out :
  heap_ok hhdm s l pg objs out -> 0 < size <= 2048 -> (length l <= fuel)%nat ->
  objs (bucket_index size) <> [] \/ List.find (fits PAGE_SIZE) l <> None ->
  let '(r, s') := kmalloc hhdm fuel tries size s in
  let n := bucket_sizes (bucket_index size) in
  0 < r /\ size <= n /\
  exists l' pg' objs', heap_ok hhdm s' l' pg' objs' ((r, n) :: out) /\
    forall x, In x l -> bf x = false -> In x l' /\ same_on (hm s) (hm s') (ba x + HDR) (bs x).
Proof.
  intros K Hs Hf Havail. unfold kmalloc. rewrite (proj2 (Z.eqb_neq size 0)) by lia. cbv zeta.
  assert (exists i, bucket_index size = i /\ 0 <= i < 9 /\ size <= bucket_sizes i) as (i & Ei & Hi & Hsz).
  { unfold bucket_index. destruct (find_index _ _ _) as [i|] eqn:E.
    - apply find_index_Some in E as (Hi & Hle & Hmin). apply Z.leb_le in Hle. exists i. split_and!; auto; [lia|].
      destruct (decide (i < 9)); [done|]. exfalso. specialize (Hmin 8 ltac:(lia)). apply Z.leb_gt in Hmin.
      change (bucket_sizes 8) with 2048 in Hmin. lia.
    - rewrite find_index_None in E. specialize (E 8 ltac:(unfold BUCKET_COUNT; lia)). apply Z.leb_gt in E.
      change (bucket_sizes 8) with 2048 in E. lia. }
  rewrite Ei in *. rewrite (proj2 (Z.leb_le 0 i)) by lia. assert (0 <= i < BUCKET_COUNT) as Hi' by (unfold BUCKET_COUNT; lia).
  unfold kmalloc_bucket. set (s1 := if buckets s i =? 0 then bucket_refill fuel i s else s).
  assert (exists l' pg' objs', heap_ok hhdm s1 l' pg' objs' out /\
    (forall x, In x l -> bf x = false -> In x l' /\ same_on (hm s) (hm s1) (ba x + HDR) (bs x)) /\ objs' i <> [])
    as (l' & pg' & objs' & K1 & Hkeep & Hne).
  { pose proof (hk_objs _ _ _ _ _ _ K i Hi') as Hseg. unfold s1. destruct (objs i) as [|o r] eqn:Eo; cbn [oseg] in Hseg.
    - rewrite Hseg. cbn [Z.eqb]. destruct (refill_ok hhdm fuel i s l pg objs out K Hi' Hf) as (l' & pg' & objs' & R1 & R2 & R3).
      exists l', pg', objs'. split_and!; auto. apply R3; [lia|]. by destruct Havail.
    - destruct Hseg as (-> & Ho & _). rewrite (proj2 (Z.eqb_neq o 0)) by lia. exists l, pg, objs.
      split_and!; auto; [by intros|congruence]. }
  clearbody s1. pose proof (hk_objs _ _ _ _ _ _ K1 i Hi') as Hseg. destruct (objs' i) as [|o r] eqn:Eo; [done|].
  destruct Hseg as (-> & Ho & _). rewrite (proj2 (Z.eqb_neq o 0)) by lia. rewrite (proj2 (Z.eqb_neq o 0)) by lia.
  split_and!; auto. exists l', pg', (objs'.[i <- r]). split; [by apply (pop_ok hhdm s1 _ l' pg' objs' out i o r)|done].
Qed.

(** Freeing a block in use whose free neighbours are contiguous with it gives
    its bytes back, merged with them into one free block; every other block in
    use and its contents stay as they are. *)
Theorem kfree_returns {P} `{HP : Pages P} hhdm (s : heap P) l1 b l2 pg objs out :
  heap_ok hhdm s (l1 ++ b :: l2) pg objs out -> bf b = false -> ~ In (ba b) pg -> snug_free l1 b l2 ->
  let s' := kfree (ba b + HDR) s in
  heap_ok hhdm s' (free_result l1 b l2) pg objs out /\
  (exists f, In f (free_result l1 b l2) /\ bf f = true /\ ba f <= ba b /\ bend b <= bend f) /\
  forall x, In x (l1 ++ l2) -> bf x = false ->
    In x (free_result l1 b l2) /\ same_on (hm s) (hm s') (ba x + HDR) (bs x).
Proof.
  intros K Hbf Hpg Hsn. cbv zeta. assert (In b (l1 ++ b :: l2)) as Hb by (apply in_or_app; right; by left).
  destruct (apart_in _ _ (hk_apart _ _ _ _ _ _ K) Hb) as (B1 & B2 & B3). unfold bend in B3.
  assert (HDR = 48 /\ HEAP_ALIGN = 16) as [EH EA] by done.
  unfold kfree. rewrite (proj2 (Z.eqb_neq _ 0)) by lia. replace (ba b + HDR - HDR) with (ba b) by lia.
  rewrite (wrap_small 64 (ba b)) by lia. destruct (hk_list _ _ _ _ _ _ K) as [q Hd].
  apply dseg_app in Hd as (q1 & e1 & _ & -> & n & Hh & _).
  rewrite (ha_magic _ _ _ _ _ _ Hh), (ha_free _ _ _ _ _ _ Hh), Hbf, Z.eqb_refl. cbn [negb orb]. cbv zeta.
  match goal with |- heap_ok _ ?x _ _ _ _ /\ _ => set (s' := x) end.
  destruct (free_step hhdm s s' l1 b l2 pg objs out K Hpg Hsn) as (F1 & F2 & F3); auto.
Qed.


(** ** A heap just after boot *)

Definition demo_hhdm : Z := 0xFFFF800000000000.
Definition blank_heap : heap bump :=
  {| hm := fun _ => 0; heap_head := 0; heap_base := 0; heap_end := 0; heap_size := 0; buckets := fun _ => 0;
     stat_alloc_count := 0; stat_free_count := 0; stat_expansions := 0; pages := Bump 0x100000 |}.
Definition demo_heap : heap bump := heap_init demo_hhdm blank_heap.
Definition demo_base : Z := 0xFFFF800000100000.
Definition demo_blk : blk := {| ba := demo_base; bs := HEAP_INITIAL_PAGES * PAGE_SIZE - HDR; bf := true |}.

Lemma demo_direct (p : bump) : direct_map demo_hhdm p.
Proof. intros r k H. unfold pages_owned, bump_pages in H. unfold demo_hhdm, HEAP_ALIGN. lia. Qed.

Lemma demo_heap_ok : heap_ok demo_hhdm demo_heap [demo_blk] [] (fun _ => []) [].
Proof.
  assert (demo_blk = {| ba := fst (pages_alloc HEAP_INITIAL_PAGES (pages blank_heap)) + demo_hhdm;
                        bs := HEAP_INITIAL_PAGES * PAGE_SIZE - HDR; bf := true |}) as -> by (vm_compute; reflexivity).
  apply (heap_init_ok demo_hhdm blank_heap).
  - vm_compute. split; [discriminate|reflexivity].
  - unfold demo_hhdm. lia.
  - reflexivity.
  - apply demo_direct.
  - vm_compute. discriminate.
Qed.

Lemma kmalloc_large_witness :
  served demo_hhdm demo_heap [demo_blk] [] (fun _ => []) [] 5000
    (fst (kmalloc demo_hhdm 1 1 5000 demo_heap)) (snd (kmalloc demo_hhdm 1 1 5000 demo_heap)).
Proof.
  pose proof (kmalloc_large demo_hhdm 1 1 5000 demo_heap [demo_blk] [] (fun _ => []) [] demo_heap_ok
    ltac:(lia) ltac:(cbn; lia) ltac:(lia) ltac:(unfold demo_hhdm; lia) ltac:(reflexivity) (demo_direct _)) as H.
  destruct (kmalloc demo_hhdm 1 1 5000 demo_heap) as [r s']. destruct H as [H|(_ & H & _)]; [exact H|]. exfalso.
  specialize (H demo_blk (or_introl eq_refl) eq_refl). vm_compute in H. discriminate H.
Defined.

Lemma kmalloc_small_witness : 0 < fst (kmalloc demo_hhdm 1 1 100 demo_heap).
Proof.
  assert (List.find (fits PAGE_SIZE) [demo_blk] <> None) as A by (vm_compute; discriminate).
  pose proof (fun a b => kmalloc_small demo_hhdm 1 1 100 demo_heap [demo_blk] [] (fun _ => []) [] demo_heap_ok
                           a b (or_intror A)) as H.
  specialize (H ltac:(lia) ltac:(cbn; lia)).
  destruct (kmalloc demo_hhdm 1 1 100 demo_heap) as [r s']. exact (proj1 H).
Defined.

(** The heap with its first 5008 bytes in use. *)
Definition demo_used : heap bump := demo_heap <| hm := take_block 5008 demo_base (hm demo_heap) |>.

Lemma demo_used_ok :
  heap_ok demo_hhdm demo_used (split_blk demo_blk 5008) [] (fun _ => []) [].
Proof.
  assert (0 <= 5008 <= bs demo_blk) as Hs by (vm_compute; split; discriminate).
  destruct (alloc_step demo_hhdm demo_heap demo_used [] demo_blk [] [] (fun _ => []) [] 5008 demo_heap_ok
    eq_refl Hs eq_refl eq_refl eq_refl eq_refl eq_refl) as (K & _).
  cbn [app] in K. rewrite app_nil_r in K. exact K.
Qed.

Lemma kfree_returns_witness :
  heap_ok demo_hhdm (kfree (demo_base + HDR) demo_used) [demo_blk] [] (fun _ => []) [].
Proof.
  destruct (kfree_returns demo_hhdm demo_used [] {| ba := demo_base; bs := 5008; bf := false |}
    [{| ba := demo_base + HDR + 5008; bs := bs demo_blk - 5008 - HDR; bf := true |}] [] (fun _ => []) []) as (K & _).
  - exact demo_used_ok.
  - reflexivity.
  - cbn. tauto.
  - split; [intros _; reflexivity|exact I].
  - exact K.
Defined.

(** ** Behaviour at the edges *)

(** Two regions with a gap between them: freeing the block at the end of the
    first merges it with the free block of the second, and the resulting block
    is said to have 80 MB although only 64 MB follow it. *)
Definition demo_gap : heap bump :=
  snd (heap_expand demo_hhdm 1 (demo_heap <| pages := Bump 0x10000000 |>)).
Example merge_across_regions :
  let '(p, s) := kmalloc demo_hhdm 2 0 67108816 demo_gap in
  ksize p (kfree p s) = 67108816 + 16777216 /\ stat_expansions s = 1.
Proof. vm_compute. split; reflexivity. Qed.

(** A request of 2049 to 4096 bytes carves no object out of the page it takes:
    the page is used for good, and the request is served from the list. *)
Example page_leaked :
  let '(p, s) := kmalloc demo_hhdm 2 0 4096 demo_heap in
  p <> demo_base + HDR /\ ksize (demo_base + HDR) s = 4096 /\ hb_free demo_base (hm s) = false /\ buckets s 9 = 0.
Proof. vm_compute. split_and!; try reflexivity; discriminate. Qed.

(** A request that no region can hold expands the heap again and again. *)
Example oversized_request_drains_pages :
  let '(p, s) := kmalloc demo_hhdm 2 5 0x4000000 demo_heap in
  p = 0 /\ stat_expansions s = 5.
Proof. vm_compute. split; reflexivity. Qed.

(** The product in kcalloc and the rounding in kmalloc wrap around. *)
Example sizes_wrap :
  fst (kcalloc demo_hhdm 2 0 (2 ^ 61 + 1) 8 demo_heap) <> 0 /\
  fst (kmalloc demo_hhdm 2 0 (2 ^ 64 - 1) demo_heap) <> 0.
Proof. vm_compute. split; discriminate. Qed.

(** The pointer kmemalign returns is not one kfree recognises. *)
Example aligned_block_leaks :
  let '(p, s) := kmemalign demo_hhdm 2 0 4096 8192 demo_heap in
  p mod 4096 = 0 /\ hm (kfree p s) = hm s.
Proof.
  assert ((hb_magic (u64 (fst (kmemalign demo_hhdm 2 0 4096 8192 demo_heap) - HDR))
            (hm (snd (kmemalign demo_hhdm 2 0 4096 8192 demo_heap))) =? HEAP_MAGIC) = false) as E by (vm_compute; reflexivity).
  assert (fst (kmemalign demo_hhdm 2 0 4096 8192 demo_heap) mod 4096 = 0) as M by (vm_compute; reflexivity).
  destruct (kmemalign demo_hhdm 2 0 4096 8192 demo_heap) as [p s]. cbn [fst snd] in E, M. split; [done|].
  unfold kfree. rewrite E. cbn [negb orb]. by destruct (p =? 0).
Qed.

End HeapClaims.
