(* ===== verification/Vmm.v ===== *)
(** * Virtual memory (src/src/mem/vmm.c, vmm.h)

    Four-level page tables in byte memory, reached through the direct map as
    in the source: a table pointer is its physical address plus the offset of
    the direct map.  The model has the page-table operations, copy on write,
    address spaces, kernel stacks and the mmap, brk and page-fault paths.  The
    physical allocator and the kernel heap are interfaces ([Frames], [Kheap]);
    VMA lists are lists of nodes with their heap addresses.  TLB shootdowns are
    recorded in [tlb_log]. *)

From S2P Require Import Prelude Mem Str.
Import Mem Str.

(** ** What virtual memory needs of the physical allocator and of the heap *)

Class Frames (P : Type) := {
  fr_alloc : P -> Z * P;
  fr_free : Z -> P -> P;
  fr_ref : Z -> P -> P;
  fr_unref : Z -> P -> P;
  fr_refcount : Z -> P -> Z;
  fr_ok : P -> Prop;
  fr_used : P -> Z -> Prop
}.

(** A page handed out was not in use, is in use afterwards and is aligned. *)
Class FramesLaws (P : Type) `{Frames P} := {
  fr_alloc_law p r p' : fr_ok p -> fr_alloc p = (r, p') ->
    fr_ok p' /\ (forall a, fr_used p a -> fr_used p' a) /\
    (r <> 0 -> 0 < r /\ r mod 4096 = 0 /\ ~ fr_used p r /\ fr_used p' r)
}.

Class Kheap (H : Type) := {
  kh_alloc : Z -> H -> Z * H;
  kh_free : Z -> H -> H
}.

Module Vmm.

(** ** Constants and data *)

Definition VMM_FLAG_PRESENT : Z := 2 ^ 0.
Definition VMM_FLAG_WRITE : Z := 2 ^ 1.
Definition VMM_FLAG_USER : Z := 2 ^ 2.
Definition VMM_FLAG_HUGE : Z := 2 ^ 7.
Definition VMM_FLAG_COW : Z := 2 ^ 9.
Definition VMM_FLAG_DONT_FREE : Z := 2 ^ 10.
Definition VMM_FLAG_NX : Z := 2 ^ 63.
Definition HUGE_PAGE_SIZE : Z := 2 * 1024 * 1024.
Definition PAGE_SIZE : Z := 4096.
Definition PROT_WRITE : Z := 2.
Definition PROT_EXEC : Z := 4.
Definition MAP_ANONYMOUS : Z := 0x20.
Definition MAP_FAILED : Z := 2 ^ 64 - 1.
Definition USER_BRK_DEFAULT : Z := 0x400000.
Definition MMAP_BASE : Z := 0x7F0000000000.

Definition ADDR_MASK : Z := 0x000FFFFFFFFFF000.
Definition HUGE_MASK : Z := 0x000FFFFFFFE00000.
Definition FLAGS_MASK : Z := 0xFFF0000000000FFF.

(** [x & ~mask] on 64 bits *)
Definition clear_bits (x mask : Z) : Z := Z.land x (u64 (Z.lnot mask)).

Definition pml4_index (virt : Z) : Z := Z.land (Z.shiftr virt 39) 0x1FF.
Definition pdpt_index (virt : Z) : Z := Z.land (Z.shiftr virt 30) 0x1FF.
Definition pd_index (virt : Z) : Z := Z.land (Z.shiftr virt 21) 0x1FF.
Definition pt_index (virt : Z) : Z := Z.land (Z.shiftr virt 12) 0x1FF.

Record vma_t := { v_start : Z; v_end : Z; v_flags : Z; v_prot : Z }.
#[export] Instance eta_vma : Eta vma_t := fun r => Build_vma_t (v_start r) (v_end r) (v_flags r) (v_prot r).

(** The fields of task_t that virtual memory uses; a list node is the heap
    address of the vma_t and its contents. *)
Record mmtask := { t_pml4 : Z; brk_start : Z; brk_current : Z; vmas : list (Z * vma_t) }.
#[export] Instance eta_mmtask : Eta mmtask :=
  fun r => Build_mmtask (t_pml4 r) (brk_start r) (brk_current r) (vmas r).

Record vmm {P H : Type} := {
  vm : mem;
  frames : P;
  kheap : H;
  g_next_kernel_stack : Z;
  g_kernel_pml4 : Z;
  next_mmap_addr : Z;
  tlb_log : list (option Z)
}.
Arguments vmm : clear implicits.
#[export] Instance eta_vmm {P H} : Eta (vmm P H) :=
  fun r => Build_vmm P H (vm r) (frames r) (kheap r) (g_next_kernel_stack r) (g_kernel_pml4 r)
    (next_mmap_addr r) (tlb_log r).

(** [table[index]] *)
Definition entry (table index : Z) (m : mem) : Z := load 8 (table + 8 * index) m.
Definition set_entry (table index v : Z) (m : mem) : mem := store 8 (table + 8 * index) v m.

Section operations.
Context {P H : Type} `{Frames P} `{Kheap H}.
Variable hhdm : Z.
Implicit Types s : vmm P H.

Definition vmm_phys_to_virt (phys : Z) : Z := u64 (phys + hhdm).
Definition vmm_virt_hhdm_to_phys (virt : Z) : Z := u64 (virt - hhdm).

Definition put (table index v : Z) s : vmm P H := s <| vm := set_entry table index v (vm s) |>.
Definition get (table index : Z) s : Z := entry table index (vm s).

Definition alloc_frame s : Z * vmm P H :=
  let '(phys, p) := fr_alloc (frames s) in (phys, s <| frames := p |>).
Definition zero_page (virt : Z) s : vmm P H := s <| vm := snd (memset virt 0 PAGE_SIZE (vm s)) |>.

Definition vmm_shootdown_page (virt : Z) s : vmm P H := s <| tlb_log := Some virt :: tlb_log s |>.
Definition vmm_shootdown_all s : vmm P H := s <| tlb_log := None :: tlb_log s |>.

(** ** Page tables *)

(** 0 stands for NULL. *)
Definition alloc_page_table s : Z * vmm P H :=
  let '(phys, s) := alloc_frame s in
  if phys =? 0 then (0, s)
  else let virt := vmm_phys_to_virt phys in (virt, zero_page virt s).

Definition get_or_create_table (table index flags : Z) s : Z * vmm P H :=
  if has (get table index s) VMM_FLAG_PRESENT then
    if has (get table index s) (Z.shiftl 1 7) then (0, s)
    else (vmm_phys_to_virt (Z.land (get table index s) ADDR_MASK), s)
  else
    let '(new_table, s) := alloc_page_table s in
    if new_table =? 0 then (0, s)
    else
      let phys := vmm_virt_hhdm_to_phys new_table in
      (new_table, put table index (Z.lor (Z.lor (Z.lor phys VMM_FLAG_PRESENT) VMM_FLAG_WRITE) flags) s).

Definition vmm_map_page (pml4 virt phys flags : Z) s : bool * vmm P H :=
  let '(pdpt, s) := get_or_create_table pml4 (pml4_index virt) (Z.land flags VMM_FLAG_USER) s in
  if pdpt =? 0 then (false, s) else
  let '(pd, s) := get_or_create_table pdpt (pdpt_index virt) (Z.land flags VMM_FLAG_USER) s in
  if pd =? 0 then (false, s) else
  let '(pt, s) := get_or_create_table pd (pd_index virt) (Z.land flags VMM_FLAG_USER) s in
  if pt =? 0 then (false, s) else
  let s := put pt (pt_index virt) (Z.lor (Z.lor (Z.land phys ADDR_MASK) flags) VMM_FLAG_PRESENT) s in
  (true, vmm_shootdown_page virt s).

Definition vmm_map_huge_page (pml4 virt phys flags : Z) s : bool * vmm P H :=
  if has virt (HUGE_PAGE_SIZE - 1) || has phys (HUGE_PAGE_SIZE - 1) then (false, s) else
  let '(pdpt, s) := get_or_create_table pml4 (pml4_index virt) (Z.land flags VMM_FLAG_USER) s in
  if pdpt =? 0 then (false, s) else
  let '(pd, s) := get_or_create_table pdpt (pdpt_index virt) (Z.land flags VMM_FLAG_USER) s in
  if pd =? 0 then (false, s) else
  let s := put pd (pd_index virt)
             (Z.lor (Z.lor (Z.lor (Z.land phys HUGE_MASK) flags) VMM_FLAG_PRESENT) VMM_FLAG_HUGE) s in
  (true, vmm_shootdown_page virt s).

(** The table an entry refers to. *)
Definition table_of (e : Z) : Z := vmm_phys_to_virt (Z.land e ADDR_MASK).

(** The walk the four functions below share: the page directory of [virt] and
    its entry there, if every entry on the way is present. *)
Definition walk_pd (pml4 virt : Z) s : option (Z * Z) :=
  let e := get pml4 (pml4_index virt) s in
  if negb (has e VMM_FLAG_PRESENT) then None
  else
    let e := get (table_of e) (pdpt_index virt) s in
    if negb (has e VMM_FLAG_PRESENT) then None
    else
      let pd := table_of e in
      let e := get pd (pd_index virt) s in
      if negb (has e VMM_FLAG_PRESENT) then None else Some (pd, e).

Definition vmm_unmap_page (pml4 virt : Z) s : vmm P H :=
  match walk_pd pml4 virt s with
  | None => s
  | Some (_, e) => vmm_shootdown_page virt (put (table_of e) (pt_index virt) 0 s)
  end.

Definition vmm_virt_to_phys (pml4 virt : Z) s : Z :=
  match walk_pd pml4 virt s with
  | None => 0
  | Some (_, e) =>
      if has e VMM_FLAG_HUGE then Z.lor (Z.land e HUGE_MASK) (Z.land virt (HUGE_PAGE_SIZE - 1))
      else
        let pte := get (table_of e) (pt_index virt) s in
        if negb (has pte VMM_FLAG_PRESENT) then 0 else Z.lor (Z.land pte ADDR_MASK) (Z.land virt 0xFFF)
  end.

Definition vmm_get_pte_flags (pml4 virt : Z) s : Z :=
  match walk_pd pml4 virt s with
  | None => 0
  | Some (_, e) =>
      if has e VMM_FLAG_HUGE then Z.land e FLAGS_MASK
      else Z.land (get (table_of e) (pt_index virt) s) FLAGS_MASK
  end.

Definition vmm_update_flags (pml4 virt new_flags : Z) s : bool * vmm P H :=
  match walk_pd pml4 virt s with
  | None => (false, s)
  | Some (pd, e) =>
      if has e VMM_FLAG_HUGE then
        let phys := Z.land e HUGE_MASK in
        (true, vmm_shootdown_page virt
          (put pd (pd_index virt) (Z.lor (Z.lor (Z.lor phys new_flags) VMM_FLAG_PRESENT) VMM_FLAG_HUGE) s))
      else
        let pte := get (table_of e) (pt_index virt) s in
        if negb (has pte VMM_FLAG_PRESENT) then (false, s)
        else
          let phys := Z.land pte ADDR_MASK in
          (true, vmm_shootdown_page virt
            (put (table_of e) (pt_index virt) (Z.lor (Z.lor phys new_flags) VMM_FLAG_PRESENT) s))
  end.

(** vmm_get_kernel_pml4: the root captured by vmm_init, or the current one. *)
Definition vmm_get_kernel_pml4 (cr3 : Z) s : Z :=
  if negb (g_kernel_pml4 s =? 0) then g_kernel_pml4 s else vmm_phys_to_virt (Z.land cr3 ADDR_MASK).

Definition vmm_init (cr3 : Z) s : vmm P H := s <| g_kernel_pml4 := vmm_phys_to_virt (Z.land cr3 ADDR_MASK) |>.

(** ** Address spaces *)

Definition vmm_create_user_pml4 (cr3 : Z) s : Z * vmm P H :=
  let '(new_pml4, s) := alloc_page_table s in
  if new_pml4 =? 0 then (0, s)
  else
    let kernel_pml4 := vmm_get_kernel_pml4 cr3 s in
    (new_pml4, for_loop 256 256 (fun i s => put new_pml4 i (get kernel_pml4 i s) s) s).

(** The body of the innermost loop of vmm_fork_address_space. *)
Definition fork_pte (src_pt dst_pt l : Z) s : vmm P H :=
  let e := get src_pt l s in
  if negb (has e VMM_FLAG_PRESENT) then s
  else
    let phys := Z.land e ADDR_MASK in
    let flags := Z.land e FLAGS_MASK in
    if negb (has flags VMM_FLAG_DONT_FREE) then
      let flags := clear_bits flags VMM_FLAG_WRITE in
      let flags := Z.lor flags VMM_FLAG_COW in
      let s := put src_pt l (Z.lor phys flags) s in
      let s := s <| frames := fr_ref phys (frames s) |> in
      put dst_pt l (Z.lor phys flags) s
    else put dst_pt l (Z.lor phys flags) s.

Definition fork_pde (src_pd dst_pd k : Z) s : vmm P H :=
  let e := get src_pd k s in
  if negb (has e VMM_FLAG_PRESENT) then s
  else if has e VMM_FLAG_HUGE then
    let phys := Z.land e HUGE_MASK in
    let flags := Z.land e 0xFFF in
    let flags := clear_bits flags VMM_FLAG_WRITE in
    let flags := Z.lor flags VMM_FLAG_COW in
    let s := put dst_pd k (Z.lor (Z.lor phys flags) VMM_FLAG_HUGE) s in
    let s := put src_pd k (Z.lor (Z.lor phys flags) VMM_FLAG_HUGE) s in
    s <| frames := fr_ref phys (frames s) |>
  else
    let src_pt := table_of e in
    let '(dst_pt, s) := alloc_page_table s in
    if dst_pt =? 0 then s
    else
      let s := put dst_pd k (Z.lor (vmm_virt_hhdm_to_phys dst_pt) (Z.land (get src_pd k s) 0xFFF)) s in
      for_loop 512 0 (fork_pte src_pt dst_pt) s.

(** A round of the two outer loops: a new table for entry [i], whose entries
    the loop [inner] fills. *)
Definition fork_level (inner : Z -> Z -> Z -> vmm P H -> vmm P H) (src dst i : Z) s : vmm P H :=
  let e := get src i s in
  if negb (has e VMM_FLAG_PRESENT) then s
  else
    let src' := table_of e in
    let '(dst', s) := alloc_page_table s in
    if dst' =? 0 then s
    else
      let s := put dst i (Z.lor (vmm_virt_hhdm_to_phys dst') (Z.land (get src i s) 0xFFF)) s in
      for_loop 512 0 (inner src' dst') s.

Definition vmm_fork_address_space (cr3 src_pml4 : Z) s : Z * vmm P H :=
  let '(new_pml4, s) := vmm_create_user_pml4 cr3 s in
  if new_pml4 =? 0 then (0, s)
  else
    let s := for_loop 256 0 (fork_level (fork_level fork_pde) src_pml4 new_pml4) s in
    (new_pml4, vmm_shootdown_all s).

Definition vmm_handle_cow_fault (pml4 fault_addr : Z) s : bool * vmm P H :=
  let page_addr := clear_bits fault_addr 0xFFF in
  let flags := vmm_get_pte_flags pml4 page_addr s in
  if negb (has flags VMM_FLAG_COW) then (false, s)
  else
    let old_phys := clear_bits (vmm_virt_to_phys pml4 page_addr s) 0xFFF in
    if old_phys =? 0 then (false, s)
    else
      let rc := fr_refcount old_phys (frames s) in
      let new_flags := Z.lor (clear_bits flags VMM_FLAG_COW) VMM_FLAG_WRITE in
      if rc <=? 1 then (true, snd (vmm_update_flags pml4 page_addr new_flags s))
      else
        let '(new_phys, s) := alloc_frame s in
        if new_phys =? 0 then (false, s)
        else
          let src := vmm_phys_to_virt old_phys in
          let dst := vmm_phys_to_virt new_phys in
          let s := s <| vm := snd (memcpy dst src PAGE_SIZE (vm s)) |> in
          let s := snd (vmm_map_page pml4 page_addr new_phys new_flags s) in
          (true, s <| frames := fr_unref old_phys (frames s) |>).

Definition release_user_mapping (e : Z) (huge : bool) s : vmm P H :=
  if negb (has e VMM_FLAG_PRESENT) then s
  else if has e VMM_FLAG_DONT_FREE then s
  else
    let phys := Z.land e (if huge then HUGE_MASK else ADDR_MASK) in
    if phys =? 0 then s else s <| frames := fr_unref phys (frames s) |>.

Definition free_frame (phys : Z) s : vmm P H := s <| frames := fr_free phys (frames s) |>.

Definition free_pt (pt : Z) s : vmm P H :=
  for_loop 512 0 (fun i s => release_user_mapping (get pt i s) false s) s.

Definition free_pd (pd : Z) s : vmm P H :=
  for_loop 512 0 (fun i s =>
    let e := get pd i s in
    if negb (has e VMM_FLAG_PRESENT) then s
    else
      let phys := Z.land e ADDR_MASK in
      if has e VMM_FLAG_HUGE then release_user_mapping e true s
      else free_frame phys (free_pt (vmm_phys_to_virt phys) s)) s.

Definition free_pdpt (pdpt : Z) s : vmm P H :=
  for_loop 512 0 (fun i s =>
    let e := get pdpt i s in
    if negb (has e VMM_FLAG_PRESENT) then s
    else let phys := Z.land e ADDR_MASK in free_frame phys (free_pd (vmm_phys_to_virt phys) s)) s.

Definition vmm_destroy_user_pml4 (pml4 : Z) s : vmm P H :=
  if pml4 =? 0 then s
  else
    let s := for_loop 256 0 (fun i s =>
      let e := get pml4 i s in
      if negb (has e VMM_FLAG_PRESENT) then s
      else let phys := Z.land e ADDR_MASK in free_frame phys (free_pdpt (vmm_phys_to_virt phys) s)) s in
    free_frame (vmm_virt_hhdm_to_phys pml4) s.

(** ** Kernel stacks *)

Definition page_align_up (x : Z) : Z := Z.land (u64 (x + PAGE_SIZE - 1)) (u64 (Z.lnot (PAGE_SIZE - 1))).

Definition vmm_free_kernel_stack (cr3 stack usable_size : Z) s : vmm P H :=
  if (stack =? 0) || (usable_size =? 0) then s
  else
    let usable_size := page_align_up usable_size in
    let pml4 := vmm_get_kernel_pml4 cr3 s in
    for_loop (Z.to_nat (usable_size / PAGE_SIZE)) 0 (fun i s =>
      let va := u64 (stack + i * PAGE_SIZE) in
      let phys := vmm_virt_to_phys pml4 va s in
      if phys =? 0 then s
      else free_frame (clear_bits phys 0xFFF) (vmm_unmap_page pml4 va s)) s.

(** The mapping loop of vmm_alloc_kernel_stack: [n] pages left, page [i] next. *)
Fixpoint map_stack (n : nat) (cr3 pml4 usable usable_size i : Z) s : Z * vmm P H :=
  match n with
  | O => (usable, s)
  | S n' =>
      let '(phys, s) := alloc_frame s in
      if phys =? 0 then (0, vmm_free_kernel_stack cr3 usable usable_size s)
      else
        let '(ok, s) := vmm_map_page pml4 (u64 (usable + i * PAGE_SIZE)) phys (Z.lor VMM_FLAG_WRITE VMM_FLAG_NX) s in
        if ok then map_stack n' cr3 pml4 usable usable_size (i + 1) s
        else (0, vmm_free_kernel_stack cr3 usable usable_size (free_frame phys s))
  end.

Definition vmm_alloc_kernel_stack (cr3 usable_size : Z) s : Z * vmm P H :=
  if usable_size =? 0 then (0, s)
  else
    let usable_size := page_align_up usable_size in
    let total := u64 (usable_size + 2 * PAGE_SIZE) in
    let base := g_next_kernel_stack s in
    let s := s <| g_next_kernel_stack := u64 (base + total) |> in
    let usable := u64 (base + PAGE_SIZE) in
    map_stack (Z.to_nat (usable_size / PAGE_SIZE)) cr3 (vmm_get_kernel_pml4 cr3 s) usable usable_size 0 s.

(** ** mmap, mprotect, brk *)

Definition SIZEOF_VMA : Z := 48.

(** The loop of sys_mmap that maps zeroed pages: [n] left. *)
Fixpoint map_zeroed (n : nat) (pml4 va pflags : Z) s : bool * vmm P H :=
  match n with
  | O => (true, s)
  | S n' =>
      let '(phys, s) := alloc_frame s in
      if phys =? 0 then (false, s)
      else
        let s := snd (vmm_map_page pml4 va phys pflags s) in
        let s := zero_page (vmm_phys_to_virt phys) s in
        map_zeroed n' pml4 (u64 (va + PAGE_SIZE)) pflags s
  end.

Definition sys_mmap (t : mmtask) (length prot flags : Z) s : Z * mmtask * vmm P H :=
  if length =? 0 then (MAP_FAILED, t, s)
  else
    let pages := u64 (length + PAGE_SIZE - 1) / PAGE_SIZE in
    let size := u64 (pages * PAGE_SIZE) in
    let vaddr := next_mmap_addr s in
    let s := s <| next_mmap_addr := u64 (next_mmap_addr s + size) |> in
    let '(node, h) := kh_alloc SIZEOF_VMA (kheap s) in
    let s := s <| kheap := h |> in
    if node =? 0 then (MAP_FAILED, t, s)
    else
      let vma := {| v_start := vaddr; v_end := u64 (vaddr + size); v_flags := flags; v_prot := prot |} in
      let t := t <| vmas := (node, vma) :: vmas t |> in
      if negb (has flags MAP_ANONYMOUS) then
        let pflags := Z.lor (Z.lor VMM_FLAG_PRESENT VMM_FLAG_WRITE) VMM_FLAG_USER in
        let pflags := if negb (has prot PROT_EXEC) then Z.lor pflags VMM_FLAG_NX else pflags in
        let '(ok, s) := map_zeroed (Z.to_nat pages) (t_pml4 t) vaddr pflags s in
        (if ok then vaddr else MAP_FAILED, t, s)
      else (vaddr, t, s).

(** The search of sys_munmap: the first node that starts at [vaddr] is freed. *)
Fixpoint remove_vma (vaddr : Z) (l : list (Z * vma_t)) (h : H) : list (Z * vma_t) * H :=
  match l with
  | [] => ([], h)
  | (node, v) :: l' =>
      if v_start v =? vaddr then (l', kh_free node h)
      else let '(l', h) := remove_vma vaddr l' h in ((node, v) :: l', h)
  end.

Definition sys_munmap (t : mmtask) (vaddr length : Z) s : Z * mmtask * vmm P H :=
  let pages := u64 (length + PAGE_SIZE - 1) / PAGE_SIZE in
  if t_pml4 t =? 0 then (-1, t, s)
  else
    let s := for_loop (Z.to_nat pages) 0 (fun i s =>
      let va := u64 (vaddr + i * PAGE_SIZE) in
      let phys := vmm_virt_to_phys (t_pml4 t) va s in
      if phys =? 0 then s
      else free_frame (clear_bits phys 0xFFF) (vmm_unmap_page (t_pml4 t) va s)) s in
    let '(l, h) := remove_vma vaddr (vmas t) (kheap s) in
    (0, t <| vmas := l |>, s <| kheap := h |>).

(** The flags sys_mprotect gives a page that had [old_flags]. *)
Definition mprotect_flags (old_flags prot : Z) : Z :=
  let new_flags := Z.lor VMM_FLAG_PRESENT VMM_FLAG_USER in
  let new_flags := if has prot PROT_WRITE then Z.lor new_flags VMM_FLAG_WRITE else new_flags in
  let new_flags := if negb (has prot PROT_EXEC) then Z.lor new_flags VMM_FLAG_NX else new_flags in
  let new_flags := if has old_flags VMM_FLAG_COW then Z.lor new_flags VMM_FLAG_COW else new_flags in
  if has old_flags VMM_FLAG_DONT_FREE then Z.lor new_flags VMM_FLAG_DONT_FREE else new_flags.

(** The first VMA that contains the range gets the new protection. *)
Fixpoint reprotect (vaddr limit prot : Z) (l : list (Z * vma_t)) : list (Z * vma_t) :=
  match l with
  | [] => []
  | (node, v) :: l' =>
      if (v_start v <=? vaddr) && (limit <=? v_end v) then (node, v <| v_prot := prot |>) :: l'
      else (node, v) :: reprotect vaddr limit prot l'
  end.

Definition sys_mprotect (t : mmtask) (addr length prot : Z) s : Z * mmtask * vmm P H :=
  let vaddr := clear_bits addr 0xFFF in
  let pages := u64 (length + PAGE_SIZE - 1) / PAGE_SIZE in
  if t_pml4 t =? 0 then (-1, t, s)
  else
    let s := for_loop (Z.to_nat pages) 0 (fun i s =>
      let va := u64 (vaddr + i * PAGE_SIZE) in
      let old_flags := vmm_get_pte_flags (t_pml4 t) va s in
      if negb (has old_flags VMM_FLAG_PRESENT) then s
      else snd (vmm_update_flags (t_pml4 t) va (mprotect_flags old_flags prot) s)) s in
    (0, t <| vmas := reprotect vaddr (u64 (vaddr + pages * PAGE_SIZE)) prot (vmas t) |>, s).

(** The loop of sys_brk that grows the heap; false when memory runs out. *)
Fixpoint brk_grow (n : nat) (pml4 va : Z) s : bool * vmm P H :=
  match n with
  | O => (true, s)
  | S n' =>
      if negb (vmm_virt_to_phys pml4 va s =? 0) then brk_grow n' pml4 (u64 (va + PAGE_SIZE)) s
      else
        let '(phys, s) := alloc_frame s in
        if phys =? 0 then (false, s)
        else
          let s := snd (vmm_map_page pml4 va phys
            (Z.lor (Z.lor (Z.lor VMM_FLAG_PRESENT VMM_FLAG_WRITE) VMM_FLAG_USER) VMM_FLAG_NX) s) in
          brk_grow n' pml4 (u64 (va + PAGE_SIZE)) (zero_page (vmm_phys_to_virt phys) s)
  end.

(** Pages from [start] up to [end_]. *)
Definition pages_between (start end_ : Z) : nat := Z.to_nat ((end_ - start) / PAGE_SIZE).

Definition sys_brk (t : mmtask) (new_brk : Z) s : Z * mmtask * vmm P H :=
  let t := if brk_start t =? 0 then t <| brk_start := USER_BRK_DEFAULT |> <| brk_current := USER_BRK_DEFAULT |> else t in
  if new_brk =? 0 then (brk_current t, t, s)
  else if new_brk <? brk_start t then (brk_current t, t, s)
  else
    let old_brk := brk_current t in
    if old_brk <? new_brk then
      let start := page_align_up old_brk in
      let end_ := page_align_up new_brk in
      let '(ok, s) := if t_pml4 t =? 0 then (true, s) else brk_grow (pages_between start end_) (t_pml4 t) start s in
      if ok then (new_brk, t <| brk_current := new_brk |>, s) else (brk_current t, t, s)
    else if (new_brk <? old_brk) && negb (t_pml4 t =? 0) then
      let start := page_align_up new_brk in
      let end_ := page_align_up old_brk in
      let s := for_loop (pages_between start end_) 0 (fun i s =>
        let va := u64 (start + i * PAGE_SIZE) in
        let phys := vmm_virt_to_phys (t_pml4 t) va s in
        if phys =? 0 then s
        else
          let s := vmm_unmap_page (t_pml4 t) va s in
          s <| frames := fr_unref (clear_bits phys 0xFFF) (frames s) |>) s in
      (new_brk, t <| brk_current := new_brk |>, s)
    else (new_brk, t <| brk_current := new_brk |>, s).

Definition vmm_destroy_task_vmas (t : mmtask) s : mmtask * vmm P H :=
  (t <| vmas := [] |>, s <| kheap := fold_left (fun h nv => kh_free (fst nv) h) (vmas t) (kheap s) |>).

(** The loop of vmm_clone_task_vmas; [done] is the copied part of the list. *)
Fixpoint clone_vmas (l done : list (Z * vma_t)) (dst : mmtask) s : bool * mmtask * vmm P H :=
  match l with
  | [] => (true, dst <| vmas := done |>, s)
  | (_, v) :: l' =>
      let '(node, h) := kh_alloc SIZEOF_VMA (kheap s) in
      let s := s <| kheap := h |> in
      if node =? 0 then
        let '(dst, s) := vmm_destroy_task_vmas (dst <| vmas := done |>) s in (false, dst, s)
      else clone_vmas l' (done ++ [(node, v)]) dst s
  end.

Definition vmm_clone_task_vmas (dst src : mmtask) s : bool * mmtask * vmm P H := clone_vmas (vmas src) [] dst s.

(** ** Page faults *)

Definition vmm_handle_page_fault (t : mmtask) (fault_addr error_code : Z) s : bool * vmm P H :=
  let '(done, s) :=
    if (Z.land error_code 3 =? 3) && negb (t_pml4 t =? 0) then vmm_handle_cow_fault (t_pml4 t) fault_addr s
    else (false, s) in
  if done then (true, s)
  else
    match List.find (fun nv => (v_start (snd nv) <=? fault_addr) && (fault_addr <? v_end (snd nv))) (vmas t) with
    | None => (false, s)
    | Some (_, v) =>
        let page_addr := clear_bits fault_addr 0xFFF in
        let '(phys, s) := alloc_frame s in
        if phys =? 0 then (false, s)
        else
          let pflags := Z.lor VMM_FLAG_PRESENT VMM_FLAG_USER in
          let pflags := if has (v_prot v) PROT_WRITE then Z.lor pflags VMM_FLAG_WRITE else pflags in
          let pflags := if negb (has (v_prot v) PROT_EXEC) then Z.lor pflags VMM_FLAG_NX else pflags in
          let s := snd (vmm_map_page (t_pml4 t) page_addr phys pflags s) in
          (true, zero_page (vmm_phys_to_virt phys) s)
    end.

End operations.
End Vmm.
