(* ===== verification/VmmProps.v ===== *)
(** * Page-table trees

    The tables reachable from a root form a tree: two different positions have
    tables in different pages.  Creating a table or writing a leaf entry then
    changes the translation of the addresses below that entry and no other. *)

From S2P Require Import Prelude Mem Str Vmm.
Import Mem Str Vmm.

Module VmmProps.

(** ** Bits *)

Definition aligned (a : Z) : Prop := a mod 4096 = 0.

Lemma addr_mask x : Z.land x ADDR_MASK = (x / 4096) mod 2 ^ 40 * 4096.
Proof. change ADDR_MASK with (Z.shiftl (Z.ones 40) 12). rewrite land_field by lia. done. Qed.

Lemma page_land a f : aligned a -> 0 <= f < 4096 -> Z.land a f = 0.
Proof.
  intros Ha Hf. apply Z.bits_inj'. intros i Hi. rewrite Z.land_spec, Z.bits_0.
  destruct (decide (i < 12)).
  - replace a with (a / 4096 * 2 ^ 12); [|unfold aligned in Ha; change (2 ^ 12) with 4096; Z.to_euclidean_division_equations; lia].
    by rewrite Z.mul_pow2_bits_low by lia.
  - rewrite andb_comm. rewrite (Z.bits_above_log2 f); [done|lia|].
    destruct (decide (f = 0)) as [->|]; [cbn; lia|].
    apply Z.log2_lt_pow2; [lia|]. assert (2 ^ 12 <= 2 ^ i) by (apply Z.pow_le_mono_r; lia). change (2 ^ 12) with 4096 in *. lia.
Qed.

(** A page address with flags in the low bits. *)
Lemma page_lor a f : aligned a -> 0 <= f < 4096 -> Z.lor a f = a + f.
Proof. intros Ha Hf. rewrite <- Z.lxor_lor, <- Z.add_nocarry_lxor by (by apply page_land). done. Qed.

Lemma page_field a f : aligned a -> 0 <= a < 2 ^ 52 -> 0 <= f < 4096 -> Z.land (Z.lor a f) ADDR_MASK = a.
Proof.
  intros Ha Hr Hf. rewrite page_lor, addr_mask by done. unfold aligned in Ha.
  replace ((a + f) / 4096) with (a / 4096) by (Z.to_euclidean_division_equations; lia).
  rewrite Z.mod_small; [Z.to_euclidean_division_equations; lia|].
  split; [apply Z.div_pos; lia|apply Z.div_lt_upper_bound; lia].
Qed.

Lemma addr_field a : aligned a -> 0 <= a < 2 ^ 52 -> Z.land a ADDR_MASK = a.
Proof. intros Ha Hr. rewrite <- (page_field a 0) at 2 by (done || lia). by rewrite Z.lor_0_r. Qed.

Lemma page_flag a f k : aligned a -> 0 <= f < 4096 -> 0 <= k < 4096 -> has (Z.lor a f) k = has f k.
Proof.
  intros Ha Hf Hk. unfold has. by rewrite Z.land_lor_distr_l, (page_land a k), Z.lor_0_l.
Qed.

(** ** Indices *)

(** The index into the table at depth [d] (0: PML4, 3: page table). *)
Definition idx (d : nat) (v : Z) : Z := Z.land (Z.shiftr v (39 - 9 * Z.of_nat d)) 0x1FF.

Lemma idx_range d v : 0 <= idx d v <= 511.
Proof.
  unfold idx. pose proof (Z.land_ones (Z.shiftr v (39 - 9 * Z.of_nat d)) 9 ltac:(lia)) as E.
  change (Z.ones 9) with 0x1FF in E. rewrite E. change (2 ^ 9) with 512. pose proof (Z.mod_pos_bound (Z.shiftr v (39 - 9 * Z.of_nat d)) 512). lia.
Qed.

(** The first [d] indices agree. *)
Definition same (d : nat) (v v' : Z) : Prop := forall i, (i < d)%nat -> idx i v = idx i v'.

#[export] Instance same_dec d v v' : Decision (same d v v').
Proof.
  induction d as [|d IH]; [left; intros i Hi; lia|].
  destruct IH as [Y|N]; [|right; intros H; apply N; intros i Hi; apply H; lia].
  destruct (decide (idx d v = idx d v')) as [E|E]; [left|right].
  - intros i Hi. destruct (decide (i = d)) as [->|]; [done|apply Y; lia].
  - intros H. apply E, H. lia.
Defined.

Lemma same_sym d v v' : same d v v' -> same d v' v.
Proof. intros H i Hi. symmetry. by apply H. Qed.
Lemma same_trans d v1 v2 v3 : same d v1 v2 -> same d v2 v3 -> same d v1 v3.
Proof. intros H1 H2 i Hi. rewrite H1 by done. by apply H2. Qed.
Lemma same_le d d' v v' : (d' <= d)%nat -> same d v v' -> same d' v v'.
Proof. intros Hle H i Hi. apply H. lia. Qed.
Lemma same_S d v v' : same (S d) v v' <-> same d v v' /\ idx d v = idx d v'.
Proof.
  split; [intros H; split; [by apply (same_le (S d)); auto|apply H; lia]|].
  intros [H E] i Hi. destruct (decide (i = d)) as [->|]; [done|apply H; lia].
Qed.

(** Lower-half addresses with the same indices are on the same page. *)
Lemma idx_div d v : (d <= 4)%nat -> idx d v = (v / 2 ^ (39 - 9 * Z.of_nat d)) mod 512.
Proof.
  intros Hd. unfold idx. change 0x1FF with (Z.ones 9). rewrite Z.land_ones, Z.shiftr_div_pow2 by lia. done.
Qed.

Lemma same_page v v' : 0 <= v < 2 ^ 48 -> 0 <= v' < 2 ^ 48 -> same 4 v v' <-> v / 4096 = v' / 4096.
Proof.
  intros Hv Hv'. assert (forall d x, (d < 4)%nat -> idx d x = (x / 4096 / 512 ^ (3 - Z.of_nat d)) mod 512) as Hi.
  { intros d x Hd. rewrite idx_div by lia. f_equal. rewrite Z.div_div by lia. f_equal.
    change 512 with (2 ^ 9). change 4096 with (2 ^ 12). rewrite <- Z.pow_mul_r, <- Z.pow_add_r by lia. f_equal. lia. }
  split.
  - intros H. pose proof (H 0%nat ltac:(lia)) as H0. pose proof (H 1%nat ltac:(lia)) as H1.
    pose proof (H 2%nat ltac:(lia)) as H2. pose proof (H 3%nat ltac:(lia)) as H3.
    rewrite !Hi in H0, H1, H2, H3 by lia. clear H Hi.
    change (512 ^ (3 - Z.of_nat 0)) with 134217728 in H0. change (512 ^ (3 - Z.of_nat 1)) with 262144 in H1.
    change (512 ^ (3 - Z.of_nat 2)) with 512 in H2. change (512 ^ (3 - Z.of_nat 3)) with 1 in H3.
    assert (0 <= v / 4096 < 68719476736 /\ 0 <= v' / 4096 < 68719476736) as [B B'] by (Z.to_euclidean_division_equations; lia).
    revert H0 H1 H2 H3 B B'. generalize (v / 4096), (v' / 4096). intros p p' H0 H1 H2 H3 B B'.
    Z.to_euclidean_division_equations. lia.
  - intros E d Hd. rewrite !Hi, E by lia. done.
Qed.

(** ** Trees *)

Section tree.
Context {P : Type} `{HF : Frames P}.
Variable hhdm : Z.
Implicit Types m : mem.

Notation table_of := (Vmm.table_of hhdm).

Definition live (e : Z) : bool := has e VMM_FLAG_PRESENT && negb (has e VMM_FLAG_HUGE).

(** The table at depth [d] on the path of [v]. *)
Fixpoint tab (m : mem) (r : Z) (d : nat) (v : Z) : option Z :=
  match d with
  | O => Some r
  | S d' =>
      match tab m r d' v with
      | None => None
      | Some t => let e := entry t (idx d' v) m in if live e then Some (table_of e) else None
      end
  end.

Definition off (t t' : Z) : Prop := t + 4096 <= t' \/ t' + 4096 <= t.

Lemma page_off a b : aligned a -> aligned b -> a <> b -> off (a + hhdm) (b + hhdm).
Proof using Type. unfold off, aligned. intros. Z.to_euclidean_division_equations. lia. Qed.

Record is_table (p : P) (t : Z) : Prop := {
  it_phys : exists phys, t = phys + hhdm /\ fr_used p phys /\ aligned phys /\ 0 < phys < 2 ^ 52
}.

Record tree (p : P) (m : mem) (r : Z) : Prop := {
  tr_apart : forall d d' v v' t t', (d <= 3)%nat -> (d' <= 3)%nat ->
    tab m r d v = Some t -> tab m r d' v' = Some t' -> (d = d' /\ same d v v') \/ off t t';
  tr_used : forall d v t, (d <= 3)%nat -> tab m r d v = Some t -> is_table p t;
  tr_small : forall d v t, (d < 2)%nat -> tab m r d v = Some t ->
    has (entry t (idx d v) m) VMM_FLAG_PRESENT = true -> has (entry t (idx d v) m) VMM_FLAG_HUGE = false
}.

Lemma tab_same m r d v v' : same d v v' -> tab m r d v = tab m r d v'.
Proof using Type.
  induction d as [|d IH]; intros H; [done|]. apply same_S in H as [H E]. cbn [tab]. by rewrite (IH H), E.
Qed.

Lemma tab_prefix m r d d' v t : (d' <= d)%nat -> tab m r d v = Some t -> exists t', tab m r d' v = Some t'.
Proof using Type.
  revert t. induction d as [|d IH]; intros t Hd Ht; [replace d' with 0%nat by lia; eauto|].
  destruct (decide (d' = S d)) as [->|]; [eauto|]. cbn [tab] in Ht. destruct (tab m r d v) eqn:E; [|done].
  apply (IH z); auto. lia.
Qed.

(** [m'] is [m] with entry [i] of table [t] set to [x]. *)
Record sets (m m' : mem) (t i x : Z) : Prop := {
  se_here : entry t i m' = x;
  se_other : forall t' i', 0 <= i' <= 511 -> (t' = t /\ i' <> i) \/ off t' t -> entry t' i' m' = entry t' i' m
}.

Lemma set_entry_sets m t i x : 0 <= i <= 511 -> 0 <= x < 2 ^ 64 -> sets m (set_entry t i x m) t i x.
Proof using Type.
  intros Hi Hx. split.
  - apply load_store_same. exact Hx.
  - intros t' i' Hi' Hd. apply load_store_other. unfold off in Hd. cbn. lia.
Qed.

(** The tables after a leaf or intermediate entry of table [t] was set: only
    paths through that entry change. *)
Lemma tab_set p m m' r d v t x :
  tree p m r -> (d <= 3)%nat -> tab m r d v = Some t -> sets m m' t (idx d v) x ->
  forall d' v', (d' <= 3)%nat -> (d' <= d)%nat \/ ~ same (S d) v v' -> tab m' r d' v' = tab m r d' v'.
Proof using Type.
  intros T Hd Ht Se d'. induction d' as [|d' IH]; intros v' Hd' Hc; [done|]. cbn [tab].
  rewrite IH by (first [lia|destruct Hc; [left; lia|by right]]). destruct (tab m r d' v') as [t'|] eqn:E; [|done].
  assert (entry t' (idx d' v') m' = entry t' (idx d' v') m) as ->; [|done].
  apply (se_other _ _ _ _ _ Se); [apply idx_range|].
  destruct (tr_apart _ _ _ T d' d v' v t' t ltac:(lia) Hd E Ht) as [[-> Hs]|Hoff]; [|by right]. left. split.
  - rewrite (tab_same _ _ _ _ _ Hs), Ht in E. congruence.
  - destruct Hc as [|Hn]; [lia|]. intros Eq. apply Hn. apply same_S. split; [by apply same_sym|done].
Qed.

(** What is below a fresh empty table. *)
Lemma tab_below p m m' r d v t x nt :
  tree p m r -> (d <= 2)%nat -> tab m r d v = Some t -> sets m m' t (idx d v) x ->
  live x = true -> table_of x = nt -> (forall i, 0 <= i <= 511 -> entry nt i m' = 0) ->
  forall d' v', (S d <= d' <= 3)%nat -> same (S d) v v' ->
  tab m' r d' v' = if decide (d' = S d) then Some nt else None.
Proof using Type.
  intros T Hd Ht Se Hx Hnt H0 d'. induction d' as [|d' IH]; intros v' Hd' Hs; [lia|]. cbn [tab].
  apply same_S in Hs as [Hs Ei]. destruct (decide (d' = d)) as [->|Hne].
  - rewrite (tab_set p m m' r d v t x T ltac:(lia) Ht Se d v' ltac:(lia) ltac:(by left)).
    rewrite <- (tab_same _ _ _ _ _ Hs), Ht, <- Ei, (se_here _ _ _ _ _ Se), Hx, Hnt.
    destruct (decide (S d = S d)); [done|lia].
  - rewrite IH by (try lia; by apply same_S). destruct (decide (d' = S d)) as [->|].
    + rewrite H0 by apply idx_range. cbn. destruct (decide (S (S d) = S d)); [lia|done].
    + destruct (decide (S d' = S d)); [lia|done].
Qed.

(** The leaf entry that translates [v], with whether it maps a 2 MB page. *)
Definition leaf (m : mem) (r v : Z) : option (bool * Z) :=
  match tab m r 2 v with
  | None => None
  | Some pd =>
      let e := entry pd (idx 2 v) m in
      if negb (has e VMM_FLAG_PRESENT) then None
      else if has e VMM_FLAG_HUGE then Some (true, e)
      else
        let p := entry (table_of e) (idx 3 v) m in
        if negb (has p VMM_FLAG_PRESENT) then None else Some (false, p)
  end.

Lemma live_true e : live e = true <-> has e VMM_FLAG_PRESENT = true /\ has e VMM_FLAG_HUGE = false.
Proof using Type. unfold live. by rewrite andb_true_iff, negb_true_iff. Qed.

(** Memories that agree on the tables have the same tables and leaves. *)
Lemma tab_frame m m1 r :
  (forall d v t i, (d <= 3)%nat -> tab m r d v = Some t -> 0 <= i <= 511 -> entry t i m1 = entry t i m) ->
  forall d v, (d <= 4)%nat -> tab m1 r d v = tab m r d v.
Proof using Type.
  intros Hm d. induction d as [|d IH]; intros v Hd; [done|]. cbn [tab]. rewrite IH by lia.
  destruct (tab m r d v) as [t|] eqn:E; [|done]. rewrite (Hm d v t); auto; [lia|apply idx_range].
Qed.

Lemma tree_frame p m m1 r :
  (forall d v t i, (d <= 3)%nat -> tab m r d v = Some t -> 0 <= i <= 511 -> entry t i m1 = entry t i m) ->
  tree p m r -> tree p m1 r /\ forall v, leaf m1 r v = leaf m r v.
Proof using Type.
  intros Hm T. pose proof (tab_frame m m1 r Hm) as E. split.
  - split.
    + intros d d' v v' t t' Hd Hd' Ht Ht'. rewrite E in Ht, Ht' by lia. by apply (tr_apart _ _ _ T d d' v v').
    + intros d v t Hd Ht. rewrite E in Ht by lia. by apply (tr_used _ _ _ T d v).
    + intros d v t Hd Ht. rewrite E in Ht by lia. rewrite (Hm d v t) by (auto; try lia; apply idx_range).
      by apply (tr_small _ _ _ T d v t).
  - intros v. unfold leaf. rewrite E by lia. destruct (tab m r 2 v) as [pd|] eqn:E2; [|done].
    rewrite (Hm 2%nat v pd) by (auto; apply idx_range). set (e := entry pd (idx 2 v) m).
    destruct (has e VMM_FLAG_PRESENT) eqn:Ep; [|done]. destruct (has e VMM_FLAG_HUGE) eqn:Eh; [done|]. cbn [negb].
    rewrite (Hm 3%nat v (table_of e)); [done|lia| |apply idx_range].
    cbn [tab]. cbn [tab] in E2. rewrite E2. fold e. by rewrite (proj2 (live_true e)).
Qed.

(** Hanging a fresh empty table below an entry that was not present. *)
Section fresh.
Variables (p p' : P) (m m' : mem) (r : Z) (d : nat) (v t x nt : Z).
Hypothesis T : tree p m r.
Hypothesis Hkeep : forall a, fr_used p a -> fr_used p' a.
Hypothesis Hnt : is_table p' nt.
Hypothesis Hoff : forall t0, is_table p t0 -> off t0 nt.
Hypothesis Hd : (d <= 2)%nat.
Hypothesis Ht : tab m r d v = Some t.
Hypothesis Habs : has (entry t (idx d v) m) VMM_FLAG_PRESENT = false.
Hypothesis Hset : sets m m' t (idx d v) x.
Hypothesis Hx : live x = true.
Hypothesis Hxt : table_of x = nt.
Hypothesis Hzero : forall i, 0 <= i <= 511 -> entry nt i m' = 0.

Lemma fresh_tab d' v' : (d' <= 3)%nat ->
  (tab m' r d' v' = tab m r d' v' /\ ~ ((S d <= d')%nat /\ same (S d) v v')) \/
  ((S d <= d')%nat /\ same (S d) v v' /\ tab m r d' v' = None /\
   tab m' r d' v' = if decide (d' = S d) then Some nt else None).
Proof using T Hd Ht Habs Hset Hx Hxt Hzero.
  intros Hd'. destruct (decide ((S d <= d')%nat /\ same (S d) v v')) as [[H1 H2]|Hn].
  - right. split_and!; auto.
    + destruct (tab m r d' v') as [t'|] eqn:E; [|done]. exfalso.
      destruct (tab_prefix m r d' (S d) v' t' H1 E) as [t1 E1]. cbn [tab] in E1. apply same_S in H2 as [Hs Ei].
      rewrite <- (tab_same _ _ _ _ _ Hs), Ht, <- Ei in E1. unfold live in E1. rewrite Habs in E1. done.
    + by apply (tab_below p m m' r d v t x nt).
  - left. split; [|done]. apply (tab_set p m m' r d v t x T ltac:(lia) Ht Hset); [done|].
    destruct (decide (S d <= d')%nat); [right; tauto|left; lia].
Qed.

Lemma fresh_entry d' v' t' : (d' <= 3)%nat -> tab m r d' v' = Some t' -> (d' <> d \/ ~ same (S d) v v') ->
  entry t' (idx d' v') m' = entry t' (idx d' v') m.
Proof using T Hd Ht Hset.
  intros Hd' Ht' Hc. apply (se_other _ _ _ _ _ Hset); [apply idx_range|].
  destruct (tr_apart _ _ _ T d' d v' v t' t Hd' ltac:(lia) Ht' Ht) as [[-> Hs]|]; [|by right]. left.
  rewrite (tab_same _ _ _ _ _ Hs), Ht in Ht'. split; [congruence|].
  intros E. destruct Hc as [|Hc]; [done|]. apply Hc, same_S. split; [by apply same_sym|done].
Qed.

Lemma fresh_tree : tree p' m' r.
Proof using T Hkeep Hnt Hoff Hd Ht Habs Hset Hx Hxt Hzero.
  split.
  - intros d1 d2 v1 v2 t1 t2 H1 H2 E1 E2.
    destruct (fresh_tab d1 v1 H1) as [[F1 N1]|(L1 & S1 & _ & F1)],
             (fresh_tab d2 v2 H2) as [[F2 N2]|(L2 & S2 & _ & F2)]; rewrite F1 in E1; rewrite F2 in E2.
    + by apply (tr_apart _ _ _ T d1 d2 v1 v2).
    + destruct (decide (d2 = S d)); [|done]. injection E2 as <-. right. apply Hoff. by apply (tr_used _ _ _ T d1 v1).
    + destruct (decide (d1 = S d)); [|done]. injection E1 as <-. right.
      destruct (Hoff t2 (tr_used _ _ _ T d2 v2 t2 H2 E2)) as [O|O]; [by right|by left].
    + destruct (decide (d1 = S d)) as [->|]; [|done]. destruct (decide (d2 = S d)) as [->|]; [|done]. left. split; [done|].
      apply (same_trans _ _ v); [by apply same_sym|done].
  - intros d1 v1 t1 H1 E1. destruct (fresh_tab d1 v1 H1) as [[F1 _]|(_ & _ & _ & F1)]; rewrite F1 in E1.
    + destruct (tr_used _ _ _ T d1 v1 t1 H1 E1) as [(phys & ? & ? & ?)]. split. exists phys. auto.
    + destruct (decide (d1 = S d)); [|done]. by injection E1 as <-.
  - intros d1 v1 t1 H1 E1. destruct (fresh_tab d1 v1 ltac:(lia)) as [[F1 N1]|(L1 & S1 & _ & F1)]; rewrite F1 in E1.
    + destruct (decide (d1 = d /\ same (S d) v v1)) as [[-> Hs]|Hn].
      * apply same_S in Hs as [Hs Ei]. rewrite <- (tab_same _ _ _ _ _ Hs), Ht in E1. injection E1 as <-.
        rewrite <- Ei, (se_here _ _ _ _ _ Hset). intros _. by apply live_true in Hx as [_ ?].
      * assert (d1 <> d \/ ~ same (S d) v v1) as Hc by (destruct (decide (d1 = d)); [right; tauto|by left]).
        rewrite (fresh_entry d1 v1 t1 ltac:(lia) E1 Hc).
        by apply (tr_small _ _ _ T d1 v1).
    + destruct (decide (d1 = S d)); [|done]. injection E1 as <-. rewrite Hzero by apply idx_range. done.
Qed.

Lemma fresh_leaf v' : leaf m' r v' = leaf m r v'.
Proof using T Hd Ht Habs Hset Hx Hxt Hzero.
  unfold leaf. destruct (fresh_tab 2 v' ltac:(lia)) as [[F N]|(L & S1 & N & F)]; rewrite F.
  - destruct (tab m r 2 v') as [pd|] eqn:E; [|done].
    destruct (decide (d = 2%nat /\ same 3 v v')) as [[-> Hs]|Hn].
    + apply same_S in Hs as [Hs Ei]. rewrite <- (tab_same _ _ _ _ _ Hs), Ht in E. injection E as <-.
      rewrite <- Ei, (se_here _ _ _ _ _ Hset), Habs. apply live_true in Hx as [-> ->]. cbn [negb].
      rewrite Hxt, Hzero by apply idx_range. done.
    + assert (2%nat <> d \/ ~ same (S d) v v') as Hc by (destruct (decide (d = 2%nat)) as [->|]; [right; tauto|left; lia]).
      rewrite (fresh_entry 2 v' pd ltac:(lia) E Hc).
      set (e := entry pd (idx 2 v') m). destruct (has e VMM_FLAG_PRESENT) eqn:Ep; [|done].
      destruct (has e VMM_FLAG_HUGE) eqn:Eh; [done|]. cbn [negb]. rewrite (fresh_entry 3 v'); [done|lia| |left; lia].
      cbn [tab]. cbn [tab] in E. rewrite E. fold e. by rewrite (proj2 (live_true e)).
  - rewrite N. destruct (decide (2%nat = S d)); [|done]. rewrite Hzero by apply idx_range. done.
Qed.
End fresh.

Lemma tree_mono p p' m r : (forall a, fr_used p a -> fr_used p' a) -> tree p m r -> tree p' m r.
Proof using Type.
  intros Hk [A B C]. split; auto. intros d v t Hd Ht. destruct (B d v t Hd Ht) as [(phys & ? & ? & ?)].
  split. exists phys. auto.
Qed.

(** Writing a leaf entry. *)
Lemma leaf_set p m m' r v t x :
  tree p m r -> tab m r 3 v = Some t -> sets m m' t (idx 3 v) x ->
  tree p m' r /\ (forall d v', (d <= 3)%nat -> tab m' r d v' = tab m r d v') /\
  forall v', leaf m' r v' = if decide (same 4 v v')
                            then if negb (has x VMM_FLAG_PRESENT) then None else Some (false, x)
                            else leaf m r v'.
Proof using Type.
  intros T Ht Se.
  assert (forall d v', (d <= 3)%nat -> tab m' r d v' = tab m r d v') as Et.
  { intros d v' Hd. apply (tab_set p m m' r 3 v t x T ltac:(lia) Ht Se d v' Hd). left. lia. }
  assert (forall d v' t', (d <= 3)%nat -> tab m r d v' = Some t' -> (d <> 3%nat \/ ~ same 4 v v') ->
    entry t' (idx d v') m' = entry t' (idx d v') m) as Ee.
  { intros d v' t' Hd E Hc. apply (se_other _ _ _ _ _ Se); [apply idx_range|].
    destruct (tr_apart _ _ _ T d 3 v' v t' t Hd ltac:(lia) E Ht) as [[-> Hs]|]; [|by right]. left.
    rewrite (tab_same _ _ _ _ _ Hs), Ht in E. split; [congruence|]. intros Ei. destruct Hc as [|Hc]; [done|].
    apply Hc, same_S. split; [by apply same_sym|done]. }
  split_and!; [|exact Et|].
  - split.
    + intros d d' v1 v2 t1 t2 H1 H2 E1 E2. rewrite Et in E1, E2 by lia. by apply (tr_apart _ _ _ T d d' v1 v2).
    + intros d v1 t1 H1 E1. rewrite Et in E1 by lia. by apply (tr_used _ _ _ T d v1).
    + intros d v1 t1 H1 E1. rewrite Et in E1 by lia. rewrite (Ee d v1 t1 ltac:(lia) E1 ltac:(left; lia)).
      by apply (tr_small _ _ _ T d v1).
  - intros v'. unfold leaf. rewrite Et by lia. destruct (tab m r 2 v') as [pd|] eqn:E2.
    + rewrite (Ee 2%nat v' pd ltac:(lia) E2 ltac:(left; lia)).
      set (e := entry pd (idx 2 v') m).
      assert (tab m r 3 v' = if live e then Some (table_of e) else None) as E3 by (cbn [tab] in E2 |- *; by rewrite E2).
      unfold live in E3. destruct (decide (same 4 v v')) as [Hs|Hn].
      * apply same_S in Hs as [Hs Ei]. rewrite <- (tab_same _ _ _ _ _ Hs), Ht in E3.
        destruct (has e VMM_FLAG_PRESENT), (has e VMM_FLAG_HUGE); try done. injection E3 as <-. cbn [negb].
        by rewrite <- Ei, (se_here _ _ _ _ _ Se).
      * destruct (has e VMM_FLAG_PRESENT), (has e VMM_FLAG_HUGE); try done. cbn [negb andb] in E3 |- *.
        rewrite (Ee 3%nat v' (table_of e) ltac:(lia) E3 ltac:(by right)). done.
    + destruct (decide (same 4 v v')) as [Hs|]; [|done]. exfalso.
      destruct (tab_prefix m r 3 2 v t ltac:(lia) Ht) as [t2 Et2].
      rewrite (tab_same _ _ _ v v'), E2 in Et2; [done|]. apply (same_le 4); [lia|done].
Qed.


(** A root with no entry present. *)
Lemma empty_tree p m r : is_table p r -> (forall i, 0 <= i <= 511 -> has (entry r i m) VMM_FLAG_PRESENT = false) -> tree p m r.
Proof using Type.
  intros Hr Hi.
  assert (forall d v, tab m r (S d) v = None) as N.
  { induction d as [|d IH]; intros v; [|change (tab m r (S (S d)) v) with
      (match tab m r (S d) v with None => None | Some t => let e := entry t (idx (S d) v) m in if live e then Some (table_of e) else None end);
      by rewrite IH].
    cbn [tab]. unfold live. rewrite Hi by apply idx_range. done. }
  split.
  - intros d d' v v' t t' _ _ E E'. destruct d as [|d]; [|by rewrite N in E]. destruct d' as [|d']; [|by rewrite N in E'].
    left. split; [done|]. intros i Hi'. lia.
  - intros d v t _ E. destruct d as [|d]; [|by rewrite N in E]. cbn in E. by injection E as <-.
  - intros d v t _ E. destruct d as [|d]; [|by rewrite N in E]. injection E as <-. rewrite Hi by apply idx_range. done.
Qed.


End tree.

(** ** Operations on states *)

Section states.
Context {P H : Type} `{HF : Frames P} `{HFL : !FramesLaws P} `{HK : Kheap H}.
Variable hhdm : Z.
Hypothesis Hhhdm : 0 <= hhdm.
Implicit Types s : vmm P H.

Notation tab := (tab hhdm).
Notation leaf := (leaf hhdm).
Notation tree := (tree hhdm).

(** The frames in use lie below 2^52, the limit of physical addresses, and in
    the direct map. *)
Definition small (p : P) : Prop := forall a, fr_used p a -> a < 2 ^ 52 /\ a + hhdm < 2 ^ 64.

Lemma memset_zero d m i : 0 <= i <= 511 -> entry d i (snd (memset d 0 4096 m)) = 0.
Proof using Type.
  intros Hi. set (m1 := snd (memset d 0 4096 m)).
  assert (forall b, d <= b < d + 4096 -> m1 b = 0) as Hm1.
  { intros b Hb. unfold m1. rewrite memset_at by lia.
    rewrite (proj2 (Z.leb_le _ _)), (proj2 (Z.ltb_lt _ _)) by lia. done. }
  clearbody m1. unfold entry. cbn [load]. rewrite !Hm1 by lia. done.
Qed.

Lemma memset_off d m t i : 0 <= i <= 511 -> off t d -> entry t i (snd (memset d 0 4096 m)) = entry t i m.
Proof using Type.
  intros Hi Ho. unfold entry. apply load_ext. intros b Hb. cbn in Hb. unfold off in Ho. rewrite memset_at by lia.
  destruct (Z.leb_spec d b), (Z.ltb_spec b (d + 4096)); cbn [andb]; try done. lia.
Qed.

Lemma table_entry phys f : aligned phys -> 0 < phys < 2 ^ 52 -> phys + hhdm < 2 ^ 64 -> f = 0 \/ f = VMM_FLAG_USER ->
  let x := Z.lor (Z.lor (Z.lor phys VMM_FLAG_PRESENT) VMM_FLAG_WRITE) f in
  live x = true /\ table_of hhdm x = phys + hhdm /\ 0 <= x < 2 ^ 64.
Proof using Hhhdm.
  intros Ha Hp Hv Hf. cbv zeta. assert (exists g, 0 <= g < 4096 /\ live g = true /\
    Z.lor (Z.lor (Z.lor phys VMM_FLAG_PRESENT) VMM_FLAG_WRITE) f = Z.lor phys g) as (g & Hg & Hlg & ->).
  { exists (Z.lor (Z.lor VMM_FLAG_PRESENT VMM_FLAG_WRITE) f). rewrite !Z.lor_assoc.
    destruct Hf as [->| ->]; cbn; split_and!; try lia; done. }
  unfold live in *. rewrite !page_flag by (done || lia). split; [done|]. split.
  - unfold table_of, vmm_phys_to_virt. rewrite page_field by lia || done. apply wrap_small. lia.
  - rewrite page_lor by done. lia.
Qed.

(** One level of the descent of vmm_map_page. *)
Lemma goc_ok s r d v t f :
  tree (frames s) (vm s) r -> fr_ok (frames s) -> (d <= 2)%nat -> tab (vm s) r d v = Some t ->
  f = 0 \/ f = VMM_FLAG_USER ->
  let '(t', s') := get_or_create_table hhdm t (idx d v) f s in
  small (frames s') ->
  fr_ok (frames s') /\ (forall a, fr_used (frames s) a -> fr_used (frames s') a) /\
  tree (frames s') (vm s') r /\ (forall v', leaf (vm s') r v' = leaf (vm s) r v') /\
  (t' <> 0 -> tab (vm s') r (S d) v = Some t').
Proof using HFL Hhhdm.
  intros T Hok Hd Ht Hf. unfold get_or_create_table, get. set (e := entry t (idx d v) (vm s)).
  destruct (has e VMM_FLAG_PRESENT) eqn:Ep.
  { change (Z.shiftl 1 7) with VMM_FLAG_HUGE. destruct (has e VMM_FLAG_HUGE) eqn:Eh; intros _.
    - split_and!; auto. done.
    - split_and!; auto. intros _. cbn [VmmProps.tab]. rewrite Ht. fold e. by rewrite (proj2 (live_true e)). }
  unfold alloc_page_table, alloc_frame. destruct (fr_alloc (frames s)) as [phys p'] eqn:Ea.
  destruct (fr_alloc_law (frames s) phys p' Hok Ea) as (Hok' & Hkeep & Hnew).
  destruct (Z.eqb_spec phys 0) as [|Hp].
  { cbn [Z.eqb]. intros _. cbn. split_and!; auto; [by eapply tree_mono|done]. }
  destruct (Hnew Hp) as (Hp0 & Hal & Hfresh & Hused).
  set (hv := vmm_phys_to_virt hhdm phys).
  assert (phys + hhdm < 2 ^ 64 -> hv = phys + hhdm) as Ev by (intros Hlim; apply wrap_small; lia).
  destruct (hv =? 0) eqn:Ehv; intros Hsmall; pose proof (Hsmall phys Hused) as [Hlim Hlim']; clear Hsmall;
    specialize (Ev Hlim'); rewrite Ev in *; clear hv Ev; [apply Z.eqb_eq in Ehv; lia|clear Ehv].
  assert (vmm_virt_hhdm_to_phys hhdm (phys + hhdm) = phys) as ->.
  { unfold vmm_virt_hhdm_to_phys. rewrite wrap_small; lia. }
  set (nt := phys + hhdm) in *. set (x := Z.lor _ f).
  destruct (table_entry phys f Hal ltac:(lia) Hlim' Hf) as (Hx & Hxt & Hxr). fold x in Hx, Hxt, Hxr.
  set (m1 := snd (memset nt 0 PAGE_SIZE (vm s))).
  assert (forall t0, is_table hhdm (frames s) t0 -> off t0 nt) as Hoff.
  { intros t0 [(ph0 & -> & Hu & Hal0 & _)]. assert (ph0 <> phys) by (intros ->; done).
    by apply page_off. }
  assert (forall d v t i, (d <= 3)%nat -> tab (vm s) r d v = Some t -> 0 <= i <= 511 -> entry t i m1 = entry t i (vm s)) as Hm1.
  { intros d0 v0 t0 i Hd0 Ht0 Hi. apply memset_off; auto. apply Hoff. by apply (tr_used _ _ _ _ T d0 v0). }
  destruct (tree_frame hhdm (frames s) (vm s) m1 r Hm1 T) as [T1 L1].
  assert (tab m1 r d v = Some t) as Ht1 by (by rewrite (tab_frame hhdm (vm s) m1 r Hm1) by lia).
  change (vm (put t (idx d v) x (zero_page nt (s <| frames := p' |>)))) with (set_entry t (idx d v) x m1).
  change (frames (put t (idx d v) x (zero_page nt (s <| frames := p' |>)))) with p'.
  assert (is_table hhdm p' nt) as Hnt by (split; exists phys; split_and!; auto; lia).
  pose proof (set_entry_sets m1 t (idx d v) x (idx_range d v) Hxr) as Hset.
  assert (has (entry t (idx d v) m1) VMM_FLAG_PRESENT = false) as Habs.
  { rewrite (Hm1 d v t) by (auto; try lia; apply idx_range). exact Ep. }
  assert (off nt t) as Hnt0.
  { destruct (Hoff t (tr_used _ _ _ _ T d v t ltac:(lia) Ht)); [by right|by left]. }
  assert (forall i, 0 <= i <= 511 -> entry nt i (set_entry t (idx d v) x m1) = 0) as Hz.
  { intros i Hi. rewrite (se_other _ _ _ _ _ Hset) by auto. by apply memset_zero. }
  clearbody m1 x. split; [exact Hok'|]. split; [exact Hkeep|]. split_and!.
  - apply (fresh_tree hhdm (frames s) p' m1 _ r d v t x nt); assumption.
  - intros v'. rewrite (fresh_leaf hhdm (frames s) m1 _ r d v t x nt) by done. apply L1.
  - intros _. destruct (fresh_tab hhdm (frames s) m1 _ r d v t x nt T1 Hd Ht1 Habs Hset Hx Hxt Hz (S d) v ltac:(lia))
      as [[_ N]|(_ & _ & _ & ->)]; [exfalso; apply N; split; [lia|done]|].
    destruct (decide (S d = S d)); [done|lia].
Qed.

Lemma lor_range a b : 0 <= a < 2 ^ 64 -> 0 <= b < 2 ^ 64 -> 0 <= Z.lor a b < 2 ^ 64.
Proof using Type.
  intros Ha Hb. assert (Z.lor a b = Z.lor a b mod 2 ^ 64) as ->; [|apply Z.mod_pos_bound; lia].
  rewrite <- Z.land_ones by lia. rewrite Z.land_lor_distr_l, !Z.land_ones, !Z.mod_small by lia. done.
Qed.

Lemma user_bit flags : Z.land flags VMM_FLAG_USER = 0 \/ Z.land flags VMM_FLAG_USER = VMM_FLAG_USER.
Proof using Type.
  destruct (Z.testbit flags 2) eqn:E; [right|left]; apply Z.bits_inj'; intros i Hi;
    rewrite Z.land_spec; change VMM_FLAG_USER with (2 ^ 2); rewrite ?Z.pow2_bits_eqb, ?Z.bits_0 by lia;
    destruct (Z.eqb_spec 2 i) as [<-|]; rewrite ?E, ?andb_false_r; done.
Qed.

(** The page attributes: flags that leave the address field alone. *)
Record attrs (flags : Z) : Prop := {
  at_range : 0 <= flags < 2 ^ 64;
  at_addr : Z.land flags ADDR_MASK = 0
}.

Definition pte (phys flags : Z) : Z := Z.lor (Z.lor (Z.land phys ADDR_MASK) flags) VMM_FLAG_PRESENT.

Lemma mask_range x : 0 <= Z.land x ADDR_MASK < 2 ^ 52.
Proof using Type.
  rewrite addr_mask. pose proof (Z.mod_pos_bound (x / 4096) (2 ^ 40) ltac:(lia)). change (2 ^ 52) with (2 ^ 40 * 4096). nia.
Qed.

Lemma pte_ok phys flags : attrs flags ->
  0 <= pte phys flags < 2 ^ 64 /\ has (pte phys flags) VMM_FLAG_PRESENT = true /\
  Z.land (pte phys flags) ADDR_MASK = Z.land phys ADDR_MASK /\
  Z.land (pte phys flags) FLAGS_MASK = Z.lor (Z.land flags FLAGS_MASK) VMM_FLAG_PRESENT.
Proof using Type.
  intros [Hr Ha]. unfold pte. split; [|split_and!].
  - pose proof (mask_range phys). apply lor_range; [apply lor_range; lia|unfold VMM_FLAG_PRESENT; lia].
  - unfold has. rewrite Z.land_lor_distr_l, Z.land_diag. apply negb_true_iff, Z.eqb_neq. intros E.
    apply Z.lor_eq_0_iff in E as [_ E]. done.
  - rewrite !Z.land_lor_distr_l, Ha, <- Z.land_assoc, Z.land_diag, !Z.lor_0_r. done.
  - rewrite !Z.land_lor_distr_l, <- Z.land_assoc. change (Z.land ADDR_MASK FLAGS_MASK) with 0.
    rewrite Z.land_0_r, Z.lor_0_l. done.
Qed.

(** What every allocation keeps. *)
Record grows (p p' : P) : Prop := {
  gr_ok : fr_ok p';
  gr_used : forall a, fr_used p a -> fr_used p' a
}.

Lemma small_before p p' : grows p p' -> small p' -> small p.
Proof using Type. intros [_ Hu] Hs a Ha. by apply Hs, Hu. Qed.

Lemma grows_trans p1 p2 p3 : grows p1 p2 -> grows p2 p3 -> grows p1 p3.
Proof using Type. intros [] []. split; auto. Qed.

Lemma goc_grows s t i f : fr_ok (frames s) -> grows (frames s) (frames (snd (get_or_create_table hhdm t i f s))).
Proof using HFL.
  intros Hok. unfold get_or_create_table, alloc_page_table, alloc_frame.
  destruct (has _ _); [by destruct (has _ _)|]. destruct (fr_alloc (frames s)) as [phys p'] eqn:Ea.
  destruct (fr_alloc_law (frames s) phys p' Hok Ea) as (Hok' & Hkeep & _).
  destruct (phys =? 0); [done|]. destruct (vmm_phys_to_virt hhdm phys =? 0); done.
Qed.

(** The descent of vmm_map_page to the table at depth [d]. *)
Lemma goc_step s r d v t f : fr_ok (frames s) -> (d <= 2)%nat -> f = 0 \/ f = VMM_FLAG_USER ->
  exists t' s', get_or_create_table hhdm t (idx d v) f s = (t', s') /\ grows (frames s) (frames s') /\
  (small (frames s') -> tree (frames s) (vm s) r -> tab (vm s) r d v = Some t ->
   tree (frames s') (vm s') r /\ (forall v', leaf (vm s') r v' = leaf (vm s) r v') /\
   (t' <> 0 -> tab (vm s') r (S d) v = Some t')).
Proof using HFL Hhhdm.
  intros Hok Hd Hf. pose proof (goc_grows s t (idx d v) f Hok) as G. pose proof (goc_ok s r d v t f) as K.
  destruct (get_or_create_table hhdm t (idx d v) f s) as [t' s']. exists t', s'. split_and!; auto.
  intros Hs T Ht. destruct (K T Hok Hd Ht Hf Hs) as (_ & _ & ?). done.
Qed.

(** vmm_map_page, on success and on failure. *)
Lemma map_page_ok s r v phys flags ok s' :
  vmm_map_page hhdm r v phys flags s = (ok, s') ->
  tree (frames s) (vm s) r -> fr_ok (frames s) -> attrs flags -> 
  grows (frames s) (frames s') /\
  (small (frames s') -> tree (frames s') (vm s') r /\
   forall v', leaf (vm s') r v' =
     if ok && bool_decide (same 4 v v') then Some (false, pte phys flags) else leaf (vm s) r v').
Proof using HFL Hhhdm.
  intros E T Hok Ha. unfold vmm_map_page in E.
  change (pml4_index v) with (idx 0 v) in E. change (pdpt_index v) with (idx 1 v) in E.
  change (pd_index v) with (idx 2 v) in E. change (pt_index v) with (idx 3 v) in E.
  set (f := Z.land flags VMM_FLAG_USER) in E. pose proof (user_bit flags) as Hf. fold f in Hf.
  destruct (goc_step s r 0 v r f Hok ltac:(lia) Hf) as (t1 & s1 & E1 & G1 & K1). rewrite E1 in E.
  destruct (Z.eqb_spec t1 0) as [|N1].
  { injection E as <- <-. split; [done|]. intros Hs. by destruct (K1 Hs T eq_refl) as (? & ? & _). }
  destruct (goc_step s1 r 1 v t1 f (gr_ok _ _ G1) ltac:(lia) Hf) as (t2 & s2 & E2 & G2 & K2). rewrite E2 in E.
  destruct (Z.eqb_spec t2 0) as [|N2].
  { injection E as <- <-. split; [by eapply grows_trans|]. intros Hs.
    destruct (K1 (small_before _ _ G2 Hs) T eq_refl) as (T1 & L1 & X1).
    destruct (K2 Hs T1 (X1 N1)) as (T2 & L2 & _). split; [done|]. intros v'. rewrite L2, L1. done. }
  destruct (goc_step s2 r 2 v t2 f (gr_ok _ _ G2) ltac:(lia) Hf) as (t3 & s3 & E3 & G3 & K3). rewrite E3 in E.
  pose proof (grows_trans _ _ _ G1 (grows_trans _ _ _ G2 G3)) as G.
  assert (small (frames s3) -> tree (frames s3) (vm s3) r /\ (forall v', leaf (vm s3) r v' = leaf (vm s) r v') /\
    (t3 <> 0 -> tab (vm s3) r 3 v = Some t3)) as K.
  { intros Hs. destruct (K1 (small_before _ _ G2 (small_before _ _ G3 Hs)) T eq_refl) as (T1 & L1 & X1).
    destruct (K2 (small_before _ _ G3 Hs) T1 (X1 N1)) as (T2 & L2 & X2).
    destruct (K3 Hs T2 (X2 N2)) as (T3 & L3 & X3). split_and!; auto. intros v'. rewrite L3, L2, L1. done. }
  destruct (Z.eqb_spec t3 0) as [|N3]; injection E as <- <-; (split; [done|]); intros Hs; destruct (K Hs) as (T3 & L3 & X3).
  { split; [done|]. exact L3. }
  destruct (pte_ok phys flags Ha) as (Hr & Hp & _).
  destruct (leaf_set hhdm _ _ _ r v t3 _ T3 (X3 N3) (set_entry_sets (vm s3) t3 (idx 3 v) _ (idx_range 3 v) Hr)) as (T4 & _ & L4).
  split; [exact T4|]. intros v'. cbn [andb]. unfold put. cbn [vm vmm_shootdown_page]. rewrite L4, L3, Hp. cbn [negb].
  by destruct (decide (same 4 v v')) as [?|?]; [rewrite bool_decide_true|rewrite bool_decide_false].
Qed.


(** ** Translation *)

Definition phys_of (l : option (bool * Z)) (v : Z) : Z :=
  match l with
  | None => 0
  | Some (true, e) => Z.lor (Z.land e HUGE_MASK) (Z.land v (HUGE_PAGE_SIZE - 1))
  | Some (false, e) => Z.lor (Z.land e ADDR_MASK) (Z.land v 0xFFF)
  end.

(** The walk reaches the page directory of the tree. *)
Lemma walk_tab s r v : tree (frames s) (vm s) r ->
  walk_pd hhdm r v s =
    match tab (vm s) r 2 v with
    | None => None
    | Some pd => let e := entry pd (idx 2 v) (vm s) in if has e VMM_FLAG_PRESENT then Some (pd, e) else None
    end.
Proof using Type.
  intros T. unfold walk_pd, get. change (pml4_index v) with (idx 0 v). change (pdpt_index v) with (idx 1 v).
  change (pd_index v) with (idx 2 v). cbn [VmmProps.tab].
  set (e0 := entry r (idx 0 v) (vm s)). pose proof (tr_small _ _ _ _ T 0 v r ltac:(lia) eq_refl) as S0. fold e0 in S0.
  assert (tab (vm s) r 1 v = if live e0 then Some (table_of hhdm e0) else None) as E1 by done.
  unfold live in E1 |- *. destruct (has e0 VMM_FLAG_PRESENT); [|done]. rewrite (S0 eq_refl) in *. cbn [negb andb] in *.
  pose proof (tr_small _ _ _ _ T 1 v _ ltac:(lia) E1) as S1. set (e1 := entry (table_of hhdm e0) (idx 1 v) (vm s)) in *.
  destruct (has e1 VMM_FLAG_PRESENT); [|done]. rewrite (S1 eq_refl). cbn [negb andb].
  by destruct (has _ VMM_FLAG_PRESENT).
Qed.

Lemma virt_to_phys_leaf s r v : tree (frames s) (vm s) r ->
  vmm_virt_to_phys hhdm r v s = phys_of (leaf (vm s) r v) v.
Proof using Type.
  intros T. unfold vmm_virt_to_phys, VmmProps.leaf. rewrite (walk_tab s r v T).
  destruct (tab (vm s) r 2 v) as [pd|]; [|done]. cbv zeta. set (e := entry pd (idx 2 v) (vm s)).
  destruct (has e VMM_FLAG_PRESENT); [|done]. cbn [negb]. destruct (has e VMM_FLAG_HUGE); [done|].
  unfold get. change (pt_index v) with (idx 3 v). by destruct (has (entry (table_of hhdm e) (idx 3 v) (vm s)) VMM_FLAG_PRESENT).
Qed.

Lemma flags_leaf s r v h e : tree (frames s) (vm s) r -> leaf (vm s) r v = Some (h, e) ->
  vmm_get_pte_flags hhdm r v s = Z.land e FLAGS_MASK.
Proof using Type.
  intros T. unfold vmm_get_pte_flags, VmmProps.leaf. rewrite (walk_tab s r v T).
  destruct (tab (vm s) r 2 v) as [pd|]; [|done]. cbv zeta. set (e0 := entry pd (idx 2 v) (vm s)).
  destruct (has e0 VMM_FLAG_PRESENT); [|done]. cbn [negb]. destruct (has e0 VMM_FLAG_HUGE); [congruence|].
  unfold get. change (pt_index v) with (idx 3 v). destruct (has (entry (table_of hhdm e0) (idx 3 v) (vm s)) VMM_FLAG_PRESENT); cbn [negb]; congruence.
Qed.

(** The page table of an address that a 4 KB entry translates. *)
Lemma leaf_tab m r v e : leaf m r v = Some (false, e) ->
  exists pd t, tab m r 2 v = Some pd /\ tab m r 3 v = Some t /\ live (entry pd (idx 2 v) m) = true /\
    table_of hhdm (entry pd (idx 2 v) m) = t /\ entry t (idx 3 v) m = e /\ has e VMM_FLAG_PRESENT = true.
Proof using Type.
  unfold VmmProps.leaf. destruct (tab m r 2 v) as [pd|] eqn:E2; [|done]. set (e0 := entry pd (idx 2 v) m).
  destruct (has e0 VMM_FLAG_PRESENT) eqn:Ep; [|done]. cbn [negb]. destruct (has e0 VMM_FLAG_HUGE) eqn:Eh; [done|].
  destruct (has (entry (table_of hhdm e0) (idx 3 v) m) VMM_FLAG_PRESENT) eqn:Eq; cbn [negb]; [|done]. intros [= <-].
  assert (live e0 = true) by (unfold live; by rewrite Ep, Eh).
  exists pd, (table_of hhdm e0). split_and!; auto. change (tab m r 3 v) with
    (match tab m r 2 v with None => None | Some t => let e := entry t (idx 2 v) m in if live e then Some (table_of hhdm e) else None end).
  rewrite E2. cbv zeta. fold e0. by rewrite H0.
Qed.

(** Writing the entry of a page that is mapped. *)
Lemma put_leaf s r v t x : tree (frames s) (vm s) r -> tab (vm s) r 3 v = Some t -> 0 <= x < 2 ^ 64 ->
  let s' := put t (idx 3 v) x s in
  tree (frames s') (vm s') r /\
  forall v', leaf (vm s') r v' = if decide (same 4 v v')
                                 then if negb (has x VMM_FLAG_PRESENT) then None else Some (false, x)
                                 else leaf (vm s) r v'.
Proof using Type.
  intros T Ht Hx. destruct (leaf_set hhdm _ _ _ r v t x T Ht (set_entry_sets (vm s) t (idx 3 v) x (idx_range 3 v) Hx))
    as (T' & _ & L). split; [exact T'|exact L].
Qed.

Lemma leaf_same m r v v' : same 4 v v' -> leaf m r v = leaf m r v'.
Proof using Type.
  intros Hs. unfold VmmProps.leaf. rewrite <- (tab_same hhdm m r 2 v v') by (by apply (same_le 4); [lia|]).
  rewrite <- (Hs 2%nat), <- (Hs 3%nat) by lia. done.
Qed.

Lemma unmap_ok s r v : tree (frames s) (vm s) r -> (forall e, leaf (vm s) r v <> Some (true, e)) ->
  let s' := vmm_unmap_page hhdm r v s in
  frames s' = frames s /\ tree (frames s') (vm s') r /\
  forall v', leaf (vm s') r v' = if decide (same 4 v v') then None else leaf (vm s) r v'.
Proof using Type.
  intros T Hh. unfold vmm_unmap_page. rewrite (walk_tab s r v T).
  pose proof (fun v' => leaf_same (vm s) r v v') as Hsame.
  destruct (tab (vm s) r 2 v) as [pd|] eqn:E2.
  2:{ split_and!; auto. intros v'. destruct (decide (same 4 v v')); [|done]. rewrite <- Hsame by done.
      unfold VmmProps.leaf. by rewrite E2. }
  cbv zeta. set (e := entry pd (idx 2 v) (vm s)). destruct (has e VMM_FLAG_PRESENT) eqn:Ep.
  2:{ split_and!; auto. intros v'. destruct (decide (same 4 v v')); [|done]. rewrite <- Hsame by done.
      unfold VmmProps.leaf. rewrite E2. fold e. by rewrite Ep. }
  destruct (has e VMM_FLAG_HUGE) eqn:Eh.
  { exfalso. apply (Hh e). unfold VmmProps.leaf. rewrite E2. fold e. by rewrite Ep, Eh. }
  assert (tab (vm s) r 3 v = Some (table_of hhdm e)) as E3.
  { change (tab (vm s) r 3 v) with (match tab (vm s) r 2 v with None => None | Some t =>
      let e := entry t (idx 2 v) (vm s) in if live e then Some (table_of hhdm e) else None end).
    rewrite E2. cbv zeta. fold e. by rewrite (proj2 (live_true e)). }
  destruct (put_leaf s r v _ 0 T E3 ltac:(lia)) as [T' L]. split; [done|]. split; [exact T'|]. exact L.
Qed.


(** vmm_map_page on an address whose tables exist: one entry is written. *)
Lemma map_present s r v t phys flags : tree (frames s) (vm s) r -> tab (vm s) r 3 v = Some t ->
  vmm_map_page hhdm r v phys flags s = (true, vmm_shootdown_page v (put t (idx 3 v) (pte phys flags) s)).
Proof using Hhhdm.
  intros T Ht.
  assert (forall d t f, (d <= 2)%nat -> tab (vm s) r (S d) v = Some t -> exists t0, tab (vm s) r d v = Some t0 /\
    get_or_create_table hhdm t0 (idx d v) f s = (t, s) /\ (t =? 0) = false) as G.
  { intros d t1 f Hd H1. pose proof (tr_used _ _ _ _ T (S d) v t1 ltac:(lia) H1) as [(phys1 & -> & _ & _ & ?)].
    cbn [VmmProps.tab] in H1. destruct (tab (vm s) r d v) as [t0|]; [|done]. exists t0. split; [done|].
    unfold get_or_create_table, get. set (e := entry t0 (idx d v) (vm s)) in *.
    destruct (live e) eqn:El; [|done]. apply live_true in El as [-> El]. change (Z.shiftl 1 7) with VMM_FLAG_HUGE. rewrite El.
    injection H1 as E. split; [f_equal; exact E|]. apply Z.eqb_neq. lia. }
  unfold vmm_map_page. change (pml4_index v) with (idx 0 v). change (pdpt_index v) with (idx 1 v).
  change (pd_index v) with (idx 2 v). change (pt_index v) with (idx 3 v). set (f := Z.land flags VMM_FLAG_USER).
  destruct (G 2%nat t f ltac:(lia) Ht) as (t2 & H2 & E2 & N2). destruct (G 1%nat t2 f ltac:(lia) H2) as (t1 & H1 & E1 & N1).
  destruct (G 0%nat t1 f ltac:(lia) H1) as (t0 & H0 & E0 & N0). injection H0 as <-.
  rewrite E0, N0, E1, N1, E2, N2. done.
Qed.

Lemma update_ok s r v e flags : tree (frames s) (vm s) r -> leaf (vm s) r v = Some (false, e) ->
  exists t, tab (vm s) r 3 v = Some t /\
    vmm_update_flags hhdm r v flags s = (true, vmm_shootdown_page v (put t (idx 3 v) (pte e flags) s)).
Proof using Type.
  intros T L. destruct (leaf_tab _ _ _ _ L) as (pd & t & H2 & H3 & Hl & Et & Ee & Hp). exists t. split; [done|].
  unfold vmm_update_flags. rewrite (walk_tab s r v T), H2. cbv zeta. apply live_true in Hl as [-> ->]. rewrite Et.
  unfold get. change (pt_index v) with (idx 3 v). rewrite Ee, Hp. done.
Qed.

(** ** Flags *)

Lemma land_range a b : 0 <= a < 2 ^ 64 -> 0 <= Z.land a b < 2 ^ 64.
Proof using Type.
  intros Ha. assert (Z.land a b = Z.land a b mod 2 ^ 64) as ->; [|apply Z.mod_pos_bound; lia].
  rewrite <- Z.land_ones, <- Z.land_assoc, (Z.land_comm b), Z.land_assoc, (Z.land_ones a), Z.mod_small by lia. done.
Qed.

Lemma flags_attrs e : 0 <= e < 2 ^ 64 -> attrs (Z.land e FLAGS_MASK).
Proof using Type.
  intros He. split; [by apply land_range|by rewrite <- Z.land_assoc, Z.land_0_r].
Qed.

Lemma attrs_lor f g : attrs f -> attrs g -> attrs (Z.lor f g).
Proof using Type. intros [Hf Af] [Hg Ag]. split; [by apply lor_range|]. by rewrite Z.land_lor_distr_l, Af, Ag. Qed.

Lemma attrs_clear f k : attrs f -> attrs (clear_bits f k).
Proof using Type.
  intros [Hf Af]. unfold clear_bits. split.
  - by apply land_range.
  - rewrite <- Z.land_assoc, (Z.land_comm (u64 _)), Z.land_assoc, Af. apply Z.land_0_l.
Qed.

Lemma clear_low v : 0 <= v < 2 ^ 64 -> clear_bits v 0xFFF = v / 4096 * 4096.
Proof using Type.
  intros Hv. unfold clear_bits. change (u64 (Z.lnot 0xFFF)) with (Z.shiftl (Z.ones 52) 12).
  rewrite land_field by lia. change (2 ^ 12) with 4096. rewrite Z.mod_small; [done|].
  split; [apply Z.div_pos; lia|apply Z.div_lt_upper_bound; lia].
Qed.

(** The flags after a copy-on-write fault. *)
Lemma cow_flags e : 0 <= e < 2 ^ 64 ->
  let f := Z.lor (clear_bits (Z.land e FLAGS_MASK) VMM_FLAG_COW) VMM_FLAG_WRITE in
  attrs f /\ forall phys, has (pte phys f) VMM_FLAG_WRITE = true /\ has (pte phys f) VMM_FLAG_COW = false.
Proof using Type.
  intros He. cbv zeta. split.
  - apply attrs_lor; [by apply attrs_clear, flags_attrs|]. split; [unfold VMM_FLAG_WRITE; lia|done].
  - intros phys. unfold pte, has, clear_bits. split.
    + apply negb_true_iff, Z.eqb_neq. rewrite !Z.land_lor_distr_l, Z.land_diag. intros E.
      apply Z.lor_eq_0_iff in E as [E _]. apply Z.lor_eq_0_iff in E as [_ E]. apply Z.lor_eq_0_iff in E as [_ E]. done.
    + rewrite !Z.land_lor_distr_l, <- !Z.land_assoc. by rewrite !Z.land_0_r.
Qed.


(** ** Memory holds bytes *)

Lemma goc_bytes s t i f : bytes (vm s) -> bytes (vm (snd (get_or_create_table hhdm t i f s))).
Proof using Type.
  intros Hb. unfold get_or_create_table, alloc_page_table, alloc_frame.
  destruct (has _ _); [by destruct (has _ _)|]. destruct (fr_alloc (frames s)) as [phys p'].
  destruct (phys =? 0); [done|]. destruct (vmm_phys_to_virt hhdm phys =? 0).
  1: apply memset_bytes, Hb. apply store_bytes, memset_bytes, Hb.
Qed.

Lemma map_bytes r v phys flags s : bytes (vm s) -> bytes (vm (snd (vmm_map_page hhdm r v phys flags s))).
Proof using Type.
  intros Hb. unfold vmm_map_page.
  pose proof (goc_bytes s r (pml4_index v) (Z.land flags VMM_FLAG_USER) Hb) as B1.
  destruct (get_or_create_table _ _ _ _ s) as [t1 s1]. destruct (t1 =? 0); [done|].
  pose proof (goc_bytes s1 t1 (pdpt_index v) (Z.land flags VMM_FLAG_USER) B1) as B2.
  destruct (get_or_create_table _ _ _ _ s1) as [t2 s2]. destruct (t2 =? 0); [done|].
  pose proof (goc_bytes s2 t2 (pd_index v) (Z.land flags VMM_FLAG_USER) B2) as B3.
  destruct (get_or_create_table _ _ _ _ s2) as [t3 s3]. destruct (t3 =? 0); [done|]. by apply store_bytes.
Qed.


End states.

End VmmProps.
