(* ===== verification/VmmClaims.v ===== *)
(** * Correctness of virtual memory

    Mapping, unmapping and copy on write against the translation the walk
    computes, the physical memory manager as the frame allocator, and concrete
    runs that show where the code departs from its comments. *)

From S2P Require Import Prelude Mem Str Heap Pmm PmmSpec HeapClaims Vmm VmmProps.
Import HeapClaims Mem Str Vmm VmmProps.

Module VmmClaims.

(** ** Frame allocators *)

(** Frames handed out in order up to [fb_end], with reference counts. *)
Record frame_bump := { fb_next : Z; fb_end : Z; fb_refs : Z -> Z }.

#[export] Instance bump_frames : Frames frame_bump := {
  fr_alloc p := if fb_next p + 4096 <=? fb_end p
                then (fb_next p, {| fb_next := fb_next p + 4096; fb_end := fb_end p; fb_refs := (fb_refs p).[fb_next p <- 1] |})
                else (0, p);
  fr_free a p := p;
  fr_ref a p := {| fb_next := fb_next p; fb_end := fb_end p; fb_refs := (fb_refs p).[a <- fb_refs p a + 1] |};
  fr_unref a p := {| fb_next := fb_next p; fb_end := fb_end p; fb_refs := (fb_refs p).[a <- fb_refs p a - 1] |};
  fr_refcount a p := fb_refs p a;
  fr_ok p := 4096 <= fb_next p /\ fb_next p mod 4096 = 0;
  fr_used p a := 0 <= a < fb_next p
}.

#[export] Instance bump_frames_laws : FramesLaws frame_bump.
Proof.
  split. intros [n l f] r p' [H1 H2] E. cbn in *. destruct (n + 4096 <=? l); injection E as <- <-; cbn.
  - split_and!; [lia|Z.to_euclidean_division_equations; lia|intros; lia|intros; split_and!; lia].
  - split_and!; [lia|done|done|done].
Qed.

(** The physical memory manager as the source of frames. *)
#[export] Instance pmm_frames : Frames Pmm.pmm := {
  fr_alloc := Pmm.pmm_alloc_page;
  fr_free := Pmm.pmm_free_page;
  fr_ref := Pmm.pmm_page_ref;
  fr_unref a s := snd (Pmm.pmm_page_unref a s);
  fr_refcount a s := Pmm.pmm_page_refcount s a;
  fr_ok := PmmSpec.wf;
  fr_used s a := exists k, 0 < k /\ pages_owned s a k
}.

#[export] Instance pmm_frames_laws : FramesLaws Pmm.pmm.
Proof.
  split. intros p r p' W E. assert (pages_ok p) as W0 by exact W. destruct (pages_law 1 p r p' W0 ltac:(lia) E) as (W' & Hk & Hn).
  split_and!; [exact W'|intros a (k & ? & ?); exists k; auto|]. intros Hr. destruct (Hn Hr) as (Ha & Hp & k & Hlk & Ho & Hd).
  split_and!; auto.
  - intros (j & Hj & Hu). specialize (Hd r j Hu). lia.
  - exists k. split; [lia|done].
Qed.

(** A heap that hands out 64-byte cells. *)
#[export] Instance counter_kheap : Kheap Z := { kh_alloc n h := (h, h + 64); kh_free a h := h }.

(** ** Mapping and translation *)

Section claims.
Context {P H : Type} `{HF : Frames P} `{HFL : !FramesLaws P} `{HK : Kheap H}.
Variable hhdm : Z.
Hypothesis Hhhdm : 0 <= hhdm.
Implicit Types s : vmm P H.

Notation tree s := (VmmProps.tree hhdm (frames s) (vm s)).
Notation leaf s := (VmmProps.leaf hhdm (vm s)).

(** A page of the lower half and the addresses in it. *)
Definition page (v : Z) : Z := v / 4096.

(** C22: vmm_map_page either maps the page, so that every address of it is
    translated to the same offset in the frame and has the given flags, or
    fails (no memory for a table, or a 2 MB page in the way).  In both cases the
    tables remain a tree and the translation of every other address is what it
    was. *)
Theorem map_translates s r v phys flags ok s' :
  vmm_map_page hhdm r v phys flags s = (ok, s') ->
  tree s r -> fr_ok (frames s) -> small hhdm (frames s') -> attrs flags -> 0 <= v < 2 ^ 48 ->
  aligned phys -> 0 <= phys < 2 ^ 52 ->
  tree s' r /\
  forall v', 0 <= v' < 2 ^ 48 ->
  if ok && (page v =? page v') then
    vmm_virt_to_phys hhdm r v' s' = phys + v' mod 4096 /\
    vmm_get_pte_flags hhdm r v' s' = Z.lor (Z.land flags FLAGS_MASK) VMM_FLAG_PRESENT
  else vmm_virt_to_phys hhdm r v' s' = vmm_virt_to_phys hhdm r v' s.
Proof using HFL Hhhdm.
  intros E T Hok Hs Ha Hv Hp Hr. destruct (map_page_ok hhdm Hhhdm s r v phys flags ok s' E T Hok Ha) as [_ K].
  destruct (K Hs) as [T' L]. split; [exact T'|]. intros v' Hv'. rewrite !virt_to_phys_leaf by done. rewrite (L v').
  assert (bool_decide (same 4 v v') = (page v =? page v')) as Es.
  { unfold page. destruct (Z.eqb_spec (v / 4096) (v' / 4096)) as [Y|N].
    - apply bool_decide_true. by apply same_page.
    - apply bool_decide_false. intros Y. by apply N, same_page. }
  rewrite Es in *. specialize (L v'). rewrite Es in L. destruct (ok && (page v =? page v')); [|done].
  destruct (pte_ok phys flags Ha) as (_ & _ & Eaddr & Eflags). split.
  - cbn [phys_of]. rewrite Eaddr, addr_field by done.
    change 0xFFF with (Z.ones 12). rewrite Z.land_ones by lia. change (2 ^ 12) with 4096.
    apply page_lor; [done|]. apply Z.mod_pos_bound. lia.
  - rewrite (flags_leaf hhdm s' r v' _ _ T' L). exact Eflags.
Qed.

(** vmm_unmap_page on a page that no 2 MB entry maps: the page has no
    translation afterwards, every other address keeps its own, and no frame
    changes hands. *)
Theorem unmap_translates s r v :
  tree s r -> (forall e, leaf s r v <> Some (true, e)) -> 0 <= v < 2 ^ 48 ->
  let s' := vmm_unmap_page hhdm r v s in
  tree s' r /\ frames s' = frames s /\
  forall v', 0 <= v' < 2 ^ 48 ->
  vmm_virt_to_phys hhdm r v' s' = if page v =? page v' then 0 else vmm_virt_to_phys hhdm r v' s.
Proof using Type.
  intros T Hh Hv. cbv zeta. destruct (unmap_ok hhdm s r v T Hh) as (Ef & T' & L). split_and!; auto.
  intros v' Hv'. rewrite !virt_to_phys_leaf by done. rewrite L. unfold page.
  destruct (decide (same 4 v v')) as [Y|N], (Z.eqb_spec (v / 4096) (v' / 4096)) as [Y'|N']; try done.
  - exfalso. by apply N', same_page.
  - exfalso. by apply N, same_page.
Qed.

(** ** Copy on write *)

Lemma page_base a : 0 <= a < 2 ^ 48 ->
  let p := clear_bits a 0xFFF in aligned p /\ same 4 p a.
Proof using Type.
  intros Ha. cbv zeta. rewrite clear_low by lia. split; [unfold aligned; apply Z.mod_mul; lia|].
  assert (0 <= a / 4096 < 2 ^ 36) as B by (Z.to_euclidean_division_equations; lia).
  apply same_page; [lia|lia|]. rewrite Z.div_mul by lia. done.
Qed.

(** The frame the fault handler finds. *)
Lemma cow_frame s r p e : tree s r -> leaf s r p = Some (false, e) -> aligned p ->
  clear_bits (vmm_virt_to_phys hhdm r p s) 0xFFF = Z.land e ADDR_MASK.
Proof using Type.
  intros T L Ha. rewrite (virt_to_phys_leaf hhdm s r p T), L. cbn [phys_of].
  rewrite (page_land p 0xFFF Ha ltac:(lia)), Z.lor_0_r. pose proof (mask_range e).
  rewrite clear_low by lia. rewrite addr_mask. rewrite Z.div_mul by lia. done.
Qed.

(** The page of a frame in the direct map. *)
Definition frame_page (phys : Z) : Z := vmm_phys_to_virt hhdm phys.

(** The new frame gets the bytes of the old one, and no table changes. *)
Lemma copy_frame s r old new :
  tree s r -> off (frame_page old) (frame_page new) ->
  (forall d v t, (d <= 3)%nat -> tab hhdm (vm s) r d v = Some t -> off t (frame_page new)) ->
  let s' := s <| vm := snd (memcpy (frame_page new) (frame_page old) PAGE_SIZE (vm s)) |> in
  tree s' r /\ (forall v, leaf s' r v = leaf s r v) /\
  (forall d v, (d <= 3)%nat -> tab hhdm (vm s') r d v = tab hhdm (vm s) r d v) /\
  (forall i, 0 <= i < 4096 -> vm s' (frame_page new + i) = vm s (frame_page old + i)) /\
  (forall a, ~ frame_page new <= a < frame_page new + 4096 -> vm s' a = vm s a).
Proof using Type.
  intros T Ho Ht. cbv zeta. cbn [vm frames]. set (n := frame_page new) in *. set (o := frame_page old) in *.
  assert (forall a, snd (memcpy n o PAGE_SIZE (vm s)) a = copied n o PAGE_SIZE (vm s) a) as Hm.
  { intros a. apply memcpy_at; [unfold PAGE_SIZE; lia|]. unfold off, PAGE_SIZE in *. lia. }
  revert Hm. generalize (snd (memcpy n o PAGE_SIZE (vm s))). intros m' Hm. unfold copied, PAGE_SIZE in Hm.
  assert (forall a, ~ n <= a < n + 4096 -> m' a = vm s a) as Hout.
  { intros a Ha. rewrite Hm. destruct (Z.leb_spec n a), (Z.ltb_spec a (n + 4096)); cbn [andb]; auto; lia. }
  assert (forall d v t i, (d <= 3)%nat -> tab hhdm (vm s) r d v = Some t -> 0 <= i <= 511 ->
    entry t i m' = entry t i (vm s)) as Hf.
  { intros d v t i Hd Hv Hi. apply load_ext. intros b Hb. apply Hout. specialize (Ht d v t Hd Hv). unfold off in Ht. cbn in Hb. lia. }
  destruct (tree_frame hhdm _ _ m' r Hf T) as [T' L']. split_and!; auto.
  - intros d v Hd. apply tab_frame; [exact Hf|lia].
  - intros i Hi. rewrite Hm. rewrite (proj2 (Z.leb_le _ _)), (proj2 (Z.ltb_lt _ _)) by lia. cbn [andb]. f_equal. lia.
Qed.


(** What the fault handler leaves: [a] writable and private, in a frame with the
    bytes of the old one; everything else as it was. *)
Record cow_done (s s' : vmm P H) (r a old : Z) (fresh : bool) : Prop := {
  cd_leaf : exists e', leaf s' r a = Some (false, e') /\ has e' VMM_FLAG_WRITE = true /\ has e' VMM_FLAG_COW = false /\
    let new := Z.land e' ADDR_MASK in
    (if fresh then ~ fr_used (frames s) new /\ new = fst (fr_alloc (frames s)) else new = old) /\
    forall i, 0 <= i < 4096 -> vm s' (frame_page new + i) = vm s (frame_page old + i);
  cd_other : forall v', ~ same 4 a v' -> leaf s' r v' = leaf s r v';
  cd_old : forall i, 0 <= i < 4096 -> vm s' (frame_page old + i) = vm s (frame_page old + i);
  cd_tree : exists p, VmmProps.tree hhdm p (vm s') r;
  cd_out : forall t e' b, tab hhdm (vm s) r 3 a = Some t -> leaf s' r a = Some (false, e') -> ~ t <= b < t + 4096 ->
    ~ frame_page (Z.land e' ADDR_MASK) <= b < frame_page (Z.land e' ADDR_MASK) + 4096 -> vm s' b = vm s b
}.

(** Writing the new entry finishes the fault. *)
Lemma cow_put s s1 r p a t e new old (fresh : bool) :
  tree s1 r -> tab hhdm (vm s1) r 3 p = Some t -> same 4 p a -> 0 <= e < 2 ^ 64 ->
  (forall v, leaf s1 r v = leaf s r v) -> off t (frame_page new) -> off t (frame_page old) ->
  (if fresh then ~ fr_used (frames s) (Z.land new ADDR_MASK) /\ Z.land new ADDR_MASK = fst (fr_alloc (frames s))
   else Z.land new ADDR_MASK = old) ->
  frame_page (Z.land new ADDR_MASK) = frame_page new ->
  (forall i, 0 <= i < 4096 -> vm s1 (frame_page new + i) = vm s (frame_page old + i)) ->
  (forall i, 0 <= i < 4096 -> vm s1 (frame_page old + i) = vm s (frame_page old + i)) ->
  tab hhdm (vm s) r 3 p = Some t -> (forall b, ~ frame_page new <= b < frame_page new + 4096 -> vm s1 b = vm s b) ->
  let f := Z.lor (clear_bits (Z.land e FLAGS_MASK) VMM_FLAG_COW) VMM_FLAG_WRITE in
  cow_done s (put t (idx 3 p) (pte new f) s1) r a old fresh.
Proof using Type.
  intros T Ht Hs He L On Oo Hnew Efp Hc Ho Ht0 Hout1 f. destruct (cow_flags e He) as [Af Hf]. fold f in Af, Hf.
  destruct (pte_ok new f Af) as (Hr & Hp & Ha & _). destruct (put_leaf hhdm s1 r p t _ T Ht Hr) as [T' L'].
  assert (forall q i, off t q -> 0 <= i < 4096 -> vm (put t (idx 3 p) (pte new f) s1) (q + i) = vm s1 (q + i)) as Hout.
  { intros q i Hq Hi. apply store_outside. pose proof (idx_range 3 p). unfold off in Hq. cbn. lia. }
  destruct (Hf new) as [Hw Hcow]. split.
  - exists (pte new f). rewrite L', Hp. destruct (decide (same 4 p a)); [|done]. split_and!; auto. cbv zeta. rewrite Ha.
    split; [done|]. intros i Hi. rewrite Efp, Hout by done. by apply Hc.
  - intros v' Hn. rewrite L', <- L. destruct (decide (same 4 p v')) as [Y|]; [|done]. exfalso. apply Hn.
    by apply (same_trans _ _ p); [apply same_sym|].
  - intros i Hi. rewrite Hout by done. by apply Ho.
  - by eexists.
  - intros t0 e' b Ht0' Le Hb Hb'. rewrite <- (tab_same hhdm (vm s) r 3 p a), Ht0 in Ht0' by (by apply (same_le 4); [lia|]). injection Ht0' as <-.
    rewrite L', Hp in Le. destruct (decide (same 4 p a)); [|done]. injection Le as <-. rewrite Ha, Efp in Hb'.
    rewrite <- (Hout1 b Hb'). apply store_outside. pose proof (idx_range 3 p). cbn. lia.
Qed.

(** A write fault on a copy-on-write page: with one reference the frame
    becomes writable in place; with more the process gets a fresh frame that no
    one used, with the same bytes, while the shared frame and every other
    translation stay as they are.  It fails exactly when no frame is left, and
    then changes no memory. *)
Theorem cow_private s r a e :
  tree s r -> fr_ok (frames s) -> bytes (vm s) -> 0 <= a < 2 ^ 48 ->
  leaf s r a = Some (false, e) -> has e VMM_FLAG_COW = true ->
  let old := Z.land e ADDR_MASK in
  old <> 0 -> fr_used (frames s) old ->
  (forall d v t, (d <= 3)%nat -> tab hhdm (vm s) r d v = Some t -> off t (frame_page old)) ->
  small hhdm (snd (fr_alloc (frames s))) ->
  let '(ok, s') := vmm_handle_cow_fault hhdm r a s in
  let shared := 1 <? fr_refcount old (frames s) in
  if shared && (fst (fr_alloc (frames s)) =? 0) then ok = false /\ vm s' = vm s
  else ok = true /\ cow_done s s' r a old shared.
Proof using HFL Hhhdm.
  intros T Hok Hb Ha L Hcow old Hold Hu Hdata Hsmall. unfold vmm_handle_cow_fault.
  destruct (page_base a Ha) as [Hp Hs]. set (p := clear_bits a 0xFFF) in *.
  rewrite <- (leaf_same hhdm (vm s) r p a Hs) in L. rewrite (flags_leaf hhdm s r p _ _ T L), (cow_frame s r p e T L Hp). fold old.
  assert (has (Z.land e FLAGS_MASK) VMM_FLAG_COW = true) as ->.
  { unfold has in *. rewrite <- Z.land_assoc. exact Hcow. }
  cbn [negb]. rewrite (proj2 (Z.eqb_neq old 0) Hold). cbv zeta.
  destruct (leaf_tab hhdm _ _ _ _ L) as (pd & t & _ & Ht & _ & _ & Ee & _).
  assert (0 <= e < 2 ^ 64) as He by (rewrite <- Ee; apply (load_range 8); done).
  set (f := Z.lor (clear_bits (Z.land e FLAGS_MASK) VMM_FLAG_COW) VMM_FLAG_WRITE).
  destruct (Z.leb_spec (fr_refcount old (frames s)) 1) as [Hrc|Hrc].
  - rewrite (proj2 (Z.ltb_ge 1 _)) by lia. cbn [andb]. split; [done|].
    destruct (update_ok hhdm s r p e f T L) as (t' & Ht' & ->). rewrite Ht in Ht'. injection Ht' as <-.
    assert (pte old f = pte e f) as <- by (unfold pte, old; by rewrite <- Z.land_assoc, Z.land_diag).
    assert (Z.land old ADDR_MASK = old) as Eo by (unfold old; by rewrite <- Z.land_assoc, Z.land_diag).
    destruct (cow_put s s r p a t e old old false T Ht Hs He ltac:(done) (Hdata 3%nat p t ltac:(lia) Ht)
      (Hdata 3%nat p t ltac:(lia) Ht) Eo ltac:(by rewrite Eo) ltac:(done) ltac:(done) Ht ltac:(done)) as [C1 C2 C3 C4 C5]. by split.
  - rewrite (proj2 (Z.ltb_lt 1 _)) by lia. cbn [andb]. unfold alloc_frame.
    destruct (fr_alloc (frames s)) as [new p'] eqn:Ea. cbn [fst snd] in *.
    destruct (fr_alloc_law _ _ _ Hok Ea) as (_ & Hkeep & Hnew). destruct (Z.eqb_spec new 0) as [|Hn]; [done|].
    destruct (Hnew Hn) as (Hn0 & Hal & Hfresh & Hused). pose proof (Hsmall _ Hused) as [Hlim Hlim']. pose proof (Hsmall _ (Hkeep _ Hu)) as [_ Hlo].
    pose proof (mask_range e) as Hr. fold old in Hr.
    assert (aligned old) as Halo by (unfold aligned, old; rewrite addr_mask; apply Z.mod_mul; lia).
    assert (forall x, 0 <= x -> x + hhdm < 2 ^ 64 -> frame_page x = x + hhdm) as Efp by (intros x Hx Hx'; apply wrap_small; lia).
    assert (off (frame_page old) (frame_page new)) as Hoff.
    { rewrite !Efp by lia. apply page_off; auto. congruence. }
    assert (forall d v t, (d <= 3)%nat -> tab hhdm (vm s) r d v = Some t -> off t (frame_page new)) as Hfr.
    { intros d v t0 Hd Ht0. destruct (tr_used _ _ _ _ T d v t0 Hd Ht0) as [(ph & -> & Hph & Hpa & _)].
      rewrite Efp by lia. apply page_off; auto. congruence. }
    set (s0 := s <| frames := p' |>).
    assert (tree s0 r) as T0 by (by apply (tree_mono hhdm (frames s) p')).
    destruct (copy_frame s0 r old new T0 Hoff Hfr) as (T1 & L1 & Tb & Hc & Ho). unfold frame_page in Hc, Ho, T1, L1, Tb.
    set (s1 := s0 <| vm := _ |>) in *.
    assert (tab hhdm (vm s1) r 3 p = Some t) as Ht1 by (rewrite Tb by lia; exact Ht).
    rewrite (map_present hhdm Hhhdm s1 r p t new f T1 Ht1). split; [done|].
    assert (Z.land new ADDR_MASK = new) as En by (apply addr_field; [done|lia]).
    assert (~ fr_used (frames s) (Z.land new ADDR_MASK) /\ Z.land new ADDR_MASK = fst (fr_alloc (frames s))) as Hnw
      by (rewrite En, Ea; split; [exact Hfresh|reflexivity]).
    destruct (cow_put s s1 r p a t e new old true T1 Ht1 Hs He L1 (Hfr 3%nat p t ltac:(lia) Ht)
      (Hdata 3%nat p t ltac:(lia) Ht) Hnw ltac:(by rewrite En) Hc) as [C1 C2 C3 C4 C5].
    { intros i Hi. apply Ho. unfold off, frame_page in *. lia. }
    { exact Ht. }
    { exact Ho. }
    by split.
Qed.

End claims.


(** ** A concrete address space *)

Module Demo.

Definition hhdm0 : Z := 0xFFFF800000000000.
Definition root0 : Z := hhdm0 + 0x1000.
Definition va : Z := 0x400000.
Definition rw : Z := Z.lor VMM_FLAG_WRITE VMM_FLAG_USER.
Definition cow : Z := Z.lor VMM_FLAG_COW VMM_FLAG_USER.

(** The root in frame 0x1000, memory zero. *)
Definition start : vmm frame_bump Z := {|
  vm := fun _ => 0; frames := {| fb_next := 0x2000; fb_end := 0x100000; fb_refs := fun _ => 0 |}; kheap := 64;
  g_next_kernel_stack := 0; g_kernel_pml4 := root0; next_mmap_addr := MMAP_BASE; tlb_log := [] |}.

Definition mapped : vmm frame_bump Z := snd (vmm_map_page hhdm0 root0 va 0x80000 rw start).
Definition remapped : vmm frame_bump Z := snd (vmm_map_page hhdm0 root0 va 0x5000 cow mapped).

(** Frame 0x5000 mapped copy on write, with [n] references. *)
Definition shared (n : Z) : vmm frame_bump Z :=
  remapped <| frames := {| fb_next := 0x6000; fb_end := 0x100000; fb_refs := fun a => if a =? 0x5000 then n else 1 |} |>.

Lemma hhdm0_pos : 0 <= hhdm0.
Proof. unfold hhdm0. lia. Qed.

Lemma small_bump (p : frame_bump) : fb_next p <= 0x100000 -> small hhdm0 p.
Proof. intros Hn a Ha. cbn in Ha. unfold hhdm0. lia. Qed.

Lemma start_tree : VmmProps.tree hhdm0 (frames start) (vm start) root0.
Proof.
  apply empty_tree; [|intros i _; reflexivity]. split. exists 0x1000. split; [done|]. split; [split; cbn; lia|]. split; [done|lia].
Qed.

Lemma attrs_rw : attrs rw.
Proof. split; [change rw with 6; lia|done]. Qed.
Lemma attrs_cow : attrs cow.
Proof. split; [change cow with 516; lia|done]. Qed.

Lemma mapped_next : fb_next (frames mapped) = 0x5000.
Proof. vm_compute. reflexivity. Qed.
Lemma remapped_next : fb_next (frames remapped) = 0x5000.
Proof. vm_compute. reflexivity. Qed.

Lemma start_ok : fr_ok (frames start).
Proof. split; [cbn; lia|done]. Qed.
Lemma mapped_ok : fr_ok (frames mapped).
Proof.
  change (4096 <= fb_next (frames mapped) /\ fb_next (frames mapped) mod 4096 = 0). rewrite mapped_next. split; [lia|done].
Qed.

Lemma map_demo (s s' : vmm frame_bump Z) phys flags : s' = snd (vmm_map_page hhdm0 root0 va phys flags s) ->
  VmmProps.tree hhdm0 (frames s) (vm s) root0 -> fr_ok (frames s) -> attrs flags ->
  fb_next (frames s') <= 0x100000 -> VmmProps.tree hhdm0 (frames s') (vm s') root0.
Proof.
  intros -> T Hok Ha Hn. destruct (vmm_map_page hhdm0 root0 va phys flags s) as [ok s1] eqn:E.
  destruct (map_page_ok hhdm0 hhdm0_pos s root0 va phys flags ok s1 E T Hok Ha) as [_ K].
  apply K. by apply small_bump.
Qed.

Lemma mapped_tree : VmmProps.tree hhdm0 (frames mapped) (vm mapped) root0.
Proof.
  apply (map_demo start mapped 0x80000 rw); [unfold mapped; reflexivity|exact start_tree|exact start_ok|exact attrs_rw|].
  rewrite mapped_next. lia.
Qed.

Lemma remapped_tree : VmmProps.tree hhdm0 (frames remapped) (vm remapped) root0.
Proof.
  apply (map_demo mapped remapped 0x5000 cow); [unfold remapped; reflexivity|exact mapped_tree|exact mapped_ok|exact attrs_cow|].
  rewrite remapped_next. lia.
Qed.

Lemma set_frames_vm (s : vmm frame_bump Z) p : vm (s <| frames := p |>) = vm s.
Proof. reflexivity. Qed.
Lemma shared_vm n : vm (shared n) = vm remapped.
Proof. unfold shared. apply set_frames_vm. Qed.

Lemma shared_tree n : VmmProps.tree hhdm0 (frames (shared n)) (vm (shared n)) root0.
Proof.
  rewrite shared_vm. apply (tree_mono hhdm0 (frames remapped)); [|exact remapped_tree].
  intros a Ha. cbn in Ha |- *. pose proof remapped_next. lia.
Qed.

Lemma shared_data n d v t : (d <= 3)%nat -> tab hhdm0 (vm (shared n)) root0 d v = Some t -> off t (hhdm0 + 0x5000).
Proof.
  intros Hd Ht. rewrite shared_vm in Ht. destruct (tr_used _ _ _ _ remapped_tree d v t Hd Ht) as [(phys & -> & Hu & Ha & _)].
  cbn in Hu. pose proof remapped_next as E. rewrite (Z.add_comm hhdm0). apply page_off; [done|done|]. lia.
Qed.


Lemma shared_bytes n : bytes (vm (shared n)).
Proof.
  rewrite shared_vm. unfold remapped. apply map_bytes. unfold mapped. apply map_bytes. intros a. cbn. lia.
Qed.


End Demo.


Import Demo.

Lemma map_translates_witness : vmm_virt_to_phys hhdm0 root0 0x400123 mapped = 0x80123.
Proof.
  destruct (vmm_map_page hhdm0 root0 va 0x80000 rw start) as [ok s'] eqn:E.
  assert (mapped = s') as Em by (unfold mapped; rewrite E; reflexivity).
  assert (ok = true) as Eo by (change ok with (fst (ok, s')); rewrite <- E; vm_compute; reflexivity).
  assert (small hhdm0 (frames s')) as Hs by (apply small_bump; rewrite <- Em, mapped_next; lia).
  destruct (map_translates hhdm0 hhdm0_pos start root0 va 0x80000 rw ok s' E start_tree start_ok Hs attrs_rw
    ltac:(unfold va; lia) eq_refl ltac:(lia)) as [_ M].
  specialize (M 0x400123 ltac:(lia)). rewrite Eo in M. cbn in M. destruct M as [M _]. rewrite Em. exact M.
Defined.

Lemma unmap_translates_witness : vmm_virt_to_phys hhdm0 root0 0x400123 (vmm_unmap_page hhdm0 root0 va mapped) = 0.
Proof.
  assert (forall e, VmmProps.leaf hhdm0 (vm mapped) root0 va <> Some (true, e)) as Hl.
  { intros e. assert (VmmProps.leaf hhdm0 (vm mapped) root0 va = Some (false, 0x80007)) as -> by (vm_compute; reflexivity). done. }
  destruct (unmap_translates hhdm0 mapped root0 va mapped_tree Hl ltac:(unfold va; lia)) as (_ & _ & M).
  rewrite (M 0x400123) by lia. reflexivity.
Defined.

Lemma cow_private_witness :
  fst (vmm_handle_cow_fault hhdm0 root0 0x400123 (shared 2)) = true /\
  exists e', VmmProps.leaf hhdm0 (vm (snd (vmm_handle_cow_fault hhdm0 root0 0x400123 (shared 2)))) root0 0x400123 = Some (false, e') /\
    has e' VMM_FLAG_WRITE = true /\ ~ fr_used (frames (shared 2)) (Z.land e' ADDR_MASK).
Proof.
  assert (VmmProps.leaf hhdm0 (vm (shared 2)) root0 0x400123 = Some (false, 0x5205)) as L by (vm_compute; reflexivity).
  assert (bytes (vm (shared 2))) as Hb by (apply shared_bytes).
  assert (fr_ok (frames (shared 2))) as Hok by (split; cbn; [lia|done]).
  assert (fr_used (frames (shared 2)) 0x5000) as Hu by (split; cbn; lia).
  assert (small hhdm0 (snd (fr_alloc (frames (shared 2))))) as Hs by (apply small_bump; vm_compute; discriminate).
  assert (frame_page hhdm0 0x5000 = hhdm0 + 0x5000) as Ef by reflexivity.
  pose proof (cow_private hhdm0 hhdm0_pos (shared 2) root0 0x400123 0x5205 (shared_tree 2) Hok Hb ltac:(lia) L eq_refl
    ltac:(done) Hu ltac:(intros d v t Hd Ht; change (Z.land 0x5205 ADDR_MASK) with 0x5000; rewrite Ef; exact (shared_data 2 d v t Hd Ht)) Hs) as C.
  destruct (vmm_handle_cow_fault hhdm0 root0 0x400123 (shared 2)) as [ok s'] eqn:E.
  assert ((1 <? fr_refcount (Z.land 0x5205 ADDR_MASK) (frames (shared 2))) = true) as Er by reflexivity.
  assert ((fst (fr_alloc (frames (shared 2))) =? 0) = false) as Ea by reflexivity.
  rewrite Er, Ea in C. destruct C as [C [(e' & C1 & C2 & _ & (C3 & _) & _) _ _ _ _]]. split; [exact C|].
  exists e'. split; [exact C1|]. split; [exact C2|exact C3].
Defined.


(** ** Runs that depart from the comments *)

(** Physical memory from 2 MB on holds sevens. *)
Definition full : vmm frame_bump Z := start <| vm := fun a => if hhdm0 + 0x200000 <=? a then 7 else 0 |>.
Definition huge (flags refs : Z) : vmm frame_bump Z :=
  (snd (vmm_map_huge_page hhdm0 root0 va 0x200000 flags full))
    <| frames := {| fb_next := 0x4000; fb_end := 0x100000; fb_refs := fun a => if a =? 0x200000 then refs else 0 |} |>.

(** Unmapping a 2 MB page clears eight bytes of its data instead of the entry. *)
Example unmap_huge_writes_data :
  let s := vmm_unmap_page hhdm0 root0 va (huge rw 1) in
  vm (huge rw 1) (hhdm0 + 0x200000) = 7 /\ vm s (hhdm0 + 0x200000) = 0 /\ vmm_virt_to_phys hhdm0 root0 va s = 0x200000.
Proof. vm_compute. split_and!; reflexivity. Qed.

(** A fault in the second 4 KB of a shared copy-on-write 2 MB page looks up the
    count of that 4 KB frame, and makes the shared page writable. *)
Example cow_huge_not_copied :
  let '(ok, s) := vmm_handle_cow_fault hhdm0 root0 (va + 0x1000) (huge cow 2) in
  ok = true /\ has (vmm_get_pte_flags hhdm0 root0 va s) VMM_FLAG_WRITE = true /\
  vmm_virt_to_phys hhdm0 root0 va s = 0x200000 /\ fr_refcount 0x200000 (frames s) = 2.
Proof. vm_compute. split_and!; reflexivity. Qed.

(** Fork marks a read-only page copy on write; the next write fault makes it
    writable. *)
Example fork_loses_read_only :
  let ro := snd (vmm_map_page hhdm0 root0 va 0x80000 VMM_FLAG_USER start) in
  let pt := hhdm0 + 0x4000 in
  let forked := fork_pte pt (hhdm0 + 0x8000) 0 ro in
  let after := snd (vmm_handle_cow_fault hhdm0 root0 va forked) in
  has (vmm_get_pte_flags hhdm0 root0 va ro) VMM_FLAG_WRITE = false /\
  has (vmm_get_pte_flags hhdm0 root0 va after) VMM_FLAG_WRITE = true.
Proof. vm_compute. split; reflexivity. Qed.

(** mprotect with PROT_WRITE keeps a shared page copy on write and makes it
    writable at once. *)
Example mprotect_writes_shared :
  let '(r, _, s) := sys_mprotect hhdm0 {| t_pml4 := root0; brk_start := 0; brk_current := 0; vmas := [] |} va 4096 PROT_WRITE (shared 2) in
  r = 0 /\ has (vmm_get_pte_flags hhdm0 root0 va s) VMM_FLAG_WRITE = true /\
  has (vmm_get_pte_flags hhdm0 root0 va s) VMM_FLAG_COW = true /\ vmm_virt_to_phys hhdm0 root0 va s = 0x5000.
Proof. vm_compute. split_and!; reflexivity. Qed.

(** brk up to the last page wraps: it succeeds and maps nothing. *)
Example brk_wraps :
  let '(r, t, s) := sys_brk hhdm0 {| t_pml4 := root0; brk_start := 0; brk_current := 0; vmas := [] |} (2 ^ 64 - 1) start in
  r = 2 ^ 64 - 1 /\ brk_current t = 2 ^ 64 - 1 /\ fb_next (frames s) = fb_next (frames start).
Proof. vm_compute. split_and!; reflexivity. Qed.

(** A fault on a page that is present replaces it with a zero page. *)
Example fault_replaces_page :
  let t := {| t_pml4 := root0; brk_start := 0; brk_current := 0;
              vmas := [(64, {| v_start := va; v_end := va + 4096; v_flags := 0; v_prot := 0 |})] |} in
  let '(ok, s) := vmm_handle_page_fault hhdm0 t va 1 mapped in
  vmm_virt_to_phys hhdm0 root0 va mapped = 0x80000 /\ ok = true /\ vmm_virt_to_phys hhdm0 root0 va s = 0x5000.
Proof. vm_compute. split_and!; reflexivity. Qed.

End VmmClaims.
