(* ===== verification/Slab.v ===== *)
(** * Slab caches (src/src/mem/slab.c)

    A cache cuts pages into objects of one size.  Free objects are in a
    magazine or linked through their first word in byte memory.  The theorems
    cover allocation and freeing; [shrink_frees_objects] shows why shrinking is
    left out of them. *)

From S2P Require Import Prelude Mem Str Vmm VmmProps VmmClaims.
Import Mem Str.

Module Slab.

Definition MAGAZINE_SIZE : Z := 32.
Definition SLAB_PAGE_SIZE : Z := 4096.
Definition MAX_CACHES : Z := 64.
Definition SIZEOF_SLAB : Z := 24.

Record magazine_t := { objects : Z -> Z; mcount : Z }.
#[export] Instance eta_magazine : Eta magazine_t := fun r => Build_magazine_t (objects r) (mcount r).

(** A slab_t with its address. *)
Record slab_t := { sl_addr : Z; sl_base : Z; in_use : Z; sl_total : Z }.

(** The slab lists as lists; the object lists are in memory. *)
Record kmem_cache := {
  obj_size : Z;
  align : Z;
  freelist : Z;
  partial : list slab_t;
  full : list slab_t;
  empty : list slab_t;
  alloc_count : Z;
  free_count : Z;
  cpu_mag : Z -> magazine_t;
  active : bool
}.
#[export] Instance eta_cache : Eta kmem_cache :=
  fun r => Build_kmem_cache (obj_size r) (align r) (freelist r) (partial r) (full r) (empty r) (alloc_count r)
    (free_count r) (cpu_mag r) (active r).

Record slabs {P H : Type} := {
  sm : mem;
  sframes : P;
  skheap : H;
  cache_pool : Z -> kmem_cache;
  cache_count : Z
}.
Arguments slabs : clear implicits.
#[export] Instance eta_slabs {P H} : Eta (slabs P H) :=
  fun r => Build_slabs P H (sm r) (sframes r) (skheap r) (cache_pool r) (cache_count r).

Section ops.
Context {P H : Type} `{Frames P} `{Kheap H}.
Variable hhdm : Z.
Implicit Types s : slabs P H.

Definition upd_cache (c : Z) (f : kmem_cache -> kmem_cache) s : slabs P H :=
  s <| cache_pool := (cache_pool s).[c <- f (cache_pool s c)] |>.

(** The loop of slab_grow: object [i] of the page goes on the free list. *)
Definition link_object (c base i : Z) s : slabs P H :=
  let obj := u64 (base + i * obj_size (cache_pool s c)) in
  let s := s <| sm := store 8 obj (freelist (cache_pool s c)) (sm s) |> in
  upd_cache c (fun k => k <| freelist := obj |>) s.

Definition slab_grow (c : Z) s : slabs P H :=
  let '(phys, p) := fr_alloc (sframes s) in
  let s := s <| sframes := p |> in
  if phys =? 0 then s
  else
    let base := u64 (phys + hhdm) in
    let s := s <| sm := snd (memset base 0 SLAB_PAGE_SIZE (sm s)) |> in
    let '(node, h) := kh_alloc SIZEOF_SLAB (skheap s) in
    let s := s <| skheap := h |> in
    if node =? 0 then s
    else
      let total := u32 (SLAB_PAGE_SIZE / obj_size (cache_pool s c)) in
      let slab := {| sl_addr := node; sl_base := base; in_use := 0; sl_total := total |} in
      let s := upd_cache c (fun k => k <| empty := slab :: empty k |>) s in
      for_loop (Z.to_nat total) 0 (link_object c base) s.

(** The index of the new cache; None is NULL. *)
Definition kmem_cache_create (size al : Z) s : option Z * slabs P H :=
  if MAX_CACHES <=? cache_count s then (None, s)
  else
    let size := if size <? 8 then 8 else size in
    let al := if al <? 8 then 8 else al in
    let size := Z.land (u64 (size + al - 1)) (u64 (Z.lnot (al - 1))) in
    let c := cache_count s in
    let s := s <| cache_count := c + 1 |> in
    let k := {| obj_size := size; align := al; freelist := 0; partial := []; full := []; empty := [];
                alloc_count := 0; free_count := 0;
                cpu_mag := for_loop 4 0 (fun i m => m.[i <- (m i) <| mcount := 0 |>]) (cpu_mag (cache_pool s c));
                active := true |} in
    (Some c, s <| cache_pool := (cache_pool s).[c <- k] |>).

(** The rest of kmem_cache_alloc, under the lock. *)
Definition alloc_slow (c : Z) s : Z * slabs P H :=
  let s := if freelist (cache_pool s c) =? 0 then slab_grow c s else s in
  let o := freelist (cache_pool s c) in
  if o =? 0 then (0, s)
  else
    let s := upd_cache c (fun k => k <| freelist := load 8 o (sm s) |> <| alloc_count := u64 (alloc_count k + 1) |>) s in
    (o, s <| sm := snd (memset o 0 (obj_size (cache_pool s c)) (sm s)) |>).

Definition kmem_cache_alloc (c : Z) s : Z * slabs P H :=
  let mag := cpu_mag (cache_pool s c) 0 in
  if 0 <? mcount mag then
    let mag := mag <| mcount := mcount mag - 1 |> in
    let s := upd_cache c (fun k => k <| cpu_mag := (cpu_mag k).[0 <- mag] |>) s in
    let o := objects mag (mcount mag) in
    if o =? 0 then alloc_slow c s
    else (o, s <| sm := snd (memset o 0 (obj_size (cache_pool s c)) (sm s)) |>)
  else alloc_slow c s.

Definition kmem_cache_free (c obj : Z) s : slabs P H :=
  if obj =? 0 then s
  else
    let mag := cpu_mag (cache_pool s c) 0 in
    if mcount mag <? MAGAZINE_SIZE then
      let mag := mag <| objects := (objects mag).[mcount mag <- obj] |> <| mcount := mcount mag + 1 |> in
      upd_cache c (fun k => k <| cpu_mag := (cpu_mag k).[0 <- mag] |>) s
    else
      let s := s <| sm := store 8 obj (freelist (cache_pool s c)) (sm s) |> in
      upd_cache c (fun k => k <| freelist := obj |> <| free_count := u64 (free_count k + 1) |>) s.

Definition kmem_cache_stats (c : Z) s : Z * Z := (alloc_count (cache_pool s c), free_count (cache_pool s c)).

Definition kmem_cache_shrink (c : Z) s : slabs P H :=
  let s := fold_left (fun s slab =>
    let s := if sl_base slab =? 0 then s else s <| sframes := fr_free (u64 (sl_base slab - hhdm)) (sframes s) |> in
    s <| skheap := kh_free (sl_addr slab) (skheap s) |>) (empty (cache_pool s c)) s in
  upd_cache c (fun k => k <| empty := [] |>) s.

Definition kmem_cache_destroy (c : Z) s : slabs P H :=
  upd_cache c (fun k => k <| active := false |> <| freelist := 0 |>) (kmem_cache_shrink c s).

End ops.
End Slab.
