(* ===== verification/SlabClaims.v ===== *)
(** * Slab caches hand out disjoint objects

    The free objects of a cache are the chain and the magazine; together with
    the objects in use they are different cells of the cache's pages. *)

From S2P Require Import Prelude Mem Str Vmm VmmProps VmmClaims Slab.
Import Mem Str VmmProps VmmClaims Slab.

Module SlabClaims.

(** The list linked through the first words from [h]. *)
Fixpoint chain (m : mem) (h : Z) (l : list Z) : Prop :=
  match l with
  | [] => h = 0
  | o :: l' => h = o /\ o <> 0 /\ chain m (load 8 o m) l'
  end.

Lemma chain_frame m m' h l : (forall o, In o l -> load 8 o m' = load 8 o m) -> chain m h l -> chain m' h l.
Proof.
  revert h. induction l as [|o l IH]; intros h Hm; cbn [chain]; [done|]. intros (-> & H0 & Hc).
  split_and!; auto. rewrite Hm by (by left). apply IH; auto. intros o' Ho'. apply Hm. by right.
Qed.

Section cache.
Context {P H : Type} `{HF : Frames P} `{HFL : !FramesLaws P} `{HK : Kheap H}.
Variable hhdm : Z.
Hypothesis Hhhdm : 0 <= hhdm /\ aligned hhdm.
Variable c : Z.
Implicit Types s : slabs P H.

Definition size_of s : Z := obj_size (cache_pool s c).
Definition mag_list s : list Z := map (objects (cpu_mag (cache_pool s c) 0)) (seqZ 0 (mcount (cpu_mag (cache_pool s c) 0))).

(** [b] is a page of the cache. *)
Definition page_ok (p : P) (b : Z) : Prop :=
  exists phys, b = phys + hhdm /\ fr_used p phys /\ aligned phys /\ 0 < phys /\ b + 4096 <= 2 ^ 64.

(** [o] is an object cell of one of the pages. *)
Definition cell (size : Z) (pages : list Z) (o : Z) : Prop :=
  exists b i, In b pages /\ 0 <= i < 4096 / size /\ o = b + i * size.

Record slab_ok (pages l out : list Z) s : Prop := {
  so_size : 8 <= size_of s <= 4096;
  so_frames : fr_ok (sframes s);
  so_pages : forall b, In b pages -> page_ok (sframes s) b;
  so_chain : chain (sm s) (freelist (cache_pool s c)) l;
  so_mag : 0 <= mcount (cpu_mag (cache_pool s c) 0) <= MAGAZINE_SIZE;
  so_nodup : NoDup (l ++ mag_list s ++ out);
  so_cells : forall o, In o (l ++ mag_list s ++ out) -> cell (size_of s) pages o
}.

Lemma cell_range size i : 8 <= size <= 4096 -> 0 <= i < 4096 / size -> 0 <= i * size /\ i * size + size <= 4096.
Proof using Type.
  intros Hs Hi. assert (4096 / size * size <= 4096) by (rewrite Z.mul_comm; apply Z.mul_div_le; lia). nia.
Qed.

(** Different cells do not overlap. *)
Lemma cells_apart size p pages o o' : 8 <= size <= 4096 -> (forall b, In b pages -> page_ok p b) ->
  cell size pages o -> cell size pages o' -> o <> o' -> o + size <= o' \/ o' + size <= o.
Proof using Type.
  intros Hs Hp (b & i & Hb & Hi & ->) (b' & j & Hb' & Hj & ->) Hne.
  pose proof (cell_range size i Hs Hi). pose proof (cell_range size j Hs Hj).
  destruct (decide (b = b')) as [->|Hd].
  { assert (i <> j) by (intros ->; done). destruct (decide (i < j)); [left|right]; nia. }
  destruct (Hp b Hb) as (ph & -> & _ & Ha & _), (Hp b' Hb') as (ph' & -> & _ & Ha' & _).
  destruct (page_off hhdm ph ph' Ha Ha') as [O|O]; [congruence|lia|lia].
Qed.

Lemma cell_pos p size pages o : 8 <= size <= 4096 -> (forall b, In b pages -> page_ok p b) -> cell size pages o ->
  0 < o /\ o + size <= 2 ^ 64.
Proof using Hhhdm.
  intros Hs Hp (b & i & Hb & Hi & ->). destruct (Hp b Hb) as (ph & -> & _ & _ & ? & ?).
  pose proof (cell_range size i Hs Hi). lia.
Qed.

Lemma page_mono p p' b : (forall a, fr_used p a -> fr_used p' a) -> page_ok p b -> page_ok p' b.
Proof using Type. intros Hk (ph & ? & ? & ?). exists ph. auto. Qed.

(** Zeroing a cell leaves the other cells alone. *)
Lemma zero_cell size m o b : 0 < size -> b + size <= o \/ o + size <= b -> forall i, 0 <= i < size ->
  snd (memset o 0 size m) (b + i) = m (b + i).
Proof using Type.
  intros Hs Ho i Hi. rewrite memset_at by lia. destruct (Z.leb_spec o (b + i)), (Z.ltb_spec (b + i) (o + size)); cbn [andb]; try done. lia.
Qed.

Lemma zero_link size m o b : 8 <= size -> b + size <= o \/ o + size <= b -> load 8 b (snd (memset o 0 size m)) = load 8 b m.
Proof using Type.
  intros Hs Ho. apply load_ext. intros a Ha. cbn in Ha. replace a with (b + (a - b)) by lia. apply zero_cell; lia.
Qed.

Lemma store_link m o b v : b + 8 <= o \/ o + 8 <= b -> load 8 b (store 8 o v m) = load 8 b m.
Proof using Type. intros Ho. apply load_store_other. cbn. lia. Qed.

Lemma rev_seqZ_S n : rev (seqZ 0 (Z.of_nat (S n))) = Z.of_nat n :: rev (seqZ 0 (Z.of_nat n)).
Proof using Type.
  replace (Z.of_nat (S n)) with (Z.of_nat n + 1) by lia. rewrite seqZ_app, rev_app_distr by lia.
  rewrite (seqZ_cons (0 + Z.of_nat n) 1) by lia. done.
Qed.

(** [n] rounds of the loop of slab_grow, before any other list. *)
Lemma slab_link_ok b size s0 n : size_of s0 = size -> 8 <= size <= 4096 -> Z.of_nat n <= 4096 / size -> 0 < b -> b + 4096 <= 2 ^ 64 ->
  freelist (cache_pool s0 c) = 0 ->
  let s := for_loop n 0 (link_object c b) s0 in
  chain (sm s) (freelist (cache_pool s c)) (map (fun i => b + i * size) (rev (seqZ 0 (Z.of_nat n)))) /\
  cache_pool s c = (cache_pool s0 c) <| freelist := freelist (cache_pool s c) |> /\
  sframes s = sframes s0 /\ (forall a, ~ b <= a < b + 4096 -> sm s a = sm s0 a).
Proof using Type.
  intros Es Hs Hn Hb Hlim Hc. cbv zeta. induction n as [|n IH].
  { cbn [for_loop]. split_and!; auto. by destruct (cache_pool s0 c). }
  destruct IH as (I1 & I2 & I3 & I4); [lia|]. rewrite for_loop_snoc. set (s := for_loop n 0 (link_object c b) s0) in *.
  assert (obj_size (cache_pool s c) = size) as Es' by (rewrite I2; exact Es).
  destruct (cell_range size (Z.of_nat n) Hs ltac:(lia)) as [R1 R2].
  unfold link_object. rewrite Es', Z.add_0_l. rewrite (wrap_small 64) by lia. set (o := b + Z.of_nat n * size).
  set (s1 := s <| sm := _ |>).
  assert (cache_pool (upd_cache c (fun k => k <| freelist := o |>) s1) c = (cache_pool s c) <| freelist := o |>) as Ec by apply upd_eq.
  rewrite Ec. change (freelist ((cache_pool s c) <| freelist := o |>)) with o.
  change (sm (upd_cache c (fun k => k <| freelist := o |>) s1)) with (store 8 o (freelist (cache_pool s c)) (sm s)).
  split_and!.
  - rewrite rev_seqZ_S. cbn [map chain]. fold o.
    split; [done|]. split; [lia|]. assert (0 <= freelist (cache_pool s c) < 2 ^ 64) as Hf.
    { destruct n as [|n']; [cbn in *; unfold s; cbn [for_loop]; rewrite Hc; lia|].
      rewrite rev_seqZ_S in I1. cbn [map chain] in I1. destruct I1 as (-> & _). nia. }
    rewrite load_store_same by (cbn; lia). apply (chain_frame (sm s)); [|done]. intros o' Ho'.
    apply in_map_iff in Ho' as (j & <- & Hj). apply in_rev, list_elem_of_In, elem_of_seqZ in Hj. apply store_link. unfold o. nia.
  - rewrite I2. done.
  - exact I3.
  - intros a Ha. rewrite store_outside; [by apply I4|]. unfold o. cbn. lia.
Qed.

(** The bytes of the objects in use. *)
Definition kept (out : list Z) s s' : Prop :=
  size_of s' = size_of s /\ forall o i, In o out -> 0 <= i < size_of s -> sm s' (o + i) = sm s (o + i).

Lemma kept_trans out s1 s2 s3 : kept out s1 s2 -> kept out s2 s3 -> kept out s1 s3.
Proof using Type. intros [E1 K1] [E2 K2]. split; [congruence|]. intros o i Ho Hi. rewrite K2 by (rewrite ?E1; done). by apply K1. Qed.

(** Objects of a page of their own. *)
Lemma new_cells b size n : 8 <= size <= 4096 -> Z.of_nat n <= 4096 / size ->
  let l := map (fun i => b + i * size) (rev (seqZ 0 (Z.of_nat n))) in
  NoDup l /\ forall o, In o l -> exists i, 0 <= i < 4096 / size /\ o = b + i * size.
Proof using Type.
  intros Hs Hn. cbv zeta. split.
  - apply NoDup_ListNoDup. apply Finite.Injective_map_NoDup; [intros i j; nia|]. apply NoDup_rev, NoDup_ListNoDup, NoDup_seqZ.
  - intros o Ho. apply in_map_iff in Ho as (i & <- & Hi). apply in_rev, list_elem_of_In, elem_of_seqZ in Hi. exists i. split; [lia|done].
Qed.

Lemma cell_more size b pages o : cell size pages o -> cell size (b :: pages) o.
Proof using Type. intros (b' & i & Hb & Hi & E). exists b', i. split; [by right|done]. Qed.

(** A frame the cache is given is away from its pages and objects. *)
Lemma fresh_base pages l out s phys p' : slab_ok pages l out s -> fr_alloc (sframes s) = (phys, p') -> phys <> 0 ->
  small hhdm p' ->
  let b := phys + hhdm in
  u64 b = b /\ page_ok p' b /\ (forall b', In b' pages -> off b' b) /\
  (forall o i, In o out -> 0 <= i < size_of s -> ~ b <= o + i < b + 4096).
Proof using HFL Hhhdm.
  intros [S1 S2 S3 _ _ _ S7] Ea Hn Hsm. cbv zeta. destruct (fr_alloc_law _ _ _ S2 Ea) as (_ & _ & Hnew).
  destruct (Hnew Hn) as (Hp0 & Hal & Hfresh & Hused). destruct (Hsm _ Hused) as [_ Hlim]. destruct Hhhdm as [Hh0 Hha].
  assert (phys + hhdm + 4096 <= 2 ^ 64) as Hb by (unfold aligned in *; Z.to_euclidean_division_equations; lia).
  assert (forall b', In b' pages -> off b' (phys + hhdm)) as Hoff.
  { intros b' Hb'. destruct (S3 b' Hb') as (ph & -> & Hu & Ha & _). apply page_off; auto. congruence. }
  split_and!; [apply wrap_small; lia|exists phys; split_and!; auto|done|].
  intros o i Ho Hi. destruct (S7 o) as (b' & j & Hb' & Hj & ->); [rewrite !in_app_iff; auto|].
  pose proof (cell_range _ j S1 Hj). destruct (Hoff b' Hb'); lia.
Qed.

(** Growing a cache whose free list is empty. *)
Lemma grow_ok pages out s : slab_ok pages [] out s -> small hhdm (snd (fr_alloc (sframes s))) ->
  exists pages' l', slab_ok pages' l' out (slab_grow hhdm c s) /\ kept out s (slab_grow hhdm c s) /\
    mag_list (slab_grow hhdm c s) = mag_list s /\
    (l' = [] -> fst (fr_alloc (sframes s)) = 0 \/ fst (kh_alloc SIZEOF_SLAB (skheap s)) = 0).
Proof using HFL Hhhdm.
  intros [S1 S2 S3 S4 S5 S6 S7] Hsm. unfold slab_grow. destruct (fr_alloc (sframes s)) as [phys p'] eqn:Ea. cbn [fst snd] in *.
  destruct (fr_alloc_law _ _ _ S2 Ea) as (Hok & Hmono & _).
  assert (forall b, In b pages -> page_ok p' b) as Hpg by (intros b Hb; apply (page_mono (sframes s)); auto).
  destruct (Z.eqb_spec phys 0) as [|Hn].
  { exists pages, []. split_and!; [by split|by split|done|auto]. }
  destruct (fresh_base _ _ _ _ _ _ (Build_slab_ok _ _ _ _ S1 S2 S3 S4 S5 S6 S7) Ea Hn Hsm) as (Eb & Hpb & Hoff & Hout).
  rewrite Eb. set (b := phys + hhdm) in *. destruct Hhhdm as [Hh0 _].
  assert (0 < phys /\ b + 4096 <= 2 ^ 64) as [Hp0 Hb] by (destruct Hpb as (ph & E & _ & _ & ? & ?); unfold b in *; lia).
  set (s1 := s <| sframes := p' |> <| sm := _ |>).
  assert (forall a, ~ b <= a < b + 4096 -> sm s1 a = sm s a) as Hm1.
  { intros a Ha. unfold s1. change (sm (s <| sframes := p' |> <| sm := ?m |>)) with m. rewrite memset_at by (unfold SLAB_PAGE_SIZE; lia).
    unfold SLAB_PAGE_SIZE. destruct (Z.leb_spec b a), (Z.ltb_spec a (b + 4096)); cbn [andb]; try done. lia. }
  assert (cache_pool s1 = cache_pool s /\ sframes s1 = p') as [Ec1 Ef1] by done. change (skheap s1) with (skheap s). clearbody s1.
  destruct (kh_alloc SIZEOF_SLAB (skheap s)) as [node h]. cbn [fst]. set (s2 := s1 <| skheap := h |>).
  assert (cache_pool s2 = cache_pool s /\ sframes s2 = p' /\ sm s2 = sm s1) as (Ec2 & Ef2 & Em2) by done. clearbody s2.
  assert (mag_list s2 = mag_list s /\ size_of s2 = size_of s) as [Eg2 Es2] by (unfold mag_list, size_of; by rewrite Ec2).
  destruct (Z.eqb_spec node 0) as [|Hn0].
  { exists pages, []. split_and!; auto.
    - split; rewrite ?Es2, ?Ef2, ?Eg2, ?Ec2; auto.
    - split; [done|]. intros o i Ho Hi. rewrite Em2. apply Hm1. by apply Hout. }
  set (n := Z.to_nat _). set (s3 := upd_cache c _ s2).
  assert (cache_pool s3 c = (cache_pool s c) <| empty := empty (cache_pool s3 c) |> /\ sframes s3 = p' /\ sm s3 = sm s1) as (Ec3 & Ef3 & Em3).
  { unfold s3, upd_cache. rewrite Ec2. change (cache_pool (s2 <| cache_pool := ?x |>)) with x. rewrite upd_eq. done. }
  assert (0 <= 4096 / size_of s <= 512) as Hdiv by (split; [apply Z.div_pos; lia|apply Z.div_le_upper_bound; lia]).
  assert (Z.of_nat n = 4096 / size_of s) as En.
  { unfold n. fold (size_of s2). rewrite Es2. unfold SLAB_PAGE_SIZE. rewrite (wrap_small 32) by lia. lia. }
  clearbody s3 n.
  destruct (slab_link_ok b (size_of s) s3 n) as (L1 & L2 & L3 & L4); auto; [unfold size_of; by rewrite Ec3|lia|unfold b; lia|rewrite Ec3; exact S4|].
  set (s4 := for_loop n 0 (link_object c b) s3) in *. clearbody s4.
  assert (cache_pool s4 c = (cache_pool s c) <| empty := empty (cache_pool s4 c) |> <| freelist := freelist (cache_pool s4 c) |>) as Ec4.
  { rewrite L2. rewrite Ec3. done. }
  assert (mag_list s4 = mag_list s /\ size_of s4 = size_of s) as [Eg4 Es4] by (unfold mag_list, size_of; by rewrite Ec4).
  destruct (new_cells b (size_of s) n S1 ltac:(lia)) as [N1 N2]. set (l := map _ (rev _)) in *.
  exists (b :: pages), l. split_and!; auto.
  - split; rewrite ?Es4, ?Eg4; auto.
    + rewrite L3, Ef3. done.
    + rewrite L3, Ef3. intros b' [<-|Hb']; auto.
    + rewrite Ec4. exact S5.
    + apply list.NoDup_app. split_and!; [done| |done]. intros o Ho1 Ho2. rewrite list_elem_of_In in Ho1, Ho2.
      destruct (N2 o Ho1) as (i & Hi & ->). destruct (S7 _ Ho2) as (b' & j & Hb' & Hj & E).
      pose proof (cell_range _ i S1 Hi). pose proof (cell_range _ j S1 Hj). destruct (Hoff b' Hb'); lia.
    + intros o Ho. apply in_app_iff in Ho as [Ho|Ho].
      * destruct (N2 o Ho) as (i & Hi & ->). exists b, i. split; [by left|done].
      * by apply cell_more, S7.
  - split; [done|]. intros o i Ho Hi. rewrite L4 by (by apply Hout). rewrite Em3. apply Hm1. by apply Hout.
  - intros El. exfalso. apply (f_equal length) in El. unfold l in El. rewrite length_map, length_rev, length_seqZ in El. cbn in El.
    assert (1 <= 4096 / size_of s) by (apply Z.div_le_lower_bound; lia). lia.
Qed.

(** An object in use is apart from the rest of what the cache tracks. *)
Lemma out_apart pages l out1 o out2 s o' : slab_ok pages l (out1 ++ o :: out2) s -> In o' (l ++ out1 ++ out2) ->
  o' + size_of s <= o \/ o + size_of s <= o'.
Proof using Type.
  clear Hhhdm. intros Hok Ho'. apply (cells_apart _ (sframes s) pages); [apply Hok..| | |].
  - apply Hok. rewrite !in_app_iff in *. cbn. tauto.
  - apply Hok. rewrite !in_app_iff. cbn. tauto.
  - intros ->. pose proof (so_nodup _ _ _ _ Hok) as Hnd.
    assert (l ++ mag_list s ++ out1 ++ o :: out2 ≡ₚ o :: l ++ mag_list s ++ out1 ++ out2) as Hp
      by (rewrite !app_assoc; symmetry; apply Permutation_middle).
    rewrite Hp in Hnd. apply list.NoDup_cons in Hnd as [Hnd _]. apply Hnd, list_elem_of_In. rewrite !in_app_iff in *. tauto.
Qed.

Lemma tracked_pos pages l out s o : slab_ok pages l out s -> In o (l ++ mag_list s ++ out) -> 0 < o < 2 ^ 64.
Proof using Hhhdm.
  intros Hok Ho. pose proof (so_size _ _ _ _ Hok). destruct (cell_pos (sframes s) (size_of s) pages o); [apply Hok..|by apply Hok|lia].
Qed.

Lemma head_bound pages l out s : slab_ok pages l out s -> 0 <= freelist (cache_pool s c) < 2 ^ 64.
Proof using Hhhdm.
  intros Hok. pose proof (so_chain _ _ _ _ Hok) as Hc. destruct l as [|o l]; cbn [chain] in Hc; [lia|]. destruct Hc as [-> _].
  pose proof (tracked_pos pages (o :: l) out s o Hok ltac:(by left)). lia.
Qed.

(** Zeroing an object in use touches that object only. *)
Lemma zero_ok pages l out s o : slab_ok pages l (o :: out) s ->
  let s' := s <| sm := snd (memset o 0 (size_of s) (sm s)) |> in
  slab_ok pages l (o :: out) s' /\ kept out s s' /\ forall i, 0 <= i < size_of s -> sm s' (o + i) = 0.
Proof using Hhhdm.
  intros [S1 S2 S3 S4 S5 S6 S7]. cbv zeta. set (s' := s <| sm := _ |>).
  assert (sm s' = snd (memset o 0 (size_of s) (sm s))) as Em by done.
  assert (cache_pool s' = cache_pool s /\ sframes s' = sframes s) as [Ec Ef] by done. clearbody s'.
  assert (mag_list s' = mag_list s /\ size_of s' = size_of s) as [Eg Es] by (unfold mag_list, size_of; by rewrite Ec).
  assert (forall o', In o' (l ++ out) -> o' + size_of s <= o \/ o + size_of s <= o') as Hap
    by (intros o'; apply (out_apart pages l [] o out s o'); by split).
  split_and!.
  - split; rewrite ?Es, ?Ef, ?Eg, ?Ec; auto. rewrite Em. apply (chain_frame (sm s)); [|done].
    intros o' Ho'. apply zero_link; [lia|]. apply Hap. apply in_app_iff. by left.
  - split; [done|]. intros o' i Ho' Hi. rewrite Em. apply zero_cell; [lia| |done]. apply Hap, in_app_iff. by right.
  - intros i Hi. rewrite Em, memset_at by lia.
    destruct (Z.leb_spec o (o + i)), (Z.ltb_spec (o + i) (o + size_of s)); cbn [andb]; [done|lia..].
Qed.

(** Moving an object from a free list to the objects in use, and back. *)
Lemma move_ok pages l out l' out' s s' : slab_ok pages l out s ->
  l' ++ mag_list s' ++ out' ≡ₚ l ++ mag_list s ++ out -> size_of s' = size_of s -> sframes s' = sframes s ->
  chain (sm s') (freelist (cache_pool s' c)) l' -> 0 <= mcount (cpu_mag (cache_pool s' c) 0) <= MAGAZINE_SIZE ->
  slab_ok pages l' out' s'.
Proof using Type.
  intros [S1 S2 S3 S4 S5 S6 S7] Hp Es Ef Hc Hm. split; rewrite ?Es, ?Ef; auto.
  - by rewrite Hp.
  - intros o Ho. apply S7. apply list_elem_of_In. rewrite <- Hp. by apply list_elem_of_In.
Qed.

(** The cached objects after one more goes in the magazine. *)
Lemma mag_push s s' o : let mag := cpu_mag (cache_pool s c) 0 in
  0 <= mcount mag -> cpu_mag (cache_pool s' c) 0 = mag <| objects := (objects mag).[mcount mag <- o] |> <| mcount := mcount mag + 1 |> ->
  mag_list s' = mag_list s ++ [o].
Proof using Type.
  cbv zeta. intros Hm E. unfold mag_list. rewrite E. set (mag := cpu_mag (cache_pool s c) 0) in *.
  change (map ((objects mag).[mcount mag <- o]) (seqZ 0 (mcount mag + 1)) = map (objects mag) (seqZ 0 (mcount mag)) ++ [o]).
  rewrite seqZ_app by lia. rewrite map_app. f_equal.
  - apply map_ext_in. intros i Hi. apply list_elem_of_In, elem_of_seqZ in Hi. apply upd_ne. lia.
  - rewrite (seqZ_cons (0 + mcount mag) 1) by lia. cbn. by rewrite upd_eq.
Qed.

Lemma mag_pop s s' : let mag := cpu_mag (cache_pool s c) 0 in
  0 < mcount mag -> cpu_mag (cache_pool s' c) 0 = mag <| mcount := mcount mag - 1 |> ->
  mag_list s = mag_list s' ++ [objects mag (mcount mag - 1)].
Proof using Type.
  cbv zeta. intros Hm E. unfold mag_list. rewrite E. set (mag := cpu_mag (cache_pool s c) 0) in *.
  change (map (objects mag) (seqZ 0 (mcount mag)) = map (objects mag) (seqZ 0 (mcount mag - 1)) ++ [objects mag (mcount mag - 1)]).
  replace (mcount mag) with (mcount mag - 1 + 1) at 1 by lia. rewrite seqZ_app by lia. rewrite map_app. f_equal.
Qed.

Lemma link_frames b s n : sframes (for_loop n 0 (link_object c b) s) = sframes s.
Proof using Type. induction n as [|n IH]; [done|]. rewrite for_loop_snoc. exact IH. Qed.


Lemma grow_frames s : sframes (slab_grow hhdm c s) = snd (fr_alloc (sframes s)).
Proof using Type.
  unfold slab_grow. destruct (fr_alloc (sframes s)) as [phys p']. destruct (phys =? 0); [done|].
  destruct (kh_alloc _ _) as [node h]. destruct (node =? 0); [done|]. by rewrite link_frames.
Qed.

Lemma slow_frames s : sframes (snd (alloc_slow hhdm c s)) = if freelist (cache_pool s c) =? 0 then snd (fr_alloc (sframes s)) else sframes s.
Proof using Type.
  unfold alloc_slow. rewrite <- grow_frames. destruct (freelist (cache_pool s c) =? 0); by destruct (freelist _ =? 0).
Qed.

(** What an allocation gives: NULL only when memory ran out, or a zeroed object. *)
Definition alloc_post out s (r : Z * slabs P H) : Prop :=
  let '(o, s') := r in
  kept out s s' /\ exists pages' l',
    (o = 0 -> slab_ok pages' l' out s' /\ (fst (fr_alloc (sframes s)) = 0 \/ fst (kh_alloc SIZEOF_SLAB (skheap s)) = 0)) /\
    (o <> 0 -> slab_ok pages' l' (o :: out) s' /\ forall i, 0 <= i < size_of s -> sm s' (o + i) = 0).

(** The end of both paths: an object in use is zeroed and returned. *)
Lemma hand_out pages l out s s1 o : slab_ok pages l (o :: out) s1 -> kept out s s1 ->
  alloc_post out s (o, s1 <| sm := snd (memset o 0 (size_of s1) (sm s1)) |>).
Proof using Hhhdm.
  intros Hok Hk. destruct (zero_ok pages l out s1 o Hok) as (Z1 & Z2 & Z3). split; [by apply (kept_trans _ _ s1)|].
  exists pages, l. destruct (tracked_pos pages l (o :: out) s1 o Hok) as [Ho _]; [rewrite !in_app_iff; cbn; auto|].
  split; [lia|]. intros _. split; [done|]. destruct Hk as [Ek _]. rewrite <- Ek. done.
Qed.

(** Taking the head of the free list. *)
Lemma slab_pop_ok pages l out s o (f : kmem_cache -> kmem_cache) :
  (forall k, obj_size (f k) = obj_size k /\ cpu_mag (f k) = cpu_mag k /\ freelist (f k) = load 8 o (sm s)) ->
  slab_ok pages (o :: l) out s -> slab_ok pages l (o :: out) (upd_cache c f s).
Proof using Type.
  intros Hf Hok. destruct (Hf (cache_pool s c)) as (F1 & F2 & F3).
  assert (cache_pool (upd_cache c f s) c = f (cache_pool s c)) as Ec by apply upd_eq.
  destruct (so_chain _ _ _ _ Hok) as (_ & _ & Hc). apply (move_ok _ _ _ l (o :: out) _ (upd_cache c f s) Hok).
  - unfold mag_list. rewrite Ec, F2. cbn [app]. rewrite !app_assoc. symmetry. apply Permutation_middle.
  - unfold size_of. by rewrite Ec, F1.
  - done.
  - rewrite Ec, F3. exact Hc.
  - rewrite Ec, F2. apply Hok.
Qed.

Lemma alloc_slow_ok pages l out s : slab_ok pages l out s -> small hhdm (sframes (snd (alloc_slow hhdm c s))) ->
  alloc_post out s (alloc_slow hhdm c s).
Proof using HFL Hhhdm.
  intros Hok Hsm. rewrite slow_frames in Hsm. unfold alloc_slow. set (s1 := if freelist (cache_pool s c) =? 0 then _ else s).
  assert (exists pages' l', slab_ok pages' l' out s1 /\ kept out s s1 /\
    (l' = [] -> fst (fr_alloc (sframes s)) = 0 \/ fst (kh_alloc SIZEOF_SLAB (skheap s)) = 0)) as (pages' & l' & Hok1 & Hk & Hoom).
  { unfold s1. pose proof (so_chain _ _ _ _ Hok) as Hc. destruct l as [|o l]; cbn [chain] in Hc.
    - rewrite Hc in Hsm |- *. cbn [Z.eqb] in *. destruct (grow_ok pages out s Hok Hsm) as (pages' & l' & ? & ? & ? & ?). exists pages', l'. auto.
    - destruct Hc as (-> & Hn & _). apply Z.eqb_neq in Hn as ->. exists pages, (o :: l). split_and!; auto; [by split|done]. }
  clearbody s1. pose proof (so_chain _ _ _ _ Hok1) as Hc. destruct l' as [|o l']; cbn [chain] in Hc.
  { rewrite Hc. cbn [Z.eqb]. split; [done|]. exists pages', []. split_and!; auto. lia. }
  destruct Hc as (-> & Hn & Hc). apply Z.eqb_neq in Hn as ->.
  set (s2 := upd_cache c _ s1). apply (hand_out pages' l'); auto.
  { apply slab_pop_ok; [done|exact Hok1]. }
  assert (size_of s2 = size_of s1) as Es2 by (unfold size_of, s2, upd_cache; change (cache_pool (s1 <| cache_pool := ?x |>)) with x; by rewrite upd_eq).
  apply (kept_trans _ _ s1); [done|]. by split.
Qed.


Lemma alloc_ok pages l out s : slab_ok pages l out s -> small hhdm (sframes (snd (kmem_cache_alloc hhdm c s))) ->
  alloc_post out s (kmem_cache_alloc hhdm c s).
Proof using HFL Hhhdm.
  intros Hok. unfold kmem_cache_alloc. destruct (Z.ltb_spec 0 (mcount (cpu_mag (cache_pool s c) 0))) as [Hm|Hm]; [|by apply (alloc_slow_ok pages l)]. intros _.
  set (s1 := upd_cache c _ s). set (mag := cpu_mag (cache_pool s c) 0) in *.
  change (mcount (mag <| mcount := mcount mag - 1 |>)) with (mcount mag - 1).
  change (objects (mag <| mcount := mcount mag - 1 |>)) with (objects mag). set (o := objects mag (mcount mag - 1)).
  assert (cache_pool s1 c = (cache_pool s c) <| cpu_mag := (cpu_mag (cache_pool s c)).[0 <- mag <| mcount := mcount mag - 1 |>] |>) as Ec
    by (apply upd_eq).
  assert (cpu_mag (cache_pool s1 c) 0 = mag <| mcount := mcount mag - 1 |>) as Em by (rewrite Ec; apply upd_eq).
  assert (sm s1 = sm s /\ sframes s1 = sframes s) as [Es1 Es2] by done.
  assert (size_of s1 = size_of s) as Es3 by (unfold size_of; by rewrite Ec). fold (size_of s1). clearbody s1.
  assert (slab_ok pages l (o :: out) s1) as Hok1.
  { apply (move_ok _ _ _ l (o :: out) _ s1 Hok); auto.
    - rewrite (mag_pop s s1 Hm Em). fold o. by rewrite <- app_assoc.
    - rewrite Ec, Es1. apply Hok.
    - rewrite Em. change (0 <= mcount mag - 1 <= MAGAZINE_SIZE). pose proof (so_mag _ _ _ _ Hok) as Hm'. fold mag in Hm'. lia. }
  destruct (tracked_pos pages l (o :: out) s1 o Hok1) as [Ho _]; [rewrite !in_app_iff; cbn; auto|].
  destruct (Z.eqb_spec o 0); [lia|]. apply (hand_out pages l); [done|]. split; [done|]. intros. by rewrite Es1.
Qed.

(** Freeing with room in the magazine. *)
Lemma free_mag_ok pages l out1 o out2 s : slab_ok pages l (out1 ++ o :: out2) s -> mcount (cpu_mag (cache_pool s c) 0) < MAGAZINE_SIZE ->
  slab_ok pages l (out1 ++ out2) (kmem_cache_free c o s) /\ kept (out1 ++ out2) s (kmem_cache_free c o s).
Proof using Hhhdm.
  intros Hok Hlt. destruct (tracked_pos _ _ _ _ o Hok) as [Ho _]; [rewrite !in_app_iff; cbn; auto|].
  unfold kmem_cache_free. destruct (Z.eqb_spec o 0); [lia|]. pose proof (so_mag _ _ _ _ Hok) as Hm.
  set (mag := cpu_mag (cache_pool s c) 0) in *. destruct (Z.ltb_spec (mcount mag) MAGAZINE_SIZE); [|lia].
  set (mag' := mag <| objects := _ |> <| mcount := _ |>). set (s1 := upd_cache c _ s).
  assert (cache_pool s1 c = (cache_pool s c) <| cpu_mag := (cpu_mag (cache_pool s c)).[0 <- mag'] |>) as Ec by (apply upd_eq).
  assert (cpu_mag (cache_pool s1 c) 0 = mag') as Em by (rewrite Ec; apply upd_eq).
  assert (sm s1 = sm s /\ sframes s1 = sframes s) as [Es1 Es2] by done.
  assert (size_of s1 = size_of s) as Es3 by (unfold size_of; by rewrite Ec). clearbody s1.
  split; [|by split; [|intros; rewrite Es1]]. apply (move_ok _ _ _ l (out1 ++ out2) _ s1 Hok); auto.
  - rewrite (mag_push s s1 o) by (done || (fold mag; lia)). rewrite <- app_assoc. do 2 f_equiv. cbn. apply Permutation_middle.
  - rewrite Ec, Es1. apply Hok.
  - rewrite Em. change (0 <= mcount mag + 1 <= MAGAZINE_SIZE). lia.
Qed.

(** Freeing with a full magazine. *)
Lemma free_list_ok pages l out1 o out2 s : slab_ok pages l (out1 ++ o :: out2) s -> MAGAZINE_SIZE <= mcount (cpu_mag (cache_pool s c) 0) ->
  slab_ok pages (o :: l) (out1 ++ out2) (kmem_cache_free c o s) /\ kept (out1 ++ out2) s (kmem_cache_free c o s).
Proof using Hhhdm.
  intros Hok Hge. destruct (tracked_pos _ _ _ _ o Hok) as [Ho _]; [rewrite !in_app_iff; cbn; auto|].
  unfold kmem_cache_free. destruct (Z.eqb_spec o 0); [lia|]. pose proof (so_size _ _ _ _ Hok) as Hs.
  destruct (Z.ltb_spec (mcount (cpu_mag (cache_pool s c) 0)) MAGAZINE_SIZE); [lia|]. set (s1 := upd_cache c _ _).
  assert (cache_pool s1 c = (cache_pool s c) <| freelist := o |> <| free_count := u64 (free_count (cache_pool s c) + 1) |>) as Ec by (apply upd_eq).
  assert (sm s1 = store 8 o (freelist (cache_pool s c)) (sm s) /\ sframes s1 = sframes s) as [Es1 Es2] by done.
  assert (size_of s1 = size_of s /\ mag_list s1 = mag_list s) as [Es3 Eg] by (unfold size_of, mag_list; by rewrite Ec). clearbody s1.
  pose proof (fun o' => out_apart pages l out1 o out2 s o' Hok) as Hap. split.
  - apply (move_ok _ _ _ (o :: l) (out1 ++ out2) _ s1 Hok); auto.
    + rewrite Eg. rewrite !app_assoc. apply Permutation_middle.
    + rewrite Ec, Es1. cbn [chain]. split; [done|]. split; [lia|].
      rewrite load_store_same by (pose proof (head_bound _ _ _ _ Hok); cbn; lia).
      apply (chain_frame (sm s)); [|apply Hok]. intros o' Ho'. apply store_link. destruct (Hap o'); [apply in_app_iff; auto|lia|lia].
    + rewrite Ec. apply Hok.
  - split; [done|]. intros o' i Ho' Hi. rewrite Es1. apply store_outside. destruct (Hap o'); [apply in_app_iff; auto|cbn; lia|cbn; lia].
Qed.

(** The object freed becomes free; the others keep their bytes. *)
Lemma slab_free_ok pages l out1 o out2 s : slab_ok pages l (out1 ++ o :: out2) s ->
  (exists l', slab_ok pages l' (out1 ++ out2) (kmem_cache_free c o s)) /\ kept (out1 ++ out2) s (kmem_cache_free c o s).
Proof using Hhhdm.
  intros Hok. destruct (decide (mcount (cpu_mag (cache_pool s c) 0) < MAGAZINE_SIZE)).
  - destruct (free_mag_ok pages l out1 o out2 s); eauto.
  - destruct (free_list_ok pages l out1 o out2 s); eauto. lia.
Qed.

(** A client of the cache: the objects it holds with what it last put there. *)
Inductive op := Alloc | Free (k : nat) | Write (k : nat) (i x : Z).

Definition client : Type := slabs P H * list (Z * (Z -> Z)).

Definition step (o : op) (sv : client) : client :=
  let '(s, v) := sv in
  match o with
  | Alloc => let '(a, s') := kmem_cache_alloc hhdm c s in (s', if a =? 0 then v else (a, fun _ => 0) :: v)
  | Free k =>
      match v !! k with
      | Some (a, _) => (kmem_cache_free c a s, take k v ++ drop (S k) v)
      | None => (s, v)
      end
  | Write k i x =>
      match v !! k with
      | Some (a, f) =>
          if (0 <=? i) && (i <? size_of s) then (s <| sm := (sm s).[a + i <- u8 x] |>, <[k := (a, f.[i <- u8 x])]> v) else (s, v)
      | None => (s, v)
      end
  end.

Definition exec (os : list op) (sv : client) : client := fold_left (fun sv o => step o sv) os sv.

(** Memory holds what the client put in its objects. *)
Definition reads (sv : client) : Prop := forall a f i, In (a, f) (snd sv) -> 0 <= i < size_of (fst sv) -> sm (fst sv) (a + i) = f i.

Definition client_ok (sv : client) : Prop := (exists pages l, slab_ok pages l (map fst (snd sv)) (fst sv)) /\ reads sv.

Lemma kept_reads s s' v v' : kept (map fst v') s s' -> (forall x, In x v' -> In x v) -> reads (s, v) -> reads (s', v').
Proof using Type.
  intros [Es Hk] Hsub Hr a f i Ha Hi. cbn [fst snd] in *. rewrite Es in Hi. rewrite Hk; [|by apply (in_map fst v' (a, f))|done].
  apply Hr; auto.
Qed.

Lemma step_alloc s v : client_ok (s, v) -> small hhdm (sframes (fst (step Alloc (s, v)))) -> client_ok (step Alloc (s, v)).
Proof using HFL Hhhdm.
  intros [(pages & l & Hok) Hr] Hsm. cbn [step fst snd] in *. pose proof (alloc_ok pages l _ s Hok) as Ha.
  destruct (kmem_cache_alloc hhdm c s) as [a s']. specialize (Ha Hsm). destruct Ha as (Hk & pages' & l' & H0 & H1). destruct (Z.eqb_spec a 0) as [E|E].
  - destruct (H0 E) as [Hs' _]. split; [by exists pages', l'|]. by apply (kept_reads s _ v).
  - destruct (H1 E) as [Hs' Hz]. split; [by exists pages', l'|]. intros b f i [[= <- <-]|Hb] Hi; cbn [fst snd] in *.
    + apply Hz. destruct Hk as [Ek _]. by rewrite <- Ek.
    + by apply (kept_reads s s' v v Hk ltac:(auto) Hr b f i).
Qed.

Lemma step_free s v k : client_ok (s, v) -> client_ok (step (Free k) (s, v)).
Proof using Hhhdm.
  intros [(pages & l & Hok) Hr]. cbn [step fst snd] in *. destruct (v !! k) as [[a f]|] eqn:Ek; [|by split; [exists pages, l|]].
  pose proof (take_drop_middle v k _ Ek) as Ev. rewrite <- Ev in Hok at 1. rewrite map_app in Hok. cbn [map fst] in Hok.
  destruct (slab_free_ok _ _ _ _ _ _ Hok) as [(l' & Hl') Hk]. rewrite <- map_app in Hl', Hk.
  split; [by exists pages, l'|]. apply (kept_reads s _ v); auto. intros x. rewrite <- Ev at 3. rewrite !in_app_iff. cbn. tauto.
Qed.


Lemma step_write s v k i x : client_ok (s, v) -> client_ok (step (Write k i x) (s, v)).
Proof using Hhhdm.
  intros [(pages & l & Hok) Hr]. cbn [step fst snd] in *. destruct (v !! k) as [[a f]|] eqn:Ek; [|by split; [exists pages, l|]].
  destruct (Z.leb_spec 0 i); cbn [andb]; [|by split; [exists pages, l|]].
  destruct (Z.ltb_spec i (size_of s)); [|by split; [exists pages, l|]].
  pose proof (take_drop_middle v k _ Ek) as Ev. set (v1 := take k v) in *. set (v2 := drop (S k) v) in *.
  assert (<[k := (a, f.[i <- u8 x])]> v = v1 ++ (a, f.[i <- u8 x]) :: v2) as Ev'.
  { apply insert_take_drop. by apply lookup_lt_Some in Ek. }
  assert (map fst v = map fst v1 ++ a :: map fst v2) as Em by (rewrite <- Ev, map_app; done).
  rewrite Ev'. clear Ev'. set (s' := s <| sm := _ |>). assert (sm s' = (sm s).[a + i <- u8 x]) as Es by done.
  assert (size_of s' = size_of s) as Ez by done. rewrite Em in Hok. pose proof (so_size _ _ _ _ Hok) as Hsz.
  pose proof (fun o' => out_apart pages l _ a _ s o' Hok) as Hap. split.
  - exists pages, l. cbn [snd fst]. rewrite map_app. cbn [map fst]. apply (move_ok _ _ _ l _ _ s' Hok); auto; [|apply Hok].
    rewrite Es. apply (chain_frame (sm s)); [|apply Hok]. intros o Ho. apply load_ext. intros b Hb. apply upd_ne. cbn in Hb.
    destruct (Hap o); [apply in_app_iff; by left|lia|lia].
  - intros b g j Hb Hj. cbn [fst snd] in *. rewrite Ez in Hj. rewrite Es. apply in_app_iff in Hb as [Hb|[[= <- <-]|Hb]].
    2: { destruct (decide (j = i)) as [->|]; [by rewrite !upd_eq|]. rewrite !upd_ne by lia. apply Hr; [|done].
         apply list_elem_of_In. by eapply list_elem_of_lookup_2. }
    all: rewrite upd_ne; [apply Hr; [rewrite <- Ev; cbn [snd]; rewrite in_app_iff; cbn; tauto|done]|].
    all: assert (In b (l ++ map fst v1 ++ map fst v2)) as Hin by (rewrite !in_app_iff; apply (in_map fst) in Hb; tauto).
    all: destruct (Hap b Hin); lia.
Qed.

(** Frames stay in use. *)
Definition frames_grow s s' : Prop :=
  fr_ok (sframes s) -> fr_ok (sframes s') /\ forall a, fr_used (sframes s) a -> fr_used (sframes s') a.

Lemma alloc_frames s : sframes (snd (kmem_cache_alloc hhdm c s)) = sframes s \/ sframes (snd (kmem_cache_alloc hhdm c s)) = snd (fr_alloc (sframes s)).
Proof using Type.
  assert (forall s0, sframes s0 = sframes s -> sframes (snd (alloc_slow hhdm c s0)) = sframes s \/ sframes (snd (alloc_slow hhdm c s0)) = snd (fr_alloc (sframes s))) as Hslow.
  { intros s0 <-. rewrite slow_frames. destruct (_ =? 0); auto. }
  unfold kmem_cache_alloc. destruct (0 <? _); [|by apply Hslow]. set (s1 := upd_cache c _ s). set (o := objects _ _).
  destruct (o =? 0); [by apply Hslow|by left].
Qed.

Lemma free_frames s o : sframes (kmem_cache_free c o s) = sframes s.
Proof using Type. unfold kmem_cache_free. destruct (o =? 0); [done|]. by destruct (_ <? _). Qed.

Lemma step_frames o sv : frames_grow (fst sv) (fst (step o sv)).
Proof using HFL.
  destruct sv as [s v]. intros Hok. destruct o as [|k|k i x]; cbn [step fst].
  - pose proof (alloc_frames s) as Hf. destruct (kmem_cache_alloc hhdm c s) as [a s']. cbn [snd fst] in *.
    destruct Hf as [->| ->]; [done|]. destruct (fr_alloc (sframes s)) as [phys p'] eqn:Ea. by destruct (fr_alloc_law _ _ _ Hok Ea) as (? & ? & _).
  - destruct (v !! k) as [[a f]|]; cbn [fst]; [|done]. by rewrite free_frames.
  - destruct (v !! k) as [[a f]|]; [|done]. by destruct (_ && _).
Qed.

Lemma exec_frames os sv : frames_grow (fst sv) (fst (exec os sv)).
Proof using HFL.
  revert sv. induction os as [|o os IH]; intros sv Hok; [by split|]. cbn. destruct (step_frames o sv Hok) as [H1 H2].
  destruct (IH (step o sv) H1) as [H3 H4]. split; auto.
Qed.

Lemma slab_exec_ok os sv : client_ok sv -> small hhdm (sframes (fst (exec os sv))) -> client_ok (exec os sv).
Proof using HFL Hhhdm.
  revert sv. induction os as [|o os IH]; intros [s v] Hok Hsm; [done|]. cbn [exec fold_left] in *. fold (exec os (step o (s, v))) in *.
  apply IH; [|done]. assert (small hhdm (sframes (fst (step o (s, v))))) as Hsm1.
  { assert (fr_ok (sframes s)) as Hf by (destruct Hok as [(pages & l & Hs) _]; apply Hs).
    destruct (step_frames o (s, v) Hf) as [Hf1 _]. destruct (exec_frames os _ Hf1) as [_ Hg]. intros a Ha. by apply Hsm, Hg. }
  destruct o; [by apply step_alloc|by apply step_free|by apply step_write].
Qed.

(** Rounding up to a power of two. *)
Lemma round_up_ok x k : 3 <= k <= 12 -> 8 <= x <= 4096 ->
  let r := Z.land (u64 (x + 2 ^ k - 1)) (u64 (Z.lnot (2 ^ k - 1))) in x <= r <= 4096 /\ r mod 2 ^ k = 0.
Proof using Type.
  clear Hhhdm. intros Hk Hx. cbv zeta. assert (2 ^ 3 <= 2 ^ k <= 2 ^ 12) as Hp by (split; apply Z.pow_le_mono_r; lia).
  rewrite (wrap_small 64) by lia.
  assert (u64 (Z.lnot (2 ^ k - 1)) = Z.shiftl (Z.ones (64 - k)) k) as ->.
  { unfold u64, wrap. replace (Z.lnot (2 ^ k - 1)) with (2 ^ 64 - 2 ^ k + (-1) * 2 ^ 64) by (unfold Z.lnot; lia).
    rewrite Z.mod_add by lia. rewrite Z.mod_small by lia. rewrite Z.shiftl_mul_pow2, Z.ones_equiv by lia.
    replace (2 ^ 64) with (2 ^ (64 - k) * 2 ^ k) by (rewrite <- Z.pow_add_r by lia; f_equal; lia). lia. }
  rewrite land_field by lia. rewrite Z.mod_small.
  2: { split; [apply Z.div_pos; lia|]. apply Z.div_lt_upper_bound; [lia|]. rewrite <- Z.pow_add_r by lia. replace (k + (64 - k)) with 64 by lia. lia. }
  assert ((2 ^ k | 4096)) as [q Hq] by (exists (2 ^ (12 - k)); change 4096 with (2 ^ 12); rewrite <- Z.pow_add_r by lia; f_equal; lia).
  split; [|by rewrite Z.mod_mul by lia]. assert (x + 2 ^ k - 1 < (q + 1) * 2 ^ k) as Hlt by lia.
  pose proof (Z.div_mod (x + 2 ^ k - 1) (2 ^ k) ltac:(lia)) as Hd. pose proof (Z.mod_pos_bound (x + 2 ^ k - 1) (2 ^ k) ltac:(lia)).
  set (d := 2 ^ k) in *. set (y := (x + d - 1) / d) in *. assert (y <= q) by nia. nia.
Qed.

(** A new cache has no objects, of the size asked for or a little more. *)
Lemma slab_create_ok size k s0 s : kmem_cache_create size (2 ^ k) s0 = (Some c, s) -> 0 <= size <= 4096 -> 0 <= k <= 12 -> fr_ok (sframes s0) ->
  slab_ok [] [] [] s /\ size <= size_of s /\ size_of s mod 2 ^ k = 0.
Proof using Type.
  clear Hhhdm. intros E Hs Hk Hf. unfold kmem_cache_create in E. destruct (_ <=? _); [done|]. injection E as Ec <-. rewrite Ec.
  set (sz := if size <? 8 then 8 else size). set (al := if 2 ^ k <? 8 then 8 else 2 ^ k).
  assert (size <= sz /\ 8 <= sz <= 4096) as [Hsz1 Hsz2] by (unfold sz; destruct (Z.ltb_spec size 8); lia).
  assert (al = 2 ^ Z.max k 3) as ->.
  { unfold al. destruct (Z.ltb_spec (2 ^ k) 8) as [Hl|Hl]; destruct (Z.max_spec k 3) as [[? ->]|[? ->]]; try done.
    - exfalso. change 8 with (2 ^ 3) in Hl. apply Z.pow_lt_mono_r_iff in Hl; lia.
    - exfalso. change 8 with (2 ^ 3) in Hl. apply Z.pow_le_mono_r_iff in Hl; lia. }
  destruct (round_up_ok sz (Z.max k 3)) as [R1 R2]; [lia|lia|]. set (r := Z.land _ _) in *.
  match goal with |- slab_ok _ _ _ ?x /\ _ => set (s := x) end. assert (size_of s = r) as Er by (unfold size_of, s; cbn [cache_pool]; by rewrite upd_eq).
  assert (mcount (cpu_mag (cache_pool s c) 0) = 0 /\ freelist (cache_pool s c) = 0) as [Em Efl]
    by (unfold s; cbn [cache_pool]; rewrite upd_eq; done).
  assert (sframes s = sframes s0) as Ef by done. clearbody s r. split_and!; [|lia|].
  - split; rewrite ?Er, ?Ef, ?Em; [lia|done|done|done|done|..]; unfold mag_list; rewrite Em; [apply base.NoDup_nil_2|done].
  - rewrite Er. apply Z.mod_divide; [apply Z.pow_nonzero; lia|]. apply Z.mod_divide in R2; [|apply Z.pow_nonzero; lia].
    eapply Z.divide_trans; [|exact R2]. exists (2 ^ (Z.max k 3 - k)). rewrite <- Z.pow_add_r by lia. f_equal. lia.
Qed.


(** The object size of a cache is fixed. *)
Lemma link_size b s n : size_of (for_loop n 0 (link_object c b) s) = size_of s.
Proof using Type.
  induction n as [|n IH]; [done|]. rewrite for_loop_snoc, <- IH. set (s1 := for_loop n 0 _ s). unfold size_of, link_object, upd_cache.
  change (cache_pool (?x <| cache_pool := ?y |>)) with y. by rewrite upd_eq.
Qed.

Lemma upd_size f s : (forall k, obj_size (f k) = obj_size k) -> size_of (upd_cache c f s) = size_of s.
Proof using Type. intros Hf. unfold size_of, upd_cache. change (cache_pool (s <| cache_pool := ?y |>)) with y. rewrite upd_eq. apply Hf. Qed.

Lemma grow_size s : size_of (slab_grow hhdm c s) = size_of s.
Proof using Type.
  unfold slab_grow. destruct (fr_alloc (sframes s)) as [phys p']. destruct (phys =? 0); [done|].
  destruct (kh_alloc _ _) as [node h]. destruct (node =? 0); [done|]. by rewrite link_size, upd_size.
Qed.

Lemma alloc_size s : size_of (snd (kmem_cache_alloc hhdm c s)) = size_of s.
Proof using Type.
  assert (forall s0, size_of (snd (alloc_slow hhdm c s0)) = size_of s0) as Hslow.
  { intros s0. unfold alloc_slow. set (s1 := if _ =? 0 then _ else s0).
    assert (size_of s1 = size_of s0) as <- by (unfold s1; destruct (_ =? 0); [apply grow_size|done]).
    destruct (freelist (cache_pool s1 c) =? 0); [done|]. by apply upd_size. }
  unfold kmem_cache_alloc. destruct (0 <? _); [|by apply Hslow]. set (s1 := upd_cache c _ s).
  assert (size_of s1 = size_of s) as <- by (by apply upd_size). set (o := objects _ _). destruct (o =? 0); [by apply Hslow|done].
Qed.

Lemma free_size o s : size_of (kmem_cache_free c o s) = size_of s.
Proof using Type. unfold kmem_cache_free. destruct (o =? 0); [done|]. destruct (_ <? _); by rewrite upd_size. Qed.

Lemma exec_size os sv : size_of (fst (exec os sv)) = size_of (fst sv).
Proof using Type.
  revert sv. induction os as [|o os IH]; intros [s v]; [done|]. cbn [exec fold_left]. fold (exec os (step o (s, v))). rewrite IH.
  destruct o as [|k|k i x]; cbn [step].
  - pose proof (alloc_size s) as Ha. by destruct (kmem_cache_alloc hhdm c s) as [a s'].
  - destruct (v !! k) as [[a f]|]; [apply free_size|done].
  - destruct (v !! k) as [[a f]|]; [|done]. by destruct (_ && _).
Qed.

(** A cell of an aligned size is aligned. *)
Lemma cell_aligned p size pages o k : (forall b, In b pages -> page_ok p b) -> cell size pages o -> 0 <= k <= 12 ->
  size mod 2 ^ k = 0 -> o mod 2 ^ k = 0.
Proof using Hhhdm.
  intros Hp (b & i & Hb & _ & ->) Hk Hsz. destruct (Hp b Hb) as (ph & -> & _ & Ha & _). destruct Hhhdm as [_ Hh].
  assert (2 ^ k <> 0) as Hn by (apply Z.pow_nonzero; lia). unfold aligned in *.
  assert ((2 ^ k | 4096)) as Hd by (exists (2 ^ (12 - k)); change 4096 with (2 ^ 12); rewrite <- Z.pow_add_r by lia; f_equal; lia).
  apply Z.mod_divide in Hsz; [|done]. apply Z.mod_divide in Ha; [|done]. apply Z.mod_divide in Hh; [|done].
  apply Z.mod_divide; [done|]. apply Z.divide_add_r; [apply Z.divide_add_r|by apply Z.divide_mul_r]; by eapply Z.divide_trans.
Qed.

(** C29: whatever a client allocates, frees and writes after creating a cache, its
    objects are aligned, lie in page frames the cache owns and do not overlap, and
    memory holds in each what the client last wrote there, zero at first; and an
    allocation returns NULL only when a page frame or a slab header was refused. *)
Theorem slab_refines_objects size k s0 s os :
  kmem_cache_create size (2 ^ k) s0 = (Some c, s) -> 0 <= size <= 4096 -> 0 <= k <= 12 -> fr_ok (sframes s0) ->
  small hhdm (sframes (fst (exec os (s, [])))) ->
  let '(s', v) := exec os (s, []) in
  (forall a f, In (a, f) v -> a mod 2 ^ k = 0 /\
     (exists phys, fr_used (sframes s') phys /\ phys + hhdm <= a /\ a + size <= phys + hhdm + 4096) /\
     forall i, 0 <= i < size -> sm s' (a + i) = f i) /\
  (forall i j x y, v !! i = Some x -> v !! j = Some y -> i <> j -> fst x + size <= fst y \/ fst y + size <= fst x) /\
  (forall s'', kmem_cache_alloc hhdm c s' = (0, s'') -> small hhdm (sframes s'') ->
     fst (fr_alloc (sframes s')) = 0 \/ fst (kh_alloc SIZEOF_SLAB (skheap s')) = 0).
Proof using HFL Hhhdm.
  intros E Hs Hk Hf Hsm. destruct (slab_create_ok size k s0 s E Hs Hk Hf) as (Hok & Hle & Hal).
  assert (client_ok (s, [])) as Hc0 by (split; [by exists [], []|by intros ? ? ? []]).
  pose proof (slab_exec_ok os _ Hc0 Hsm) as Hc. assert (size_of (fst (exec os (s, []))) = size_of s) as Esz by apply exec_size.
  destruct (exec os (s, [])) as [s' v]. destruct Hc as [(pages & l & Hs') Hr]. cbn [fst snd] in *. rewrite <- Esz in Hle, Hal.
  assert (forall x, In x v -> cell (size_of s') pages (fst x)) as Hcell.
  { intros x Hx. apply Hs'. rewrite !in_app_iff. right; right. by apply in_map. }
  split_and!.
  - intros a f Ha. pose proof (Hcell _ Ha) as Hca. cbn [fst] in Hca. split_and!.
    + apply (cell_aligned (sframes s') (size_of s') pages); auto. apply Hs'.
    + destruct Hca as (b & i & Hb & Hi & ->). destruct (so_pages _ _ _ _ Hs' b Hb) as (ph & -> & Hu & _).
      pose proof (cell_range _ i (so_size _ _ _ _ Hs') Hi). exists ph. split; [done|]. lia.
    + intros i Hi. apply Hr; [done|]. cbn [fst]. lia.
  - intros i j x y Hi Hj Hij.
    assert (fst x <> fst y) as Hne.
    { pose proof (so_nodup _ _ _ _ Hs') as Hnd. apply list.NoDup_app in Hnd as (_ & _ & Hnd). apply list.NoDup_app in Hnd as (_ & _ & Hnd).
      intros Exy. apply Hij. apply (NoDup_lookup (map fst v) i j (fst x) Hnd); [by rewrite list_lookup_fmap, Hi|by rewrite list_lookup_fmap, Hj, Exy]. }
    apply list_elem_of_lookup_2, list_elem_of_In in Hi, Hj.
    destruct (cells_apart (size_of s') (sframes s') pages (fst x) (fst y)); auto; [apply Hs'..|lia|lia].
  - intros s'' Ea Hsm2. pose proof (alloc_ok pages l _ s' Hs') as Hp. rewrite Ea in Hp. destruct (Hp Hsm2) as (_ & ? & ? & H0 & _). by apply H0.
Qed.


End cache.

Module Demo.

Definition hhdm0 : Z := 0xFFFF800000000000.

Definition no_cache : kmem_cache :=
  {| obj_size := 0; align := 0; freelist := 0; partial := []; full := []; empty := []; alloc_count := 0; free_count := 0;
     cpu_mag := fun _ => {| objects := fun _ => 0; mcount := 0 |}; active := false |}.

Definition no_caches {P} (p : P) : slabs P Z :=
  {| sm := fun _ => 0xAA; sframes := p; skheap := 64; cache_pool := fun _ => no_cache; cache_count := 0 |}.

Definition boot : slabs frame_bump Z := no_caches {| fb_next := 0x2000; fb_end := 0x100000; fb_refs := fun _ => 0 |}.
Definition created : slabs frame_bump Z := snd (kmem_cache_create 1000 (2 ^ 5) boot).
Definition history : list op := [Alloc; Alloc; Free 1; Alloc; Write 1 5 7].
Notation final := (exec hhdm0 0 history (created, [])).

Lemma small_final : small hhdm0 (sframes (fst final)).
Proof.
  assert (fb_next (sframes (fst final)) = 0x3000) as E by (vm_compute; reflexivity).
  intros a Ha. change (0 <= a < fb_next (sframes (fst final))) in Ha. rewrite E in Ha. unfold hhdm0. lia.
Qed.

Lemma hhdm0_ok : 0 <= hhdm0 /\ aligned hhdm0.
Proof. unfold hhdm0. split; [lia|reflexivity]. Qed.

Lemma boot_frames_ok : fr_ok (sframes boot).
Proof. change (4096 <= 0x2000 /\ 0x2000 mod 4096 = 0). split; [lia|reflexivity]. Qed.

Lemma final_view : map fst (snd final) = [0xFFFF800000002C00; 0xFFFF800000002800] /\ map (fun x => snd x 5) (snd final) = [0; 7].
Proof. vm_compute. split; reflexivity. Qed.

(** Two objects of a page, one of them written to. *)
Lemma slab_refines_objects_witness :
  map fst (snd final) = [0xFFFF800000002C00; 0xFFFF800000002800] /\ sm (fst final) (0xFFFF800000002800 + 5) = 7.
Proof.
  pose proof (slab_refines_objects hhdm0 hhdm0_ok 0 1000 5 boot created history eq_refl ltac:(lia) ltac:(lia) boot_frames_ok small_final) as T.
  pose proof final_view as [E E2]. split; [exact E|].
  destruct final as [s' v]. cbn [fst snd] in *. destruct T as [T _].
  destruct v as [|x [|[a f] [|]]]; try discriminate E. injection E as _ ->. injection E2 as _ E2. rewrite <- E2.
  apply (T 0xFFFF800000002800 f); [by right; left|lia].
Defined.

(** ** Shrinking *)

(** Frames from a list, the last one freed reused first. *)
#[local] Instance pool_frames : Frames (list Z) := {
  fr_alloc p := match p with a :: p' => (a, p') | [] => (0, []) end;
  fr_free a p := a :: p;
  fr_ref a p := p;
  fr_unref a p := p;
  fr_refcount a p := 1;
  fr_ok p := True;
  fr_used p a := ~ In a p
}.

Definition two_caches : slabs (list Z) Z :=
  snd (kmem_cache_create 2048 8 (snd (kmem_cache_create 2048 8 (no_caches [0x1000; 0x2000])))).

(** A slab stays on the empty list while its objects are in use: shrinking the
    first cache frees the page of a live object, and the second cache hands the
    same object out again. *)
Example shrink_frees_objects :
  let '(o, s) := kmem_cache_alloc hhdm0 0 two_caches in
  let '(o', s') := kmem_cache_alloc hhdm0 1 (kmem_cache_shrink hhdm0 0 s) in
  o = hhdm0 + 0x1800 /\ o' = o.
Proof. vm_compute. split; reflexivity. Qed.

(** Objects larger than a page: each allocation takes a page and returns NULL. *)
Example large_objects_leak :
  let s := snd (kmem_cache_create 5000 8 (no_caches [0x1000; 0x2000])) in
  let '(o, s') := kmem_cache_alloc hhdm0 0 s in
  o = 0 /\ sframes s' = [0x2000].
Proof. vm_compute. split; reflexivity. Qed.

End Demo.


End SlabClaims.
