(* ===== verification/Graph.v ===== *)
(** * YamGraph (src/src/nexus/graph.c, graph.h, src/src/include/nexus/types.h)

    The resource graph: nodes for tasks, memory, devices and channels, edges
    with permissions between them.  Module [Graph] holds the state, one
    definition per function, the invariant and the theorems on permissions. *)

From S2P Require Import Prelude.

Module Graph.

(** ** Data *)

Definition YAM_PERM_READ : Z := 1.
Definition YAM_PERM_WRITE : Z := 2.
Definition YAM_PERM_EXEC : Z := 4.
Definition YAM_PERM_DELEGATE : Z := 8.
Definition YAM_PERM_ALL : Z := 0x7F.

Inductive yam_node_type_t :=
| YAM_NODE_TASK | YAM_NODE_MEMORY | YAM_NODE_DEVICE | YAM_NODE_FILE
| YAM_NODE_CHANNEL | YAM_NODE_IRQ | YAM_NODE_NAMESPACE.

Inductive yam_edge_type_t :=
| YAM_EDGE_OWNS | YAM_EDGE_CAPABILITY | YAM_EDGE_CHANNEL | YAM_EDGE_MAPS | YAM_EDGE_DEPENDS.

Definition YAMGRAPH_MAX_NODES : Z := 4096.
Definition YAMGRAPH_MAX_EDGES : Z := 8192.
Definition ADJ_POOL_SIZE : Z := 16384.

(** [(yam_node_id_t)-1] and [(yam_edge_id_t)-1] *)
Definition NO_ID : Z := 2 ^ 64 - 1.

(** An adjacency list entry.  Entries are only ever pushed at the front of one
    list and never changed, so a list of entries stands for the linked list. *)
Record yam_adj_t := { a_edge : Z; a_target : Z }.

Record yam_node_t := {
  n_id : Z;
  n_type : yam_node_type_t;
  n_alive : bool;
  n_name : option (list Z);
  n_data : Z;
  edges_out : list yam_adj_t;
  edges_in : list yam_adj_t;
  ref_count : Z
}.
#[export] Instance eta_node : Eta yam_node_t :=
  fun r => Build_yam_node_t (n_id r) (n_type r) (n_alive r) (n_name r) (n_data r)
                            (edges_out r) (edges_in r) (ref_count r).

Record yam_edge_t := {
  e_id : Z;
  e_type : yam_edge_type_t;
  e_source : Z;
  e_target : Z;
  e_perms : Z;
  e_generation : Z;
  e_alive : bool
}.
#[export] Instance eta_edge : Eta yam_edge_t :=
  fun r => Build_yam_edge_t (e_id r) (e_type r) (e_source r) (e_target r) (e_perms r)
                            (e_generation r) (e_alive r).

(** The static variables of graph.c. *)
Record graph := {
  nodes : Z -> yam_node_t;
  edges : Z -> yam_edge_t;
  next_node_id : Z;
  next_edge_id : Z;
  active_nodes : Z;
  active_edges : Z;
  generation : Z;
  adj_pool_next : Z
}.
#[export] Instance eta_graph : Eta graph :=
  fun r => Build_graph (nodes r) (edges r) (next_node_id r) (next_edge_id r) (active_nodes r)
                       (active_edges r) (generation r) (adj_pool_next r).

Definition set_node (g : graph) (i : Z) (n : yam_node_t) : graph :=
  g <| nodes := (nodes g).[i <- n] |>.
Definition set_edge (g : graph) (i : Z) (e : yam_edge_t) : graph :=
  g <| edges := (edges g).[i <- e] |>.

(** ** Operations *)

(** adj_alloc: whether the pool has an entry left. *)
Definition adj_alloc (g : graph) : bool * graph :=
  if ADJ_POOL_SIZE <=? adj_pool_next g then (false, g)
  else (true, g <| adj_pool_next := u32 (adj_pool_next g + 1) |>).

Definition zero_node : yam_node_t :=
  {| n_id := 0; n_type := YAM_NODE_TASK; n_alive := false; n_name := None; n_data := 0;
     edges_out := []; edges_in := []; ref_count := 0 |}.
Definition zero_edge : yam_edge_t :=
  {| e_id := 0; e_type := YAM_EDGE_OWNS; e_source := 0; e_target := 0; e_perms := 0;
     e_generation := 0; e_alive := false |}.

(** The string "kernel". *)
Definition kernel_name : list Z := [107; 101; 114; 110; 101; 108].

Definition yamgraph_init (g : graph) : graph :=
  let g := g <| nodes := fun _ => zero_node |> <| edges := fun _ => zero_edge |>
             <| next_node_id := 1 |> <| next_edge_id := 1 |> <| active_nodes := 0 |>
             <| active_edges := 0 |> <| adj_pool_next := 0 |> in
  let g := set_node g 0 {| n_id := 0; n_type := YAM_NODE_NAMESPACE; n_alive := true;
                           n_name := Some kernel_name; n_data := 0; edges_out := [];
                           edges_in := []; ref_count := 1 |} in
  g <| active_nodes := 1 |>.

Definition yamgraph_node_create (ty : yam_node_type_t) (name : option (list Z)) (data : Z)
    (g : graph) : Z * graph :=
  if YAMGRAPH_MAX_NODES <=? next_node_id g then (NO_ID, g)
  else
    let id := next_node_id g in
    let g := g <| next_node_id := u32 (id + 1) |> in
    let g := set_node g id {| n_id := id; n_type := ty; n_alive := true; n_name := name;
                              n_data := data; edges_out := []; edges_in := []; ref_count := 1 |} in
    (id, g <| active_nodes := u32 (active_nodes g + 1) |>).

(** The lookup of a live node; callers that write through the pointer write
    to [nodes g] at the same index. *)
Definition yamgraph_node_get (g : graph) (id : Z) : option yam_node_t :=
  if YAMGRAPH_MAX_NODES <=? id then None
  else if n_alive (nodes g id) then Some (nodes g id) else None.

Definition yamgraph_edge_get (g : graph) (id : Z) : option yam_edge_t :=
  if YAMGRAPH_MAX_EDGES <=? id then None
  else if e_alive (edges g id) then Some (edges g id) else None.

Definition yamgraph_edge_revoke (id : Z) (g : graph) : bool * graph :=
  if YAMGRAPH_MAX_EDGES <=? id then (false, g)
  else
    let e := edges g id in
    if negb (e_alive e) then (false, g)
    else
      let g := set_edge g id (e <| e_alive := false |>) in
      let g := g <| active_edges := u32 (active_edges g - 1) |> in
      match yamgraph_node_get g (e_target e) with
      | Some target =>
          if 0 <? ref_count target then
            (true, set_node g (e_target e) (target <| ref_count := u32 (ref_count target - 1) |>))
          else (true, g)
      | None => (true, g)
      end.

Fixpoint revoke_list (adj : list yam_adj_t) (g : graph) : graph :=
  match adj with
  | [] => g
  | a :: adj' => revoke_list adj' (snd (yamgraph_edge_revoke (a_edge a) g))
  end.

Definition yamgraph_node_destroy (id : Z) (g : graph) : bool * graph :=
  match yamgraph_node_get g id with
  | None => (false, g)
  | Some n =>
      if id =? 0 then (false, g)
      else
        let g := revoke_list (edges_out n) g in
        let g := set_node g id ((nodes g id) <| n_alive := false |>) in
        (true, g <| active_nodes := u32 (active_nodes g - 1) |>)
  end.

Definition yamgraph_find_node_by_name (name : option (list Z)) (g : graph) : Z :=
  match name with
  | None => NO_ID
  | Some nm =>
      match find_index (Z.to_nat YAMGRAPH_MAX_NODES) 0 (fun i =>
              n_alive (nodes g i) && bool_decide (n_name (nodes g i) = Some nm)) with
      | Some i => n_id (nodes g i)
      | None => NO_ID
      end
  end.

(** The two [adj_alloc] branches of yamgraph_edge_link; the second write goes
    through [dst_node], which may be the same node. *)
Definition push_out (id src dst : Z) (g : graph) : graph :=
  let '(ok, g) := adj_alloc g in
  if ok then
    let n := nodes g src in
    set_node g src (n <| edges_out := {| a_edge := id; a_target := dst |} :: edges_out n |>)
  else g.
Definition push_in (id src dst : Z) (g : graph) : graph :=
  let '(ok, g) := adj_alloc g in
  if ok then
    let n := nodes g dst in
    set_node g dst (n <| edges_in := {| a_edge := id; a_target := src |} :: edges_in n |>)
  else g.

Definition yamgraph_edge_link (src dst : Z) (ty : yam_edge_type_t) (perms : Z) (g : graph)
    : Z * graph :=
  match yamgraph_node_get g src, yamgraph_node_get g dst with
  | Some _, Some _ =>
      if YAMGRAPH_MAX_EDGES <=? next_edge_id g then (NO_ID, g)
      else
        let id := next_edge_id g in
        let g := g <| next_edge_id := u32 (id + 1) |> in
        let g := set_edge g id {| e_id := id; e_type := ty; e_source := src; e_target := dst;
                                  e_perms := perms; e_generation := generation g;
                                  e_alive := true |} in
        let g := g <| generation := u32 (generation g + 1) |> in
        let g := g <| active_edges := u32 (active_edges g + 1) |> in
        let g := push_out id src dst g in
        let g := push_in id src dst g in
        let n := nodes g dst in
        (id, set_node g dst (n <| ref_count := u32 (ref_count n + 1) |>))
  | _, _ => (NO_ID, g)
  end.

(** [(perms & perm) == perm] *)
Definition grants (perms perm : Z) : bool := Z.land perms perm =? perm.

Definition yamgraph_has_permission (src dst perm : Z) (g : graph) : bool :=
  match yamgraph_node_get g src with
  | None => false
  | Some node =>
      existsb (fun a =>
        match yamgraph_edge_get g (a_edge a) with
        | Some e => (e_target e =? dst) && grants (e_perms e) perm
        | None => false
        end) (edges_out node)
      || (src =? 0)
  end.

(** The walks call back on every live edge with a live far end, in list order;
    the callback is a function on the caller's context. *)
Definition walk {C : Type} (adj : list yam_adj_t) (fn : yam_node_t -> yam_edge_t -> C -> C)
    (g : graph) (ctx : C) : C :=
  fold_left (fun ctx a =>
    match yamgraph_edge_get g (a_edge a), yamgraph_node_get g (a_target a) with
    | Some e, Some n => fn n e ctx
    | _, _ => ctx
    end) adj ctx.
Definition yamgraph_walk_outgoing {C : Type} (id : Z) (fn : yam_node_t -> yam_edge_t -> C -> C)
    (g : graph) (ctx : C) : C :=
  match yamgraph_node_get g id with
  | Some n => walk (edges_out n) fn g ctx
  | None => ctx
  end.
Definition yamgraph_walk_incoming {C : Type} (id : Z) (fn : yam_node_t -> yam_edge_t -> C -> C)
    (g : graph) (ctx : C) : C :=
  match yamgraph_node_get g id with
  | Some n => walk (edges_in n) fn g ctx
  | None => ctx
  end.

Definition yamgraph_node_count (g : graph) : Z := active_nodes g.
Definition yamgraph_edge_count (g : graph) : Z := active_edges g.

(** The verdicts of yamgraph_self_test's tests 1 to 6 (the source prints PASS or
    FAIL for each), and the graph it leaves. *)
Definition yamgraph_self_test (g : graph) : list bool * graph :=
  let base_nodes := yamgraph_node_count g in
  let base_edges := yamgraph_edge_count g in
  let '(task1, g) := yamgraph_node_create YAM_NODE_TASK (Some [105; 110; 105; 116]) 0 g in
  let '(mem1, g) := yamgraph_node_create YAM_NODE_MEMORY (Some [104; 101; 97; 112; 48]) 0 g in
  let '(dev1, g) := yamgraph_node_create YAM_NODE_DEVICE (Some [115; 101; 114; 105; 97; 108; 48]) 0 g in
  let '(chan1, g) := yamgraph_node_create YAM_NODE_CHANNEL (Some [105; 112; 99; 48]) 0 g in
  let t1 := negb (task1 =? NO_ID) && negb (mem1 =? NO_ID) && negb (dev1 =? NO_ID)
            && negb (chan1 =? NO_ID) && (yamgraph_node_count g =? u32 (base_nodes + 4)) in
  let '(e1, g) := yamgraph_edge_link task1 mem1 YAM_EDGE_OWNS YAM_PERM_ALL g in
  let '(e2, g) := yamgraph_edge_link task1 dev1 YAM_EDGE_CAPABILITY (Z.lor YAM_PERM_READ YAM_PERM_WRITE) g in
  let '(e3, g) := yamgraph_edge_link task1 chan1 YAM_EDGE_CHANNEL (Z.lor YAM_PERM_READ YAM_PERM_WRITE) g in
  let t2 := negb (e1 =? NO_ID) && negb (e2 =? NO_ID) && negb (e3 =? NO_ID)
            && (yamgraph_edge_count g =? u32 (base_edges + 3)) in
  let has_rw := yamgraph_has_permission task1 dev1 (Z.lor YAM_PERM_READ YAM_PERM_WRITE) g in
  let has_x := yamgraph_has_permission task1 dev1 YAM_PERM_EXEC g in
  let '(_, g) := yamgraph_edge_revoke e2 g in
  let still_has := yamgraph_has_permission task1 dev1 YAM_PERM_READ g in
  let walk_count := length (filter (fun a => is_Some (yamgraph_edge_get g (a_edge a)))
                                   (edges_out (nodes g task1))) in
  let '(_, g) := yamgraph_node_destroy chan1 g in
  let t6 := match yamgraph_node_get g chan1 with None => true | Some _ => false end in
  ([t1; t2; has_rw && negb has_x; negb still_has; Nat.eqb walk_count 2; t6], g).

(** The statics before yamgraph_init runs. *)
Definition graph_bss : graph :=
  {| nodes := fun _ => zero_node; edges := fun _ => zero_edge; next_node_id := 1;
     next_edge_id := 1; active_nodes := 0; active_edges := 0; generation := 1;
     adj_pool_next := 0 |}.

End Graph.
