(* ===== verification/GraphProps.v ===== *)
(** * Invariant and permission theorems of YamGraph

    [graph_ok] ties the adjacency lists, counters and reference counts of
    graph.c to the table of edges; every operation preserves it.  With it the
    permission check is exactly the existence of a live edge, permissions only
    come from edge creation, and revocation and destruction are final. *)

From S2P Require Import Prelude Graph.

Module GraphProps.
Import Graph.

(** ** The invariant *)

Definition one_if (b : bool) : Z := if b then 1 else 0.
Definition live_nodes (g : graph) : Z :=
  sum_range (Z.to_nat YAMGRAPH_MAX_NODES) 0 (fun i => one_if (n_alive (nodes g i))).
Definition live_edges (g : graph) : Z :=
  sum_range (Z.to_nat YAMGRAPH_MAX_EDGES) 0 (fun e => one_if (e_alive (edges g e))).
(** Live edges into node [n]. *)
Definition live_into (g : graph) (n : Z) : Z :=
  sum_range (Z.to_nat YAMGRAPH_MAX_EDGES) 0
    (fun e => one_if (e_alive (edges g e) && (e_target (edges g e) =? n))).

#[global] Arguments live_nodes : simpl never.
#[global] Arguments live_edges : simpl never.
#[global] Arguments live_into : simpl never.

Definition is_node (g : graph) (i : Z) : Prop := 0 <= i < next_node_id g.
Definition is_edge (g : graph) (e : Z) : Prop := 1 <= e < next_edge_id g.

Record graph_ok (g : graph) : Prop := {
  go_nodes : 1 <= next_node_id g <= YAMGRAPH_MAX_NODES;
  go_edges : 1 <= next_edge_id g <= YAMGRAPH_MAX_EDGES;
  go_pool : adj_pool_next g = 2 * (next_edge_id g - 1);
  go_fresh_node : forall i, ~ is_node g i -> n_alive (nodes g i) = false;
  go_fresh_edge : forall e, ~ is_edge g e -> e_alive (edges g e) = false;
  go_root : n_alive (nodes g 0) = true;
  go_node_id : forall i, is_node g i -> n_id (nodes g i) = i;
  go_ends : forall e, is_edge g e -> is_node g (e_source (edges g e)) /\ is_node g (e_target (edges g e));
  go_out : forall n a, is_node g n ->
    In a (edges_out (nodes g n)) <->
    is_edge g (a_edge a) /\ e_source (edges g (a_edge a)) = n /\ e_target (edges g (a_edge a)) = a_target a;
  go_in : forall n a, is_node g n ->
    In a (edges_in (nodes g n)) <->
    is_edge g (a_edge a) /\ e_target (edges g (a_edge a)) = n /\ e_source (edges g (a_edge a)) = a_target a;
  go_source : forall e, is_edge g e -> e_alive (edges g e) = true ->
    n_alive (nodes g (e_source (edges g e))) = true;
  go_live_nodes : active_nodes g = live_nodes g;
  go_live_edges : active_edges g = live_edges g;
  go_refs : forall n, n_alive (nodes g n) = true -> ref_count (nodes g n) = 1 + live_into g n
}.

(** ** Counting *)

Ltac g_lia := unfold is_node, is_edge, YAMGRAPH_MAX_NODES, YAMGRAPH_MAX_EDGES, ADJ_POOL_SIZE in *; lia.

Lemma one_if_range b : 0 <= one_if b <= 1.
Proof. destruct b; cbn; lia. Qed.

Lemma count_range n (p : Z -> bool) : 0 <= sum_range n 0 (fun i => one_if (p i)) <= Z.of_nat n.
Proof.
  assert (forall lo, 0 <= sum_range n lo (fun i => one_if (p i)) <= Z.of_nat n) as H; [|apply H].
  induction n as [|n IH]; intros lo; cbn [sum_range]; [lia|].
  specialize (IH (lo + 1)). pose proof (one_if_range (p lo)). lia.
Qed.

(** Changing a test at one index of the range moves the count by at most one. *)
Lemma count_change n (p q : Z -> bool) k :
  0 <= k < Z.of_nat n -> (forall i, i <> k -> q i = p i) ->
  sum_range n 0 (fun i => one_if (q i)) =
  sum_range n 0 (fun i => one_if (p i)) - one_if (p k) + one_if (q k).
Proof.
  intros Hk Hq. apply (sum_range_upd n 0 (fun i => one_if (p i)) (fun i => one_if (q i)) k); [lia|].
  intros i _ Hi. by rewrite Hq.
Qed.

Lemma count_same n (p q : Z -> bool) :
  (forall i, q i = p i) -> sum_range n 0 (fun i => one_if (q i)) = sum_range n 0 (fun i => one_if (p i)).
Proof. intros H. apply sum_range_ext. intros i _. by rewrite H. Qed.

Lemma count_positive n (p : Z -> bool) k :
  0 <= k < Z.of_nat n -> p k = true -> 1 <= sum_range n 0 (fun i => one_if (p i)).
Proof.
  intros Hk Hp. pose proof (sum_range_le_one n 0 (fun i => one_if (p i)) k) as H. cbv beta in H.
  rewrite Hp in H. apply H; [intros; apply one_if_range|lia].
Qed.

Section counters.
Context (g g' : graph).

Lemma live_nodes_ext :
  (forall i, n_alive (nodes g' i) = n_alive (nodes g i)) -> live_nodes g' = live_nodes g.
Proof. intros H. unfold live_nodes. by apply (count_same _ (fun i => n_alive (nodes g i))). Qed.

Lemma live_nodes_change k :
  0 <= k < YAMGRAPH_MAX_NODES -> (forall i, i <> k -> n_alive (nodes g' i) = n_alive (nodes g i)) ->
  live_nodes g' = live_nodes g - one_if (n_alive (nodes g k)) + one_if (n_alive (nodes g' k)).
Proof.
  intros Hk H. unfold live_nodes.
  apply (count_change _ (fun i => n_alive (nodes g i)) (fun i => n_alive (nodes g' i))); auto; g_lia.
Qed.

Lemma live_edges_ext :
  (forall e, e_alive (edges g' e) = e_alive (edges g e)) -> live_edges g' = live_edges g.
Proof. intros H. unfold live_edges. by apply (count_same _ (fun e => e_alive (edges g e))). Qed.

Lemma live_edges_change k :
  0 <= k < YAMGRAPH_MAX_EDGES -> (forall e, e <> k -> e_alive (edges g' e) = e_alive (edges g e)) ->
  live_edges g' = live_edges g - one_if (e_alive (edges g k)) + one_if (e_alive (edges g' k)).
Proof.
  intros Hk H. unfold live_edges.
  apply (count_change _ (fun e => e_alive (edges g e)) (fun e => e_alive (edges g' e))); auto; g_lia.
Qed.

(** Whether edge [e] counts as a reference to node [n]. *)
Definition counts_for (h : graph) (n e : Z) : bool :=
  e_alive (edges h e) && (e_target (edges h e) =? n).

Lemma live_into_ext n :
  (forall e, counts_for g' n e = counts_for g n e) -> live_into g' n = live_into g n.
Proof. intros H. unfold live_into. by apply (count_same _ (counts_for g n)). Qed.

Lemma live_into_change n k :
  0 <= k < YAMGRAPH_MAX_EDGES -> (forall e, e <> k -> counts_for g' n e = counts_for g n e) ->
  live_into g' n = live_into g n - one_if (counts_for g n k) + one_if (counts_for g' n k).
Proof.
  intros Hk H. unfold live_into.
  apply (count_change _ (counts_for g n) (counts_for g' n)); auto; g_lia.
Qed.

Lemma live_nodes_range : 0 <= live_nodes g <= YAMGRAPH_MAX_NODES.
Proof. pose proof (count_range (Z.to_nat YAMGRAPH_MAX_NODES) (fun i => n_alive (nodes g i))). unfold live_nodes. g_lia. Qed.

Lemma live_edges_range : 0 <= live_edges g <= YAMGRAPH_MAX_EDGES.
Proof. pose proof (count_range (Z.to_nat YAMGRAPH_MAX_EDGES) (fun e => e_alive (edges g e))). unfold live_edges. g_lia. Qed.

Lemma live_into_range n : 0 <= live_into g n <= YAMGRAPH_MAX_EDGES.
Proof. pose proof (count_range (Z.to_nat YAMGRAPH_MAX_EDGES) (counts_for g n)). unfold live_into, counts_for in *. g_lia. Qed.

Lemma live_nodes_pos k : 0 <= k < YAMGRAPH_MAX_NODES -> n_alive (nodes g k) = true -> 1 <= live_nodes g.
Proof. intros Hk. unfold live_nodes. apply (count_positive _ (fun i => n_alive (nodes g i))). g_lia. Qed.

Lemma live_edges_pos k : 0 <= k < YAMGRAPH_MAX_EDGES -> e_alive (edges g k) = true -> 1 <= live_edges g.
Proof. intros Hk. unfold live_edges. apply (count_positive _ (fun e => e_alive (edges g e))). g_lia. Qed.

Lemma live_into_pos n k : 0 <= k < YAMGRAPH_MAX_EDGES -> counts_for g n k = true -> 1 <= live_into g n.
Proof. intros Hk. unfold live_into. apply (count_positive _ (counts_for g n)). g_lia. Qed.

Lemma live_into_zero n : (forall e, counts_for g n e = false) -> live_into g n = 0.
Proof.
  intros H. unfold live_into. rewrite (count_same _ (fun _ => false) (counts_for g n)) by done.
  apply sum_range_zero.
Qed.

Lemma live_edges_zero : (forall e, e_alive (edges g e) = false) -> live_edges g = 0.
Proof.
  intros H. unfold live_edges. rewrite (count_same _ (fun _ => false) (fun e => e_alive (edges g e))) by done.
  apply sum_range_zero.
Qed.

Lemma live_nodes_one k :
  0 <= k < YAMGRAPH_MAX_NODES -> (forall i, n_alive (nodes g i) = (i =? k)) -> live_nodes g = 1.
Proof.
  intros Hk H. unfold live_nodes. rewrite (count_change _ (fun _ => false) (fun i => n_alive (nodes g i)) k).
  - rewrite H, Z.eqb_refl. cbn [one_if]. change (sum_range _ 0 _) with (sum_range (Z.to_nat YAMGRAPH_MAX_NODES) 0 (fun _ => 0)).
    by rewrite sum_range_zero.
  - g_lia.
  - intros i Hi. rewrite H. by apply Z.eqb_neq.
Qed.
End counters.

#[global] Opaque live_nodes live_edges live_into.

(** ** Lookups *)

Lemma node_get_Some g i n : yamgraph_node_get g i = Some n <->
  i < YAMGRAPH_MAX_NODES /\ n_alive (nodes g i) = true /\ n = nodes g i.
Proof.
  unfold yamgraph_node_get. destruct (Z.leb_spec YAMGRAPH_MAX_NODES i); [split; [done|lia]|].
  destruct (n_alive (nodes g i)); split; intuition congruence.
Qed.

Lemma node_get_live g i : graph_ok g ->
  yamgraph_node_get g i = if n_alive (nodes g i) then Some (nodes g i) else None.
Proof.
  intros G. unfold yamgraph_node_get. destruct (Z.leb_spec YAMGRAPH_MAX_NODES i); [|done].
  rewrite (go_fresh_node g G) by (pose proof (go_nodes g G); g_lia). done.
Qed.

Lemma edge_get_live g e : graph_ok g ->
  yamgraph_edge_get g e = if e_alive (edges g e) then Some (edges g e) else None.
Proof.
  intros G. unfold yamgraph_edge_get. destruct (Z.leb_spec YAMGRAPH_MAX_EDGES e); [|done].
  rewrite (go_fresh_edge g G) by (pose proof (go_edges g G); g_lia). done.
Qed.

Lemma live_is_node g i : graph_ok g -> n_alive (nodes g i) = true -> is_node g i.
Proof.
  intros G H. destruct (decide (is_node g i)) as [|Hn]; [done|].
  by rewrite (go_fresh_node g G i Hn) in H.
Qed.

Lemma live_is_edge g e : graph_ok g -> e_alive (edges g e) = true -> is_edge g e.
Proof.
  intros G H. destruct (decide (is_edge g e)) as [|Hn]; [done|].
  by rewrite (go_fresh_edge g G e Hn) in H.
Qed.

(** ** Initialisation and node creation *)

Lemma graph_init_ok g : graph_ok (yamgraph_init g).
Proof.
  assert (forall i, n_alive (nodes (yamgraph_init g) i) = (i =? 0)) as Hn.
  { intros i. cbn. unfold upd. by destruct (i =? 0). }
  assert (forall i, edges_out (nodes (yamgraph_init g) i) = [] /\ edges_in (nodes (yamgraph_init g) i) = []) as Hl.
  { intros i. cbn. unfold upd. by destruct (i =? 0). }
  split; try (cbn; g_lia).
  - intros i Hi. rewrite Hn. apply Z.eqb_neq. intros ->. apply Hi. unfold is_node. cbn. lia.
  - intros i Hi. replace i with 0; [done|]. unfold is_node in Hi. cbn in Hi. lia.
  - intros e He. unfold is_edge in He. cbn in He. lia.
  - intros n a _. rewrite (proj1 (Hl n)). split; [done|]. intros [He _]. unfold is_edge in He. cbn in He. lia.
  - intros n a _. rewrite (proj2 (Hl n)). split; [done|]. intros [He _]. unfold is_edge in He. cbn in He. lia.
  - symmetry. apply (live_nodes_one _ 0); [g_lia|done].
  - symmetry. by apply live_edges_zero.
  - intros n Hlive. rewrite Hn in Hlive. apply Z.eqb_eq in Hlive as ->.
    rewrite live_into_zero by done. done.
Qed.

Lemma create_ok ty name data g : graph_ok g -> graph_ok (snd (yamgraph_node_create ty name data g)).
Proof.
  intros G. unfold yamgraph_node_create. destruct (Z.leb_spec YAMGRAPH_MAX_NODES (next_node_id g)); [done|].
  set (id := next_node_id g). set (n := {| n_id := id |}). cbn [snd]. destruct G.
  assert (u32 (id + 1) = id + 1) as Hid by (apply wrap_small; g_lia).
  assert (~ is_node g id) as Hfresh by g_lia.
  assert (forall e, is_edge g e -> e_source (edges g e) <> id /\ e_target (edges g e) <> id) as Hends.
  { intros e He. destruct (go_ends0 e He). unfold id. g_lia. }
  assert (live_into g id = 0) as Hinto.
  { apply live_into_zero. intros e. unfold counts_for.
    destruct (decide (is_edge g e)) as [He|He]; [|by rewrite go_fresh_edge0].
    destruct (Hends e He) as [_ Ht]. rewrite (proj2 (Z.eqb_neq _ _) Ht). by rewrite andb_false_r. }
  split; unfold is_node, is_edge in *; cbn; rewrite ?Hid.
  - g_lia.
  - assumption.
  - assumption.
  - intros i Hi. rewrite upd_ne by g_lia. apply go_fresh_node0. g_lia.
  - assumption.
  - rewrite upd_ne by g_lia. assumption.
  - intros i Hi. destruct (decide (i = id)) as [->|]; [by rewrite upd_eq|]. rewrite upd_ne by done.
    apply go_node_id0. g_lia.
  - intros e He. destruct (go_ends0 e He). g_lia.
  - intros m a Hm. destruct (decide (m = id)) as [->|].
    + rewrite upd_eq. cbn. split; [done|]. intros (He & Hs & _). destruct (Hends _ He). done.
    + rewrite upd_ne by done. apply go_out0. g_lia.
  - intros m a Hm. destruct (decide (m = id)) as [->|].
    + rewrite upd_eq. cbn. split; [done|]. intros (He & Hs & _). destruct (Hends _ He). done.
    + rewrite upd_ne by done. apply go_in0. g_lia.
  - intros e He Hlive. rewrite upd_ne by (by apply Hends). auto.
  - rewrite (live_nodes_change g _ id) by first [g_lia | intros; cbn; by rewrite upd_ne].
    cbn. rewrite upd_eq, go_fresh_node0 by done. cbn [one_if n_alive].
    pose proof (live_nodes_range g). rewrite go_live_nodes0, wrap_small by g_lia. subst n. cbn. lia.
  - rewrite go_live_edges0. symmetry. by apply live_edges_ext.
  - intros m Hm. rewrite (live_into_ext g) by done. destruct (decide (m = id)) as [->|].
    + rewrite upd_eq. cbn. lia.
    + rewrite upd_ne in Hm |- * by done. by apply go_refs0.
Qed.

(** ** Linking *)

(** What yamgraph_edge_link does when it succeeds. *)
Record linked (g g' : graph) (src dst : Z) (ty : yam_edge_type_t) (perms : Z) : Prop := {
  lk_edges : edges g' = (edges g).[next_edge_id g <-
    {| e_id := next_edge_id g; e_type := ty; e_source := src; e_target := dst; e_perms := perms;
       e_generation := generation g; e_alive := true |}];
  lk_next_edge : next_edge_id g' = next_edge_id g + 1;
  lk_next_node : next_node_id g' = next_node_id g;
  lk_pool : adj_pool_next g' = adj_pool_next g + 2;
  lk_active_nodes : active_nodes g' = active_nodes g;
  lk_active_edges : active_edges g' = u32 (active_edges g + 1);
  lk_alive : forall i, n_alive (nodes g' i) = n_alive (nodes g i);
  lk_id : forall i, n_id (nodes g' i) = n_id (nodes g i);
  lk_name : forall i, n_name (nodes g' i) = n_name (nodes g i);
  lk_out : forall i, edges_out (nodes g' i) =
    (if i =? src then [{| a_edge := next_edge_id g; a_target := dst |}] else []) ++ edges_out (nodes g i);
  lk_in : forall i, edges_in (nodes g' i) =
    (if i =? dst then [{| a_edge := next_edge_id g; a_target := src |}] else []) ++ edges_in (nodes g i);
  lk_refs : forall i, ref_count (nodes g' i) =
    if i =? dst then u32 (ref_count (nodes g i) + 1) else ref_count (nodes g i)
}.

Lemma adj_alloc_room g :
  0 <= adj_pool_next g < ADJ_POOL_SIZE ->
  adj_alloc g = (true, g <| adj_pool_next := adj_pool_next g + 1 |>).
Proof.
  intros H. unfold adj_alloc. rewrite (proj2 (Z.leb_gt _ _)) by lia. rewrite wrap_small by g_lia. done.
Qed.

(** The pool of adjacency entries is large enough for all edges. *)
Lemma link_shape src dst ty perms g id g' :
  graph_ok g -> yamgraph_edge_link src dst ty perms g = (id, g') ->
  (id = NO_ID /\ g' = g /\ (n_alive (nodes g src) = false \/ n_alive (nodes g dst) = false \/
                            YAMGRAPH_MAX_EDGES <= next_edge_id g)) \/
  (id = next_edge_id g /\ next_edge_id g < YAMGRAPH_MAX_EDGES /\ n_alive (nodes g src) = true /\
   n_alive (nodes g dst) = true /\ linked g g' src dst ty perms).
Proof.
  intros G. unfold yamgraph_edge_link. rewrite !node_get_live by done.
  destruct (n_alive (nodes g src)) eqn:Es; [|intros [= <- <-]; left; auto].
  destruct (n_alive (nodes g dst)) eqn:Ed; [|intros [= <- <-]; left; auto].
  destruct (Z.leb_spec YAMGRAPH_MAX_EDGES (next_edge_id g)) as [|Hroom]; [intros [= <- <-]; left; auto|].
  pose proof (go_pool g G). pose proof (go_edges g G). intros Heq. right.
  cbv zeta in Heq. unfold push_out in Heq. rewrite adj_alloc_room in Heq by (cbn; g_lia).
  unfold push_in in Heq. rewrite adj_alloc_room in Heq by (cbn; g_lia). cbn in Heq.
  injection Heq as <- <-. split_and!; try done.
  split; cbn; try done; try lia.
  { apply wrap_small. g_lia. }
  all: intros i; upd_cases; subst; cbn; auto; congruence.
Qed.

Lemma linked_ok g g' src dst ty perms :
  graph_ok g -> next_edge_id g < YAMGRAPH_MAX_EDGES -> n_alive (nodes g src) = true ->
  n_alive (nodes g dst) = true -> linked g g' src dst ty perms -> graph_ok g'.
Proof.
  intros G Hroom Hs Hd [Le Lne Lnn Lp Lan Lae La Li _ Lo Lin Lr].
  pose proof (live_is_node g src G Hs) as Hns. pose proof (live_is_node g dst G Hd) as Hnd.
  destruct G. set (id := next_edge_id g) in *.
  assert (forall e, is_edge g' e <-> is_edge g e \/ e = id) as Hedge by (intros; g_lia).
  assert (~ is_edge g id) as Hnew by g_lia.
  assert (forall e, e <> id -> edges g' e = edges g e) as Hold by (intros; by rewrite Le, upd_ne).
  assert (e_source (edges g' id) = src /\ e_target (edges g' id) = dst /\ e_alive (edges g' id) = true)
    as (Es & Et & Ea) by (by rewrite Le, upd_eq).
  split.
  - g_lia.
  - g_lia.
  - lia.
  - intros i Hi. rewrite La. apply go_fresh_node0. g_lia.
  - intros e He. rewrite Hold; [apply go_fresh_edge0|]; g_lia.
  - by rewrite La.
  - intros i Hi. rewrite Li. apply go_node_id0. g_lia.
  - intros e [He| ->]%Hedge; [rewrite Hold by congruence; destruct (go_ends0 e He); g_lia|].
    rewrite Es, Et. g_lia.
  - intros n a Hn. rewrite Lo, in_app_iff, Hedge, go_out0 by g_lia.
    destruct (decide (a_edge a = id)) as [E|E].
    + rewrite E, Es, Et. destruct a as [ae at_]. cbn in E. subst ae.
      clear -Hnew. destruct (Z.eqb_spec n src); cbn; intuition congruence.
    + rewrite Hold by done. clear -E. destruct a as [ae at_]. cbn in *.
      destruct (Z.eqb_spec n src); cbn; intuition congruence.
  - intros n a Hn. rewrite Lin, in_app_iff, Hedge, go_in0 by g_lia.
    destruct (decide (a_edge a = id)) as [E|E].
    + rewrite E, Es, Et. destruct a as [ae at_]. cbn in E. subst ae.
      clear -Hnew. destruct (Z.eqb_spec n dst); cbn; intuition congruence.
    + rewrite Hold by done. clear -E. destruct a as [ae at_]. cbn in *.
      destruct (Z.eqb_spec n dst); cbn; intuition congruence.
  - intros e [He| ->]%Hedge Hlive; [|by rewrite Es, La].
    rewrite Hold in Hlive |- * by congruence. rewrite La. auto.
  - rewrite Lan, go_live_nodes0. symmetry. by apply live_nodes_ext.
  - rewrite (live_edges_change g g' id) by first [g_lia | intros; by rewrite Hold].
    rewrite Ea, go_fresh_edge0 by done. cbn [one_if]. pose proof (live_edges_range g).
    rewrite Lae, go_live_edges0, wrap_small by g_lia. lia.
  - intros n Hn. rewrite La in Hn.
    rewrite (live_into_change g g' n id) by first [g_lia | intros; unfold counts_for; by rewrite Hold].
    unfold counts_for. rewrite Ea, Et, go_fresh_edge0 by done. cbn [andb one_if].
    rewrite Lr, (Z.eqb_sym dst n), go_refs0 by done. pose proof (live_into_range g n).
    destruct (n =? dst); cbn [one_if]; [|lia]. rewrite wrap_small by g_lia. lia.
Qed.

Lemma link_ok src dst ty perms g : graph_ok g -> graph_ok (snd (yamgraph_edge_link src dst ty perms g)).
Proof.
  intros G. destruct (yamgraph_edge_link src dst ty perms g) as [id g'] eqn:E.
  destruct (link_shape _ _ _ _ _ _ _ G E) as [(_ & -> & _)|(_ & ? & ? & ? & L)]; [done|].
  by apply (linked_ok g g' src dst ty perms).
Qed.

(** ** Revoking *)

(** What a successful yamgraph_edge_revoke does. *)
Record revoked (g g' : graph) (id : Z) : Prop := {
  rv_dead : e_alive (edges g' id) = false;
  rv_edges : forall e, e_source (edges g' e) = e_source (edges g e) /\
    e_target (edges g' e) = e_target (edges g e) /\ e_perms (edges g' e) = e_perms (edges g e);
  rv_other : forall e, e <> id -> edges g' e = edges g e;
  rv_next_edge : next_edge_id g' = next_edge_id g;
  rv_next_node : next_node_id g' = next_node_id g;
  rv_pool : adj_pool_next g' = adj_pool_next g;
  rv_active_nodes : active_nodes g' = active_nodes g;
  rv_active_edges : active_edges g' = u32 (active_edges g - 1);
  rv_nodes : forall i, n_alive (nodes g' i) = n_alive (nodes g i) /\ n_id (nodes g' i) = n_id (nodes g i) /\
    edges_out (nodes g' i) = edges_out (nodes g i) /\ edges_in (nodes g' i) = edges_in (nodes g i);
  rv_refs : forall i, n_alive (nodes g i) = true -> ref_count (nodes g' i) =
    if i =? e_target (edges g id) then u32 (ref_count (nodes g i) - 1) else ref_count (nodes g i)
}.

Lemma revoke_shape id g b g' :
  graph_ok g -> yamgraph_edge_revoke id g = (b, g') ->
  (b = false /\ g' = g /\ e_alive (edges g id) = false) \/
  (b = true /\ e_alive (edges g id) = true /\ revoked g g' id).
Proof.
  intros G. unfold yamgraph_edge_revoke.
  destruct (Z.leb_spec YAMGRAPH_MAX_EDGES id).
  { intros [= <- <-]. left. split_and!; auto. apply (go_fresh_edge g G). pose proof (go_edges g G). g_lia. }
  destruct (e_alive (edges g id)) eqn:Ea; cbn [negb]; [|intros [= <- <-]; by left].
  cbv zeta. intros Heq. right.
  set (t := e_target (edges g id)) in *.
  set (g1 := (set_edge g id _) <| active_edges := _ |>) in *.
  assert (forall e, e_source (edges g1 e) = e_source (edges g e) /\ e_target (edges g1 e) = e_target (edges g e) /\
    e_perms (edges g1 e) = e_perms (edges g e)) as He.
  { intros e. cbn. destruct (decide (e = id)) as [->|]; [by rewrite upd_eq|by rewrite upd_ne]. }
  destruct (n_alive (nodes g t)) eqn:El.
  - assert (yamgraph_node_get g1 t = Some (nodes g t)) as Hget.
    { apply node_get_Some. split_and!; auto. pose proof (go_nodes g G). apply (live_is_node g t G) in El. g_lia. }
    rewrite Hget in Heq. pose proof (go_refs g G t El). pose proof (live_into_range g t).
    rewrite (proj2 (Z.ltb_lt _ _)) in Heq by lia. injection Heq as <- <-. split_and!; auto.
    split; auto; cbn.
    + by rewrite upd_eq.
    + intros e Hne. by rewrite upd_ne.
    + intros i. destruct (decide (i = t)) as [->|]; [by rewrite upd_eq|by rewrite upd_ne].
    + intros i _. unfold upd. fold t. destruct (Z.eqb_spec i t) as [->|]; done.
  - assert (yamgraph_node_get g1 t = None) as Hget.
    { unfold yamgraph_node_get. change (nodes g1) with (nodes g). rewrite El. by destruct (_ <=? _). }
    rewrite Hget in Heq. injection Heq as <- <-. split_and!; auto. split; auto; cbn.
    + by rewrite upd_eq.
    + intros e Hne. by rewrite upd_ne.
    + intros i Hi. fold t. destruct (Z.eqb_spec i t) as [->|]; [congruence|done].
Qed.

Lemma revoked_ok g g' id :
  graph_ok g -> e_alive (edges g id) = true -> revoked g g' id -> graph_ok g'.
Proof.
  intros G Hlive [Rd Re Ro Rne Rnn Rp Ran Rae Rn Rr].
  pose proof (live_is_edge g id G Hlive) as Hid. destruct G.
  assert (forall e, is_edge g' e <-> is_edge g e) as Hedge by (intros; unfold is_edge; by rewrite Rne).
  assert (forall i, is_node g' i <-> is_node g i) as Hnode by (intros; unfold is_node; by rewrite Rnn).
  assert (forall e, e_alive (edges g' e) = true -> e_alive (edges g e) = true) as Hmono.
  { intros e He. destruct (decide (e = id)) as [->|]; [done|]. by rewrite <- (Ro e). }
  split; try lia.
  - intros i. rewrite Hnode. destruct (Rn i) as (-> & _). apply go_fresh_node0.
  - intros e. rewrite Hedge. intros He. destruct (e_alive (edges g' e)) eqn:E; [|done].
    apply Hmono in E. by rewrite go_fresh_edge0 in E.
  - by destruct (Rn 0) as (-> & _).
  - intros i. rewrite Hnode. destruct (Rn i) as (_ & -> & _). apply go_node_id0.
  - intros e. rewrite Hedge, !Hnode. destruct (Re e) as (-> & -> & _). apply go_ends0.
  - intros n a. rewrite Hnode, Hedge. destruct (Rn n) as (_ & _ & -> & _), (Re (a_edge a)) as (-> & -> & _).
    apply go_out0.
  - intros n a. rewrite Hnode, Hedge. destruct (Rn n) as (_ & _ & _ & ->), (Re (a_edge a)) as (-> & -> & _).
    apply go_in0.
  - intros e. rewrite Hedge. intros He Ha. destruct (Re e) as (-> & _), (Rn (e_source (edges g e))) as (-> & _).
    auto.
  - rewrite Ran, go_live_nodes0. symmetry. apply live_nodes_ext. intros i. by destruct (Rn i) as (-> & _).
  - rewrite (live_edges_change g g' id) by first [g_lia | intros; by rewrite Ro].
    rewrite Rd, Hlive. cbn [one_if]. pose proof (live_edges_range g).
    pose proof (live_edges_pos g id ltac:(g_lia) Hlive).
    rewrite Rae, go_live_edges0, wrap_small by g_lia. lia.
  - intros n Hn. destruct (Rn n) as (E & _). rewrite E in Hn. rewrite Rr, go_refs0 by done.
    rewrite (live_into_change g g' n id) by first [g_lia | intros; unfold counts_for; by rewrite Ro].
    unfold counts_for. rewrite Rd, Hlive, (Z.eqb_sym _ n). cbn [andb one_if]. pose proof (live_into_range g n).
    destruct (n =? e_target (edges g id)); cbn [one_if]; [|lia]. rewrite wrap_small by g_lia. lia.
Qed.

(** [g'] is [g] with some edges revoked. *)
Record shrunk (g g' : graph) : Prop := {
  sh_next_edge : next_edge_id g' = next_edge_id g;
  sh_next_node : next_node_id g' = next_node_id g;
  sh_edges : forall e, e_source (edges g' e) = e_source (edges g e) /\
    e_target (edges g' e) = e_target (edges g e) /\ e_perms (edges g' e) = e_perms (edges g e);
  sh_alive : forall e, e_alive (edges g' e) = true -> e_alive (edges g e) = true;
  sh_nodes : forall i, n_alive (nodes g' i) = n_alive (nodes g i) /\
    edges_out (nodes g' i) = edges_out (nodes g i)
}.

Lemma shrunk_refl g : shrunk g g.
Proof. by split. Qed.

Lemma shrunk_trans g1 g2 g3 : shrunk g1 g2 -> shrunk g2 g3 -> shrunk g1 g3.
Proof.
  intros [A1 B1 C1 D1 E1] [A2 B2 C2 D2 E2]. split; try congruence; auto.
  - intros e. destruct (C1 e) as (? & ? & ?), (C2 e) as (? & ? & ?). split_and!; congruence.
  - intros i. destruct (E1 i), (E2 i). split; congruence.
Qed.

Lemma revoke_shrunk id g : graph_ok g ->
  let g' := snd (yamgraph_edge_revoke id g) in
  graph_ok g' /\ shrunk g g' /\ e_alive (edges g' id) = false.
Proof.
  intros G. destruct (yamgraph_edge_revoke id g) as [b g'] eqn:E. cbn [snd].
  destruct (revoke_shape _ _ _ _ G E) as [(_ & -> & Hd)|(_ & Hl & R)]; [auto using shrunk_refl|].
  split_and!; [by apply (revoked_ok g g' id)| |apply R].
  destruct R as [Rd Re Ro Rne Rnn _ _ _ Rn _]. split; auto.
  - intros e He. destruct (decide (e = id)) as [->|]; [done|]. by rewrite <- Ro.
  - intros i. destruct (Rn i) as (? & _ & ? & _). auto.
Qed.

Lemma revoke_list_shrunk adj g : graph_ok g ->
  let g' := revoke_list adj g in
  graph_ok g' /\ shrunk g g' /\ forall a, In a adj -> e_alive (edges g' (a_edge a)) = false.
Proof.
  revert g. induction adj as [|a adj IH]; intros g G; cbn [revoke_list].
  { split_and!; [done|apply shrunk_refl|done]. }
  destruct (revoke_shrunk (a_edge a) g G) as (G1 & S1 & D1).
  set (g1 := snd (yamgraph_edge_revoke (a_edge a) g)) in *. clearbody g1.
  destruct (IH g1 G1) as (G2 & S2 & D2). split_and!; [done|by eapply shrunk_trans|].
  intros b [<-|Hb]; [|auto]. destruct (e_alive (edges (revoke_list adj g1) (a_edge a))) eqn:E; [|done].
  apply (sh_alive _ _ S2) in E. congruence.
Qed.

(** ** Destroying *)

(** A destroyed node is dead and every edge out of it is revoked; nothing else
    comes to life. *)
Record destroyed (g g' : graph) (id : Z) : Prop := {
  ds_dead : n_alive (nodes g' id) = false;
  ds_other : forall i, i <> id -> n_alive (nodes g' i) = n_alive (nodes g i);
  ds_out : forall i, edges_out (nodes g' i) = edges_out (nodes g i);
  ds_next_node : next_node_id g' = next_node_id g;
  ds_edges : forall e, e_source (edges g' e) = e_source (edges g e) /\
    e_target (edges g' e) = e_target (edges g e) /\ e_perms (edges g' e) = e_perms (edges g e);
  ds_alive : forall e, e_alive (edges g' e) = true -> e_alive (edges g e) = true /\ e_source (edges g e) <> id
}.

Lemma destroy_spec id g b g' :
  graph_ok g -> yamgraph_node_destroy id g = (b, g') ->
  graph_ok g' /\
  ((b = false /\ g' = g /\ (id = 0 \/ n_alive (nodes g id) = false)) \/
   (b = true /\ id <> 0 /\ n_alive (nodes g id) = true /\ destroyed g g' id)).
Proof.
  intros G. unfold yamgraph_node_destroy. rewrite node_get_live by done.
  destruct (n_alive (nodes g id)) eqn:Hl; [|intros [= <- <-]; split; [done|left; auto]].
  destruct (Z.eqb_spec id 0) as [->|Hne]; [intros [= <- <-]; auto 6|].
  destruct (revoke_list_shrunk (edges_out (nodes g id)) g G) as (G1 & S1 & D1).
  set (g1 := revoke_list (edges_out (nodes g id)) g) in *. clearbody g1. cbv zeta.
  intros [= <- <-]. pose proof (live_is_node g id G Hl) as Hn.
  assert (forall e, e_alive (edges g1 e) = true -> e_source (edges g1 e) <> id) as Hsrc.
  { intros e He Es. pose proof (live_is_edge g1 e G1 He) as Hie.
    assert (e_alive (edges g1 e) = false); [|congruence].
    apply (D1 {| a_edge := e; a_target := e_target (edges g1 e) |}).
    destruct (sh_nodes _ _ S1 id) as [_ <-]. apply (go_out g1 G1).
    - unfold is_node in *. by rewrite (sh_next_node _ _ S1).
    - cbn. auto. }
  assert (n_alive (nodes g1 id) = true) as Hl1 by (destruct (sh_nodes _ _ S1 id) as [-> _]; done).
  pose proof (live_is_node g1 id G1 Hl1) as Hn1. pose proof (go_nodes g1 G1).
  split; [|right; split_and!; auto].
  - destruct G1. split; cbn.
    + exact go_nodes0.
    + exact go_edges0.
    + exact go_pool0.
    + intros i Hi. destruct (decide (i = id)) as [->|]; [by rewrite upd_eq|]. rewrite upd_ne by done. auto.
    + exact go_fresh_edge0.
    + by rewrite upd_ne by lia.
    + intros i Hi. destruct (decide (i = id)) as [->|]; [rewrite upd_eq|rewrite upd_ne by done]; by apply go_node_id0.
    + exact go_ends0.
    + intros n a Hna. destruct (decide (n = id)) as [->|]; [rewrite upd_eq|rewrite upd_ne by done]; by apply go_out0.
    + intros n a Hna. destruct (decide (n = id)) as [->|]; [rewrite upd_eq|rewrite upd_ne by done]; by apply go_in0.
    + intros e He Ha. rewrite upd_ne by auto. auto.
    + rewrite (live_nodes_change g1 _ id) by first [g_lia | intros; cbn; by rewrite upd_ne].
      cbn. rewrite upd_eq, Hl1. cbn [one_if n_alive]. pose proof (live_nodes_range g1).
      pose proof (live_nodes_pos g1 id ltac:(g_lia) Hl1).
      rewrite go_live_nodes0, wrap_small by g_lia. lia.
    + rewrite go_live_edges0. symmetry. by apply live_edges_ext.
    + intros n Hna. destruct (decide (n = id)) as [->|]; [by rewrite upd_eq in Hna|].
      rewrite upd_ne in Hna |- * by done. rewrite (live_into_ext g1) by done. auto.
  - destruct S1 as [_ S2 S3 S4 S5]. split; cbn; auto.
    + by rewrite upd_eq.
    + intros i Hi. rewrite upd_ne by done. apply S5.
    + intros i. destruct (decide (i = id)) as [->|]; [rewrite upd_eq|rewrite upd_ne by done]; apply S5.
    + intros e He. split; [auto|]. destruct (S3 e) as (<- & _). auto.
Qed.

(** ** Histories *)

Inductive gop :=
| Create (ty : yam_node_type_t) (name : option (list Z)) (data : Z)
| Link (src dst : Z) (ty : yam_edge_type_t) (perms : Z)
| Revoke (id : Z)
| Destroy (id : Z).

Definition grun (g : graph) (o : gop) : graph :=
  match o with
  | Create ty name data => snd (yamgraph_node_create ty name data g)
  | Link src dst ty perms => snd (yamgraph_edge_link src dst ty perms g)
  | Revoke id => snd (yamgraph_edge_revoke id g)
  | Destroy id => snd (yamgraph_node_destroy id g)
  end.
Definition grun_all (ops : list gop) (g : graph) : graph := fold_left grun ops g.

Inductive greach : graph -> Prop :=
| greach_init g : greach (yamgraph_init g)
| greach_step g o : greach g -> greach (grun g o).

Lemma grun_ok g o : graph_ok g -> graph_ok (grun g o).
Proof.
  intros G. destruct o; cbn [grun].
  - by apply create_ok.
  - by apply link_ok.
  - by apply revoke_shrunk.
  - destruct (yamgraph_node_destroy id g) as [b g'] eqn:E. by apply (destroy_spec id g b g').
Qed.

Lemma greach_ok g : greach g -> graph_ok g.
Proof. induction 1; [apply graph_init_ok|by apply grun_ok]. Qed.

Lemma greach_all ops g : greach g -> greach (grun_all ops g).
Proof. revert g. induction ops as [|o ops IH]; intros g R; [done|]. apply IH. by constructor. Qed.

(** ** Permissions *)

(** A live edge from [src] to [dst] that carries [perm]. *)
Definition authorised (g : graph) (src dst perm : Z) : Prop :=
  exists e, e_alive (edges g e) = true /\ e_source (edges g e) = src /\ e_target (edges g e) = dst /\
            grants (e_perms (edges g e)) perm = true.

Lemma permission_spec src dst perm g : graph_ok g ->
  yamgraph_has_permission src dst perm g = true <-> src = 0 \/ authorised g src dst perm.
Proof.
  intros G. unfold yamgraph_has_permission. rewrite node_get_live by done.
  destruct (n_alive (nodes g src)) eqn:Hl.
  - rewrite orb_comm, orb_true_iff, Z.eqb_eq, existsb_exists. apply or_iff_compat_l.
    pose proof (live_is_node g src G Hl) as Hn. split.
    + intros (a & Ha & Hm). apply (go_out g G src a Hn) in Ha as (He & Hs & Ht).
      rewrite edge_get_live in Hm by done. destruct (e_alive (edges g (a_edge a))) eqn:Ea; [|done].
      apply andb_true_iff in Hm as [Hd%Z.eqb_eq Hg]. by exists (a_edge a).
    + intros (e & Ea & Hs & Ht & Hg). exists {| a_edge := e; a_target := dst |}. split.
      * apply (go_out g G src _ Hn). cbn. split_and!; auto. by apply live_is_edge.
      * cbn [a_edge]. by rewrite edge_get_live, Ea, Ht, Z.eqb_refl, Hg.
  - split; [done|]. intros [->|(e & Ea & <- & _)].
    + rewrite (go_root g G) in Hl. done.
    + rewrite (go_source g G e (live_is_edge g e G Ea) Ea) in Hl. done.
Qed.

Lemma create_edges ty name data g : edges (snd (yamgraph_node_create ty name data g)) = edges g.
Proof. unfold yamgraph_node_create. by case_bool. Qed.

(** Where a permission after a step comes from. *)
Lemma authorised_step g o src dst perm : graph_ok g -> authorised (grun g o) src dst perm ->
  authorised g src dst perm \/ exists ty perms, o = Link src dst ty perms /\ grants perms perm = true.
Proof.
  intros G (e & Ea & Es & Et & Hg). destruct o as [ty name data|src' dst' ty perms|id|id]; cbn [grun] in *.
  - left. exists e. by rewrite create_edges in *.
  - destruct (yamgraph_edge_link src' dst' ty perms g) as [id g'] eqn:E. cbn [snd] in *.
    destruct (link_shape _ _ _ _ _ _ _ G E) as [(_ & -> & _)|(_ & _ & _ & _ & L)]; [left; by exists e|].
    rewrite (lk_edges _ _ _ _ _ _ L) in *. destruct (decide (e = next_edge_id g)) as [->|].
    + rewrite upd_eq in *. cbn in *. subst. right. eauto.
    + rewrite upd_ne in * by done. left. by exists e.
  - left. destruct (revoke_shrunk id g G) as (_ & S & _). destruct (sh_edges _ _ S e) as (Hs & Ht & Hp).
    exists e. rewrite <- Hs, <- Ht, <- Hp. split_and!; auto. by apply (sh_alive _ _ S).
  - left. destruct (yamgraph_node_destroy id g) as [b g'] eqn:E. cbn [snd] in *.
    destruct (destroy_spec _ _ _ _ G E) as [_ [(_ & -> & _)|(_ & _ & _ & D)]]; [by exists e|].
    destruct (ds_edges _ _ _ D e) as (Hs & Ht & Hp). exists e. rewrite <- Hs, <- Ht, <- Hp. split_and!; auto.
    by apply (ds_alive _ _ _ D).
Qed.

(** ** Nothing dead comes back *)

Lemma edge_stays_dead g o e : graph_ok g -> 1 <= e < next_edge_id g -> e_alive (edges g e) = false ->
  e < next_edge_id (grun g o) /\ e_alive (edges (grun g o) e) = false.
Proof.
  intros G He Hd. destruct o as [ty name data|src dst ty perms|id|id]; cbn [grun].
  - unfold yamgraph_node_create. case_bool; cbn; (cbn [snd]; split; [lia|assumption]).
  - destruct (yamgraph_edge_link src dst ty perms g) as [id g'] eqn:E. cbn [snd].
    destruct (link_shape _ _ _ _ _ _ _ G E) as [(_ & -> & _)|(_ & _ & _ & _ & L)]; [(cbn [snd]; split; [lia|assumption])|].
    rewrite (lk_edges _ _ _ _ _ _ L), (lk_next_edge _ _ _ _ _ _ L), upd_ne by lia. (cbn [snd]; split; [lia|assumption]).
  - destruct (revoke_shrunk id g G) as (_ & S & _). rewrite (sh_next_edge _ _ S). split; [lia|].
    destruct (e_alive (edges (snd (yamgraph_edge_revoke id g)) e)) eqn:E; [|done].
    apply (sh_alive _ _ S) in E. congruence.
  - unfold yamgraph_node_destroy. rewrite node_get_live by done.
    destruct (n_alive (nodes g id)); [|(cbn [snd]; split; [lia|assumption])]. destruct (id =? 0); [cbn; (cbn [snd]; split; [lia|assumption])|].
    destruct (revoke_list_shrunk (edges_out (nodes g id)) g G) as (_ & S & _). cbn.
    rewrite (sh_next_edge _ _ S). split; [lia|].
    destruct (e_alive (edges (revoke_list (edges_out (nodes g id)) g) e)) eqn:E; [|done].
    apply (sh_alive _ _ S) in E. congruence.
Qed.

Lemma node_stays_dead g o i : graph_ok g -> 0 <= i < next_node_id g -> n_alive (nodes g i) = false ->
  i < next_node_id (grun g o) /\ n_alive (nodes (grun g o) i) = false.
Proof.
  intros G Hi Hd. destruct o as [ty name data|src dst ty perms|id|id]; cbn [grun].
  - unfold yamgraph_node_create. pose proof (go_nodes g G). case_bool; [(cbn [snd]; split; [lia|assumption])|].
    cbn. rewrite upd_ne, wrap_small by g_lia. (cbn [snd]; split; [lia|assumption]).
  - destruct (yamgraph_edge_link src dst ty perms g) as [id g'] eqn:E. cbn [snd].
    destruct (link_shape _ _ _ _ _ _ _ G E) as [(_ & -> & _)|(_ & _ & _ & _ & L)]; [(cbn [snd]; split; [lia|assumption])|].
    rewrite (lk_alive _ _ _ _ _ _ L), (lk_next_node _ _ _ _ _ _ L). (cbn [snd]; split; [lia|assumption]).
  - destruct (revoke_shrunk id g G) as (_ & S & _). rewrite (sh_next_node _ _ S).
    destruct (sh_nodes _ _ S i) as [-> _]. (cbn [snd]; split; [lia|assumption]).
  - destruct (yamgraph_node_destroy id g) as [b g'] eqn:E. cbn [snd].
    destruct (destroy_spec _ _ _ _ G E) as [_ [(_ & -> & _)|(_ & _ & _ & D)]]; [(cbn [snd]; split; [lia|assumption])|].
    rewrite (ds_next_node _ _ _ D). split; [lia|]. destruct (decide (i = id)) as [->|]; [apply D|].
    by rewrite (ds_other _ _ _ D).
Qed.

Lemma edge_dead_forever ops g e : graph_ok g -> 1 <= e < next_edge_id g -> e_alive (edges g e) = false ->
  e_alive (edges (grun_all ops g) e) = false.
Proof.
  revert g. induction ops as [|o ops IH]; intros g G He Hd; [done|].
  destruct (edge_stays_dead g o e G He Hd). apply IH; auto using grun_ok. lia.
Qed.

Lemma node_dead_forever ops g i : graph_ok g -> 0 <= i < next_node_id g -> n_alive (nodes g i) = false ->
  n_alive (nodes (grun_all ops g) i) = false.
Proof.
  revert g. induction ops as [|o ops IH]; intros g G Hi Hd; [done|].
  destruct (node_stays_dead g o i G Hi Hd). apply IH; auto using grun_ok. lia.
Qed.

(** ** Properties *)

(** C5: In every graph the kernel can build, the adjacency lists list exactly
    the edges of each node, live edges start at live nodes, the node and edge
    counters count the live ones, and a live node's reference count is one
    more than the number of live edges into it. *)
Theorem graph_invariant g : greach g -> graph_ok g.
Proof. apply greach_ok. Qed.

(** C6: The permission check is exact: node 0 has every permission, and any
    other node has permission [perm] on [dst] exactly when a live edge from it
    to [dst] carries every bit of [perm]. *)
Theorem permission_iff g src dst perm : greach g ->
  yamgraph_has_permission src dst perm g = true <-> src = 0 \/ authorised g src dst perm.
Proof. intros R. by apply permission_spec, greach_ok. Qed.

(** Permissions come from edge creation only.  If a check succeeds after an
    operation, it succeeded before it, or the operation linked exactly those
    two nodes with permissions that include the ones checked. *)
Theorem permission_origin g o src dst perm : greach g ->
  yamgraph_has_permission src dst perm (grun g o) = true ->
  yamgraph_has_permission src dst perm g = true \/
  exists ty perms, o = Link src dst ty perms /\ grants perms perm = true.
Proof.
  intros R%greach_ok. rewrite !permission_spec by auto using grun_ok.
  intros [H|H]; [auto|]. destruct (authorised_step g o src dst perm R H); auto.
Qed.

(** C7: A destroyed node has no permissions left, and never gets any again. *)
Theorem destroyed_powerless g id g' ops dst perm : greach g ->
  yamgraph_node_destroy id g = (true, g') ->
  yamgraph_has_permission id dst perm (grun_all ops g') = false.
Proof.
  intros R%greach_ok E. destruct (destroy_spec _ _ _ _ R E) as [G [(? & _)|(_ & Hne & Hl & D)]]; [done|].
  assert (graph_ok (grun_all ops g')) as G'.
  { clear -G. revert g' G. induction ops as [|o ops IH]; intros g' G; [done|]. apply IH. by apply grun_ok. }
  destruct (yamgraph_has_permission id dst perm (grun_all ops g')) eqn:Hp; [|done].
  apply (permission_spec _ _ _ _ G') in Hp as [?|(e & Ea & Es & _)]; [done|].
  pose proof (go_source _ G' e (live_is_edge _ e G' Ea) Ea) as Hs. rewrite Es in Hs.
  rewrite node_dead_forever in Hs; [done|done| |apply D].
  apply (live_is_node g id R) in Hl. rewrite (ds_next_node _ _ _ D). apply Hl.
Qed.

(** ** A graph on which the properties apply *)

Definition demo_ops : list gop :=
  [Create YAM_NODE_TASK None 0; Create YAM_NODE_DEVICE None 0; Link 1 2 YAM_EDGE_CAPABILITY 3].
Definition demo_graph : graph := grun_all demo_ops (yamgraph_init graph_bss).

Lemma demo_graph_reach : greach demo_graph.
Proof. apply greach_all, greach_init. Qed.

Lemma graph_invariant_witness : graph_ok demo_graph.
Proof. apply graph_invariant, demo_graph_reach. Defined.

Lemma permission_iff_witness :
  yamgraph_has_permission 1 2 YAM_PERM_WRITE demo_graph = true /\ authorised demo_graph 1 2 YAM_PERM_WRITE.
Proof.
  assert (yamgraph_has_permission 1 2 YAM_PERM_WRITE demo_graph = true) as H by (vm_compute; reflexivity).
  split; [exact H|]. apply (permission_iff demo_graph 1 2 YAM_PERM_WRITE demo_graph_reach) in H as [H|H]; [lia|exact H].
Defined.

Lemma permission_origin_witness :
  exists ty perms, Link 2 1 YAM_EDGE_OWNS YAM_PERM_ALL = Link 2 1 ty perms /\ grants perms YAM_PERM_READ = true.
Proof.
  destruct (permission_origin demo_graph (Link 2 1 YAM_EDGE_OWNS YAM_PERM_ALL) 2 1 YAM_PERM_READ demo_graph_reach)
    as [H|H].
  - vm_compute. reflexivity.
  - vm_compute in H. discriminate.
  - exact H.
Defined.

Lemma destroyed_powerless_witness :
  yamgraph_has_permission 1 2 YAM_PERM_READ
    (grun_all [Create YAM_NODE_TASK None 0] (snd (yamgraph_node_destroy 1 demo_graph))) = false.
Proof.
  apply (destroyed_powerless demo_graph 1 _ _ _ _ demo_graph_reach). vm_compute. reflexivity.
Defined.

(** ** Self test and boundary case *)

(** All six tests of yamgraph_self_test pass on a fresh graph. *)
Example self_test_passes :
  fst (yamgraph_self_test (yamgraph_init graph_bss)) = [true; true; true; true; true; true].
Proof. vm_compute. reflexivity. Qed.

(** Destroying a node leaves the edges into it alive: a permission on a
    destroyed node is still granted, and the edge still counted. *)
Example permission_on_dead_node :
  let '(ok, g) := yamgraph_node_destroy 2 demo_graph in
  ok = true /\ yamgraph_node_get g 2 = None /\
  yamgraph_has_permission 1 2 YAM_PERM_WRITE g = true /\ yamgraph_edge_count g = 1.
Proof. vm_compute. auto. Qed.

End GraphProps.
