(* ===== verification/Capability.v ===== *)
(** * Capabilities (src/src/nexus/capability.c, capability.h)

    A capability is a token that names an edge of the graph.  Module
    [Capability] holds the five operations and the theorems: a fresh token is
    valid, delegation never adds permissions, and a revoked token is refused
    for ever. *)

From S2P Require Import Prelude Graph GraphProps.

Module Capability.
Import Graph GraphProps.

Record yam_capability_t := {
  c_edge : Z;
  c_holder : Z;
  c_target : Z;
  c_perms : Z;
  c_generation : Z
}.
#[export] Instance eta_cap : Eta yam_capability_t :=
  fun r => Build_yam_capability_t (c_edge r) (c_holder r) (c_target r) (c_perms r) (c_generation r).

(** The value returned on failure: zeroed except for the edge. *)
Definition no_cap : yam_capability_t :=
  {| c_edge := NO_ID; c_holder := 0; c_target := 0; c_perms := 0; c_generation := 0 |}.

Definition cap_create (holder target perms : Z) (g : graph) : yam_capability_t * graph :=
  let '(edge, g) := yamgraph_edge_link holder target YAM_EDGE_CAPABILITY perms g in
  if edge =? NO_ID then (no_cap, g)
  else
    ({| c_edge := edge; c_holder := holder; c_target := target; c_perms := perms;
        c_generation := match yamgraph_edge_get g edge with
                        | Some e => e_generation e
                        | None => 0
                        end |}, g).

Definition cap_delegate (cap : yam_capability_t) (new_holder mask : Z) (g : graph)
    : yam_capability_t * graph :=
  if negb (has (c_perms cap) YAM_PERM_DELEGATE) then (no_cap, g)
  else cap_create new_holder (c_target cap) (Z.land (c_perms cap) mask) g.

Definition cap_is_valid (cap : yam_capability_t) (g : graph) : bool :=
  if c_edge cap =? NO_ID then false
  else match yamgraph_edge_get g (c_edge cap) with
       | None => false
       | Some e => e_generation e =? c_generation cap
       end.

Definition cap_revoke (cap : yam_capability_t) (g : graph) : bool * graph :=
  if negb (cap_is_valid cap g) then (false, g)
  else yamgraph_edge_revoke (c_edge cap) g.

Definition cap_check (cap : yam_capability_t) (perm : Z) (g : graph) : bool :=
  cap_is_valid cap g && grants (c_perms cap) perm.

(** ** Lemmas *)

Lemma no_id_not_edge g : graph_ok g -> next_edge_id g <> NO_ID.
Proof. intros G. pose proof (go_edges g G). unfold NO_ID. g_lia. Qed.

Lemma create_cases holder target perms g cap g' :
  graph_ok g -> cap_create holder target perms g = (cap, g') ->
  graph_ok g' /\
  ((cap = no_cap /\ g' = g) \/
   (cap = {| c_edge := next_edge_id g; c_holder := holder; c_target := target; c_perms := perms;
             c_generation := generation g |} /\
    linked g g' holder target YAM_EDGE_CAPABILITY perms)).
Proof.
  intros G. unfold cap_create.
  destruct (yamgraph_edge_link holder target YAM_EDGE_CAPABILITY perms g) as [edge g1] eqn:E.
  pose proof (link_ok holder target YAM_EDGE_CAPABILITY perms g G) as G1. rewrite E in G1. cbn [snd] in G1.
  destruct (link_shape _ _ _ _ _ _ _ G E) as [(-> & -> & _)|(-> & _ & _ & _ & L)].
  - rewrite Z.eqb_refl. intros [= <- <-]. auto.
  - rewrite (proj2 (Z.eqb_neq _ _) (no_id_not_edge g G)). intros [= <- <-]. split; [done|right].
    rewrite edge_get_live by done. rewrite (lk_edges _ _ _ _ _ _ L), upd_eq. auto.
Qed.

Lemma linked_valid g g' holder target perms :
  graph_ok g -> graph_ok g' -> linked g g' holder target YAM_EDGE_CAPABILITY perms ->
  cap_is_valid {| c_edge := next_edge_id g; c_holder := holder; c_target := target;
                  c_perms := perms; c_generation := generation g |} g' = true.
Proof.
  intros G G' L. unfold cap_is_valid. cbn [c_edge].
  rewrite (proj2 (Z.eqb_neq _ _) (no_id_not_edge g G)), edge_get_live by done.
  rewrite (lk_edges _ _ _ _ _ _ L), upd_eq. cbn. apply Z.eqb_refl.
Qed.

Lemma grants_mono p mask perm : grants (Z.land p mask) perm = true -> grants p perm = true /\ grants mask perm = true.
Proof.
  unfold grants. rewrite !Z.eqb_eq. intros H. split; apply Z.bits_inj'; intros i Hi; rewrite Z.land_spec;
    apply (f_equal (fun x => Z.testbit x i)) in H; rewrite !Z.land_spec in H;
    destruct (Z.testbit p i), (Z.testbit mask i), (Z.testbit perm i); done.
Qed.

(** ** Properties *)

(** A capability that was created or delegated successfully is valid, grants
    exactly the permissions it was created with, and gives its holder those
    permissions on the target in the graph. *)
Theorem cap_create_grants holder target perms g cap g' perm : greach g ->
  cap_create holder target perms g = (cap, g') -> c_edge cap <> NO_ID ->
  cap_check cap perm g' = grants perms perm /\
  (grants perms perm = true -> yamgraph_has_permission holder target perm g' = true).
Proof.
  intros R%greach_ok E Hc. destruct (create_cases _ _ _ _ _ _ R E) as [G' [(-> & _)|(-> & L)]]; [done|].
  unfold cap_check. rewrite (linked_valid g g' holder target perms R G' L). split; [done|]. intros Hp.
  apply permission_spec; [done|]. right. exists (next_edge_id g).
  by rewrite (lk_edges _ _ _ _ _ _ L), upd_eq.
Qed.

(** C9: Delegation attenuates.  A delegated capability is refused unless the
    original carries DELEGATE, and every permission it grants is granted both
    by the original and by the mask. *)
Theorem delegate_attenuates cap new_holder mask g cap' g' perm : greach g ->
  cap_delegate cap new_holder mask g = (cap', g') -> c_edge cap' <> NO_ID ->
  grants (c_perms cap) YAM_PERM_DELEGATE = true /\ c_target cap' = c_target cap /\
  (cap_check cap' perm g' = true -> grants (c_perms cap) perm = true /\ grants mask perm = true).
Proof.
  intros R%greach_ok E Hc. unfold cap_delegate in E.
  destruct (has (c_perms cap) YAM_PERM_DELEGATE) eqn:Hd; cbn [negb] in E; [|by injection E as <- _].
  destruct (create_cases _ _ _ _ _ _ R E) as [G' [(-> & _)|(-> & L)]]; [done|]. split_and!; [|done|].
  - unfold has, grants in *. destruct (Z.eqb_spec (Z.land (c_perms cap) YAM_PERM_DELEGATE) 0) as [|Hn]; [done|].
    apply Z.eqb_eq. unfold YAM_PERM_DELEGATE in *. change 8 with (Z.shiftl (Z.ones 1) 3) in *.
    rewrite land_field in * by lia. pose proof (Z.mod_pos_bound (c_perms cap / 2 ^ 3) (2 ^ 1) ltac:(lia)).
    change (Z.shiftl (Z.ones 1) 3) with 8. change (2 ^ 1) with 2 in *. change (2 ^ 3) with 8 in *. lia.
  - unfold cap_check. intros [_ Hg]%andb_true_iff. by apply grants_mono.
Qed.

(** C8: Revocation is final.  Once a capability has been revoked, every token
    that names its edge is refused, whatever happens to the graph later. *)
Theorem revoked_forever cap g g' ops cap' perm : greach g ->
  cap_revoke cap g = (true, g') -> c_edge cap' = c_edge cap ->
  cap_check cap' perm (grun_all ops g') = false.
Proof.
  intros R E He. apply greach_ok in R as G. unfold cap_revoke in E.
  destruct (cap_is_valid cap g) eqn:Hv; cbn [negb] in E; [|done].
  assert (is_edge g (c_edge cap)) as Hin.
  { unfold cap_is_valid in Hv. destruct (c_edge cap =? NO_ID); [done|]. rewrite edge_get_live in Hv by done.
    destruct (e_alive (edges g (c_edge cap))) eqn:Ea; [|done]. by apply live_is_edge. }
  destruct (revoke_shrunk (c_edge cap) g G) as (G1 & S & D). rewrite E in G1, S, D. cbn [snd] in *.
  assert (graph_ok (grun_all ops g')) as G2.
  { clear -G1. revert g' G1. induction ops as [|o ops IH]; intros g' G; [done|]. apply IH. by apply grun_ok. }
  unfold cap_check, cap_is_valid. rewrite He. destruct (c_edge cap =? NO_ID); [done|].
  rewrite edge_get_live, edge_dead_forever; auto.
  unfold is_edge in Hin. by rewrite (sh_next_edge _ _ S).
Qed.

(** ** Witnesses and boundary cases *)

Definition demo_cap : yam_capability_t * graph := cap_create 1 2 0x0F demo_graph.
Definition demo_copy : yam_capability_t * graph := cap_delegate (fst demo_cap) 0 0x03 (snd demo_cap).

Lemma demo_cap_reach : greach (snd demo_cap).
Proof.
  unfold demo_cap, cap_create.
  pose proof (greach_step demo_graph (Link 1 2 YAM_EDGE_CAPABILITY 0x0F) demo_graph_reach) as H. cbn [grun] in H.
  destruct (yamgraph_edge_link 1 2 YAM_EDGE_CAPABILITY 0x0F demo_graph) as [e g]. by case_bool.
Qed.

Lemma cap_create_grants_witness : cap_check (fst demo_cap) YAM_PERM_EXEC (snd demo_cap) = true.
Proof.
  destruct (cap_create_grants 1 2 0x0F demo_graph (fst demo_cap) (snd demo_cap) YAM_PERM_EXEC demo_graph_reach) as [-> _].
  - unfold demo_cap. by destruct (cap_create 1 2 0x0F demo_graph).
  - vm_compute. discriminate.
  - reflexivity.
Defined.

Lemma delegate_attenuates_witness :
  grants (c_perms (fst demo_cap)) YAM_PERM_DELEGATE = true /\ c_target (fst demo_copy) = c_target (fst demo_cap).
Proof.
  destruct (delegate_attenuates (fst demo_cap) 0 0x03 (snd demo_cap) (fst demo_copy) (snd demo_copy) YAM_PERM_READ
              demo_cap_reach) as (H1 & H2 & _).
  - unfold demo_copy. by destruct (cap_delegate (fst demo_cap) 0 0x03 (snd demo_cap)).
  - vm_compute. discriminate.
  - split; [exact H1|exact H2].
Defined.

Lemma revoked_forever_witness :
  cap_check (fst demo_cap) YAM_PERM_READ
    (grun_all [Link 1 2 YAM_EDGE_CAPABILITY 0x0F] (snd (cap_revoke (fst demo_cap) (snd demo_cap)))) = false.
Proof.
  apply (revoked_forever (fst demo_cap) (snd demo_cap) _ _ _ _ demo_cap_reach).
  - vm_compute. reflexivity.
  - reflexivity.
Defined.

(** The header promises that revoking a capability revokes the copies delegated
    from it; the code revokes the one edge, and the copy stays valid. *)
Example delegated_copy_survives_revoke :
  let g := snd (cap_revoke (fst demo_cap) (snd demo_copy)) in
  cap_is_valid (fst demo_cap) g = false /\ cap_check (fst demo_copy) YAM_PERM_WRITE g = true.
Proof. vm_compute. auto. Qed.

(** Delegation does not look at the validity of the original: a revoked
    capability can still be delegated. *)
Example revoked_cap_delegates :
  let g := snd (cap_revoke (fst demo_cap) (snd demo_cap)) in
  let '(copy, g) := cap_delegate (fst demo_cap) 1 YAM_PERM_ALL g in
  cap_check copy YAM_PERM_WRITE g = true.
Proof. vm_compute. reflexivity. Qed.

(** The check reads the permissions of the token, not of the edge: a token
    altered to carry more permissions than its edge passes the check. *)
Example token_permissions_trusted :
  cap_check ((fst demo_copy) <| c_perms := YAM_PERM_ALL |>) YAM_PERM_EXEC (snd demo_copy) = true /\
  e_perms (edges (snd demo_copy) (c_edge (fst demo_copy))) = 3.
Proof. vm_compute. auto. Qed.

End Capability.
