(* ===== verification/Channel.v ===== *)
(** * IPC channels (src/src/nexus/channel.c, channel.h)

    A channel is a node of the graph with two message rings, one for each
    direction.  The channel code sees the graph through four calls; [PermGraph]
    states what it relies on, and YamGraph provides it.  The theorems: each
    direction of a channel is a bounded FIFO queue, a fresh channel works for
    both endpoints, and nobody else can send or receive. *)

From S2P Require Import Prelude Ring Graph GraphProps.

(** ** What channels need of the graph *)

Class PermGraph (G : Type) := {
  pg_ok : G -> Prop;
  pg_live : G -> Z -> Prop;
  pg_room : G -> nat -> Prop;
  pg_node_create : option (list Z) -> G -> Z * G;
  pg_edge_link : Z -> Z -> Z -> G -> Z * G;
  pg_node_destroy : Z -> G -> G;
  pg_has_permission : Z -> Z -> Z -> G -> bool
}.

(** [pg_room g k]: [k] more edges fit. *)
Class PermGraphLaws (G : Type) `{PermGraph G} := {
  pg_create_law name g n g' : pg_ok g -> pg_node_create name g = (n, g') ->
    pg_ok g' /\ (forall i, pg_live g i -> pg_live g' i) /\ (forall k, pg_room g k -> pg_room g' k) /\
    (n <> Graph.NO_ID -> pg_live g' n);
  pg_link_law src dst perms g e g' : pg_ok g -> pg_edge_link src dst perms g = (e, g') ->
    pg_ok g' /\ (forall i, pg_live g i -> pg_live g' i) /\
    (forall s d p, pg_has_permission s d p g = true -> pg_has_permission s d p g' = true) /\
    (forall k, pg_room g (S k) -> pg_room g' k) /\
    (forall k, pg_live g src -> pg_live g dst -> pg_room g (S k) ->
     forall p, Graph.grants perms p = true -> pg_has_permission src dst p g' = true)
}.

Module Channel.
Import Graph.

(** ** Data *)

Definition CHANNEL_MSG_MAX_SIZE : Z := 256.
Definition CHANNEL_RING_SIZE : Z := 64.
Definition MAX_CHANNELS : Z := 256.

Record yam_message_t := { sender : Z; msg_type : Z; m_length : Z; m_data : Z -> Z }.

(** One direction of a channel. *)
Record ring_t := { ring : Z -> yam_message_t; head : Z; tail : Z; count : Z }.
#[export] Instance eta_ring : Eta ring_t :=
  fun r => Build_ring_t (ring r) (head r) (tail r) (count r).

Record yam_channel_t := {
  node_id : Z;
  endpoint_a : Z;
  endpoint_b : Z;
  a_to_b : ring_t;
  b_to_a : ring_t;
  active : bool
}.
#[export] Instance eta_channel : Eta yam_channel_t :=
  fun r => Build_yam_channel_t (node_id r) (endpoint_a r) (endpoint_b r) (a_to_b r) (b_to_a r) (active r).

Definition zero_message : yam_message_t :=
  {| sender := 0; msg_type := 0; m_length := 0; m_data := fun _ => 0 |}.
Definition zero_ring : ring_t := {| ring := fun _ => zero_message; head := 0; tail := 0; count := 0 |}.

(** The channel pool of channel.c. *)
Record pool := { channels : Z -> yam_channel_t; channel_count : Z }.
#[export] Instance eta_pool : Eta pool := fun r => Build_pool (channels r) (channel_count r).

(** ** Operations *)

(** The store of a message in the slot [tail], data bytes past [length] keep
    what the slot held; [data] is [None] for a NULL pointer. *)
Definition fill_message (old : yam_message_t) (snd ty len : Z) (data : option (Z -> Z)) : yam_message_t :=
  {| sender := snd; msg_type := ty; m_length := len;
     m_data := match data with
               | Some src => fun j => if (0 <=? j) && (j <? len) then src j else m_data old j
               | None => m_data old
               end |}.

Definition ring_send (snd ty : Z) (data : option (Z -> Z)) (len : Z) (r : ring_t) : bool * ring_t :=
  if CHANNEL_RING_SIZE <=? count r then (false, r)
  else
    let r := r <| ring := (ring r).[tail r <- fill_message (ring r (tail r)) snd ty len data] |> in
    let r := r <| tail := (tail r + 1) mod CHANNEL_RING_SIZE |> in
    (true, r <| count := u32 (count r + 1) |>).

Definition ring_recv (r : ring_t) : option yam_message_t * ring_t :=
  if count r =? 0 then (None, r)
  else
    let out := ring r (head r) in
    let r := r <| head := (head r + 1) mod CHANNEL_RING_SIZE |> in
    (Some out, r <| count := u32 (count r - 1) |>).

Definition channel_get (id : Z) (p : pool) : option Z :=
  find_index (Z.to_nat (channel_count p)) 0 (fun i =>
    active (channels p i) && (node_id (channels p i) =? id)).

Definition channel_recv (receiver : Z) (c : yam_channel_t) : option yam_message_t * yam_channel_t :=
  if negb (active c) then (None, c)
  else if receiver =? endpoint_b c then
    let '(m, r) := ring_recv (a_to_b c) in (m, c <| a_to_b := r |>)
  else if receiver =? endpoint_a c then
    let '(m, r) := ring_recv (b_to_a c) in (m, c <| b_to_a := r |>)
  else (None, c).

Definition channel_has_message (receiver : Z) (c : yam_channel_t) : bool :=
  if negb (active c) then false
  else if receiver =? endpoint_b c then 0 <? count (a_to_b c)
  else if receiver =? endpoint_a c then 0 <? count (b_to_a c)
  else false.

Section graph_calls.
Context {G : Type} `{PermGraph G}.

Definition channel_create (name : option (list Z)) (a b : Z) (p : pool) (g : G)
    : option Z * pool * G :=
  if MAX_CHANNELS <=? channel_count p then (None, p, g)
  else
    let i := channel_count p in
    let p := p <| channel_count := u32 (i + 1) |> in
    let '(id, g) := pg_node_create name g in
    let c := {| node_id := id; endpoint_a := a; endpoint_b := b; a_to_b := zero_ring;
                b_to_a := zero_ring; active := true |} in
    let p := p <| channels := (channels p).[i <- c] |> in
    let '(_, g) := pg_edge_link a id (Z.lor YAM_PERM_READ YAM_PERM_WRITE) g in
    let '(_, g) := pg_edge_link b id (Z.lor YAM_PERM_READ YAM_PERM_WRITE) g in
    (Some i, p, g).

Definition channel_send (snd ty : Z) (data : option (Z -> Z)) (len : Z) (c : yam_channel_t) (g : G)
    : bool * yam_channel_t :=
  if negb (active c) then (false, c)
  else if CHANNEL_MSG_MAX_SIZE <? len then (false, c)
  else if negb (snd =? endpoint_a c) && negb (snd =? endpoint_b c) then (false, c)
  else if negb (pg_has_permission snd (node_id c) YAM_PERM_WRITE g) then (false, c)
  else if snd =? endpoint_a c then
    let '(ok, r) := ring_send snd ty data len (a_to_b c) in (ok, c <| a_to_b := r |>)
  else
    let '(ok, r) := ring_send snd ty data len (b_to_a c) in (ok, c <| b_to_a := r |>).

Definition channel_close (c : yam_channel_t) (g : G) : yam_channel_t * G :=
  (c <| active := false |>, pg_node_destroy (node_id c) g).
End graph_calls.

(** ** YamGraph as the channels' graph *)

#[export] Instance yamgraph_perm : PermGraph graph := {
  pg_ok := GraphProps.graph_ok;
  pg_live g i := n_alive (nodes g i) = true;
  pg_room g k := next_edge_id g + Z.of_nat k <= YAMGRAPH_MAX_EDGES;
  pg_node_create name g := yamgraph_node_create YAM_NODE_CHANNEL name 0 g;
  pg_edge_link src dst perms g := yamgraph_edge_link src dst YAM_EDGE_CHANNEL perms g;
  pg_node_destroy id g := snd (yamgraph_node_destroy id g);
  pg_has_permission := yamgraph_has_permission
}.

#[export] Instance yamgraph_perm_laws : PermGraphLaws graph.
Proof.
  split.
  - intros name g n g' G E. cbn in G, E |- *.
    pose proof (GraphProps.create_ok YAM_NODE_CHANNEL name 0 g G) as G'. rewrite E in G'.
    unfold yamgraph_node_create in E. destruct (Z.leb_spec YAMGRAPH_MAX_NODES (next_node_id g)).
    { injection E as <- <-. split_and!; auto. }
    injection E as <- <-. split_and!; auto; cbn.
    + intros i Hi. pose proof (GraphProps.live_is_node g i G Hi) as [_ Hlt]. by rewrite upd_ne by lia.
    + intros _. by rewrite upd_eq.
  - intros src dst perms g e g' G E. cbn in G, E |- *.
    pose proof (GraphProps.link_ok src dst YAM_EDGE_CHANNEL perms g G) as G'. rewrite E in G'. cbn in G'.
    destruct (GraphProps.link_shape _ _ _ _ _ _ _ G E) as [(_ & -> & Hno)|(_ & Hroom & Hs & Hd & L)].
    { split_and!; auto; [intros; lia|]. intros k Hs Hd Hroom. destruct Hno as [?|[?|?]]; [congruence..|lia]. }
    assert (forall e, GraphProps.is_edge g e -> edges g' e = edges g e) as Hold.
    { intros i [_ Hlt]. by rewrite (GraphProps.lk_edges _ _ _ _ _ _ L), upd_ne by lia. }
    split_and!; [done| | | |].
    + intros i. by rewrite (GraphProps.lk_alive _ _ _ _ _ _ L).
    + intros s d p. rewrite !GraphProps.permission_spec by done.
      intros [?|(i & Ha & Hr)]; [by left|right]. exists i.
      by rewrite (Hold i (GraphProps.live_is_edge g i G Ha)).
    + intros k. rewrite (GraphProps.lk_next_edge _ _ _ _ _ _ L). lia.
    + intros _ _ _ _ p Hp. apply GraphProps.permission_spec; [done|]. right. exists (next_edge_id g).
      by rewrite (GraphProps.lk_edges _ _ _ _ _ _ L), upd_eq.
Qed.

(** ** A direction of a channel is a bounded queue of messages *)

(** The bytes a message announces. *)
Definition payload (m : yam_message_t) : list Z := map (m_data m) (seqZ 0 (m_length m)).
Definition view (m : yam_message_t) : Z * Z * list Z := (sender m, msg_type m, payload m).

Record ring_ok (r : ring_t) : Prop := {
  ro_head : 0 <= head r < CHANNEL_RING_SIZE;
  ro_count : 0 <= count r <= CHANNEL_RING_SIZE;
  ro_tail : tail r = (head r + count r) mod CHANNEL_RING_SIZE
}.

Definition queue (r : ring_t) : list (Z * Z * list Z) :=
  map view (window CHANNEL_RING_SIZE (ring r) (head r) (count r)).

(** A buffer that holds the bytes [l]. *)
Definition buffer (l : list Z) : Z -> Z := fun j => nth (Z.to_nat j) l 0.

Lemma payload_fill old snd ty l :
  payload (fill_message old snd ty (Z.of_nat (length l)) (Some (buffer l))) = l.
Proof.
  unfold payload, fill_message, buffer. cbn. apply (nth_ext _ _ 0 0).
  { rewrite length_map, length_seqZ. lia. }
  intros n Hn. rewrite length_map, length_seqZ in Hn.
  set (f := fun j => _). rewrite (nth_indep _ 0 (f 0)) by (rewrite length_map, length_seqZ; lia).
  rewrite map_nth. assert (nth n (seqZ 0 (Z.of_nat (length l))) 0 = Z.of_nat n) as ->.
  { apply nth_lookup_Some. rewrite lookup_seqZ_lt; [f_equal|]; lia. }
  unfold f. rewrite (proj2 (Z.leb_le _ _)), (proj2 (Z.ltb_lt _ _)) by lia. cbn. by rewrite Nat2Z.id.
Qed.

#[export] Instance channel_fifo : Fifo ring_t (Z * Z * list Z) := {
  fifo_ok := ring_ok;
  fifo_contents := queue;
  fifo_cap := CHANNEL_RING_SIZE;
  fifo_put x r := ring_send (fst (fst x)) (snd (fst x)) (Some (buffer (snd x))) (Z.of_nat (length (snd x))) r;
  fifo_take r := let '(m, r) := ring_recv r in (option_map view m, r)
}.

Lemma queue_length r : ring_ok r -> Z.of_nat (length (queue r)) = count r.
Proof. intros H. unfold queue. rewrite length_map, window_length. pose proof (ro_count r H). lia. Qed.

Lemma ring_send_ok snd ty data len r : ring_ok r -> ring_ok (Datatypes.snd (ring_send snd ty data len r)).
Proof.
  intros [Hh Hc Ht]. unfold ring_send. destruct (Z.leb_spec CHANNEL_RING_SIZE (count r)); [done|].
  split; cbn; auto; rewrite wrap_small by (unfold CHANNEL_RING_SIZE in *; lia); [lia|].
  rewrite Ht, Zplus_mod_idemp_l. f_equal. lia.
Qed.

Lemma ring_recv_ok r : ring_ok r -> ring_ok (snd (ring_recv r)).
Proof.
  intros [Hh Hc Ht]. unfold ring_recv. destruct (Z.eqb_spec (count r) 0); [done|].
  split; cbn; auto; rewrite ?wrap_small by (unfold CHANNEL_RING_SIZE in *; lia).
  - apply Z.mod_pos_bound. done.
  - lia.
  - rewrite Ht, Zplus_mod_idemp_l. f_equal. lia.
Qed.

#[export] Instance channel_fifo_laws : FifoLaws ring_t (Z * Z * list Z).
Proof.
  split; cbn.
  - intros x r. apply ring_send_ok.
  - intros x r Hr. rewrite queue_length by done. unfold ring_send.
    destruct (Z.leb_spec CHANNEL_RING_SIZE (count r)), (Z.ltb_spec (count r) CHANNEL_RING_SIZE); cbn; auto; lia.
  - intros [[s ty] l] r Hr. destruct Hr as [Hh Hc Ht]. unfold ring_send, queue. cbn.
    destruct (Z.leb_spec CHANNEL_RING_SIZE (count r)); cbn; [by rewrite app_nil_r|].
    rewrite wrap_small by (unfold CHANNEL_RING_SIZE in *; lia).
    rewrite Ht, window_push, map_app by lia. cbn. unfold view. by rewrite payload_fill.
  - intros r Hr. apply ring_recv_ok in Hr. by destruct (ring_recv r).
  - intros r Hr. destruct Hr as [Hh Hc Ht]. unfold ring_recv, queue.
    destruct (Z.eqb_spec (count r) 0) as [->|]; [done|]. cbn [fst].
    rewrite window_cons, Z.mod_small by lia. done.
  - intros r Hr. destruct Hr as [Hh Hc Ht]. unfold ring_recv, queue.
    destruct (Z.eqb_spec (count r) 0) as [E|]; cbn [snd head ring count]; [by rewrite E|].
    cbn. rewrite (window_cons _ _ (head r) (count r)), wrap_small by (unfold CHANNEL_RING_SIZE in *; lia). done.
Qed.

(** ** Channels as a whole *)

Definition chan_ok (c : yam_channel_t) : Prop := ring_ok (a_to_b c) /\ ring_ok (b_to_a c).

Inductive chan_op := Send (s ty : Z) (bytes : list Z) | Recv (r : Z).

(** What a run of calls put in and took out: messages accepted from each
    endpoint and delivered to each endpoint. *)
Record chan_log := {
  sent_a : list (Z * Z * list Z);
  sent_b : list (Z * Z * list Z);
  got_a : list (Z * Z * list Z);
  got_b : list (Z * Z * list Z)
}.
#[export] Instance eta_log : Eta chan_log :=
  fun r => Build_chan_log (sent_a r) (sent_b r) (got_a r) (got_b r).

Section runs.
Context {G : Type} `{PermGraph G} (g : G).

Definition chan_step (o : chan_op) (c : yam_channel_t) (l : chan_log) : yam_channel_t * chan_log :=
  match o with
  | Send s ty bytes =>
      let '(ok, c') := channel_send s ty (Some (buffer bytes)) (Z.of_nat (length bytes)) c g in
      (c', if negb ok then l
           else if s =? endpoint_a c then l <| sent_a := sent_a l ++ [(s, ty, bytes)] |>
           else l <| sent_b := sent_b l ++ [(s, ty, bytes)] |>)
  | Recv r =>
      let '(m, c') := channel_recv r c in
      (c', match m with
           | None => l
           | Some m => if r =? endpoint_b c then l <| got_b := got_b l ++ [view m] |>
                       else l <| got_a := got_a l ++ [view m] |>
           end)
  end.

Fixpoint chan_run (ops : list chan_op) (c : yam_channel_t) (l : chan_log) : yam_channel_t * chan_log :=
  match ops with
  | [] => (c, l)
  | o :: ops => let '(c, l) := chan_step o c l in chan_run ops c l
  end.

(** The log agrees with the queues, given what they held at the start. *)
Definition agrees (c : yam_channel_t) (l : chan_log) : Prop :=
  chan_ok c /\ sent_a l = got_b l ++ queue (a_to_b c) /\ sent_b l = got_a l ++ queue (b_to_a c).

Lemma put_queue s ty bytes r : ring_ok r ->
  let '(ok, r') := ring_send s ty (Some (buffer bytes)) (Z.of_nat (length bytes)) r in
  ring_ok r' /\ queue r' = queue r ++ (if ok then [(s, ty, bytes)] else []).
Proof.
  intros Hr. pose proof (fifo_put_ok (s, ty, bytes) r Hr) as H1.
  pose proof (fifo_put_contents (s, ty, bytes) r Hr) as H2. cbn in H1, H2.
  by destruct (ring_send s ty (Some (buffer bytes)) (Z.of_nat (length bytes)) r).
Qed.

Lemma take_queue r : ring_ok r ->
  let '(m, r') := ring_recv r in
  ring_ok r' /\ queue r = match m with Some m => [view m] | None => [] end ++ queue r'.
Proof.
  intros Hr. pose proof (fifo_take_ok r Hr) as H1. pose proof (fifo_take_split r Hr) as H2.
  cbn in H1, H2. destruct (ring_recv r) as [[m|] r']; done.
Qed.

Lemma step_agrees o c l : agrees c l ->
  let '(c', l') := chan_step o c l in agrees c' l' /\ endpoint_a c' = endpoint_a c /\ endpoint_b c' = endpoint_b c.
Proof.
  intros ((Ha & Hb) & Ea & Eb). destruct o as [s ty bytes|r]; cbn [chan_step].
  - unfold channel_send. destruct (active c); cbn [negb]; [|done].
    case_bool; [done|]. case_bool; [done|]. case_bool; [done|].
    destruct (Z.eqb_spec s (endpoint_a c)) as [->|Hne].
    + pose proof (put_queue (endpoint_a c) ty bytes (a_to_b c) Ha) as Hp.
      destruct (ring_send _ _ _ _ (a_to_b c)) as [ok r']. destruct Hp as [Hr' Hq].
      unfold agrees, chan_ok. destruct ok; cbn; rewrite Hq; split_and!; auto; rewrite Ea; by rewrite ?app_nil_r, ?app_assoc.
    + pose proof (put_queue s ty bytes (b_to_a c) Hb) as Hp.
      destruct (ring_send _ _ _ _ (b_to_a c)) as [ok r']. destruct Hp as [Hr' Hq].
      unfold agrees, chan_ok. destruct ok; cbn; rewrite Hq; split_and!; auto; rewrite Eb; by rewrite ?app_nil_r, ?app_assoc.
  - unfold channel_recv. destruct (active c); cbn [negb]; [|done].
    destruct (Z.eqb_spec r (endpoint_b c)) as [->|Hne].
    + pose proof (take_queue (a_to_b c) Ha) as Hp. destruct (ring_recv (a_to_b c)) as [m r'].
      destruct Hp as [Hr' Hq]. rewrite Hq in Ea.
      unfold agrees, chan_ok. destruct m; cbn; split_and!; auto; by rewrite Ea, ?app_assoc.
    + destruct (Z.eqb_spec r (endpoint_a c)) as [->|]; [|done].
      pose proof (take_queue (b_to_a c) Hb) as Hp. destruct (ring_recv (b_to_a c)) as [m r'].
      destruct Hp as [Hr' Hq]. rewrite Hq in Eb.
      unfold agrees, chan_ok. destruct m; cbn; split_and!; auto; by rewrite Eb, ?app_assoc.
Qed.

Lemma run_agrees ops c l : agrees c l -> let '(c', l') := chan_run ops c l in agrees c' l'.
Proof.
  revert c l. induction ops as [|o ops IH]; intros c l Hc; cbn [chan_run]; [done|].
  pose proof (step_agrees o c l Hc) as Hs. destruct (chan_step o c l) as [c1 l1]. apply IH, Hs.
Qed.
End runs.

Definition empty_log : chan_log := {| sent_a := []; sent_b := []; got_a := []; got_b := [] |}.

(** The channel channel_create fills in. *)
Definition new_channel (id a b : Z) : yam_channel_t :=
  {| node_id := id; endpoint_a := a; endpoint_b := b; a_to_b := zero_ring; b_to_a := zero_ring; active := true |}.

Lemma new_agrees id a b : agrees (new_channel id a b) empty_log.
Proof. split; [|done]. split; split; cbn; unfold CHANNEL_RING_SIZE; auto; lia. Qed.

(** ** Properties *)


(** A send succeeds only on an active channel, for one of its two endpoints,
    with write permission on the channel's node, at most 256 bytes and room in
    the ring, and then stores exactly one message; when it fails the channel is
    unchanged. *)
Theorem channel_send_guarded {G : Type} `{PermGraph G} (g : G) s ty data len c :
  let '(ok, c') := channel_send s ty data len c g in
  (ok = true -> active c = true /\ len <= CHANNEL_MSG_MAX_SIZE /\
     pg_has_permission s (node_id c) YAM_PERM_WRITE g = true /\
     ((s = endpoint_a c /\ count (a_to_b c) < CHANNEL_RING_SIZE /\ b_to_a c' = b_to_a c) \/
      (s = endpoint_b c /\ count (b_to_a c) < CHANNEL_RING_SIZE /\ a_to_b c' = a_to_b c))) /\
  (ok = false -> c' = c).
Proof.
  unfold channel_send. destruct (active c); cbn [negb]; [|done].
  destruct (Z.ltb_spec CHANNEL_MSG_MAX_SIZE len); [done|].
  destruct (negb (s =? endpoint_a c) && negb (s =? endpoint_b c)) eqn:Hend; [done|].
  destruct (pg_has_permission s (node_id c) YAM_PERM_WRITE g); cbn [negb]; [|done].
  destruct (Z.eqb_spec s (endpoint_a c)) as [Ea|Ea]; unfold ring_send.
  - destruct (Z.leb_spec CHANNEL_RING_SIZE (count (a_to_b c))).
    + split; [done|]. by destruct c.
    + split; [|done]. intros _. split_and!; auto.
  - destruct (Z.eqb_spec s (endpoint_b c)) as [Eb|]; [|done].
    destruct (Z.leb_spec CHANNEL_RING_SIZE (count (b_to_a c))).
    + split; [done|]. by destruct c.
    + split; [|done]. intros _. split_and!; auto.
Qed.

(** A fresh channel works.  When the graph has room for the node and the two
    edges, both live endpoints of a new channel have the permission to send on
    it and the first message of either is accepted. *)
Theorem fresh_channel_usable {G : Type} `{PermGraphLaws G} name a b p (g : G) i p' g' s ty data len :
  pg_ok g -> pg_live g a -> pg_live g b -> pg_room g 2 ->
  channel_create name a b p g = (Some i, p', g') -> node_id (channels p' i) <> NO_ID ->
  s = a \/ s = b -> len <= CHANNEL_MSG_MAX_SIZE ->
  fst (channel_send s ty data len (channels p' i) g') = true.
Proof.
  intros Hok Ha Hb Hroom. unfold channel_create. case_bool; [done|].
  destruct (pg_node_create name g) as [id g1] eqn:E1.
  destruct (pg_edge_link a id _ g1) as [e1 g2] eqn:E2. destruct (pg_edge_link b id _ g2) as [e2 g3] eqn:E3.
  intros [= <- <- <-]. cbn. rewrite upd_eq. cbn. intros Hid Hs Hlen.
  destruct (pg_create_law _ _ _ _ Hok E1) as (O1 & L1 & R1 & N1).
  destruct (pg_link_law _ _ _ _ _ _ O1 E2) as (O2 & L2 & P2 & R2 & N2).
  destruct (pg_link_law _ _ _ _ _ _ O2 E3) as (O3 & L3 & P3 & R3 & N3).
  assert (pg_has_permission s id YAM_PERM_WRITE g3 = true) as HP.
  { destruct Hs as [->| ->]; [apply P3, (N2 1%nat)|apply (N3 0%nat)]; auto. }
  unfold channel_send. cbn. rewrite (proj2 (Z.ltb_ge _ _) Hlen), HP. cbn.
  destruct Hs as [->| ->]; rewrite ?Z.eqb_refl, ?andb_false_r; cbn; [done|]. by case_bool.
Qed.

(** ** Witness and boundary cases *)

Definition empty_pool : pool := {| channels := fun _ => new_channel 0 0 0; channel_count := 0 |}.
Definition demo_chan : option Z * pool * graph := channel_create None 1 2 empty_pool GraphProps.demo_graph.

Lemma fresh_channel_usable_witness :
  fst (channel_send 2 7 None 0 (channels (snd (fst demo_chan)) 0) (snd demo_chan)) = true.
Proof.
  apply (fresh_channel_usable (G := graph) None 1 2 empty_pool GraphProps.demo_graph 0 (snd (fst demo_chan)) (snd demo_chan)).
  - apply GraphProps.greach_ok, GraphProps.demo_graph_reach.
  - vm_compute. reflexivity.
  - vm_compute. reflexivity.
  - vm_compute. discriminate.
  - unfold demo_chan. apply triple_parts. vm_compute. reflexivity.
  - vm_compute. discriminate.
  - right. reflexivity.
  - vm_compute. discriminate.
Defined.

(** A message sent with a length and no data carries the bytes an earlier
    message left in the slot. *)
Example stale_bytes_delivered :
  let '(c, l) := chan_run (snd demo_chan)
    (Send 1 0 [7; 8; 9] :: repeat (Recv 2) 1 ++ concat (repeat [Send 1 0 []; Recv 2] 63))
    (channels (snd (fst demo_chan)) 0) empty_log in
  let c := snd (channel_send 1 5 None 3 c (snd demo_chan)) in
  option_map view (fst (channel_recv 2 c)) = Some (1, 5, [7; 8; 9]).
Proof. vm_compute. reflexivity. Qed.

(** When the graph has no node left, the caller gets an active channel whose
    node is the invalid id, and on which the endpoints cannot send. *)
Example channel_without_node :
  let g := GraphProps.demo_graph <| next_node_id := YAMGRAPH_MAX_NODES |> in
  let '(c, p, g) := channel_create None 1 2 empty_pool g in
  c = Some 0 /\ active (channels p 0) = true /\ node_id (channels p 0) = NO_ID /\
  fst (channel_send 1 0 None 0 (channels p 0) g) = false.
Proof. vm_compute. auto. Qed.

End Channel.
