(* ===== verification/Sched.v ===== *)
(** * Scheduler (src/src/sched/sched.c, sched.h)

    The CFS-style scheduler as the boot processor runs it (smp.c enables
    scheduling on one processor): sorted run queues, the timer tick with the
    sleep list, yielding, exit, reaping of dead tasks, waitpid, signals.
    Tasks live in a store indexed by their address; 0 is NULL.  The sleep list
    and the list of deferred reaps are linked through [wait_next] in the
    store, as in the source.  Calls into the memory manager, the file system
    and the graph that release a task's resources are recorded in [effects]. *)

From S2P Require Import Prelude.

Module Sched.

(** ** Data *)

Definition MAX_CPUS : Z := 8.
Definition MAX_CHILDREN : Z := 32.
Definition MIN_NICE : Z := -20.
Definition MAX_NICE : Z := 19.
Definition SIGKILL : Z := 9.
Definition SIGSTOP : Z := 17.
Definition SIG_MAX : Z := 32.
Definition AI_HINT_BATCH : Z := 1.
Definition AI_HINT_REALTIME : Z := 2.
Definition SCHED_LATENCY_TICKS : Z := 8.
Definition SCHED_MIN_GRANULARITY_TICKS : Z := 1.
Definition SCHED_MAX_GRANULARITY_TICKS : Z := 6.
Definition TASK_GRAPH_NODE_INVALID : Z := 2 ^ 32 - 1.
Definition RQ_SLOTS : Z := 256.

Inductive task_state_t :=
| TASK_READY | TASK_RUNNING | TASK_BLOCKED | TASK_ZOMBIE | TASK_STOPPED | TASK_DEAD.
#[export] Instance task_state_eq_dec : EqDecision task_state_t.
Proof. solve_decision. Defined.

Record task_t := {
  t_id : Z;
  t_state : task_state_t;
  nice : Z;
  t_cpu : Z;
  cpu_affinity : Z;
  t_ticks : Z;
  vruntime : Z;
  weight : Z;
  wakeup_tick : Z;
  stime : Z;
  vol_switches : Z;
  invol_switches : Z;
  slice_ticks : Z;
  need_resched : bool;
  accounted : bool;
  reap_queued : bool;
  t_parent : Z;
  t_children : Z -> Z;
  child_count : Z;
  exit_code : Z;
  signal_pending : Z;
  ai_hint : Z;
  t_stack : Z;
  fpu_state : Z;
  pml4 : Z;
  vma_head : Z;
  has_fds : bool;
  graph_node : Z;
  thread_group : Z;
  wait_next : Z
}.
#[export] Instance eta_task : Eta task_t :=
  fun r => Build_task_t (t_id r) (t_state r) (nice r) (t_cpu r) (cpu_affinity r) (t_ticks r)
    (vruntime r) (weight r) (wakeup_tick r) (stime r) (vol_switches r) (invol_switches r)
    (slice_ticks r) (need_resched r) (accounted r) (reap_queued r) (t_parent r) (t_children r)
    (child_count r) (exit_code r) (signal_pending r) (ai_hint r) (t_stack r) (fpu_state r)
    (pml4 r) (vma_head r) (has_fds r) (graph_node r) (thread_group r) (wait_next r).

Record runqueue_t := {
  rq_tasks : Z -> Z;
  rq_count : Z;
  min_vruntime : Z;
  load_weight : Z;
  nr_switches : Z;
  last_pick_id : Z
}.
#[export] Instance eta_rq : Eta runqueue_t :=
  fun r => Build_runqueue_t (rq_tasks r) (rq_count r) (min_vruntime r) (load_weight r)
                            (nr_switches r) (last_pick_id r).

(** The calls sched_destroy_task_resources makes, in order. *)
Inductive effect :=
| DestroyVmas (t : Z)
| DestroyPml4 (p : Z)
| CloseFds (t : Z)
| FreeStack (p : Z)
| FreeFpu (p : Z)
| DestroyNode (n : Z)
| FreeTask (t : Z).

(** The static variables of sched.c and the boot processor's percpu data. *)
Record sched := {
  tasks : Z -> task_t;
  per_cpu_rq : Z -> runqueue_t;
  active_tasks : Z -> Z;
  sleep_head : Z;
  deferred_reap_head : Z;
  sched_enabled : bool;
  total_tasks : Z;
  lifetime_tasks_reaped : Z;
  lifetime_orphans_detached : Z;
  lifetime_detached_tasks_reaped : Z;
  pc_current : Z;
  pc_idle : Z;
  pc_ticks : Z;
  pc_idle_ticks : Z;
  effects : list effect
}.
#[export] Instance eta_sched : Eta sched :=
  fun r => Build_sched (tasks r) (per_cpu_rq r) (active_tasks r) (sleep_head r)
    (deferred_reap_head r) (sched_enabled r) (total_tasks r) (lifetime_tasks_reaped r)
    (lifetime_orphans_detached r) (lifetime_detached_tasks_reaped r) (pc_current r) (pc_idle r)
    (pc_ticks r) (pc_idle_ticks r) (effects r).

Definition upd_task (t : Z) (f : task_t -> task_t) (s : sched) : sched :=
  s <| tasks := (tasks s).[t <- f (tasks s t)] |>.
Definition set_rq (cpu : Z) (rq : runqueue_t) (s : sched) : sched :=
  s <| per_cpu_rq := (per_cpu_rq s).[cpu <- rq] |>.

(** ** Weights and slices *)

Definition nice_to_weight : list Z :=
  [88761; 71755; 56483; 46273; 36291; 29154; 23254; 18705; 14949; 11916;
   9548; 7620; 6100; 4904; 3906; 3121; 2501; 1991; 1586; 1277;
   1024; 820; 655; 526; 423; 335; 272; 215; 172; 137;
   110; 87; 70; 56; 45; 36; 29; 23; 18; 15].

Definition weight_for_nice (n : Z) : Z :=
  let idx := n + 20 in
  let idx := if idx <? 0 then 0 else idx in
  let idx := if 40 <=? idx then 39 else idx in
  nth (Z.to_nat idx) nice_to_weight 0.

(** [t->weight ? t->weight : 1] *)
Definition load_of (t : task_t) : Z := if weight t =? 0 then 1 else weight t.

Definition sched_effective_slice_ticks (rq : runqueue_t) (t : task_t) : Z :=
  let runnable := u32 (rq_count rq + 1) in
  let runnable := if runnable =? 0 then 1 else runnable in
  let base := SCHED_LATENCY_TICKS / runnable in
  let base := if base <? SCHED_MIN_GRANULARITY_TICKS then SCHED_MIN_GRANULARITY_TICKS else base in
  let base := if SCHED_MAX_GRANULARITY_TICKS <? base then SCHED_MAX_GRANULARITY_TICKS else base in
  let base := if (nice t <? 0) && (base <? SCHED_MAX_GRANULARITY_TICKS) then base + 1 else base in
  let base := if (5 <? nice t) && (SCHED_MIN_GRANULARITY_TICKS <? base) then base - 1 else base in
  let base := if (ai_hint t =? AI_HINT_REALTIME) && (base <? SCHED_MAX_GRANULARITY_TICKS)
              then base + 1 else base in
  if (ai_hint t =? AI_HINT_BATCH) && (SCHED_MIN_GRANULARITY_TICKS <? base) then base - 1 else base.

(** ** Run queues *)

(** The binary search of rq_insert, with [vr] the vruntime of the task in a slot. *)
Fixpoint bsearch (fuel : nat) (vr : Z -> Z) (v lo hi : Z) : Z :=
  match fuel with
  | O => lo
  | S fuel' =>
      if lo <? hi then
        let mid := (lo + hi) / 2 in
        if vr mid <? v then bsearch fuel' vr v (mid + 1) hi else bsearch fuel' vr v lo mid
      else lo
  end.

(** A queue has at most 256 entries and the search halves the range. *)
Definition BSEARCH_FUEL : nat := 9.

(** [for (i = count; i > lo; i--) a[i] = a[i-1];] with [n] rounds left *)
Fixpoint shift_right (n : nat) (i : Z) (a : Z -> Z) : Z -> Z :=
  match n with
  | O => a
  | S n' => shift_right n' (i - 1) (a.[i <- a (i - 1)])
  end.

Definition rq_insert (cpu t : Z) (s : sched) : sched :=
  let rq := per_cpu_rq s cpu in
  if RQ_SLOTS <=? rq_count rq then s
  else
    let s := upd_task t (fun k => k <| t_state := TASK_READY |>) s in
    let v := vruntime (tasks s t) in
    let lo := bsearch BSEARCH_FUEL (fun i => vruntime (tasks s (rq_tasks rq i))) v 0 (rq_count rq) in
    let a := shift_right (Z.to_nat (rq_count rq - lo)) (rq_count rq) (rq_tasks rq) in
    let rq := rq <| rq_tasks := a.[lo <- t] |> <| rq_count := u32 (rq_count rq + 1) |>
                 <| load_weight := u64 (load_weight rq + load_of (tasks s t)) |> in
    let rq := if (rq_count rq =? 1) || (v <? min_vruntime rq) then rq <| min_vruntime := v |> else rq in
    set_rq cpu rq s.

Definition rq_pick_next (cpu : Z) (s : sched) : Z * sched :=
  let rq := per_cpu_rq s cpu in
  if rq_count rq =? 0 then (0, s)
  else
    let t := rq_tasks rq 0 in
    let w := load_of (tasks s t) in
    let rq := rq <| rq_tasks := for_loop (Z.to_nat (rq_count rq - 1)) 0
                                  (fun i a => a.[i <- a (i + 1)]) (rq_tasks rq) |> in
    let rq := rq <| rq_count := u32 (rq_count rq - 1) |> in
    let rq := rq <| load_weight := if w <=? load_weight rq then load_weight rq - w else 0 |> in
    let rq := rq <| min_vruntime := if 0 <? rq_count rq then vruntime (tasks s (rq_tasks rq 0)) else 0 |> in
    let rq := rq <| nr_switches := u64 (nr_switches rq + 1) |> <| last_pick_id := t_id (tasks s t) |> in
    (t, set_rq cpu rq s).

(** smp_sched_cpu_count *)
Definition SCHED_CPUS : Z := 1.

Definition pick_step (s : sched) (t cpu : Z) (best : Z * Z) : Z * Z :=
  if negb (t =? 0) && negb (has (cpu_affinity (tasks s t)) (Z.shiftl 1 cpu)) then best
  else
    let c := rq_count (per_cpu_rq s cpu) in
    if c <? snd best then (cpu, c) else best.

Definition sched_pick_cpu_for_task (cpus t : Z) (s : sched) : Z :=
  let cpus := if cpus =? 0 then 1 else cpus in
  let cpus := if MAX_CPUS <? cpus then MAX_CPUS else cpus in
  fst (for_loop (Z.to_nat cpus) 0 (pick_step s t) (0, 2 ^ 32 - 1)).

Definition sched_unblock (t : Z) (s : sched) : sched :=
  let cpu := sched_pick_cpu_for_task SCHED_CPUS t s in
  let s := upd_task t (fun k => k <| t_cpu := cpu |>) s in
  match t_state (tasks s t) with
  | TASK_BLOCKED | TASK_STOPPED => rq_insert cpu t s
  | _ => s
  end.

(** ** Reaping *)

Definition sched_task_is_active (t : Z) (s : sched) : bool :=
  if t =? 0 then false
  else existsb (fun cpu => active_tasks s cpu =? t) (seqZ 0 MAX_CPUS).

Definition rq_has (t : Z) (rq : runqueue_t) : bool :=
  existsb (fun i => rq_tasks rq i =? t) (seqZ 0 (rq_count rq)).

Definition sched_task_in_runqueue (t : Z) (s : sched) : bool :=
  if t =? 0 then false
  else existsb (fun cpu => rq_has t (per_cpu_rq s cpu)) (seqZ 0 MAX_CPUS).

Definition sched_drop_task_count (t : Z) (s : sched) : sched :=
  if (t =? 0) || negb (accounted (tasks s t)) then s
  else
    let s := if 0 <? total_tasks s then s <| total_tasks := total_tasks s - 1 |> else s in
    upd_task t (fun k => k <| accounted := false |>) s.

Definition sched_queue_deferred_reap (t : Z) (s : sched) : sched :=
  if (t =? 0) || reap_queued (tasks s t) then s
  else
    let s := upd_task t (fun k => k <| reap_queued := true |>) s in
    let s := upd_task t (fun k => k <| wait_next := deferred_reap_head s |>) s in
    s <| deferred_reap_head := t |>.

(** The loop of sched_unlink_from_parent: slot [i] of the parent's children. *)
Fixpoint unlink_child (n : nat) (i p t : Z) (s : sched) : sched :=
  match n with
  | O => s
  | S n' =>
      if negb (t_children (tasks s p) i =? t) then unlink_child n' (i + 1) p t s
      else
        let last := child_count (tasks s p) - 1 in
        upd_task p (fun k =>
          k <| t_children := (t_children k).[i <- t_children k last].[last <- 0] |>
            <| child_count := last |>) s
  end.

Definition sched_unlink_from_parent (t : Z) (s : sched) : sched :=
  if (t =? 0) || (t_parent (tasks s t) =? 0) then s
  else
    let p := t_parent (tasks s t) in
    let s := unlink_child (Z.to_nat (child_count (tasks s p))) 0 p t s in
    upd_task t (fun k => k <| t_parent := 0 |>) s.

Definition emit (e : effect) (s : sched) : sched := s <| effects := effects s ++ [e] |>.

Definition release_address_space (t : Z) (s : sched) : sched :=
  let s := emit (DestroyVmas t) s in
  if pml4 (tasks s t) =? 0 then s
  else upd_task t (fun k => k <| pml4 := 0 |>) (emit (DestroyPml4 (pml4 (tasks s t))) s).
Definition release_fds (t : Z) (s : sched) : sched :=
  upd_task t (fun k => k <| has_fds := false |>) (emit (CloseFds t) s).
Definition release_stack (t : Z) (s : sched) : sched :=
  if t_stack (tasks s t) =? 0 then s
  else upd_task t (fun k => k <| t_stack := 0 |>) (emit (FreeStack (t_stack (tasks s t))) s).
Definition release_fpu (t : Z) (s : sched) : sched :=
  if fpu_state (tasks s t) =? 0 then s
  else upd_task t (fun k => k <| fpu_state := 0 |>) (emit (FreeFpu (fpu_state (tasks s t))) s).
Definition release_node (t : Z) (s : sched) : sched :=
  if negb (graph_node (tasks s t) =? TASK_GRAPH_NODE_INVALID) && negb (graph_node (tasks s t) =? 0)
  then upd_task t (fun k => k <| graph_node := TASK_GRAPH_NODE_INVALID |>)
         (emit (DestroyNode (graph_node (tasks s t))) s)
  else s.

Definition sched_destroy_task_resources (t : Z) (destroy_address_space close_fds free_object : bool)
    (s : sched) : sched :=
  if t =? 0 then s
  else
    let s := if destroy_address_space then release_address_space t s else s in
    let s := if close_fds then release_fds t s else s in
    let s := release_node t (release_fpu t (release_stack t s)) in
    if free_object then emit (FreeTask t) s else s.

Definition sched_task_owns_address_space (t : Z) (s : sched) : bool :=
  negb (t =? 0) && negb (pml4 (tasks s t) =? 0) && (thread_group (tasks s t) =? 0).

Definition sched_reap_detached_dead_task (t : Z) (s : sched) : sched :=
  if (t =? 0) || (t =? pc_current s) || sched_task_is_active t s || sched_task_in_runqueue t s then
    sched_queue_deferred_reap t s
  else
    let s := sched_unlink_from_parent t s in
    let s := sched_drop_task_count t s in
    let s := upd_task t (fun k => k <| t_state := TASK_DEAD |> <| reap_queued := false |> <| wait_next := 0 |>) s in
    let s := s <| lifetime_tasks_reaped := u64 (lifetime_tasks_reaped s + 1) |>
               <| lifetime_detached_tasks_reaped := u64 (lifetime_detached_tasks_reaped s + 1) |> in
    sched_destroy_task_resources t (sched_task_owns_address_space t s) true true s.

(** The loop of sched_reap_deferred_dead_tasks over the detached list. *)
Fixpoint reap_list (fuel : nat) (list : Z) (s : sched) : sched :=
  match fuel with
  | O => s
  | S fuel' =>
      if list =? 0 then s
      else
        let next := wait_next (tasks s list) in
        let s := upd_task list (fun k => k <| wait_next := 0 |> <| reap_queued := false |>) s in
        let s := if sched_task_is_active list s then sched_queue_deferred_reap list s
                 else sched_reap_detached_dead_task list s in
        reap_list fuel' next s
  end.

Definition sched_reap_deferred_dead_tasks (fuel : nat) (s : sched) : sched :=
  let list := deferred_reap_head s in
  reap_list fuel list (s <| deferred_reap_head := 0 |>).

Definition sched_drain_deferred_reaps (fuel : nat) (s : sched) : sched :=
  if negb (sched_enabled s) then s else sched_reap_deferred_dead_tasks fuel s.

(** ** Exit *)

Definition orphan_child (parent i : Z) (st : bool * sched) : bool * sched :=
  let '(shared, s) := st in
  let child := t_children (tasks s parent) i in
  if child =? 0 then (shared, s)
  else
    let shared := shared || (negb (pml4 (tasks s parent) =? 0)
                             && (pml4 (tasks s child) =? pml4 (tasks s parent))) in
    let s := upd_task child (fun k => k <| t_parent := 0 |>) s in
    let s := s <| lifetime_orphans_detached := u64 (lifetime_orphans_detached s + 1) |> in
    let s := match t_state (tasks s child) with
             | TASK_ZOMBIE | TASK_DEAD =>
                 let s := upd_task child (fun k => k <| t_state := TASK_DEAD |>) s in
                 let s := sched_drop_task_count child s in
                 if sched_task_in_runqueue child s then s else sched_queue_deferred_reap child s
             | _ => s
             end in
    (shared, upd_task parent (fun k => k <| t_children := (t_children k).[i <- 0] |>) s).

Definition sched_orphan_children (parent : Z) (s : sched) : sched :=
  if (parent =? 0) || (child_count (tasks s parent) =? 0) then s
  else
    let '(shared, s) := for_loop (Z.to_nat (child_count (tasks s parent))) 0 (orphan_child parent) (false, s) in
    let s := upd_task parent (fun k => k <| child_count := 0 |>) s in
    if shared then upd_task parent (fun k => k <| pml4 := 0 |> <| vma_head := 0 |>) s else s.

Definition sched_exit_current (code : Z) (s : sched) : sched :=
  let cur := pc_current s in
  if cur =? 0 then s
  else
    let s := upd_task cur (fun k => k <| exit_code := code |>) s in
    let s := sched_orphan_children cur s in
    if t_parent (tasks s cur) =? 0 then
      let s := upd_task cur (fun k => k <| t_state := TASK_DEAD |>) s in
      sched_queue_deferred_reap cur (sched_drop_task_count cur s)
    else upd_task cur (fun k => k <| t_state := TASK_ZOMBIE |>) s.

(** ** Switching *)

Definition switch_to (next : Z) (s : sched) : sched :=
  let s := upd_task next (fun k => k <| t_state := TASK_RUNNING |> <| slice_ticks := 0 |>
                                     <| need_resched := false |> <| t_cpu := 0 |>) s in
  s <| pc_current := next |> <| active_tasks := (active_tasks s).[0 <- next] |>.

(** The loop of sched_yield that skips dead tasks; [dead] is dead_picked. *)
Fixpoint skip_dead (fuel : nat) (next : Z) (dead : list Z) (s : sched) : Z * list Z * sched :=
  match fuel with
  | O => (next, dead, s)
  | S fuel' =>
      if (next =? 0) || negb (bool_decide (t_state (tasks s next) = TASK_DEAD)) then (next, dead, s)
      else if reap_queued (tasks s next) then
        let '(next, s) := rq_pick_next 0 s in skip_dead fuel' next dead s
      else
        let '(dead, s) := if Z.of_nat (length dead) <? 16 then (dead ++ [next], s)
                          else (dead, sched_queue_deferred_reap next s) in
        let '(next, s) := rq_pick_next 0 s in
        skip_dead fuel' next dead s
  end.

Definition sched_yield (fuel : nat) (s : sched) : sched :=
  if negb (sched_enabled s) then s
  else
    let s := sched_reap_deferred_dead_tasks fuel s in
    let cur := pc_current s in
    let '(next, s) := rq_pick_next 0 s in
    let '(next, dead, s) := skip_dead (S (Z.to_nat (rq_count (per_cpu_rq s 0)))) next [] s in
    if next =? 0 then fold_left (fun s t => sched_reap_detached_dead_task t s) dead s
    else
      let s := if negb (cur =? 0) && bool_decide (t_state (tasks s cur) = TASK_RUNNING) then
                 let s := upd_task cur (fun k => k <| vol_switches := u64 (vol_switches k + 1) |>
                                                   <| slice_ticks := 0 |> <| need_resched := false |>) s in
                 rq_insert 0 cur s
               else s in
      let s := fold_left (fun s t => sched_reap_detached_dead_task t s) dead s in
      switch_to next s.

Definition sched_maybe_preempt (fuel : nat) (s : sched) : sched :=
  let cur := pc_current s in
  if negb (sched_enabled s) || (cur =? 0) || negb (need_resched (tasks s cur)) then s
  else if negb (bool_decide (t_state (tasks s cur) = TASK_RUNNING)) || (cur =? pc_idle s) then s
  else sched_yield fuel (upd_task cur (fun k => k <| need_resched := false |>) s).

(** ** Tick and sleep *)

(** The scan of the sleep list: [prev] is the task whose [wait_next] points at
    [t], 0 for [sleep_head] itself. *)
Fixpoint wake_sleepers (fuel : nat) (now prev t : Z) (s : sched) : sched :=
  match fuel with
  | O => s
  | S fuel' =>
      if t =? 0 then s
      else
        let next := wait_next (tasks s t) in
        if wakeup_tick (tasks s t) <=? now then
          let s := if prev =? 0 then s <| sleep_head := next |>
                   else upd_task prev (fun k => k <| wait_next := next |>) s in
          let s := upd_task t (fun k => k <| wait_next := 0 |>) s in
          wake_sleepers fuel' now prev next (sched_unblock t s)
        else wake_sleepers fuel' now t next s
  end.

Definition tick_account (s : sched) : sched :=
  let cur := pc_current s in
  let s := upd_task cur (fun k => k <| t_ticks := u64 (t_ticks k + 1) |> <| slice_ticks := u32 (slice_ticks k + 1) |>
                                    <| stime := u64 (stime k + 1) |>
                                    <| vruntime := u64 (vruntime k + 1024 * 1024 / load_of k) |>) s in
  let s := if ai_hint (tasks s cur) =? AI_HINT_BATCH
           then upd_task cur (fun k => k <| vruntime := u64 (vruntime k - 128) |>) s else s in
  if cur =? pc_idle s then s <| pc_idle_ticks := u64 (pc_idle_ticks s + 1) |>
  else if sched_effective_slice_ticks (per_cpu_rq s 0) (tasks s cur) <=? slice_ticks (tasks s cur)
  then upd_task cur (fun k => k <| need_resched := true |>) s
  else s.

Definition tick_signals (s : sched) : sched :=
  let cur := pc_current s in
  if has (signal_pending (tasks s cur)) (Z.shiftl 1 SIGKILL) then
    upd_task cur (fun k => k <| need_resched := true |>) (sched_exit_current (128 + SIGKILL) s)
  else if has (signal_pending (tasks s cur)) (Z.shiftl 1 SIGSTOP) then
    upd_task cur (fun k => k <| t_state := TASK_STOPPED |>
                             <| signal_pending := Z.land (signal_pending k) (u32 (Z.lnot (Z.shiftl 1 SIGSTOP))) |>) s
  else s.

Definition sched_tick (fuel : nat) (s : sched) : sched :=
  let s := s <| pc_ticks := u64 (pc_ticks s + 1) |> in
  let cur := pc_current s in
  let s := if cur =? 0 then s else tick_account s in
  let s := wake_sleepers fuel (pc_ticks s) 0 (sleep_head s) s in
  let s := if negb (cur =? 0) && negb (signal_pending (tasks s cur) =? 0) then tick_signals s else s in
  if cur =? 0 then s else upd_task cur (fun k => k <| invol_switches := u64 (invol_switches k + 1) |>) s.

Definition sched_sleep_until (deadline : Z) (s : sched) : sched :=
  let cur := pc_current s in
  let s := upd_task cur (fun k => k <| t_state := TASK_BLOCKED |> <| wakeup_tick := deadline |>
                                    <| wait_next := sleep_head s |>) s in
  let s := s <| sleep_head := cur |> in
  let '(next, s) := rq_pick_next 0 s in
  if next =? 0 then s else switch_to next s.

(** task_sleep_ms (src/src/sched/wait.c) *)
Definition task_sleep_ms (ms : Z) (s : sched) : sched :=
  let ticks := u64 (ms + 9) / 10 in
  let ticks := if ticks =? 0 then 1 else ticks in
  sched_sleep_until (u64 (pc_ticks s + ticks)) s.

(** ** Waiting for children and signals *)

(** One pass of sched_waitpid over the children: the slot of the first one that
    matches and has exited. *)
Definition exited (s : sched) (t : Z) : bool :=
  bool_decide (t_state (tasks s t) = TASK_ZOMBIE) || bool_decide (t_state (tasks s t) = TASK_DEAD).

Definition waitpid_scan (pid : Z) (s : sched) : option Z :=
  let cur := pc_current s in
  find_index (Z.to_nat (child_count (tasks s cur))) 0 (fun i =>
    let child := t_children (tasks s cur) i in
    negb (child =? 0) && negb ((0 <? pid) && negb (t_id (tasks s child) =? pid)) && exited s child).

Inductive wait_result := Reaped (pid status : Z) | NoHang | NoTask | Sleep.

(** sched_waitpid up to its sleep: the caller is put to sleep for 10 ms and
    retries when the result is [Sleep]. *)
Definition sched_waitpid (pid options : Z) (s : sched) : wait_result * sched :=
  let cur := pc_current s in
  if cur =? 0 then (NoTask, s)
  else
    match waitpid_scan pid s with
    | Some i =>
        let child := t_children (tasks s cur) i in
        let status := Z.shiftl (Z.land (exit_code (tasks s child)) 0xFF) 8 in
        let ret := t_id (tasks s child) in
        let s := sched_drop_task_count child s in
        let s := upd_task child (fun k => k <| t_state := TASK_DEAD |>) s in
        let owns := negb (pml4 (tasks s child) =? 0) && negb (pml4 (tasks s child) =? pml4 (tasks s cur)) in
        let last := child_count (tasks s cur) - 1 in
        let s := upd_task cur (fun k =>
                   k <| t_children := (t_children k).[i <- t_children k last].[last <- 0] |>
                     <| child_count := last |>) s in
        let s := s <| lifetime_tasks_reaped := u64 (lifetime_tasks_reaped s + 1) |> in
        (Reaped ret status, sched_destroy_task_resources child owns true true s)
    | None =>
        if has options 1 then (NoHang, s)
        else (Sleep, task_sleep_ms 10 s)
    end.

Definition signal_task (sig t : Z) (s : sched) : sched :=
  upd_task t (fun k => k <| signal_pending := Z.lor (signal_pending k) (Z.shiftl 1 sig) |>) s.

Definition sched_kill_task (id : Z) (s : sched) : sched :=
  if (id =? 0) || (id =? 1) || (id =? 2) then s
  else for_loop (Z.to_nat MAX_CPUS) 0 (fun cpu s =>
    let active := active_tasks s cpu in
    let s := if negb (active =? 0) && (t_id (tasks s active) =? id)
             then upd_task active (fun k => k <| need_resched := true |>) (signal_task SIGKILL active s)
             else s in
    for_loop (Z.to_nat (rq_count (per_cpu_rq s cpu))) 0 (fun i s =>
      let t := rq_tasks (per_cpu_rq s cpu) i in
      if t_id (tasks s t) =? id then signal_task SIGKILL t s else s) s) s.

(** The first processor that runs [pid], and the first queued task with it. *)
Definition sys_kill (pid sig : Z) (s : sched) : Z * sched :=
  if SIG_MAX <=? sig then (-1, s)
  else
    match find_index (Z.to_nat MAX_CPUS) 0 (fun c =>
            negb (active_tasks s c =? 0) && (t_id (tasks s (active_tasks s c)) =? pid)) with
    | Some c =>
        let t := active_tasks s c in
        (0, upd_task t (fun k => k <| need_resched := true |>) (signal_task sig t s))
    | None =>
        match find_index (Z.to_nat MAX_CPUS) 0 (fun c =>
                existsb (fun i => t_id (tasks s (rq_tasks (per_cpu_rq s c) i)) =? pid)
                        (seqZ 0 (rq_count (per_cpu_rq s c)))) with
        | None => (-1, s)
        | Some c =>
            match find_index (Z.to_nat (rq_count (per_cpu_rq s c))) 0 (fun i =>
                    t_id (tasks s (rq_tasks (per_cpu_rq s c) i)) =? pid) with
            | Some i => (0, signal_task sig (rq_tasks (per_cpu_rq s c) i) s)
            | None => (-1, s)
            end
        end
    end.

Definition sched_set_nice (t n : Z) (s : sched) : sched :=
  let n := if n <? MIN_NICE then MIN_NICE else n in
  let n := if MAX_NICE <? n then MAX_NICE else n in
  upd_task t (fun k => k <| nice := n |> <| weight := weight_for_nice n |>) s.
Definition sched_set_affinity (t mask : Z) (s : sched) : sched :=
  upd_task t (fun k => k <| cpu_affinity := mask |>) s.
Definition sched_set_ai_hint (t hint : Z) (s : sched) : sched :=
  upd_task t (fun k => k <| ai_hint := hint |>) s.

End Sched.
