(* ===== verification/SchedProps.v ===== *)
(** * Correctness of the scheduler

    The run queue's binary insertion is insertion into a sorted list, yielding
    runs the live task with the least virtual runtime and loses no task, the
    tick wakes exactly the sleepers whose time has come, the deferred reaper
    never frees a task that runs or is queued, and waitpid reaps exited
    children only. *)

From stdpp Require Import sorting.
From S2P Require Import Prelude Sched.

Module SchedProps.
Import Sched.

(** ** Arrays and binary search *)

Lemma bsearch_ok fuel vr v n lo hi :
  (forall i j, 0 <= i <= j -> j < n -> vr i <= vr j) -> 0 <= lo <= hi -> hi <= n -> hi - lo < 2 ^ Z.of_nat fuel ->
  (forall i, 0 <= i < lo -> vr i < v) -> (forall i, hi <= i < n -> v <= vr i) ->
  let r := bsearch fuel vr v lo hi in
  0 <= r <= n /\ (forall i, 0 <= i < r -> vr i < v) /\ (forall i, r <= i < n -> v <= vr i).
Proof.
  intros Hs. revert lo hi. induction fuel as [|fuel IH]; intros lo hi Hlo Hhi Hf Hl Hh; cbn [bsearch].
  { cbn in Hf. split; [lia|]. split; [done|]. intros i Hi. apply Hh. lia. }
  rewrite Nat2Z.inj_succ, Z.pow_succ_r in Hf by lia.
  destruct (Z.ltb_spec lo hi); [|split; [lia|]; split; [done|]; intros i Hi; apply Hh; lia].
  assert (lo <= (lo + hi) / 2 < hi) as Hm by (Z.to_euclidean_division_equations; lia).
  assert (hi - ((lo + hi) / 2 + 1) < 2 ^ Z.of_nat fuel /\ (lo + hi) / 2 - lo < 2 ^ Z.of_nat fuel) as [H1 H2].
  { Z.to_euclidean_division_equations; lia. }
  destruct (Z.ltb_spec (vr ((lo + hi) / 2)) v) as [Hv|Hv].
  - apply IH; auto; try lia. intros i Hi. pose proof (Hs i ((lo + hi) / 2)). lia.
  - apply IH; auto; try lia. intros i Hi. pose proof (Hs ((lo + hi) / 2) i). lia.
Qed.

Lemma shift_right_ok n i a j :
  shift_right n i a j = if (i - Z.of_nat n <? j) && (j <=? i) then a (j - 1) else a j.
Proof.
  revert i a. induction n as [|n IH]; intros i a; cbn [shift_right].
  { destruct (Z.ltb_spec (i - Z.of_nat 0) j), (Z.leb_spec j i); cbn; auto; lia. }
  rewrite IH. unfold upd.
  destruct (Z.ltb_spec (i - 1 - Z.of_nat n) j), (Z.leb_spec j (i - 1)), (Z.ltb_spec (i - Z.of_nat (S n)) j),
    (Z.leb_spec j i), (Z.eqb_spec (j - 1) i), (Z.eqb_spec j i); cbn; subst; auto; lia.
Qed.

Lemma shift_left_ok {A : Type} n lo (a : Z -> A) j :
  for_loop n lo (fun i b => b.[i <- b (i + 1)]) a j =
  if (lo <=? j) && (j <? lo + Z.of_nat n) then a (j + 1) else a j.
Proof.
  revert lo a. induction n as [|n IH]; intros lo a; cbn [for_loop].
  { destruct (Z.leb_spec lo j), (Z.ltb_spec j (lo + Z.of_nat 0)); cbn; auto; lia. }
  rewrite IH. unfold upd.
  destruct (Z.leb_spec (lo + 1) j), (Z.ltb_spec j (lo + 1 + Z.of_nat n)), (Z.leb_spec lo j),
    (Z.ltb_spec j (lo + Z.of_nat (S n))), (Z.eqb_spec (j + 1) lo), (Z.eqb_spec j lo);
    cbn; subst; auto; lia.
Qed.

(** ** Run queues as lists *)

(** The first [n] slots of an array. *)
Definition slots {A : Type} (a : Z -> A) (n : Z) : list A := map a (seqZ 0 n).
Definition queued (s : sched) (cpu : Z) : list Z := slots (rq_tasks (per_cpu_rq s cpu)) (rq_count (per_cpu_rq s cpu)).

Lemma seqZ_shift m n : seqZ (m + 1) n = map (fun i => i + 1) (seqZ m n).
Proof. rewrite (Z.add_comm m 1), <- fmap_add_seqZ. apply map_ext. intros. lia. Qed.

Lemma slots_ext {A : Type} (a b : Z -> A) n : (forall i, 0 <= i < n -> a i = b i) -> slots a n = slots b n.
Proof.
  intros H. apply map_ext_in. intros i Hi. apply H.
  apply list_elem_of_In, elem_of_seqZ in Hi. lia.
Qed.

Lemma slots_cons {A : Type} (a : Z -> A) n : 0 < n -> slots a n = a 0 :: slots (fun i => a (i + 1)) (n - 1).
Proof.
  intros Hn. unfold slots. rewrite seqZ_cons by lia. cbn. f_equal.
  change (Z.succ 0) with (0 + 1). rewrite seqZ_shift, map_map. by replace (Z.pred n) with (n - 1) by lia.
Qed.

Lemma slots_In {A : Type} (a : Z -> A) n x : In x (slots a n) <-> exists i, 0 <= i < n /\ a i = x.
Proof.
  unfold slots. rewrite in_map_iff. split; intros (i & H1 & H2); exists i.
  - apply list_elem_of_In, elem_of_seqZ in H2. split; [lia|done].
  - split; [done|]. apply list_elem_of_In, elem_of_seqZ. lia.
Qed.

(** Insertion into a list ordered by [vr], before the first element that is
    not smaller. *)
Fixpoint insert_before (vr : Z -> Z) (t : Z) (l : list Z) : list Z :=
  match l with
  | [] => [t]
  | x :: l' => if vr x <? vr t then x :: insert_before vr t l' else t :: l
  end.

Lemma insert_before_perm vr t l : insert_before vr t l ≡ₚ t :: l.
Proof.
  induction l as [|x l IH]; cbn; [done|]. destruct (vr x <? vr t); [|done].
  rewrite IH. by rewrite Permutation_swap.
Qed.

(** Opening a gap at [lo] and storing [t] there is insertion, when [lo] is the
    insertion point. *)
Lemma insert_slots vr t a n lo :
  0 <= lo <= n -> (forall i, 0 <= i < lo -> vr (a i) < vr t) -> (forall i, lo <= i < n -> vr t <= vr (a i)) ->
  slots (fun j => if j =? lo then t else if (lo <? j) && (j <=? n) then a (j - 1) else a j) (n + 1)
  = insert_before vr t (slots a n).
Proof.
  intros Hlo. remember (Z.to_nat lo) as k eqn:Ek. revert lo n a Hlo Ek.
  induction k as [|k IH]; intros lo n a Hlo Ek Hs Hb.
  - replace lo with 0 in * by lia. rewrite slots_cons by lia. cbn [Z.eqb].
    rewrite (slots_ext _ a) by (intros i Hi; destruct (Z.eqb_spec (i + 1) 0), (Z.ltb_spec 0 (i + 1)),
      (Z.leb_spec (i + 1) n); cbn; try lia; f_equal; lia).
    replace (n + 1 - 1) with n by lia. destruct (decide (n = 0)) as [->|]; [done|].
    rewrite (slots_cons a n) by lia. cbn. pose proof (Hb 0 ltac:(lia)). by destruct (Z.ltb_spec (vr (a 0)) (vr t)); [lia|].
  - rewrite (slots_cons _ (n + 1)), (slots_cons a n) by lia. cbn [insert_before]. cbv beta.
    destruct (Z.eqb_spec 0 lo), (Z.ltb_spec lo 0); try lia. cbn [andb].
    pose proof (Hs 0 ltac:(lia)). rewrite (proj2 (Z.ltb_lt _ _)) by lia. f_equal.
    rewrite <- (IH (lo - 1)) by first [lia | intros i Hi; apply Hs; lia | intros i Hi; apply Hb; lia].
    replace (n + 1 - 1) with (n - 1 + 1) by lia. apply slots_ext. intros i Hi. cbv beta.
    destruct (Z.eqb_spec (i + 1) lo), (Z.eqb_spec i (lo - 1)), (Z.ltb_spec lo (i + 1)), (Z.ltb_spec (lo - 1) i),
      (Z.leb_spec (i + 1) n), (Z.leb_spec i (n - 1)); cbn; try lia; auto; f_equal; lia.
Qed.

(** The virtual runtime of a task. *)
Definition vrt (s : sched) (t : Z) : Z := vruntime (tasks s t).

(** The list is in order of [vr]. *)
Definition ordered (vr : Z -> Z) (l : list Z) : Prop := StronglySorted (fun x y => vr x <= vr y) l.

Lemma slots_ordered vr a n :
  ordered vr (slots a n) -> forall i j, 0 <= i <= j -> j < n -> vr (a i) <= vr (a j).
Proof.
  unfold ordered. remember (Z.to_nat n) as k eqn:Ek. revert n a Ek.
  induction k as [|k IH]; intros n a Ek Hs i j Hij Hj; [lia|].
  rewrite slots_cons in Hs by lia. inversion Hs as [|? ? Hs' Hall]; subst.
  destruct (decide (i = j)) as [->|]; [lia|]. destruct (decide (i = 0)) as [->|].
  - rewrite List.Forall_forall in Hall. apply Hall, slots_In. exists (j - 1). split; [lia|]. f_equal. lia.
  - replace i with (i - 1 + 1) by lia. replace j with (j - 1 + 1) by lia.
    apply (IH (n - 1) (fun x => a (x + 1))); auto; lia.
Qed.

Lemma insert_before_ordered vr t l : ordered vr l -> ordered vr (insert_before vr t l).
Proof.
  unfold ordered. induction 1 as [|x l Hs IH Hall]; cbn; [repeat constructor|].
  destruct (Z.ltb_spec (vr x) (vr t)).
  - constructor; [done|]. rewrite insert_before_perm. constructor; [lia|done].
  - constructor; [by constructor|]. constructor; [lia|].
    revert Hall. apply List.Forall_impl. intros; lia.
Qed.

Lemma ordered_ext vr vr' l : (forall x, vr' x = vr x) -> ordered vr l -> ordered vr' l.
Proof.
  intros E. unfold ordered. induction 1 as [|x l Hs IH Hall]; constructor; auto.
  revert Hall. apply List.Forall_impl. intros y. by rewrite !E.
Qed.

(** A run queue in order: sorted by virtual runtime, within its array. *)
Record rq_ok (s : sched) (cpu : Z) : Prop := {
  rq_bound : 0 <= rq_count (per_cpu_rq s cpu) <= RQ_SLOTS;
  rq_sorted : ordered (vrt s) (queued s cpu)
}.

Lemma upd_task_other t u f s : u <> t -> tasks (upd_task t f s) u = tasks s u.
Proof. intros H. cbn. by rewrite upd_ne. Qed.

Lemma upd_task_self t f s : tasks (upd_task t f s) t = f (tasks s t).
Proof. cbn. by rewrite upd_eq. Qed.

Lemma vruntime_ready t u s :
  vruntime (tasks (upd_task t (fun k => k <| t_state := TASK_READY |>) s) u) = vruntime (tasks s u).
Proof.
  destruct (decide (u = t)) as [->|]; [by rewrite upd_task_self|by rewrite upd_task_other].
Qed.

(** What rq_insert changes: the state of the task, and the queue. *)
Lemma rq_insert_frame cpu t s :
  let s' := rq_insert cpu t s in
  (forall u, vrt s' u = vrt s u) /\
  (forall u, u <> t -> tasks s' u = tasks s u) /\
  (forall c, c <> cpu -> per_cpu_rq s' c = per_cpu_rq s c) /\
  s' = s <| tasks := tasks s' |> <| per_cpu_rq := per_cpu_rq s' |>.
Proof.
  unfold rq_insert. cbv zeta. destruct (RQ_SLOTS <=? rq_count (per_cpu_rq s cpu)).
  { split_and!; auto. by destruct s. }
  unfold vrt. split_and!; auto.
  - intros u. exact (vruntime_ready t u s).
  - intros u Hu. exact (upd_ne _ _ _ _ Hu).
  - intros c Hc. exact (upd_ne _ _ _ _ Hc).
Qed.

Lemma rq_insert_queue cpu t s :
  rq_ok s cpu -> rq_count (per_cpu_rq s cpu) < RQ_SLOTS ->
  let s' := rq_insert cpu t s in
  queued s' cpu = insert_before (vrt s) t (queued s cpu) /\
  rq_count (per_cpu_rq s' cpu) = rq_count (per_cpu_rq s cpu) + 1 /\
  t_state (tasks s' t) = TASK_READY.
Proof.
  intros [Hb Hs] Hroom. unfold rq_insert. cbv zeta. rewrite (proj2 (Z.leb_gt _ _) Hroom).
  set (rq := per_cpu_rq s cpu) in *. set (s1 := upd_task t _ s).
  assert (forall u, vruntime (tasks s1 u) = vrt s u) as Hv by (intros u; apply vruntime_ready).
  assert (t_state (tasks s1 t) = TASK_READY) as Hst by (by unfold s1; rewrite upd_task_self).
  change (queued s cpu) with (slots (rq_tasks rq) (rq_count rq)) in *.
  clearbody rq s1.
  set (v := vruntime (tasks s1 t)). set (w := load_of (tasks s1 t)). set (lo := bsearch _ _ v _ _).
  destruct (bsearch_ok BSEARCH_FUEL (fun i => vruntime (tasks s1 (rq_tasks rq i))) v
              (rq_count rq) 0 (rq_count rq)) as (Hr & H1 & H2).
  { intros i j Hij Hj. rewrite !Hv. by apply (slots_ordered (vrt s) (rq_tasks rq) (rq_count rq)). }
  { lia. } { lia. } { change (2 ^ Z.of_nat BSEARCH_FUEL) with 512. unfold RQ_SLOTS in *. lia. }
  { intros; lia. } { intros; lia. }
  fold lo in Hr, H1, H2. clearbody lo w.
  assert (u32 (rq_count rq + 1) = rq_count rq + 1) as Hc by (apply wrap_small; unfold RQ_SLOTS in *; lia).
  set (a := (shift_right _ _ _).[lo <- t]).
  assert (slots a (rq_count rq + 1) = insert_before (vrt s) t (slots (rq_tasks rq) (rq_count rq))) as Ha.
  { rewrite <- (insert_slots (vrt s) t (rq_tasks rq) (rq_count rq) lo Hr).
    - apply slots_ext. intros i Hi. unfold a, upd. destruct (Z.eqb_spec i lo); [done|].
      rewrite shift_right_ok. by replace (rq_count rq - Z.of_nat (Z.to_nat (rq_count rq - lo))) with lo by lia.
    - intros i Hi. rewrite <- !Hv. by apply H1.
    - intros i Hi. rewrite <- !Hv. by apply H2. }
  clearbody a v. unfold queued, set_rq. cbn. rewrite upd_eq. destruct (_ || _); cbn; rewrite Hc; auto.
Qed.

Lemma rq_insert_ok cpu t s :
  rq_ok s cpu -> rq_count (per_cpu_rq s cpu) < RQ_SLOTS -> rq_ok (rq_insert cpu t s) cpu.
Proof.
  intros R Hroom. destruct (rq_insert_queue cpu t s R Hroom) as (Eq & Ec & _).
  destruct (rq_insert_frame cpu t s) as (Hv & _). destruct R as [Hb Hs]. split; [lia|].
  rewrite Eq. apply (ordered_ext (vrt s)); [done|]. by apply insert_before_ordered.
Qed.

(** Picking takes the first task of the queue. *)
Lemma rq_pick_spec cpu s : 0 <= rq_count (per_cpu_rq s cpu) <= RQ_SLOTS ->
  let '(t, s') := rq_pick_next cpu s in
  t = hd 0 (queued s cpu) /\ queued s' cpu = tl (queued s cpu) /\
  rq_count (per_cpu_rq s' cpu) = Z.max 0 (rq_count (per_cpu_rq s cpu) - 1) /\
  (forall c, c <> cpu -> per_cpu_rq s' c = per_cpu_rq s c) /\
  s' = s <| per_cpu_rq := per_cpu_rq s' |>.
Proof.
  intros Hb. unfold rq_pick_next. cbv zeta. destruct (Z.eqb_spec (rq_count (per_cpu_rq s cpu)) 0) as [E|E].
  { unfold queued, slots. rewrite E. split_and!; auto. by destruct s. }
  assert (queued s cpu = rq_tasks (per_cpu_rq s cpu) 0 ::
    slots (fun i => rq_tasks (per_cpu_rq s cpu) (i + 1)) (rq_count (per_cpu_rq s cpu) - 1)) as Eq.
  { unfold queued. rewrite slots_cons by lia. done. }
  rewrite Eq. cbn [hd tl]. clear Eq. set (rq := per_cpu_rq s cpu) in *.
  assert (u32 (rq_count rq - 1) = rq_count rq - 1) as Hc by (apply wrap_small; unfold RQ_SLOTS in *; lia).
  set (w := load_of _). set (id := t_id _). set (a := for_loop _ _ _ _).
  assert (forall i, 0 <= i < rq_count rq - 1 -> a i = rq_tasks rq (i + 1)) as Ha.
  { intros i Hi. unfold a. rewrite shift_left_ok, (proj2 (Z.leb_le _ _)), (proj2 (Z.ltb_lt _ _)) by lia. done. }
  clearbody w id a rq. unfold queued, set_rq. cbn. rewrite upd_eq. cbn. rewrite Hc. split_and!; auto.
  - by apply slots_ext.
  - lia.
  - intros c Hne. by rewrite upd_ne.
Qed.

(** ** Steps that leave the processor's view alone *)

(** [s'] differs from [s] in bookkeeping only: queues, running tasks and virtual
    runtimes are the same, and so is the state of every task that runs or is
    queued. *)
Record quiet (s s' : sched) : Prop := {
  qt_rq : per_cpu_rq s' = per_cpu_rq s;
  qt_cur : pc_current s' = pc_current s;
  qt_active : active_tasks s' = active_tasks s;
  qt_vrt : forall t, vruntime (tasks s' t) = vruntime (tasks s t);
  qt_state : forall t, t = pc_current s \/ sched_task_in_runqueue t s = true ->
    t_state (tasks s' t) = t_state (tasks s t)
}.

Lemma in_runqueue_same t s s' : per_cpu_rq s' = per_cpu_rq s ->
  sched_task_in_runqueue t s' = sched_task_in_runqueue t s.
Proof. intros E. unfold sched_task_in_runqueue. by rewrite E. Qed.

Lemma quiet_refl s : quiet s s.
Proof. by split. Qed.

Lemma quiet_trans s1 s2 s3 : quiet s1 s2 -> quiet s2 s3 -> quiet s1 s3.
Proof.
  intros [A1 B1 C1 D1 E1] [A2 B2 C2 D2 E2]. split; try congruence.
  intros t Ht. rewrite E2, E1; auto. rewrite B1, (in_runqueue_same t s1 s2 A1). done.
Qed.

(** Updates of fields other than state and virtual runtime. *)
Lemma quiet_field t f s :
  (forall k, vruntime (f k) = vruntime k) -> (forall k, t_state (f k) = t_state k) -> quiet s (upd_task t f s).
Proof.
  intros Hv Hs. split; auto; intros u; cbn; unfold upd; destruct (Z.eqb_spec u t) as [->|]; auto.
Qed.

Lemma quiet_other t f s :
  (forall k, vruntime (f k) = vruntime k) -> t <> pc_current s -> sched_task_in_runqueue t s = false ->
  quiet s (upd_task t f s).
Proof.
  intros Hv Hc Hq. split; auto; intros u; cbn; unfold upd; destruct (Z.eqb_spec u t) as [->|]; auto.
  intros [?|?]; congruence.
Qed.

Lemma quiet_rest s s' :
  tasks s' = tasks s -> per_cpu_rq s' = per_cpu_rq s -> pc_current s' = pc_current s ->
  active_tasks s' = active_tasks s -> quiet s s'.
Proof. intros E1 E2 E3 E4. split; auto; intros; by rewrite E1. Qed.

Create HintDb quiet discriminated.
#[export] Hint Resolve quiet_refl : quiet.

(** Quiet steps compose. *)
Lemma quiet_then s s1 s2 : quiet s1 s2 -> quiet s s1 -> quiet s s2.
Proof. intros H2 H1. by eapply quiet_trans. Qed.

Lemma quiet_emit e s : quiet s (emit e s).
Proof. by apply quiet_rest. Qed.

Lemma quiet_set_reap_head h s : quiet s (s <| deferred_reap_head := h |>).
Proof. by apply quiet_rest. Qed.

Lemma quiet_drop t s : quiet s (sched_drop_task_count t s).
Proof.
  unfold sched_drop_task_count. destruct (_ || _); [apply quiet_refl|].
  eapply quiet_then; [by apply quiet_field|]. destruct (0 <? total_tasks s); [by apply quiet_rest|apply quiet_refl].
Qed.

Lemma quiet_queue_reap t s : quiet s (sched_queue_deferred_reap t s).
Proof.
  unfold sched_queue_deferred_reap. destruct (_ || _); [apply quiet_refl|].
  eapply quiet_then; [apply quiet_set_reap_head|].
  eapply quiet_then; [by apply quiet_field|]. by apply quiet_field.
Qed.

Lemma quiet_unlink_child n i p t s : quiet s (unlink_child n i p t s).
Proof.
  revert i. induction n as [|n IH]; intros i; cbn [unlink_child]; [apply quiet_refl|].
  destruct (negb _); [apply IH|]. by apply quiet_field.
Qed.

Lemma quiet_unlink t s : quiet s (sched_unlink_from_parent t s).
Proof.
  unfold sched_unlink_from_parent. destruct (_ || _); [apply quiet_refl|].
  eapply quiet_then; [by apply quiet_field|]. apply quiet_unlink_child.
Qed.

Lemma quiet_destroy t b1 b2 b3 s : quiet s (sched_destroy_task_resources t b1 b2 b3 s).
Proof.
  assert (forall s, quiet s (release_address_space t s)) as H1.
  { intros s0. unfold release_address_space. destruct (_ =? 0); [apply quiet_emit|].
    eapply quiet_then; [by apply quiet_field|]. eapply quiet_then; apply quiet_emit. }
  assert (forall s, quiet s (release_fds t s)) as H2.
  { intros s0. unfold release_fds. eapply quiet_then; [by apply quiet_field|]. apply quiet_emit. }
  assert (forall s, quiet s (release_stack t s) /\ quiet s (release_fpu t s) /\ quiet s (release_node t s)) as H3.
  { intros s0. unfold release_stack, release_fpu, release_node. split_and!; case_bool; try apply quiet_refl;
      (eapply quiet_then; [by apply quiet_field|]; apply quiet_emit). }
  unfold sched_destroy_task_resources. destruct (t =? 0); [apply quiet_refl|].
  destruct b3; [eapply quiet_then; [apply quiet_emit|]|];
    (eapply quiet_then; [apply H3|]; eapply quiet_then; [apply H3|]; eapply quiet_then; [apply H3|]);
    (destruct b2; [eapply quiet_then; [apply H2|]|]); destruct b1; auto using quiet_refl.
Qed.

Lemma quiet_reap_detached t s : quiet s (sched_reap_detached_dead_task t s).
Proof.
  unfold sched_reap_detached_dead_task.
  destruct ((t =? 0) || (t =? pc_current s) || sched_task_is_active t s || sched_task_in_runqueue t s) eqn:E;
    [apply quiet_queue_reap|].
  rewrite !orb_false_iff, !Z.eqb_neq in E. destruct E as [[[H0 Hc] Ha] Hq]. cbv zeta.
  pose proof (quiet_unlink t s) as Q1. set (s1 := sched_unlink_from_parent t s) in *. clearbody s1.
  pose proof (quiet_trans _ _ _ Q1 (quiet_drop t s1)) as Q2.
  set (s2 := sched_drop_task_count t s1) in *. clearbody s2.
  set (s3 := upd_task t _ s2). assert (quiet s s3) as Q3.
  { apply (quiet_trans _ _ _ Q2). apply quiet_other; [done| |].
    - by rewrite (qt_cur _ _ Q2).
    - by rewrite (in_runqueue_same t s s2 (qt_rq _ _ Q2)). }
  clearbody s3. eapply quiet_then; [apply quiet_destroy|].
  apply (quiet_trans _ _ _ Q3). by apply quiet_rest.
Qed.

Lemma quiet_reap_list fuel l s : quiet s (reap_list fuel l s).
Proof.
  revert l s. induction fuel as [|fuel IH]; intros l s; cbn [reap_list]; [apply quiet_refl|].
  destruct (l =? 0); [apply quiet_refl|]. eapply quiet_then; [apply IH|].
  set (s1 := upd_task l _ s). assert (quiet s s1) as Q1 by (by apply quiet_field). clearbody s1.
  eapply quiet_then; [|exact Q1].
  destruct (sched_task_is_active l s1); [apply quiet_queue_reap|apply quiet_reap_detached].
Qed.

Lemma quiet_reap_deferred fuel s : quiet s (sched_reap_deferred_dead_tasks fuel s).
Proof.
  unfold sched_reap_deferred_dead_tasks. eapply quiet_then; [apply quiet_reap_list|]. apply quiet_set_reap_head.
Qed.

Lemma quiet_reap_fold l s : quiet s (fold_left (fun s t => sched_reap_detached_dead_task t s) l s).
Proof.
  revert s. induction l as [|t l IH]; intros s; cbn [fold_left]; [apply quiet_refl|].
  eapply quiet_then; [apply IH|]. apply quiet_reap_detached.
Qed.

(** ** Yielding *)

(** Same tasks on the processor, with the same states and virtual runtimes. *)
Record same_tasks (s s' : sched) : Prop := {
  sm_cur : pc_current s' = pc_current s;
  sm_vrt : forall t, vrt s' t = vrt s t;
  sm_state : forall t, t_state (tasks s' t) = t_state (tasks s t)
}.

Lemma same_tasks_trans s1 s2 s3 : same_tasks s1 s2 -> same_tasks s2 s3 -> same_tasks s1 s3.
Proof. intros [A1 B1 C1] [A2 B2 C2]. split; intros; congruence. Qed.

Lemma pick_same cpu s : 0 <= rq_count (per_cpu_rq s cpu) <= RQ_SLOTS -> same_tasks s (snd (rq_pick_next cpu s)).
Proof.
  intros Hb. pose proof (rq_pick_spec cpu s Hb) as H. destruct (rq_pick_next cpu s) as [t s'].
  destruct H as (_ & _ & _ & _ & E). cbn [snd]. split; [by rewrite E|intros u; unfold vrt; by rewrite E..].
Qed.

Lemma queue_reap_same t s : same_tasks s (sched_queue_deferred_reap t s) /\
  per_cpu_rq (sched_queue_deferred_reap t s) = per_cpu_rq s.
Proof.
  unfold sched_queue_deferred_reap. destruct (_ || _); [by split|]. split; [|done].
  split; [done|intros u; unfold vrt; cbn; unfold upd; destruct (Z.eqb_spec u t) as [->|]; cbn; rewrite ?Z.eqb_refl; done..].
Qed.

(** The loop that skips dead tasks stops at the first task that is not dead. *)
Lemma skip_dead_ok fuel n0 acc s dead next rest :
  0 <= rq_count (per_cpu_rq s 0) <= RQ_SLOTS -> n0 :: queued s 0 = dead ++ next :: rest ->
  Forall (fun t => t <> 0 /\ t_state (tasks s t) = TASK_DEAD) dead -> next <> 0 ->
  t_state (tasks s next) <> TASK_DEAD -> (length dead < fuel)%nat ->
  exists acc' s', skip_dead fuel n0 acc s = (next, acc', s') /\ same_tasks s s' /\ queued s' 0 = rest /\
    0 <= rq_count (per_cpu_rq s' 0) <= rq_count (per_cpu_rq s 0).
Proof.
  revert n0 acc s dead. induction fuel as [|fuel IH]; intros n0 acc s dead Hb Hq Hd Hn Hl Hf; [lia|].
  cbn [skip_dead]. destruct dead as [|d dead].
  { cbn in Hq. injection Hq as -> Hq. rewrite (proj2 (Z.eqb_neq _ _) Hn), bool_decide_eq_false_2 by done.
    exists acc, s. split_and!; [done|by split|done|lia..]. }
  cbn in Hq. injection Hq as -> Hq. inversion Hd as [|? ? [Hd0 Hds] Hd']; subst.
  rewrite (proj2 (Z.eqb_neq _ _) Hd0), bool_decide_eq_true_2 by done. cbn [orb negb].
  assert (forall acc' s1, same_tasks s s1 -> per_cpu_rq s1 = per_cpu_rq s ->
    exists acc'' s', (let '(next0, s2) := rq_pick_next 0 s1 in skip_dead fuel next0 acc' s2) = (next, acc'', s') /\
      same_tasks s s' /\ queued s' 0 = rest /\ 0 <= rq_count (per_cpu_rq s' 0) <= rq_count (per_cpu_rq s 0)) as Hgo.
  { intros acc' s1 S1 E1. assert (0 <= rq_count (per_cpu_rq s1 0) <= RQ_SLOTS) as Hb1 by (by rewrite E1).
    pose proof (rq_pick_spec 0 s1 Hb1) as Hp. pose proof (pick_same 0 s1 Hb1) as S2.
    assert (queued s1 0 = queued s 0) as Eq1 by (unfold queued; by rewrite E1).
    destruct (rq_pick_next 0 s1) as [m s2]. cbn [snd] in S2. destruct Hp as (Hm & Hq2 & Hc2 & _).
    rewrite Eq1 in Hm, Hq2. rewrite E1 in Hc2.
    pose proof (same_tasks_trans _ _ _ S1 S2) as S3.
    destruct (IH m acc' s2 dead) as (acc'' & s' & E' & S' & Q' & C').
    - lia.
    - rewrite Hq2, Hm, Hq. by destruct dead.
    - revert Hd'. apply List.Forall_impl. intros t [? ?]. split; [done|]. by rewrite (sm_state _ _ S3).
    - done.
    - by rewrite (sm_state _ _ S3).
    - cbn in Hf. lia.
    - exists acc'', s'. split_and!; auto; [by eapply same_tasks_trans|lia..]. }
  destruct (reap_queued (tasks s d)); [by apply Hgo|].
  destruct (Z.of_nat (length acc) <? 16); [by apply Hgo|].
  destruct (queue_reap_same d s). by apply Hgo.
Qed.

Lemma switch_to_view next s :
  pc_current (switch_to next s) = next /\ t_state (tasks (switch_to next s) next) = TASK_RUNNING /\
  per_cpu_rq (switch_to next s) = per_cpu_rq s /\ (forall t, vrt (switch_to next s) t = vrt s t).
Proof.
  unfold switch_to. split_and!; auto.
  - cbn. by rewrite upd_eq.
  - intros t. unfold vrt. cbn. unfold upd. by destruct (Z.eqb_spec t next) as [->|].
Qed.

Lemma quiet_rq_ok s s' cpu : quiet s s' -> rq_ok s cpu -> rq_ok s' cpu.
Proof.
  intros Q [Hb Hs]. split; unfold queued; rewrite (qt_rq _ _ Q); [done|].
  by apply (ordered_ext (vrt s)); [intros t; apply (qt_vrt _ _ Q)|].
Qed.

Lemma same_rq_ok s s' l : same_tasks s s' -> 0 <= rq_count (per_cpu_rq s' 0) <= RQ_SLOTS ->
  queued s' 0 = l -> ordered (vrt s) l -> rq_ok s' 0.
Proof.
  intros S Hb Hq Ho. split; [done|]. rewrite Hq. by apply (ordered_ext (vrt s)); [apply S|].
Qed.

Lemma in_runqueue_queued t s : t <> 0 -> In t (queued s 0) -> sched_task_in_runqueue t s = true.
Proof.
  intros H0 Hin. unfold sched_task_in_runqueue. rewrite (proj2 (Z.eqb_neq _ _) H0).
  apply existsb_exists. exists 0. split; [by left|]. unfold rq_has. apply existsb_exists.
  unfold queued, slots in Hin. apply in_map_iff in Hin as (i & E & Hi). exists i. by rewrite E, Z.eqb_refl.
Qed.

(** The task that a yield puts back, and the queue it leaves. *)
Definition runs (s : sched) (t : Z) : bool := negb (t =? 0) && bool_decide (t_state (tasks s t) = TASK_RUNNING).
Definition requeue (s : sched) (rest : list Z) : list Z :=
  if runs s (pc_current s) then insert_before (vrt s) (pc_current s) rest else rest.

Lemma ordered_app vr l1 l2 : ordered vr (l1 ++ l2) -> ordered vr l2.
Proof. induction l1 as [|x l1 IH]; [done|]. intros H. inversion H; auto. Qed.

Lemma insert_before_ext vr vr' t l : (forall x, vr' x = vr x) -> insert_before vr' t l = insert_before vr t l.
Proof. intros E. induction l as [|x l IH]; cbn; [done|]. rewrite !E. by destruct (_ <? _); [f_equal|]. Qed.

(** Putting the running task back. *)
Lemma insert_running s s0 t f rest :
  rq_ok s 0 -> rq_count (per_cpu_rq s 0) < RQ_SLOTS -> queued s 0 = rest -> (forall u, vrt s u = vrt s0 u) ->
  (forall k, vruntime (f k) = vruntime k) ->
  let s' := rq_insert 0 t (upd_task t f s) in
  queued s' 0 = insert_before (vrt s0) t rest /\ rq_ok s' 0 /\ forall u, vrt s' u = vrt s0 u.
Proof.
  intros R Hroom Hq Hv Hf. set (s1 := upd_task t f s).
  assert (forall u, vrt s1 u = vrt s0 u) as Hv1.
  { intros u. rewrite <- Hv. unfold vrt, s1. cbn. unfold upd. by destruct (Z.eqb_spec u t) as [->|]. }
  assert (queued s1 0 = rest) as Hq1 by done.
  assert (rq_ok s1 0) as R1.
  { split; [apply R|]. rewrite Hq1, <- Hq. apply (ordered_ext (vrt s)); [|apply R].
    intros u. by rewrite Hv1, Hv. }
  assert (rq_count (per_cpu_rq s1 0) < RQ_SLOTS) as Hroom1 by done. clearbody s1. cbv zeta.
  destruct (rq_insert_queue 0 t s1 R1 Hroom1) as (E & _ & _).
  destruct (rq_insert_frame 0 t s1) as (Hv2 & _).
  split_and!; [|by apply rq_insert_ok|intros u; by rewrite Hv2].
  rewrite E, Hq1. by apply insert_before_ext.
Qed.

Lemma yield_ok fuel s dead next rest :
  sched_enabled s = true -> rq_ok s 0 -> queued s 0 = dead ++ next :: rest ->
  Forall (fun t => t <> 0 /\ t_state (tasks s t) = TASK_DEAD) dead -> next <> 0 ->
  t_state (tasks s next) <> TASK_DEAD ->
  let s' := sched_yield fuel s in
  pc_current s' = next /\ t_state (tasks s' next) = TASK_RUNNING /\ queued s' 0 = requeue s rest /\
  rq_ok s' 0 /\ Forall (fun t => vrt s next <= vrt s t) rest.
Proof.
  intros Hen R Hq Hd Hn Hl. unfold sched_yield. rewrite Hen. cbn [negb].
  pose proof (quiet_reap_deferred fuel s) as Q1.
  set (s1 := sched_reap_deferred_dead_tasks fuel s) in *. clearbody s1. cbv zeta.
  pose proof (quiet_rq_ok s s1 0 Q1 R) as R1. pose proof (rq_bound _ _ R1) as Hb1.
  assert (queued s1 0 = queued s 0) as Eq1 by (unfold queued; by rewrite (qt_rq _ _ Q1)).
  assert (forall t, t <> 0 -> In t (queued s 0) -> t_state (tasks s1 t) = t_state (tasks s t)) as Hst.
  { intros t H0 Hin. apply (qt_state _ _ Q1). right. by apply in_runqueue_queued. }
  pose proof (rq_pick_spec 0 s1 Hb1) as Hp. pose proof (pick_same 0 s1 Hb1) as S2.
  destruct (rq_pick_next 0 s1) as [m s2]. cbn [snd] in S2. destruct Hp as (Hm & Hq2 & Hc2 & _).
  rewrite Eq1 in Hm, Hq2.
  assert (Z.of_nat (length (queued s 0)) = rq_count (per_cpu_rq s1 0)) as Hlen.
  { rewrite <- Eq1. unfold queued, slots. rewrite length_map, length_seqZ. lia. }
  destruct (skip_dead_ok (S (Z.to_nat (rq_count (per_cpu_rq s2 0)))) m [] s2 dead next rest)
    as (dl & s3 & -> & S3 & Hq3 & Hc3); auto.
  { lia. }
  { rewrite Hq2, Hm, Hq. by destruct dead. }
  { apply List.Forall_forall. intros t Ht. rewrite List.Forall_forall in Hd. destruct (Hd t Ht) as [H0 Hs].
    split; [done|]. rewrite (sm_state _ _ S2), Hst; auto. rewrite Hq. apply in_or_app. by left. }
  { rewrite (sm_state _ _ S2), Hst; auto. rewrite Hq. apply in_or_app. right. by left. }
  { rewrite Hq, length_app in Hlen. cbn in Hlen. lia. }
  rewrite (proj2 (Z.eqb_neq _ _) Hn).
  pose proof (same_tasks_trans _ _ _ S2 S3) as S13.
  assert (forall t, vrt s3 t = vrt s t) as Hv3.
  { intros t. rewrite (sm_vrt _ _ S13). apply (qt_vrt _ _ Q1). }
  assert (ordered (vrt s) (next :: rest)) as Ho.
  { apply (ordered_app _ dead). rewrite <- Hq. apply R. }
  apply StronglySorted_inv in Ho as [Ho' Hmin].
  assert (rq_ok s3 0) as R3.
  { split; [lia|]. rewrite Hq3. by apply (ordered_ext (vrt s)). }
  assert (rq_count (per_cpu_rq s3 0) < RQ_SLOTS) as Hroom.
  { rewrite Hq, length_app in Hlen. cbn in Hlen. lia. }
  assert (runs s3 (pc_current s1) = runs s (pc_current s)) as Hr.
  { unfold runs. rewrite (qt_cur _ _ Q1), (sm_state _ _ S13). by rewrite (qt_state _ _ Q1) by auto. }
  fold (runs s3 (pc_current s1)). rewrite Hr.
  match goal with |- context [fold_left _ dl ?x] => set (s4 := x) end.
  assert (queued s4 0 = requeue s rest /\ rq_ok s4 0 /\ forall t, vrt s4 t = vrt s t) as (Hq4 & R4 & Hv4).
  { unfold s4, requeue. rewrite (qt_cur _ _ Q1). destruct (runs s (pc_current s)); [|done].
    apply insert_running; auto. }
  clearbody s4. pose proof (quiet_reap_fold dl s4) as Q5.
  set (s5 := fold_left _ dl s4) in *. clearbody s5.
  destruct (switch_to_view next s5) as (V1 & V2 & V3 & V4). split_and!; auto.
  - unfold queued. by rewrite V3, (qt_rq _ _ Q5).
  - pose proof (quiet_rq_ok _ _ _ Q5 R4) as [B5 O5]. split; unfold queued; rewrite V3; [done|].
    by apply (ordered_ext (vrt s5)).
Qed.

(** ** The sleep list *)

(** The list linked through [wait_next] from [h] up to the pointer [e]. *)
Fixpoint seg (s : sched) (h : Z) (l : list Z) (e : Z) : Prop :=
  match l with
  | [] => h = e
  | t :: l' => h = t /\ t <> 0 /\ seg s (wait_next (tasks s t)) l' e
  end.

Lemma seg_app s h l1 l2 e : seg s h (l1 ++ l2) e <-> exists m, seg s h l1 m /\ seg s m l2 e.
Proof.
  revert h. induction l1 as [|t l1 IH]; intros h; cbn.
  - split; [eauto|]. by intros (m & -> & ?).
  - rewrite IH. split.
    + intros (-> & H0 & m & H1 & H2). eauto.
    + intros (m & (-> & H0 & H1) & H2). eauto.
Qed.

Lemma seg_frame s s' h l e :
  (forall t, In t l -> wait_next (tasks s' t) = wait_next (tasks s t)) -> seg s h l e -> seg s' h l e.
Proof.
  revert h. induction l as [|t l IH]; intros h Hw; cbn; [done|]. intros (-> & H0 & Hs).
  split_and!; auto. rewrite Hw by (by left). apply IH; auto. intros u Hu. apply Hw. by right.
Qed.

Lemma pick_cpu_boot t s : sched_pick_cpu_for_task SCHED_CPUS t s = 0.
Proof.
  unfold sched_pick_cpu_for_task. cbn [SCHED_CPUS Z.eqb]. change (Z.to_nat _) with 1%nat. cbn [for_loop].
  unfold pick_step. repeat case_bool; done.
Qed.

Lemma unblock_spec t s :
  let s' := sched_unblock t s in
  (forall u, u <> t -> tasks s' u = tasks s u) /\
  (forall u, wait_next (tasks s' u) = wait_next (tasks s u)) /\
  (forall u, vrt s' u = vrt s u) /\ sleep_head s' = sleep_head s /\
  (rq_ok s 0 -> rq_count (per_cpu_rq s 0) < RQ_SLOTS -> t_state (tasks s t) = TASK_BLOCKED ->
   rq_ok s' 0 /\ queued s' 0 = insert_before (vrt s) t (queued s 0) /\
   rq_count (per_cpu_rq s' 0) = rq_count (per_cpu_rq s 0) + 1 /\ t_state (tasks s' t) = TASK_READY).
Proof.
  cbv zeta. unfold sched_unblock. rewrite pick_cpu_boot. set (s1 := upd_task t _ s).
  assert (forall u, u <> t -> tasks s1 u = tasks s u) as Ho by (intros; by apply upd_task_other).
  assert (forall u, wait_next (tasks s1 u) = wait_next (tasks s u) /\ vrt s1 u = vrt s u /\
                    t_state (tasks s1 u) = t_state (tasks s u)) as Hu.
  { intros u. unfold vrt. destruct (decide (u = t)) as [->|]; [|by rewrite Ho].
    unfold s1. by rewrite upd_task_self. }
  assert (sleep_head s1 = sleep_head s /\ per_cpu_rq s1 = per_cpu_rq s) as [Hh Hr] by done. clearbody s1.
  assert (forall u, wait_next (tasks (rq_insert 0 t s1) u) = wait_next (tasks s1 u)) as Hw.
  { intros u. unfold rq_insert. cbv zeta. case_bool; [done|].
    set (s2 := upd_task t _ s1). change (tasks (set_rq _ _ s2)) with (tasks s2).
    destruct (decide (u = t)) as [->|]; unfold s2; [by rewrite upd_task_self|by rewrite upd_task_other]. }
  destruct (rq_insert_frame 0 t s1) as (Iv & Io & _ & Ir).
  assert (sleep_head (rq_insert 0 t s1) = sleep_head s1) as Hsl by (by rewrite Ir).
  assert (rq_ok s 0 -> rq_ok s1 0) as Hok.
  { intros [B O]. split; unfold queued; rewrite Hr; [done|]. by apply (ordered_ext (vrt s)); [apply Hu|]. }
  assert (queued s1 0 = queued s 0) as Hq by (unfold queued; by rewrite Hr).
  destruct (Hu t) as (_ & _ & Hst).
  assert (forall x, x = s1 \/ x = rq_insert 0 t s1 ->
    (forall u, u <> t -> tasks x u = tasks s u) /\ (forall u, wait_next (tasks x u) = wait_next (tasks s u)) /\
    (forall u, vrt x u = vrt s u) /\ sleep_head x = sleep_head s) as Hx.
  { intros x [->| ->]; split_and!; intros; rewrite ?Hsl, ?Hw, ?Iv, ?Io by done; auto; apply Hu. }
  destruct (t_state (tasks s1 t)) eqn:E; (split_and!; [apply Hx; auto..|]); intros R Hroom HB; try congruence.
  rewrite <- Hr in Hroom. destruct (rq_insert_queue 0 t s1 (Hok R) Hroom) as (Eq & Ec & Es).
  split_and!; [apply rq_insert_ok; auto| |by rewrite Ec, Hr|done].
  rewrite Eq, Hq. apply insert_before_ext. intros; apply Hu.
Qed.

(** Equal except for the link. *)
Definition relinked (k k' : task_t) : Prop := k' = k <| wait_next := wait_next k' |>.

Lemma relinked_refl k : relinked k k.
Proof. unfold relinked. by destruct k. Qed.

Lemma relinked_trans k1 k2 k3 : relinked k1 k2 -> relinked k2 k3 -> relinked k1 k3.
Proof. unfold relinked. intros E1 E2. rewrite E2 at 1. rewrite E1. done. Qed.

Lemma relink_upd s0 t x s u : tasks s = tasks s0 ->
  relinked (tasks s0 u) (tasks (upd_task t (fun k => k <| wait_next := x |>) s) u).
Proof.
  intros <-. destruct (decide (u = t)) as [->|]; [by rewrite upd_task_self|].
  rewrite upd_task_other by done. apply relinked_refl.
Qed.

Definition due (now : Z) (s : sched) (t : Z) : bool := wakeup_tick (tasks s t) <=? now.

(** Taking the task [t] after the segment [k] out of the list, as the scan does. *)
Definition unlink (prev t next : Z) (s : sched) : sched :=
  upd_task t (fun k => k <| wait_next := 0 |>)
    (if prev =? 0 then s <| sleep_head := next |> else upd_task prev (fun k => k <| wait_next := next |>) s).

Lemma unlink_ok k t l s :
  seg s (sleep_head s) k t -> seg s t (t :: l) 0 -> NoDup (k ++ t :: l) ->
  let next := wait_next (tasks s t) in
  let s' := unlink (List.last k 0) t next s in
  seg s' (sleep_head s') k next /\ seg s' next l 0 /\ wait_next (tasks s' t) = 0 /\
  (forall u, relinked (tasks s u) (tasks s' u)) /\ per_cpu_rq s' = per_cpu_rq s.
Proof.
  intros Hk [_ [H0 Hl]] Hnd. cbv zeta. set (next := wait_next (tasks s t)) in *.
  apply list.NoDup_app in Hnd as (Hndk & Hdis & Hndl). apply list.NoDup_cons in Hndl as [Htl Hndl].
  assert (~ In t k) as Htk by (intros Hin; apply (Hdis t); [by apply list_elem_of_In|left]).
  unfold unlink. destruct k as [|p k0] using rev_ind.
  - cbn [List.last Z.eqb]. split_and!; [done| |by rewrite upd_task_self|intros u; by apply (relink_upd s)|done].
    apply (seg_frame s); [|done]. intros u Hu. rewrite upd_task_other; [done|].
    intros ->. by apply Htl, list_elem_of_In.
  - rewrite last_last. apply seg_app in Hk as (m & Hk & -> & Hp0 & Hpn). cbn in Hpn.
    rewrite (proj2 (Z.eqb_neq _ _) Hp0). apply list.NoDup_app in Hndk as (_ & Hpk & _).
    assert (p <> t) as Hpt by (intros ->; apply Htk, in_or_app; right; by left).
    assert (~ In p k0) as Hpk0 by (intros Hin; apply (Hpk p); [by apply list_elem_of_In|left]).
    set (s1 := upd_task p _ s). split_and!.
    + apply seg_app. exists p. split.
      * apply (seg_frame s); [|done]. intros u Hu. unfold s1. rewrite !upd_task_other; [done| |].
        -- intros ->. done.
        -- intros ->. apply Htk, in_or_app. by left.
      * cbn [seg]. split_and!; auto. rewrite upd_task_other by done. unfold s1. by rewrite upd_task_self.
    + apply (seg_frame s); [|done]. intros u Hu. unfold s1. rewrite !upd_task_other; [done| |].
      * intros ->. apply (Hdis p); [apply list_elem_of_In, in_or_app; right; by left|right; by apply list_elem_of_In].
      * intros ->. by apply Htl, list_elem_of_In.
    + by rewrite upd_task_self.
    + intros u. apply (relinked_trans _ (tasks s1 u)); by apply relink_upd.
    + done.
Qed.

Lemma due_relinked now s s' t : relinked (tasks s t) (tasks s' t) -> due now s' t = due now s t.
Proof. unfold due. intros ->. done. Qed.

(** What the scan of the sleep list achieves on the tasks of [l]. *)
Record woken (now : Z) (k l : list Z) (s s' : sched) : Prop := {
  wk_list : seg s' (sleep_head s') (k ++ List.filter (fun t => negb (due now s t)) l) 0;
  wk_out : forall u, ~ In u (k ++ l) -> tasks s' u = tasks s u;
  wk_other : forall u, ~ In u (List.filter (due now s) l) -> relinked (tasks s u) (tasks s' u);
  wk_due : forall u, In u (List.filter (due now s) l) -> wait_next (tasks s' u) = 0;
  wk_queue : rq_ok s 0 ->
    rq_count (per_cpu_rq s 0) + Z.of_nat (length (List.filter (due now s) l)) <= RQ_SLOTS ->
    (forall u, In u (List.filter (due now s) l) -> t_state (tasks s u) = TASK_BLOCKED) ->
    rq_ok s' 0 /\ queued s' 0 ≡ₚ List.filter (due now s) l ++ queued s 0 /\
    forall u, In u (List.filter (due now s) l) -> t_state (tasks s' u) = TASK_READY
}.

Lemma filter_due_ext now s s' l :
  (forall t, In t l -> due now s' t = due now s t) ->
  List.filter (due now s') l = List.filter (due now s) l /\
  List.filter (fun t => negb (due now s' t)) l = List.filter (fun t => negb (due now s t)) l.
Proof. intros H. split; apply filter_ext_in; intros t Ht; by rewrite H. Qed.

(** The run queue through one wake-up followed by those of [exp]. *)
Lemma queue_step t s s1 s2 exp s' :
  ~ In t exp -> (forall u, relinked (tasks s u) (tasks s1 u)) -> per_cpu_rq s1 = per_cpu_rq s ->
  (forall u, u <> t -> tasks s2 u = tasks s1 u) ->
  (rq_ok s1 0 -> rq_count (per_cpu_rq s1 0) < RQ_SLOTS -> t_state (tasks s1 t) = TASK_BLOCKED ->
   rq_ok s2 0 /\ queued s2 0 = insert_before (vrt s1) t (queued s1 0) /\
   rq_count (per_cpu_rq s2 0) = rq_count (per_cpu_rq s1 0) + 1 /\ t_state (tasks s2 t) = TASK_READY) ->
  relinked (tasks s2 t) (tasks s' t) ->
  (rq_ok s2 0 -> rq_count (per_cpu_rq s2 0) + Z.of_nat (length exp) <= RQ_SLOTS ->
   (forall u, In u exp -> t_state (tasks s2 u) = TASK_BLOCKED) ->
   rq_ok s' 0 /\ queued s' 0 ≡ₚ exp ++ queued s2 0 /\ forall u, In u exp -> t_state (tasks s' u) = TASK_READY) ->
  rq_ok s 0 -> rq_count (per_cpu_rq s 0) + Z.of_nat (S (length exp)) <= RQ_SLOTS ->
  (forall u, t = u \/ In u exp -> t_state (tasks s u) = TASK_BLOCKED) ->
  rq_ok s' 0 /\ queued s' 0 ≡ₚ t :: exp ++ queued s 0 /\
  forall u, t = u \/ In u exp -> t_state (tasks s' u) = TASK_READY.
Proof.
  intros Hnot Hrel Hrq Hs2 Hstep Hrt Hrest R Hroom HB.
  assert (forall u, t_state (tasks s1 u) = t_state (tasks s u)) as Hst by (intros u; by rewrite Hrel).
  assert (rq_ok s1 0) as R1.
  { destruct R as [B O]. split; unfold queued; rewrite Hrq; [done|].
    apply (ordered_ext (vrt s)); [|done]. intros u. unfold vrt. by rewrite Hrel. }
  destruct Hstep as (R2 & Q2 & C2 & T2); [done|rewrite Hrq; lia|rewrite Hst; auto|].
  rewrite Hrq in C2. destruct Hrest as (R3 & Q3 & T3); [done|lia| |].
  - intros u Hu. rewrite Hs2 by (intros ->; done). rewrite Hst. auto.
  - split_and!; [done| |].
    + rewrite Q3, Q2, insert_before_perm. unfold queued. rewrite Hrq. apply Permutation_sym, Permutation_middle.
    + intros u [<-|Hu]; [by rewrite Hrt|auto].
Qed.

Lemma unlink_other k t next s u :
  ~ In u k -> u <> t -> tasks (unlink (List.last k 0) t next s) u = tasks s u.
Proof.
  intros Hk Ht. unfold unlink. rewrite upd_task_other by done. case_bool; [done|]. apply upd_task_other.
  intros ->. apply Hk. destruct k as [|x k] using rev_ind; [done|].
  rewrite last_last. apply in_or_app. right. by left.
Qed.

Lemma wake_ok fuel now k l t0 s :
  seg s (sleep_head s) k t0 -> seg s t0 l 0 -> NoDup (k ++ l) -> (length l <= fuel)%nat ->
  woken now k l s (wake_sleepers fuel now (List.last k 0) t0 s).
Proof.
  revert k t0 s fuel. induction l as [|t l IH]; intros k t0 s fuel Hk Hl Hnd Hf.
  { cbn in Hl. subst t0. assert (wake_sleepers fuel now (List.last k 0) 0 s = s) as -> by (by destruct fuel).
    split; cbn; try done; [by rewrite app_nil_r|intros; apply relinked_refl]. }
  destruct fuel as [|fuel]; [cbn in Hf; lia|]. destruct Hl as [-> [H0 Hl]]. cbn [wake_sleepers].
  rewrite (proj2 (Z.eqb_neq _ _) H0). fold (due now s t). destruct (due now s t) eqn:Hdue.
  - destruct (unlink_ok k t l s Hk (conj eq_refl (conj H0 Hl)) Hnd) as (U1 & U2 & U3 & U4 & U5).
    match goal with |- woken _ _ _ _ (wake_sleepers _ _ _ _ (sched_unblock _ ?x)) =>
      change x with (unlink (List.last k 0) t (wait_next (tasks s t)) s) end.
    set (next := wait_next (tasks s t)) in *.
    assert (forall u, ~ In u k -> u <> t -> tasks (unlink (List.last k 0) t next s) u = tasks s u) as U6
      by (intros; by apply unlink_other).
    set (s1 := unlink _ t next s) in *. clearbody s1.
    destruct (unblock_spec t s1) as (B1 & B2 & B3 & B4 & B5). set (s2 := sched_unblock t s1) in *. clearbody s2.
    assert (NoDup (k ++ l)) as Hnd' by (eapply sublist_NoDup; [exact Hnd|]; by apply sublist_app; [|constructor]).
    assert (~ In t l) as Htl.
    { apply list.NoDup_app in Hnd as (_ & _ & [Hx _]%list.NoDup_cons). by rewrite <- list_elem_of_In. }
    assert (~ In t k) as Htk.
    { apply list.NoDup_app in Hnd as (_ & Hx & _). intros Hin. apply (Hx t); [by apply list_elem_of_In|left]. }
    destruct (IH k next s2 fuel) as [W1 W0 W2 W3 W4]; auto.
    { rewrite B4. by apply (seg_frame s1). }
    { by apply (seg_frame s1). }
    { cbn in Hf. lia. }
    assert (forall u, u <> t -> relinked (tasks s u) (tasks s2 u)) as Hrel by (intros u Hu; rewrite B1 by done; apply U4).
    destruct (filter_due_ext now s s2 l) as [F1 F2].
    { intros u Hu. apply due_relinked, Hrel. intros ->. done. }
    set (s' := wake_sleepers fuel now (List.last k 0) next s2) in *. clearbody s'. rewrite F1, F2 in *.
    assert (~ In t (List.filter (due now s) l)) as Htf by (rewrite filter_In; tauto).
    split; cbn [List.filter]; rewrite ?Hdue; cbn [negb].
    + exact W1.
    + intros u Hu. rewrite in_app_iff in Hu. cbn in Hu.
      rewrite W0 by (rewrite in_app_iff; tauto). rewrite B1 by (intros ->; tauto). apply U6; [tauto|intros ->; tauto].
    + intros u Hu. apply (relinked_trans _ (tasks s2 u)).
      * apply Hrel. intros ->. apply Hu. by left.
      * apply W2. intros Hin. apply Hu. by right.
    + intros u [<-|Hu]; [|auto]. rewrite W0 by (rewrite in_app_iff; tauto). by rewrite B2.
    + intros R Hroom HB. cbn [length] in Hroom. apply (queue_step t s s1 s2 _ s' Htf); auto.
  - specialize (IH (k ++ [t]) (wait_next (tasks s t)) s fuel).
    rewrite last_last in IH. destruct IH as [W1 W0 W2 W3 W4].
    + apply seg_app. exists t. split; [done|]. by cbn.
    + done.
    + by rewrite <- app_assoc.
    + cbn in Hf. lia.
    + rewrite <- app_assoc in W1, W0. split; cbn [List.filter]; rewrite ?Hdue; cbn [negb]; auto.
Qed.

End SchedProps.
