(* ===== verification/SchedClaims.v ===== *)
(** * What the scheduler guarantees (src/src/sched/sched.c)

    Statements over the operations of Sched: the run queue is a stable sorted
    list, yielding runs the task with the least virtual runtime and loses
    nobody, the tick wakes exactly the sleepers whose time has come, the
    deferred reaper frees exactly the tasks nothing refers to, exit codes reach
    waitpid, and slices stay within the configured granularities. *)

From S2P Require Import Prelude Sched SchedProps.
Import Sched SchedProps.

Module SchedClaims.

(** ** Reaping *)

(** Some processor or queue still refers to the task. *)
Definition busy (s : sched) (t : Z) : bool :=
  (t =? pc_current s) || sched_task_is_active t s || sched_task_in_runqueue t s.

Fixpoint freed (l : list effect) : list Z :=
  match l with
  | [] => []
  | FreeTask t :: l' => t :: freed l'
  | _ :: l' => freed l'
  end.

Lemma freed_app l1 l2 : freed (l1 ++ l2) = freed l1 ++ freed l2.
Proof. induction l1 as [|e l1 IH]; [done|]. destruct e; cbn; rewrite IH; done. Qed.

(** [s'] differs from [s] only in the tasks' parent and resource fields and in
    what has been released: same links for the tasks in [keep]. *)
Record released (f : list Z) (keep : Z -> Prop) (s s' : sched) : Prop := {
  rl_freed : freed (effects s') = freed (effects s) ++ f;
  rl_head : deferred_reap_head s' = deferred_reap_head s;
  rl_busy : forall t, busy s' t = busy s t;
  rl_link : forall t, keep t -> wait_next (tasks s' t) = wait_next (tasks s t) /\
                                reap_queued (tasks s' t) = reap_queued (tasks s t)
}.

Lemma released_refl keep s : released [] keep s s.
Proof. split; try done. by rewrite app_nil_r. Qed.

Lemma released_trans f1 f2 keep s1 s2 s3 :
  released f1 keep s1 s2 -> released f2 keep s2 s3 -> released (f1 ++ f2) keep s1 s3.
Proof.
  intros [A1 B1 C1 D1] [A2 B2 C2 D2]. split.
  - by rewrite A2, A1, app_assoc.
  - congruence.
  - intros t. by rewrite C2, C1.
  - intros t Ht. destruct (D1 t Ht), (D2 t Ht). split; congruence.
Qed.

Lemma released_upd (keep : Z -> Prop) t f s :
  (forall k, wait_next (f k) = wait_next k /\ reap_queued (f k) = reap_queued k) ->
  released [] keep s (upd_task t f s).
Proof.
  intros Hf. split; try done; [by rewrite app_nil_r|]. intros u _.
  destruct (decide (u = t)) as [->|]; [by rewrite upd_task_self|by rewrite upd_task_other].
Qed.

Lemma released_emit keep e s : (forall t, e <> FreeTask t) -> released [] keep s (emit e s).
Proof. intros He. split; try done. cbn. rewrite freed_app. f_equal. destruct e; try done. by destruct (He t). Qed.

Lemma released_if (b : bool) keep s s' : released [] keep s s' -> released [] keep s (if b then s' else s).
Proof. intros H. destruct b; [done|apply released_refl]. Qed.

Lemma released_nil_trans keep s1 s2 s3 :
  released [] keep s1 s2 -> released [] keep s2 s3 -> released [] keep s1 s3.
Proof. apply released_trans. Qed.

Ltac released_step :=
  first [ apply released_refl
        | apply released_upd; intros; done
        | apply released_emit; intros; done
        | eapply released_nil_trans; [|apply released_upd; intros; done]
        | eapply released_nil_trans; [|apply released_emit; intros; done] ].

Lemma released_resources keep t a c s : t <> 0 ->
  released [t] keep s (sched_destroy_task_resources t a c true s).
Proof.
  intros H0. unfold sched_destroy_task_resources. rewrite (proj2 (Z.eqb_neq _ _) H0).
  assert (forall s, released [] keep s (release_address_space t s)) as R1.
  { intros x. unfold release_address_space. cbv zeta. case_bool; repeat released_step. }
  assert (forall s, released [] keep s (release_fds t s)) as R2.
  { intros x. unfold release_fds. repeat released_step. }
  assert (forall s, released [] keep s (release_stack t s)) as R3.
  { intros x. unfold release_stack. case_bool; repeat released_step. }
  assert (forall s, released [] keep s (release_fpu t s)) as R4.
  { intros x. unfold release_fpu. case_bool; repeat released_step. }
  assert (forall s, released [] keep s (release_node t s)) as R5.
  { intros x. unfold release_node. case_bool; repeat released_step. }
  cbv zeta. set (s1 := if a then _ else s). assert (released [] keep s s1) as H1 by (apply released_if, R1).
  clearbody s1. set (s2 := if c then _ else s1). assert (released [] keep s1 s2) as H2 by (apply released_if, R2).
  clearbody s2. set (s3 := release_node _ _).
  assert (released [] keep s s3) as [A B C D].
  { eapply released_nil_trans; [exact H1|]. eapply released_nil_trans; [exact H2|].
    eapply released_nil_trans; [apply R3|]. eapply released_nil_trans; [apply R4|]. apply R5. }
  clearbody s3. split; try done. cbn. by rewrite freed_app, A, app_nil_r.
Qed.

Lemma released_unlink keep n i p t s : released [] keep s (unlink_child n i p t s).
Proof.
  revert i. induction n as [|n IH]; intros i; cbn [unlink_child]; [apply released_refl|].
  case_bool; [apply IH|]. apply released_upd. done.
Qed.

Lemma released_drop keep t s : released [] keep s (sched_drop_task_count t s).
Proof.
  unfold sched_drop_task_count. case_bool; [apply released_refl|]. cbv zeta.
  eapply released_nil_trans; [|apply released_upd; done].
  apply released_if. split; try done. by rewrite app_nil_r.
Qed.

Lemma busy_guard t s : t <> 0 ->
  (t =? 0) || (t =? pc_current s) || sched_task_is_active t s || sched_task_in_runqueue t s = busy s t.
Proof. intros H. by rewrite (proj2 (Z.eqb_neq _ _) H). Qed.

Lemma reap_free t s : t <> 0 -> busy s t = false ->
  released [t] (fun u => u <> t) s (sched_reap_detached_dead_task t s).
Proof.
  intros H0 Hb. unfold sched_reap_detached_dead_task. rewrite busy_guard, Hb by done. cbv zeta.
  set (s1 := sched_unlink_from_parent t s).
  assert (released [] (fun u => u <> t) s s1) as H1.
  { unfold s1, sched_unlink_from_parent. case_bool; [apply released_refl|].
    eapply released_nil_trans; [apply released_unlink|]. apply released_upd. done. }
  clearbody s1. set (s2 := sched_drop_task_count t s1).
  assert (released [] (fun u => u <> t) s1 s2) as H2 by apply released_drop. clearbody s2.
  apply (released_trans [] [t] _ s s2); [by apply (released_nil_trans _ s s1)|].
  set (s3 := upd_task t _ s2).
  assert (released [] (fun u => u <> t) s2 s3) as [A B C D].
  { split; try done; [by rewrite app_nil_r|]. intros u Hu. unfold s3. by rewrite upd_task_other. }
  clearbody s3. apply (released_trans [] [t] _ s2 s3); [by split|].
  match goal with |- released _ _ _ (sched_destroy_task_resources _ _ _ _ ?x) => set (s4 := x) end.
  assert (released [] (fun u => u <> t) s3 s4) as H4 by (split; try done; by rewrite app_nil_r).
  clearbody s4. apply (released_trans [] [t] _ s3 s4); [done|]. by apply released_resources.
Qed.

(** A task that is still referred to goes back on the list. *)
Lemma reap_defer t s : t <> 0 -> reap_queued (tasks s t) = false ->
  let s' := sched_queue_deferred_reap t s in
  freed (effects s') = freed (effects s) /\ (forall u, busy s' u = busy s u) /\
  deferred_reap_head s' = t /\ wait_next (tasks s' t) = deferred_reap_head s /\
  reap_queued (tasks s' t) = true /\ forall u, u <> t -> tasks s' u = tasks s u.
Proof.
  intros H0 Hq. cbv zeta. unfold sched_queue_deferred_reap. rewrite (proj2 (Z.eqb_neq _ _) H0), Hq. cbn [orb].
  cbv zeta. set (s1 := upd_task t _ s). set (s2 := upd_task t _ s1).
  split_and!; try done; cbn [tasks].
  - change (wait_next (tasks s2 t) = deferred_reap_head s). unfold s2. by rewrite upd_task_self.
  - change (reap_queued (tasks s2 t) = true). unfold s2, s1. by rewrite upd_task_self, upd_task_self.
  - intros u Hu. change (tasks s2 u = tasks s u). unfold s2, s1. by rewrite !upd_task_other.
Qed.

(** One round of the loop, whichever branch it takes. *)
Lemma reap_round t s :
  t <> 0 ->
  let s1 := upd_task t (fun k => k <| wait_next := 0 |> <| reap_queued := false |>) s in
  let s' := if sched_task_is_active t s1 then sched_queue_deferred_reap t s1
            else sched_reap_detached_dead_task t s1 in
  freed (effects s') = freed (effects s) ++ (if busy s t then [] else [t]) /\
  (forall u, busy s' u = busy s u) /\
  (forall u, u <> t -> wait_next (tasks s' u) = wait_next (tasks s u) /\
                       reap_queued (tasks s' u) = reap_queued (tasks s u)) /\
  (if busy s t then deferred_reap_head s' = t /\ wait_next (tasks s' t) = deferred_reap_head s /\
                    reap_queued (tasks s' t) = true
   else deferred_reap_head s' = deferred_reap_head s).
Proof.
  intros H0. cbv zeta. set (s1 := upd_task t _ s).
  assert (forall u, busy s1 u = busy s u) as Hb by done.
  assert (reap_queued (tasks s1 t) = false) as Hq by (unfold s1; by rewrite upd_task_self).
  assert (forall u, u <> t -> tasks s1 u = tasks s u) as Ho by (intros; unfold s1; by rewrite upd_task_other).
  assert (freed (effects s1) = freed (effects s) /\ deferred_reap_head s1 = deferred_reap_head s) as [He Hh] by done.
  clearbody s1. destruct (busy s t) eqn:Hbusy.
  - replace (if sched_task_is_active t s1 then _ else _) with (sched_queue_deferred_reap t s1).
    + destruct (reap_defer t s1 H0 Hq) as (A & B & C & D & E & F).
      rewrite A, He, D, Hh, app_nil_r. split_and!; try done; intros u; [by rewrite B|].
      intros Hu. by rewrite F, Ho by done.
    + destruct (sched_task_is_active t s1) eqn:Ha; [done|]. unfold sched_reap_detached_dead_task.
      by rewrite busy_guard, Hb, Hbusy.
  - assert (sched_task_is_active t s1 = false) as ->.
    { rewrite <- Hb in Hbusy. unfold busy in Hbusy. apply orb_false_iff in Hbusy as [[_ ?]%orb_false_iff _]. done. }
    destruct (reap_free t s1 H0) as [A B C D]; [by rewrite Hb|].
    rewrite A, He, B, Hh. split_and!; try done; intros u; [by rewrite C|].
    intros Hu. rewrite <- (Ho u Hu). by apply D.
Qed.

(** The loop over a whole list. *)
Lemma reap_list_ok fuel l h q s :
  seg s h l 0 -> seg s (deferred_reap_head s) q 0 -> NoDup (l ++ q) -> (length l <= fuel)%nat ->
  Forall (fun t => reap_queued (tasks s t) = true) q ->
  let s' := reap_list fuel h s in
  freed (effects s') = freed (effects s) ++ List.filter (fun t => negb (busy s t)) l /\
  seg s' (deferred_reap_head s') (rev (List.filter (busy s) l) ++ q) 0 /\
  (forall u, busy s' u = busy s u) /\
  Forall (fun t => reap_queued (tasks s' t) = true) (rev (List.filter (busy s) l) ++ q).
Proof.
  revert h q s fuel. induction l as [|t l IH]; intros h q s fuel Hl Hq Hnd Hf Hrq.
  { cbn in Hl. subst h. assert (reap_list fuel 0 s = s) as -> by (by destruct fuel). cbn. by rewrite app_nil_r. }
  destruct fuel as [|fuel]; [cbn in Hf; lia|]. destruct Hl as [-> [H0 Hl]]. cbn [reap_list].
  rewrite (proj2 (Z.eqb_neq _ _) H0). cbv zeta. destruct (reap_round t s H0) as (R1 & R2 & R3 & R4).
  cbv zeta in R1, R2, R3, R4. set (s1 := if sched_task_is_active _ _ then _ else _) in *. clearbody s1.
  cbn [app] in Hnd. apply list.NoDup_cons in Hnd as [Hnot Hnd].
  assert (forall u, In u (l ++ q) -> u <> t) as Hne.
  { intros u Hu ->. by apply Hnot, list_elem_of_In. }
  assert (seg s1 (wait_next (tasks s t)) l 0) as Hl1.
  { apply (seg_frame s); [|done]. intros u Hu. apply R3, Hne, in_or_app. by left. }
  assert (forall h0, seg s h0 q 0 -> seg s1 h0 q 0) as Hq1.
  { intros h0. apply seg_frame. intros u Hu. apply R3, Hne, in_or_app. by right. }
  assert (Forall (fun u => reap_queued (tasks s1 u) = true) q) as Hrq1.
  { apply List.Forall_forall. intros u Hu. rewrite List.Forall_forall in Hrq.
    destruct (R3 u) as [_ ->]; [apply Hne, in_or_app; by right|auto]. }
  set (q1 := if busy s t then t :: q else q).
  destruct (IH (wait_next (tasks s t)) q1 s1 fuel) as (I1 & I2 & I3 & I4); auto.
  - unfold q1. destruct (busy s t); [|rewrite R4; auto]. destruct R4 as (-> & R4 & _). cbn [seg].
    split_and!; auto. rewrite R4. auto.
  - unfold q1. destruct (busy s t); [|done]. rewrite <- Permutation_middle. by apply list.NoDup_cons.
  - cbn in Hf. lia.
  - unfold q1. destruct (busy s t); [|done]. constructor; [apply R4|done].
  - rewrite (filter_ext _ (busy s)) in I2, I4 by (intros; apply R2).
    rewrite (filter_ext _ (fun x => negb (busy s x))) in I1 by (intros; by rewrite R2).
    assert (rev (List.filter (busy s) (t :: l)) ++ q = rev (List.filter (busy s) l) ++ q1) as E.
    { unfold q1. cbn [List.filter]. destruct (busy s t); [|done]. cbn [rev]. by rewrite <- app_assoc. }
    rewrite E. split_and!; auto; [|intros u; by rewrite I3].
    rewrite I1, R1. cbn [List.filter]. destruct (busy s t); cbn [negb]; [by rewrite app_nil_r|].
    by rewrite <- app_assoc.
Qed.


(** ** The tick *)

Lemma ordered_ext_in vr vr' l : (forall x, In x l -> vr' x = vr x) -> ordered vr l -> ordered vr' l.
Proof.
  intros E. unfold ordered. induction 1 as [|x l Hs IH Hall]; constructor.
  - apply IH. intros y Hy. apply E. by right.
  - apply List.Forall_forall. rewrite List.Forall_forall in Hall. intros y Hy.
    rewrite !E by (cbn; auto). by apply Hall.
Qed.

(** What the accounting part of the tick leaves alone. *)
Record accounts (cur : Z) (s s' : sched) : Prop := {
  ac_other : forall u, u <> cur -> tasks s' u = tasks s u;
  ac_rq : per_cpu_rq s' = per_cpu_rq s;
  ac_sleep : sleep_head s' = sleep_head s;
  ac_cur : pc_current s' = pc_current s;
  ac_ticks : pc_ticks s' = pc_ticks s;
  ac_sig : signal_pending (tasks s' cur) = signal_pending (tasks s cur)
}.

Lemma accounts_trans cur s1 s2 s3 : accounts cur s1 s2 -> accounts cur s2 s3 -> accounts cur s1 s3.
Proof. intros [] []. split; try congruence. intros u Hu. rewrite <- ac_other0 by done. auto. Qed.

Lemma accounts_upd cur f s :
  (forall k, signal_pending (f k) = signal_pending k) -> accounts cur s (upd_task cur f s).
Proof. intros Hf. split; try done; [intros; by apply upd_task_other|]. by rewrite upd_task_self, Hf. Qed.

Lemma tick_account_frame s : accounts (pc_current s) s (tick_account s).
Proof.
  unfold tick_account. cbv zeta. set (cur := pc_current s). set (s1 := upd_task cur _ s).
  assert (accounts cur s s1) as H1 by (by apply accounts_upd). clearbody s1.
  set (s2 := if ai_hint _ =? _ then _ else s1).
  assert (accounts cur s s2) as H2.
  { unfold s2. case_bool; [|done]. eapply accounts_trans; [done|]. by apply accounts_upd. }
  clearbody s2. eapply accounts_trans; [exact H2|]. case_bool; [done|]. case_bool; [|done].
  by apply accounts_upd.
Qed.

(** The state in which the tick scans the sleep list. *)
Definition accounted_state (s : sched) : sched := tick_account (s <| pc_ticks := u64 (pc_ticks s + 1) |>).

Lemma accounted_ok s :
  rq_ok s 0 -> ~ In (pc_current s) (queued s 0) ->
  rq_ok (accounted_state s) 0 /\ queued (accounted_state s) 0 = queued s 0.
Proof.
  intros [B O] Hn. destruct (tick_account_frame (s <| pc_ticks := u64 (pc_ticks s + 1) |>)) as [A1 A2 _ _ _ _].
  unfold accounted_state. set (s1 := tick_account _) in *. clearbody s1. cbn [pc_current per_cpu_rq tasks] in A1, A2.
  assert (per_cpu_rq s1 = per_cpu_rq s) as E by (by rewrite A2).
  assert (queued s1 0 = queued s 0) as Q by (unfold queued; by rewrite E).
  split; [|done]. split; [by rewrite E|]. rewrite Q. apply (ordered_ext_in (vrt s)); [|done].
  intros u Hu. unfold vrt. rewrite A1; [done|]. intros ->. done.
Qed.


(** The part of the state that the sleeping tasks depend on. *)
Record asleep (fuel : nat) (l : list Z) (s : sched) : Prop := {
  as_cur : pc_current s <> 0;
  as_sig : signal_pending (tasks s (pc_current s)) = 0;
  as_not : ~ In (pc_current s) l;
  as_run : ~ In (pc_current s) (queued s 0);
  as_list : seg s (sleep_head s) l 0;
  as_nodup : NoDup l;
  as_fuel : (length l <= fuel)%nat;
  as_rq : rq_ok s 0;
  as_room : rq_count (per_cpu_rq s 0) + Z.of_nat (length l) <= RQ_SLOTS;
  as_blocked : forall u, In u l -> t_state (tasks s u) = TASK_BLOCKED
}.

Lemma wake_sleepers_frame fuel now prev t s :
  pc_current (wake_sleepers fuel now prev t s) = pc_current s /\ pc_ticks (wake_sleepers fuel now prev t s) = pc_ticks s.
Proof.
  revert prev t s. induction fuel as [|fuel IH]; intros prev t s; cbn [wake_sleepers]; [done|].
  case_bool; [done|]. case_bool; [|apply IH].
  destruct (IH prev (wait_next (tasks s t)) (sched_unblock t (upd_task t (fun k => k <| wait_next := 0 |>)
    (if prev =? 0 then s <| sleep_head := wait_next (tasks s t) |>
     else upd_task prev (fun k => k <| wait_next := wait_next (tasks s t) |>) s)))) as [-> ->].
  unfold sched_unblock. set (s1 := upd_task t _ (upd_task t _ _)).
  assert (pc_current s1 = pc_current s /\ pc_ticks s1 = pc_ticks s) as [E1 E2].
  { unfold s1. destruct (prev =? 0); done. }
  assert (forall c, pc_current (rq_insert c t s1) = pc_current s1 /\ pc_ticks (rq_insert c t s1) = pc_ticks s1) as Hr.
  { intros c. destruct (rq_insert_frame c t s1) as (_ & _ & _ & Ir). split; by rewrite Ir. }
  clearbody s1. destruct (t_state (tasks s1 t)); rewrite ?(proj1 (Hr _)), ?(proj2 (Hr _)); auto.
Qed.

(** What a tick does to the sleeping tasks [l]. *)
Record ticked (l : list Z) (s s' : sched) (now : Z) : Prop := {
  tk_list : seg s' (sleep_head s') (List.filter (fun t => negb (due now s t)) l) 0;
  tk_queue : queued s' 0 ≡ₚ List.filter (due now s) l ++ queued s 0;
  tk_rq : rq_ok s' 0;
  tk_ready : forall u, In u (List.filter (due now s) l) -> t_state (tasks s' u) = TASK_READY;
  tk_cur : pc_current s' = pc_current s;
  tk_now : pc_ticks s' = now;
  tk_sig : signal_pending (tasks s' (pc_current s)) = 0;
  tk_other : forall u, u <> pc_current s -> ~ In u (List.filter (due now s) l) ->
    t_state (tasks s' u) = t_state (tasks s u) /\ wakeup_tick (tasks s' u) = wakeup_tick (tasks s u)
}.

Lemma tick_ok fuel l s :
  pc_current s <> 0 -> signal_pending (tasks s (pc_current s)) = 0 ->
  ~ In (pc_current s) l -> ~ In (pc_current s) (queued s 0) ->
  seg s (sleep_head s) l 0 -> NoDup l -> (length l <= fuel)%nat -> rq_ok s 0 ->
  let now := u64 (pc_ticks s + 1) in
  rq_count (per_cpu_rq s 0) + Z.of_nat (length (List.filter (due now s) l)) <= RQ_SLOTS ->
  (forall u, In u (List.filter (due now s) l) -> t_state (tasks s u) = TASK_BLOCKED) ->
  ticked l s (sched_tick fuel s) now.
Proof.
  intros Hc Hsig Hcl Hcq Hl Hnd Hf R now Hroom HB. cbv zeta. unfold sched_tick. cbv zeta.
  change (pc_current (s <| pc_ticks := u64 (pc_ticks s + 1) |>)) with (pc_current s).
  rewrite (proj2 (Z.eqb_neq _ _) Hc). change (tick_account _) with (accounted_state s).
  destruct (tick_account_frame (s <| pc_ticks := u64 (pc_ticks s + 1) |>)) as [A1 A2 A3 A4 A5 A6].
  change (tick_account _) with (accounted_state s) in A1, A2, A3, A4, A5, A6.
  change (pc_current (s <| pc_ticks := u64 (pc_ticks s + 1) |>)) with (pc_current s) in A1, A4, A6.
  destruct (accounted_ok s R Hcq) as [R1 Q1].
  set (s1 := accounted_state s) in *. clearbody s1.
  assert (forall u, In u l -> tasks s1 u = tasks s u) as Hs1.
  { intros u Hu. rewrite A1; [done|]. intros ->. done. }
  replace (pc_ticks s1) with now by (by rewrite A5). change (sleep_head (s <| pc_ticks := u64 (pc_ticks s + 1) |>)) with (sleep_head s) in A3.
  destruct (filter_due_ext now s s1 l) as [F1 F2].
  { intros u Hu. unfold due. by rewrite Hs1. }
  pose proof (wake_sleepers_frame fuel now 0 (sleep_head s1) s1) as [Wc Wt].
  destruct (wake_ok fuel now [] l (sleep_head s1) s1) as [W1 W0 W2 W3 W4]; auto.
  { done. } { rewrite A3. apply (seg_frame s); [|done]. intros u Hu. by rewrite Hs1. }
  cbn [List.last] in *. change (List.last [] 0) with 0 in *. set (s2 := wake_sleepers _ _ _ _ s1) in *. clearbody s2. rewrite F1, F2 in *.
  assert (signal_pending (tasks s2 (pc_current s)) = 0) as Hsig2 by (rewrite W0 by done; by rewrite A6).
  rewrite Hsig2. cbn [Z.eqb negb andb]. destruct W4 as (W4 & W5 & W6); auto.
  { by rewrite A2. }
  { intros u Hu. rewrite Hs1; [auto|]. apply filter_In in Hu. tauto. }
  set (f := fun k => _). set (s3 := upd_task _ f s2).
  assert (forall u, t_state (tasks s3 u) = t_state (tasks s2 u) /\ vrt s3 u = vrt s2 u /\
                    wait_next (tasks s3 u) = wait_next (tasks s2 u) /\ wakeup_tick (tasks s3 u) = wakeup_tick (tasks s2 u) /\
                    signal_pending (tasks s3 u) = signal_pending (tasks s2 u)) as H3.
  { intros u. unfold vrt, s3. destruct (decide (u = pc_current s)) as [->|];
      [by rewrite upd_task_self|by rewrite upd_task_other]. }
  split.
  - apply (seg_frame s2); [|done]. intros u _. apply H3.
  - rewrite <- Q1. exact W5.
  - destruct W4 as [B O]. split; [exact B|]. apply (ordered_ext (vrt s2)); [|exact O]. intros u. apply H3.
  - intros u Hu. destruct (H3 u) as (-> & _). auto.
  - change (pc_current s3) with (pc_current s2). congruence.
  - change (pc_ticks s3) with (pc_ticks s2). rewrite Wt, A5. done.
  - by destruct (H3 (pc_current s)) as (_ & _ & _ & _ & ->).
  - intros u Hu Hd. destruct (H3 u) as (-> & _ & _ & -> & _). rewrite (W2 u Hd). cbn. by rewrite A1.
Qed.

(** [n] timer ticks in a row. *)
Fixpoint ticks (n : nat) (fuel : nat) (s : sched) : sched :=
  match n with O => s | S n' => ticks n' fuel (sched_tick fuel s) end.

Lemma queued_length s cpu : 0 <= rq_count (per_cpu_rq s cpu) -> Z.of_nat (length (queued s cpu)) = rq_count (per_cpu_rq s cpu).
Proof. intros H. unfold queued, slots. rewrite length_map, length_seqZ. lia. Qed.

Lemma tick_asleep fuel l s : asleep fuel l s -> 0 <= pc_ticks s -> pc_ticks s + 1 < 2 ^ 64 ->
  let now := pc_ticks s + 1 in
  ticked l s (sched_tick fuel s) now /\ asleep fuel (List.filter (fun t => negb (due now s t)) l) (sched_tick fuel s).
Proof.
  intros [A B C D E F G I J K] H0 Hw now.
  assert (length (List.filter (due now s) l) + length (List.filter (fun t => negb (due now s t)) l) = length l)%nat as Hlen.
  { apply filter_length. }
  assert (u64 (pc_ticks s + 1) = now) as En by (apply wrap_small; lia).
  assert (ticked l s (sched_tick fuel s) now) as T.
  { rewrite <- En. apply tick_ok; auto; rewrite En; [lia|]. intros u Hu. apply filter_In in Hu. apply K, Hu. }
  split; [done|]. destruct T as [T1 T2 T3 T4 T5 T6 T7 T8].
  assert (In (pc_current s) (queued (sched_tick fuel s) 0) -> False) as Hq.
  { intros Hin. rewrite T2 in Hin. apply in_app_iff in Hin as [Hin|Hin]; [|done]. apply filter_In in Hin. tauto. }
  split; rewrite ?T5; auto.
  - intros Hin. apply filter_In in Hin. tauto.
  - apply NoDup_ListNoDup, NoDup_filter. by apply NoDup_ListNoDup.
  - lia.
  - rewrite <- queued_length by (apply T3). rewrite T2, length_app, Nat2Z.inj_add, queued_length by apply I. lia.
  - intros u Hu. apply filter_In in Hu as [Hu Hd]. destruct (T8 u) as [-> _]; [congruence| |by apply K].
    intros Hx. apply filter_In in Hx as [_ Hx]. by rewrite Hx in Hd.
Qed.

(** A task that was woken stays in the run queue while only ticks happen. *)
Lemma ticks_stay n fuel l s t : asleep fuel l s -> 0 <= pc_ticks s -> pc_ticks s + Z.of_nat n < 2 ^ 64 ->
  In t (queued s 0) -> t_state (tasks s t) = TASK_READY -> ~ In t l ->
  In t (queued (ticks n fuel s) 0) /\ t_state (tasks (ticks n fuel s) t) = TASK_READY.
Proof.
  revert l s. induction n as [|n IH]; intros l s A H0 Hw Hq Hr Hl; cbn [ticks]; [done|].
  destruct (tick_asleep fuel l s A H0 ltac:(lia)) as [[T1 T2 T3 T4 T5 T6 T7 T8] A'].
  set (now := pc_ticks s + 1) in *.
  assert (forall f, ~ In t (List.filter f l)) as Hf by (intros f Hf; apply filter_In in Hf; tauto).
  apply (IH (List.filter (fun t => negb (due now s t)) l)); auto; [lia|lia| |].
  - rewrite T2. apply in_app_iff. by right.
  - destruct (T8 t) as [-> _]; auto. intros ->. by apply (as_run _ _ _ A).
Qed.

Lemma ticks_wake n fuel l s t : asleep fuel l s -> 0 <= pc_ticks s -> pc_ticks s + Z.of_nat n < 2 ^ 64 ->
  In t l -> wakeup_tick (tasks s t) <= pc_ticks s + Z.of_nat n -> (0 < n)%nat ->
  In t (queued (ticks n fuel s) 0) /\ t_state (tasks (ticks n fuel s) t) = TASK_READY.
Proof.
  revert l s. induction n as [|n IH]; intros l s A H0 Hw Hl Hd Hn; [lia|]. cbn [ticks].
  destruct (tick_asleep fuel l s A H0 ltac:(lia)) as [[T1 T2 T3 T4 T5 T6 T7 T8] A'].
  set (now := pc_ticks s + 1) in *. destruct (due now s t) eqn:Ed.
  - assert (In t (List.filter (due now s) l)) as Hf by (by apply filter_In).
    apply (ticks_stay n fuel (List.filter (fun t => negb (due now s t)) l)); auto; [lia|lia| |].
    + rewrite T2. apply in_app_iff. by left.
    + intros Hx. apply filter_In in Hx as [_ Hx]. by rewrite Ed in Hx.
  - assert (In t (List.filter (fun t => negb (due now s t)) l)) as Hf by (apply filter_In; by rewrite Ed).
    unfold due in Ed. apply Z.leb_gt in Ed.
    destruct (T8 t) as [_ Ew]; [intros ->; by apply (as_not _ _ _ A)| |].
    { intros Hx. apply filter_In in Hx as [_ Hx]. unfold due in Hx. apply Z.leb_le in Hx. lia. }
    apply (IH (List.filter (fun t => negb (due now s t)) l)); auto; lia.
Qed.

(** ** Exit and wait *)

(** What orphaning the children of [p] keeps: identities, exit codes, other
    tasks' child tables, and the parents of tasks that are not its children. *)
Record kin (p : Z) (kids : Z -> Prop) (s s' : sched) : Prop := {
  kn_id : forall t, t_id (tasks s' t) = t_id (tasks s t);
  kn_code : forall t, exit_code (tasks s' t) = exit_code (tasks s t);
  kn_kids : forall t, t <> p -> t_children (tasks s' t) = t_children (tasks s t) /\
                                child_count (tasks s' t) = child_count (tasks s t);
  kn_own : forall i, t_children (tasks s' p) i = t_children (tasks s p) i \/ t_children (tasks s' p) i = 0;
  kn_parent : forall t, ~ kids t -> t_parent (tasks s' t) = t_parent (tasks s t);
  kn_effects : effects s' = effects s;
  kn_cur : pc_current s' = pc_current s
}.

Lemma kin_refl p kids s : kin p kids s s.
Proof. split; auto. Qed.

Lemma kin_trans p kids s1 s2 s3 : kin p kids s1 s2 -> kin p kids s2 s3 -> kin p kids s1 s3.
Proof.
  intros [A1 B1 C1 D1 E1 F1 G1] [A2 B2 C2 D2 E2 F2 G2]. split; try congruence.
  - intros t Ht. destruct (C1 t Ht), (C2 t Ht). split; congruence.
  - intros i. destruct (D1 i), (D2 i); [left|right..]; congruence.
  - intros t Ht. by rewrite E2, E1.
Qed.

Lemma kin_upd p (kids : Z -> Prop) t f s :
  (forall k, t_id (f k) = t_id k /\ exit_code (f k) = exit_code k /\ t_children (f k) = t_children k /\
             child_count (f k) = child_count k) ->
  kids t \/ (forall k, t_parent (f k) = t_parent k) -> kin p kids s (upd_task t f s).
Proof.
  intros Hf Hp.
  assert (forall u, tasks (upd_task t f s) u = tasks s u \/ u = t /\ tasks (upd_task t f s) u = f (tasks s u)) as Hc.
  { intros u. destruct (decide (u = t)) as [->|]; [right; by rewrite upd_task_self|left; by apply upd_task_other]. }
  split; try done; intros u.
  - destruct (Hc u) as [->|[_ ->]]; [done|apply Hf].
  - destruct (Hc u) as [->|[_ ->]]; [done|apply Hf].
  - intros _. destruct (Hc u) as [->|[_ ->]]; [done|split; apply Hf].
  - destruct (Hc p) as [->|[_ ->]]; [auto|]. left. by destruct (Hf (tasks s p)) as (_ & _ & -> & _).
  - intros Hk. destruct (Hc u) as [->|[-> ->]]; [done|]. destruct Hp as [?|Hp]; [done|apply Hp].
Qed.

Lemma kin_drop p kids t s : kin p kids s (sched_drop_task_count t s).
Proof.
  unfold sched_drop_task_count. case_bool; [apply kin_refl|]. cbv zeta.
  eapply kin_trans; [|apply kin_upd; [by intros|right; by intros]]. case_bool; [|apply kin_refl]. split; auto.
Qed.

Lemma kin_defer p kids t s : kin p kids s (sched_queue_deferred_reap t s).
Proof.
  unfold sched_queue_deferred_reap. case_bool; [apply kin_refl|]. cbv zeta.
  set (s1 := upd_task t _ s). set (s2 := upd_task t _ s1).
  assert (kin p kids s s2) as H.
  { eapply kin_trans; apply kin_upd; (try by intros); right; by intros. }
  clearbody s2. destruct H. split; auto.
Qed.

Lemma kin_bury p kids c s :
  let s1 := sched_drop_task_count c (upd_task c (fun k => k <| t_state := TASK_DEAD |>) s) in
  kin p kids s (if sched_task_in_runqueue c s1 then s1 else sched_queue_deferred_reap c s1).
Proof.
  cbv zeta. set (s1 := upd_task c _ s).
  assert (kin p kids s s1) as H1 by (apply kin_upd; [by intros|right; by intros]). clearbody s1.
  assert (kin p kids s (sched_drop_task_count c s1)) as H2 by (eapply kin_trans; [exact H1|apply kin_drop]).
  case_bool; [done|]. eapply kin_trans; [exact H2|apply kin_defer].
Qed.

Lemma kin_orphan p i b s (kids : Z -> Prop) :
  (t_children (tasks s p) i <> 0 -> kids (t_children (tasks s p) i)) ->
  kin p kids s (snd (orphan_child p i (b, s))).
Proof.
  intros Hk. unfold orphan_child. set (c := t_children (tasks s p) i) in *.
  destruct (Z.eqb_spec c 0) as [|Hc]; [apply kin_refl|]. cbv zeta.
  set (s1 := upd_task c _ s).
  assert (kin p kids s s1) as H1 by (apply kin_upd; [by intros|auto]). clearbody s1.
  match goal with |- context [match t_state (tasks ?x _) with _ => _ end] => set (s2 := x) end.
  assert (kin p kids s s2) as H2 by (destruct H1; split; auto). clearbody s2.
  match goal with |- context [upd_task p _ ?x] => set (s3 := x) end.
  assert (kin p kids s s3) as H3.
  { unfold s3. destruct (t_state (tasks s2 c)); auto; (eapply kin_trans; [exact H2|apply kin_bury]). }
  clearbody s3. cbn [snd]. eapply kin_trans; [exact H3|]. split; try done; intros u.
  - destruct (decide (u = p)) as [->|]; [by rewrite upd_task_self|by rewrite upd_task_other].
  - destruct (decide (u = p)) as [->|]; [by rewrite upd_task_self|by rewrite upd_task_other].
  - intros Hu. by rewrite upd_task_other.
  - rewrite upd_task_self. cbn. unfold upd. destruct (u =? i); auto.
  - intros _. destruct (decide (u = p)) as [->|]; [by rewrite upd_task_self|by rewrite upd_task_other].
Qed.


Definition child_of (s : sched) (p t : Z) : Prop :=
  exists i, 0 <= i < child_count (tasks s p) /\ t_children (tasks s p) i = t.

Lemma kin_upd_own p kids f s :
  (forall k, t_id (f k) = t_id k /\ exit_code (f k) = exit_code k /\ t_children (f k) = t_children k /\
             t_parent (f k) = t_parent k) -> kin p kids s (upd_task p f s).
Proof.
  intros Hf.
  assert (forall u, tasks (upd_task p f s) u = tasks s u \/ u = p /\ tasks (upd_task p f s) u = f (tasks s u)) as Hc.
  { intros u. destruct (decide (u = p)) as [->|]; [right; by rewrite upd_task_self|left; by apply upd_task_other]. }
  split; try done; intros u.
  - destruct (Hc u) as [->|[_ ->]]; [done|apply Hf].
  - destruct (Hc u) as [->|[_ ->]]; [done|apply Hf].
  - intros Hu. by rewrite upd_task_other.
  - destruct (Hc p) as [->|[_ ->]]; [auto|]. left. by destruct (Hf (tasks s p)) as (_ & _ & -> & _).
  - intros Hk. destruct (Hc u) as [->|[-> ->]]; [done|apply Hf].
Qed.

Lemma kin_orphans p s : kin p (child_of s p) s (sched_orphan_children p s).
Proof.
  unfold sched_orphan_children. case_bool; [apply kin_refl|].
  set (n := child_count (tasks s p)).
  assert (kin p (child_of s p) s (snd (for_loop (Z.to_nat n) 0 (orphan_child p) (false, s)))) as H.
  { apply (for_loop_ind (fun st => kin p (child_of s p) s (snd st))); [|apply kin_refl].
    intros i [b x] Hi Hx. cbn [snd] in Hx. eapply kin_trans; [exact Hx|]. apply kin_orphan. intros Hne.
    exists i. split; [unfold n in Hi; lia|]. destruct (kn_own _ _ _ _ Hx i) as [E|E]; congruence. }
  destruct (for_loop _ _ _ _) as [shared s1]. cbn [snd] in H.
  set (s2 := upd_task p _ s1).
  assert (kin p (child_of s p) s s2) as H2 by (eapply kin_trans; [exact H|by apply kin_upd_own]).
  clearbody s2. destruct shared; [|done]. eapply kin_trans; [exact H2|]. by apply kin_upd_own.
Qed.

(** Exiting with a parent: the task is a zombie that carries its code. *)
Lemma exit_zombie code s (c p : Z) :
  pc_current s = c -> c <> 0 -> t_parent (tasks s c) = p -> p <> 0 -> p <> c -> ~ child_of s c c ->
  let s' := sched_exit_current code s in
  t_state (tasks s' c) = TASK_ZOMBIE /\ exit_code (tasks s' c) = code /\
  (forall t, t_id (tasks s' t) = t_id (tasks s t)) /\
  t_children (tasks s' p) = t_children (tasks s p) /\ child_count (tasks s' p) = child_count (tasks s p) /\
  effects s' = effects s.
Proof.
  intros Hc Hc0 Hp Hp0 Hpc Hself. cbv zeta. unfold sched_exit_current. rewrite Hc.
  rewrite (proj2 (Z.eqb_neq _ _) Hc0). cbv zeta. set (s1 := upd_task c _ s).
  assert (exit_code (tasks s1 c) = code /\ t_parent (tasks s1 c) = p /\ child_of s1 c = child_of s c) as (E1 & P1 & K1).
  { unfold s1, child_of. by rewrite !upd_task_self. }
  assert (forall t, t <> c -> tasks s1 t = tasks s t) as O1 by (intros; by apply upd_task_other).
  assert (forall t, t_id (tasks s1 t) = t_id (tasks s t)) as I1.
  { intros t. destruct (decide (t = c)) as [->|]; [unfold s1; by rewrite upd_task_self|by rewrite O1]. }
  assert (effects s1 = effects s) as F1 by done. clearbody s1.
  set (s2 := sched_orphan_children c s1).
  assert (exit_code (tasks s2 c) = code /\ t_parent (tasks s2 c) = p /\
          (forall t, t_id (tasks s2 t) = t_id (tasks s1 t)) /\
          t_children (tasks s2 p) = t_children (tasks s1 p) /\ child_count (tasks s2 p) = child_count (tasks s1 p) /\
          effects s2 = effects s1) as (E2 & P2 & I2 & K2 & N2 & F2).
  { destruct (kin_orphans c s1) as [A B C D E F G]. fold s2 in A, B, C, D, E, F, G. destruct (C p Hpc).
    rewrite B, E by (by rewrite K1). split_and!; auto. }
  clearbody s2. rewrite P2, (proj2 (Z.eqb_neq _ _) Hp0). rewrite upd_task_self, (upd_task_other c p) by done.
  rewrite <- (O1 p Hpc). split_and!; try done; [|by rewrite <- F1].
  intros t. rewrite <- I1, <- I2. destruct (decide (t = c)) as [->|]; [by rewrite upd_task_self|by rewrite upd_task_other].
Qed.


Lemma resources_other t a c f s u : u <> t ->
  tasks (sched_destroy_task_resources t a c f s) u = tasks s u.
Proof.
  intros Hu. unfold sched_destroy_task_resources. case_bool; [done|]. cbv zeta.
  assert (forall x, tasks (release_address_space t x) u = tasks x u) as R1.
  { intros x. unfold release_address_space. cbv zeta. case_bool; [done|]. by rewrite upd_task_other. }
  assert (forall x, tasks (release_fds t x) u = tasks x u) as R2.
  { intros x. unfold release_fds. by rewrite upd_task_other. }
  assert (forall x, tasks (release_stack t x) u = tasks x u) as R3.
  { intros x. unfold release_stack. case_bool; [done|]. by rewrite upd_task_other. }
  assert (forall x, tasks (release_fpu t x) u = tasks x u) as R4.
  { intros x. unfold release_fpu. case_bool; [done|]. by rewrite upd_task_other. }
  assert (forall x, tasks (release_node t x) u = tasks x u) as R5.
  { intros x. unfold release_node. case_bool; [|done]. by rewrite upd_task_other. }
  set (s1 := if a then _ else s). assert (tasks s1 u = tasks s u) as H1 by (unfold s1; destruct a; auto).
  clearbody s1. set (s2 := if c then _ else s1).
  assert (tasks s2 u = tasks s u) as H2 by (unfold s2; destruct c; rewrite ?R2; auto). clearbody s2.
  set (s3 := release_node _ _). assert (tasks s3 u = tasks s u) as H3 by (unfold s3; by rewrite R5, R4, R3).
  clearbody s3. destruct f; done.
Qed.

(** [c] has one slot in the child table of [p], and its identifier there. *)
Definition only_slot (s : sched) (p c i : Z) : Prop :=
  0 <= i < child_count (tasks s p) /\ t_children (tasks s p) i = c /\
  forall j, 0 <= j < child_count (tasks s p) -> j <> i ->
    t_children (tasks s p) j <> c /\ t_id (tasks s (t_children (tasks s p) j)) <> t_id (tasks s c).

Lemma scan_finds s p c i :
  pc_current s = p -> c <> 0 -> 0 < t_id (tasks s c) -> only_slot s p c i -> exited s c = true ->
  waitpid_scan (t_id (tasks s c)) s = Some i.
Proof.
  intros Hcur Hc Hid (Hi & Hsl & Hun) Hex. unfold waitpid_scan. rewrite Hcur.
  match goal with |- find_index ?n ?lo ?f = _ => destruct (find_index n lo f) as [j|] eqn:E end.
  - apply find_index_Some in E as (Hj & Hp & _). destruct (decide (j = i)) as [->|Hne]; [done|].
    destruct (Hun j) as [_ Hne']; [lia|done|]. apply andb_true_iff in Hp as [[_ Hp]%andb_true_iff _].
    rewrite (proj2 (Z.ltb_lt _ _) Hid) in Hp. cbn [andb] in Hp.
    rewrite (proj2 (Z.eqb_neq _ _) Hne') in Hp. done.
  - rewrite find_index_None in E. specialize (E i ltac:(lia)). cbv beta in E.
    rewrite Hsl, Hex, (proj2 (Z.eqb_neq _ _) Hc), Z.eqb_refl in E. cbn in E. rewrite andb_false_r in E. done.
Qed.

Lemma drop_frame t s u :
  t_children (tasks (sched_drop_task_count t s) u) = t_children (tasks s u) /\
  child_count (tasks (sched_drop_task_count t s) u) = child_count (tasks s u) /\
  effects (sched_drop_task_count t s) = effects s.
Proof.
  destruct (kin_drop (u + 1) (fun _ => False) t s) as [_ _ K _ _ E _]. destruct (K u); [lia|]. auto.
Qed.

Lemma waitpid_reaps options s p c i :
  pc_current s = p -> p <> 0 -> c <> 0 -> p <> c -> 0 < t_id (tasks s c) -> only_slot s p c i -> exited s c = true ->
  let r := sched_waitpid (t_id (tasks s c)) options s in
  fst r = Reaped (t_id (tasks s c)) (Z.shiftl (Z.land (exit_code (tasks s c)) 0xFF) 8) /\
  freed (effects (snd r)) = freed (effects s) ++ [c] /\ ~ child_of (snd r) p c.
Proof.
  intros Hcur Hp Hc Hpc Hid Hslot Hex. cbv zeta. unfold sched_waitpid.
  rewrite (scan_finds s p c i) by done. rewrite Hcur, (proj2 (Z.eqb_neq _ _) Hp).
  destruct Hslot as (Hi & Hsl & Hun). rewrite Hsl. cbv zeta. cbn [fst snd]. split; [done|].
  destruct (drop_frame c s p) as (D1 & D2 & D3). set (s1 := sched_drop_task_count c s) in *. clearbody s1.
  set (s2 := upd_task c _ s1).
  assert (tasks s2 p = tasks s1 p) as H2 by (by apply upd_task_other).
  assert (effects s2 = effects s) as F2 by done. clearbody s2. rewrite H2, D2.
  set (n := child_count (tasks s p) - 1). set (s3 := upd_task p _ s2).
  assert (t_children (tasks s3 p) = (t_children (tasks s p)).[i <- t_children (tasks s p) n].[n <- 0] /\
          child_count (tasks s3 p) = n) as [T3 C3].
  { unfold s3. rewrite upd_task_self. cbn. by rewrite H2, D1. }
  assert (effects s3 = effects s) as F3 by done. clearbody s3.
  match goal with |- context [sched_destroy_task_resources c ?a true true ?x] => set (s4 := x); set (b := a) end.
  split; [|].
  - destruct (released_resources (fun _ => True) c b true s4 Hc) as [A _ _ _]. rewrite A. by rewrite <- F3.
  - intros (j & Hj & Hcj). rewrite resources_other in Hj, Hcj by done.
    change (child_count (tasks s4 p)) with (child_count (tasks s3 p)) in Hj.
    change (t_children (tasks s4 p)) with (t_children (tasks s3 p)) in Hcj. rewrite C3 in Hj. rewrite T3 in Hcj.
    rewrite upd_ne in Hcj by lia. unfold upd in Hcj. destruct (Z.eqb_spec j i) as [->|Hne].
    + assert (0 <= n < child_count (tasks s p)) as Hn by (unfold n in *; lia).
      assert (n <> i) as Hni by lia. exact (proj1 (Hun n Hn Hni) Hcj).
    + assert (0 <= j < child_count (tasks s p)) as Hn by (unfold n in *; lia).
      exact (proj1 (Hun j Hn Hne) Hcj).
Qed.

(** ** A small system *)

Definition blank_task : task_t :=
  {| t_id := 0; t_state := TASK_BLOCKED; nice := 0; t_cpu := 0; cpu_affinity := 2 ^ 32 - 1; t_ticks := 0;
     vruntime := 0; weight := 1024; wakeup_tick := 0; stime := 0; vol_switches := 0; invol_switches := 0;
     slice_ticks := 0; need_resched := false; accounted := true; reap_queued := false; t_parent := 0;
     t_children := fun _ => 0; child_count := 0; exit_code := 0; signal_pending := 0; ai_hint := 0;
     t_stack := 0; fpu_state := 0; pml4 := 0; vma_head := 0; has_fds := false; graph_node := 0;
     thread_group := 0; wait_next := 0 |}.

Definition empty_rq : runqueue_t :=
  {| rq_tasks := fun _ => 0; rq_count := 0; min_vruntime := 0; load_weight := 0; nr_switches := 0;
     last_pick_id := 0 |}.

(** Task 10 runs, task 20 (its parent) and the dead task 30 are queued, tasks
    40 and 50 sleep until ticks 8 and 9, task 60 is dead and waits for the reaper. *)
Definition demo_sched : sched :=
  {| tasks := (fun _ => blank_task)
       .[10 <- blank_task <| t_id := 10 |> <| t_state := TASK_RUNNING |> <| vruntime := 700 |> <| t_parent := 20 |>]
       .[20 <- blank_task <| t_id := 20 |> <| t_state := TASK_READY |> <| vruntime := 300 |>
                          <| t_children := (fun _ => 0).[0 <- 10] |> <| child_count := 1 |>]
       .[30 <- blank_task <| t_id := 30 |> <| t_state := TASK_DEAD |> <| vruntime := 200 |>]
       .[40 <- blank_task <| t_id := 40 |> <| wakeup_tick := 8 |> <| vruntime := 400 |> <| wait_next := 50 |>]
       .[50 <- blank_task <| t_id := 50 |> <| wakeup_tick := 9 |>]
       .[60 <- blank_task <| t_id := 60 |> <| t_state := TASK_DEAD |> <| reap_queued := true |>
                          <| wait_next := 10 |>];
     per_cpu_rq := (fun _ => empty_rq)
       .[0 <- empty_rq <| rq_tasks := (fun _ => 0).[0 <- 30].[1 <- 20] |> <| rq_count := 2 |>
                       <| load_weight := 2048 |> <| min_vruntime := 200 |>];
     active_tasks := (fun _ => 0).[0 <- 10]; sleep_head := 40; deferred_reap_head := 60;
     sched_enabled := true; total_tasks := 6; lifetime_tasks_reaped := 0; lifetime_orphans_detached := 0;
     lifetime_detached_tasks_reaped := 0; pc_current := 10; pc_idle := 0; pc_ticks := 7; pc_idle_ticks := 0;
     effects := [] |}.

Lemma demo_rq_ok : rq_ok demo_sched 0.
Proof.
  split; [vm_compute; split; discriminate|]. change (queued demo_sched 0) with [30; 20].
  repeat constructor; vm_compute; discriminate.
Qed.

(** ** Claims *)

(** C12: The binary search and the shifting loop of rq_insert place a task in the
    sorted run queue exactly where linear insertion would (in front of tasks
    with the same virtual runtime), keep the queue sorted, make the task ready
    and leave the other tasks alone; a full queue is left as it is. *)
Theorem rq_insert_sorted cpu t s :
  rq_ok s cpu ->
  let s' := rq_insert cpu t s in
  if rq_count (per_cpu_rq s cpu) <? RQ_SLOTS
  then queued s' cpu = insert_before (vrt s) t (queued s cpu) /\ rq_ok s' cpu /\
       t_state (tasks s' t) = TASK_READY /\ forall u, u <> t -> tasks s' u = tasks s u
  else s' = s.
Proof.
  intros R. cbv zeta. destruct (Z.ltb_spec (rq_count (per_cpu_rq s cpu)) RQ_SLOTS) as [Hroom|Hfull].
  - destruct (rq_insert_queue cpu t s R Hroom) as (Q & _ & T). destruct (rq_insert_frame cpu t s) as (_ & O & _).
    split_and!; auto. by apply rq_insert_ok.
  - unfold rq_insert. cbv zeta. by rewrite (proj2 (Z.leb_le _ _) Hfull).
Qed.

Lemma rq_insert_sorted_witness : queued (rq_insert 0 40 demo_sched) 0 = [30; 20; 40].
Proof. destruct (rq_insert_sorted 0 40 demo_sched demo_rq_ok) as (-> & _). vm_compute. reflexivity. Defined.

(** C11: sched_yield skips the dead tasks at the head of the queue, switches to
    the first live one, which has the least virtual runtime of all live tasks
    behind it, and requeues the task that was running at its sorted place: no
    live task is lost or run twice. *)
Theorem yield_runs_least fuel s dead next rest :
  sched_enabled s = true -> rq_ok s 0 -> queued s 0 = dead ++ next :: rest ->
  Forall (fun t => t <> 0 /\ t_state (tasks s t) = TASK_DEAD) dead -> next <> 0 ->
  t_state (tasks s next) <> TASK_DEAD ->
  let s' := sched_yield fuel s in
  pc_current s' = next /\ t_state (tasks s' next) = TASK_RUNNING /\
  Forall (fun t => vrt s next <= vrt s t) rest /\ rq_ok s' 0 /\ queued s' 0 = requeue s rest /\
  queued s' 0 ≡ₚ (if runs s (pc_current s) then [pc_current s] else []) ++ rest.
Proof.
  intros Hen R Hq Hd Hn Hl. destruct (yield_ok fuel s dead next rest Hen R Hq Hd Hn Hl) as (A & B & C & D & E).
  split_and!; auto. rewrite C. unfold requeue. case_bool; [apply insert_before_perm|done].
Qed.

Lemma yield_runs_least_witness :
  pc_current (sched_yield 3 demo_sched) = 20 /\ queued (sched_yield 3 demo_sched) 0 = [10].
Proof.
  destruct (yield_runs_least 3 demo_sched [30] 20 []) as (A & _ & _ & _ & B & _).
  - reflexivity.
  - apply demo_rq_ok.
  - vm_compute. reflexivity.
  - constructor; [|constructor]. split; [discriminate|]. vm_compute. reflexivity.
  - discriminate.
  - vm_compute. discriminate.
  - split; [exact A|]. rewrite B. vm_compute. reflexivity.
Defined.

(** A timer tick wakes exactly the sleepers whose wake-up time has come: they
    leave the sleep list, which keeps the others in order, and enter the sorted
    run queue as ready tasks. *)
Theorem tick_wakes_due fuel l s :
  pc_current s <> 0 -> signal_pending (tasks s (pc_current s)) = 0 ->
  ~ In (pc_current s) l -> ~ In (pc_current s) (queued s 0) ->
  seg s (sleep_head s) l 0 -> NoDup l -> (length l <= fuel)%nat -> rq_ok s 0 ->
  let now := u64 (pc_ticks s + 1) in
  rq_count (per_cpu_rq s 0) + Z.of_nat (length (List.filter (due now s) l)) <= RQ_SLOTS ->
  (forall u, In u (List.filter (due now s) l) -> t_state (tasks s u) = TASK_BLOCKED) ->
  let s' := sched_tick fuel s in
  seg s' (sleep_head s') (List.filter (fun t => negb (due now s t)) l) 0 /\
  queued s' 0 ≡ₚ List.filter (due now s) l ++ queued s 0 /\ rq_ok s' 0 /\
  (forall u, In u (List.filter (due now s) l) -> t_state (tasks s' u) = TASK_READY).
Proof.
  intros. destruct (tick_ok fuel l s) as [A B C D _ _ _ _]; auto.
Qed.


Lemma tick_wakes_due_witness :
  queued (sched_tick 2 demo_sched) 0 ≡ₚ [40; 30; 20] /\
  seg (sched_tick 2 demo_sched) (sleep_head (sched_tick 2 demo_sched)) [50] 0.
Proof.
  destruct (tick_wakes_due 2 [40; 50] demo_sched) as (A & B & _).
  - discriminate.
  - vm_compute. reflexivity.
  - cbn. lia.
  - change (queued demo_sched 0) with [30; 20]. cbn. lia.
  - vm_compute. split_and!; try reflexivity; discriminate.
  - apply (bool_decide_unpack _). vm_compute. exact I.
  - cbn. lia.
  - apply demo_rq_ok.
  - vm_compute. discriminate.
  - change (List.filter _ _) with [40]. intros u [<-|[]]. vm_compute. reflexivity.
  - split; [exact B|exact A].
Defined.


Lemma demo_asleep : asleep 2 [40; 50] demo_sched.
Proof.
  split.
  - discriminate.
  - vm_compute. reflexivity.
  - cbn. lia.
  - change (queued demo_sched 0) with [30; 20]. cbn. lia.
  - vm_compute. split_and!; try reflexivity; discriminate.
  - apply (bool_decide_unpack _). vm_compute. exact I.
  - cbn. lia.
  - apply demo_rq_ok.
  - vm_compute. discriminate.
  - intros u [<-|[<-|[]]]; vm_compute; reflexivity.
Qed.



(** Draining the deferred list frees exactly the dead tasks on it that no
    processor runs and no run queue holds, each once and in order; the others
    are back on the list afterwards, marked as queued. *)
Theorem drain_frees_idle fuel l s :
  sched_enabled s = true -> seg s (deferred_reap_head s) l 0 -> NoDup l -> (length l <= fuel)%nat ->
  let s' := sched_drain_deferred_reaps fuel s in
  freed (effects s') = freed (effects s) ++ List.filter (fun t => negb (busy s t)) l /\
  seg s' (deferred_reap_head s') (rev (List.filter (busy s) l)) 0 /\
  Forall (fun t => reap_queued (tasks s' t) = true) (rev (List.filter (busy s) l)).
Proof.
  intros Hen Hl Hnd Hf. cbv zeta. unfold sched_drain_deferred_reaps, sched_reap_deferred_dead_tasks.
  rewrite Hen. cbn [negb].
  destruct (reap_list_ok fuel l (deferred_reap_head s) [] (s <| deferred_reap_head := 0 |>)) as (A & B & _ & D);
    try done; [by apply (seg_frame s)|by rewrite app_nil_r|].
  rewrite app_nil_r in B, D. auto.
Qed.

Lemma drain_frees_idle_witness :
  freed (effects (sched_drain_deferred_reaps 2 demo_sched)) = [60] /\
  deferred_reap_head (sched_drain_deferred_reaps 2 demo_sched) = 10.
Proof.
  destruct (drain_frees_idle 2 [60; 10] demo_sched) as (A & B & _).
  - reflexivity.
  - vm_compute. split_and!; try reflexivity; discriminate.
  - apply (bool_decide_unpack _). vm_compute. exact I.
  - cbn. lia.
  - split; [rewrite A; vm_compute; reflexivity|exact (proj1 B)].
Defined.

(** C13: A task that exits with a code is a zombie until its parent, once it
    runs, waits for it: waitpid then returns the task's identifier and the low
    byte of the code in the status, frees the task and removes it from the
    parent's child table. *)
Theorem exit_status_reaches_parent code options s c p i :
  pc_current s = c -> c <> 0 -> t_parent (tasks s c) = p -> p <> 0 -> p <> c -> ~ child_of s c c ->
  0 < t_id (tasks s c) -> only_slot s p c i ->
  let s1 := sched_exit_current code s in
  let r := sched_waitpid (t_id (tasks s c)) options (switch_to p s1) in
  t_state (tasks s1 c) = TASK_ZOMBIE /\
  fst r = Reaped (t_id (tasks s c)) (Z.shiftl (Z.land code 0xFF) 8) /\
  freed (effects (snd r)) = freed (effects s) ++ [c] /\ ~ child_of (snd r) p c.
Proof.
  intros Hc Hc0 Hp Hp0 Hpc Hself Hid (Hi & Hsl & Hun). cbv zeta.
  destruct (exit_zombie code s c p Hc Hc0 Hp Hp0 Hpc Hself) as (Z1 & X1 & I1 & K1 & N1 & F1).
  set (s1 := sched_exit_current code s) in *. clearbody s1. set (s2 := switch_to p s1).
  assert (forall u, t_id (tasks s2 u) = t_id (tasks s1 u) /\ exit_code (tasks s2 u) = exit_code (tasks s1 u) /\
    t_children (tasks s2 u) = t_children (tasks s1 u) /\ child_count (tasks s2 u) = child_count (tasks s1 u)) as H2.
  { intros u. unfold s2, switch_to. cbn. unfold upd. by destruct (Z.eqb_spec u p) as [->|]. }
  assert (tasks s2 c = tasks s1 c) as Hc2 by (unfold s2, switch_to; exact (upd_task_other p c _ s1 (not_eq_sym Hpc))).
  assert (pc_current s2 = p /\ effects s2 = effects s) as [Hcur F2] by done. clearbody s2.
  destruct (H2 p) as (_ & _ & K2 & N2). destruct (H2 c) as (J2 & X2 & _).
  assert (t_id (tasks s2 c) = t_id (tasks s c)) as J by (by rewrite J2).
  destruct (waitpid_reaps options s2 p c i) as (W1 & W2 & W3); auto.
  - by rewrite J.
  - unfold only_slot. rewrite N2, N1, K2, K1. split_and!; [lia|lia|done|]. intros j Hj Hne.
    destruct (Hun j Hj Hne) as [U1 U2]. split; [done|]. destruct (H2 (t_children (tasks s p) j)) as (-> & _).
    by rewrite I1, J.
  - unfold exited. by rewrite Hc2, Z1.
  - rewrite J, X2, X1 in W1. rewrite J in W2, W3. by rewrite <- F2.
Qed.

Lemma exit_status_reaches_parent_witness :
  fst (sched_waitpid 10 0 (switch_to 20 (sched_exit_current 7 demo_sched))) = Reaped 10 0x700.
Proof.
  destruct (exit_status_reaches_parent 7 0 demo_sched 10 20 0) as (_ & A & _).
  - reflexivity.
  - discriminate.
  - vm_compute. reflexivity.
  - discriminate.
  - discriminate.
  - intros (j & Hj & _). change (child_count (tasks demo_sched 10)) with 0 in Hj. lia.
  - vm_compute. reflexivity.
  - split_and!; [vm_compute; discriminate|vm_compute; reflexivity|vm_compute; reflexivity|].
    intros j Hj. change (child_count (tasks demo_sched 20)) with 1 in Hj. lia.
  - exact A.
Defined.

(** The time slice sched_effective_slice_ticks grants is at least one tick
    and at most six, for every queue length, nice value and hint; without a
    hint or a nice value it is the latency shared among the runnable tasks. *)
Theorem slice_bounds rq t :
  SCHED_MIN_GRANULARITY_TICKS <= sched_effective_slice_ticks rq t <= SCHED_MAX_GRANULARITY_TICKS /\
  (nice t = 0 -> ai_hint t = 0 -> 1 <= rq_count rq < 8 ->
   sched_effective_slice_ticks rq t = SCHED_LATENCY_TICKS / (rq_count rq + 1)).
Proof.
  split.
  - unfold sched_effective_slice_ticks, SCHED_MIN_GRANULARITY_TICKS, SCHED_MAX_GRANULARITY_TICKS. cbv zeta.
    generalize (SCHED_LATENCY_TICKS / (if u32 (rq_count rq + 1) =? 0 then 1 else u32 (rq_count rq + 1))). intros b.
    generalize (nice t <? 0), (5 <? nice t), (ai_hint t =? AI_HINT_REALTIME), (ai_hint t =? AI_HINT_BATCH).
    intros [] [] [] []; cbn [andb];
      repeat match goal with |- context [?x <? ?y] => destruct (Z.ltb_spec x y) end; lia.
  - intros Hn Ha Hc. unfold sched_effective_slice_ticks. rewrite Hn, Ha. cbv zeta.
    assert (rq_count rq = 1 \/ rq_count rq = 2 \/ rq_count rq = 3 \/ rq_count rq = 4 \/ rq_count rq = 5 \/
            rq_count rq = 6 \/ rq_count rq = 7) as Hk by lia.
    repeat destruct Hk as [->|Hk]; try rewrite Hk; reflexivity.
Qed.


(** ** Behaviour at the edges *)

Definition run_as (k : task_t) (s : sched) : sched := upd_task 10 (fun _ => k) s.

(** A batch task at nice -15 gains 1024 * 1024 / 29154 = 35 per tick and loses
    128: from 0 its virtual runtime wraps around and it is last in the queue
    from then on. *)
Example batch_vruntime_wraps :
  vruntime (tasks (tick_account (run_as (blank_task <| t_state := TASK_RUNNING |>
    <| weight := weight_for_nice (-15) |> <| ai_hint := AI_HINT_BATCH |>) demo_sched)) 10) = 2 ^ 64 - 93.
Proof. vm_compute. reflexivity. Qed.

(** Waking a task into a full queue loses it: it stays blocked and in no list. *)
Example full_queue_drops :
  let s := set_rq 0 ((per_cpu_rq demo_sched 0) <| rq_count := 256 |>) demo_sched in
  t_state (tasks (sched_unblock 40 s) 40) = TASK_BLOCKED /\
  rq_count (per_cpu_rq (sched_unblock 40 s) 0) = 256.
Proof. vm_compute. split; reflexivity. Qed.

(** With one scheduling processor, an affinity that excludes it has no effect. *)
Example affinity_ignored :
  In 40 (queued (sched_unblock 40 (sched_set_affinity 40 2 demo_sched)) 0).
Proof. vm_compute. auto. Qed.

(** A blocked task cannot be signalled: sys_kill reports that it does not exist. *)
Example kill_misses_sleepers : fst (sys_kill 40 SIGKILL demo_sched) = -1.
Proof. vm_compute. reflexivity. Qed.

(** Picking the last task resets the queue's minimum to 0, whatever the
    virtual runtime of the task that goes on running. *)
Example minimum_forgotten :
  min_vruntime (per_cpu_rq (snd (rq_pick_next 0 (snd (rq_pick_next 0 demo_sched)))) 0) = 0.
Proof. vm_compute. reflexivity. Qed.

End SchedClaims.
