(* ===== verification/Wait.v ===== *)
(** * Wait queues, mutexes, rwlocks, semaphores, futexes (src/src/sched/wait.c, wait.h)

    The wait queue is the list linked through [wait_next], as in the source;
    sleeping and waking act on the scheduler.  The blocking primitives share
    one loop: try under the lock, and sleep on a queue if that failed.  [Sync]
    has the parts that differ, and [run] is one atomic block of one thread of
    that loop, so that the interleavings of many threads are sequences of
    [run]. *)

From S2P Require Import Prelude Mem Sched SchedProps.
Import Mem Sched SchedProps.

Module Wait.

(** ** Wait queues *)

(** A queue is its head; 0 is NULL. *)
Definition wait_queue_t : Type := Z.
Definition wq_init : wait_queue_t := 0.

(** The state in which wq_sleep switches away: the caller runs again when it is
    woken and picked. *)
Definition wq_sleep (fuel : nat) (wq : wait_queue_t) (s : sched) : wait_queue_t * sched :=
  let cur := pc_current s in
  let s := upd_task cur (fun k => k <| t_state := TASK_BLOCKED |> <| wait_next := wq |>) s in
  (cur, sched_yield fuel s).

Definition wq_wake_one (wq : wait_queue_t) (s : sched) : wait_queue_t * sched :=
  let t := wq in
  if t =? 0 then (wq, s)
  else
    let wq := wait_next (tasks s t) in
    let s := upd_task t (fun k => k <| wait_next := 0 |>) s in
    (wq, sched_unblock t s).

(** The loop of wq_wake_all. *)
Fixpoint wake_list (fuel : nat) (list : Z) (s : sched) : sched :=
  match fuel with
  | O => s
  | S fuel' =>
      if list =? 0 then s
      else
        let n := wait_next (tasks s list) in
        let s := upd_task list (fun k => k <| wait_next := 0 |>) s in
        wake_list fuel' n (sched_unblock list s)
  end.

Definition wq_wake_all (fuel : nat) (wq : wait_queue_t) (s : sched) : wait_queue_t * sched :=
  (0, wake_list fuel wq s).

(** ** Futexes *)

Definition FUTEX_WAIT : Z := 0.
Definition FUTEX_WAKE : Z := 1.
Definition FUTEX_HASH_SIZE : Z := 64.

Definition futex_hash (addr : Z) : Z := u32 (Z.shiftr addr 2 mod FUTEX_HASH_SIZE).

Record futexes := { futex_table : Z -> wait_queue_t; futex_initialized : bool }.
#[export] Instance eta_futexes : Eta futexes := fun r => Build_futexes (futex_table r) (futex_initialized r).

Definition futex_init (f : futexes) : futexes :=
  if futex_initialized f then f
  else {| futex_table := for_loop (Z.to_nat FUTEX_HASH_SIZE) 0 (fun i tb => tb.[i <- wq_init]) (futex_table f);
          futex_initialized := true |}.

(** [m] is the memory of the caller. *)
Definition sys_futex (fuel : nat) (m : mem) (uaddr op val : Z) (f : futexes) (s : sched) : Z * futexes * sched :=
  let f := futex_init f in
  let idx := futex_hash uaddr in
  if op =? FUTEX_WAIT then
    if negb (load 4 uaddr m =? val) then (-1, f, s)
    else
      let '(wq, s) := wq_sleep fuel (futex_table f idx) s in
      (0, f <| futex_table := (futex_table f).[idx <- wq] |>, s)
  else if op =? FUTEX_WAKE then
    let '(wq, s) := for_loop (Z.to_nat val) 0 (fun _ '(wq, s) => wq_wake_one wq s) (futex_table f idx, s) in
    (0, f <| futex_table := (futex_table f).[idx <- wq] |>, s)
  else (-1, f, s).

(** ** The blocking loop *)

Inductive wake (Q : Type) := One (q : Q) | All (q : Q).
Arguments One {Q} q.
Arguments All {Q} q.

(** A primitive: the shared fields, the test of the loop (whether it succeeds,
    and the fields afterwards), the release with the wake-ups that follow it. *)
Class Sync (O Op Q : Type) := {
  acquire : Op -> O -> bool * O;
  release : Op -> O -> O * list (wake Q);
  queue_of : Op -> Q
}.

(** Where a thread is in the loop. *)
Inductive pc (Op Q : Type) :=
| Out
| Try (op : Op)
| Enq (op : Op)
| Asleep (op : Op)
| Inside (op : Op)
| Waking (ws : list (wake Q)).
Arguments Out {Op Q}.
Arguments Try {Op Q} op.
Arguments Enq {Op Q} op.
Arguments Asleep {Op Q} op.
Arguments Inside {Op Q} op.
Arguments Waking {Op Q} ws.

Record conf (O Op Q : Type) := { obj : O; queues : Q -> list Z; pcs : Z -> pc Op Q }.
Arguments obj {O Op Q} c.
Arguments queues {O Op Q} c.
Arguments pcs {O Op Q} c.
Arguments Build_conf {O Op Q}.
#[export] Instance eta_conf {O Op Q} : Eta (conf O Op Q) := fun r => Build_conf (obj r) (queues r) (pcs r).

Section loop.
Context {O Op Q : Type} `{HS : Sync O Op Q} `{HQ : EqDecision Q}.
Implicit Types c : conf O Op Q.

Definition set_queue (q : Q) (l : list Z) c : conf O Op Q :=
  c <| queues := fun q' => if decide (q' = q) then l else queues c q' |>.
Definition goto (t : Z) (p : pc Op Q) c : conf O Op Q := c <| pcs := (pcs c).[t <- p] |>.

(** A woken thread goes back to the test. *)
Definition rouse (t : Z) c : conf O Op Q :=
  match pcs c t with Asleep op => goto t (Try op) c | _ => c end.

(** One atomic block of thread [t]; [call] is the operation it begins when it is
    outside.  Nothing happens while it sleeps. *)
Definition run (t : Z) (call : Op) c : option (conf O Op Q) :=
  match pcs c t with
  | Out => Some (goto t (Try call) c)
  | Try op => let '(ok, o) := acquire op (obj c) in Some (goto t (if ok then Inside op else Enq op) (c <| obj := o |>))
  | Enq op => Some (goto t (Asleep op) (set_queue (queue_of op) (t :: queues c (queue_of op)) c))
  | Asleep _ => None
  | Inside op => let '(o, ws) := release op (obj c) in Some (goto t (Waking ws) (c <| obj := o |>))
  | Waking [] => Some (goto t Out c)
  | Waking (One q :: ws) =>
      let c := goto t (Waking ws) c in
      match queues c q with
      | [] => Some c
      | w :: l => Some (rouse w (set_queue q l c))
      end
  | Waking (All q :: ws) =>
      let c := goto t (Waking ws) c in
      Some (fold_left (fun c w => rouse w c) (queues c q) (set_queue q [] c))
  end.

(** Interleavings: the threads and the calls of the blocks that run. *)
Fixpoint runs_to (l : list (Z * Op)) c : option (conf O Op Q) :=
  match l with
  | [] => Some c
  | (t, op) :: l' => match run t op c with None => None | Some c' => runs_to l' c' end
  end.

Definition initial (o : O) : conf O Op Q := {| obj := o; queues := fun _ => []; pcs := fun _ => Out |}.

End loop.

(** ** The primitives *)

Record mutex_t := { locked : Z }.
Definition mutex_init : mutex_t := {| locked := 0 |}.

(** The exchange of mutex_lock, and the store of mutex_unlock. *)
Definition mutex_lock (_ : unit) (m : mutex_t) : bool * mutex_t := (locked m =? 0, {| locked := 1 |}).
Definition mutex_unlock (_ : unit) (m : mutex_t) : mutex_t * list (wake unit) := ({| locked := 0 |}, [One tt]).

#[export] Instance mutex : Sync mutex_t unit unit := {
  acquire := mutex_lock;
  release := mutex_unlock;
  queue_of _ := tt
}.

Record semaphore_t := { count : Z }.
Definition sem_init (initial : Z) : semaphore_t := {| count := initial |}.

Definition sem_trywait (s : semaphore_t) : bool * semaphore_t :=
  if 0 <? count s then (true, {| count := count s - 1 |}) else (false, s).

(** The test of sem_wait under the lock. *)
Definition sem_wait (_ : unit) (s : semaphore_t) : bool * semaphore_t :=
  if 0 <? count s then (true, {| count := count s - 1 |}) else (false, s).
Definition sem_post (_ : unit) (s : semaphore_t) : semaphore_t * list (wake unit) :=
  ({| count := swrap 32 (count s + 1) |}, [One tt]).

#[export] Instance semaphore : Sync semaphore_t unit unit := {
  acquire := sem_wait;
  release := sem_post;
  queue_of _ := tt
}.

Inductive rw := R | W.
#[export] Instance rw_eq_dec : EqDecision rw.
Proof. solve_decision. Defined.

Record rwlock_t := { readers : Z; write_locked : Z }.
#[export] Instance eta_rwlock : Eta rwlock_t := fun r => Build_rwlock_t (readers r) (write_locked r).
Definition rwlock_init : rwlock_t := {| readers := 0; write_locked := 0 |}.

Definition rwlock_read_lock (l : rwlock_t) : bool * rwlock_t :=
  if write_locked l =? 0 then (true, l <| readers := swrap 32 (readers l + 1) |>) else (false, l).

Definition rwlock_read_unlock (l : rwlock_t) : rwlock_t * list (wake rw) :=
  let l := l <| readers := swrap 32 (readers l - 1) |> in
  if readers l =? 0 then (l, [One W]) else (l, []).

Definition rwlock_write_lock (l : rwlock_t) : bool * rwlock_t :=
  if (write_locked l =? 0) && (readers l =? 0) then (true, l <| write_locked := 1 |>) else (false, l).

Definition rwlock_write_unlock (l : rwlock_t) : rwlock_t * list (wake rw) :=
  (l <| write_locked := 0 |>, [All R; One W]).

#[export] Instance rwlock : Sync rwlock_t rw rw := {
  acquire op := match op with R => rwlock_read_lock | W => rwlock_write_lock end;
  release op := match op with R => rwlock_read_unlock | W => rwlock_write_unlock end;
  queue_of op := op
}.

End Wait.
