(* ===== verification/WaitClaims.v ===== *)
(** * Wait queues and locks: who is inside, who sleeps

    Waking from the queues of the scheduler, and the invariant of the blocking
    loop for every interleaving: the fields of a primitive agree with the
    threads inside it, and the queues hold exactly the sleeping threads. *)

From S2P Require Import Prelude Mem Sched SchedProps SchedClaims Wait.
Import Mem Sched SchedProps SchedClaims Wait.

Module WaitClaims.

(** ** The blocking loop *)

(** What the fields promise about the operations of the threads inside. *)
Class SyncLaws (O Op Q : Type) `{Sync O Op Q} (I : O -> list Op -> Prop) (bound : Z) := {
  sl_perm o ops ops' : ops ≡ₚ ops' -> I o ops -> I o ops';
  sl_acquire op o ok o' ops : acquire op o = (ok, o') -> Z.of_nat (length ops) < bound ->
    I o ops -> I o' (if ok then op :: ops else ops);
  sl_release op o o' ws ops : release op o = (o', ws) -> I o (op :: ops) -> I o' ops
}.

Section loop.
Context {O Op Q : Type} `{HS : Sync O Op Q} `{HQ : EqDecision Q} (I : O -> list Op -> Prop) (bound : Z).
Context `{HL : !SyncLaws O Op Q I bound}.
Variable ts : list Z.
Hypothesis Hbound : Z.of_nat (length ts) <= bound.
Implicit Types c : conf O Op Q.

Record inv (hs : list (Z * Op)) c : Prop := {
  in_nodup : NoDup (map fst hs);
  in_inside : forall t op, pcs c t = Inside op <-> In (t, op) hs;
  in_threads : forall t, pcs c t <> Out -> In t ts;
  in_obj : I (obj c) (map snd hs);
  in_queue : forall q t, In t (queues c q) <-> exists op, pcs c t = Asleep op /\ queue_of op = q;
  in_once : forall q, NoDup (queues c q)
}.

Lemma goto_at t p c : pcs (goto t p c) t = p.
Proof using Type. apply upd_eq. Qed.
Lemma goto_other t u p c : u <> t -> pcs (goto t p c) u = pcs c u.
Proof using Type. intros. by apply upd_ne. Qed.

Lemma queue_set q q' l c : queues (set_queue q l c) q' = if decide (q' = q) then l else queues c q'.
Proof using Type. done. Qed.
Lemma queue_goto t p c : queues (goto t p c) = queues c.
Proof using Type. done. Qed.

(** A thread moves between places outside the primitive that are not sleep. *)
Definition awake (p : pc Op Q) : bool := match p with Asleep _ | Inside _ => false | _ => true end.

Lemma inv_goto hs c t p : inv hs c -> In t ts -> awake (pcs c t) = true -> awake p = true -> inv hs (goto t p c).
Proof using Type.
  intros [A B C D E F] Ht Ha Hp. split; auto.
  - intros u op. destruct (decide (u = t)) as [->|Hn]; [|by rewrite goto_other].
    rewrite goto_at. split; [by intros ->|]. intros Hin. apply B in Hin. by rewrite Hin in Ha.
  - intros u. destruct (decide (u = t)) as [->|Hn]; [done|]. rewrite goto_other by done. apply C.
  - intros q u. rewrite queue_goto, E. destruct (decide (u = t)) as [->|Hn]; [|by rewrite goto_other].
    rewrite goto_at. split; intros (op & Eq & ?); [by rewrite Eq in Ha|by rewrite Eq in Hp].
Qed.

Lemma inv_sleep hs c t op : inv hs c -> In t ts -> pcs c t = Enq op ->
  inv hs (goto t (Asleep op) (set_queue (queue_of op) (t :: queues c (queue_of op)) c)).
Proof using Type.
  intros [A B C D E F] Ht Hp. set (q := queue_of op).
  assert (~ In t (queues c q)) as Hn by (intros Hin; apply E in Hin as (op' & Eq & _); congruence).
  split; auto.
  - intros u op'. destruct (decide (u = t)) as [->|Hu]; [|rewrite goto_other by done; apply B]. rewrite goto_at.
    split; [done|]. intros Hin. apply B in Hin. congruence.
  - intros u. destruct (decide (u = t)) as [->|Hu]; [done|]. rewrite goto_other by done. apply C.
  - intros q' u. rewrite queue_goto, queue_set. destruct (decide (u = t)) as [->|Hu].
    + rewrite goto_at. destruct (decide (q' = q)) as [->|Hq].
      * split; [eauto|]. intros _. by left.
      * rewrite E. split; intros (op' & Eq & Hq'); [congruence|]. injection Eq as <-. exfalso. by apply Hq.
    + rewrite goto_other by done. change (pcs (set_queue q (t :: queues c q) c) u) with (pcs c u).
      destruct (decide (q' = q)) as [->|Hq]; [|apply E]. rewrite <- E. cbn [In]. split; [intros [->|]; done|by right].
  - intros q'. rewrite queue_goto, queue_set. destruct (decide (q' = q)) as [->|]; [|apply F].
    apply list.NoDup_cons. split; [by rewrite list_elem_of_In|apply F].
Qed.

Lemma inv_acquire hs c t op : inv hs c -> In t ts -> pcs c t = Try op ->
  let '(ok, o) := acquire op (obj c) in
  exists hs', inv hs' (goto t (if ok then Inside op else Enq op) (c <| obj := o |>)).
Proof using HL Hbound.
  intros [A B C D E F] Ht Hp. destruct (acquire op (obj c)) as [ok o] eqn:Eo.
  assert (~ In t (map fst hs)) as Hfree.
  { intros Hin. apply in_map_iff in Hin as ([u op'] & <- & Hin). apply B in Hin. cbn in Hp. congruence. }
  assert (Z.of_nat (length (map snd hs)) < bound) as Hlen.
  { rewrite length_map, <- (length_map fst). assert (length (t :: map fst hs) <= length ts)%nat; [|cbn in *; lia].
    apply NoDup_incl_length; [constructor; [done|by apply NoDup_ListNoDup]|].
    intros u [->|Hu]; [done|]. apply in_map_iff in Hu as ([v op'] & <- & Hin). apply C. apply B in Hin. cbn in *. by rewrite Hin. }
  pose proof (sl_acquire op (obj c) ok o (map snd hs) Eo Hlen D) as D'.
  exists (if ok then (t, op) :: hs else hs). split.
  - destruct ok; [|done]. cbn. apply list.NoDup_cons. split; [by rewrite list_elem_of_In|done].
  - intros u op'. destruct (decide (u = t)) as [->|Hu].
    + rewrite goto_at. assert (~ In (t, op') hs) as Hno by (intros Hin; exact (Hfree (in_map fst hs (t, op') Hin))).
      destruct ok; cbn [In]; [|split; [done|tauto]]. split; [intros [= ->]; by left|intros [[= ->]|]; done].
    + rewrite goto_other by done. change (pcs (c <| obj := o |>)) with (pcs c). rewrite B.
      destruct ok; [|done]. cbn [In]. split; [by right|intros [[= ? ?]|]; congruence].
  - intros u. destruct (decide (u = t)) as [->|Hu]; [done|]. rewrite goto_other by done. apply C.
  - by destruct ok.
  - intros q u. change (queues (goto t (if ok then Inside op else Enq op) (c <| obj := o |>))) with (queues c). rewrite E.
    destruct (decide (u = t)) as [->|Hu]; [|by rewrite goto_other]. rewrite goto_at.
    split; intros (op' & Eq & _); [congruence|by destruct ok].
  - exact F.
Qed.

Lemma inv_release hs c t op : inv hs c -> In t ts -> pcs c t = Inside op ->
  let '(o, ws) := release op (obj c) in exists hs', inv hs' (goto t (Waking ws) (c <| obj := o |>)).
Proof using HL.
  intros [A B C D E F] Ht Hp. destruct (release op (obj c)) as [o ws] eqn:Eo.
  pose proof (proj1 (B t op) Hp) as Hin. destruct (in_split _ _ Hin) as (h1 & h2 & ->).
  assert (h1 ++ (t, op) :: h2 ≡ₚ (t, op) :: (h1 ++ h2)) as Hperm by (symmetry; apply Permutation_middle).
  assert (NoDup (map fst ((t, op) :: h1 ++ h2))) as A' by (by rewrite <- Hperm).
  cbn [map fst] in A'. apply list.NoDup_cons in A' as [Hfree A'].
  exists (h1 ++ h2). split; auto.
  - intros u op'. destruct (decide (u = t)) as [->|Hu].
    + rewrite goto_at. split; [done|]. intros Hx. exfalso. apply Hfree, list_elem_of_In, (in_map fst _ (t, op') Hx).
    + rewrite goto_other by done. change (pcs (c <| obj := o |>)) with (pcs c). rewrite B, Hperm. cbn [In].
      split; [intros [[= ? ?]|]; [congruence|done]|by right].
  - intros u. destruct (decide (u = t)) as [->|Hu]; [done|]. rewrite goto_other by done. apply C.
  - apply (sl_release op (obj c) o ws _ Eo). eapply sl_perm; [|exact D]. by rewrite Hperm.
  - intros q u. change (queues (goto t (Waking ws) (c <| obj := o |>))) with (queues c). rewrite E.
    destruct (decide (u = t)) as [->|Hu]; [|by rewrite goto_other]. rewrite goto_at.
    split; intros (op' & Eq & _); congruence.
Qed.

(** Where waking puts a thread. *)
Definition roused (p : pc Op Q) : pc Op Q := match p with Asleep op => Try op | p => p end.

Lemma rouse_pcs w c u : pcs (rouse w c) u = if decide (u = w) then roused (pcs c u) else pcs c u.
Proof using Type.
  unfold rouse. destruct (decide (u = w)) as [->|Hu].
  - unfold roused. destruct (pcs c w) eqn:E; by rewrite ?goto_at.
  - destruct (pcs c w); by rewrite ?goto_other.
Qed.

Lemma rouse_rest w c : obj (rouse w c) = obj c /\ queues (rouse w c) = queues c.
Proof using Type. unfold rouse. by destruct (pcs c w). Qed.

Lemma rouse_all l c :
  let c' := fold_left (fun c w => rouse w c) l c in
  obj c' = obj c /\ queues c' = queues c /\ forall u, pcs c' u = if in_dec Z.eq_dec u l then roused (pcs c u) else pcs c u.
Proof using Type.
  cbv zeta. revert c. induction l as [|w l IH]; intros c; cbn [fold_left]; [split_and!; auto|].
  destruct (IH (rouse w c)) as (-> & -> & Hp). destruct (rouse_rest w c) as [-> ->]. split_and!; auto.
  intros u. rewrite Hp, rouse_pcs.
  assert (forall p : pc Op Q, roused (roused p) = roused p) as Hi by (intros []; done).
  destruct (in_dec Z.eq_dec u (w :: l)) as [[->|Hc]|Hc].
  - destruct (decide (u = u)); [|done]. destruct (in_dec Z.eq_dec u l); auto.
  - destruct (in_dec Z.eq_dec u l); [|done]. destruct (decide (u = w)); auto.
  - cbn [In] in Hc. destruct (in_dec Z.eq_dec u l); [tauto|]. destruct (decide (u = w)) as [->|]; [|done]. tauto.
Qed.

(** Taking the threads [w] off queue [q] and waking them. *)
Lemma inv_wake hs c c' q w l : inv hs c -> queues c q = w ++ l ->
  obj c' = obj c -> queues c' = queues (set_queue q l c) ->
  (forall u, pcs c' u = if in_dec Z.eq_dec u w then roused (pcs c u) else pcs c u) -> inv hs c'.
Proof using Type.
  intros [A B C D E F] Hq Ho Hqs Hp.
  assert (NoDup (w ++ l)) as Hnd by (rewrite <- Hq; apply F).
  apply list.NoDup_app in Hnd as (Hw & Hdis & Hl).
  assert (forall u, In u w -> exists op, pcs c u = Asleep op /\ queue_of op = q) as Hsl.
  { intros u Hu. apply E. rewrite Hq. apply in_app_iff. by left. }
  split; rewrite ?Ho; auto.
  - intros t op. rewrite Hp, <- B. destruct (in_dec Z.eq_dec t w) as [Hin|]; [|done].
    destruct (Hsl t Hin) as (op' & -> & _). done.
  - intros t. rewrite Hp. destruct (in_dec Z.eq_dec t w) as [Hin|]; [|apply C]. intros _. apply C.
    destruct (Hsl t Hin) as (op' & -> & _). done.
  - intros q' t. rewrite Hqs, queue_set, Hp. destruct (decide (q' = q)) as [->|Hn].
    + destruct (in_dec Z.eq_dec t w) as [Hin|Hin].
      * split; [intros Hl'; exfalso; apply (Hdis t); by apply list_elem_of_In|].
        intros (op & Hx & _). destruct (Hsl t Hin) as (op' & Eq & _). by rewrite Eq in Hx.
      * rewrite <- E, Hq, in_app_iff. tauto.
    + rewrite E. destruct (in_dec Z.eq_dec t w) as [Hin|]; [|done]. destruct (Hsl t Hin) as (op' & Eq & Hq').
      split; intros (op & Hx & Hy); [congruence|by rewrite Eq in Hx].
  - intros q'. rewrite Hqs, queue_set. destruct (decide (q' = q)) as [->|]; [done|apply F].
Qed.

Lemma run_inv hs c t op c' : inv hs c -> In t ts -> run t op c = Some c' -> exists hs', inv hs' c'.
Proof using HL Hbound.
  intros V Ht. unfold run. destruct (pcs c t) as [|o|o|o|o|ws] eqn:Ep; intros Er.
  - injection Er as <-. exists hs. apply inv_goto; auto. by rewrite Ep.
  - pose proof (inv_acquire hs c t o V Ht Ep) as K. destruct (acquire o (obj c)) as [ok o']. by injection Er as <-.
  - injection Er as <-. exists hs. by apply inv_sleep.
  - done.
  - pose proof (inv_release hs c t o V Ht Ep) as K. destruct (release o (obj c)) as [o' ws]. by injection Er as <-.
  - assert (forall p, awake p = true -> inv hs (goto t p c)) as G by (intros p Hp; apply inv_goto; auto; by rewrite Ep).
    destruct ws as [|[q|q] ws]; [injection Er as <-; exists hs; by apply G| |].
    + specialize (G (Waking ws) eq_refl). cbv zeta in Er. destruct (queues (goto t (Waking ws) c) q) as [|w l] eqn:Eq; injection Er as <-; exists hs; [done|].
      destruct (rouse_rest w (set_queue q l (goto t (Waking ws) c))) as [R1 R2].
      apply (inv_wake hs _ _ q [w] l G Eq R1 R2). intros u. rewrite rouse_pcs.
      destruct (in_dec Z.eq_dec u [w]) as [[->|[]]|Hx]; [by destruct (decide (u = u))|].
      destruct (decide (u = w)) as [->|]; [|done]. exfalso. apply Hx. by left.
    + specialize (G (Waking ws) eq_refl). injection Er as <-. exists hs.
      destruct (rouse_all (queues (goto t (Waking ws) c) q) (set_queue q [] (goto t (Waking ws) c))) as (R1 & R2 & R3).
      apply (inv_wake hs _ _ q (queues (goto t (Waking ws) c) q) [] G); auto. by rewrite app_nil_r.
Qed.

Lemma runs_inv l hs c c' : inv hs c -> (forall t op, In (t, op) l -> In t ts) -> runs_to l c = Some c' -> exists hs', inv hs' c'.
Proof using HL Hbound.
  revert hs c. induction l as [|[t op] l IH]; intros hs c V Hl; cbn [runs_to]; [intros [= <-]; eauto|].
  destruct (run t op c) as [c1|] eqn:E; [|done]. intros Hr.
  destruct (run_inv hs c t op c1 V (Hl t op ltac:(by left)) E) as [hs1 V1].
  apply (IH hs1 c1); auto. intros u o Hu. apply (Hl u o). by right.
Qed.

Lemma initial_inv o : I o [] -> inv [] (initial o).
Proof using Type.
  intros Ho. split; cbn; auto; try done.
  - constructor.
  - intros q t. split; [done|]. by intros (op & ? & _).
  - constructor.
Qed.


End loop.


(** ** The primitives *)

Definition THREADS : Z := 2 ^ 31 - 1.

Definition mutex_inv (m : mutex_t) (ops : list unit) : Prop :=
  locked m = Z.of_nat (length ops) /\ (length ops <= 1)%nat.

#[export] Instance mutex_laws : SyncLaws mutex_t unit unit mutex_inv THREADS.
Proof.
  split.
  - intros o ops ops' Hp. unfold mutex_inv. by rewrite Hp.
  - intros op o ok o' ops E _ [H1 H2]. unfold acquire, mutex, mutex_lock in E. injection E as <- <-. unfold mutex_inv. cbn [locked].
    destruct (Z.eqb_spec (locked o) 0); cbn [length]; lia.
  - intros op o o' ws ops E [H1 H2]. unfold release, mutex, mutex_unlock in E. injection E as <- <-. unfold mutex_inv. cbn in *. lia.
Qed.

(** A semaphore with [n] permits. *)
Definition sem_inv (n : Z) (s : semaphore_t) (ops : list unit) : Prop :=
  0 <= count s /\ count s + Z.of_nat (length ops) = n /\ n < 2 ^ 31.

#[export] Instance sem_laws n : SyncLaws semaphore_t unit unit (sem_inv n) THREADS.
Proof.
  split.
  - intros o ops ops' Hp. unfold sem_inv. by rewrite Hp.
  - intros op o ok o' ops E _ [H1 H2]. unfold acquire, semaphore, sem_wait in E. unfold sem_inv.
    destruct (Z.ltb_spec 0 (count o)); injection E as <- <-; cbn [count length]; lia.
  - intros op o o' ws ops E [H1 H2]. unfold release, semaphore, sem_post in E. injection E as <- <-. unfold sem_inv. cbn in *.
    rewrite swrap_small by lia. lia.
Qed.

Definition occ (op : rw) (ops : list rw) : Z := Z.of_nat (count_occ rw_eq_dec ops op).

(** The counters of a rwlock, and that a writer is alone. *)
Record rw_inv (l : rwlock_t) (ops : list rw) : Prop := {
  ri_readers : readers l = occ R ops;
  ri_writers : write_locked l = occ W ops;
  ri_alone : occ W ops = 0 \/ occ W ops = 1 /\ occ R ops = 0;
  ri_bound : Z.of_nat (length ops) <= THREADS
}.

Lemma occ_cons op op' ops : occ op (op' :: ops) = occ op ops + if decide (op' = op) then 1 else 0.
Proof. unfold occ. cbn. destruct (rw_eq_dec op' op), (decide (op' = op)); try done; lia. Qed.

Lemma occ_range op ops : 0 <= occ op ops <= Z.of_nat (length ops).
Proof. unfold occ. pose proof (count_occ_bound rw_eq_dec op ops). lia. Qed.

#[export] Instance rwlock_laws : SyncLaws rwlock_t rw rw rw_inv THREADS.
Proof.
  split.
  - intros o ops ops' Hp [A B C D].
    assert (forall op, occ op ops' = occ op ops) as E by (intros op; unfold occ; by rewrite (proj1 (Permutation_count_occ rw_eq_dec ops ops') Hp)).
    split; rewrite ?E; auto. by rewrite <- Hp.
  - intros op o ok o' ops E Hl [A B C D]. pose proof (occ_range R ops). unfold THREADS in *.
    unfold acquire, rwlock, rwlock_read_lock, rwlock_write_lock in E.
    destruct op; [destruct (Z.eqb_spec (write_locked o) 0)
                 |destruct (Z.eqb_spec (write_locked o) 0); [destruct (Z.eqb_spec (readers o) 0)|]];
      cbn [andb] in E; injection E as <- <-; try (split; auto; fail);
      split; rewrite ?occ_cons; cbn [readers write_locked length]; rewrite ?swrap_small by lia;
      repeat (destruct (decide _); try done); unfold THREADS; lia.
  - intros op o o' ws ops E [A B C D]. pose proof (occ_range R ops). pose proof (occ_range W ops). unfold THREADS in *.
    rewrite !occ_cons in *. cbn [length] in D.
    unfold release, rwlock, rwlock_read_unlock, rwlock_write_unlock in E.
    destruct op; repeat (destruct (decide _) in *; try done); cbv zeta in E;
      [destruct (readers _ =? 0) in E|]; injection E as <- <-; split; cbn [readers write_locked];
      rewrite ?swrap_small by lia; unfold THREADS; lia.
Qed.


(** ** Waking through the scheduler *)

(** What waking the tasks [l] achieves. *)
Record woke (l : list Z) (s s' : sched) : Prop := {
  wo_queue : queued s' 0 ≡ₚ l ++ queued s 0;
  wo_rq : rq_ok s' 0;
  wo_ready : forall t, In t l -> t_state (tasks s' t) = TASK_READY /\ wait_next (tasks s' t) = 0;
  wo_other : forall t, ~ In t l -> tasks s' t = tasks s t
}.

(** One round of the loops: the head leaves the queue and becomes ready. *)
Lemma wake_head t s : rq_ok s 0 -> rq_count (per_cpu_rq s 0) < RQ_SLOTS -> t_state (tasks s t) = TASK_BLOCKED ->
  let s' := sched_unblock t (upd_task t (fun k => k <| wait_next := 0 |>) s) in
  woke [t] s s' /\ rq_count (per_cpu_rq s' 0) = rq_count (per_cpu_rq s 0) + 1.
Proof.
  intros Hrq Hroom Hb. cbv zeta. set (s1 := upd_task t _ s).
  assert (forall u, vrt s1 u = vrt s u) as Hv.
  { intros u. unfold vrt, s1. destruct (decide (u = t)) as [->|]; [by rewrite upd_task_self|by rewrite upd_task_other]. }
  assert (rq_ok s1 0) as R1 by (destruct Hrq as [B O]; split; [exact B|]; by apply (ordered_ext (vrt s))).
  assert (t_state (tasks s1 t) = TASK_BLOCKED) as Hb1 by (unfold s1; by rewrite upd_task_self).
  destruct (unblock_spec t s1) as (U1 & U2 & _ & _ & U3). destruct (U3 R1 Hroom Hb1) as (R2 & Q2 & C2 & S2).
  split; [|exact C2]. split; auto.
  - rewrite Q2, insert_before_perm. done.
  - intros u [<-|[]]. split; [done|]. rewrite U2. unfold s1. by rewrite upd_task_self.
  - intros u Hu. cbn [In] in Hu. rewrite U1 by (intros ->; tauto). unfold s1. apply upd_task_other. intros ->. tauto.
Qed.

Lemma wake_list_ok fuel l h s : seg s h l 0 -> NoDup l -> (length l <= fuel)%nat -> rq_ok s 0 ->
  rq_count (per_cpu_rq s 0) + Z.of_nat (length l) <= RQ_SLOTS ->
  (forall t, In t l -> t_state (tasks s t) = TASK_BLOCKED) -> woke l s (wake_list fuel h s).
Proof.
  revert l h s. induction fuel as [|fuel IH]; intros l h s Hs Hnd Hf Hrq Hroom Hb.
  { destruct l as [|t l]; [|cbn in Hf; lia]. split; cbn; auto; done. }
  cbn [wake_list]. destruct l as [|t l]; cbn [seg] in Hs.
  { rewrite Hs. split; cbn; auto; done. }
  destruct Hs as (-> & H0 & Hs). rewrite (proj2 (Z.eqb_neq t 0) H0). apply list.NoDup_cons in Hnd as [Hnt Hnd].
  rewrite list_elem_of_In in Hnt. cbn [length] in *.
  destruct (wake_head t s Hrq ltac:(lia) (Hb t ltac:(by left))) as [[W1 W2 W3 W4] Wc]. cbv zeta in *.
  set (s1 := sched_unblock t _) in *. clearbody s1.
  assert (forall u, In u l -> tasks s1 u = tasks s u) as Hsame.
  { intros u Hu. apply W4. cbn. intros [->|[]]. done. }
  destruct (IH l (wait_next (tasks s t)) s1) as [V1 V2 V3 V4]; auto; [| lia | lia | |].
  - apply (seg_frame s); [|done]. intros u Hu. by rewrite Hsame.
  - intros u Hu. rewrite Hsame by done. apply Hb. by right.
  - split; auto.
    + rewrite V1, W1. cbn. symmetry. apply Permutation_middle.
    + intros u [<-|Hu]; [|by apply V3]. rewrite V4 by done. apply W3. by left.
    + intros u Hu. cbn [In] in Hu. rewrite V4, W4; [done| |]; cbn [In]; tauto.
Qed.




(** The threads that hold a rwlock for reading. *)
Lemma readers_of (hs : list (Z * rw)) : NoDup (map fst hs) ->
  exists rs, NoDup rs /\ Z.of_nat (length rs) = occ R (map snd hs) /\ forall t, In t rs <-> In (t, R) hs.
Proof.
  induction hs as [|[t op] hs IH]; cbn [map fst snd]; intros Hnd.
  - exists []. split_and!; [constructor|done|done].
  - apply list.NoDup_cons in Hnd as [Hn Hnd]. rewrite list_elem_of_In in Hn. destruct (IH Hnd) as (rs & A & B & C).
    assert (~ In t rs) as Ht by (intros Hin; apply Hn; apply C in Hin; exact (in_map fst hs (t, R) Hin)).
    rewrite occ_cons. destruct op; destruct (decide _); try done.
    + exists (t :: rs). split_and!; [apply list.NoDup_cons; split; [by rewrite list_elem_of_In|done]|cbn; lia|].
      intros u. cbn [In]. rewrite C. split; [intros [->|]; auto|intros [[= ->]|]; auto].
    + exists rs. split_and!; auto; [lia|]. intros u. cbn [In]. rewrite C. split; [auto|intros [[= ]|]; auto].
Qed.

(** Beside a writer there is no one. *)
Lemma alone_absurd l1 l2 op : In op l1 \/ In op l2 -> 0 < occ W (l1 ++ W :: l2) ->
  occ W (l1 ++ W :: l2) = 0 \/ occ W (l1 ++ W :: l2) = 1 /\ occ R (l1 ++ W :: l2) = 0 -> False.
Proof.
  intros Hin H0 [Hz|[H1 H2]]; [lia|]. unfold occ in *. rewrite !count_occ_app in *. cbn in H1, H2.
  assert (0 < count_occ rw_eq_dec l1 op + count_occ rw_eq_dec l2 op)%nat.
  { destruct Hin as [Hin|Hin]; apply (count_occ_In rw_eq_dec) in Hin; lia. }
  destruct op; lia.
Qed.


(** ** Exclusion *)

(** Interleavings of the threads [ts] from the unlocked state. *)
Definition interleaving {O Op Q} `{Sync O Op Q} `{EqDecision Q} (ts : list Z) (o : O) (l : list (Z * Op)) (c : conf O Op Q) : Prop :=
  Z.of_nat (length ts) <= THREADS /\ (forall t op, In (t, op) l -> In t ts) /\ runs_to l (initial o) = Some c.

Lemma interleaving_inv {O Op Q} `{HS : Sync O Op Q} `{HQ : EqDecision Q} I `{HL : !SyncLaws O Op Q I THREADS} ts o l c :
  I o [] -> interleaving ts o l c -> exists hs, inv I ts hs c.
Proof. intros Ho (Hb & Ht & Hr). exact (runs_inv I THREADS ts Hb l [] _ c (initial_inv I ts o Ho) Ht Hr). Qed.

(** C15: A mutex in any interleaving of any number of threads: at most one thread
    is inside, [locked] is set exactly while there is one, and the queue holds
    exactly the sleeping threads. *)
Theorem mutex_exclusive ts l c :
  interleaving ts mutex_init l c ->
  (forall t t' op op', pcs c t = Inside op -> pcs c t' = Inside op' -> t = t') /\
  (locked (obj c) = 0 <-> forall t op, pcs c t <> Inside op) /\
  (forall t, In t (queues c tt) <-> pcs c t = Asleep tt).
Proof.
  intros Hr. destruct (interleaving_inv mutex_inv ts mutex_init l c ltac:(split; cbn; lia) Hr) as [hs [A B _ [D D'] E _]].
  rewrite length_map in D, D'. split_and!.
  - intros t t' op op' Ht Ht'. apply B in Ht, Ht'. destruct hs as [|h [|]]; cbn in D'; [done| |lia].
    destruct Ht as [->|[]], Ht' as [[= <- <-]|[]]. done.
  - rewrite D. split.
    + intros Hz t op Ht. apply B in Ht. destruct hs; [done|cbn in Hz; lia].
    + intros Hn. destruct hs as [|[t op] hs]; [done|]. exfalso. apply (Hn t op), B. by left.
  - intros t. rewrite E. split; [by intros ([] & ? & _)|]. intros Ht. by exists tt.
Qed.

Lemma mutex_exclusive_witness :
  exists c, runs_to [(1, tt); (1, tt); (2, tt); (2, tt); (2, tt)] (initial mutex_init) = Some c /\
  pcs c 1 = Inside tt /\ In 2 (queues c tt) /\ ~ locked (obj c) = 0.
Proof.
  destruct (runs_to [(1, tt); (1, tt); (2, tt); (2, tt); (2, tt)] (initial mutex_init)) as [c|] eqn:E; [|discriminate E].
  exists c. split; [reflexivity|].
  destruct (mutex_exclusive [1; 2] [(1, tt); (1, tt); (2, tt); (2, tt); (2, tt)] c) as (_ & M2 & M3).
  { split; [vm_compute; discriminate|]. split; [|exact E]. intros t op Hin.
    destruct Hin as [Hin|[Hin|[Hin|[Hin|[Hin|[]]]]]]; injection Hin as <- _; cbn; auto. }
  injection E as <-. split; [reflexivity|]. split; [apply M3; reflexivity|].
  intros Hz. apply (proj1 M2 Hz 1 tt). reflexivity.
Defined.

(** A rwlock in any interleaving: a thread that holds it for writing is the
    only one inside, [write_locked] tells whether there is one, and [readers] is
    the number of threads that hold it for reading. *)
Theorem rwlock_exclusive ts l c :
  interleaving ts rwlock_init l c ->
  (forall t t' op, pcs c t = Inside W -> pcs c t' = Inside op -> t = t') /\
  (write_locked (obj c) = 0 <-> forall t, pcs c t <> Inside W) /\
  exists rs, NoDup rs /\ readers (obj c) = Z.of_nat (length rs) /\ forall t, In t rs <-> pcs c t = Inside R.
Proof.
  intros Hr. destruct (interleaving_inv rw_inv ts rwlock_init l c) as [hs [A B _ [D1 D2 D3 D4] E _]];
    [split; cbn; auto; unfold THREADS; lia|exact Hr|].
  assert (forall t, pcs c t = Inside W -> 0 < occ W (map snd hs)) as Hw.
  { intros t Ht. apply B in Ht. unfold occ. apply (in_map snd) in Ht. apply (count_occ_In rw_eq_dec) in Ht. cbn in Ht. lia. }
  split_and!.
  - intros t t' op Ht Ht'. pose proof (Hw t Ht). apply B in Ht, Ht'. destruct (in_split _ _ Ht) as (h1 & h2 & ->).
    apply in_app_iff in Ht'. cbn [In] in Ht'. destruct Ht' as [Ht'|[[= <- <-]|Ht']]; [exfalso| done |exfalso].
    all: rewrite map_app in *; cbn [map snd] in *; apply (in_map snd) in Ht';
      apply (alone_absurd (map snd h1) (map snd h2) op); auto; done.
  - rewrite D2. split.
    + intros Hz t Ht. pose proof (Hw t Ht). lia.
    + intros Hn. unfold occ. apply Nat2Z.inj_iff with (m := 0%nat), count_occ_not_In. intros Hin.
      apply in_map_iff in Hin as ([t op] & Eop & Hin). cbn in Eop. subst op. apply (Hn t). by apply B.
  - destruct (readers_of hs A) as (rs & Hnd & Hlen & Hrs). exists rs. split_and!; auto; [by rewrite D1|].
    intros t. rewrite Hrs, B. done.
Qed.


Lemma rwlock_exclusive_witness :
  exists c, runs_to [(1, R); (1, R); (2, R); (2, R); (3, W); (3, W); (3, W)] (initial rwlock_init) = Some c /\
  readers (obj c) = 2 /\ write_locked (obj c) = 0 /\ pcs c 3 = Asleep W.
Proof.
  set (l := [(1, R); (1, R); (2, R); (2, R); (3, W); (3, W); (3, W)]).
  destruct (runs_to l (initial rwlock_init)) as [c|] eqn:E; [|discriminate E].
  exists c. split; [reflexivity|].
  destruct (rwlock_exclusive [1; 2; 3] l c) as (_ & M2 & _).
  { split; [vm_compute; discriminate|]. split; [|exact E]. intros t op Hin.
    destruct Hin as [Hin|[Hin|[Hin|[Hin|[Hin|[Hin|[Hin|[]]]]]]]]; injection Hin as <- _; cbn; auto. }
  injection E as <-. split; [reflexivity|]. split; [|reflexivity].
  apply M2. intros t. unfold goto. cbn. unfold upd.
  repeat match goal with |- context [if ?b then _ else _] => destruct b end; discriminate.
Defined.

(** A semaphore with [n] permits never lets more than [n] threads in. *)
Lemma semaphore_permits ts n l (c : conf semaphore_t unit unit) : 0 <= n < 2 ^ 31 -> interleaving ts (sem_init n) l c ->
  exists hs, NoDup (map fst hs) /\ (forall t op, pcs c t = Inside op <-> In (t, op) hs) /\
    count (obj c) + Z.of_nat (length hs) = n /\ Z.of_nat (length hs) <= n.
Proof.
  intros Hn Hr. destruct (interleaving_inv (sem_inv n) ts (sem_init n) l c ltac:(unfold sem_inv; cbn; lia) Hr)
    as [hs [A B _ (D1 & D2 & _) _ _]].
  rewrite length_map in D2. exists hs. split_and!; auto. lia.
Qed.

(** ** Lost wake-ups and shared queues *)

(** mutex_lock tests the lock and sleeps in two steps.  Thread 2 fails the test,
    thread 1 unlocks and finds no one to wake, thread 2 goes to sleep: the mutex
    is free, everyone else is done, and thread 2 sleeps on. *)
Example mutex_lost_wakeup :
  exists c, runs_to [(1, tt); (1, tt); (2, tt); (2, tt); (1, tt); (1, tt); (1, tt); (2, tt)] (initial mutex_init) = Some c /\
  locked (obj c) = 0 /\ pcs c 1 = Out /\ pcs c 2 = Asleep tt /\ run 2 tt c = None.
Proof. eexists. split; [reflexivity|]. split_and!; reflexivity. Qed.

(** Task 40 sleeps in the bucket of one address; a wake on another address of
    the same bucket wakes it. *)
Example futex_wakes_other_address :
  let f := {| futex_table := (fun _ => 0).[futex_hash 0x1000 <- 40]; futex_initialized := true |} in
  let '(r, _, s) := sys_futex 4 (fun _ => 0) 0x1100 FUTEX_WAKE 1 f demo_sched in
  r = 0 /\ t_state (tasks demo_sched 40) = TASK_BLOCKED /\ t_state (tasks s 40) = TASK_READY.
Proof. vm_compute. split_and!; reflexivity. Qed.

(** With no other task to run, wq_sleep returns to its caller, which is still
    marked blocked and queued; sleeping again links the task to itself. *)
Example wq_sleep_alone :
  let s := set_rq 0 empty_rq demo_sched in
  let '(wq, s) := wq_sleep 4 wq_init s in
  let back := pc_current s in
  let '(wq, s) := wq_sleep 4 wq s in
  back = 10 /\ pc_current s = 10 /\ wq = 10 /\ t_state (tasks s 10) = TASK_BLOCKED /\ wait_next (tasks s 10) = 10.
Proof. vm_compute. split_and!; reflexivity. Qed.

End WaitClaims.
