(* ===== verification/Pipe.v ===== *)
(** * Pipes (src/src/ipc/pipe.c, pipe.h)

    A pipe is a counted ring of 4096 bytes between user buffers, with a wait
    queue for each side.  Reading and writing either finish or put the caller
    to sleep, to start over when it is woken.  The byte stream is the
    specification: what is read is what was written, in order. *)

From S2P Require Import Prelude Ring Mem Sched SchedClaims Wait.
Import Mem Sched Wait.

Module Pipe.

Definition PIPE_BUF_SIZE : Z := 4096.

Record pipe_t := {
  buf : Z -> Z;
  read_pos : Z;
  write_pos : Z;
  pcount : Z;
  p_readers : wait_queue_t;
  p_writers : wait_queue_t;
  readers_open : Z;
  writers_open : Z
}.
#[export] Instance eta_pipe : Eta pipe_t :=
  fun r => Build_pipe_t (buf r) (read_pos r) (write_pos r) (pcount r) (p_readers r) (p_writers r)
                        (readers_open r) (writers_open r).

(** What sys_pipe makes of a fresh object. *)
Definition pipe_new : pipe_t :=
  {| buf := fun _ => 0; read_pos := 0; write_pos := 0; pcount := 0; p_readers := wq_init; p_writers := wq_init;
     readers_open := 1; writers_open := 1 |}.

(** A call returns, or its caller sleeps and will run the call again. *)
Inductive io := Ret (r : Z) | Sleeps.

(** The copy loop of pipe_read. *)
Definition take_byte (dst i : Z) (st : pipe_t * mem) : pipe_t * mem :=
  let '(p, m) := st in
  (p <| read_pos := (read_pos p + 1) mod PIPE_BUF_SIZE |>, m.[dst + i <- buf p (read_pos p)]).

Definition pipe_read (fuel : nat) (dst n : Z) (p : pipe_t) (s : sched) (m : mem) : io * pipe_t * sched * mem :=
  if pcount p =? 0 then
    if writers_open p =? 0 then (Ret 0, p, s, m)
    else let '(wq, s) := wq_sleep fuel (p_readers p) s in (Sleeps, p <| p_readers := wq |>, s, m)
  else
    let to_read := if n <? pcount p then n else pcount p in
    let '(p, m) := for_loop (Z.to_nat to_read) 0 (take_byte dst) (p, m) in
    let p := p <| pcount := pcount p - to_read |> in
    let '(wq, s) := wq_wake_one (p_writers p) s in
    (Ret to_read, p <| p_writers := wq |>, s, m).

(** The copy loop of pipe_write. *)
Definition put_byte (src : Z) (m : mem) (i : Z) (p : pipe_t) : pipe_t :=
  p <| buf := (buf p).[write_pos p <- m (src + i)] |> <| write_pos := (write_pos p + 1) mod PIPE_BUF_SIZE |>.

Definition pipe_write (fuel : nat) (src n : Z) (m : mem) (p : pipe_t) (s : sched) : io * pipe_t * sched :=
  if PIPE_BUF_SIZE <=? pcount p then
    if readers_open p =? 0 then (Ret (-1), p, s)
    else let '(wq, s) := wq_sleep fuel (p_writers p) s in (Sleeps, p <| p_writers := wq |>, s)
  else
    let space := PIPE_BUF_SIZE - pcount p in
    let to_write := if n <? space then n else space in
    let p := for_loop (Z.to_nat to_write) 0 (put_byte src m) p in
    let p := p <| pcount := pcount p + to_write |> in
    let '(wq, s) := wq_wake_one (p_readers p) s in
    (Ret to_write, p <| p_readers := wq |>, s).

Definition pipe_poll_read (p : pipe_t) : bool := (0 <? pcount p) || (writers_open p =? 0).
Definition pipe_poll_write (p : pipe_t) : bool := (pcount p <? PIPE_BUF_SIZE) || (readers_open p =? 0).

(** The close functions up to the kfree: the pipe is free when both counts are 0. *)
Definition pipe_close_read (fuel : nat) (p : pipe_t) (s : sched) : bool * pipe_t * sched :=
  let p := p <| readers_open := u32 (readers_open p - 1) |> in
  let '(wq, s) := wq_wake_all fuel (p_writers p) s in
  ((readers_open p =? 0) && (writers_open p =? 0), p <| p_writers := wq |>, s).

Definition pipe_close_write (fuel : nat) (p : pipe_t) (s : sched) : bool * pipe_t * sched :=
  let p := p <| writers_open := u32 (writers_open p - 1) |> in
  let '(wq, s) := wq_wake_all fuel (p_readers p) s in
  ((readers_open p =? 0) && (writers_open p =? 0), p <| p_readers := wq |>, s).

(** ** Invariant and contents *)

Record pipe_ok (p : pipe_t) : Prop := {
  po_read : 0 <= read_pos p < PIPE_BUF_SIZE;
  po_count : 0 <= pcount p <= PIPE_BUF_SIZE;
  po_write : write_pos p = (read_pos p + pcount p) mod PIPE_BUF_SIZE;
  po_bytes : forall i, 0 <= buf p i < 256
}.

(** The bytes in the pipe, oldest first. *)
Definition contents (p : pipe_t) : list Z := window PIPE_BUF_SIZE (buf p) (read_pos p) (pcount p).

(** The bytes of a user buffer. *)
Definition bytes_at (m : mem) (a n : Z) : list Z := map (fun i => m (a + i)) (seqZ 0 n).

Lemma pipe_new_ok : pipe_ok pipe_new.
Proof. split; cbn; unfold PIPE_BUF_SIZE; try lia. done. Qed.

Lemma window_split {A} N (b : Z -> A) start k n : 0 <= k <= n ->
  window N b start n = window N b start k ++ window N b ((start + k) mod N) (n - k).
Proof.
  intros Hk. rewrite window_mod. unfold window. replace n with (k + (n - k)) at 1 by lia.
  rewrite seqZ_app, map_app by lia. f_equal. replace (0 + k) with (k + 0) by lia.
  rewrite <- (fmap_add_seqZ k 0), map_map. apply map_ext. intros i. f_equal. f_equal. lia.
Qed.

Lemma bytes_at_snoc m a n : 0 <= n -> bytes_at m a (n + 1) = bytes_at m a n ++ [m (a + n)].
Proof. intros Hn. unfold bytes_at. by rewrite seqZ_app, map_app by lia. Qed.

Lemma bytes_at_ext m m' a n : (forall b, a <= b < a + n -> m' b = m b) -> bytes_at m' a n = bytes_at m a n.
Proof.
  intros H. apply map_ext_in. intros i Hi. apply list_elem_of_In, elem_of_seqZ in Hi. apply H. lia.
Qed.

(** [k] rounds of the copy loop of pipe_read. *)
Lemma take_bytes k dst p m : 0 <= read_pos p < PIPE_BUF_SIZE ->
  let '(p', m') := for_loop k 0 (take_byte dst) (p, m) in
  p' = p <| read_pos := (read_pos p + Z.of_nat k) mod PIPE_BUF_SIZE |> /\
  bytes_at m' dst (Z.of_nat k) = window PIPE_BUF_SIZE (buf p) (read_pos p) (Z.of_nat k) /\
  forall a, ~ dst <= a < dst + Z.of_nat k -> m' a = m a.
Proof.
  intros Hr. induction k as [|k IH].
  - cbn [for_loop]. split_and!; [|done|done]. rewrite Z.add_0_r, Z.mod_small by done. by destruct p.
  - rewrite for_loop_snoc. destruct (for_loop k 0 (take_byte dst) (p, m)) as [p1 m1]. destruct IH as (-> & Hb & Hf).
    unfold take_byte. set (q := p <| read_pos := _ |>).
    assert (read_pos q = (read_pos p + Z.of_nat k) mod PIPE_BUF_SIZE) as -> by done.
    assert (buf q = buf p) as -> by done. rewrite Zplus_mod_idemp_l, Z.add_0_l.
    replace (Z.of_nat (S k)) with (Z.of_nat k + 1) by lia. split_and!.
    + rewrite Z.add_assoc. done.
    + rewrite window_snoc, bytes_at_snoc, upd_eq by lia. f_equal. rewrite <- Hb. apply bytes_at_ext.
      intros a Ha. apply upd_ne. lia.
    + intros a Ha. rewrite upd_ne by lia. apply Hf. lia.
Qed.

Lemma same_ends q p x b w : q = p <| buf := buf q |> <| write_pos := x |> ->
  q <| buf := b |> <| write_pos := w |> = p <| buf := b |> <| write_pos := w |>.
Proof. intros E. rewrite E. done. Qed.

(** [k] rounds of the copy loop of pipe_write, into free space. *)
Lemma put_bytes k src m p : pipe_ok p -> bytes m -> pcount p + Z.of_nat k <= PIPE_BUF_SIZE ->
  let p' := for_loop k 0 (put_byte src m) p in
  p' = p <| buf := buf p' |> <| write_pos := (write_pos p + Z.of_nat k) mod PIPE_BUF_SIZE |> /\
  (forall i, 0 <= buf p' i < 256) /\
  window PIPE_BUF_SIZE (buf p') (read_pos p) (pcount p + Z.of_nat k) = contents p ++ bytes_at m src (Z.of_nat k).
Proof.
  intros [Hr Hc Hw Hb] Hm. cbv zeta. induction k as [|k IH]; intros Hk.
  - cbn [for_loop]. rewrite !Z.add_0_r, Z.mod_small by (rewrite Hw; apply Z.mod_pos_bound; unfold PIPE_BUF_SIZE; lia).
    split_and!; [by destruct p|done|]. unfold contents. by rewrite app_nil_r.
  - rewrite for_loop_snoc. destruct IH as (E & Hb' & Hwin); [lia|]. set (q := for_loop k 0 (put_byte src m) p) in *.
    assert (write_pos q = (read_pos p + (pcount p + Z.of_nat k)) mod PIPE_BUF_SIZE) as Ewp.
    { rewrite E. change (write_pos (p <| buf := buf q |> <| write_pos := (write_pos p + Z.of_nat k) mod PIPE_BUF_SIZE |>))
        with ((write_pos p + Z.of_nat k) mod PIPE_BUF_SIZE). rewrite Hw, Zplus_mod_idemp_l. f_equal. lia. }
    assert (write_pos q = (write_pos p + Z.of_nat k) mod PIPE_BUF_SIZE) as Ewp' by (by rewrite E).
    assert (buf (put_byte src m (0 + Z.of_nat k) q) = (buf q).[write_pos q <- m (src + Z.of_nat k)]) as Ebuf by done.
    rewrite Ebuf. replace (Z.of_nat (S k)) with (Z.of_nat k + 1) by lia. split_and!.
    + unfold put_byte. rewrite Z.add_0_l. rewrite (same_ends q p _ _ _ E), Ewp', Zplus_mod_idemp_l, Z.add_assoc. done.
    + intros i. destruct (upd_cases (buf q) (write_pos q) (m (src + Z.of_nat k)) i) as [[_ ->]|[_ ->]]; [apply Hm|apply Hb'].
    + rewrite bytes_at_snoc, app_assoc, <- Hwin by lia. rewrite Ewp, (Z.add_assoc (pcount p)). apply window_push. lia.
Qed.

(** ** Reading and writing *)

(** pipe_read by cases. *)
Record read_result (dst n : Z) (p : pipe_t) (m : mem) (r : io) (p' : pipe_t) (m' : mem) : Prop := {
  rr_ok : pipe_ok p';
  rr_frame : forall a, ~ dst <= a < dst + Z.min n (pcount p) -> m' a = m a;
  rr_case : match r with
            | Sleeps => contents p = [] /\ writers_open p <> 0 /\ contents p' = [] /\ m' = m
            | Ret k => k = Z.min n (pcount p) /\ (contents p = [] -> writers_open p = 0) /\
                       contents p = bytes_at m' dst k ++ contents p'
            end;
  rr_open : readers_open p' = readers_open p /\ writers_open p' = writers_open p
}.

Lemma wq_writers p wq : pipe_ok p -> pipe_ok (p <| p_writers := wq |>) /\ contents (p <| p_writers := wq |>) = contents p.
Proof. intros [A B C D]. split; [by split|done]. Qed.
Lemma wq_readers p wq : pipe_ok p -> pipe_ok (p <| p_readers := wq |>) /\ contents (p <| p_readers := wq |>) = contents p.
Proof. intros [A B C D]. split; [by split|done]. Qed.

Lemma empty_contents p : pcount p = 0 -> contents p = [].
Proof. intros E. unfold contents. by rewrite E. Qed.

Lemma contents_length p : pipe_ok p -> Z.of_nat (length (contents p)) = pcount p.
Proof. intros [_ H _ _]. unfold contents. rewrite window_length. lia. Qed.

Lemma read_ok fuel dst n p s m : pipe_ok p -> 0 <= n ->
  let '(r, p', s', m') := pipe_read fuel dst n p s m in read_result dst n p m r p' m'.
Proof.
  intros Hp Hn. pose proof Hp as [Hr Hc Hw Hb]. unfold pipe_read. destruct (Z.eqb_spec (pcount p) 0) as [Ez|Hz].
  { pose proof (empty_contents p Ez) as Ec. destruct (Z.eqb_spec (writers_open p) 0) as [Eo|Ho].
    - split; auto. rewrite Ez, Z.min_r by lia. split_and!; auto.
    - destruct (wq_sleep fuel (p_readers p) s) as [wq s'].
      destruct (wq_readers p wq Hp) as [Hp' Ec']. split; auto. }
  set (k := if n <? pcount p then n else pcount p).
  assert (k = Z.min n (pcount p)) as Hk by (unfold k; destruct (Z.ltb_spec n (pcount p)); lia). clearbody k.
  pose proof (take_bytes (Z.to_nat k) dst p m Hr) as T. destruct (for_loop (Z.to_nat k) 0 (take_byte dst) (p, m)) as [p1 m1].
  rewrite Z2Nat.id in T by lia. destruct T as (-> & Tb & Tf).
  set (q := p <| read_pos := _ |> <| pcount := _ |>).
  assert (read_pos q = (read_pos p + k) mod PIPE_BUF_SIZE /\ pcount q = pcount p - k /\ buf q = buf p /\
    write_pos q = write_pos p) as (Q1 & Q2 & Q3 & Q4) by done.
  assert (pipe_ok q) as Hq.
  { split; rewrite ?Q1, ?Q2, ?Q3, ?Q4; auto; [apply Z.mod_pos_bound; done|lia|]. rewrite Hw, Zplus_mod_idemp_l. f_equal. lia. }
  assert (contents p = bytes_at m1 dst k ++ contents q) as Hcont.
  { unfold contents. rewrite Q1, Q2, Q3, Tb. apply window_split. lia. }
  assert (readers_open q = readers_open p /\ writers_open q = writers_open p) as Hopen by done. clearbody q.
  destruct (wq_wake_one (p_writers q) s) as [wq s']. destruct (wq_writers q wq Hq) as [Hq' Eq'].
  split; auto; [intros a Ha; apply Tf; lia|]. split_and!; [done| |by rewrite Eq'].
  intros E. pose proof (contents_length p Hp) as L. rewrite E in L. cbn in L. lia.
Qed.

(** pipe_write by cases. *)
Record write_result (src n : Z) (m : mem) (p : pipe_t) (r : io) (p' : pipe_t) : Prop := {
  wr_ok : pipe_ok p';
  wr_case : match r with
            | Sleeps => pcount p = PIPE_BUF_SIZE /\ readers_open p <> 0 /\ contents p' = contents p
            | Ret k => if PIPE_BUF_SIZE <=? pcount p then k = -1 /\ readers_open p = 0 /\ contents p' = contents p
                       else k = Z.min n (PIPE_BUF_SIZE - pcount p) /\ contents p' = contents p ++ bytes_at m src k
            end;
  wr_open : readers_open p' = readers_open p /\ writers_open p' = writers_open p
}.

Lemma write_ok fuel src n m p s : pipe_ok p -> bytes m -> 0 <= n ->
  let '(r, p', s') := pipe_write fuel src n m p s in write_result src n m p r p'.
Proof.
  intros Hp Hm Hn. pose proof Hp as [Hr Hc Hw Hb]. unfold pipe_write. destruct (Z.leb_spec PIPE_BUF_SIZE (pcount p)) as [Hf|Hf].
  { destruct (Z.eqb_spec (readers_open p) 0) as [Eo|Ho].
    - split; auto. rewrite (proj2 (Z.leb_le _ _) Hf). done.
    - destruct (wq_sleep fuel (p_writers p) s) as [wq s'].
      destruct (wq_writers p wq Hp) as [Hp' Ec']. split; auto. split_and!; auto. lia. }
  set (k := if n <? PIPE_BUF_SIZE - pcount p then n else PIPE_BUF_SIZE - pcount p).
  assert (k = Z.min n (PIPE_BUF_SIZE - pcount p)) as Hk by (unfold k; destruct (Z.ltb_spec n (PIPE_BUF_SIZE - pcount p)); lia). clearbody k.
  destruct (put_bytes (Z.to_nat k) src m p Hp Hm ltac:(lia)) as (E & Tb & Tw).
  rewrite Z2Nat.id in E, Tw by lia. set (p1 := for_loop (Z.to_nat k) 0 (put_byte src m) p) in *.
  set (q := p1 <| pcount := _ |>).
  assert (read_pos p1 = read_pos p /\ pcount p1 = pcount p /\ write_pos p1 = (write_pos p + k) mod PIPE_BUF_SIZE /\
    readers_open p1 = readers_open p /\ writers_open p1 = writers_open p) as (P1 & P2 & P3 & P4 & P5) by (rewrite E; done).
  assert (read_pos q = read_pos p /\ pcount q = pcount p + k /\ buf q = buf p1 /\ write_pos q = (write_pos p + k) mod PIPE_BUF_SIZE)
    as (Q1 & Q2 & Q3 & Q4) by (rewrite <- P1, <- P2, <- P3; done).
  assert (pipe_ok q) as Hq.
  { split; rewrite ?Q1, ?Q2, ?Q3, ?Q4; auto; [lia|]. rewrite Hw, Zplus_mod_idemp_l. f_equal. lia. }
  assert (contents q = contents p ++ bytes_at m src k) as Hcont by (unfold contents at 1; by rewrite Q1, Q2, Q3).
  assert (readers_open q = readers_open p /\ writers_open q = writers_open p) as Hopen by (rewrite <- P4, <- P5; done). clearbody q.
  destruct (wq_wake_one (p_readers q) s) as [wq s']. destruct (wq_readers q wq Hq) as [Hq' Eq'].
  split; auto. rewrite (proj2 (Z.leb_gt _ _) Hf). split; [done|by rewrite Eq'].
Qed.

(** ** The byte stream *)

(** A call, with the memory of the process that makes it. *)
Inductive pipe_op :=
| Read (m : mem) (dst n : Z)
| Write (m : mem) (src n : Z)
| CloseRead
| CloseWrite.

Definition op_ok (o : pipe_op) : Prop :=
  match o with
  | Read m _ n | Write m _ n => bytes m /\ 0 <= n
  | _ => True
  end.

(** The bytes a call accepted and the bytes it delivered. *)
Definition pipe_step (fuel : nat) (o : pipe_op) (p : pipe_t) (s : sched) : list Z * list Z * pipe_t * sched :=
  match o with
  | Read m dst n =>
      let '(r, p, s, m) := pipe_read fuel dst n p s m in
      ([], match r with Ret k => bytes_at m dst k | Sleeps => [] end, p, s)
  | Write m src n =>
      let '(r, p, s) := pipe_write fuel src n m p s in
      (match r with Ret k => bytes_at m src k | Sleeps => [] end, [], p, s)
  | CloseRead => let '(_, p, s) := pipe_close_read fuel p s in ([], [], p, s)
  | CloseWrite => let '(_, p, s) := pipe_close_write fuel p s in ([], [], p, s)
  end.

Fixpoint pipe_run (fuel : nat) (ops : list pipe_op) (p : pipe_t) (s : sched) : list Z * list Z * pipe_t * sched :=
  match ops with
  | [] => ([], [], p, s)
  | o :: ops =>
      let '(w, r, p, s) := pipe_step fuel o p s in
      let '(w', r', p, s) := pipe_run fuel ops p s in
      (w ++ w', r ++ r', p, s)
  end.

Lemma step_ok fuel o p s : pipe_ok p -> op_ok o ->
  let '(w, r, p', s') := pipe_step fuel o p s in pipe_ok p' /\ contents p ++ w = r ++ contents p'.
Proof.
  intros Hp Ho. destruct o as [m dst n|m src n| |]; cbn [pipe_step].
  - destruct Ho as [Hm Hn]. pose proof (read_ok fuel dst n p s m Hp Hn) as K.
    destruct (pipe_read fuel dst n p s m) as [[[r p'] s'] m']. destruct K as [A _ C _]. split; [done|].
    rewrite app_nil_r. destruct r as [k|]; [apply C|]. destruct C as (-> & _ & -> & _). done.
  - destruct Ho as [Hm Hn]. pose proof (write_ok fuel src n m p s Hp Hm Hn) as K.
    destruct (pipe_write fuel src n m p s) as [[r p'] s']. destruct K as [A C _]. split; [done|].
    destruct r as [k|]; [|rewrite app_nil_r; symmetry; apply C].
    destruct (PIPE_BUF_SIZE <=? pcount p); [|symmetry; apply C]. destruct C as (-> & _ & ->). by rewrite app_nil_r.
  - unfold pipe_close_read, wq_wake_all. rewrite app_nil_r. split; [|done]. destruct Hp. by split.
  - unfold pipe_close_write, wq_wake_all. rewrite app_nil_r. split; [|done]. destruct Hp. by split.
Qed.

(** C21: For any sequence of reads, writes and closes of a new pipe, by any
    processes and whoever sleeps or is woken: the bytes delivered by the reads,
    followed by those still in the pipe, are exactly the bytes the writes
    accepted, in order. *)
Theorem pipe_stream fuel ops s : Forall op_ok ops ->
  let '(w, r, p, s') := pipe_run fuel ops pipe_new s in w = r ++ contents p.
Proof.
  assert (forall p s, pipe_ok p -> Forall op_ok ops ->
    let '(w, r, p', s') := pipe_run fuel ops p s in contents p ++ w = r ++ contents p') as K.
  { induction ops as [|o ops IH]; intros p s0 Hp Ho; cbn [pipe_run]; [by rewrite app_nil_r|].
    inversion_clear Ho as [|? ? H1 H2]. pose proof (step_ok fuel o p s0 Hp H1) as E.
    destruct (pipe_step fuel o p s0) as [[[w r] p1] s1]. destruct E as [Hp1 E]. specialize (IH p1 s1 Hp1 H2).
    destruct (pipe_run fuel ops p1 s1) as [[[w' r'] p2] s2]. by rewrite app_assoc, E, <- !app_assoc, IH. }
  intros Ho. exact (K pipe_new s pipe_new_ok Ho).
Qed.

(** Memory whose byte at address [a] is [a mod 256]. *)
Definition demo_mem : mem := fun a => a mod 256.

Lemma demo_mem_bytes : bytes demo_mem.
Proof. intros a. apply Z.mod_pos_bound. lia. Qed.

Lemma pipe_stream_witness :
  let '(w, r, p, _) := pipe_run 4 [Write demo_mem 7 3; Read demo_mem 100 2] pipe_new SchedClaims.demo_sched in
  w = [7; 8; 9] /\ r ++ contents p = [7; 8; 9].
Proof.
  assert (Forall op_ok [Write demo_mem 7 3; Read demo_mem 100 2]) as H.
  { repeat constructor; try apply demo_mem_bytes; lia. }
  pose proof (pipe_stream 4 [Write demo_mem 7 3; Read demo_mem 100 2] SchedClaims.demo_sched H) as K.
  assert (fst (fst (fst (pipe_run 4 [Write demo_mem 7 3; Read demo_mem 100 2] pipe_new SchedClaims.demo_sched))) = [7; 8; 9])
    as E by (vm_compute; reflexivity).
  destruct (pipe_run 4 [Write demo_mem 7 3; Read demo_mem 100 2] pipe_new SchedClaims.demo_sched) as [[[w r] p] s'].
  cbn [fst] in E. split; [exact E|]. rewrite <- K. exact E.
Defined.

(** Every call keeps the pipe well-formed: the positions index the buffer,
    the count is at most its size and tells the positions apart, and the buffer
    holds bytes.  A read never touches memory outside the bytes it returns. *)
Theorem pipe_well_formed fuel o p s : pipe_ok p -> op_ok o ->
  (let '(_, _, p', _) := pipe_step fuel o p s in pipe_ok p') /\
  match o with
  | Read m dst n =>
      let '(r, _, _, m') := pipe_read fuel dst n p s m in
      forall a, match r with Ret k => ~ dst <= a < dst + k | Sleeps => True end -> m' a = m a
  | _ => True
  end.
Proof.
  intros Hp Ho. split.
  - pose proof (step_ok fuel o p s Hp Ho) as K. destruct (pipe_step fuel o p s) as [[[w r] p'] s']. apply K.
  - destruct o as [m dst n| | |]; try done. destruct Ho as [Hm Hn]. pose proof (read_ok fuel dst n p s m Hp Hn) as K.
    destruct (pipe_read fuel dst n p s m) as [[[r p'] s'] m']. destruct K as [_ F C _]. intros a Ha.
    destruct r as [k|]; [apply F; destruct C as [<- _]; done|]. by destruct C as (_ & _ & _ & ->).
Qed.


Lemma pipe_well_formed_witness :
  let '(_, _, p', _) := pipe_step 4 (Write demo_mem 7 5000) pipe_new SchedClaims.demo_sched in pipe_ok p'.
Proof.
  assert (op_ok (Write demo_mem 7 5000)) as H by (split; [apply demo_mem_bytes|lia]).
  destruct (pipe_well_formed 4 (Write demo_mem 7 5000) pipe_new SchedClaims.demo_sched pipe_new_ok H) as [K _]. exact K.
Defined.

(** A write to a pipe without readers succeeds while there is space. *)
Example write_without_readers :
  fst (fst (pipe_write 4 7 3 demo_mem (pipe_new <| readers_open := 0 |>) SchedClaims.demo_sched)) = Ret 3.
Proof. vm_compute. reflexivity. Qed.

(** A read of zero bytes from an empty pipe sleeps. *)
Example empty_read_sleeps :
  fst (fst (fst (pipe_read 4 100 0 pipe_new SchedClaims.demo_sched demo_mem))) = Sleeps.
Proof. vm_compute. reflexivity. Qed.

End Pipe.
