(* ===== verification/Fd.v ===== *)
(** * File descriptors and pipe ends (src/src/fs/vfs.c 911-1033 and 1371-1408, src/src/ipc/pipe.c)

    Descriptor tables of the tasks, reference-counted file objects and the
    pipes behind them, in a heap of objects.  An access to an object that is
    not there, or freeing one twice, has no result ([None]): the theorems show
    that no sequence of calls gets there. *)

From stdpp Require Import gmap.
From S2P Require Import Prelude Mem Sched Wait Pipe.
Import Mem Sched Wait Pipe.

Module Fd.

Definition MAX_FDS : Z := 128.

(** The operations of a file: none for regular files and the console. *)
Inductive file_ops := NoFops | PipeReadFops | PipeWriteFops.
#[export] Instance file_ops_eq_dec : EqDecision file_ops.
Proof. solve_decision. Defined.

Record file_t := {
  fops : file_ops;
  offset : Z;
  f_flags : Z;
  ref_count : Z;
  mount_idx : Z;
  f_path : list Z;
  private_data : Z
}.
#[export] Instance eta_file : Eta file_t :=
  fun r => Build_file_t (fops r) (offset r) (f_flags r) (ref_count r) (mount_idx r) (f_path r) (private_data r).

Definition zero_file : file_t :=
  {| fops := NoFops; offset := 0; f_flags := 0; ref_count := 0; mount_idx := 0; f_path := []; private_data := 0 |}.

Inductive object := File (f : file_t) | PipeObj (p : pipe_t).

(** The heap objects, the descriptor tables by task, and the scheduler. *)
Record kern := {
  heap : gmap Z object;
  fd_table : Z -> Z -> Z;
  fd_flags : Z -> Z -> Z;
  sch : sched
}.
#[export] Instance eta_kern : Eta kern := fun r => Build_kern (heap r) (fd_table r) (fd_flags r) (sch r).

Definition get_file (a : Z) (s : kern) : option file_t :=
  match heap s !! a with Some (File f) => Some f | _ => None end.
Definition get_pipe (a : Z) (s : kern) : option pipe_t :=
  match heap s !! a with Some (PipeObj p) => Some p | _ => None end.
Definition put_obj (a : Z) (o : object) (s : kern) : kern := s <| heap := <[a := o]> (heap s) |>.
Definition kfree (a : Z) (s : kern) : option kern :=
  match heap s !! a with Some _ => Some (s <| heap := delete a (heap s) |>) | None => None end.

Definition set_fd (t i f : Z) (s : kern) : kern :=
  s <| fd_table := (fd_table s).[t <- (fd_table s t).[i <- f]] |>
    <| fd_flags := (fd_flags s).[t <- (fd_flags s t).[i <- 0]] |>.

(** A loop over a partial step. *)
Fixpoint for_opt {S : Type} (n : nat) (lo : Z) (body : Z -> S -> option S) (s : S) : option S :=
  match n with
  | O => Some s
  | Datatypes.S n' => match body lo s with None => None | Some s' => for_opt n' (lo + 1) body s' end
  end.

(** ** Descriptors of the current task *)

Definition fd_alloc_from (file start : Z) (s : kern) : Z * kern :=
  let t := pc_current (sch s) in
  if t =? 0 then (-1, s)
  else
    let start := if start <? 0 then 0 else start in
    if MAX_FDS <=? start then (-1, s)
    else match find_index (Z.to_nat (MAX_FDS - start)) start (fun i => fd_table s t i =? 0) with
         | Some i => (i, set_fd t i file s)
         | None => (-1, s)
         end.

Definition fd_alloc (file : Z) (s : kern) : Z * kern :=
  let t := pc_current (sch s) in
  if t =? 0 then (-1, s)
  else match find_index (Z.to_nat MAX_FDS) 0 (fun i => fd_table s t i =? 0) with
       | Some i => (i, set_fd t i file s)
       | None => (-1, s)
       end.

Definition fd_get (fd : Z) (s : kern) : Z :=
  if (fd <? 0) || (MAX_FDS <=? fd) then 0
  else let t := pc_current (sch s) in if t =? 0 then 0 else fd_table s t fd.

Definition fd_free (fd : Z) (s : kern) : kern :=
  if (fd <? 0) || (MAX_FDS <=? fd) then s
  else let t := pc_current (sch s) in if t =? 0 then s else set_fd t fd 0 s.

Definition fd_get_flags (fd : Z) (s : kern) : Z :=
  if (fd <? 0) || (MAX_FDS <=? fd) then -1
  else
    let t := pc_current (sch s) in
    if (t =? 0) || (fd_table s t fd =? 0) then -1 else fd_flags s t fd.

Definition fd_set_flags (fd flags : Z) (s : kern) : Z * kern :=
  if (fd <? 0) || (MAX_FDS <=? fd) then (-1, s)
  else
    let t := pc_current (sch s) in
    if (t =? 0) || (fd_table s t fd =? 0) then (-1, s)
    else (0, s <| fd_flags := (fd_flags s).[t <- (fd_flags s t).[fd <- flags]] |>).

Definition fd_install_at (file fd : Z) (s : kern) : Z * kern :=
  let t := pc_current (sch s) in
  if (t =? 0) || (fd <? 0) || (MAX_FDS <=? fd) then (-1, s) else (fd, set_fd t fd file s).

(** ** Releasing files *)

Section release.
Variable fuel : nat.

(** pipe_close_read and pipe_close_write of a file, with the final kfree. *)
Definition close_end (close : pipe_t -> sched -> bool * pipe_t * sched) (p : Z) (s : kern) : option kern :=
  if p =? 0 then Some s
  else
    match get_pipe p s with
    | None => None
    | Some pi =>
        let '(gone, pi, sc) := close pi (sch s) in
        let s := put_obj p (PipeObj pi) (s <| sch := sc |>) in
        if gone then kfree p s else Some s
    end.

(** [f->fops->close(f)] *)
Definition fops_close (f : file_t) (s : kern) : option kern :=
  match fops f with
  | NoFops => Some s
  | PipeReadFops => close_end (pipe_close_read fuel) (private_data f) s
  | PipeWriteFops => close_end (pipe_close_write fuel) (private_data f) s
  end.

Definition file_release (f : Z) (s : kern) : option kern :=
  if f =? 0 then Some s
  else
    match get_file f s with
    | None => None
    | Some fl =>
        if 1 <? ref_count fl then Some (put_obj f (File (fl <| ref_count := u32 (ref_count fl - 1) |>)) s)
        else match fops_close fl s with None => None | Some s => kfree f s end
    end.

(** [f->ref_count++] *)
Definition file_retain (f : Z) (s : kern) : option kern :=
  match get_file f s with
  | None => None
  | Some fl => Some (put_obj f (File (fl <| ref_count := u32 (ref_count fl + 1) |>)) s)
  end.

Definition vfs_task_retain_fds (t : Z) (s : kern) : option kern :=
  if t =? 0 then Some s
  else for_opt (Z.to_nat MAX_FDS) 0 (fun i s => if fd_table s t i =? 0 then Some s else file_retain (fd_table s t i) s) s.

Definition vfs_task_close_fds (t : Z) (s : kern) : option kern :=
  if t =? 0 then Some s
  else for_opt (Z.to_nat MAX_FDS) 0 (fun i s => let f := fd_table s t i in file_release f (set_fd t i 0 s)) s.

Definition vfs_task_close_cloexec_fds (t : Z) (s : kern) : option kern :=
  if t =? 0 then Some s
  else for_opt (Z.to_nat MAX_FDS) 0 (fun i s =>
    if (fd_table s t i =? 0) || negb (has (fd_flags s t i) 1) then Some s
    else let f := fd_table s t i in file_release f (set_fd t i 0 s)) s.

(** The descriptors of a forked child: the copy of the task structure and the
    references for it (sys_fork). *)
Definition fork_fds (parent child : Z) (s : kern) : option kern :=
  vfs_task_retain_fds child
    (s <| fd_table := (fd_table s).[child <- fd_table s parent] |>
       <| fd_flags := (fd_flags s).[child <- fd_flags s parent] |>).

(** ** System calls; [a] is what kmalloc returns *)

(** The bytes of "/dev/console". *)
Definition CONSOLE_PATH : list Z := [47; 100; 101; 118; 47; 99; 111; 110; 115; 111; 108; 101].

Definition stdio_file_create (fd a : Z) (s : kern) : Z * kern :=
  if (fd <? 0) || (2 <? fd) then (0, s)
  else if a =? 0 then (0, s)
  else (a, put_obj a (File (zero_file <| f_flags := (if fd =? 0 then 0 else 1) |> <| ref_count := 1 |> <| mount_idx := -1 |>
                              <| f_path := CONSOLE_PATH |>)) s).

Definition fd_get_or_stdio (fd a : Z) (s : kern) : Z * kern :=
  let f := fd_get fd s in
  if negb (f =? 0) then (f, s)
  else if (0 <=? fd) && (fd <=? 2) then stdio_file_create fd a s else (0, s).

Definition sys_close (fd : Z) (s : kern) : option (Z * kern) :=
  let f := fd_get fd s in
  if f =? 0 then Some (-1, s)
  else match file_release f (fd_free fd s) with None => None | Some s => Some (0, s) end.

(** The end of sys_dup and sys_dup2: a file that was not made here gets one
    more reference. *)
Definition keep_ref (created : bool) (f newfd : Z) (s : kern) : option (Z * kern) :=
  if created then Some (newfd, s)
  else match file_retain f s with None => None | Some s => Some (newfd, s) end.

Definition dup_failed (created : bool) (f : Z) (s : kern) : option (Z * kern) :=
  if created then match kfree f s with None => None | Some s => Some (-1, s) end else Some (-1, s).

Definition sys_dup (fd a : Z) (s : kern) : option (Z * kern) :=
  let created := fd_get fd s =? 0 in
  let '(f, s) := fd_get_or_stdio fd a s in
  if f =? 0 then Some (-1, s)
  else
    let '(newfd, s) := fd_alloc_from f (if fd <=? 2 then 3 else 0) s in
    if newfd <? 0 then dup_failed created f s else keep_ref created f newfd s.

Definition sys_dup2 (oldfd newfd a : Z) (s : kern) : option (Z * kern) :=
  if (newfd <? 0) || (MAX_FDS <=? newfd) then Some (-1, s)
  else if oldfd =? newfd then
    Some (if negb (fd_get oldfd s =? 0) || ((0 <=? oldfd) && (oldfd <=? 2)) then newfd else -1, s)
  else
    let created := fd_get oldfd s =? 0 in
    let '(f, s) := fd_get_or_stdio oldfd a s in
    if f =? 0 then Some (-1, s)
    else
      match (if fd_get newfd s =? 0 then Some (0, s) else sys_close newfd s) with
      | None => None
      | Some (_, s) =>
          let '(r, s) := fd_install_at f newfd s in
          if r <? 0 then dup_failed created f s else keep_ref created f newfd s
      end.

(** The end of sys_open once the path is resolved to [abs]. *)
Definition open_file (flags midx : Z) (abs : list Z) (a : Z) (s : kern) : option (Z * kern) :=
  if a =? 0 then Some (-1, s)
  else
    let s := put_obj a (File (zero_file <| f_flags := flags |> <| ref_count := 1 |> <| mount_idx := midx |>
                              <| f_path := take 255 abs |>)) s in
    let '(fd, s) := fd_alloc a s in
    if fd <? 0 then match kfree a s with None => None | Some s => Some (-1, s) end else Some (fd, s).

Definition opt_bind {A B} (x : option A) (k : A -> option B) : option B :=
  match x with None => None | Some a => k a end.

(** sys_pipe: the result and the two descriptors. *)
Definition sys_pipe (p rf wf : Z) (s : kern) : option (Z * Z * Z * kern) :=
  if p =? 0 then Some (-1, 0, 0, s)
  else
    let s := put_obj p (PipeObj pipe_new) s in
    if rf =? 0 then opt_bind (kfree p s) (fun s => Some (-1, 0, 0, s))
    else
      let s := put_obj rf (File (zero_file <| fops := PipeReadFops |> <| private_data := p |> <| ref_count := 1 |>)) s in
      if wf =? 0 then opt_bind (kfree rf s) (fun s => opt_bind (kfree p s) (fun s => Some (-1, 0, 0, s)))
      else
        let s := put_obj wf (File (zero_file <| fops := PipeWriteFops |> <| private_data := p |> <| ref_count := 1 |>)) s in
        let '(rfd, s) := fd_alloc rf s in
        let '(wfd, s) := fd_alloc wf s in
        if (rfd <? 0) || (wfd <? 0) then
          let s := if 0 <=? rfd then fd_free rfd s else s in
          let s := if 0 <=? wfd then fd_free wfd s else s in
          opt_bind (kfree rf s) (fun s => opt_bind (kfree wf s) (fun s => opt_bind (kfree p s) (fun s => Some (-1, 0, 0, s))))
        else Some (0, rfd, wfd, s).

(** ** Reading and writing a pipe through a descriptor *)

(** sys_read of a descriptor of a pipe: the result, and the memory of the
    caller.  A read end has no write operation and a write end no read. *)
Definition read_pipe_fd (fd dst n : Z) (m : mem) (s : kern) : option (io * mem * kern) :=
  let f := fd_get fd s in
  if f =? 0 then Some (Ret (-1), m, s)
  else
    opt_bind (get_file f s) (fun fl =>
      if private_data fl =? 0 then Some (Ret (-1), m, s)
      else
        opt_bind (get_pipe (private_data fl) s) (fun pi =>
          let '(r, pi, sc, m) := pipe_read fuel dst n pi (sch s) m in
          Some (r, m, put_obj (private_data fl) (PipeObj pi) (s <| sch := sc |>)))).

Definition write_pipe_fd (fd src n : Z) (m : mem) (s : kern) : option (io * kern) :=
  let f := fd_get fd s in
  if f =? 0 then Some (Ret (-1), s)
  else
    opt_bind (get_file f s) (fun fl =>
      if private_data fl =? 0 then Some (Ret (-1), s)
      else
        opt_bind (get_pipe (private_data fl) s) (fun pi =>
          let '(r, pi, sc) := pipe_write fuel src n m pi (sch s) in
          Some (r, put_obj (private_data fl) (PipeObj pi) (s <| sch := sc |>)))).

End release.

End Fd.
