(* ===== verification/FdProps.v ===== *)
(** * Reference counts of files and pipes

    The invariant: a file object exists exactly while something refers to it,
    and its count is the number of descriptors that do; a pipe exists exactly
    while one of its ends does.  [d] counts references that are not in a
    descriptor table, because a call holds them or because the tables were
    copied first. *)

From stdpp Require Import gmap.
From S2P Require Import Prelude Mem Sched SchedProps SchedClaims Wait Pipe Fd.
Import Mem Sched SchedProps SchedClaims Wait Pipe Fd.

Module FdProps.

(** ** Counting descriptors *)

(** The entries of one table that hold [a]. *)
Definition cnt (tb : Z -> Z) (a : Z) : Z := sum_range (Z.to_nat MAX_FDS) 0 (fun i => Z.b2z (tb i =? a)).

(** The references to [a] in the tables of the tasks [ts]. *)
Definition refs (ts : list Z) (T : Z -> Z -> Z) (a : Z) : Z := foldr (fun t acc => cnt (T t) a + acc) 0 ts.

(** One reference to [x]; NULL is not a reference. *)
Definition ref1 (x a : Z) : Z := Z.b2z ((x =? a) && negb (a =? 0)).

Lemma b2z_range b : 0 <= Z.b2z b <= 1.
Proof. by destruct b. Qed.

Lemma cnt_range tb a : 0 <= cnt tb a <= MAX_FDS.
Proof.
  unfold cnt. split.
  - apply sum_range_nonneg. intros i _. apply b2z_range.
  - assert (forall n lo, sum_range n lo (fun i => Z.b2z (tb i =? a)) <= Z.of_nat n) as H; [|by apply H].
    induction n as [|n IH]; intros lo; cbn [sum_range]; [lia|]. specialize (IH (lo + 1)). pose proof (b2z_range (tb lo =? a)). lia.
Qed.

Lemma cnt_pos tb a i : 0 <= i < MAX_FDS -> tb i = a -> 0 < cnt tb a.
Proof.
  intros Hi E. assert (Z.b2z (tb i =? a) <= cnt tb a) as H.
  { apply (sum_range_le_one (Z.to_nat MAX_FDS) 0 (fun i => Z.b2z (tb i =? a)) i); [intros; apply b2z_range|done]. }
  rewrite E, Z.eqb_refl in H. cbn in H. lia.
Qed.

Lemma cnt_upd tb i v a : 0 <= i < MAX_FDS -> cnt tb.[i <- v] a = cnt tb a - Z.b2z (tb i =? a) + Z.b2z (v =? a).
Proof.
  intros Hi. unfold cnt.
  rewrite (sum_range_upd (Z.to_nat MAX_FDS) 0 (fun i => Z.b2z (tb i =? a)) (fun j => Z.b2z (tb.[i <- v] j =? a)) i); [|done|].
  - by rewrite upd_eq.
  - intros j _ Hj. by rewrite upd_ne.
Qed.

Lemma cnt_zero tb a : (forall i, 0 <= i < MAX_FDS -> tb i <> a) -> cnt tb a = 0.
Proof.
  intros H. unfold cnt. rewrite <- (sum_range_zero (Z.to_nat MAX_FDS) 0). apply sum_range_ext.
  intros i Hi. by rewrite (proj2 (Z.eqb_neq _ _) (H i Hi)).
Qed.

Lemma refs_range ts T a : 0 <= refs ts T a <= MAX_FDS * Z.of_nat (length ts).
Proof.
  induction ts as [|t ts IH]; [cbn; lia|]. change (refs (t :: ts) T a) with (cnt (T t) a + refs ts T a).
  pose proof (cnt_range (T t) a). cbn [length]. lia.
Qed.

Lemma refs_other ts T t tb a : ~ In t ts -> refs ts T.[t <- tb] a = refs ts T a.
Proof.
  induction ts as [|u ts IH]; intros Hn; [done|]. cbn [In] in Hn.
  change (refs (u :: ts) T.[t <- tb] a) with (cnt (T.[t <- tb] u) a + refs ts T.[t <- tb] a).
  rewrite IH by tauto. rewrite upd_ne by (intros ->; tauto). done.
Qed.

Lemma refs_upd ts T t tb a : NoDup ts -> In t ts -> refs ts T.[t <- tb] a = refs ts T a - cnt (T t) a + cnt tb a.
Proof.
  induction ts as [|u ts IH]; intros Hnd Hin; [done|]. apply list.NoDup_cons in Hnd as [Hn Hnd]. rewrite list_elem_of_In in Hn.
  change (refs (u :: ts) T.[t <- tb] a) with (cnt (T.[t <- tb] u) a + refs ts T.[t <- tb] a).
  change (refs (u :: ts) T a) with (cnt (T u) a + refs ts T a).
  destruct (decide (u = t)) as [->|Hne].
  - rewrite upd_eq, refs_other by done. lia.
  - rewrite upd_ne, IH by (done || destruct Hin; congruence || done). lia.
Qed.

Lemma refs_pos ts T t i a : In t ts -> 0 <= i < MAX_FDS -> T t i = a -> 0 < refs ts T a.
Proof.
  intros Hin Hi E. induction ts as [|u ts IH]; [done|]. change (refs (u :: ts) T a) with (cnt (T u) a + refs ts T a).
  pose proof (cnt_range (T u) a). pose proof (refs_range ts T a). destruct Hin as [->|Hin].
  - pose proof (cnt_pos (T t) a i Hi E). lia.
  - specialize (IH Hin). lia.
Qed.

Lemma refs_zero ts T a : (forall t i, In t ts -> 0 <= i < MAX_FDS -> T t i <> a) -> refs ts T a = 0.
Proof.
  induction ts as [|u ts IH]; intros H; [done|]. change (refs (u :: ts) T a) with (cnt (T u) a + refs ts T a).
  rewrite cnt_zero, IH; [done| |]; intros; apply H; cbn; auto.
Qed.

(** ** The invariant *)

Definition opens (k : file_ops) (pi : pipe_t) : Z :=
  match k with PipeReadFops => readers_open pi | PipeWriteFops => writers_open pi | NoFops => 0 end.

(** The file at [a] is an end of kind [k] of the pipe at [p]. *)
Definition is_end (h : gmap Z object) (k : file_ops) (p a : Z) : Prop :=
  exists f, h !! a = Some (File f) /\ fops f = k /\ private_data f = p.

(** There is one end of this kind, or none, as the count [n] says. *)
Definition ends (h : gmap Z object) (k : file_ops) (p n : Z) : Prop :=
  (n = 1 /\ exists a, is_end h k p a /\ forall b, is_end h k p b -> b = a) \/ (n = 0 /\ forall b, ~ is_end h k p b).

Section inv.
Variable ts : list Z.
Hypothesis Hnd : NoDup ts.
Hypothesis Hbound : MAX_FDS * (Z.of_nat (length ts) + 1) < 2 ^ 32.

Record fd_ok (d : Z -> Z) (s : kern) : Prop := {
  ok_null : heap s !! 0 = None;
  ok_slot : forall t i, In t ts -> 0 <= i < MAX_FDS -> fd_table s t i <> 0 ->
    exists f, heap s !! fd_table s t i = Some (File f);
  ok_refs : forall a f, heap s !! a = Some (File f) ->
    ref_count f = refs ts (fd_table s) a + d a /\ 0 < ref_count f < 2 ^ 32;
  ok_pend : forall a, d a <> 0 -> exists f, heap s !! a = Some (File f);
  ok_ends : forall a f, heap s !! a = Some (File f) -> fops f <> NoFops ->
    exists pi, heap s !! private_data f = Some (PipeObj pi);
  ok_pipe : forall p pi, heap s !! p = Some (PipeObj pi) ->
    (forall k, k <> NoFops -> ends (heap s) k p (opens k pi)) /\ exists k, k <> NoFops /\ opens k pi = 1
}.

Lemma fd_ok_ext d d' s : (forall a, d' a = d a) -> fd_ok d s -> fd_ok d' s.
Proof using Type.
  intros E [A B C D F G]. split; auto.
  - intros a f Hf. rewrite E. by apply C.
  - intros a. rewrite E. apply D.
Qed.

(** Only the heap and the tables matter. *)
Lemma fd_ok_same d s s' : heap s' = heap s -> (forall t i, fd_table s' t i = fd_table s t i) -> fd_ok d s -> fd_ok d s'.
Proof using Type.
  intros E1 E2 [A B C D F G].
  assert (forall a, refs ts (fd_table s') a = refs ts (fd_table s) a) as Er.
  { intros a. unfold refs, cnt. clear -E2. induction ts as [|t l IH]; [done|]. cbn [foldr]. rewrite IH. f_equal.
    apply sum_range_ext. intros i _. by rewrite E2. }
  split; rewrite ?E1; auto.
  - intros t i. rewrite E2. apply B.
  - intros a f. rewrite Er. apply C.
Qed.

Lemma set_fd_ok d s t i v : fd_ok d s -> In t ts -> 0 <= i < MAX_FDS ->
  (v = 0 \/ exists f, heap s !! v = Some (File f)) ->
  fd_ok (fun a => d a + ref1 (fd_table s t i) a - ref1 v a) (set_fd t i v s).
Proof using Hnd.
  intros [A B C D E F] Ht Hi Hv.
  assert (forall u j, fd_table (set_fd t i v s) u j = if decide (u = t /\ j = i) then v else fd_table s u j) as Et.
  { intros u j. unfold set_fd. cbn [fd_table]. destruct (decide (u = t)) as [->|Hu].
    - change (fd_table (s <| fd_table := _ |> <| fd_flags := _ |>)) with ((fd_table s).[t <- (fd_table s t).[i <- v]]).
      rewrite upd_eq. destruct (decide (j = i)) as [->|Hj]; [rewrite upd_eq|rewrite upd_ne by done].
      + by destruct (decide (t = t /\ i = i)); [|tauto].
      + by destruct (decide (t = t /\ j = i)); [tauto|].
    - change (fd_table (s <| fd_table := _ |> <| fd_flags := _ |>)) with ((fd_table s).[t <- (fd_table s t).[i <- v]]).
      rewrite upd_ne by done. by destruct (decide (u = t /\ j = i)); [tauto|]. }
  split; try done.
  - intros u j Hu Hj. rewrite Et. change (heap (set_fd t i v s)) with (heap s).
    destruct (decide (u = t /\ j = i)); [|by apply B]. intros Hn. destruct Hv; [done|done].
  - intros a f Hf. change (heap (set_fd t i v s)) with (heap s) in Hf. destruct (C a f Hf) as [C1 C2]. split; [|done].
    change (fd_table (set_fd t i v s)) with ((fd_table s).[t <- (fd_table s t).[i <- v]]).
    rewrite refs_upd, cnt_upd by done. unfold ref1.
    assert (a <> 0) as Hn by (intros ->; congruence). rewrite (proj2 (Z.eqb_neq a 0) Hn), !andb_true_r. lia.
  - intros a Ha. change (heap (set_fd t i v s)) with (heap s). destruct (decide (d a = 0)) as [E0|]; [|by apply D].
    rewrite E0 in Ha. unfold ref1 in Ha.
    destruct (decide (a = 0)) as [->|Hn]; [rewrite !andb_false_r in Ha; done|].
    destruct (Z.eqb_spec (fd_table s t i) a) as [E1|].
    { destruct (B t i Ht Hi) as [f Hf]; [congruence|]. rewrite E1 in Hf. eauto. }
    destruct (Z.eqb_spec v a) as [->|]; [|done]. destruct Hv; [done|done].
Qed.

(** Changing the count of a file. *)
Lemma put_count_ok d s a f n : fd_ok d s -> heap s !! a = Some (File f) -> 0 < n < 2 ^ 32 ->
  fd_ok (fun b => if b =? a then n - refs ts (fd_table s) a else d b) (put_obj a (File (f <| ref_count := n |>)) s).
Proof using Type.
  intros [A B C D E F] Hf Hn. assert (a <> 0) as Ha by (intros ->; congruence).
  assert (forall b, heap (put_obj a (File (f <| ref_count := n |>)) s) !! b
    = if decide (b = a) then Some (File (f <| ref_count := n |>)) else heap s !! b) as El.
  { intros b. unfold put_obj. change (heap (s <| heap := _ |>)) with (<[a := File (f <| ref_count := n |>)]> (heap s)).
    destruct (decide (b = a)) as [->|Hb]; [by rewrite lookup_insert_eq|by rewrite lookup_insert_ne]. }
  assert (forall k p b, is_end (heap (put_obj a (File (f <| ref_count := n |>)) s)) k p b <-> is_end (heap s) k p b) as Ee.
  { intros k p b. unfold is_end. rewrite El. destruct (decide (b = a)) as [->|]; [|done]. rewrite Hf.
    split; intros (g & [= <-] & ? & ?); eauto. }
  split.
  - by rewrite El, decide_False.
  - intros t i Ht Hi Hx. rewrite El. destruct (decide _); [eauto|]. by apply B.
  - intros b g. rewrite El. destruct (decide (b = a)) as [->|Hb].
    + intros [= <-]. rewrite Z.eqb_refl. cbn [ref_count].
      change (fd_table (put_obj a (File (f <| ref_count := n |>)) s)) with (fd_table s). lia.
    + rewrite (proj2 (Z.eqb_neq b a) Hb). apply C.
  - intros b. rewrite El. destruct (decide (b = a)) as [->|Hb]; [eauto|]. rewrite (proj2 (Z.eqb_neq b a) Hb). apply D.
  - intros b g. rewrite El. destruct (decide (b = a)) as [->|Hb].
    + intros [= <-] Hg. rewrite El. destruct (E a f Hf Hg) as [pi Hpi]. exists pi.
      rewrite decide_False; [done|]. cbn [private_data]. congruence.
    + intros Hg Hk. destruct (E b g Hg Hk) as [pi Hpi]. exists pi. rewrite El, decide_False; [done|]. congruence.
  - intros p pi. rewrite El. destruct (decide (p = a)) as [->|Hp]; [done|]. intros Hpi. destruct (F p pi Hpi) as [F1 F2].
    split; [|done]. intros k Hk. specialize (F1 k Hk). unfold ends in *. setoid_rewrite Ee. done.
Qed.


(** Removing the last reference to a file that is no pipe end. *)
Lemma drop_plain d s s' a f : fd_ok d s -> heap s !! a = Some (File f) -> fops f = NoFops -> refs ts (fd_table s) a = 0 ->
  heap s' = delete a (heap s) -> fd_table s' = fd_table s -> fd_ok (fun b => if b =? a then 0 else d b) s'.
Proof using Type.
  intros [A B C D E F] Hf Hk Hr Eh Et.
  assert (forall b, heap s' !! b = if decide (b = a) then None else heap s !! b) as El.
  { intros b. rewrite Eh. destruct (decide (b = a)) as [->|]; [by rewrite lookup_delete_eq|by rewrite lookup_delete_ne]. }
  assert (forall k p b, k <> NoFops -> is_end (heap s') k p b <-> is_end (heap s) k p b) as Ee.
  { intros k p b Hn. unfold is_end. rewrite El. destruct (decide (b = a)) as [->|]; [|done]. rewrite Hf.
    split; [by intros (? & ? & _)|]. intros (g & [= <-] & ? & _). congruence. }
  split; rewrite ?Et.
  - rewrite El. by destruct (decide (0 = a)).
  - intros t i Ht Hi Hn. rewrite El, decide_False; [by apply B|]. intros Hx.
    pose proof (refs_pos ts (fd_table s) t i a Ht Hi Hx). lia.
  - intros b g. rewrite El. destruct (decide (b = a)) as [->|Hb]; [done|]. rewrite (proj2 (Z.eqb_neq b a) Hb). apply C.
  - intros b. destruct (Z.eqb_spec b a) as [->|Hn]; [done|]. intros Hb. rewrite El, decide_False by done. by apply D.
  - intros b g. rewrite El. destruct (decide (b = a)) as [->|Hb]; [done|]. intros Hg Hn. destruct (E b g Hg Hn) as [pi Hpi].
    exists pi. rewrite El, decide_False; [done|]. congruence.
  - intros p pi. rewrite El. destruct (decide (p = a)) as [->|Hp]; [done|]. intros Hpi. destruct (F p pi Hpi) as [F1 F2].
    split; [|done]. intros k Hkn. specialize (F1 k Hkn). unfold ends in *. setoid_rewrite Ee; done.
Qed.

(** Removing the last reference to an end of a pipe: the pipe loses that end,
    and goes away with its last end. *)
Lemma drop_end d s s' a f p pi pi' (o : option pipe_t) :
  fd_ok d s -> heap s !! a = Some (File f) -> fops f <> NoFops -> private_data f = p ->
  heap s !! p = Some (PipeObj pi) -> refs ts (fd_table s) a = 0 ->
  (forall k, opens k pi' = if decide (k = fops f) then 0 else opens k pi) ->
  o = (if (readers_open pi' =? 0) && (writers_open pi' =? 0) then None else Some pi') ->
  (forall b, heap s' !! b = if decide (b = a) then None else if decide (b = p) then PipeObj <$> o else heap s !! b) ->
  fd_table s' = fd_table s -> fd_ok (fun b => if b =? a then 0 else d b) s'.
Proof using Type.
  intros [A B C D E F] Hf Hk Hp Hpi Hr Ho Eo El Et. destruct (F p pi Hpi) as [Fe _].
  assert (a <> p) as Hap by congruence.
  assert (forall b, is_end (heap s) (fops f) p b -> b = a) as Huniq.
  { intros b Hb. destruct (Fe (fops f) Hk) as [(_ & c & Hc & Hu)|[_ Hno]]; [|by apply Hno in Hb].
    rewrite (Hu b Hb). symmetry. apply Hu. exists f. auto. }
  assert (forall k q b, is_end (heap s') k q b <-> is_end (heap s) k q b /\ b <> a) as Ee.
  { intros k q b. unfold is_end. rewrite El. destruct (decide (b = a)) as [->|Hb]; [split; [by intros (? & ? & _)|tauto]|].
    destruct (decide (b = p)) as [->|]; [|tauto]. rewrite Hpi. destruct o; cbn; split; [by intros (? & ? & _)|by intros [(? & ? & _) _]|by intros (? & ? & _)|by intros [(? & ? & _) _]]. }
  assert (forall k b, k <> NoFops -> is_end (heap s) k p b -> b <> a -> opens k pi' = 1) as Hopen.
  { intros k b Hn Hb Hba. rewrite Ho. destruct (decide (k = fops f)) as [->|]; [by apply Huniq in Hb|].
    destruct (Fe k Hn) as [[-> _]|[_ Hno]]; [done|by apply Hno in Hb]. }
  assert (forall k, k <> NoFops -> opens k pi' = 1 -> o = Some pi') as Hsome.
  { intros k Hn H1. rewrite Eo. destruct k; [done| |]; cbn in H1; rewrite H1; cbn; by rewrite ?andb_false_r. }
  split; rewrite ?Et.
  - rewrite El. destruct (decide (0 = a)); [done|]. destruct (decide (0 = p)); [congruence|done].
  - intros t i Ht Hi Hn. destruct (B t i Ht Hi Hn) as [g Hg]. exists g. rewrite El, !decide_False; [done|congruence|].
    intros Hx. pose proof (refs_pos ts (fd_table s) t i a Ht Hi Hx). lia.
  - intros b g. rewrite El. destruct (decide (b = a)) as [->|Hb]; [done|]. rewrite (proj2 (Z.eqb_neq b a) Hb).
    destruct (decide (b = p)); [by destruct o|apply C].
  - intros b. destruct (Z.eqb_spec b a) as [->|Hn]; [done|]. intros Hb. destruct (D b Hb) as [g Hg]. exists g.
    rewrite El, !decide_False; [done|congruence|done].
  - intros b g. rewrite El. destruct (decide (b = a)) as [->|Hb]; [done|]. destruct (decide (b = p)); [by destruct o|].
    intros Hg Hn. destruct (E b g Hg Hn) as [qi Hqi]. destruct (decide (private_data g = p)) as [Eq|Hne].
    + exists pi'. rewrite El, decide_False, decide_True by congruence.
      rewrite (Hsome (fops g) Hn); [done|]. apply (Hopen _ b); auto. exists g. auto.
    + exists qi. rewrite El, !decide_False; [done|done|congruence].
  - intros q qi. rewrite El. destruct (decide (q = a)) as [->|Hqa]; [done|]. destruct (decide (q = p)) as [->|Hqp].
    + destruct o as [po|] eqn:Eo'; [|done]. cbn. intros [= <-].
      assert (po = pi') as -> by (by destruct ((readers_open pi' =? 0) && (writers_open pi' =? 0)); [|injection Eo]).
      split.
      * intros k Hn. rewrite Ho. destruct (decide (k = fops f)) as [->|Hne].
        { right. split; [done|]. intros b Hb. apply Ee in Hb as [Hb Hba]. by apply Huniq in Hb. }
        destruct (Fe k Hn) as [(E1 & c & Hc & Hu)|[E0 Hno]].
        { left. split; [done|]. exists c. assert (c <> a) as Hca by (intros ->; destruct Hc as (g & Hg & Hgk & _); congruence).
          split; [by apply Ee|]. intros b Hb. apply Ee in Hb as [Hb _]. by apply Hu. }
        { right. split; [done|]. intros b Hb. apply Ee in Hb as [Hb _]. by apply (Hno b). }
      * destruct (Z.eqb_spec (readers_open pi') 0) as [E1|N1]; [destruct (Z.eqb_spec (writers_open pi') 0) as [E2|N2]; [done|]|].
        { exists PipeWriteFops. split; [done|]. cbn. specialize (Ho PipeWriteFops). cbn in Ho. rewrite Ho in N2 |- *.
          destruct (decide (PipeWriteFops = fops f)); [done|]. destruct (Fe PipeWriteFops ltac:(done)) as [[? _]|[? _]]; cbn in *; [done|lia]. }
        { exists PipeReadFops. split; [done|]. cbn. specialize (Ho PipeReadFops). cbn in Ho. rewrite Ho in N1 |- *.
          destruct (decide (PipeReadFops = fops f)); [done|]. destruct (Fe PipeReadFops ltac:(done)) as [[? _]|[? _]]; cbn in *; [done|lia]. }
    + intros Hqi. destruct (F q qi Hqi) as [F1 F2]. split; [|done]. intros k Hn. specialize (F1 k Hn).
      assert (forall b, is_end (heap s') k q b <-> is_end (heap s) k q b) as Ee'.
      { intros b. rewrite Ee. split; [tauto|]. intros Hb. split; [done|]. intros ->. destruct Hb as (g & Hg & _ & Hgq). congruence. }
      unfold ends in *. setoid_rewrite Ee'. done.
Qed.


(** ** The operations *)

Definition cur (s : kern) : Z := pc_current (sch s).

Lemma unblock_current t s : pc_current (sched_unblock t s) = pc_current s.
Proof using Type.
  unfold sched_unblock. set (c := sched_pick_cpu_for_task _ _ _). set (s1 := upd_task t _ s).
  assert (pc_current (rq_insert c t s1) = pc_current s1) as E by (by destruct (rq_insert_frame c t s1) as (_ & _ & _ & ->)).
  destruct (t_state (tasks s1 t)); rewrite ?E; done.
Qed.

Lemma wake_all_current fuel wq s : pc_current (snd (wq_wake_all fuel wq s)) = pc_current s.
Proof using Type.
  cbn [wq_wake_all snd]. revert wq s. induction fuel as [|fuel IH]; intros wq s; cbn [wake_list]; [done|].
  destruct (wq =? 0); [done|]. rewrite IH, unblock_current. done.
Qed.

Lemma pipe_closed fuel k pi sc : k <> NoFops -> opens k pi = 1 ->
  let '(gone, pi', sc') := (if decide (k = PipeReadFops) then pipe_close_read fuel pi sc else pipe_close_write fuel pi sc) in
  (forall k', opens k' pi' = if decide (k' = k) then 0 else opens k' pi) /\
  gone = (readers_open pi' =? 0) && (writers_open pi' =? 0) /\ pc_current sc' = pc_current sc.
Proof using Type.
  intros Hk H1. destruct k; [done| |]; cbn [opens] in H1; unfold pipe_close_read, pipe_close_write.
  - destruct (decide _) as [_|]; [|done]. pose proof (wake_all_current fuel (p_writers (pi <| readers_open := u32 (readers_open pi - 1) |>)) sc) as Hc.
    destruct (wq_wake_all _ _ _) as [wq sc']. split_and!; [|done|exact Hc]. intros k'. rewrite H1.
    destruct k'; cbn [opens]; destruct (decide _); done.
  - destruct (decide _) as [|_]; [done|]. pose proof (wake_all_current fuel (p_readers (pi <| writers_open := u32 (writers_open pi - 1) |>)) sc) as Hc.
    destruct (wq_wake_all _ _ _) as [wq sc']. split_and!; [|done|exact Hc]. intros k'. rewrite H1.
    destruct k'; cbn [opens]; destruct (decide _); done.
Qed.

(** What the calls that release or add references leave alone. *)
Definition steady (s s' : kern) : Prop := fd_table s' = fd_table s /\ fd_flags s' = fd_flags s /\ cur s' = cur s.

Lemma kfree_ok a o s : heap s !! a = Some o ->
  exists s', kfree a s = Some s' /\ heap s' = delete a (heap s) /\ steady s s' /\ sch s' = sch s.
Proof using Type. intros E. unfold kfree. rewrite E. eexists. split_and!; done. Qed.

Lemma release_last fuel d s a f : fd_ok d s -> heap s !! a = Some (File f) -> refs ts (fd_table s) a = 0 ->
  exists s', match fops_close fuel f s with None => None | Some s1 => kfree a s1 end = Some s' /\
    fd_ok (fun b => if b =? a then 0 else d b) s' /\ steady s s'.
Proof using Type.
  intros V Hf Hr. destruct (decide (fops f = NoFops)) as [Ek|Hk].
  { unfold fops_close. rewrite Ek. destruct (kfree_ok a _ s Hf) as (s' & -> & Eh & St & _).
    exists s'. split; [done|]. split; [|done]. apply (drop_plain d s _ a f); auto. apply St. }
  destruct (ok_ends _ _ V a f Hf Hk) as [pi Hpi]. set (p := private_data f) in *.
  assert (p <> 0) as Hp0 by (intros E; rewrite E, (ok_null _ _ V) in Hpi; done).
  assert (p <> a) as Hpa by congruence.
  destruct (ok_pipe _ _ V p pi Hpi) as [Fe _].
  assert (opens (fops f) pi = 1) as H1.
  { destruct (Fe (fops f) Hk) as [[? _]|[_ Hno]]; [done|]. exfalso. apply (Hno a). exists f. auto. }
  pose proof (pipe_closed fuel (fops f) pi (sch s) Hk H1) as K.
  assert (fops_close fuel f s = close_end (fun pi sc => if decide (fops f = PipeReadFops) then pipe_close_read fuel pi sc
    else pipe_close_write fuel pi sc) p s) as -> by (unfold fops_close; by destruct (fops f)).
  unfold close_end. rewrite (proj2 (Z.eqb_neq p 0) Hp0). unfold get_pipe. rewrite Hpi.
  destruct (if decide (fops f = PipeReadFops) then _ else _) as [[gone pi'] sc']. destruct K as (K1 & K2 & K3).
  set (s1 := put_obj p (PipeObj pi') (s <| sch := sc' |>)).
  assert (heap s1 = <[p := PipeObj pi']> (heap s)) as E1 by done.
  assert (steady s s1) as St by (split_and!; done). clearbody s1.
  destruct gone eqn:Eg.
  - destruct (kfree_ok p (PipeObj pi') s1) as (s2 & -> & E2 & St2 & _); [by rewrite E1, lookup_insert_eq|].
    destruct (kfree_ok a (File f) s2) as (s3 & -> & E3 & St3 & _); [by rewrite E2, E1, lookup_delete_ne, lookup_insert_ne|].
    assert (steady s s3) as St4 by (unfold steady in *; intuition congruence).
    exists s3. split; [done|]. split; [|done]. apply (drop_end d s _ a f p pi pi' None); auto; [by rewrite <- K2| |apply St4].
    intros b. rewrite E3, E2, E1. destruct (decide (b = a)) as [->|]; [by rewrite lookup_delete_eq|]. rewrite lookup_delete_ne by done.
    destruct (decide (b = p)) as [->|]; [by rewrite lookup_delete_eq|]. by rewrite lookup_delete_ne, lookup_insert_ne.
  - destruct (kfree_ok a (File f) s1) as (s3 & -> & E3 & St3 & _); [by rewrite E1, lookup_insert_ne|].
    assert (steady s s3) as St4 by (unfold steady in *; intuition congruence).
    exists s3. split; [done|]. split; [|done]. apply (drop_end d s _ a f p pi pi' (Some pi')); auto; [by rewrite <- K2| |apply St4].
    intros b. rewrite E3, E1. destruct (decide (b = a)) as [->|]; [by rewrite lookup_delete_eq|]. rewrite lookup_delete_ne by done.
    destruct (decide (b = p)) as [->|]; [by rewrite lookup_insert_eq|]. by rewrite lookup_insert_ne.
Qed.

Lemma ref1_file a b : a <> 0 -> ref1 a b = if b =? a then 1 else 0.
Proof using Type.
  intros Hn. unfold ref1. rewrite (Z.eqb_sym a b). destruct (Z.eqb_spec b a) as [->|]; [|done]. by rewrite (proj2 (Z.eqb_neq a 0) Hn).
Qed.

Lemma ref1_null b : ref1 0 b = 0.
Proof using Type. unfold ref1. destruct (Z.eqb_spec 0 b) as [<-|]; done. Qed.

Lemma release_ok fuel d s a : fd_ok d s -> 1 <= d a ->
  exists s', file_release fuel a s = Some s' /\ fd_ok (fun b => d b - ref1 a b) s' /\ steady s s'.
Proof using Type.
  intros V Ha. destruct (ok_pend _ _ V a ltac:(lia)) as [f Hf].
  assert (a <> 0) as Hn by (intros ->; rewrite (ok_null _ _ V) in Hf; done).
  destruct (ok_refs _ _ V a f Hf) as [Er Hp]. pose proof (refs_range ts (fd_table s) a) as Hrr.
  pose proof (fun b => ref1_file a b Hn) as E1.
  unfold file_release. rewrite (proj2 (Z.eqb_neq a 0) Hn). unfold get_file. rewrite Hf.
  destruct (Z.ltb_spec 1 (ref_count f)) as [Hlt|Hge].
  - eexists. split; [done|]. split; [|done].
    rewrite (wrap_small 32) by lia. eapply fd_ok_ext; [|by apply (put_count_ok d s a f); [| |lia]]. intros b. cbv beta. rewrite E1.
    destruct (Z.eqb_spec b a) as [->|]; lia.
  - destruct (release_last fuel d s a f V Hf) as (s' & -> & V' & St); [lia|].
    exists s'. split; [done|]. split; [|done]. eapply fd_ok_ext; [|exact V']. intros b. cbv beta. rewrite E1.
    destruct (Z.eqb_spec b a) as [->|]; lia.
Qed.

Lemma retain_ok d s a f : fd_ok d s -> heap s !! a = Some (File f) -> ref_count f + 1 < 2 ^ 32 ->
  exists s', file_retain a s = Some s' /\ fd_ok (fun b => d b + ref1 a b) s' /\ steady s s' /\ sch s' = sch s /\
    forall b g, heap s !! b = Some (File g) -> exists g', heap s' !! b = Some (File g').
Proof using Type.
  intros V Hf Hb. assert (a <> 0) as Hn by (intros ->; rewrite (ok_null _ _ V) in Hf; done).
  destruct (ok_refs _ _ V a f Hf) as [Er Hp]. unfold file_retain, get_file. rewrite Hf. eexists. split; [done|].
  rewrite (wrap_small 32) by lia. split_and!; try done.
  - eapply fd_ok_ext; [|by apply (put_count_ok d s a f); [| |lia]]. intros b. cbv beta. rewrite ref1_file by done.
    destruct (Z.eqb_spec b a) as [->|]; lia.
  - intros b g Hg. unfold put_obj. change (heap (s <| heap := ?h |>)) with h.
    destruct (decide (b = a)) as [->|]; [rewrite lookup_insert_eq; eauto|rewrite lookup_insert_ne by done; eauto].
Qed.

(** A file that was just allocated. *)
Lemma new_file_ok d s a f : fd_ok d s -> a <> 0 -> heap s !! a = None -> fops f = NoFops -> ref_count f = 1 ->
  fd_ok (fun b => d b + ref1 a b) (put_obj a (File f) s).
Proof using Type.
  intros V Hn Hnone Hk H1. pose proof (fun b => ref1_file a b Hn) as E1. pose proof V as [A B C D E F].
  assert (d a = 0) as Hd. { destruct (decide (d a = 0)) as [|Hx]; [done|]. destruct (D a Hx). congruence. }
  assert (refs ts (fd_table s) a = 0) as Hr.
  { apply refs_zero. intros t i Ht Hi Hx. destruct (B t i Ht Hi) as [g Hg]; congruence. }
  assert (forall b, heap (put_obj a (File f) s) !! b = if decide (b = a) then Some (File f) else heap s !! b) as El.
  { intros b. unfold put_obj. change (heap (s <| heap := _ |>)) with (<[a := File f]> (heap s)).
    destruct (decide (b = a)) as [->|]; [by rewrite lookup_insert_eq|by rewrite lookup_insert_ne]. }
  assert (forall k p b, k <> NoFops -> is_end (heap (put_obj a (File f) s)) k p b <-> is_end (heap s) k p b) as Ee.
  { intros k p b Hkn. unfold is_end. rewrite El. destruct (decide (b = a)) as [->|]; [|done]. rewrite Hnone.
    split; intros (g & Hg & Hgk & _); [|done]. injection Hg as <-. congruence. }
  split.
  - by rewrite El, decide_False.
  - intros t i Ht Hi Hx. rewrite El. destruct (decide _); [eauto|]. by apply B.
  - intros b g. rewrite El, E1. change (fd_table (put_obj a (File f) s)) with (fd_table s). destruct (decide (b = a)) as [->|Hb].
    + intros [= <-]. rewrite Z.eqb_refl, Hr, Hd, H1. lia.
    + rewrite (proj2 (Z.eqb_neq b a) Hb), Z.add_0_r. apply C.
  - intros b. rewrite El, E1. destruct (decide (b = a)) as [->|Hb]; [eauto|]. rewrite (proj2 (Z.eqb_neq b a) Hb), Z.add_0_r. apply D.
  - intros b g. rewrite El. destruct (decide (b = a)) as [->|Hb]; [intros [= <-]; congruence|].
    intros Hg Hgk. destruct (E b g Hg Hgk) as [pi Hpi]. exists pi. rewrite El, decide_False; [done|]. congruence.
  - intros p pi. rewrite El. destruct (decide (p = a)) as [->|Hp]; [done|]. intros Hpi. destruct (F p pi Hpi) as [F1 F2].
    split; [|done]. intros k Hkn. specialize (F1 k Hkn). unfold ends in *. setoid_rewrite Ee; done.
Qed.


Lemma alloc_from_ok f start s :
  let '(r, s') := fd_alloc_from f start s in
  (r = -1 /\ s' = s) \/ (0 <= r < MAX_FDS /\ fd_table s (cur s) r = 0 /\ s' = set_fd (cur s) r f s /\ cur s <> 0).
Proof using Type.
  clear Hbound. unfold fd_alloc_from. fold (cur s). destruct (Z.eqb_spec (cur s) 0); [auto|]. set (st := if start <? 0 then 0 else start).
  assert (0 <= st) as Hst by (unfold st; destruct (Z.ltb_spec start 0); lia). clearbody st.
  destruct (Z.leb_spec MAX_FDS st); [auto|]. destruct (find_index _ st _) as [i|] eqn:E; [|auto].
  apply find_index_Some in E as (Hi & Ht & _). right. apply Z.eqb_eq in Ht. split_and!; auto; lia.
Qed.

Lemma alloc_is_from f s : fd_alloc f s = fd_alloc_from f 0 s.
Proof using Type. done. Qed.

Lemma fd_get_live d s fd : fd_ok d s -> In (cur s) ts -> fd_get fd s <> 0 ->
  0 <= fd < MAX_FDS /\ cur s <> 0 /\ fd_get fd s = fd_table s (cur s) fd /\ exists f, heap s !! fd_get fd s = Some (File f).
Proof using Type.
  intros V Hc. unfold fd_get. fold (cur s). destruct (Z.ltb_spec fd 0), (Z.leb_spec MAX_FDS fd); cbn [orb]; try done.
  destruct (Z.eqb_spec (cur s) 0); [done|]. intros Hn. split_and!; auto. by apply (ok_slot _ _ V).
Qed.

Lemma sys_close_ok fuel d s fd : fd_ok d s -> (forall a, 0 <= d a) -> In (cur s) ts ->
  exists r s', sys_close fuel fd s = Some (r, s') /\ fd_ok d s' /\ cur s' = cur s /\
    fd_table s' = (if fd_get fd s =? 0 then fd_table s else fd_table (set_fd (cur s) fd 0 s)) /\
    (forall t i, In t ts -> 0 <= i < MAX_FDS -> fd_table s' t i <> 0 -> exists f, heap s' !! fd_table s' t i = Some (File f)).
Proof using Hnd.
  intros V Hd Hc. unfold sys_close. destruct (Z.eqb_spec (fd_get fd s) 0) as [E|Hn].
  { exists (-1), s. split_and!; auto. apply (ok_slot _ _ V). }
  destruct (fd_get_live d s fd V Hc Hn) as (Hfd & Hc0 & Eg & f & Hf).
  assert (fd_free fd s = set_fd (cur s) fd 0 s) as ->.
  { unfold fd_free. fold (cur s). destruct (Z.ltb_spec fd 0), (Z.leb_spec MAX_FDS fd), (Z.eqb_spec (cur s) 0); try lia. done. }
  pose proof (set_fd_ok d s (cur s) fd 0 V Hc Hfd ltac:(by left)) as V1. rewrite <- Eg in V1.
  assert (ref1 (fd_get fd s) (fd_get fd s) = 1) as H1 by (rewrite ref1_file by done; by rewrite Z.eqb_refl).
  destruct (release_ok fuel _ _ (fd_get fd s) V1) as (s' & -> & V2 & (S1 & S2 & S3)).
  { cbv beta. rewrite H1, ref1_null. specialize (Hd (fd_get fd s)). lia. }
  exists 0, s'. assert (fd_ok d s') as V3.
  { eapply fd_ok_ext; [|exact V2]. intros b. cbv beta. rewrite ref1_null. lia. }
  split_and!; auto. intros t i. apply (ok_slot _ _ V3).
Qed.

(** A reference that a call holds: to a file it made itself. *)
Definition held (created : bool) (f : Z) : Z -> Z := fun b => if created then ref1 f b else 0.

Lemma install_ok created f i g s : fd_ok (held created f) s -> In (cur s) ts -> 0 <= i < MAX_FDS ->
  fd_table s (cur s) i = 0 -> heap s !! f = Some (File g) ->
  exists s', keep_ref created f i (set_fd (cur s) i f s) = Some (i, s') /\ fd_ok (fun _ => 0) s'.
Proof using Hnd Hbound.
  intros V Hc Hi H0 Hf. assert (f <> 0) as Hn by (intros ->; rewrite (ok_null _ _ V) in Hf; done).
  pose proof (set_fd_ok _ s (cur s) i f V Hc Hi ltac:(eauto)) as V1. rewrite H0 in V1.
  pose proof ref1_null as Ez.
  unfold keep_ref. destruct created; cbn [held] in V1.
  - eexists. split; [done|]. eapply fd_ok_ext; [|exact V1]. intros b. cbv beta. rewrite Ez. lia.
  - destruct (ok_refs _ _ V1 f g Hf) as [Er _]. cbv beta in Er. rewrite Ez, ref1_file, Z.eqb_refl in Er by done.
    pose proof (refs_range ts (fd_table (set_fd (cur s) i f s)) f) as Hr.
    destruct (retain_ok _ _ f g V1 Hf) as (s' & -> & V2 & _); [unfold MAX_FDS in *; lia|].
    exists s'. split; [done|]. eapply fd_ok_ext; [|exact V2]. intros b. cbv beta. rewrite Ez. lia.
Qed.

(** A plain file made by a call and given up. *)
Lemma give_up_ok f g s : fd_ok (held true f) s -> heap s !! f = Some (File g) -> fops g = NoFops -> refs ts (fd_table s) f = 0 ->
  exists s', kfree f s = Some s' /\ fd_ok (fun _ => 0) s' /\ steady s s'.
Proof using Type.
  intros V Hf Hk Hr. destruct (kfree_ok f _ s Hf) as (s' & -> & Eh & St & _). exists s'. split; [done|]. split; [|done].
  eapply fd_ok_ext; [|by apply (drop_plain (held true f) s s' f g); auto; apply St]. intros b. cbv beta.
  assert (f <> 0) as Hn by (intros ->; rewrite (ok_null _ _ V) in Hf; done). cbn [held]. rewrite ref1_file by done. by destruct (b =? f).
Qed.

Record got (created : bool) (f : Z) (s s1 : kern) : Prop := {
  go_ok : fd_ok (held created f) s1;
  go_file : exists g, heap s1 !! f = Some (File g) /\ (created = true -> fops g = NoFops /\ refs ts (fd_table s1) f = 0);
  go_same : steady s s1 /\ sch s1 = sch s /\ (created = false -> s1 = s)
}.

Lemma get_or_stdio_ok fd a s : fd_ok (fun _ => 0) s -> In (cur s) ts -> a = 0 \/ heap s !! a = None ->
  let '(f, s1) := fd_get_or_stdio fd a s in
  (f = 0 /\ s1 = s) \/ (f <> 0 /\ got (fd_get fd s =? 0) f s s1 /\ (fd_get fd s <> 0 -> f = fd_get fd s)).
Proof using Type.
  intros V Hc Ha. unfold fd_get_or_stdio. destruct (Z.eqb_spec (fd_get fd s) 0) as [E|Hn]; cbn [negb].
  2:{ right. split; [done|]. split; [|done]. destruct (fd_get_live _ s fd V Hc Hn) as (_ & _ & _ & f & Hf).
      split; [done| |done]. exists f. done. }
  destruct ((0 <=? fd) && (fd <=? 2)); [|auto]. unfold stdio_file_create.
  destruct ((fd <? 0) || (2 <? fd)); [auto|]. destruct (Z.eqb_spec a 0) as [|Hn]; [auto|]. destruct Ha as [|Ha]; [done|].
  right. split; [done|]. split; [|done]. set (g := zero_file <| f_flags := _ |> <| ref_count := 1 |> <| mount_idx := -1 |> <| f_path := _ |>).
  pose proof (new_file_ok _ s a g V Hn Ha eq_refl eq_refl) as V1. split.
  - eapply fd_ok_ext; [|exact V1]. intros b. cbn [held]. lia.
  - exists g. unfold put_obj at 1. change (heap (s <| heap := ?h |>)) with h. rewrite lookup_insert_eq. split; [done|]. intros _. split; [done|].
    change (fd_table (put_obj a (File g) s)) with (fd_table s). apply refs_zero. intros t i Ht Hi Hx.
    destruct (ok_slot _ _ V t i Ht Hi) as [g' Hg']; congruence.
  - split; [done|]. split; [done|]. done.
Qed.


Lemma dup_failed_ok created f s s1 : got created f s s1 -> exists s', dup_failed created f s1 = Some (-1, s') /\ fd_ok (fun _ => 0) s'.
Proof using Type.
  intros [V (g & Hg & Hc) _]. unfold dup_failed. destruct created.
  - destruct (Hc eq_refl) as [Hk Hr]. destruct (give_up_ok f g s1 V Hg Hk Hr) as (s' & -> & V' & _). eauto.
  - exists s1. split; [done|]. by eapply fd_ok_ext; [|exact V].
Qed.

Lemma sys_dup_ok fd a s : fd_ok (fun _ => 0) s -> In (cur s) ts -> a = 0 \/ heap s !! a = None ->
  exists r s', sys_dup fd a s = Some (r, s') /\ fd_ok (fun _ => 0) s'.
Proof using Hnd Hbound.
  intros V Hc Ha. unfold sys_dup. pose proof (get_or_stdio_ok fd a s V Hc Ha) as K.
  destruct (fd_get_or_stdio fd a s) as [f s1]. destruct K as [[-> ->]|(Hf & G & _)]; [cbn; eauto|].
  rewrite (proj2 (Z.eqb_neq f 0) Hf). pose proof G as [V1 (g & Hg & _) (St & Es & _)].
  assert (cur s1 = cur s) as Ec by (by unfold cur; rewrite Es).
  pose proof (alloc_from_ok f (if fd <=? 2 then 3 else 0) s1) as A.
  destruct (fd_alloc_from f (if fd <=? 2 then 3 else 0) s1) as [r s2]. destruct A as [[-> ->]|(Hr & H0 & -> & _)].
  - cbn [Z.ltb]. destruct (dup_failed_ok _ f s s1 G) as (s' & E & V'). change (-1 <? 0) with true. cbv iota. eauto.
  - destruct (Z.ltb_spec r 0); [lia|]. rewrite <- Ec in Hc. destruct (install_ok _ f r g s1 V1 Hc Hr H0 Hg) as (s' & -> & V'). eauto.
Qed.

Lemma set_fd_table t i v s u j :
  fd_table (set_fd t i v s) u j = if decide (u = t /\ j = i) then v else fd_table s u j.
Proof using Type.
  change (fd_table (set_fd t i v s)) with ((fd_table s).[t <- (fd_table s t).[i <- v]]).
  destruct (decide (u = t)) as [->|Hu]; [rewrite upd_eq|rewrite upd_ne by done].
  - destruct (decide (j = i)) as [->|Hj]; [rewrite upd_eq|rewrite upd_ne by done]; destruct (decide _); tauto.
  - destruct (decide _); tauto.
Qed.

Lemma sys_dup2_ok fuel oldfd newfd a s : fd_ok (fun _ => 0) s -> In (cur s) ts -> a = 0 \/ heap s !! a = None ->
  exists r s', sys_dup2 fuel oldfd newfd a s = Some (r, s') /\ fd_ok (fun _ => 0) s'.
Proof using Hnd Hbound.
  intros V Hc Ha. unfold sys_dup2.
  destruct (Z.ltb_spec newfd 0), (Z.leb_spec MAX_FDS newfd); cbn [orb]; [eauto|eauto|eauto|].
  destruct (Z.eqb_spec oldfd newfd) as [|Hne]; [eauto|]. pose proof (get_or_stdio_ok oldfd a s V Hc Ha) as K.
  destruct (fd_get_or_stdio oldfd a s) as [f s1]. destruct K as [[-> ->]|(Hf & G & Hold)]; [cbn; eauto|].
  rewrite (proj2 (Z.eqb_neq f 0) Hf). pose proof G as [V1 (g & Hg & Hcr) ((St & _) & Es & Esame)].
  assert (cur s1 = cur s) as Ec by (by unfold cur; rewrite Es). rewrite <- Ec in Hc.
  set (cr := fd_get oldfd s =? 0) in *.
  assert (exists s2 r0, (if fd_get newfd s1 =? 0 then Some (0, s1) else sys_close fuel newfd s1) = Some (r0, s2) /\
    fd_ok (held cr f) s2 /\ cur s2 = cur s1 /\ (exists g, heap s2 !! f = Some (File g)) /\
    (cur s1 <> 0 -> fd_table s2 (cur s2) newfd = 0) /\ (cur s1 = 0 -> s2 = s1)) as (s2 & r0 & -> & V2 & Ec2 & (g2 & Hg2) & Hfree & Hz).
  { destruct (Z.eqb_spec (fd_get newfd s1) 0) as [E|Hn].
    - exists s1, 0. split_and!; eauto. intros Hc0. unfold fd_get in E. fold (cur s1) in E.
      destruct (Z.ltb_spec newfd 0), (Z.leb_spec MAX_FDS newfd), (Z.eqb_spec (cur s1) 0); cbn [orb] in E; try lia; try done.
    - destruct (sys_close_ok fuel (held cr f) s1 newfd V1) as (r & s2 & E & V2 & Ec2 & Et & Hl); auto.
      { intros b. unfold held. destruct cr; [apply b2z_range|lia]. }
      rewrite (proj2 (Z.eqb_neq _ _) Hn) in Et. destruct (fd_get_live _ s1 newfd V1 Hc Hn) as (_ & Hc0 & _ & _).
      exists s2, r. split_and!; auto.
      + unfold held in V2. destruct cr eqn:Ecr.
        * apply (ok_pend _ _ V2). rewrite ref1_file by done. by rewrite Z.eqb_refl.
        * apply Z.eqb_neq in Ecr. specialize (Hold Ecr). rewrite (Esame eq_refl) in *.
          destruct (fd_get_live _ s oldfd V Hc Ecr) as (Ho & _ & Eg & _). rewrite Hold, Eg.
          assert (fd_table s2 (cur s) oldfd = fd_table s (cur s) oldfd) as Eslot.
          { rewrite Et, set_fd_table, decide_False; [done|]. tauto. }
          rewrite <- Eslot. apply Hl; auto. congruence.
      + intros _. rewrite Et, Ec2, set_fd_table, decide_True; done.
      + done. }
  unfold fd_install_at. fold (cur s2). rewrite Ec2. destruct (Z.eqb_spec (cur s1) 0) as [Hc0|Hc0]; cbn [orb].
  - cbn [Z.ltb]. rewrite (Hz Hc0). destruct (dup_failed_ok _ f s s1 G) as (s' & E & V'). change (-1 <? 0) with true. cbv iota. eauto.
  - destruct (Z.ltb_spec newfd 0), (Z.leb_spec MAX_FDS newfd); try lia. cbn [orb]. destruct (Z.ltb_spec newfd 0); [lia|].
    rewrite <- Ec2 in Hc |- *. destruct (install_ok cr f newfd g2 s2 V2 Hc ltac:(lia) (Hfree Hc0) Hg2) as (s' & -> & V'). eauto.
Qed.

Lemma open_file_ok flags midx abs a s : fd_ok (fun _ => 0) s -> In (cur s) ts -> a = 0 \/ heap s !! a = None ->
  exists r s', open_file flags midx abs a s = Some (r, s') /\ fd_ok (fun _ => 0) s'.
Proof using Hnd Hbound.
  intros V Hc Ha. unfold open_file. destruct (Z.eqb_spec a 0) as [|Hn]; [eauto|]. destruct Ha as [|Ha]; [done|].
  set (g := zero_file <| f_flags := flags |> <| ref_count := 1 |> <| mount_idx := midx |> <| f_path := _ |>).
  pose proof (new_file_ok _ s a g V Hn Ha eq_refl eq_refl) as V1. set (s1 := put_obj a (File g) s) in *.
  assert (heap s1 !! a = Some (File g)) as Hg by apply lookup_insert_eq.
  assert (fd_ok (held true a) s1) as V2 by (eapply fd_ok_ext; [|exact V1]; intros b; cbn [held]; lia).
  assert (refs ts (fd_table s1) a = 0) as Hr.
  { apply refs_zero. intros t i Ht Hi Hx. destruct (ok_slot _ _ V t i Ht Hi) as [g' Hg']; change (fd_table s1) with (fd_table s) in Hx; congruence. }
  rewrite alloc_is_from. pose proof (alloc_from_ok a 0 s1) as A. destruct (fd_alloc_from a 0 s1) as [r s2].
  destruct A as [[-> ->]|(Hr0 & H0 & -> & _)].
  - change (-1 <? 0) with true. cbv iota. destruct (give_up_ok a g s1 V2 Hg eq_refl Hr) as (s' & -> & V' & _). eauto.
  - destruct (Z.ltb_spec r 0); [lia|]. destruct (install_ok true a r g s1 V2 Hc Hr0 H0 Hg) as (s' & E & V').
    cbn [keep_ref] in E. injection E as <-. eauto.
Qed.


(** ** Whole tables *)

Lemma for_opt_ind {S : Type} (P : Z -> S -> Prop) n lo (body : Z -> S -> option S) s : P lo s ->
  (forall i s, lo <= i < lo + Z.of_nat n -> P i s -> exists s', body i s = Some s' /\ P (i + 1) s') ->
  exists s', for_opt n lo body s = Some s' /\ P (lo + Z.of_nat n) s'.
Proof using Type.
  clear Hbound. revert lo s. induction n as [|n IH]; intros lo s H0 Hs; cbn [for_opt].
  - exists s. rewrite Z.add_0_r. done.
  - destruct (Hs lo s ltac:(lia) H0) as (s1 & -> & H1). destruct (IH (lo + 1) s1 H1) as (s' & E & H').
    + intros i s2 Hi. apply Hs. lia.
    + exists s'. split; [done|]. replace (lo + Z.of_nat (Datatypes.S n)) with (lo + 1 + Z.of_nat n) by lia. done.
Qed.

(** Clearing one entry and releasing its file. *)
Lemma close_slot fuel t i s : fd_ok (fun _ => 0) s -> In t ts -> 0 <= i < MAX_FDS ->
  exists s', file_release fuel (fd_table s t i) (set_fd t i 0 s) = Some s' /\ fd_ok (fun _ => 0) s' /\
    forall u j, fd_table s' u j = if decide (u = t /\ j = i) then 0 else fd_table s u j.
Proof using Hnd.
  intros V Ht Hi. pose proof (set_fd_ok _ s t i 0 V Ht Hi ltac:(by left)) as V1.
  destruct (Z.eqb_spec (fd_table s t i) 0) as [E|Hn].
  - exists (set_fd t i 0 s). unfold file_release. rewrite E. split; [done|]. split; [|apply set_fd_table].
    eapply fd_ok_ext; [|exact V1]. intros b. cbv beta. rewrite E, !ref1_null. done.
  - destruct (release_ok fuel _ _ (fd_table s t i) V1) as (s' & -> & V2 & (S1 & _)).
    { cbv beta. rewrite ref1_null, ref1_file, Z.eqb_refl by done. lia. }
    exists s'. split; [done|]. split; [|intros u j; rewrite S1; apply set_fd_table].
    eapply fd_ok_ext; [|exact V2]. intros b. cbv beta. rewrite ref1_null. lia.
Qed.

Lemma close_fds_ok fuel t s : fd_ok (fun _ => 0) s -> In t ts -> t <> 0 ->
  exists s', vfs_task_close_fds fuel t s = Some s' /\ fd_ok (fun _ => 0) s' /\
    (forall j, 0 <= j < MAX_FDS -> fd_table s' t j = 0) /\ forall u j, u <> t -> fd_table s' u j = fd_table s u j.
Proof using Hnd.
  intros V Ht Hn. unfold vfs_task_close_fds. rewrite (proj2 (Z.eqb_neq t 0) Hn).
  destruct (for_opt_ind (fun i s' => fd_ok (fun _ => 0) s' /\ (forall j, 0 <= j < i -> fd_table s' t j = 0) /\
    forall u j, u <> t -> fd_table s' u j = fd_table s u j)
    (Z.to_nat MAX_FDS) 0 (fun i s => let f := fd_table s t i in file_release fuel f (set_fd t i 0 s)) s) as (s' & E & P).
  - split_and!; auto. intros j Hj. lia.
  - intros i s1 Hi (V1 & Hz & Ho). destruct (close_slot fuel t i s1 V1 Ht ltac:(unfold MAX_FDS in *; lia)) as (s2 & E & V2 & T2).
    exists s2. split; [done|]. split_and!; auto.
    + intros j Hj. rewrite T2. destruct (decide (t = t /\ j = i)); [done|]. apply Hz.
      assert (j <> i) by tauto. lia.
    + intros u j Hu. rewrite T2, decide_False by tauto. by apply Ho.
  - exists s'. split; [done|]. destruct P as (V1 & Hz & Ho). split_and!; auto.
Qed.

Lemma cloexec_ok fuel t s : fd_ok (fun _ => 0) s -> In t ts ->
  exists s', vfs_task_close_cloexec_fds fuel t s = Some s' /\ fd_ok (fun _ => 0) s'.
Proof using Hnd.
  intros V Ht. unfold vfs_task_close_cloexec_fds. destruct (t =? 0); [eauto|].
  destruct (for_opt_ind (fun _ s' => fd_ok (fun _ => 0) s') (Z.to_nat MAX_FDS) 0 (fun i s =>
    if (fd_table s t i =? 0) || negb (has (fd_flags s t i) 1) then Some s
    else let f := fd_table s t i in file_release fuel f (set_fd t i 0 s)) s V) as (s' & E & P).
  - intros i s1 Hi V1. destruct (_ || _); [eauto|].
    destruct (close_slot fuel t i s1 V1 Ht ltac:(unfold MAX_FDS in *; lia)) as (s2 & E & V2 & _). eauto.
  - eauto.
Qed.

(** The references of the entries from [i] on. *)
Definition ahead (tb : Z -> Z) (i a : Z) : Z := sum_range (Z.to_nat (MAX_FDS - i)) i (fun j => ref1 (tb j) a).

Lemma ahead_step tb i a : 0 <= i < MAX_FDS -> ahead tb i a = ref1 (tb i) a + ahead tb (i + 1) a.
Proof using Type.
  clear Hbound. intros Hi. unfold ahead. replace (Z.to_nat (MAX_FDS - i)) with (Datatypes.S (Z.to_nat (MAX_FDS - (i + 1)))) by lia. done.
Qed.

Lemma ahead_nonneg tb i a : 0 <= ahead tb i a.
Proof using Type. apply sum_range_nonneg. intros j _. apply b2z_range. Qed.

Lemma ahead_cnt tb a : a <> 0 -> ahead tb 0 a = cnt tb a.
Proof using Type.
  intros Ha. apply sum_range_ext. intros i _. unfold ref1. by rewrite (proj2 (Z.eqb_neq a 0) Ha), andb_true_r.
Qed.

Lemma ahead_null tb i : ahead tb i 0 = 0.
Proof using Type.
  transitivity (sum_range (Z.to_nat (MAX_FDS - i)) i (fun _ => 0)); [|apply sum_range_zero]. apply sum_range_ext. intros j _.
  unfold ref1. change (negb (0 =? 0)) with false. by rewrite andb_false_r.
Qed.

Lemma fork_fds_ok parent child s : fd_ok (fun _ => 0) s -> In parent ts -> In child ts -> child <> 0 ->
  (forall i, 0 <= i < MAX_FDS -> fd_table s child i = 0) ->
  exists s', fork_fds parent child s = Some s' /\ fd_ok (fun _ => 0) s' /\
    (forall i, fd_table s' child i = fd_table s parent i) /\ forall u i, u <> child -> fd_table s' u i = fd_table s u i.
Proof using Hnd Hbound.
  intros V Hp Hc Hn H0. unfold fork_fds, vfs_task_retain_fds. rewrite (proj2 (Z.eqb_neq child 0) Hn).
  set (s0 := s <| fd_table := _ |> <| fd_flags := _ |>). set (tb := fd_table s parent).
  assert (fd_table s0 = (fd_table s).[child <- tb]) as Et by done. assert (heap s0 = heap s) as Eh by done. clearbody s0.
  assert (forall i, fd_table s0 child i = tb i) as Ech by (intros i; by rewrite Et, upd_eq).
  assert (forall u i, u <> child -> fd_table s0 u i = fd_table s u i) as Eo by (intros u i Hu; by rewrite Et, upd_ne).
  assert (fd_ok (fun a => - ahead tb 0 a) s0) as V0.
  { destruct V as [A B C D E F].
    assert (forall t i, In t ts -> 0 <= i < MAX_FDS -> fd_table s0 t i <> 0 -> exists f, heap s0 !! fd_table s0 t i = Some (File f)) as B0.
    { intros t i Ht Hi. rewrite Eh. destruct (decide (t = child)) as [->|Hx]; [rewrite Ech|rewrite Eo by done]; by apply B. }
    split; rewrite ?Eh; auto; [by rewrite Eh in B0| |].
    - intros a f Hf. destruct (C a f Hf) as [C1 C2]. split; [|done]. assert (a <> 0) as Ha by (intros ->; congruence).
      rewrite Et, refs_upd by done. rewrite ahead_cnt by done.
      rewrite (cnt_zero (fd_table s child)); [lia|]. intros i Hi. rewrite H0 by done. done.
    - intros a Ha. destruct (decide (a = 0)) as [->|Hz]; [by rewrite ahead_null in Ha|]. rewrite ahead_cnt in Ha by done.
      destruct (find_index (Z.to_nat MAX_FDS) 0 (fun i => tb i =? a)) as [i|] eqn:Ef.
      + apply find_index_Some in Ef as (Hi & Ei & _). apply Z.eqb_eq in Ei. rewrite <- Ei. apply (B parent i); auto. unfold tb in Ei. congruence.
      + rewrite find_index_None in Ef. rewrite cnt_zero in Ha; [done|]. intros i Hi. apply Z.eqb_neq, Ef. done. }
  destruct (for_opt_ind (fun i s' => fd_ok (fun a => - ahead tb i a) s' /\ fd_table s' = fd_table s0)
    (Z.to_nat MAX_FDS) 0 (fun i s => if fd_table s child i =? 0 then Some s else file_retain (fd_table s child i) s) s0) as (s' & E & P).
  - done.
  - intros i s1 Hi [V1 T1]. change (Z.of_nat (Z.to_nat MAX_FDS)) with MAX_FDS in Hi. rewrite T1, Ech.
    assert (forall a, - ahead tb (i + 1) a = - ahead tb i a + ref1 (tb i) a) as Ea by (intros a; rewrite (ahead_step tb i) by lia; lia).
    destruct (Z.eqb_spec (tb i) 0) as [Ez|Hz].
    + exists s1. split; [done|]. split; [|done]. eapply fd_ok_ext; [|exact V1]. intros a. cbv beta. rewrite Ea, Ez, ref1_null. lia.
    + destruct (ok_slot _ _ V1 child i Hc ltac:(lia)) as [f Hf]; [by rewrite T1, Ech|]. rewrite T1, Ech in Hf.
      destruct (ok_refs _ _ V1 (tb i) f Hf) as [Er _]. pose proof (refs_range ts (fd_table s1) (tb i)). pose proof (ahead_nonneg tb i (tb i)).
      destruct (retain_ok _ s1 (tb i) f V1 Hf) as (s2 & -> & V2 & (S1 & _) & _); [unfold MAX_FDS in *; lia|].
      exists s2. split; [done|]. split; [|by rewrite S1]. eapply fd_ok_ext; [|exact V2]. intros a. cbv beta. apply Ea.
  - exists s'. split; [done|]. destruct P as [V1 T1]. split_and!; [|by rewrite T1|by rewrite T1].
    eapply fd_ok_ext; [|exact V1]. done.
Qed.


(** ** Pipes *)

(** Addresses kmalloc may return for three allocations in a row. *)
Definition fresh3 (h : gmap Z object) (p rf wf : Z) : Prop :=
  (p = 0 \/ h !! p = None) /\ (rf = 0 \/ h !! rf = None /\ rf <> p) /\ (wf = 0 \/ h !! wf = None /\ wf <> p /\ wf <> rf).

Definition read_file (p : Z) : file_t := zero_file <| fops := PipeReadFops |> <| private_data := p |> <| ref_count := 1 |>.
Definition write_file (p : Z) : file_t := zero_file <| fops := PipeWriteFops |> <| private_data := p |> <| ref_count := 1 |>.

Section new_pipe.
Variables (s s3 : kern) (p rf wf : Z).
Hypothesis V : fd_ok (fun _ => 0) s.
Hypothesis Hp : p <> 0 /\ heap s !! p = None.
Hypothesis Hrf : rf <> 0 /\ heap s !! rf = None /\ rf <> p.
Hypothesis Hwf : wf <> 0 /\ heap s !! wf = None /\ wf <> p /\ wf <> rf.
Hypothesis Eh : heap s3 = <[wf := File (write_file p)]> (<[rf := File (read_file p)]> (<[p := PipeObj pipe_new]> (heap s))).
Hypothesis Et : fd_table s3 = fd_table s.

Lemma new_lookup b : heap s3 !! b =
  if decide (b = wf) then Some (File (write_file p)) else if decide (b = rf) then Some (File (read_file p))
  else if decide (b = p) then Some (PipeObj pipe_new) else heap s !! b.
Proof using Eh.
  rewrite Eh. destruct (decide (b = wf)) as [->|]; [by rewrite lookup_insert_eq|]. rewrite lookup_insert_ne by done.
  destruct (decide (b = rf)) as [->|]; [by rewrite lookup_insert_eq|]. rewrite lookup_insert_ne by done.
  destruct (decide (b = p)) as [->|]; [by rewrite lookup_insert_eq|]. by rewrite lookup_insert_ne.
Qed.

Lemma new_old b o : heap s !! b = Some o -> heap s3 !! b = Some o.
Proof using Hp Hrf Hwf Eh. intros Hb. rewrite new_lookup, !decide_False; [done| | |]; intros ->; intuition congruence. Qed.

Lemma new_refs b : heap s !! b = None -> b <> 0 -> refs ts (fd_table s) b = 0.
Proof using V.
  intros Hb Hn. apply refs_zero. intros t i Ht Hi Hx. destruct (ok_slot _ _ V t i Ht Hi) as [g Hg]; congruence.
Qed.

Lemma new_end k q b : k <> NoFops -> is_end (heap s3) k q b <->
  (b = rf /\ k = PipeReadFops /\ q = p) \/ (b = wf /\ k = PipeWriteFops /\ q = p) \/ is_end (heap s) k q b.
Proof using Hp Hrf Hwf Eh.
  intros Hk. unfold is_end. rewrite new_lookup. destruct (decide (b = wf)) as [->|Hw].
  { split.
    - intros (f & [= <-] & <- & <-). auto.
    - intros [(? & _)|[(_ & -> & ->)|(f & Hf & _)]]; [intuition congruence|by exists (write_file p)|intuition congruence]. }
  destruct (decide (b = rf)) as [->|Hr].
  { split.
    - intros (f & [= <-] & <- & <-). auto.
    - intros [(_ & -> & ->)|[(? & _)|(f & Hf & _)]]; [by exists (read_file p)|intuition congruence|intuition congruence]. }
  destruct (decide (b = p)) as [->|Hb].
  { split; [by intros (f & [= ] & _)|]. intros [(? & _)|[(? & _)|(f & Hf & _)]]; intuition congruence. }
  split; [auto|]. intros [(? & _)|[(? & _)|?]]; done.
Qed.

Lemma new_pipe_at : heap s3 !! p = Some (PipeObj pipe_new).
Proof using Hrf Hwf Eh.
  rewrite new_lookup. destruct (decide (p = wf)) as [E|]; [destruct Hwf as (_ & _ & ? & _); congruence|].
  destruct (decide (p = rf)) as [E|]; [destruct Hrf as (_ & _ & ?); congruence|]. by destruct (decide (p = p)).
Qed.

Lemma new_pipe_ok : fd_ok (fun b => ref1 rf b + ref1 wf b) s3.
Proof using V Hp Hrf Hwf Eh Et.
  pose proof V as [A B C D E F]. pose proof new_lookup as El.
  assert (forall k b, k <> NoFops -> ~ is_end (heap s) k p b) as Hnone.
  { intros k b Hk (f & Hf & <- & Ef). destruct (E b f Hf Hk) as [pi Hpi]. rewrite Ef in Hpi. destruct Hp. congruence. }
  split; rewrite ?Et.
  - rewrite El, !decide_False; auto; intros E0; rewrite <- E0 in *; tauto.
  - intros t i Ht Hi Hn. destruct (B t i Ht Hi Hn) as [f Hf]. exists f. by apply new_old.
  - intros b f. rewrite El, !ref1_file by tauto. destruct (decide (b = wf)) as [->|Hw].
    { intros [= <-]. rewrite Z.eqb_refl, (proj2 (Z.eqb_neq wf rf)), new_refs by tauto. cbn. lia. }
    destruct (decide (b = rf)) as [->|Hr].
    { intros [= <-]. rewrite Z.eqb_refl, (proj2 (Z.eqb_neq rf wf)), new_refs by (tauto || done). cbn. lia. }
    rewrite (proj2 (Z.eqb_neq b rf)), (proj2 (Z.eqb_neq b wf)) by done.
    destruct (decide (b = p)); [done|]. intros Hf. destruct (C b f Hf) as [C1 C2]. split; [lia|done].
  - intros b. rewrite El, !ref1_file by tauto. destruct (decide (b = wf)); [eauto|]. destruct (decide (b = rf)); [eauto|].
    rewrite (proj2 (Z.eqb_neq b rf)), (proj2 (Z.eqb_neq b wf)) by done. done.
  - intros b f. rewrite El. destruct (decide (b = wf)); [intros [= <-] _|destruct (decide (b = rf)); [intros [= <-] _|]].
    1-2: exists pipe_new; exact new_pipe_at.
    destruct (decide (b = p)); [done|]. intros Hf Hk. destruct (E b f Hf Hk) as [pi Hpi]. exists pi. by apply new_old.
  - intros q qi. rewrite El. destruct (decide (q = wf)); [done|]. destruct (decide (q = rf)); [done|].
    destruct (decide (q = p)) as [->|Hq].
    + intros [= <-]. split; [|by exists PipeReadFops]. intros k Hk. left. destruct k; [done| |]; (split; [done|]).
      * exists rf. split; [apply new_end; auto|]. intros b Hb. apply new_end in Hb; [|done].
        destruct Hb as [(-> & _)|[(_ & ? & _)|Hb]]; [done|done|by apply Hnone in Hb].
      * exists wf. split; [apply new_end; auto|]. intros b Hb. apply new_end in Hb; [|done].
        destruct Hb as [(_ & ? & _)|[(-> & _)|Hb]]; [done|done|by apply Hnone in Hb].
    + intros Hqi. destruct (F q qi Hqi) as [F1 F2]. split; [|done]. intros k Hk. specialize (F1 k Hk).
      assert (forall b, is_end (heap s3) k q b <-> is_end (heap s) k q b) as Ee.
      { intros b. rewrite new_end by done. intuition congruence. }
      unfold ends in *. setoid_rewrite Ee. done.
Qed.
End new_pipe.


(** Entering a file in a free slot and clearing it again. *)
Lemma free_again f r s u j : fd_table s (cur s) r = 0 -> 0 <= r < MAX_FDS -> cur s <> 0 ->
  fd_table (fd_free r (set_fd (cur s) r f s)) u j = fd_table s u j /\ heap (fd_free r (set_fd (cur s) r f s)) = heap s.
Proof using Type.
  clear Hbound. intros H0 Hr Hc. unfold fd_free. change (pc_current (sch (set_fd (cur s) r f s))) with (cur s).
  destruct (Z.ltb_spec r 0), (Z.leb_spec MAX_FDS r), (Z.eqb_spec (cur s) 0); try lia. cbn [orb]. split; [|done].
  rewrite !set_fd_table. destruct (decide (u = cur s /\ j = r)) as [[-> ->]|]; done.
Qed.

(** The three objects freed again. *)
Lemma free_three s s3 p rf wf :
  heap s !! p = None -> heap s !! rf = None -> heap s !! wf = None -> rf <> p -> wf <> p -> wf <> rf ->
  heap s3 = <[wf := File (write_file p)]> (<[rf := File (read_file p)]> (<[p := PipeObj pipe_new]> (heap s))) ->
  exists s', opt_bind (kfree rf s3) (fun s => opt_bind (kfree wf s) (fun s => opt_bind (kfree p s) (fun s => Some (-1, 0, 0, s))))
    = Some (-1, 0, 0, s') /\ heap s' = heap s /\ fd_table s' = fd_table s3.
Proof using Type.
  intros Np Nr Nw D1 D2 D3 Eh.
  destruct (kfree_ok rf (File (read_file p)) s3) as (s4 & -> & E4 & (T4 & _) & _).
  { by rewrite Eh, lookup_insert_ne, lookup_insert_eq. }
  cbn [opt_bind]. destruct (kfree_ok wf (File (write_file p)) s4) as (s5 & -> & E5 & (T5 & _) & _).
  { by rewrite E4, lookup_delete_ne, Eh, lookup_insert_eq. }
  cbn [opt_bind]. destruct (kfree_ok p (PipeObj pipe_new) s5) as (s6 & -> & E6 & (T6 & _) & _).
  { by rewrite E5, lookup_delete_ne, E4, lookup_delete_ne, Eh, !lookup_insert_ne, lookup_insert_eq by done. }
  cbn [opt_bind]. exists s6. split; [done|]. split; [|congruence]. rewrite E6, E5, E4, Eh. apply map_eq. intros b.
  destruct (decide (b = p)) as [->|]; [by rewrite lookup_delete_eq|]. rewrite lookup_delete_ne by done.
  destruct (decide (b = wf)) as [->|]; [by rewrite lookup_delete_eq|]. rewrite lookup_delete_ne by done.
  destruct (decide (b = rf)) as [->|]; [by rewrite lookup_delete_eq|]. by rewrite lookup_delete_ne, !lookup_insert_ne.
Qed.

Lemma sys_pipe_ok p rf wf s : fd_ok (fun _ => 0) s -> In (cur s) ts -> fresh3 (heap s) p rf wf ->
  exists r a b s', sys_pipe p rf wf s = Some (r, a, b, s') /\ fd_ok (fun _ => 0) s'.
Proof using Hnd.
  intros V Hc (Fp & Fr & Fw). unfold sys_pipe.
  destruct (Z.eqb_spec p 0) as [|Hp]; [eauto 6|]. destruct Fp as [|Fp]; [done|].
  assert (forall s', heap s' = heap s -> (forall t i, fd_table s' t i = fd_table s t i) -> fd_ok (fun _ => 0) s') as Hback
    by (intros s' E1 E2; by apply (fd_ok_same _ s)).
  set (s1 := put_obj p (PipeObj pipe_new) s). assert (heap s1 = <[p := PipeObj pipe_new]> (heap s)) as E1 by done.
  destruct (Z.eqb_spec rf 0) as [|Hr].
  { destruct (kfree_ok p (PipeObj pipe_new) s1) as (s' & -> & E' & (T' & _) & _); [by rewrite E1, lookup_insert_eq|].
    cbn [opt_bind]. do 4 eexists. split; [done|]. apply Hback; [rewrite E', E1; by apply delete_insert_id|by rewrite T']. }
  destruct Fr as [|[Fr Dr]]; [done|]. fold (read_file p). set (s2 := put_obj rf (File (read_file p)) s1).
  assert (heap s2 = <[rf := File (read_file p)]> (heap s1)) as E2 by done.
  destruct (Z.eqb_spec wf 0) as [|Hw].
  { destruct (kfree_ok rf (File (read_file p)) s2) as (s4 & -> & E4 & (T4 & _) & _); [by rewrite E2, lookup_insert_eq|]. cbn [opt_bind].
    assert (heap s4 = heap s1) as E4' by (rewrite E4, E2; apply delete_insert_id; by rewrite E1, lookup_insert_ne).
    destruct (kfree_ok p (PipeObj pipe_new) s4) as (s' & -> & E' & (T' & _) & _); [by rewrite E4', E1, lookup_insert_eq|].
    cbn [opt_bind]. do 4 eexists. split; [done|]. apply Hback; [rewrite E', E4', E1; by apply delete_insert_id|by rewrite T', T4]. }
  destruct Fw as [|(Fw & Dw & Dwr)]; [done|]. fold (write_file p). set (s3 := put_obj wf (File (write_file p)) s2).
  assert (heap s3 = <[wf := File (write_file p)]> (<[rf := File (read_file p)]> (<[p := PipeObj pipe_new]> (heap s)))) as E3 by done.
  assert (fd_table s3 = fd_table s /\ cur s3 = cur s) as [T3 C3] by done. clearbody s3.
  pose proof (new_pipe_ok s s3 p rf wf V ltac:(done) ltac:(done) ltac:(done) E3 T3) as V3.
  assert (forall s4, heap s4 = heap s3 -> (forall t i, fd_table s4 t i = fd_table s3 t i) ->
    exists r a b s', opt_bind (kfree rf s4) (fun s => opt_bind (kfree wf s) (fun s => opt_bind (kfree p s) (fun s => Some (-1, 0, 0, s))))
      = Some (r, a, b, s') /\ fd_ok (fun _ => 0) s') as Hfail.
  { intros s4 H4 T4. destruct (free_three s s4 p rf wf) as (s' & E & Hh & Ht); auto; [by rewrite H4|].
    do 4 eexists. split; [exact E|]. apply Hback; [done|]. intros t i. by rewrite Ht, T4, T3. }
  rewrite !alloc_is_from. pose proof (alloc_from_ok rf 0 s3) as A. destruct (fd_alloc_from rf 0 s3) as [r1 s4].
  destruct A as [[-> ->]|(Hr1 & Z1 & -> & Hc0)].
  - rewrite alloc_is_from. pose proof (alloc_from_ok wf 0 s3) as A. destruct (fd_alloc_from wf 0 s3) as [r2 s5].
    destruct A as [[-> ->]|(Hr2 & Z2 & -> & Hc0)]; cbn [Z.ltb Z.leb Z.compare orb]; [by apply Hfail|].
    destruct (Z.leb_spec 0 r2); [|lia]. apply Hfail; [|intros t i]; apply (free_again wf r2 s3 0 0) || apply free_again; auto.
  - set (s4 := set_fd (cur s3) r1 rf s3). assert (cur s4 = cur s3) as C4 by done.
    rewrite alloc_is_from. pose proof (alloc_from_ok wf 0 s4) as A. destruct (fd_alloc_from wf 0 s4) as [r2 s5].
    destruct (Z.ltb_spec r1 0); [lia|]. destruct A as [[-> ->]|(Hr2 & Z2 & -> & _)].
    + change (-1 <? 0) with true. cbn [orb]. destruct (Z.leb_spec 0 r1); [|lia]. change (0 <=? -1) with false. cbv iota.
      apply Hfail; [|intros t i]; apply (free_again rf r1 s3 0 0) || apply free_again; auto.
    + destruct (Z.ltb_spec r2 0); [lia|]. cbn [orb]. do 4 eexists. split; [done|]. rewrite <- C3 in Hc.
      pose proof (set_fd_ok _ s3 (cur s3) r1 rf V3 Hc Hr1) as V4. rewrite Z1 in V4.
      assert (fd_ok _ s4) as V4' by (apply V4; right; exists (read_file p); by rewrite E3, lookup_insert_ne, lookup_insert_eq). clear V4.
      pose proof (set_fd_ok _ s4 (cur s4) r2 wf V4' ltac:(by rewrite C4) Hr2) as V5. rewrite Z2 in V5.
      eapply fd_ok_ext; [|apply V5; right; exists (write_file p); change (heap s4) with (heap s3); by rewrite E3, lookup_insert_eq].
      intros b. cbv beta. rewrite !ref1_null. lia.
Qed.


(** A pipe whose open counts stay as they are. *)
Lemma put_pipe_ok d s p pi pi' sc : fd_ok d s -> heap s !! p = Some (PipeObj pi) -> (forall k, opens k pi' = opens k pi) ->
  fd_ok d (put_obj p (PipeObj pi') (s <| sch := sc |>)).
Proof using Type.
  intros [A B C D E F] Hp Ho. set (s' := put_obj p (PipeObj pi') (s <| sch := sc |>)).
  assert (forall b, heap s' !! b = if decide (b = p) then Some (PipeObj pi') else heap s !! b) as El.
  { intros b. change (heap s') with (<[p := PipeObj pi']> (heap s)).
    destruct (decide (b = p)) as [->|]; [by rewrite lookup_insert_eq|by rewrite lookup_insert_ne]. }
  assert (forall k q b, is_end (heap s') k q b <-> is_end (heap s) k q b) as Ee.
  { intros k q b. unfold is_end. rewrite El. destruct (decide (b = p)) as [->|]; [|done]. rewrite Hp.
    split; intros (f & [= ] & _). }
  change (fd_table s') with (fd_table s) in *. split; try (change (fd_table s') with (fd_table s)).
  - rewrite El, decide_False; congruence.
  - intros t i Ht Hi Hn. destruct (B t i Ht Hi Hn) as [f Hf]. exists f. rewrite El, decide_False; congruence.
  - intros a f. rewrite El. destruct (decide (a = p)); [done|apply C].
  - intros a Ha. destruct (D a Ha) as [f Hf]. exists f. rewrite El, decide_False; congruence.
  - intros a f. rewrite El. destruct (decide (a = p)); [done|]. intros Hf Hk. destruct (E a f Hf Hk) as [qi Hqi].
    destruct (decide (private_data f = p)) as [Eq|]; [exists pi'|exists qi]; rewrite El; [by rewrite decide_True|by rewrite decide_False].
  - intros q qi. rewrite El. destruct (decide (q = p)) as [->|Hq].
    + intros [= <-]. destruct (F p pi Hp) as [F1 (k & Hk & Hk1)]. split; [|exists k; by rewrite Ho].
      intros k' Hk'. rewrite Ho. specialize (F1 k' Hk'). unfold ends in *. setoid_rewrite Ee. done.
    + intros Hqi. destruct (F q qi Hqi) as [F1 F2]. split; [|done]. intros k Hk. specialize (F1 k Hk).
      unfold ends in *. setoid_rewrite Ee. done.
Qed.

(** Some slot holds a file that is counted. *)
Lemma refs_slot T a : 0 < refs ts T a -> exists t i, In t ts /\ 0 <= i < MAX_FDS /\ T t i = a.
Proof using Type.
  clear. unfold refs. induction ts as [|t l IH]; cbn [foldr]; [lia|]. intros H.
  destruct (find_index (Z.to_nat MAX_FDS) 0 (fun i => T t i =? a)) as [i|] eqn:Ef.
  - apply find_index_Some in Ef as (Hi & Ei & _). apply Z.eqb_eq in Ei. exists t, i. split_and!; cbn; auto; apply Hi.
  - rewrite find_index_None in Ef. rewrite cnt_zero in H; [|intros i Hi; apply Z.eqb_neq, Ef; done].
    destruct IH as (u & i & ? & ?); [lia|]. exists u, i. split; [by right|done].
Qed.


End inv.


End FdProps.
