(* ===== verification/FdClaims.v ===== *)
(** * No descriptor dangles

    Over any sequence of calls by any tasks: no call touches an object that was
    freed, no object is freed twice, counts are exact, and nothing leaks. *)

From stdpp Require Import gmap.
From S2P Require Import Prelude Mem Sched SchedClaims Wait Pipe Fd FdProps.
Import Mem Sched Wait Pipe Fd FdProps.

Module FdClaims.

(** ** Calls *)

Inductive call :=
| CClose (fd : Z)
| CDup (fd a : Z)
| CDup2 (oldfd newfd a : Z)
| COpen (flags midx : Z) (abs : list Z) (a : Z)
| CPipe (p rf wf : Z)
| CRead (fd dst n : Z) (m : mem)
| CWrite (fd src n : Z) (m : mem)
| CSetFlags (fd flags : Z)
| CFork (child : Z)
| CExec
| CExit (t : Z)
| CSwitch (sc : sched).

(** A call of the current task; a fork copies its table to the child, exec
    closes the marked descriptors, exit closes all of a task's. *)
Definition exec (fuel : nat) (c : call) (s : kern) : option kern :=
  match c with
  | CClose fd => option_map snd (sys_close fuel fd s)
  | CDup fd a => option_map snd (sys_dup fd a s)
  | CDup2 o n a => option_map snd (sys_dup2 fuel o n a s)
  | COpen flags midx abs a => option_map snd (open_file flags midx abs a s)
  | CPipe p rf wf => option_map snd (sys_pipe p rf wf s)
  | CRead fd dst n m => option_map snd (read_pipe_fd fuel fd dst n m s)
  | CWrite fd src n m => option_map snd (write_pipe_fd fuel fd src n m s)
  | CSetFlags fd flags => Some (snd (fd_set_flags fd flags s))
  | CFork child => fork_fds (cur s) child s
  | CExec => vfs_task_close_cloexec_fds fuel (cur s) s
  | CExit t => vfs_task_close_fds fuel t s
  | CSwitch sc => Some (s <| sch := sc |>)
  end.

(** kmalloc returns NULL or an address not in use; reads go to read ends and
    writes to write ends of pipes; a forked child is a new task. *)
Definition allowed (ts : list Z) (c : call) (s : kern) : Prop :=
  In (cur s) ts /\
  match c with
  | CDup _ a | CDup2 _ _ a | COpen _ _ _ a => a = 0 \/ heap s !! a = None
  | CPipe p rf wf => fresh3 (heap s) p rf wf
  | CRead fd _ _ _ => forall f, heap s !! fd_get fd s = Some (File f) -> fops f = PipeReadFops
  | CWrite fd _ _ _ => forall f, heap s !! fd_get fd s = Some (File f) -> fops f = PipeWriteFops
  | CFork child => In child ts /\ child <> 0 /\ forall i, 0 <= i < MAX_FDS -> fd_table s child i = 0
  | CExit t => In t ts /\ t <> 0
  | CSwitch sc => In (pc_current sc) ts
  | _ => True
  end.

(** The state at boot, and everything the calls lead to. *)
Definition boot (sc : sched) : kern := {| heap := ∅; fd_table := fun _ _ => 0; fd_flags := fun _ _ => 0; sch := sc |}.

Inductive reach (fuel : nat) (ts : list Z) : kern -> Prop :=
| reach_boot sc : In (pc_current sc) ts -> reach fuel ts (boot sc)
| reach_call c s s' : reach fuel ts s -> allowed ts c s -> exec fuel c s = Some s' -> reach fuel ts s'.

Lemma read_opens fuel dst n p sc m : let '(_, p', _, _) := pipe_read fuel dst n p sc m in forall k, opens k p' = opens k p.
Proof.
  unfold pipe_read. destruct (pcount p =? 0).
  { destruct (writers_open p =? 0); [done|]. destruct (wq_sleep fuel (p_readers p) sc) as [wq sc']. by intros []. }
  set (k := if n <? pcount p then n else pcount p).
  assert (forall q : pipe_t * mem, q = for_loop (Z.to_nat k) 0 (take_byte dst) (p, m) -> forall j, opens j (fst q) = opens j p) as H.
  { intros q ->. apply (for_loop_ind (fun q : pipe_t * mem => forall j, opens j (fst q) = opens j p)); [|done].
    intros i [p1 m1] _ Hp j. rewrite <- Hp. by destruct j. }
  destruct (for_loop (Z.to_nat k) 0 (take_byte dst) (p, m)) as [p1 m1]. specialize (H _ eq_refl).
  destruct (wq_wake_one _ sc) as [wq sc']. intros j. rewrite <- (H j). by destruct j.
Qed.

Lemma write_opens fuel src n m p sc : let '(_, p', _) := pipe_write fuel src n m p sc in forall k, opens k p' = opens k p.
Proof.
  unfold pipe_write. destruct (PIPE_BUF_SIZE <=? pcount p).
  { destruct (readers_open p =? 0); [done|]. destruct (wq_sleep fuel (p_writers p) sc) as [wq sc']. by intros []. }
  set (k := if n <? _ then n else _).
  assert (forall j, opens j (for_loop (Z.to_nat k) 0 (put_byte src m) p) = opens j p) as H.
  { apply (for_loop_ind (fun q => forall j, opens j q = opens j p)); [|done]. intros i p1 _ Hp j. rewrite <- Hp. by destruct j. }
  destruct (wq_wake_one _ sc) as [wq sc']. intros j. rewrite <- (H j). by destruct j.
Qed.

Section safe.
Variables (fuel : nat) (ts : list Z).
Hypothesis Hnd : NoDup ts.
Hypothesis Hbound : MAX_FDS * (Z.of_nat (length ts) + 1) < 2 ^ 32.

Notation ok := (fd_ok ts (fun _ => 0)).

(** The pipe behind a descriptor of one of its ends. *)
Lemma pipe_behind s fd : ok s -> In (cur s) ts -> fd_get fd s <> 0 ->
  (forall f, heap s !! fd_get fd s = Some (File f) -> fops f <> NoFops) ->
  exists f pi, get_file (fd_get fd s) s = Some f /\ private_data f <> 0 /\ get_pipe (private_data f) s = Some pi /\
    heap s !! private_data f = Some (PipeObj pi).
Proof using Type.
  intros V Hc Hn Hk. destruct (fd_get_live ts _ s fd V Hc Hn) as (_ & _ & _ & f & Hf).
  destruct (ok_ends _ _ _ V _ f Hf (Hk f Hf)) as [pi Hpi]. exists f, pi. unfold get_file, get_pipe. rewrite Hf, Hpi. split_and!; auto.
  intros E. rewrite E, (ok_null _ _ _ V) in Hpi. done.
Qed.

Lemma exec_ok c s : ok s -> allowed ts c s -> exists s', exec fuel c s = Some s' /\ ok s'.
Proof using Hnd Hbound.
  intros V [Hc Ha]. destruct c; cbn [exec].
  - destruct (sys_close_ok ts Hnd fuel _ s fd V ltac:(done) Hc) as (r & s' & -> & V' & _). cbn. eauto.
  - destruct (sys_dup_ok ts Hnd Hbound fd a s V Hc Ha) as (r & s' & -> & V'). cbn. eauto.
  - destruct (sys_dup2_ok ts Hnd Hbound fuel oldfd newfd a s V Hc Ha) as (r & s' & -> & V'). cbn. eauto.
  - destruct (open_file_ok ts Hnd Hbound flags midx abs a s V Hc Ha) as (r & s' & -> & V'). cbn. eauto.
  - destruct (sys_pipe_ok ts Hnd p rf wf s V Hc Ha) as (r & x & y & s' & -> & V'). cbn. eauto.
  - unfold read_pipe_fd. destruct (Z.eqb_spec (fd_get fd s) 0) as [|Hn]; [cbn; eauto|].
    destruct (pipe_behind s fd V Hc Hn) as (f & pi & -> & Hp & E & Hpi); [intros f Hf; by rewrite (Ha f Hf)|]. cbn [opt_bind]. rewrite (proj2 (Z.eqb_neq _ _) Hp), E.
    cbn [opt_bind]. pose proof (read_opens fuel dst n pi (sch s) m) as Ho.
    destruct (pipe_read fuel dst n pi (sch s) m) as [[[r p'] sc'] m']. cbn. eexists. split; [done|]. by apply (put_pipe_ok ts _ s _ pi).
  - unfold write_pipe_fd. destruct (Z.eqb_spec (fd_get fd s) 0) as [|Hn]; [cbn; eauto|].
    destruct (pipe_behind s fd V Hc Hn) as (f & pi & -> & Hp & E & Hpi); [intros f Hf; by rewrite (Ha f Hf)|]. cbn [opt_bind]. rewrite (proj2 (Z.eqb_neq _ _) Hp), E.
    cbn [opt_bind]. pose proof (write_opens fuel src n m pi (sch s)) as Ho.
    destruct (pipe_write fuel src n m pi (sch s)) as [[r p'] sc']. cbn. eexists. split; [done|]. by apply (put_pipe_ok ts _ s _ pi).
  - eexists. split; [done|]. unfold fd_set_flags. destruct (_ || _); [done|]. destruct (_ || _); [done|].
    by apply (fd_ok_same ts _ s).
  - destruct Ha as (H1 & H2 & H3). destruct (fork_fds_ok ts Hnd Hbound (cur s) child s V Hc H1 H2 H3) as (s' & -> & V' & _). eauto.
  - destruct (cloexec_ok ts Hnd fuel (cur s) s V Hc) as (s' & -> & V'). eauto.
  - destruct Ha as [H1 H2]. destruct (close_fds_ok ts Hnd fuel t s V H1 H2) as (s' & -> & V' & _). eauto.
  - eexists. split; [done|]. by apply (fd_ok_same ts _ s).
Qed.

Lemma boot_ok sc : ok (boot sc).
Proof using Type.
  split; cbn; try done.
Qed.

Lemma reach_ok s : reach fuel ts s -> ok s.
Proof using Hnd Hbound.
  induction 1 as [sc Hc|c s s' Hr IH Ha E]; [apply boot_ok|].
  destruct (exec_ok c s IH Ha) as (s1 & E1 & V1). congruence.
Qed.

End safe.

(** C17: Descriptors, files and pipes over any calls of any tasks from boot on.
    No call reaches a freed object or frees one twice; every descriptor refers to
    a live file whose count is the number of descriptors for it in all tables;
    every file has a descriptor and every pipe a file that is one of its ends,
    so nothing leaks. *)
Theorem descriptors_sound fuel ts s :
  NoDup ts -> MAX_FDS * (Z.of_nat (length ts) + 1) < 2 ^ 32 -> reach fuel ts s ->
  (forall c, allowed ts c s -> exec fuel c s <> None) /\
  (forall t i, In t ts -> 0 <= i < MAX_FDS -> fd_table s t i <> 0 ->
     exists f, heap s !! fd_table s t i = Some (File f) /\ ref_count f = refs ts (fd_table s) (fd_table s t i)) /\
  (forall a f, heap s !! a = Some (File f) -> exists t i, In t ts /\ 0 <= i < MAX_FDS /\ fd_table s t i = a) /\
  (forall p pi, heap s !! p = Some (PipeObj pi) ->
     exists a f, heap s !! a = Some (File f) /\ fops f <> NoFops /\ private_data f = p).
Proof.
  intros Hnd Hb Hr. pose proof (reach_ok fuel ts Hnd Hb s Hr) as V. split_and!.
  - intros c Ha. destruct (exec_ok fuel ts Hnd Hb c s V Ha) as (s' & -> & _). done.
  - intros t i Ht Hi Hn. destruct (ok_slot _ _ _ V t i Ht Hi Hn) as [f Hf]. exists f. split; [done|].
    destruct (ok_refs _ _ _ V _ f Hf) as [E _]. lia.
  - intros a f Hf. destruct (ok_refs _ _ _ V a f Hf) as [E Hp]. apply refs_slot. lia.
  - intros p pi Hp. destruct (ok_pipe _ _ _ V p pi Hp) as [Fe (k & Hk & H1)].
    destruct (Fe k Hk) as [(_ & a & (f & Hf & Ef & Ep) & _)|[H0 _]]; [|lia]. exists a, f. subst. done.
Qed.

(** Task 10 makes a pipe; its read end can be closed. *)
Lemma descriptors_sound_witness :
  exists s, exec 4 (CPipe 1000 2000 3000) (boot SchedClaims.demo_sched) = Some s /\ exec 4 (CClose 0) s <> None /\
  exists t i, In t [10; 20] /\ 0 <= i < MAX_FDS /\ fd_table s t i = 2000.
Proof.
  assert (reach 4 [10; 20] (boot SchedClaims.demo_sched)) as R0 by (constructor; vm_compute; auto).
  assert (allowed [10; 20] (CPipe 1000 2000 3000) (boot SchedClaims.demo_sched)) as A0.
  { split; [vm_compute; auto|]. split; [right; reflexivity|]. split; right; split; try reflexivity; try discriminate.
    split; discriminate. }
  assert (option_map cur (exec 4 (CPipe 1000 2000 3000) (boot SchedClaims.demo_sched)) = Some 10) as C by (vm_compute; reflexivity).
  assert (option_map (fun s => heap s !! 2000) (exec 4 (CPipe 1000 2000 3000) (boot SchedClaims.demo_sched))
    = Some (Some (File (read_file 1000)))) as F by (vm_compute; reflexivity).
  destruct (exec 4 (CPipe 1000 2000 3000) (boot SchedClaims.demo_sched)) as [s|] eqn:E; [|discriminate C].
  cbn [option_map] in C, F. injection C as C. injection F as F. exists s. split; [reflexivity|].
  destruct (descriptors_sound 4 [10; 20] s) as (H1 & _ & H3 & _).
  - apply (bool_decide_unpack _). vm_compute. exact I.
  - vm_compute. reflexivity.
  - exact (reach_call 4 [10; 20] _ _ s R0 A0 E).
  - split; [apply H1; split; [rewrite C; cbn; auto|exact I]|exact (H3 2000 _ F)].
Defined.

End FdClaims.
