(* ===== verification/Block.v ===== *)
(** * Block devices (src/src/drivers/block/block.c, block.h)

    The device table, and the functions a driver registers as functions of the
    state [W] of the hardware.  A pointer to entry [i] of the table is [i + 1],
    NULL is 0; a C string is the list of its bytes. *)

From S2P Require Import Prelude.

(** What the drivers promise.  [contents w d b] is byte [b] of device [d], and
    [failed w] says that some write has been lost. *)
Class Disks (W : Type) := {
  contents : W -> Z -> Z -> Z;
  failed : W -> Prop
}.

Module Block.

Definition BLOCK_DEVICE_NAME_MAX : Z := 32.
Definition BLOCK_MAX_DEVICES : Z := 16.

Inductive block_device_kind_t := BLOCK_DEVICE_UNKNOWN | BLOCK_DEVICE_AHCI | BLOCK_DEVICE_NVME | BLOCK_DEVICE_VIRTIO | BLOCK_DEVICE_RAM.

(** A buffer handed to a driver, from its first byte. *)
Definition buffer := Z -> Z.

(** Bytes [so..so+n) of [src] copied to [d..d+n) of [dst], another object. *)
Definition blit (dst : buffer) (d : Z) (src : buffer) (so n : Z) : buffer :=
  fun a => if (d <=? a) && (a <? d + n) then src (a - d + so) else dst a.

Section block.
Context {W : Type}.

(** [read lba count buf] and [write lba count buf] of the device. *)
Definition block_read_fn : Type := Z -> Z -> buffer -> W -> Z * buffer * W.
Definition block_write_fn : Type := Z -> Z -> buffer -> W -> Z * W.
Definition block_flush_fn : Type := W -> Z * W.

Record block_device_t := {
  name : list Z;
  kind : block_device_kind_t;
  sector_count : Z;
  sector_size : Z;
  read_only : bool;
  driver_data : Z;
  read : option block_read_fn;
  write : option block_write_fn;
  flush : option block_flush_fn
}.
#[export] Instance eta_block_device : Eta block_device_t :=
  fun r => Build_block_device_t (name r) (kind r) (sector_count r) (sector_size r) (read_only r) (driver_data r) (read r) (write r) (flush r).

Definition no_device : block_device_t :=
  {| name := []; kind := BLOCK_DEVICE_UNKNOWN; sector_count := 0; sector_size := 0; read_only := false; driver_data := 0;
     read := None; write := None; flush := None |}.

Record block_t := { g_block_devices : Z -> block_device_t; g_block_device_count : Z }.
#[export] Instance eta_block : Eta block_t := fun r => Build_block_t (g_block_devices r) (g_block_device_count r).

Definition block_init (s : block_t) : block_t :=
  s <| g_block_devices := for_loop (Z.to_nat BLOCK_MAX_DEVICES) 0 (fun i a => a.[i <- no_device]) (g_block_devices s) |>
    <| g_block_device_count := 0 |>.

Definition block_register (dev : block_device_t) (s : block_t) : Z * block_t :=
  if BLOCK_MAX_DEVICES <=? g_block_device_count s then (-1, s)
  else if match name dev with [] => true | _ => false end || (sector_size dev =? 0) || (sector_count dev =? 0) ||
          match read dev with None => true | Some _ => false end then (-1, s)
  else
    let dev := dev <| name := take (Z.to_nat (BLOCK_DEVICE_NAME_MAX - 1)) (name dev) |> in
    let i := g_block_device_count s in
    (i, s <| g_block_devices := (g_block_devices s).[i <- dev] |> <| g_block_device_count := u32 (i + 1) |>).

Definition block_device_count (s : block_t) : Z := g_block_device_count s.

Definition block_device_at (index : Z) (s : block_t) : Z :=
  if g_block_device_count s <=? index then 0 else index + 1.

Definition block_find (nm : option (list Z)) (s : block_t) : Z :=
  match nm with
  | None => 0
  | Some nm =>
      match find_index (Z.to_nat (g_block_device_count s)) 0 (fun i => bool_decide (name (g_block_devices s i) = nm)) with
      | Some i => i + 1
      | None => 0
      end
  end.

(** ** The table *)

Definition usable (dev : block_device_t) : Prop :=
  name dev <> [] /\ sector_size dev <> 0 /\ sector_count dev <> 0 /\ read dev <> None /\
  (length (name dev) < Z.to_nat BLOCK_DEVICE_NAME_MAX)%nat.

Definition table_ok (s : block_t) : Prop :=
  0 <= g_block_device_count s <= BLOCK_MAX_DEVICES /\
  forall i, 0 <= i < g_block_device_count s -> usable (g_block_devices s i).

Lemma block_init_ok s : table_ok (block_init s).
Proof. split; [by vm_compute|]. intros i Hi. cbn in Hi. lia. Qed.

Lemma block_register_ok dev s : table_ok s -> table_ok (snd (block_register dev s)).
Proof.
  intros [Hc Hu]. unfold block_register. destruct (Z.leb_spec BLOCK_MAX_DEVICES (g_block_device_count s)); [done|].
  destruct (_ || _) eqn:E; [done|]. apply orb_false_iff in E as [E E4]. apply orb_false_iff in E as [E E3].
  apply orb_false_iff in E as [E1 E2]. unfold BLOCK_MAX_DEVICES in *. set (i := g_block_device_count s) in *.
  set (d := dev <| name := _ |>). set (s' := s <| g_block_devices := _ |> <| g_block_device_count := _ |>).
  assert (g_block_device_count s' = i + 1) as Ec by (change (u32 (i + 1) = i + 1); apply wrap_small; lia).
  cbn [snd]. split; [rewrite Ec; unfold BLOCK_MAX_DEVICES; lia|]. intros j Hj. rewrite Ec in Hj.
  change (usable ((g_block_devices s).[i <- d] j)). destruct (upd_cases (g_block_devices s) i d j) as [[-> ->]|[Hn ->]]; [|apply Hu; lia].
  assert (read d = read dev /\ sector_size d = sector_size dev /\ sector_count d = sector_count dev) as (Er & Es & En) by done.
  unfold usable. rewrite Er, Es, En. change (name d) with (take 31 (name dev)).
  split_and!; [|by apply Z.eqb_neq|by apply Z.eqb_neq|by destruct (read dev)|].
  - by destruct (name dev).
  - change (Z.to_nat BLOCK_DEVICE_NAME_MAX) with 32%nat. rewrite length_take. lia.
Qed.

(** A name is found at its first entry. *)
Lemma block_find_spec nm s : table_ok s ->
  (exists i, block_find (Some nm) s = i + 1 /\ 0 <= i < g_block_device_count s /\ name (g_block_devices s i) = nm /\
     forall j, 0 <= j < i -> name (g_block_devices s j) <> nm) \/
  (block_find (Some nm) s = 0 /\ forall j, 0 <= j < g_block_device_count s -> name (g_block_devices s j) <> nm).
Proof.
  intros [Hc _]. unfold block_find. destruct (find_index _ _ _) as [i|] eqn:E.
  - left. apply find_index_Some in E as (Hi & Hp & Hlt). exists i. apply bool_decide_eq_true in Hp. split_and!; auto; [lia|lia|].
    intros j Hj. specialize (Hlt j ltac:(lia)). by apply bool_decide_eq_false in Hlt.
  - right. split; [done|]. intros j Hj. pose proof (proj1 (find_index_None _ _ _) E j ltac:(lia)) as Hp. by apply bool_decide_eq_false in Hp.
Qed.

End block.
Arguments block_device_t : clear implicits.
Arguments block_t : clear implicits.

End Block.
