(* ===== verification/Bcache.v ===== *)
(** * Block cache (src/src/fs/bcache.c)

    256 pages of 4 KB, found by device and first sector, replaced least
    recently used, written back on eviction and on flush.  [devs] is the device
    table of [Block]; the hardware is the state [world]. *)

From S2P Require Import Prelude Block.
Import Block.

Module Bcache.

Definition BCACHE_PAGE_SIZE : Z := 4096.
Definition BCACHE_MAX_PAGES : Z := 256.

Record bcache_entry_t := { dev : Z; page_lba : Z; sectors : Z; last_use : Z; dirty : bool; data : buffer }.
#[export] Instance eta_entry : Eta bcache_entry_t :=
  fun r => Build_bcache_entry_t (dev r) (page_lba r) (sectors r) (last_use r) (dirty r) (data r).

Record bcache {W : Type} := {
  g_bcache : Z -> bcache_entry_t;
  ready : bool;
  g_bcache_ticks : Z;
  devs : Z -> block_device_t W;
  world : W
}.
Arguments bcache : clear implicits.
#[export] Instance eta_bcache {W} : Eta (bcache W) :=
  fun r => Build_bcache W (g_bcache r) (ready r) (g_bcache_ticks r) (devs r) (world r).

Section ops.
Context {W : Type}.
Implicit Types s : bcache W.

Definition zero_entry : bcache_entry_t :=
  {| dev := 0; page_lba := 0; sectors := 0; last_use := 0; dirty := false; data := fun _ => 0 |}.

(** [ready] is [g_bcache != NULL]. *)
Definition bcache_init s : bcache W := s <| g_bcache := fun _ => zero_entry |> <| ready := true |>.

Definition upd_entry (i : Z) (f : bcache_entry_t -> bcache_entry_t) s : bcache W :=
  s <| g_bcache := (g_bcache s).[i <- f (g_bcache s i)] |>.

(** [++g_bcache_ticks]. *)
Definition tick s : Z * bcache W :=
  let t := u64 (g_bcache_ticks s + 1) in (t, s <| g_bcache_ticks := t |>).

Definition bcache_find (d lba : Z) s : option Z * bcache W :=
  match find_index (Z.to_nat BCACHE_MAX_PAGES) 0 (fun i => (dev (g_bcache s i) =? d) && (page_lba (g_bcache s i) =? lba)) with
  | Some i => let '(t, s) := tick s in (Some i, upd_entry i (fun e => e <| last_use := t |>) s)
  | None => (None, s)
  end.

(** Writing a dirty page back; the result of the driver is dropped. *)
Definition write_back (i : Z) s : bcache W :=
  let e := g_bcache s i in
  let s := match write (devs s (dev e)) with
           | Some w => s <| world := snd (w (page_lba e) (sectors e) (data e) (world s)) |>
           | None => s
           end in
  upd_entry i (fun e => e <| dirty := false |>) s.

Definition bcache_evict (i : Z) s : bcache W :=
  let s := if negb (dev (g_bcache s i) =? 0) && dirty (g_bcache s i) then write_back i s else s in
  upd_entry i (fun e => e <| dev := 0 |>) s.

(** The page least recently used, when all are taken. *)
Definition oldest s : Z * Z :=
  for_loop (Z.to_nat BCACHE_MAX_PAGES) 0
    (fun i best => if last_use (g_bcache s i) <? snd best then (i, last_use (g_bcache s i)) else best) (0, 2 ^ 64 - 1).

Definition claim (i d lba n : Z) s : bcache W :=
  let '(t, s) := tick s in
  upd_entry i (fun e => e <| dev := d |> <| page_lba := lba |> <| sectors := n |> <| last_use := t |> <| dirty := false |>) s.

Definition bcache_alloc (d lba n : Z) s : Z * bcache W :=
  match find_index (Z.to_nat BCACHE_MAX_PAGES) 0 (fun i => dev (g_bcache s i) =? 0) with
  | Some i => (i, claim i d lba n s)
  | None => let i := fst (oldest s) in (i, claim i d lba n (bcache_evict i s))
  end.

Definition sectors_per_page (d : Z) s : Z :=
  let n := BCACHE_PAGE_SIZE / sector_size (devs s d) in if n =? 0 then 1 else n.

(** Filling page [i] from the device; [block_register] refuses devices that
    cannot be read. *)
Definition fill (i d lba n : Z) s : bool * bcache W :=
  match read (devs s d) with
  | None => (false, s)
  | Some r =>
      let '(rc, b, w) := r lba n (data (g_bcache s i)) (world s) in
      let s := upd_entry i (fun e => e <| data := b |>) (s <| world := w |>) in
      if rc <? 0 then (false, upd_entry i (fun e => e <| dev := 0 |>) s) else (true, s)
  end.

(** The page of sector [lba], read in unless it is cached or [whole] will be
    overwritten; None when the device could not be read. *)
Definition get_page (d lba n : Z) (whole : bool) s : option Z * bcache W :=
  match bcache_find d lba s with
  | (Some i, s) => (Some i, s)
  | (None, s) =>
      let '(i, s) := bcache_alloc d lba n s in
      if whole then (Some i, s)
      else match fill i d lba n s with (true, s) => (Some i, s) | (false, s) => (None, s) end
  end.

(** Page, sector in the page and number of sectors of the next chunk. *)
Definition chunk (d cur remaining : Z) s : Z * Z * Z :=
  let n := sectors_per_page d s in
  let page := u64 (cur / n * n) in
  let off := u32 (cur - page) in
  let k := u32 (n - off) in
  (page, off, if remaining <? k then remaining else k).

Fixpoint read_loop (fuel : nat) (d cur remaining p : Z) (buf : buffer) s : Z * buffer * bcache W :=
  match fuel with
  | O => (-1, buf, s)
  | S fuel' =>
      if remaining <=? 0 then (0, buf, s)
      else
        let '(page, off, k) := chunk d cur remaining s in
        match get_page d page (sectors_per_page d s) false s with
        | (None, s) => (-1, buf, s)
        | (Some i, s) =>
            let ss := sector_size (devs s d) in
            let buf := blit buf p (data (g_bcache s i)) (u32 (off * ss)) (u32 (k * ss)) in
            read_loop fuel' d (u64 (cur + k)) (u32 (remaining - k)) (p + u32 (k * ss)) buf s
        end
  end.

Definition bcache_read (d lba count : Z) (buf : option buffer) s : Z * option buffer * bcache W :=
  match buf with
  | Some b =>
      if (d =? 0) || match read (devs s d) with None => true | Some _ => false end then (-1, buf, s)
      else
        let '(rc, b, s) := read_loop (S (Z.to_nat count)) d lba count 0 b s in
        (if rc <? 0 then rc else i32 count, Some b, s)
  | None => (-1, None, s)
  end.

Fixpoint write_loop (fuel : nat) (d cur remaining p : Z) (buf : buffer) s : Z * bcache W :=
  match fuel with
  | O => (-1, s)
  | S fuel' =>
      if remaining <=? 0 then (0, s)
      else
        let '(page, off, k) := chunk d cur remaining s in
        match get_page d page (sectors_per_page d s) (sectors_per_page d s <=? k) s with
        | (None, s) => (-1, s)
        | (Some i, s) =>
            let ss := sector_size (devs s d) in
            let s := upd_entry i (fun e => e <| data := blit (data e) (u32 (off * ss)) buf p (u32 (k * ss)) |> <| dirty := true |>) s in
            write_loop fuel' d (u64 (cur + k)) (u32 (remaining - k)) (p + u32 (k * ss)) buf s
        end
  end.

Definition bcache_write (d lba count : Z) (buf : option buffer) s : Z * bcache W :=
  match buf with
  | Some b =>
      if (d =? 0) || match write (devs s d) with None => true | Some _ => false end then (-1, s)
      else
        let '(rc, s) := write_loop (S (Z.to_nat count)) d lba count 0 b s in
        (if rc <? 0 then rc else i32 count, s)
  | None => (-1, s)
  end.

Definition flush_entry (d i : Z) s : bcache W :=
  let e := g_bcache s i in
  if negb (dev e =? 0) && ((d =? 0) || (dev e =? d)) && dirty e then write_back i s else s.

Definition bcache_flush (d : Z) s : bcache W :=
  if negb (ready s) then s
  else
    let s := for_loop (Z.to_nat BCACHE_MAX_PAGES) 0 (flush_entry d) s in
    if d =? 0 then s
    else match flush (devs s d) with Some f => s <| world := snd (f (world s)) |> | None => s end.

End ops.
End Bcache.
