(* ===== verification/BcacheProps.v ===== *)
(** * The block cache as a view of the disks

    [view] is what a reader sees through the cache: the cached byte where the
    page is cached, the byte on the device elsewhere.  The lemmas say what each
    operation does to the view, as long as no device has lost a write. *)

From S2P Require Import Prelude Block Bcache.
Import Block Bcache.

Module BcacheProps.

(** A driver reads and writes what it is asked to, or reports it. *)
Record dev_ok {W} `{Disks W} (id : Z) (d : block_device_t W) : Prop := {
  do_size : 0 < sector_size d <= 4096;
  do_readable : read d <> None;
  do_read r lba n b w rc b' w' : read d = Some r -> r lba n b w = (rc, b', w') ->
    (failed w -> failed w') /\
    (~ failed w' -> (forall i x, contents w' i x = contents w i x) /\
       (0 <= rc -> forall i, 0 <= i < n * sector_size d -> b' i = contents w id (lba * sector_size d + i)));
  do_write f lba n b w rc w' : write d = Some f -> f lba n b w = (rc, w') ->
    (failed w -> failed w') /\
    (~ failed w' -> forall i x, contents w' i x =
       if (i =? id) && (lba * sector_size d <=? x) && (x <? (lba + n) * sector_size d)
       then b (x - lba * sector_size d) else contents w i x);
  do_flush f w rc w' : flush d = Some f -> f w = (rc, w') ->
    (failed w -> failed w') /\ (~ failed w' -> forall i x, contents w' i x = contents w i x)
}.

Section cache.
Context {W : Type} `{HD : Disks W}.
Implicit Types s : bcache W.

Definition ss s id : Z := sector_size (devs s id).
Definition spp s id : Z := sectors_per_page id s.

(** Byte [x] of device [id] lies in the page from sector [lba]. *)
Definition in_page s id lba x : Prop := lba * ss s id <= x < (lba + spp s id) * ss s id.

Definition hits s id x (i : Z) : bool :=
  (dev (g_bcache s i) =? id) && (page_lba (g_bcache s i) * ss s id <=? x) && (x <? (page_lba (g_bcache s i) + spp s id) * ss s id).

Definition view s (id x : Z) : Z :=
  match find_index (Z.to_nat BCACHE_MAX_PAGES) 0 (hits s id x) with
  | Some i => data (g_bcache s i) (x - page_lba (g_bcache s i) * ss s id)
  | None => contents (world s) id x
  end.

(** A page of a device at [lba]. *)
Definition page_at s id lba : Prop := id <> 0 /\ dev_ok id (devs s id) /\ 0 <= lba /\ lba mod spp s id = 0.

Record bc_ok s : Prop := {
  bo_ready : ready s = true;
  bo_page i : 0 <= i < BCACHE_MAX_PAGES -> dev (g_bcache s i) <> 0 ->
    page_at s (dev (g_bcache s i)) (page_lba (g_bcache s i)) /\ sectors (g_bcache s i) = spp s (dev (g_bcache s i)) /\
    (dirty (g_bcache s i) = true -> write (devs s (dev (g_bcache s i))) <> None);
  bo_uniq i j : 0 <= i < BCACHE_MAX_PAGES -> 0 <= j < BCACHE_MAX_PAGES -> dev (g_bcache s i) <> 0 ->
    dev (g_bcache s i) = dev (g_bcache s j) -> page_lba (g_bcache s i) = page_lba (g_bcache s j) -> i = j;
  bo_clean i x : ~ failed (world s) -> 0 <= i < BCACHE_MAX_PAGES -> dev (g_bcache s i) <> 0 -> dirty (g_bcache s i) = false ->
    in_page s (dev (g_bcache s i)) (page_lba (g_bcache s i)) x ->
    data (g_bcache s i) (x - page_lba (g_bcache s i) * ss s (dev (g_bcache s i))) = contents (world s) (dev (g_bcache s i)) x
}.

Lemma spp_range s id : dev_ok id (devs s id) -> 1 <= spp s id /\ spp s id * ss s id <= 4096.
Proof using Type.
  intros Hd. pose proof (do_size _ _ Hd) as Hs. unfold spp, ss, sectors_per_page, BCACHE_PAGE_SIZE.
  assert (1 <= 4096 / sector_size (devs s id)) as H1 by (apply Z.div_le_lower_bound; lia).
  destruct (Z.eqb_spec (4096 / sector_size (devs s id)) 0); [lia|]. split; [lia|]. rewrite Z.mul_comm. apply Z.mul_div_le. lia.
Qed.

(** Two pages of a device that share a byte are the same page. *)
Lemma page_unique s id lba lba' x : page_at s id lba -> page_at s id lba' -> in_page s id lba x -> in_page s id lba' x -> lba = lba'.
Proof using Type.
  intros (_ & Hd & H0 & Hm) (_ & _ & H0' & Hm') Hx Hx'. pose proof (do_size _ _ Hd) as Hs. destruct (spp_range s id Hd) as [Hp _].
  fold (ss s id) in Hs. unfold in_page in *. set (n := spp s id) in *. set (z := ss s id) in *.
  assert (lba < lba' + n /\ lba' < lba + n) as [? ?] by nia.
  apply Z.mod_divide in Hm as [q ->]; [|lia]. apply Z.mod_divide in Hm' as [q' ->]; [|lia]. assert (q = q') by nia. congruence.
Qed.

Lemma hits_iff s id x i : hits s id x i = true <-> dev (g_bcache s i) = id /\ in_page s id (page_lba (g_bcache s i)) x.
Proof using Type.
  unfold hits, in_page. rewrite !andb_true_iff, Z.eqb_eq, Z.leb_le, Z.ltb_lt. tauto.
Qed.

Lemma view_hit s i x : bc_ok s -> 0 <= i < BCACHE_MAX_PAGES -> dev (g_bcache s i) <> 0 ->
  in_page s (dev (g_bcache s i)) (page_lba (g_bcache s i)) x ->
  view s (dev (g_bcache s i)) x = data (g_bcache s i) (x - page_lba (g_bcache s i) * ss s (dev (g_bcache s i))).
Proof using Type.
  intros Hok Hi Hd Hx. unfold view. destruct (find_index _ _ _) as [j|] eqn:E.
  - apply find_index_Some in E as (Hj & Hh & _). apply hits_iff in Hh as [Ej Hxj]. change (0 + Z.of_nat (Z.to_nat BCACHE_MAX_PAGES)) with BCACHE_MAX_PAGES in Hj.
    assert (i = j) as ->; [|done]. destruct (bo_page s Hok i Hi Hd) as [Pi _]. destruct (bo_page s Hok j Hj ltac:(congruence)) as [Pj _].
    apply (bo_uniq s Hok i j); auto. rewrite Ej in Pj. by apply (page_unique s (dev (g_bcache s i)) _ _ x).
  - pose proof (proj1 (find_index_None _ _ _) E i Hi) as Hh. assert (hits s (dev (g_bcache s i)) x i = true) by (by apply hits_iff). congruence.
Qed.

Lemma view_miss s id x : (forall i, 0 <= i < BCACHE_MAX_PAGES -> dev (g_bcache s i) = id -> ~ in_page s id (page_lba (g_bcache s i)) x) ->
  view s id x = contents (world s) id x.
Proof using Type.
  intros Hm. unfold view. destruct (find_index _ _ _) as [j|] eqn:E; [|done].
  apply find_index_Some in E as (Hj & Hh & _). apply hits_iff in Hh as [Ej Hxj]. by destruct (Hm j Hj Ej).
Qed.

(** A byte is in a cached page or in none. *)
Lemma view_cases s id x :
  (exists i, 0 <= i < BCACHE_MAX_PAGES /\ dev (g_bcache s i) = id /\ in_page s id (page_lba (g_bcache s i)) x) \/
  (forall i, 0 <= i < BCACHE_MAX_PAGES -> dev (g_bcache s i) = id -> ~ in_page s id (page_lba (g_bcache s i)) x).
Proof using Type.
  destruct (find_index (Z.to_nat BCACHE_MAX_PAGES) 0 (hits s id x)) as [j|] eqn:E.
  - left. apply find_index_Some in E as (Hj & Hh & _). apply hits_iff in Hh as [Ej Hxj]. by exists j.
  - right. intros i Hi Ei Hx. pose proof (proj1 (find_index_None _ _ _) E i Hi) as Hh. assert (hits s id x i = true) by (by apply hits_iff). congruence.
Qed.

(** Entry [i] replaced by [e'], the devices the same or failed. *)
Record puts s s' (i : Z) (e' : bcache_entry_t) : Prop := {
  pu_entries : forall j, g_bcache s' j = (g_bcache s).[i <- e'] j;
  pu_devs : devs s' = devs s;
  pu_ready : ready s' = ready s;
  pu_failed : failed (world s) -> failed (world s');
  pu_world : ~ failed (world s') -> forall id x, contents (world s') id x = contents (world s) id x
}.

(** What a client sees is the same, or a device has lost a write. *)
Record same_view s s' : Prop := {
  sv_devs : devs s' = devs s;
  sv_failed : failed (world s) -> failed (world s');
  sv_view : ~ failed (world s') -> forall id x, id <> 0 -> view s' id x = view s id x
}.

Lemma same_view_refl s : same_view s s.
Proof using Type. by split. Qed.

Lemma same_view_trans s1 s2 s3 : same_view s1 s2 -> same_view s2 s3 -> same_view s1 s3.
Proof using Type.
  intros [D1 F1 V1] [D2 F2 V2]. split; [congruence|auto|]. intros Hf id x Hid. rewrite V2 by done. apply V1; auto.
Qed.

Lemma in_page_devs s s' id lba x : devs s' = devs s -> in_page s' id lba x <-> in_page s id lba x.
Proof using Type. intros E. unfold in_page, ss, spp, sectors_per_page. by rewrite E. Qed.

Lemma page_at_devs s s' id lba : devs s' = devs s -> page_at s id lba -> page_at s' id lba.
Proof using Type. intros E. unfold page_at, spp, sectors_per_page. by rewrite E. Qed.

Lemma ss_devs s s' id : devs s' = devs s -> ss s' id = ss s id.
Proof using Type. intros E. unfold ss. by rewrite E. Qed.

Lemma spp_devs s s' id : devs s' = devs s -> spp s' id = spp s id.
Proof using Type. intros E. unfold spp, sectors_per_page. by rewrite E. Qed.

(** No other entry holds the page. *)
Definition alone s (i id lba : Z) : Prop :=
  forall j, 0 <= j < BCACHE_MAX_PAGES -> j <> i -> ~ (dev (g_bcache s j) = id /\ page_lba (g_bcache s j) = lba).

Section put.
Variables (s s' : bcache W) (i : Z) (e' : bcache_entry_t).
Hypothesis Hok : bc_ok s.
Hypothesis Hi : 0 <= i < BCACHE_MAX_PAGES.
Hypothesis Hput : puts s s' i e'.
#[local] Notation id := (dev e').
#[local] Notation lba := (page_lba e').

Lemma put_eq : g_bcache s' i = e'.
Proof using Hput. rewrite (pu_entries _ _ _ _ Hput). apply upd_eq. Qed.
Lemma put_ne j : j <> i -> g_bcache s' j = g_bcache s j.
Proof using Hput. intros Hj. rewrite (pu_entries _ _ _ _ Hput). by apply upd_ne. Qed.

(** Storing the page of a device in an entry that was free or held it. *)
Lemma put_ok : page_at s id lba -> sectors e' = spp s id -> (dirty e' = true -> write (devs s id) <> None) -> alone s i id lba ->
  (~ failed (world s') -> dirty e' = false -> forall x, in_page s id lba x -> data e' (x - lba * ss s id) = contents (world s) id x) ->
  bc_ok s'.
Proof using Hok Hi Hput.
  intros Hp Hs Hw Ha Hc. pose proof (pu_devs _ _ _ _ Hput) as Ed. split.
  - rewrite (pu_ready _ _ _ _ Hput). apply Hok.
  - intros j Hj Hd. destruct (decide (j = i)) as [->|Hn].
    + rewrite put_eq in *. rewrite Ed, (spp_devs s) by done. split_and!; auto. by apply (page_at_devs s).
    + rewrite put_ne in * by done. destruct (bo_page s Hok j Hj Hd) as (P & S & D). rewrite Ed, (spp_devs s) by done.
      split_and!; auto. by apply (page_at_devs s).
  - intros j k Hj Hk Hd E1 E2. destruct (decide (j = i)) as [->|Hnj], (decide (k = i)) as [->|Hnk]; [done|..].
    + rewrite put_eq, put_ne in * by done. exfalso. by apply (Ha k Hk Hnk).
    + rewrite put_eq, put_ne in * by done. exfalso. by apply (Ha j Hj Hnj).
    + rewrite !put_ne in * by done. by apply (bo_uniq s Hok).
  - intros j x Hf Hj Hd Hdirty Hx. destruct (decide (j = i)) as [->|Hn].
    + rewrite put_eq in *. rewrite (ss_devs s), (pu_world _ _ _ _ Hput) by done. apply Hc; auto. by apply (in_page_devs s s').
    + rewrite put_ne in * by done. rewrite (ss_devs s), (pu_world _ _ _ _ Hput) by done.
      apply (bo_clean s Hok); auto; [|by apply (in_page_devs s s')]. intros Hfs. apply Hf. by apply (pu_failed _ _ _ _ Hput).
Qed.

Lemma put_view_page x : bc_ok s' -> id <> 0 -> in_page s id lba x -> view s' id x = data e' (x - lba * ss s id).
Proof using Hi Hput.
  intros Hok' Hid Hx. pose proof (pu_devs _ _ _ _ Hput) as Ed. pose proof (view_hit s' i x Hok' Hi) as Hv. rewrite put_eq in Hv.
  rewrite Hv; auto; [by rewrite (ss_devs s)|]. by apply (in_page_devs s).
Qed.

Lemma put_view_rest id' x : bc_ok s' -> ~ failed (world s') -> id' <> 0 ->
  (dev (g_bcache s i) = 0 \/ dev (g_bcache s i) = id /\ page_lba (g_bcache s i) = lba) ->
  ~ (id' = id /\ in_page s id' lba x) -> view s' id' x = view s id' x.
Proof using Hok Hi Hput.
  intros Hok' Hf Hid Hold Hx. pose proof (pu_devs _ _ _ _ Hput) as Ed. destruct (view_cases s id' x) as [(j & Hj & Ej & Hxj)|Hm].
  - assert (j <> i) as Hn by (intros ->; destruct Hold as [?|[? ?]]; [congruence|]; apply Hx; split; congruence).
    pose proof (view_hit s j x Hok Hj) as V. pose proof (view_hit s' j x Hok' Hj) as V'. rewrite put_ne in V' by done. rewrite Ej in *.
    rewrite V, V' by (done || by apply (in_page_devs s)). by rewrite (ss_devs s).
  - rewrite (view_miss s id' x Hm). rewrite view_miss; [by apply (pu_world _ _ _ _ Hput)|]. intros j Hj Ej Hxj. apply (in_page_devs s s') in Hxj; [|done].
    destruct (decide (j = i)) as [->|Hn]; [rewrite put_eq in *; apply Hx; split; done|rewrite put_ne in * by done]. by apply (Hm j).
Qed.

(** Freeing an entry that agrees with the device. *)
Lemma drop_ok : dev e' = 0 -> (dev (g_bcache s i) = 0 \/ dirty (g_bcache s i) = false) -> bc_ok s' /\ same_view s s'.
Proof using Hok Hi Hput.
  intros He Hold. pose proof (pu_devs _ _ _ _ Hput) as Ed.
  assert (forall j, dev (g_bcache s' j) <> 0 -> j <> i) as Hne by (intros j Hd ->; rewrite put_eq in Hd; done).
  assert (bc_ok s') as Hok'.
  { split.
    - rewrite (pu_ready _ _ _ _ Hput). apply Hok.
    - intros j Hj Hd. pose proof (Hne j Hd). rewrite put_ne in * by done. destruct (bo_page s Hok j Hj Hd) as (P & S & D).
      rewrite Ed, (spp_devs s) by done. split_and!; auto. by apply (page_at_devs s).
    - intros j k Hj Hk Hd E1 E2. pose proof (Hne j Hd). pose proof (Hne k ltac:(congruence)). rewrite !put_ne in * by done. by apply (bo_uniq s Hok).
    - intros j x Hf Hj Hd Hdirty Hx. pose proof (Hne j Hd). rewrite put_ne in * by done. rewrite (ss_devs s), (pu_world _ _ _ _ Hput) by done.
      apply (bo_clean s Hok); auto; [|by apply (in_page_devs s s')]. intros Hfs. apply Hf. by apply (pu_failed _ _ _ _ Hput). }
  split; [done|]. split; [done|apply Hput|]. intros Hf id' x Hid. destruct (view_cases s id' x) as [(j & Hj & Ej & Hxj)|Hm].
  - destruct (decide (j = i)) as [->|Hn].
    + rewrite <- Ej in *. rewrite (view_hit s i x Hok Hi) by done. destruct Hold as [?|Hcl]; [done|].
      rewrite (bo_clean s Hok i x) by (try done; intros Hfs; apply Hf; by apply (pu_failed _ _ _ _ Hput)).
      rewrite view_miss; [by apply (pu_world _ _ _ _ Hput)|]. intros k Hk Ek Hxk. pose proof (Hne k ltac:(congruence)) as Hn.
      rewrite put_ne in * by done. apply Hn. symmetry. apply (bo_uniq s Hok i k); auto.
      destruct (bo_page s Hok i Hi Hid) as [Pi _]. destruct (bo_page s Hok k Hk ltac:(congruence)) as [Pk _]. rewrite Ek in Pk.
      apply (page_unique s (dev (g_bcache s i)) _ _ x); auto. by apply (in_page_devs s s').
    + pose proof (view_hit s j x Hok Hj) as V. pose proof (view_hit s' j x Hok' Hj) as V'. rewrite put_ne in V' by done. rewrite Ej in *.
      rewrite V, V' by (done || by apply (in_page_devs s)). by rewrite (ss_devs s).
  - rewrite (view_miss s id' x Hm). rewrite view_miss; [by apply (pu_world _ _ _ _ Hput)|]. intros j Hj Ej Hxj. apply (in_page_devs s s') in Hxj; [|done].
    pose proof (Hne j ltac:(congruence)). rewrite put_ne in * by done. by apply (Hm j).
Qed.

End put.


(** Changing the time of last use only. *)
Lemma touch_ok s s' i t : bc_ok s -> 0 <= i < BCACHE_MAX_PAGES -> dev (g_bcache s i) <> 0 ->
  puts s s' i ((g_bcache s i) <| last_use := t |>) -> bc_ok s' /\ same_view s s'.
Proof using Type.
  intros Hok Hi Hd Hput. set (e' := (g_bcache s i) <| last_use := t |>) in *. destruct (bo_page s Hok i Hi Hd) as (P & S & D).
  assert (dev e' = dev (g_bcache s i) /\ page_lba e' = page_lba (g_bcache s i) /\ data e' = data (g_bcache s i) /\
    sectors e' = sectors (g_bcache s i) /\ dirty e' = dirty (g_bcache s i)) as (E1 & E2 & E3 & E4 & E5) by done. clearbody e'.
  assert (bc_ok s') as Hok'.
  { apply (put_ok s s' i e'); rewrite ?E1, ?E2, ?E3, ?E4, ?E5; auto.
    - intros j Hj Hn [Ej Ep]. apply Hn. symmetry. by apply (bo_uniq s Hok).
    - intros Hf Hcl x Hx. apply (bo_clean s Hok); auto. intros Hfs. apply Hf. by apply (pu_failed _ _ _ _ Hput). }
  split; [done|]. split; [apply Hput|apply Hput|]. intros Hf id x Hid.
  destruct (view_cases s id x) as [(j & Hj & Ej & Hxj)|Hm].
  - destruct (decide (j = i)) as [->|Hn].
    + subst id. rewrite (view_hit s i x Hok Hi Hd Hxj). rewrite <- E1, <- E2, <- E3. apply (put_view_page s s' i e'); congruence.
    + apply (put_view_rest s s' i e'); auto. rewrite E1, E2. intros [-> Hx]. apply Hn.
      apply (bo_uniq s Hok j i); auto; [congruence|]. destruct (bo_page s Hok j Hj ltac:(congruence)) as [Pj _]. rewrite Ej in Pj.
      by apply (page_unique s (dev (g_bcache s i)) _ _ x).
  - apply (put_view_rest s s' i e'); auto. rewrite E1, E2. intros [-> Hx]. by apply (Hm i).
Qed.

Lemma find_ok s d lba : bc_ok s -> d <> 0 ->
  match bcache_find d lba s with
  | (Some i, s') => bc_ok s' /\ same_view s s' /\ 0 <= i < BCACHE_MAX_PAGES /\ dev (g_bcache s' i) = d /\ page_lba (g_bcache s' i) = lba
  | (None, s') => s' = s /\ forall i, alone s i d lba
  end.
Proof using Type.
  intros Hok Hd. unfold bcache_find. destruct (find_index _ _ _) as [i|] eqn:E.
  - apply find_index_Some in E as (Hi & Hp & _). apply andb_true_iff in Hp as [Ed El]. apply Z.eqb_eq in Ed, El.
    change (0 + Z.of_nat (Z.to_nat BCACHE_MAX_PAGES)) with BCACHE_MAX_PAGES in Hi. unfold tick. set (t := u64 _). set (s' := upd_entry i _ _).
    assert (puts s s' i ((g_bcache s i) <| last_use := t |>)) as Hput by (split; done).
    destruct (touch_ok s s' i t Hok Hi ltac:(congruence) Hput). rewrite (put_eq s s' i _ Hput). auto.
  - split; [done|]. intros i j Hj _ [Ej Ep]. pose proof (proj1 (find_index_None _ _ _) E j Hj) as Hp. cbn beta in Hp.
    rewrite Ej, Ep, !Z.eqb_refl in Hp. done.
Qed.

(** Writing a dirty page back. *)
Lemma write_back_ok s i : bc_ok s -> 0 <= i < BCACHE_MAX_PAGES -> dev (g_bcache s i) <> 0 -> dirty (g_bcache s i) = true ->
  let s' := write_back i s in
  bc_ok s' /\ same_view s s' /\ g_bcache s' = (g_bcache s).[i <- (g_bcache s i) <| dirty := false |>].
Proof using Type.
  intros Hok Hi Hd Hdirty. cbv zeta. destruct (bo_page s Hok i Hi Hd) as (P & S & D). specialize (D Hdirty). unfold write_back.
  destruct (write (devs s (dev (g_bcache s i)))) as [f|] eqn:Ew; [|done].
  destruct (f (page_lba (g_bcache s i)) (sectors (g_bcache s i)) (data (g_bcache s i)) (world s)) as [rc w'] eqn:Ef.
  destruct (do_write _ _ (proj1 (proj2 P)) _ _ _ _ _ _ _ Ew Ef) as [Hmono Hw]. cbn [snd]. rewrite S in Hw.
  set (s' := upd_entry i _ _). assert (g_bcache s' = (g_bcache s).[i <- (g_bcache s i) <| dirty := false |>]) as Eg by done.
  assert (devs s' = devs s /\ world s' = w' /\ ready s' = ready s) as (Ed & Eworld & Er) by done. clearbody s'.
  set (id := dev (g_bcache s i)) in *. set (lba := page_lba (g_bcache s i)) in *.
  assert (forall j, dev (g_bcache s' j) = dev (g_bcache s j) /\ page_lba (g_bcache s' j) = page_lba (g_bcache s j) /\
    data (g_bcache s' j) = data (g_bcache s j) /\ sectors (g_bcache s' j) = sectors (g_bcache s j) /\
    (j <> i -> dirty (g_bcache s' j) = dirty (g_bcache s j))) as Hsame.
  { intros j. rewrite Eg. destruct (upd_cases (g_bcache s) i ((g_bcache s i) <| dirty := false |>) j) as [[-> ->]|[? ->]]; done. }
  assert (dirty (g_bcache s' i) = false) as Hcl by (rewrite Eg, upd_eq; done).
  assert (forall id' x, ~ failed w' -> ~ (id' = id /\ in_page s id lba x) -> contents w' id' x = contents (world s) id' x) as Hrest.
  { intros id' x Hf Hx. rewrite Hw by done. fold (ss s id). unfold in_page in Hx. destruct (Z.eqb_spec id' id); [|done].
    destruct (Z.leb_spec (lba * ss s id) x), (Z.ltb_spec x ((lba + spp s id) * ss s id)); cbn [andb]; try done. tauto. }
  assert (forall x, ~ failed w' -> in_page s id lba x -> contents w' id x = data (g_bcache s i) (x - lba * ss s id)) as Hpage.
  { intros x Hf Hx. rewrite Hw by done. fold (ss s id). unfold in_page in Hx. rewrite Z.eqb_refl.
    destruct (Z.leb_spec (lba * ss s id) x), (Z.ltb_spec x ((lba + spp s id) * ss s id)); cbn [andb]; [done|lia..]. }
  assert (bc_ok s') as Hok'.
  { split.
    - rewrite Er. apply Hok.
    - intros j Hj. destruct (Hsame j) as (-> & -> & _ & -> & Hdj). intros Hdv. rewrite Ed, (spp_devs s) by done. destruct (bo_page s Hok j Hj Hdv) as (Pj & Sj & Dj).
      split_and!; [by apply (page_at_devs s)|done|]. destruct (decide (j = i)) as [->|Hn]; [congruence|]. by rewrite Hdj.
    - intros j k Hj Hk. destruct (Hsame j) as (-> & -> & _), (Hsame k) as (-> & -> & _). by apply (bo_uniq s Hok).
    - intros j x Hf Hj. destruct (Hsame j) as (-> & -> & -> & _ & Hdj). rewrite Eworld in *. intros Hdv Hdj' Hx. rewrite (ss_devs s) by done. apply (in_page_devs s s') in Hx; [|done].
      destruct (decide (j = i)) as [->|Hn]; [symmetry; by apply Hpage|]. rewrite Hdj in Hdj' by done. rewrite Hrest; [apply (bo_clean s Hok); auto|done|].
      intros [Ej Hx2]. apply Hn. apply (bo_uniq s Hok j i); auto. destruct (bo_page s Hok j Hj Hdv) as [Pj _]. rewrite Ej in *. by apply (page_unique s id _ _ x). }
  split_and!; [done| |done]. split; [done|by rewrite Eworld|]. rewrite Eworld. intros Hf id' x Hid. destruct (view_cases s id' x) as [(j & Hj & Ej & Hxj)|Hm].
  - pose proof (view_hit s j x Hok Hj) as V. pose proof (view_hit s' j x Hok' Hj) as V'. destruct (Hsame j) as (E1 & E2 & E3 & _). rewrite E1, E2, E3, Ej in *.
    rewrite V, V' by (done || by apply (in_page_devs s)). by rewrite (ss_devs s).
  - rewrite (view_miss s id' x Hm), (view_miss s' id' x), Eworld; [apply Hrest; auto; intros [-> Hx]; by apply (Hm i)|].
    intros j Hj. destruct (Hsame j) as (-> & -> & _). intros Ej Hxj. apply (in_page_devs s s') in Hxj; [|done]. by apply (Hm j).
Qed.


Lemma evict_ok s i : bc_ok s -> 0 <= i < BCACHE_MAX_PAGES ->
  let s' := bcache_evict i s in
  bc_ok s' /\ same_view s s' /\ dev (g_bcache s' i) = 0 /\ forall j, j <> i -> g_bcache s' j = g_bcache s j.
Proof using Type.
  intros Hok Hi. cbv zeta. unfold bcache_evict. set (s1 := if _ && _ then _ else s).
  assert (bc_ok s1 /\ same_view s s1 /\ (dev (g_bcache s1 i) = 0 \/ dirty (g_bcache s1 i) = false) /\
    forall j, j <> i -> g_bcache s1 j = g_bcache s j) as (Hok1 & Hv1 & Hcl & Hrest).
  { unfold s1. destruct (Z.eqb_spec (dev (g_bcache s i)) 0); cbn [negb andb]; [split_and!; auto using same_view_refl|].
    destruct (dirty (g_bcache s i)) eqn:Ed; [|split_and!; auto using same_view_refl].
    destruct (write_back_ok s i Hok Hi n Ed) as (H1 & H2 & ->). split_and!; auto; [right; by rewrite upd_eq|]. intros j Hj. by apply upd_ne. }
  clearbody s1. set (s' := upd_entry i _ s1).
  assert (puts s1 s' i ((g_bcache s1 i) <| dev := 0 |>)) as Hput by (split; done).
  destruct (drop_ok s1 s' i _ Hok1 Hi Hput eq_refl Hcl) as [Hok' Hv]. split_and!; [done|by apply (same_view_trans s s1)| |].
  - by rewrite (put_eq s1 s' i _ Hput).
  - intros j Hj. rewrite (put_ne s1 s' i _ Hput) by done. by apply Hrest.
Qed.

(** The page replaced is one least recently used. *)
Lemma oldest_least s : (forall i, 0 <= i < BCACHE_MAX_PAGES -> last_use (g_bcache s i) < 2 ^ 64) ->
  0 <= fst (oldest s) < BCACHE_MAX_PAGES /\
  forall i, 0 <= i < BCACHE_MAX_PAGES -> last_use (g_bcache s (fst (oldest s))) <= last_use (g_bcache s i).
Proof using Type.
  intros Hb. unfold oldest. change (Z.to_nat BCACHE_MAX_PAGES) with 256%nat. unfold BCACHE_MAX_PAGES in *.
  set (f := fun i best => _).
  assert (forall n, (n <= 256)%nat -> let r := for_loop n 0 f (0, 2 ^ 64 - 1) in
    0 <= fst r < 256 /\ last_use (g_bcache s (fst r)) <= snd r /\ forall i, 0 <= i < Z.of_nat n -> snd r <= last_use (g_bcache s i)) as Hn.
  { induction n as [|n IH]; intros Hle; cbv zeta.
    - cbn. specialize (Hb 0 ltac:(lia)). split_and!; [lia|lia|lia|]. intros; lia.
    - rewrite for_loop_snoc, Z.add_0_l. specialize (IH ltac:(lia)). cbv zeta in IH. set (r := for_loop n 0 f _) in *. destruct IH as (I1 & I2 & I3).
      unfold f. destruct (Z.ltb_spec (last_use (g_bcache s (Z.of_nat n))) (snd r)); cbn [fst snd]; split_and!; try lia.
      + intros i Hi. destruct (decide (i = Z.of_nat n)) as [->|]; [lia|]. specialize (I3 i ltac:(lia)). lia.
      + intros i Hi. destruct (decide (i = Z.of_nat n)) as [->|]; [lia|]. apply I3. lia. }
  destruct (Hn 256%nat ltac:(lia)) as (H1 & H2 & H3). split; [done|]. intros i Hi. specialize (H3 i Hi). lia.
Qed.

Lemma oldest_range s : 0 <= fst (oldest s) < BCACHE_MAX_PAGES.
Proof using Type.
  unfold oldest. apply (for_loop_ind (fun r => 0 <= fst r < BCACHE_MAX_PAGES)); [|by vm_compute].
  intros i r Hi Hr. destruct (_ <? _); [|done]. cbn [fst]. change (Z.of_nat (Z.to_nat BCACHE_MAX_PAGES)) with BCACHE_MAX_PAGES in Hi. lia.
Qed.

Definition claimed (s : bcache W) i d lba n t : bcache_entry_t :=
  {| dev := d; page_lba := lba; sectors := n; last_use := t; dirty := false; data := data (g_bcache s i) |}.

Lemma claim_puts s i d lba n : exists t, puts s (claim i d lba n s) i (claimed s i d lba n t).
Proof using Type. eexists. split; try done. Qed.

(** A page is claimed in an entry that was made free. *)
Lemma bcache_alloc_ok s d lba n : bc_ok s -> (forall i, alone s i d lba) ->
  exists i s1, bcache_alloc d lba n s = (i, claim i d lba n s1) /\ bc_ok s1 /\ same_view s s1 /\ 0 <= i < BCACHE_MAX_PAGES /\
    dev (g_bcache s1 i) = 0 /\ alone s1 i d lba.
Proof using Type.
  intros Hok Ha. unfold bcache_alloc. destruct (find_index _ _ _) as [i|] eqn:E.
  - apply find_index_Some in E as (Hi & Hp & _). apply Z.eqb_eq in Hp. exists i, s. split_and!; auto using same_view_refl; apply Hi.
  - pose proof (oldest_range s) as Hi. set (i := fst (oldest s)) in *. destruct (evict_ok s i Hok Hi) as (H1 & H2 & H3 & H4).
    exists i, (bcache_evict i s). split_and!; auto; [apply Hi..|]. intros j Hj Hn. rewrite H4 by done. by apply (Ha i).
Qed.


(** A page no entry holds is seen on the device. *)
Lemma alone_miss s i d lba x : bc_ok s -> page_at s d lba -> dev (g_bcache s i) = 0 -> alone s i d lba -> in_page s d lba x ->
  view s d x = contents (world s) d x.
Proof using Type.
  intros Hok Hp Hi Ha Hx. apply view_miss. intros j Hj Ej Hxj. destruct Hp as (Hd & Hp). destruct (decide (j = i)) as [->|Hn]; [congruence|].
  apply (Ha j Hj Hn). split; [done|]. destruct (bo_page s Hok j Hj ltac:(congruence)) as [Pj _]. rewrite Ej in Pj.
  symmetry. by apply (page_unique s d lba _ x).
Qed.

(** The entry [i] holds the page. *)
Definition holds s (i d lba : Z) : Prop := 0 <= i < BCACHE_MAX_PAGES /\ dev (g_bcache s i) = d /\ page_lba (g_bcache s i) = lba.

Lemma fill_ok s i d lba s1 : bc_ok s -> page_at s d lba -> 0 <= i < BCACHE_MAX_PAGES -> dev (g_bcache s i) = 0 -> alone s i d lba ->
  s1 = claim i d lba (spp s d) s ->
  match fill i d lba (spp s d) s1 with
  | (true, s') => bc_ok s' /\ same_view s s' /\ holds s' i d lba
  | (false, s') => bc_ok s' /\ same_view s s'
  end.
Proof using Type.
  intros Hok Hp Hi Hfree Ha E1. destruct (claim_puts s i d lba (spp s d)) as [t Hput1]. rewrite <- E1 in Hput1. clear E1.
  pose proof (pu_devs _ _ _ _ Hput1) as Ed1. unfold fill. rewrite Ed1. destruct (read (devs s d)) as [r|] eqn:Er.
  2: { exfalso. destruct Hp as (_ & Hd & _). by apply (do_readable _ _ Hd). }
  rewrite (put_eq _ _ _ _ Hput1). change (data (claimed s i d lba (spp s d) t)) with (data (g_bcache s i)).
  destruct (r lba (spp s d) (data (g_bcache s i)) (world s1)) as [[rc b] w] eqn:Ef.
  destruct (do_read _ _ (proj1 (proj2 Hp)) _ _ _ _ _ _ _ _ Er Ef) as [Hmono Hr]. fold (ss s d) in Hr. set (s2 := upd_entry i (fun e => e <| data := b |>) _).
  assert (puts s s2 i ((claimed s i d lba (spp s d) t) <| data := b |>)) as Hput2.
  { split; [|done|apply Hput1|..].
    - intros j. change (g_bcache s2 j) with ((g_bcache s1).[i <- (g_bcache s1 i) <| data := b |>] j). rewrite (put_eq _ _ _ _ Hput1).
      destruct (decide (j = i)) as [->|Hn]; [by rewrite !upd_eq|]. rewrite !upd_ne by done. by apply (put_ne _ _ _ _ Hput1).
    - intros Hf. apply Hmono. by apply (pu_failed _ _ _ _ Hput1).
    - intros Hf id x. destruct (Hr Hf) as [E _]. change (world s2) with w. rewrite E. apply (pu_world _ _ _ _ Hput1). intros Hf1. apply Hf. by apply Hmono. }
  assert (world s2 = w) as Ew by done. destruct (Z.ltb_spec rc 0) as [Hrc|Hrc].
  - set (s3 := upd_entry i _ s2). assert (puts s s3 i ((g_bcache s2 i) <| dev := 0 |>)) as Hput3.
    { split; [|apply Hput2..]. intros j. change (g_bcache s3 j) with ((g_bcache s2).[i <- (g_bcache s2 i) <| dev := 0 |>] j).
      destruct (decide (j = i)) as [->|Hn]; [by rewrite !upd_eq|]. rewrite !upd_ne by done. by apply (put_ne _ _ _ _ Hput2). }
    apply (drop_ok s s3 i _ Hok Hi Hput3); auto.
  - set (e' := (claimed s i d lba (spp s d) t) <| data := b |>) in *.
    assert (forall x, ~ failed w -> in_page s d lba x -> data e' (x - lba * ss s d) = contents (world s) d x) as Hdata.
    { intros x Hf Hx. destruct (Hr Hf) as [_ Hb]. change (data e') with b. unfold in_page in Hx. rewrite Hb by (nia || lia).
      replace (lba * ss s d + (x - lba * ss s d)) with x by lia. apply (pu_world _ _ _ _ Hput1). intros Hf1. apply Hf. by apply Hmono. }
    assert (bc_ok s2) as Hok2 by (apply (put_ok s s2 i e'); auto; rewrite Ew; auto).
    split_and!; [done| |split; [done|by rewrite (put_eq _ _ _ _ Hput2)]]. split; [apply Hput2..|]. intros Hf id x Hid.
    destruct (decide (id = d /\ lba * ss s d <= x < (lba + spp s d) * ss s d)) as [[-> Hx]|Hx].
    + rewrite (alone_miss s i d lba x) by done. rewrite <- Hdata by (done || by rewrite <- Ew). by apply (put_view_page s s2 i e').
    + apply (put_view_rest s s2 i e'); auto. intros [-> Hx']. apply Hx. split; [done|exact Hx'].
Qed.

Lemma get_page_ok s d lba : bc_ok s -> page_at s d lba ->
  match get_page d lba (spp s d) false s with
  | (Some i, s') => bc_ok s' /\ same_view s s' /\ holds s' i d lba
  | (None, s') => bc_ok s' /\ same_view s s'
  end.
Proof using Type.
  intros Hok Hp. unfold get_page. pose proof (find_ok s d lba Hok (proj1 Hp)) as Hfind. destruct (bcache_find d lba s) as [[i|] s1].
  { destruct Hfind as (? & ? & ? & ? & ?). by split_and!. }
  destruct Hfind as [-> Ha]. destruct (bcache_alloc_ok s d lba (spp s d) Hok Ha) as (i & s1 & -> & Hok1 & Hv1 & Hi & Hfree & Ha1).
  pose proof (sv_devs _ _ Hv1) as Ed. pose proof (fill_ok s1 i d lba _ Hok1 (page_at_devs s s1 d lba Ed Hp) Hi Hfree Ha1 eq_refl) as Hf.
  rewrite !(spp_devs s s1) in Hf by done. destruct (fill i d lba (spp s d) _) as [[|] s2].
  - destruct Hf as (? & ? & ?). split_and!; auto. by apply (same_view_trans s s1).
  - destruct Hf as (? & ?). split; auto. by apply (same_view_trans s s1).
Qed.


End cache.
End BcacheProps.
