(* ===== verification/BcacheClaims.v ===== *)
(** * Reads and writes through the block cache *)

From S2P Require Import Prelude Block Bcache BcacheProps.
Import Block Bcache BcacheProps.

Module BcacheClaims.

Section claims.
Context {W : Type} `{HD : Disks W}.
Implicit Types s : bcache W.

Lemma chunk_ok s d cur remaining : d <> 0 -> dev_ok d (devs s d) -> 0 <= cur < 2 ^ 64 -> 0 < remaining ->
  exists page off k, chunk d cur remaining s = (page, off, k) /\ page_at s d page /\ cur = page + off /\ 0 <= off /\
    0 < k <= remaining /\ off + k <= spp s d.
Proof using Type.
  intros Hd Hok Hcur Hr. unfold chunk. fold (spp s d). destruct (spp_range s d Hok) as [Hn Hns]. pose proof (do_size _ _ Hok) as Hs. fold (ss s d) in Hs.
  set (n := spp s d) in *. assert (n <= 4096) by nia. pose proof (Z.div_mod cur n ltac:(lia)) as Hdm. pose proof (Z.mod_pos_bound cur n ltac:(lia)).
  pose proof (Z.div_pos cur n). rewrite !(wrap_small 64), !(wrap_small 32) by nia.
  exists (cur / n * n), (cur - cur / n * n), (if remaining <? n - (cur - cur / n * n) then remaining else n - (cur - cur / n * n)).
  split; [done|]. split; [split_and!; auto; [nia|apply Z.mod_mul; lia]|]. destruct (Z.ltb_spec remaining (n - (cur - cur / n * n))); lia.
Qed.

(** The view after bytes of [buf] from [p] on went to [n] bytes from [a] on of device [d]. *)
Definition written (v : Z -> Z -> Z) (d a n : Z) (buf : buffer) (p : Z) : Z -> Z -> Z :=
  fun id x => if (id =? d) && (a <=? x) && (x <? a + n) then buf (p + (x - a)) else v id x.

(** Nothing else than the bytes of a write changes. *)
Record writes s s' (d a n : Z) (buf : buffer) (p : Z) : Prop := {
  wr_devs : devs s' = devs s;
  wr_failed : failed (world s) -> failed (world s');
  wr_view : ~ failed (world s') -> forall id x, id <> 0 -> view s' id x = written (view s) d a n buf p id x
}.

Lemma same_writes s s' s'' d a n buf p : same_view s s' -> writes s' s'' d a n buf p -> writes s s'' d a n buf p.
Proof using Type.
  intros [D F V] [D' F' V']. split; [congruence|auto|]. intros Hf id x Hid. rewrite V' by done. unfold written. rewrite V; auto.
Qed.

Lemma writes_nil s s' d a buf p : same_view s s' -> writes s s' d a 0 buf p.
Proof using Type.
  intros [D F V]. split; auto. intros Hf id x Hid. unfold written. rewrite V by done.
  destruct (Z.leb_spec a x), (Z.ltb_spec x (a + 0)); rewrite ?andb_false_r; cbn [andb]; try done; [lia|..]. all: by rewrite ?andb_false_r.
Qed.

(** Two writes next to each other. *)
Lemma writes_app s s1 s2 d a n m buf p : 0 <= n -> 0 <= m ->
  writes s s1 d a n buf p -> writes s1 s2 d (a + n) m buf (p + n) -> writes s s2 d a (n + m) buf p.
Proof using Type.
  intros Hn Hm [D F V] [D' F' V']. split; [congruence|auto|]. intros Hf id x Hid. rewrite V' by done. unfold written. rewrite V by auto. unfold written.
  destruct (Z.eqb_spec id d); cbn [andb]; [|done].
  destruct (Z.leb_spec (a + n) x), (Z.ltb_spec x (a + n + m)), (Z.leb_spec a x), (Z.ltb_spec x (a + n)), (Z.ltb_spec x (a + (n + m))); cbn [andb];
    try done; try lia; f_equal; lia.
Qed.

(** Storing part of a page, with [e'] the entry the page ends up in: [old] is the
    data it starts from, which matters where the write does not reach. *)
Lemma store_ok s s' i e' d lba off k buf p (old : buffer) : bc_ok s -> page_at s d lba -> write (devs s d) <> None -> 0 <= i < BCACHE_MAX_PAGES ->
  puts s s' i e' -> dev e' = d -> page_lba e' = lba -> sectors e' = spp s d -> dirty e' = true -> alone s i d lba ->
  (dev (g_bcache s i) = 0 \/ dev (g_bcache s i) = d /\ page_lba (g_bcache s i) = lba) -> 0 <= off -> 0 <= k -> off + k <= spp s d ->
  data e' = blit old (off * ss s d) buf p (k * ss s d) ->
  (k < spp s d -> forall x, in_page s d lba x -> old (x - lba * ss s d) = view s d x) ->
  bc_ok s' /\ writes s s' d ((lba + off) * ss s d) (k * ss s d) buf p.
Proof using Type.
  intros Hok Hp Hw Hi Hput Ed El Es Edirty Ha Hold Ho Hk Hok2 Edata Hkeep. pose proof (do_size _ _ (proj1 (proj2 Hp))) as Hs. fold (ss s d) in Hs.
  assert (bc_ok s') as Hok'.
  { apply (put_ok s s' i e'); rewrite ?Ed, ?El; auto. congruence. }
  split; [done|]. split; [apply Hput..|]. intros Hf id x Hid. unfold written.
  destruct (decide (id = d /\ lba * ss s d <= x < (lba + spp s d) * ss s d)) as [[-> Hx]|Hx].
  - pose proof (put_view_page s s' i e' Hi Hput x Hok') as V. rewrite Ed, El in V. rewrite V by done. rewrite Edata. unfold blit.
    rewrite Z.eqb_refl. cbn [andb].
    destruct (decide ((lba + off) * ss s d <= x < (lba + off + k) * ss s d)) as [Hin|Hout].
    + repeat rewrite (proj2 (Z.leb_le _ _)) by lia. repeat rewrite (proj2 (Z.ltb_lt _ _)) by lia. cbn [andb]. f_equal. lia.
    + assert (forall y, (y <=? x) && (x <? y + k * ss s d) = true -> y = (lba + off) * ss s d -> False) as Hno.
      { intros y Hy ->. apply andb_true_iff in Hy as [Hy1 Hy2]. apply Z.leb_le in Hy1. apply Z.ltb_lt in Hy2. lia. }
      destruct (((lba + off) * ss s d <=? x) && (x <? (lba + off) * ss s d + k * ss s d)) eqn:E1; [by destruct (Hno _ E1)|].
      destruct ((off * ss s d <=? x - lba * ss s d) && (x - lba * ss s d <? off * ss s d + k * ss s d)) eqn:E2.
      { exfalso. apply andb_true_iff in E2 as [Hy1 Hy2]. apply Z.leb_le in Hy1. apply Z.ltb_lt in Hy2. lia. }
      apply Hkeep; [|done]. destruct (decide (k < spp s d)); [done|]. exfalso. assert (off = 0 /\ k = spp s d) as [-> ->] by lia. apply Hout. lia.
  - rewrite (put_view_rest s s' i e') by (rewrite ?Ed, ?El; try done; intros [-> Hx']; by apply Hx).
    destruct (Z.eqb_spec id d) as [->|]; cbn [andb]; [|done].
    destruct (Z.leb_spec ((lba + off) * ss s d) x), (Z.ltb_spec x ((lba + off) * ss s d + k * ss s d)); cbn [andb]; try done.
    exfalso. apply Hx. split; [done|nia].
Qed.

(** The store at the end of a round of bcache_write. *)
Definition store_chunk (d off k p : Z) (buf : buffer) (i : Z) s : bcache W :=
  let z := sector_size (devs s d) in
  upd_entry i (fun e => e <| data := blit (data e) (u32 (off * z)) buf p (u32 (k * z)) |> <| dirty := true |>) s.

Lemma holds_alone s i d lba : bc_ok s -> d <> 0 -> holds s i d lba -> alone s i d lba.
Proof using Type. intros Hok Hd (Hi & E1 & E2) j Hj Hn [Ej Ep]. apply Hn. apply (bo_uniq s Hok j i); congruence. Qed.

(** Storing in a page that is cached. *)
Lemma store_hit s s1 i d lba off k buf p : bc_ok s1 -> same_view s s1 -> page_at s d lba -> write (devs s d) <> None -> 0 <= off -> 0 < k ->
  off + k <= spp s d -> 0 <= off * ss s d < 2 ^ 32 -> 0 <= k * ss s d < 2 ^ 32 -> holds s1 i d lba ->
  let s' := store_chunk d off k p buf i s1 in bc_ok s' /\ writes s s' d ((lba + off) * ss s d) (k * ss s d) buf p.
Proof using Type.
  intros Hok1 Hv Hp Hw Ho Hk Hle U1 U2 Hh. pose proof (sv_devs _ _ Hv) as Ed. pose proof (holds_alone s1 i d lba Hok1 (proj1 Hp) Hh) as Ha. destruct Hh as (Hi & E1 & E2).
  cbv zeta. unfold store_chunk. fold (ss s1 d). rewrite (ss_devs s s1) by done. rewrite !(wrap_small 32) by lia. set (s' := upd_entry i _ s1).
  set (e' := (g_bcache s1 i) <| data := blit (data (g_bcache s1 i)) (off * ss s d) buf p (k * ss s d) |> <| dirty := true |>).
  assert (puts s1 s' i e') as Hput by (split; done).
  destruct (store_ok s1 s' i e' d lba off k buf p (data (g_bcache s1 i)) Hok1 (page_at_devs s s1 d lba Ed Hp) ltac:(by rewrite Ed) Hi Hput)
    as [H1 H2]; rewrite ?(spp_devs s s1), ?(ss_devs s s1) by done; auto; [|lia|intros _ x Hx|].
  - destruct (bo_page s1 Hok1 i Hi ltac:(rewrite E1; apply Hp)) as (_ & S & _). rewrite E1, (spp_devs s s1) in S by done. exact S.
  - pose proof (view_hit s1 i x Hok1 Hi) as V. rewrite E1, E2 in V. rewrite V by (try done; apply Hp). by rewrite (ss_devs s s1).
  - split; [done|]. apply (same_writes s s1); [done|]. rewrite (ss_devs s s1) in H2 by done. exact H2.
Qed.

(** A round of bcache_write. *)
Lemma write_page_ok s d lba off k buf p : bc_ok s -> page_at s d lba -> write (devs s d) <> None -> 0 <= off -> 0 < k -> off + k <= spp s d ->
  match get_page d lba (spp s d) (spp s d <=? k) s with
  | (None, s') => bc_ok s' /\ same_view s s'
  | (Some i, s1) => let s' := store_chunk d off k p buf i s1 in bc_ok s' /\ writes s s' d ((lba + off) * ss s d) (k * ss s d) buf p
  end.
Proof using Type.
  intros Hok Hp Hw Ho Hk Hle. destruct (spp_range s d (proj1 (proj2 Hp))) as [Hn Hns]. pose proof (do_size _ _ (proj1 (proj2 Hp))) as Hs. fold (ss s d) in Hs.
  assert (0 <= off * ss s d < 2 ^ 32 /\ 0 <= k * ss s d < 2 ^ 32) as [U1 U2] by nia.
  pose proof (fun s1 i => store_hit s s1 i d lba off k buf p) as Hhit.
  destruct (Z.leb_spec (spp s d) k) as [Hwhole|Hpart].
  2: { pose proof (get_page_ok s d lba Hok Hp) as Hg. destruct (get_page d lba (spp s d) false s) as [[i|] s1]; [|done].
       destruct Hg as (Hok1 & Hv & Hh). apply Hhit; auto. }
  unfold get_page. pose proof (find_ok s d lba Hok (proj1 Hp)) as Hfind. destruct (bcache_find d lba s) as [[i|] s1].
  { destruct Hfind as (? & Hv & ?). apply Hhit; auto. }
  destruct Hfind as [-> Ha]. destruct (bcache_alloc_ok s d lba (spp s d) Hok Ha) as (i & s1 & -> & Hok1 & Hv1 & Hi & Hfree & Ha1).
  pose proof (sv_devs _ _ Hv1) as Ed. destruct (claim_puts s1 i d lba (spp s d)) as [t Hput]. set (s2 := claim i d lba (spp s d) s1) in *.
  unfold store_chunk. fold (ss s2 d). rewrite (ss_devs s s2) by (rewrite (pu_devs _ _ _ _ Hput); done). rewrite !(wrap_small 32) by lia. set (s' := upd_entry i _ s2).
  set (e' := (claimed s1 i d lba (spp s d) t) <| data := blit (data (g_bcache s1 i)) (off * ss s d) buf p (k * ss s d) |> <| dirty := true |>).
  assert (puts s1 s' i e') as Hput'.
  { split; [|apply Hput..]. intros j. unfold s', upd_entry. change (g_bcache (s2 <| g_bcache := ?x |>)) with x.
    destruct (decide (j = i)) as [->|Hnj]; [rewrite !upd_eq, (put_eq _ _ _ _ Hput); done|]. rewrite !upd_ne by done. by apply (put_ne _ _ _ _ Hput). }
  destruct (store_ok s1 s' i e' d lba off k buf p (data (g_bcache s1 i)) Hok1 (page_at_devs s s1 d lba Ed Hp) ltac:(by rewrite Ed) Hi Hput') as [H1 H2];
    rewrite ?(spp_devs s s1), ?(ss_devs s s1) by done; auto; [lia|lia|]. split; [done|]. apply (same_writes s s1); [done|]. rewrite (ss_devs s s1) in H2 by done. exact H2.
Qed.


Lemma write_loop_ok fuel d p buf : forall s cur remaining, bc_ok s -> d <> 0 -> dev_ok d (devs s d) -> write (devs s d) <> None ->
  0 <= cur -> 0 <= remaining < 2 ^ 32 -> cur + remaining < 2 ^ 64 -> (Z.to_nat remaining < fuel)%nat ->
  let '(rc, s') := write_loop fuel d cur remaining p buf s in
  exists done, bc_ok s' /\ 0 <= done <= remaining /\ (rc = 0 /\ done = remaining \/ rc = -1) /\
    writes s s' d (cur * ss s d) (done * ss s d) buf p.
Proof using Type.
  revert p. induction fuel as [|fuel IH]; intros p s cur remaining Hok Hd Hdev Hw Hc Hr Hsum Hfuel; [lia|]. cbn [write_loop].
  destruct (Z.leb_spec remaining 0) as [Hz|Hz].
  { exists 0. split_and!; auto; [lia|lia|left; lia|]. rewrite Z.mul_0_l. apply writes_nil, same_view_refl. }
  destruct (chunk_ok s d cur remaining Hd Hdev ltac:(lia) Hz) as (page & off & k & -> & Hp & Ecur & Ho & Hk & Hle).
  pose proof (write_page_ok s d page off k buf p Hok Hp Hw Ho ltac:(lia) Hle) as Hpage. fold (spp s d).
  destruct (get_page d page (spp s d) (spp s d <=? k) s) as [[i|] s1].
  2: { destruct Hpage as [Hok1 Hv]. exists 0. split_and!; auto; [lia|lia|]. rewrite Z.mul_0_l. by apply writes_nil. }
  match goal with |- context [write_loop fuel _ _ _ _ _ ?x] => change x with (store_chunk d off k p buf i s1) end.
  destruct Hpage as [Hok2 Hwr]. assert (devs s1 = devs s) as Ed1 by (apply (wr_devs _ _ _ _ _ _ _ Hwr)).
  set (s2 := store_chunk d off k p buf i s1) in *. assert (devs s2 = devs s) as Ed2 by (apply Hwr). clearbody s2. fold (ss s1 d). rewrite (ss_devs s s1) by done.
  destruct (spp_range s d Hdev) as [Hn Hns]. pose proof (do_size _ _ Hdev) as Hs. fold (ss s d) in Hs.
  rewrite (wrap_small 64), !(wrap_small 32) by nia. specialize (IH (p + k * ss s d) s2 (cur + k) (remaining - k) Hok2 Hd).
  rewrite Ed2 in IH. specialize (IH Hdev Hw ltac:(lia) ltac:(lia) ltac:(lia) ltac:(lia)).
  destruct (write_loop fuel d (cur + k) (remaining - k) (p + k * ss s d) buf s2) as [rc s3]. destruct IH as (m & Hok3 & Hm & Hrc & Hw3).
  exists (k + m). split_and!; auto; [lia|lia|destruct Hrc as [[? ?]|?]; [left; lia|auto]|].
  rewrite (ss_devs s s2), !Z.mul_add_distr_r in Hw3 by done. rewrite Z.mul_add_distr_r. rewrite <- Ecur in Hwr. apply (writes_app s s2); auto; nia.
Qed.

Lemma read_loop_ok fuel d : forall p buf s cur remaining, bc_ok s -> d <> 0 -> dev_ok d (devs s d) ->
  0 <= cur -> 0 <= remaining < 2 ^ 32 -> cur + remaining < 2 ^ 64 -> (Z.to_nat remaining < fuel)%nat ->
  let '(rc, buf', s') := read_loop fuel d cur remaining p buf s in
  bc_ok s' /\ same_view s s' /\ (rc = 0 \/ rc = -1) /\ (forall x, ~ p <= x < p + remaining * ss s d -> buf' x = buf x) /\
  (rc = 0 -> ~ failed (world s') -> forall j, 0 <= j < remaining * ss s d -> buf' (p + j) = view s d (cur * ss s d + j)).
Proof using Type.
  induction fuel as [|fuel IH]; intros p buf s cur remaining Hok Hd Hdev Hc Hr Hsum Hfuel; [lia|]. cbn [read_loop].
  destruct (Z.leb_spec remaining 0) as [Hz|Hz].
  { replace remaining with 0 by lia. split_and!; auto using same_view_refl. intros; lia. }
  destruct (chunk_ok s d cur remaining Hd Hdev ltac:(lia) Hz) as (page & off & k & -> & Hp & Ecur & Ho & Hk & Hle).
  pose proof (get_page_ok s d page Hok Hp) as Hpage. fold (spp s d).
  destruct (get_page d page (spp s d) false s) as [[i|] s1]; [|destruct Hpage; split_and!; auto; lia].
  destruct Hpage as (Hok1 & Hv1 & Hi & E1 & E2). pose proof (sv_devs _ _ Hv1) as Ed. fold (ss s1 d). rewrite (ss_devs s s1) by done.
  destruct (spp_range s d Hdev) as [Hn Hns]. pose proof (do_size _ _ Hdev) as Hs. fold (ss s d) in Hs.
  rewrite (wrap_small 64), !(wrap_small 32) by nia. set (buf1 := blit buf p _ _ _).
  specialize (IH (p + k * ss s d) buf1 s1 (cur + k) (remaining - k) Hok1 Hd). rewrite Ed in IH. specialize (IH Hdev ltac:(lia) ltac:(lia) ltac:(lia) ltac:(lia)).
  destruct (read_loop fuel d (cur + k) (remaining - k) (p + k * ss s d) buf1 s1) as [[rc buf'] s2].
  destruct IH as (Hok2 & Hv2 & Hrc & Hout & Hin). rewrite (ss_devs s s1) in Hout, Hin by done.
  split_and!; auto; [by apply (same_view_trans s s1)| |].
  - intros x Hx. rewrite Hout by nia. unfold buf1, blit. destruct (Z.leb_spec p x), (Z.ltb_spec x (p + k * ss s d)); cbn [andb]; try done. nia.
  - intros E0 Hf j Hj. assert (~ failed (world s1)) as Hf1 by (intros H1; apply Hf; by apply Hv2).
    destruct (decide (j < k * ss s d)).
    + rewrite Hout by lia. unfold buf1, blit. destruct (Z.leb_spec p (p + j)), (Z.ltb_spec (p + j) (p + k * ss s d)); cbn [andb]; try lia.
      rewrite <- (sv_view _ _ Hv1) by done. pose proof (view_hit s1 i (cur * ss s d + j) Hok1 Hi) as V. rewrite E1, E2, (ss_devs s s1) in V by done.
      rewrite V; [f_equal; nia|done|]. apply (in_page_devs s s1); [done|]. unfold in_page. nia.
    + specialize (Hin E0 Hf (j - k * ss s d) ltac:(nia)). replace (p + k * ss s d + (j - k * ss s d)) with (p + j) in Hin by lia. rewrite Hin.
      rewrite (sv_view _ _ Hv1) by done. f_equal. nia.
Qed.


(** The devices' state may change as long as their contents do not. *)
Lemma world_ok s s' : bc_ok s -> g_bcache s' = g_bcache s -> devs s' = devs s -> ready s' = ready s -> (failed (world s) -> failed (world s')) ->
  (~ failed (world s') -> forall id x, contents (world s') id x = contents (world s) id x) -> bc_ok s' /\ same_view s s'.
Proof using Type.
  intros Hok Eg Ed Er Hmono Hw. split; [split|split]; auto.
  - rewrite Er. apply Hok.
  - intros i Hi. rewrite Eg. intros Hd. rewrite Ed, (spp_devs s) by done. destruct (bo_page s Hok i Hi Hd) as (? & ? & ?). split_and!; auto. by apply (page_at_devs s).
  - rewrite Eg. apply (bo_uniq s Hok).
  - intros i x Hf Hi. rewrite Eg, (ss_devs s), Hw by done. intros Hd Hcl Hx. apply (bo_clean s Hok); auto. by apply (in_page_devs s s').
  - intros Hf id x _. unfold view, hits. rewrite Eg, (ss_devs s), (spp_devs s) by done. destruct (find_index _ _ _); [done|]. by apply Hw.
Qed.

(** What the flush of one entry does. *)
Lemma flush_entry_ok s d i : bc_ok s -> 0 <= i < BCACHE_MAX_PAGES ->
  let s' := flush_entry d i s in
  bc_ok s' /\ same_view s s' /\ (forall j, j <> i -> g_bcache s' j = g_bcache s j) /\
  (dev (g_bcache s' i) <> 0 -> d = 0 \/ dev (g_bcache s' i) = d -> dirty (g_bcache s' i) = false).
Proof using Type.
  intros Hok Hi. cbv zeta. unfold flush_entry. destruct (negb (dev (g_bcache s i) =? 0) && ((d =? 0) || (dev (g_bcache s i) =? d)) && dirty (g_bcache s i)) eqn:E.
  - apply andb_true_iff in E as [E Hdirty]. apply andb_true_iff in E as [Hn _]. apply negb_true_iff, Z.eqb_neq in Hn.
    destruct (write_back_ok s i Hok Hi Hn Hdirty) as (H1 & H2 & ->). split_and!; auto; [intros j Hj; by apply upd_ne|by rewrite upd_eq].
  - split_and!; auto using same_view_refl. intros Hd Hm. destruct (dirty (g_bcache s i)); [|done]. exfalso. apply Z.eqb_neq in Hd. rewrite Hd in E.
    destruct Hm as [->|Hm]; [done|]. rewrite Hm, Z.eqb_refl, orb_true_r in E. done.
Qed.

(** A clean device: the view is what the device holds. *)
Lemma clean_view s d : bc_ok s -> ~ failed (world s) -> d <> 0 ->
  (forall i, 0 <= i < BCACHE_MAX_PAGES -> dev (g_bcache s i) = d -> dirty (g_bcache s i) = false) -> forall x, contents (world s) d x = view s d x.
Proof using Type.
  intros Hok Hf Hd Hcl x. destruct (view_cases s d x) as [(i & Hi & Ei & Hx)|Hm]; [|by rewrite view_miss].
  pose proof (view_hit s i x Hok Hi) as V. rewrite Ei in V. rewrite V by done. symmetry. pose proof (bo_clean s Hok i x Hf Hi) as B. rewrite Ei in B. auto.
Qed.

Lemma flush_loop_ok d s n : bc_ok s -> (n <= Z.to_nat BCACHE_MAX_PAGES)%nat ->
  let s' := for_loop n 0 (flush_entry d) s in
  bc_ok s' /\ same_view s s' /\ forall i, 0 <= i < Z.of_nat n -> dev (g_bcache s' i) <> 0 -> d = 0 \/ dev (g_bcache s' i) = d -> dirty (g_bcache s' i) = false.
Proof using Type.
  intros Hok. cbv zeta. induction n as [|n IH]; intros Hn; [split_and!; auto using same_view_refl; intros; lia|].
  rewrite for_loop_snoc, Z.add_0_l. destruct IH as (I1 & I2 & I3); [lia|]. set (s1 := for_loop n 0 (flush_entry d) s) in *.
  destruct (flush_entry_ok s1 d (Z.of_nat n) I1) as (H1 & H2 & H3 & H4); [lia|]. split_and!; [done|by apply (same_view_trans s s1)|].
  intros i Hi. destruct (decide (i = Z.of_nat n)) as [->|Hne]; [done|]. rewrite H3 by done. apply I3. lia.
Qed.

Lemma flush_ok d s : bc_ok s -> (d <> 0 -> dev_ok d (devs s d)) ->
  let s' := bcache_flush d s in
  bc_ok s' /\ same_view s s' /\
  (~ failed (world s') -> forall id x, id <> 0 -> d = 0 \/ id = d -> contents (world s') id x = view s' id x).
Proof using Type.
  intros Hok Hdev. cbv zeta. unfold bcache_flush. rewrite (bo_ready s Hok). cbn [negb].
  destruct (flush_loop_ok d s (Z.to_nat BCACHE_MAX_PAGES) Hok ltac:(lia)) as (H1 & H2 & H3). set (s1 := for_loop _ _ _ s) in *. clearbody s1.
  change (Z.of_nat (Z.to_nat BCACHE_MAX_PAGES)) with BCACHE_MAX_PAGES in H3.
  set (s2 := if d =? 0 then s1 else _).
  assert (bc_ok s2 /\ same_view s1 s2 /\ g_bcache s2 = g_bcache s1) as (K1 & K2 & K3).
  { unfold s2. destruct (Z.eqb_spec d 0) as [|Hn]; [split_and!; auto using same_view_refl|]. pose proof (sv_devs _ _ H2) as Ed. rewrite Ed.
    destruct (flush (devs s d)) as [f|] eqn:Ef; [|split_and!; auto using same_view_refl]. destruct (f (world s1)) as [rc w] eqn:Efw.
    destruct (do_flush _ _ (Hdev Hn) _ _ _ _ Ef Efw) as [F1 F2].
    set (s3 := s1 <| world := snd (rc, w) |>). assert (bc_ok s3 /\ same_view s1 s3) as [? ?] by (by apply world_ok). by split_and!. }
  clearbody s2. split_and!; [done|by apply (same_view_trans s s1)|]. intros Hf id x Hid Hd. apply clean_view; auto.
  intros i Hi Ei. rewrite K3 in *. apply H3; auto; [congruence|]. destruct Hd; [auto|right; congruence].
Qed.


(** ** Any sequence of operations *)

Inductive bop := Read (d lba n : Z) (buf : buffer) | Write (d lba n : Z) (buf : buffer) | Flush (d : Z).

(** The result of an operation, and for a read the buffer. *)
Definition bstep (o : bop) s : Z * buffer * bcache W :=
  match o with
  | Read d lba n buf =>
      let '(rc, b, s') := bcache_read d lba n (Some buf) s in (rc, match b with Some b => b | None => buf end, s')
  | Write d lba n buf => let '(rc, s') := bcache_write d lba n (Some buf) s in (rc, buf, s')
  | Flush d => (0, fun _ => 0, bcache_flush d s)
  end.

Fixpoint brun (os : list bop) s : list (Z * buffer) * bcache W :=
  match os with
  | [] => ([], s)
  | o :: os' => let '(rc, b, s1) := bstep o s in let '(l, s2) := brun os' s1 in ((rc, b) :: l, s2)
  end.

(** What flat disks [v] with sectors of [z d] bytes would have done: a write that
    reports an error has stored a prefix. *)
Definition flat_step (z : Z -> Z) (o : bop) (rc : Z) (out : buffer) (v v' : Z -> Z -> Z) : Prop :=
  match o with
  | Read d lba n _ =>
      (forall id x, id <> 0 -> v' id x = v id x) /\
      (rc = -1 \/ rc = n /\ forall j, 0 <= j < n * z d -> out j = v d (lba * z d + j))
  | Write d lba n buf =>
      exists m, 0 <= m <= n /\ (rc = -1 \/ rc = n /\ m = n) /\
        forall id x, id <> 0 -> v' id x = written v d (lba * z d) (m * z d) buf 0 id x
  | Flush d => forall id x, id <> 0 -> v' id x = v id x
  end.

Fixpoint flat_run (z : Z -> Z) (os : list bop) (l : list (Z * buffer)) (v v' : Z -> Z -> Z) : Prop :=
  match os, l with
  | [], [] => forall id x, id <> 0 -> v' id x = v id x
  | o :: os', (rc, b) :: l' => exists v1, flat_step z o rc b v v1 /\ flat_run z os' l' v1 v'
  | _, _ => False
  end.

(** Operations on devices with a sound driver, of fewer than 2^31 sectors. *)
Definition valid (t : Z -> block_device_t W) (o : bop) : Prop :=
  match o with
  | Read d lba n _ | Write d lba n _ => d <> 0 /\ dev_ok d (t d) /\ 0 <= lba /\ 0 <= n < 2 ^ 31 /\ lba + n < 2 ^ 64
  | Flush d => d <> 0 -> dev_ok d (t d)
  end.

Lemma bcache_read_ok s d lba n buf : bc_ok s -> valid (devs s) (Read d lba n buf) ->
  let '(rc, b, s') := bstep (Read d lba n buf) s in
  bc_ok s' /\ same_view s s' /\ (~ failed (world s') -> flat_step (ss s) (Read d lba n buf) rc b (view s) (view s')).
Proof using Type.
  intros Hok (Hd & Hdev & Hl & Hn & Hsum). cbn [bstep]. unfold bcache_read. destruct (Z.eqb_spec d 0); [done|]. cbn [orb].
  destruct (read (devs s d)) as [r|] eqn:Er; [|by destruct (do_readable _ _ Hdev)].
  pose proof (read_loop_ok (S (Z.to_nat n)) d 0 buf s lba n Hok Hd Hdev Hl ltac:(lia) Hsum ltac:(lia)) as Hr.
  destruct (read_loop (S (Z.to_nat n)) d lba n 0 buf s) as [[rc b] s']. destruct Hr as (H1 & H2 & Hrc & _ & Hin). split_and!; auto.
  intros Hf. split; [by apply H2|]. destruct Hrc as [->| ->]; [|by left]. right. cbn [Z.ltb Z.compare]. split; [apply swrap_small; lia|].
  intros j Hj. by apply (Hin eq_refl Hf j).
Qed.

Lemma bcache_write_ok s d lba n buf : bc_ok s -> valid (devs s) (Write d lba n buf) ->
  let '(rc, b, s') := bstep (Write d lba n buf) s in
  bc_ok s' /\ devs s' = devs s /\ (failed (world s) -> failed (world s')) /\
  (~ failed (world s') -> flat_step (ss s) (Write d lba n buf) rc b (view s) (view s')).
Proof using Type.
  intros Hok (Hd & Hdev & Hl & Hn & Hsum). cbn [bstep]. unfold bcache_write. destruct (Z.eqb_spec d 0); [done|]. cbn [orb].
  destruct (write (devs s d)) as [w|] eqn:Ew.
  2: { split_and!; auto. intros Hf. exists 0. split_and!; auto; [lia..|]. rewrite Z.mul_0_l.
       apply (writes_nil s s d (lba * ss s d) buf 0 (same_view_refl s)). done. }
  pose proof (write_loop_ok (S (Z.to_nat n)) d 0 buf s lba n Hok Hd Hdev ltac:(by rewrite Ew) Hl ltac:(lia) Hsum ltac:(lia)) as Hw.
  destruct (write_loop (S (Z.to_nat n)) d lba n 0 buf s) as [rc s']. destruct Hw as (m & H1 & Hm & Hrc & [D F V]). split_and!; auto.
  intros Hf. exists m. split_and!; auto; [lia|lia|]. destruct Hrc as [[-> ->]| ->]; [|by left]. right. cbn [Z.ltb Z.compare]. split; [apply swrap_small; lia|done].
Qed.

Lemma bstep_ok o s : bc_ok s -> valid (devs s) o ->
  let '(rc, b, s') := bstep o s in
  bc_ok s' /\ devs s' = devs s /\ (failed (world s) -> failed (world s')) /\
  (~ failed (world s') -> flat_step (ss s) o rc b (view s) (view s')).
Proof using Type.
  intros Hok Hval. destruct o as [d lba n buf|d lba n buf|d].
  - pose proof (bcache_read_ok s d lba n buf Hok Hval) as Hr. destruct (bstep _ s) as [[rc b] s']. destruct Hr as (? & [? ? ?] & ?). by split_and!.
  - by apply bcache_write_ok.
  - destruct (flush_ok d s Hok Hval) as (? & [? ? ?] & _). by split_and!.
Qed.

Lemma brun_ok os : forall s, bc_ok s -> Forall (valid (devs s)) os ->
  let '(l, s') := brun os s in
  bc_ok s' /\ devs s' = devs s /\ (failed (world s) -> failed (world s')) /\
  (~ failed (world s') -> flat_run (ss s) os l (view s) (view s')).
Proof using Type.
  induction os as [|o os IH]; intros s Hok Hval; cbn [brun]; [by split_and!|]. pose proof (Forall_inv Hval) as Ho. pose proof (Forall_inv_tail Hval) as Hos.
  pose proof (bstep_ok o s Hok Ho) as H1. destruct (bstep o s) as [[rc b] s1]. destruct H1 as (Hok1 & Ed1 & F1 & S1).
  specialize (IH s1 Hok1). rewrite Ed1 in IH. specialize (IH Hos). destruct (brun os s1) as [l s2]. destruct IH as (Hok2 & Ed2 & F2 & S2).
  split_and!; [done|congruence|auto|]. intros Hf. exists (view s1). split; [auto|]. specialize (S2 Hf). unfold ss in *. by rewrite Ed1 in S2.
Qed.

Lemma bcache_init_ok s : bc_ok (bcache_init s) /\ forall id x, id <> 0 -> view (bcache_init s) id x = contents (world s) id x.
Proof using Type.
  split; [split; done|]. intros id x Hid. rewrite view_miss; [done|]. by intros i _ E.
Qed.

Lemma flat_run_start z os l v v0 v' : (forall id x, id <> 0 -> v id x = v0 id x) -> flat_run z os l v v' -> Forall (fun o => match o with Read d _ _ _ | Write d _ _ _ => d <> 0 | Flush _ => True end) os ->
  flat_run z os l v0 v'.
Proof using Type.
  intros E. destruct os as [|o os], l as [|[rc b] l]; cbn [flat_run]; try done.
  { intros Hv _ id x Hid. rewrite Hv by done. by apply E. }
  intros (v1 & Hs & Hrun) Hd. apply Forall_inv in Hd. exists v1. split; [|done]. destruct o as [d lba n buf|d lba n buf|d]; cbn [flat_step] in *.
  - destruct Hs as [Hv Hr]. split; [intros id x Hid; rewrite Hv by done; by apply E|]. destruct Hr as [?|[? Hr]]; [by left|right]. split; [done|].
    intros j Hj. rewrite Hr by done. by apply E.
  - destruct Hs as (m & Hm & Hrc & Hv). exists m. split_and!; auto; [lia..|]. intros id x Hid. rewrite Hv by done. unfold written. by rewrite E.
  - intros id x Hid. rewrite Hs by done. by apply E.
Qed.

(** C18: whatever is read, written and flushed through the block cache from its
    initialisation on, on devices of any sector size up to a page, the results are
    those of flat disks that start with the contents of the devices, with an
    error leaving a read without effect and a write with a prefix stored; and
    after a flush a device holds all that was written to it.  This holds as long
    as no driver has lost a write. *)
Theorem bcache_refines_disk s0 os :
  let '(l, s) := brun os (bcache_init s0) in
  Forall (valid (devs s0)) os -> ~ failed (world s) ->
  flat_run (ss s0) os l (contents (world s0)) (view s) /\
  forall d, (d <> 0 -> dev_ok d (devs s0 d)) -> ~ failed (world (bcache_flush d s)) ->
    forall id x, id <> 0 -> d = 0 \/ id = d -> contents (world (bcache_flush d s)) id x = view s id x.
Proof using Type.
  destruct (bcache_init_ok s0) as [Hok0 Hv0]. pose proof (brun_ok os (bcache_init s0) Hok0) as Hrun.
  destruct (brun os (bcache_init s0)) as [l s]. intros Hval Hf. destruct (Hrun Hval) as (Hok & Ed & F & S). split.
  - apply (flat_run_start _ _ _ (view (bcache_init s0))); [|exact (S Hf)|].
    + exact Hv0.
    + eapply Forall_impl; [|exact Hval]. intros [d lba n buf|d lba n buf|d]; cbn; tauto.
  - intros d Hd Hfl id x Hid Hdid. destruct (flush_ok d s Hok) as (_ & V & Hc); [rewrite Ed; exact Hd|]. rewrite Hc by done. by apply V.
Qed.


End claims.

(** ** Disks in memory *)

Module Demo.

Record ramdisk := { rd_bytes : Z -> Z -> Z; rd_lost : bool }.

#[export] Instance ram_disks : Disks ramdisk := { contents := rd_bytes; failed w := rd_lost w = true }.

(** Device [id] of [count] sectors of [z] bytes, which refuses sectors past its end. *)
Definition ram (id count z : Z) : block_device_t ramdisk := {|
  name := [114; 97; 109]; kind := BLOCK_DEVICE_RAM; sector_count := count; sector_size := z; read_only := false; driver_data := 0;
  read := Some (fun lba n b w =>
    if (0 <=? lba) && (lba + n <=? count) then (n, blit b 0 (fun i => rd_bytes w id (lba * z + i)) 0 (n * z), w) else (-1, b, w));
  write := Some (fun lba n b w =>
    if (0 <=? lba) && (lba + n <=? count)
    then (n, {| rd_bytes := (rd_bytes w).[id <- blit (rd_bytes w id) (lba * z) b 0 (n * z)]; rd_lost := rd_lost w |})
    else (-1, {| rd_bytes := rd_bytes w; rd_lost := true |}));
  flush := None
|}.

Lemma ram_ok id count z : 0 < z <= 4096 -> dev_ok id (ram id count z).
Proof.
  intros Hz. split; [done|done|..].
  - intros r lba n b w rc b' w' [= <-]. destruct (_ && _); intros [= <- <- <-]; (split; [done|]); intros _; (split; [done|]); [|lia].
    intros _ i Hi. cbn in Hi |- *. unfold blit. destruct (Z.leb_spec 0 i), (Z.ltb_spec i (0 + n * z)); cbn [andb]; [|lia..]. f_equal. lia.
  - intros f lba n b w rc w' [= <-]. destruct (_ && _); intros [= <- <-]; (split; [done|]); intros Hf; [|by destruct Hf].
    intros i x. cbn. destruct (Z.eqb_spec i id) as [->|Hn]; [rewrite upd_eq|by rewrite upd_ne]. unfold blit. cbn [andb].
    destruct (Z.leb_spec (lba * z) x), (Z.ltb_spec x (lba * z + n * z)), (Z.ltb_spec x ((lba + n) * z)); cbn [andb]; try done; try lia. f_equal. lia.
  - done.
Qed.

(** Device 1 has 64 sectors of 512 bytes, byte [x] holding [x mod 251]. *)
Definition start (d : block_device_t ramdisk) : bcache ramdisk := {|
  g_bcache := fun _ => zero_entry; ready := false; g_bcache_ticks := 0; devs := fun _ => d;
  world := {| rd_bytes := fun _ x => x mod 251; rd_lost := false |} |}.

Definition ones : buffer := fun _ => 1.
Definition ops : list bop := [Read 1 7 2 (fun _ => 0); Write 1 7 2 ones; Read 1 7 3 (fun _ => 0)].

Lemma ops_valid : Forall (valid (devs (start (ram 1 64 512)))) ops.
Proof.
  assert (dev_ok 1 (ram 1 64 512)) as Hd by (apply ram_ok; lia).
  apply List.Forall_forall. intros o [<-|[<-|[<-|[]]]]; cbn; split_and!; (done || lia).
Qed.

(** A write across a page boundary is seen by the next read. *)
Lemma bcache_refines_disk_witness :
  let '(l, s) := brun ops (bcache_init (start (ram 1 64 512))) in
  map fst l = [2; 2; 3] /\ view s 1 (9 * 512) = 9 * 512 mod 251 /\ view s 1 (8 * 512) = 1.
Proof.
  pose proof (bcache_refines_disk (start (ram 1 64 512)) ops) as T.
  assert (map fst (fst (brun ops (bcache_init (start (ram 1 64 512))))) = [2; 2; 3]) as E by (vm_compute; reflexivity).
  assert (rd_lost (world (snd (brun ops (bcache_init (start (ram 1 64 512)))))) = false) as El by (vm_compute; reflexivity).
  destruct (brun ops (bcache_init (start (ram 1 64 512)))) as [l s]. cbn [fst snd] in *. split; [exact E|].
  destruct T as [T _]; [exact ops_valid|cbn; by rewrite El|].
  destruct l as [|[r1 b1] [|[r2 b2] [|[r3 b3] [|]]]]; try discriminate E. cbn in E. injection E as -> -> ->.
  destruct T as (v1 & [T1 _] & v2 & (m & Hm & [?|[_ ->]] & T2) & v3 & [T3 _] & T4); [lia|].
  assert (ss (start (ram 1 64 512)) 1 = 512) as Ez by reflexivity. rewrite Ez in *. rewrite !T4, !T3, !T2 by lia. unfold written. cbn [Z.eqb Pos.eqb andb].
  split; [cbn [Z.leb Z.ltb]; rewrite T1 by lia; reflexivity|reflexivity].
Defined.

(** A device whose size is not a multiple of the page cannot be read to its end
    through the cache, although the device itself can. *)
Example last_sectors_unreadable :
  let d := ram 1 10 512 in
  let '(rc, _, _) := bcache_read 1 9 1 (Some ones) (bcache_init (start d)) in
  rc = -1 /\ match read d with Some r => fst (fst (r 9 1 ones (world (start d)))) | None => -1 end = 1.
Proof. vm_compute. split; reflexivity. Qed.

(** A device that cannot write: the write through the cache succeeds, the flush
    drops the error, and the page counts as clean. *)
Definition broken : block_device_t ramdisk :=
  (ram 1 64 512) <| write := Some (fun _ _ _ w => (-1, {| rd_bytes := rd_bytes w; rd_lost := true |})) |>.

Example write_error_lost :
  let '(rc, s) := bcache_write 1 8 8 (Some ones) (bcache_init (start broken)) in
  let s' := bcache_flush 1 s in
  rc = 8 /\ dirty (g_bcache s' 0) = false /\ rd_bytes (world s') 1 4096 = 4096 mod 251.
Proof. vm_compute. split_and!; reflexivity. Qed.

(** Sectors larger than a page are stored past the end of the page array. *)
Example large_sector_overflows :
  let '(_, _, s) := bcache_read 1 1 1 (Some ones) (bcache_init (start (ram 1 64 8192))) in
  data (g_bcache s 0) 5000 = (8192 + 5000) mod 251.
Proof. vm_compute. reflexivity. Qed.

End Demo.


End BcacheClaims.
