(* ===== verification/Fat32.v ===== *)
(** * FAT32 (src/src/fs/fat32.c, fat32.h)

    The driver over a store of sectors, which the block cache implements.  Loops
    along cluster chains have fuel: a chain on disk can be a cycle.  None is a
    call that did not return within its fuel.  Buffers from kmalloc start as
    [junk]; a C string is the list of its bytes. *)

From S2P Require Import Prelude Mem Block.
Import Mem Block.

(** Sectors of devices, read and written through some state [T]. *)
Class Store (T : Type) := {
  st_read : Z -> Z -> Z -> buffer -> T -> Z * buffer * T;
  st_write : Z -> Z -> Z -> buffer -> T -> Z * T;
  (* the device's own read function, if there is one *)
  st_raw : Z -> option (Z -> Z -> buffer -> T -> Z * buffer * T)
}.

Module Fat32.

Definition FAT_ATTR_VOLUME_ID : Z := 0x08.
Definition FAT_ATTR_DIRECTORY : Z := 0x10.
Definition FAT_ATTR_ARCHIVE : Z := 0x20.
Definition FAT_ATTR_LFN : Z := 0x0F.
Definition FAT32_EOC : Z := 0x0FFFFFF8.
Definition FAT32_FREE : Z := 0.
Definition FAT32_MASK : Z := 0x0FFFFFFF.
Definition SIZEOF_DIRENT : Z := 32.

Record fat32_vol_t := {
  dev : Z; start_lba : Z; bytes_per_sector : Z; sectors_per_cluster : Z; bytes_per_cluster : Z; reserved_sectors : Z;
  num_fats : Z; fat_size : Z; root_cluster : Z; data_start : Z; total_clusters : Z; mounted : bool }.
#[export] Instance eta_vol : Eta fat32_vol_t :=
  fun r => Build_fat32_vol_t (dev r) (start_lba r) (bytes_per_sector r) (sectors_per_cluster r) (bytes_per_cluster r)
    (reserved_sectors r) (num_fats r) (fat_size r) (root_cluster r) (data_start r) (total_clusters r) (mounted r).

(** The fields of a directory entry the driver uses. *)
Record fat32_dirent_t := { name : list Z; attr : Z; first_cluster_hi : Z; first_cluster_lo : Z; file_size : Z }.

Record fat32_fileinfo_t := { fi_first_cluster : Z; fi_file_size : Z; fi_is_dir : bool; fi_name : list Z }.

(** The entry at [off] of a buffer. *)
Definition get_dirent (b : buffer) (off : Z) : fat32_dirent_t :=
  {| name := map (fun i => b (off + i)) (seqZ 0 11); attr := b (off + 11);
     first_cluster_hi := load 2 (off + 20) b; first_cluster_lo := load 2 (off + 26) b; file_size := load 4 (off + 28) b |}.

Definition de_cluster (de : fat32_dirent_t) : Z := Z.lor (Z.shiftl (first_cluster_hi de) 16) (first_cluster_lo de).

Definition set_cluster (off c : Z) (b : buffer) : buffer :=
  store 2 (off + 20) (u16 (Z.shiftr c 16)) (store 2 (off + 26) (u16 (Z.land c 0xFFFF)) b).
Definition set_size (off size : Z) (b : buffer) : buffer := store 4 (off + 28) (u32 size) b.
Definition set_name (off : Z) (nm : list Z) (b : buffer) : buffer :=
  fun a => if (off <=? a) && (a <? off + 11) then nth (Z.to_nat (a - off)) nm 0 else b a.
Definition set_attr (off x : Z) (b : buffer) : buffer := b.[off + 11 <- x].

(** ** Names *)

Definition lower (c : Z) : Z := if (65 <=? c) && (c <=? 90) then c + 32 else c.
Definition upper (c : Z) : Z := if (97 <=? c) && (c <=? 122) then c - 32 else c.

(** The bytes of [l] before the first that satisfies [p], and the rest. *)
Fixpoint span (p : Z -> bool) (l : list Z) : list Z :=
  match l with [] => [] | c :: l' => if p c then [] else c :: span p l' end.

Definition cstr : list Z -> list Z := span (Z.eqb 0).

Definition dirent_to_name (de : fat32_dirent_t) : list Z :=
  let base := map lower (span (Z.eqb 32) (take 8 (name de))) in
  if nth 8 (name de) 0 =? 32 then base else base ++ [46] ++ map lower (span (Z.eqb 32) (drop 8 (name de))).

Definition pad (n : nat) (l : list Z) : list Z := l ++ repeat 32 (n - length l).

Definition name_to_83 (nm : list Z) : list Z :=
  let base := take 8 (span (Z.eqb 46) nm) in
  match drop (length base) nm with
  | 46 :: ext => pad 8 (map upper base) ++ pad 3 (map upper (take 3 ext))
  | _ => pad 11 (map upper base)
  end.

Definition is_end (de : fat32_dirent_t) : bool := nth 0 (name de) 0 =? 0.
Definition is_deleted (de : fat32_dirent_t) : bool := nth 0 (name de) 0 =? 0xE5.

(** Does the entry have that name? *)
Definition names_match (nm : list Z) (de : fat32_dirent_t) : bool :=
  bool_decide (name de = name_to_83 nm) || bool_decide (cstr (dirent_to_name de) = map lower nm).

Inductive scan := ScanEnd | ScanHit (i : Z) | ScanNone.

(** The loop over the entries of a directory cluster. *)
Fixpoint scan_entries (n : nat) (i : Z) (base : buffer) (nm : list Z) : scan :=
  match n with
  | O => ScanNone
  | S n' =>
      let de := get_dirent base (i * SIZEOF_DIRENT) in
      if is_end de then ScanEnd
      else if is_deleted de || (attr de =? FAT_ATTR_LFN) then scan_entries n' (i + 1) base nm
      else if names_match nm de then ScanHit i
      else scan_entries n' (i + 1) base nm
  end.

(** Index of the last '/', 0 if there is none. *)
Definition last_slash (path : list Z) : nat :=
  snd (fold_left (fun '(i, r) c => (S i, if c =? 47 then i else r)) path (0%nat, 0%nat)).

(** ** Computations over the store *)

Definition M (T A : Type) : Type := T -> option (A * T).
#[export] Instance M_ret {T} : MRet (M T) := fun A a s => Some (a, s).
#[export] Instance M_bind {T} : MBind (M T) := fun A B k e s => match e s with Some (a, s') => k a s' | None => None end.
Definition out_of_fuel {T A} : M T A := fun _ => None.

Section ops.
Context {T : Type} `{Store T}.
Variable junk : buffer.
(** What follows an array of 128 characters on the stack, up to a NUL. *)
Variable stack : list Z.
Implicit Types v : fat32_vol_t.

Definition bread (d lba n : Z) (b : buffer) : M T buffer := fun s => let '(_, b', s') := st_read d lba n b s in Some (b', s').
Definition bwrite (d lba n : Z) (b : buffer) : M T unit := fun s => let '(_, s') := st_write d lba n b s in Some (tt, s').

Definition cluster_to_sector v (cluster : Z) : Z := u32 (data_start v + u32 (cluster - 2) * sectors_per_cluster v).

Definition cluster_read v (cluster : Z) : M T buffer :=
  bread (dev v) (u64 (start_lba v + cluster_to_sector v cluster)) (sectors_per_cluster v) junk.

Definition cluster_write v (cluster : Z) (b : buffer) : M T unit :=
  bwrite (dev v) (u64 (start_lba v + cluster_to_sector v cluster)) (sectors_per_cluster v) b.

Definition fat_sector v (cluster : Z) : Z := u32 (reserved_sectors v + u32 (cluster * 4) / bytes_per_sector v).
Definition fat_offset v (cluster : Z) : Z := u32 (cluster * 4) mod bytes_per_sector v.

Definition fat_entry v (cluster : Z) : M T Z :=
  b ← bread (dev v) (u64 (start_lba v + fat_sector v cluster)) 1 junk;
  mret (Z.land (load 4 (fat_offset v cluster) b) FAT32_MASK).

(** [*fat] with the upper four bits kept. *)
Definition merge_entry (off value : Z) (b : buffer) : buffer :=
  store 4 off (Z.lor (Z.land (load 4 off b) 0xF0000000) (Z.land value FAT32_MASK)) b.

Definition fat_set_entry v (cluster value : Z) : M T unit :=
  let lba := u64 (start_lba v + fat_sector v cluster) in
  let off := fat_offset v cluster in
  b ← bread (dev v) lba 1 junk;
  let b := merge_entry off value b in
  _ ← bwrite (dev v) lba 1 b;
  if 2 <=? num_fats v then
    let lba := u64 (start_lba v + fat_sector v cluster + fat_size v) in
    b ← bread (dev v) lba 1 b;
    bwrite (dev v) lba 1 (merge_entry off value b)
  else mret tt.

Fixpoint alloc_loop (n : nat) v (c : Z) : M T Z :=
  match n with
  | O => mret 0
  | S n' =>
      e ← fat_entry v c;
      if e =? FAT32_FREE then
        _ ← fat_set_entry v c FAT32_EOC;
        _ ← cluster_write v c (blit junk 0 (fun _ => 0) 0 (bytes_per_cluster v));
        mret c
      else alloc_loop n' v (c + 1)
  end.

Definition alloc_cluster v : M T Z := alloc_loop (Z.to_nat (u32 (total_clusters v + 2) - 2)) v 2.

Definition chain_extend v (last : Z) : M T Z :=
  c ← alloc_cluster v;
  if c =? 0 then mret c else (_ ← fat_set_entry v last c; mret c).

(** [cluster < FAT32_EOC && cluster >= 2]. *)
Definition in_chain (c : Z) : bool := (c <? FAT32_EOC) && (2 <=? c).

Fixpoint free_chain (fuel : nat) v (cluster : Z) : M T unit :=
  match fuel with
  | O => out_of_fuel
  | S fuel' =>
      if in_chain cluster then
        next ← fat_entry v cluster;
        _ ← fat_set_entry v cluster FAT32_FREE;
        free_chain fuel' v next
      else mret tt
  end.

Definition entries v : nat := Z.to_nat (bytes_per_cluster v / SIZEOF_DIRENT).

(** The entry with its cluster and its offset there. *)
Fixpoint find_in_dir (fuel : nat) v (cluster : Z) (nm : list Z) : M T (option (fat32_dirent_t * Z * Z)) :=
  match fuel with
  | O => out_of_fuel
  | S fuel' =>
      if in_chain cluster then
        base ← cluster_read v cluster;
        match scan_entries (entries v) 0 base nm with
        | ScanEnd => mret None
        | ScanHit i => mret (Some (get_dirent base (i * SIZEOF_DIRENT), cluster, i * SIZEOF_DIRENT))
        | ScanNone => next ← fat_entry v cluster; find_in_dir fuel' v next nm
        end
      else mret None
  end.

Definition root_dirent v : fat32_dirent_t :=
  {| name := repeat 0 11; attr := FAT_ATTR_DIRECTORY; first_cluster_lo := u16 (Z.land (root_cluster v) 0xFFFF);
     first_cluster_hi := u16 (Z.shiftr (root_cluster v) 16); file_size := 0 |}.

Definition skip_slash (p : list Z) : list Z := match p with 47 :: p' => p' | _ => p end.

(** [n] is enough when it exceeds the length of [p]: every round consumes some of it. *)
Fixpoint walk (n fuel : nat) v (p : list Z) (de : fat32_dirent_t) : M T (option fat32_dirent_t) :=
  match n with
  | O => out_of_fuel
  | S n' =>
      match p with
      | [] => mret (Some de)
      | _ =>
          let comp := take 127 (span (Z.eqb 47) p) in
          let rest := skip_slash (drop (length comp) p) in
          match comp with
          | [] => walk n' fuel v rest de
          | _ =>
              r ← find_in_dir fuel v (de_cluster de) comp;
              match r with None => mret None | Some (de', _, _) => walk n' fuel v rest de' end
          end
      end
  end.

Definition resolve_path (fuel : nat) v (path : list Z) : M T (option fat32_dirent_t) :=
  match path with
  | 47 :: p => walk (S (length p)) fuel v p (root_dirent v)
  | _ => mret None
  end.

(** ** Mounting and files *)

(** The fields of the boot sector; None when the mount is refused. *)
Definition fat32_mount (d lba : Z) : M T (option fat32_vol_t) :=
  match st_raw d with
  | None => mret None
  | Some rd => fun s =>
      if d =? 0 then Some (None, s)
      else
        let '(rc, b, s) := rd lba 1 junk s in
        if rc <? 0 then Some (None, s)
        else
          let bps := load 2 11 b in
          let spc := load 1 13 b in
          if (bps =? 0) || (spc =? 0) then Some (None, s)
          else if negb (bool_decide (map (fun i => b (82 + i)) (seqZ 0 8) = [70; 65; 84; 51; 50; 32; 32; 32])) then Some (None, s)
          else
            let ds := u32 (load 2 14 b + load 1 16 b * load 4 36 b) in
            Some (Some {| dev := d; start_lba := lba; bytes_per_sector := bps; sectors_per_cluster := spc; bytes_per_cluster := u32 (bps * spc);
                          reserved_sectors := load 2 14 b; num_fats := load 1 16 b; fat_size := load 4 36 b; root_cluster := load 4 44 b;
                          data_start := ds; total_clusters := u32 (load 4 32 b - ds) / spc; mounted := true |}, s)
  end.

Definition fat32_unmount v : fat32_vol_t := v <| mounted := false |>.

Definition fat32_lookup (fuel : nat) v (path : list Z) : M T (option fat32_fileinfo_t) :=
  if negb (mounted v) then mret None
  else
    r ← resolve_path fuel v path;
    match r with
    | None => mret None
    | Some de => mret (Some {| fi_first_cluster := de_cluster de; fi_file_size := file_size de; fi_is_dir := has (attr de) FAT_ATTR_DIRECTORY;
                               fi_name := take 255 path |})
    end.

Fixpoint read_chain (fuel : nat) v (cluster remaining copied : Z) (buf : buffer) (buf_size : Z) : M T (Z * buffer) :=
  match fuel with
  | O => out_of_fuel
  | S fuel' =>
      if in_chain cluster && (0 <? remaining) then
        src ← cluster_read v cluster;
        let cnt := if remaining <? bytes_per_cluster v then remaining else bytes_per_cluster v in
        let cnt := if buf_size <? u64 (copied + cnt) then u32 (buf_size - copied) else cnt in
        let buf := blit buf copied src 0 cnt in
        next ← fat_entry v cluster;
        read_chain fuel' v next (u32 (remaining - cnt)) (u64 (copied + cnt)) buf buf_size
      else mret (copied, buf)
  end.

Definition fat32_read_file (fuel : nat) v (path : list Z) (buf : option buffer) (buf_size : Z) : M T (Z * option buffer) :=
  match buf with
  | None => mret (-1, None)
  | Some b =>
      if negb (mounted v) then mret (-1, buf)
      else
        r ← resolve_path fuel v path;
        match r with
        | None => mret (-1, buf)
        | Some de =>
            if has (attr de) FAT_ATTR_DIRECTORY then mret (-1, buf)
            else '(n, b) ← read_chain fuel v (de_cluster de) (file_size de) 0 b buf_size; mret (i64 n, Some b)
        end
  end.

(** The parent directory of a path and the name in it; [lim] bounds the length of
    the parent, [rest] is what follows a name that fills its array. *)
Definition split_path (lim : nat) (rest : list Z) (path : list Z) : list Z * list Z :=
  let copy l := if (length l <? 127)%nat then l else take 127 l ++ rest in
  match last_slash path with
  | O => ([47], copy (tail path))
  | pl => (take (if (lim <=? pl)%nat then lim - 1 else pl) path, copy (drop (S pl) path))
  end.

(** The clusters of the data, with the first of them; None when the disk is full. *)
Fixpoint write_data (fuel : nat) v (src : buffer) (p rem first prev : Z) : M T (option Z) :=
  match fuel with
  | O => out_of_fuel
  | S fuel' =>
      if rem <=? 0 then mret (Some first)
      else
        c ← alloc_cluster v;
        if c =? 0 then mret None
        else
          let first := if first =? 0 then c else first in
          _ ← (if prev =? 0 then mret tt else fat_set_entry v prev c);
          dst ← cluster_read v c;
          let cnt := if rem <? bytes_per_cluster v then u32 rem else bytes_per_cluster v in
          _ ← cluster_write v c (blit dst 0 src p cnt);
          write_data fuel' v src (p + cnt) (u64 (rem - cnt)) first c
  end.

(** The first slot of a directory cluster that is free or deleted. *)
Definition free_slot v (base : buffer) : option Z :=
  find_index (entries v) 0 (fun i => (base (i * SIZEOF_DIRENT) =? 0) || (base (i * SIZEOF_DIRENT) =? 0xE5)).

Fixpoint place_file (fuel : nat) v (c : Z) (nm83 : list Z) (first size : Z) : M T bool :=
  match fuel with
  | O => out_of_fuel
  | S fuel' =>
      if in_chain c then
        base ← cluster_read v c;
        match free_slot v base with
        | Some i =>
            let off := i * SIZEOF_DIRENT in
            _ ← cluster_write v c (set_size off size (set_cluster off first (set_attr off FAT_ATTR_ARCHIVE (set_name off nm83 base))));
            mret true
        | None =>
            nx ← fat_entry v c;
            nx' ← (if FAT32_EOC <=? nx then chain_extend v c else mret nx);
            if (FAT32_EOC <=? nx) && (nx' =? 0) then mret false else place_file fuel' v nx' nm83 first size
        end
      else mret true
  end.

Definition fat32_write_file (fuel : nat) v (path : list Z) (data : option buffer) (size : Z) : M T Z :=
  match data with
  | None => mret (-1)
  | Some src =>
      if negb (mounted v) then mret (-1)
      else
        let '(parent, fname) := split_path 255 stack path in
        r ← resolve_path fuel v parent;
        match r with
        | None => mret (-1)
        | Some pde =>
            found ← find_in_dir fuel v (de_cluster pde) fname;
            _ ← match found with Some (de, _, _) => free_chain fuel v (de_cluster de) | None => mret tt end;
            w ← write_data fuel v src 0 size 0 0;
            match w with
            | None => mret (-1)
            | Some first =>
                match found with
                | Some (_, dir_cl, dir_off) =>
                    cbuf ← cluster_read v dir_cl;
                    _ ← cluster_write v dir_cl (set_size dir_off size (set_cluster dir_off first cbuf));
                    mret (i64 size)
                | None =>
                    ok ← place_file fuel v (de_cluster pde) (name_to_83 fname) first size;
                    mret (if ok : bool then i64 size else -1)
                end
            end
        end
  end.


Definition fat32_unlink (fuel : nat) v (path : option (list Z)) : M T bool :=
  match path with
  | None => mret false
  | Some path =>
      if negb (mounted v) || bool_decide (path = [47]) then mret false
      else
        let '(parent, fname) := split_path 256 [] path in
        match fname with
        | [] => mret false
        | _ =>
            r ← resolve_path fuel v parent;
            match r with
            | None => mret false
            | Some pde =>
                found ← find_in_dir fuel v (de_cluster pde) fname;
                match found with
                | None => mret false
                | Some (de, dir_cl, dir_off) =>
                    if has (attr de) FAT_ATTR_DIRECTORY then mret false
                    else
                      _ ← free_chain fuel v (de_cluster de);
                      cbuf ← cluster_read v dir_cl;
                      _ ← cluster_write v dir_cl (cbuf.[dir_off <- 0xE5]);
                      mret true
                end
            end
        end
  end.

Definition file_info (de : fat32_dirent_t) : fat32_fileinfo_t :=
  {| fi_first_cluster := de_cluster de; fi_file_size := file_size de; fi_is_dir := has (attr de) FAT_ATTR_DIRECTORY; fi_name := dirent_to_name de |}.

(** The entries of one cluster to list, at most [room], and whether the end of
    the directory was met. *)
Fixpoint list_entries (n : nat) (i : Z) (base : buffer) (room : Z) : list fat32_fileinfo_t * bool :=
  match n with
  | O => ([], false)
  | S n' =>
      if room <=? 0 then ([], false)
      else
        let de := get_dirent base (i * SIZEOF_DIRENT) in
        if is_end de then ([], true)
        else if is_deleted de || (attr de =? FAT_ATTR_LFN) || has (attr de) FAT_ATTR_VOLUME_ID || (nth 0 (name de) 0 =? 46)
        then list_entries n' (i + 1) base room
        else let '(l, e) := list_entries n' (i + 1) base (room - 1) in (file_info de :: l, e)
  end.

Fixpoint list_chain (fuel : nat) v (cluster room : Z) : M T (list fat32_fileinfo_t) :=
  match fuel with
  | O => out_of_fuel
  | S fuel' =>
      if in_chain cluster && (0 <? room) then
        base ← cluster_read v cluster;
        let '(l, stop) := list_entries (entries v) 0 base room in
        if stop : bool then mret l
        else
          next ← fat_entry v cluster;
          l' ← list_chain fuel' v next (room - Z.of_nat (length l));
          mret (l ++ l')
      else mret []
  end.

(** The entries stored in [out]; None is an error. *)
Definition fat32_readdir (fuel : nat) v (path : list Z) (max_entries : Z) : M T (option (list fat32_fileinfo_t)) :=
  if negb (mounted v) then mret None
  else
    r ← resolve_path fuel v path;
    match r with
    | None => mret None
    | Some de =>
        if negb (has (attr de) FAT_ATTR_DIRECTORY) then mret None
        else l ← list_chain fuel v (de_cluster de) max_entries; mret (Some l)
    end.

Fixpoint place_dir (fuel : nat) v (c : Z) (nm83 : list Z) (cluster : Z) : M T bool :=
  match fuel with
  | O => out_of_fuel
  | S fuel' =>
      if in_chain c then
        base ← cluster_read v c;
        match free_slot v base with
        | Some i =>
            let off := i * SIZEOF_DIRENT in
            _ ← cluster_write v c (set_cluster off cluster (set_attr off FAT_ATTR_DIRECTORY (set_name off nm83 base)));
            mret true
        | None => nx ← fat_entry v c; place_dir fuel' v nx nm83 cluster
        end
      else mret false
  end.

(** The entries "." and ".." of a new directory. *)
Definition dot_entries (cluster parent : Z) (b : buffer) : buffer :=
  let b := blit b 0 (fun _ => 32) 0 (2 * SIZEOF_DIRENT) in
  let b := set_cluster 0 cluster (set_attr 0 FAT_ATTR_DIRECTORY (b.[0 <- 46])) in
  set_cluster 32 parent (set_attr 32 FAT_ATTR_DIRECTORY (b.[32 <- 46].[33 <- 46])).

Definition fat32_mkdir (fuel : nat) v (path : list Z) : M T bool :=
  if negb (mounted v) then mret false
  else
    let '(parent, dname) := split_path 255 stack path in
    r ← resolve_path fuel v parent;
    match r with
    | None => mret false
    | Some pde =>
        c ← alloc_cluster v;
        if c =? 0 then mret false
        else
          b ← cluster_read v c;
          _ ← cluster_write v c (dot_entries c (de_cluster pde) b);
          place_dir fuel v (de_cluster pde) (name_to_83 dname) c
    end.


End ops.
End Fat32.
