(* ===== verification/FatProps.v ===== *)
(** * FAT32 volumes as a table and clusters

    [abs s F D] says that the store holds a volume whose file allocation table is
    [F], in both copies, and whose cluster [c] holds the bytes [D c].  The lemmas
    say what the operations of the driver do to [F] and [D]; [wp e s Q] says that
    [e] returns from [s], and does so with [Q]. *)

From S2P Require Import Prelude Mem Block Fat32.
Import Mem Block Fat32.

(** Sectors that can be read and written without errors. *)
Class StoreLaws (T : Type) `{Store T} := {
  st_ok : T -> Prop;
  st_view : T -> Z -> Z -> Z;
  st_ss : Z -> Z;
  st_size : Z -> Z;
  st_read_law s d lba n b rc b' s' : st_ok s -> d <> 0 -> 0 <= lba -> 0 < n < 2 ^ 31 -> lba + n <= st_size d ->
    st_read d lba n b s = (rc, b', s') ->
    st_ok s' /\ (forall x, st_view s' d x = st_view s d x) /\ forall j, 0 <= j < n * st_ss d -> b' j = st_view s d (lba * st_ss d + j);
  st_write_law s d lba n b rc s' : st_ok s -> d <> 0 -> 0 <= lba -> 0 < n < 2 ^ 31 -> lba + n <= st_size d ->
    st_write d lba n b s = (rc, s') ->
    st_ok s' /\ forall x, st_view s' d x =
      if (lba * st_ss d <=? x) && (x <? (lba + n) * st_ss d) then b (x - lba * st_ss d) else st_view s d x
}.

Module FatProps.

(** ** Total correctness *)

Definition wp {T A} (e : M T A) (s : T) (Q : A -> T -> Prop) : Prop := exists a s', e s = Some (a, s') /\ Q a s'.

Lemma wp_ret {T A} (a : A) (s : T) Q : Q a s -> wp (mret a) s Q.
Proof. intros HQ. by exists a, s. Qed.

Lemma wp_bind {T A B} (e : M T A) (k : A -> M T B) s Q : wp e s (fun a s' => wp (k a) s' Q) -> wp (e ≫= k) s Q.
Proof.
  intros (a & s' & E & b & s'' & E' & HQ). exists b, s''. split; [|done].
  change (match e s with Some (a, s') => k a s' | None => None end = Some (b, s'')). by rewrite E.
Qed.

Lemma wp_mono {T A} (e : M T A) s (Q Q' : A -> T -> Prop) : (forall a s', Q a s' -> Q' a s') -> wp e s Q -> wp e s Q'.
Proof. intros HQ (a & s' & E & H). exists a, s'. auto. Qed.

(** A step whose effect a lemma describes. *)
Lemma wp_use {T A B} (e : M T A) (k : A -> M T B) s (P : A -> T -> Prop) Q :
  wp e s P -> (forall a s', P a s' -> wp (k a) s' Q) -> wp (e ≫= k) s Q.
Proof. intros He Hk. apply wp_bind. by apply (wp_mono _ _ P). Qed.

Lemma wp_assoc {T A B C} (e : M T A) (k : A -> M T B) (h : B -> M T C) s Q :
  wp ((e ≫= k) ≫= h) s Q -> wp (e ≫= (fun a => k a ≫= h)) s Q.
Proof.
  intros (c & s' & E & HQ). exists c, s'. split; [|done]. rewrite <- E. unfold mbind, M_bind. by destruct (e s) as [[a s1]|].
Qed.

(** ** Bytes at an offset *)

Lemma load_shift n off a (b m : mem) : (forall j, 0 <= j < Z.of_nat n -> b (off + j) = m (a + j)) -> load n off b = load n a m.
Proof.
  revert off a. induction n as [|n IH]; intros off a Hb; cbn [load]; [done|].
  pose proof (Hb 0 ltac:(lia)) as H0. rewrite !Z.add_0_r in H0. rewrite H0. rewrite (IH (off + 1) (a + 1)); [done|].
  intros j Hj. specialize (Hb (1 + j) ltac:(lia)). by rewrite !Z.add_assoc in Hb.
Qed.

Lemma store_shift n off a (b m : mem) v j : b (off + j) = m (a + j) ->
  store n off v b (off + j) = store n a v m (a + j).
Proof.
  revert off a v b m j. induction n as [|n IH]; intros off a v b m j Hb; cbn [store]; [done|].
  replace (off + j) with (off + 1 + (j - 1)) by lia. replace (a + j) with (a + 1 + (j - 1)) by lia. apply IH.
  replace (off + 1 + (j - 1)) with (off + j) by lia. replace (a + 1 + (j - 1)) with (a + j) by lia.
  destruct (decide (j = 0)) as [->|]; [by rewrite !Z.add_0_r, !upd_eq|]. rewrite !upd_ne by lia. done.
Qed.

Lemma store_ext n a v m m' x : m x = m' x -> store n a v m x = store n a v m' x.
Proof. intros E. pose proof (store_shift n a a m m' v (x - a)) as S. replace (a + (x - a)) with x in S by lia. by apply S. Qed.

(** ** Volumes *)

(** The geometry a mount of a sound volume gives. *)
Record vol_ok {T} `{StoreLaws T} (v : fat32_vol_t) : Prop := {
  vo_dev : dev v <> 0;
  vo_bps : bytes_per_sector v = st_ss (dev v);
  vo_bps4 : 4 <= bytes_per_sector v /\ bytes_per_sector v mod 4 = 0;
  vo_spc : 0 < sectors_per_cluster v < 2 ^ 31;
  vo_bpc : bytes_per_cluster v = bytes_per_sector v * sectors_per_cluster v /\ bytes_per_cluster v < 2 ^ 32;
  vo_res : 0 <= reserved_sectors v;
  vo_fats : 1 <= num_fats v;
  vo_fat : 0 <= fat_size v /\ 4 * (total_clusters v + 2) <= fat_size v * bytes_per_sector v;
  vo_data : data_start v = reserved_sectors v + num_fats v * fat_size v;
  vo_clusters : 0 <= total_clusters v /\ total_clusters v + 2 <= 0x0FFFFFF7;
  vo_u32 : data_start v + total_clusters v * sectors_per_cluster v < 2 ^ 32;
  vo_lba : 0 <= start_lba v /\ start_lba v + data_start v + total_clusters v * sectors_per_cluster v <= st_size (dev v);
  vo_u64 : st_size (dev v) < 2 ^ 64;
  vo_mounted : mounted v = true
}.

Section vol.
Context {T : Type} `{HSL : StoreLaws T}.
Variable junk : buffer.
Variable v : fat32_vol_t.
Hypothesis Hv : vol_ok v.
Implicit Types (s : T) (F : Z -> Z) (D : Z -> Z -> Z).

#[local] Notation bps := (bytes_per_sector v).
#[local] Notation bpc := (bytes_per_cluster v).

Definition vw s : mem := st_view s (dev v).
Definition fat_addr (c : Z) : Z := (start_lba v + reserved_sectors v) * bps + 4 * c.
Definition mirror_addr (c : Z) : Z := fat_addr c + fat_size v * bps.
Definition cl_addr (c : Z) : Z := (start_lba v + data_start v + (c - 2) * sectors_per_cluster v) * bps.

Definition fat_at (m : mem) (a : Z) : Z := Z.land (load 4 a m) FAT32_MASK.

Record abs s F D : Prop := {
  ab_ok : st_ok s;
  ab_fat c : 0 <= c < total_clusters v + 2 -> fat_at (vw s) (fat_addr c) = F c;
  ab_mirror c : 2 <= num_fats v -> 0 <= c < total_clusters v + 2 -> fat_at (vw s) (mirror_addr c) = F c;
  ab_data c i : 2 <= c < total_clusters v + 2 -> 0 <= i < bpc -> vw s (cl_addr c + i) = D c i
}.

Definition valid (c : Z) : Prop := 2 <= c < total_clusters v + 2.

(** Operations that leave the view alone keep the volume. *)
Lemma abs_view s s' F D : abs s F D -> st_ok s' -> (forall x, vw s' x = vw s x) -> abs s' F D.
Proof using Type.
  intros [A1 A2 A3 A4] Hok E. split; auto.
  - intros c Hc. rewrite <- A2 by done. unfold fat_at. f_equal. apply load_ext. auto.
  - intros c Hn Hc. rewrite <- A3 by done. unfold fat_at. f_equal. apply load_ext. auto.
  - intros c i Hc Hi. rewrite E. auto.
Qed.

(** The volume seen as a relation between states that agree up to what was
    changed, [F] and [D] only mattering where the volume has them. *)
Lemma abs_ext s F D F' D' : abs s F D -> (forall c, 0 <= c < total_clusters v + 2 -> F c = F' c) ->
  (forall c i, valid c -> 0 <= i < bpc -> D c i = D' c i) -> abs s F' D'.
Proof using Type. intros [A1 A2 A3 A4] EF ED. split; auto; intros; rewrite <- ?EF, <- ?ED by done; auto. Qed.

(** ** Sectors *)

Lemma bread_ok s lba n b : st_ok s -> 0 <= lba -> 0 < n < 2 ^ 31 -> lba + n <= st_size (dev v) ->
  wp (bread (dev v) lba n b) s (fun b' s' => st_ok s' /\ (forall x, vw s' x = vw s x) /\
    forall j, 0 <= j < n * bps -> b' j = vw s (lba * bps + j)).
Proof using Hv.
  intros Hok Hl Hn Hsz. unfold wp, bread. destruct (st_read (dev v) lba n b s) as [[rc b'] s'] eqn:E.
  destruct (st_read_law _ _ _ _ _ _ _ _ Hok (vo_dev v Hv) Hl Hn Hsz E) as (H1 & H2 & H3). exists b', s'. rewrite (vo_bps v Hv). auto.
Qed.

Lemma bwrite_ok s lba n b : st_ok s -> 0 <= lba -> 0 < n < 2 ^ 31 -> lba + n <= st_size (dev v) ->
  wp (bwrite (dev v) lba n b) s (fun _ s' => st_ok s' /\ forall x, vw s' x =
    if (lba * bps <=? x) && (x <? (lba + n) * bps) then b (x - lba * bps) else vw s x).
Proof using Hv.
  intros Hok Hl Hn Hsz. unfold wp, bwrite. destruct (st_write (dev v) lba n b s) as [rc s'] eqn:E.
  destruct (st_write_law _ _ _ _ _ _ _ Hok (vo_dev v Hv) Hl Hn Hsz E) as (H1 & H2). exists tt, s'. rewrite (vo_bps v Hv). auto.
Qed.

(** ** Entries of the table *)

(** Sector and offset of the entry of cluster [c]. *)
Lemma fat_sector_ok c : 0 <= c < total_clusters v + 2 -> exists L,
  u64 (start_lba v + fat_sector v c) = L /\ (2 <= num_fats v -> u64 (start_lba v + fat_sector v c + fat_size v) = L + fat_size v) /\
  0 <= L /\ L + 1 <= start_lba v + reserved_sectors v + fat_size v /\ L * bps + fat_offset v c = fat_addr c /\
  0 <= fat_offset v c /\ fat_offset v c + 4 <= bps.
Proof using Hv.
  intros Hc. destruct Hv as [_ _ [H4 Hm] _ _ Hr Hf [Hf0 Hfs] Hds [Ht0 Ht] Hu [Hl Hsz] Hu64 _].
  unfold fat_sector, fat_offset, fat_addr. rewrite (wrap_small 32 (c * 4)) by lia.
  assert (0 <= c * 4 / bps < fat_size v) as Hq by (split; [apply Z.div_pos; lia|apply Z.div_lt_upper_bound; nia]).
  pose proof (vo_spc v Hv). assert (0 <= total_clusters v * sectors_per_cluster v) as Hs by nia.
  assert (fat_size v <= num_fats v * fat_size v) by nia.
  rewrite (wrap_small 32) by lia. rewrite (wrap_small 64 (start_lba v + _)) by lia. eexists. split; [reflexivity|].
  pose proof (Z.div_mod (c * 4) bps ltac:(lia)) as Hd. pose proof (Z.mod_pos_bound (c * 4) bps ltac:(lia)) as Hb.
  apply Z.mod_divide in Hm as [q Hq4]; [|lia].
  assert (c * 4 mod bps mod 4 = 0) as Hm4. { rewrite Hq4. replace (q * 4) with (4 * q) by lia. replace (c * 4) with (4 * c) by lia. rewrite Z.mul_mod_distr_l by lia. rewrite Z.mul_comm. apply Z.mod_mul. lia. }
  set (x := c * 4 mod bps) in *. set (y := c * 4 / bps) in *. clearbody x y. apply Z.mod_divide in Hm4 as [r ->]; [|lia].
  split_and!; try lia. intros H2. apply wrap_small. assert (2 * fat_size v <= num_fats v * fat_size v) by nia. lia.
Qed.

(** The value an entry gets: its upper four bits stay. *)
Definition entry_val (a value : Z) (m : mem) : Z := Z.lor (Z.land (load 4 a m) 0xF0000000) (Z.land value FAT32_MASK).

Lemma entry_val_eq a value m : entry_val a value m = (load 4 a m / 2 ^ 28) mod 2 ^ 4 * 2 ^ 28 + value mod 2 ^ 28.
Proof using Type.
  unfold entry_val. change 0xF0000000 with (Z.shiftl (Z.ones 4) 28). change FAT32_MASK with (Z.ones 28). rewrite land_field by lia.
  set (h := _ mod 2 ^ 4). rewrite <- (Z.land_ones value 28) by lia. pose proof (Z.add_lor_land (h * 2 ^ 28) (Z.land value (Z.ones 28))) as E.
  assert (Z.land (h * 2 ^ 28) (Z.land value (Z.ones 28)) = 0) as E0; [|lia].
  rewrite (Z.land_comm value), Z.land_assoc, Z.land_ones, Z.mod_mul, Z.land_0_l by lia. done.
Qed.

Lemma entry_val_range a value m : 0 <= entry_val a value m < 256 ^ 4.
Proof using Type.
  rewrite entry_val_eq. pose proof (Z.mod_pos_bound (load 4 a m / 2 ^ 28) (2 ^ 4) ltac:(lia)). pose proof (Z.mod_pos_bound value (2 ^ 28) ltac:(lia)).
  change (256 ^ 4) with (16 * 2 ^ 28). lia.
Qed.

Lemma entry_val_masked a value m : Z.land (entry_val a value m) FAT32_MASK = Z.land value FAT32_MASK.
Proof using Type.
  rewrite entry_val_eq. change FAT32_MASK with (Z.ones 28). rewrite !Z.land_ones, Z.add_comm, Z.mod_add, Z.mod_mod by lia. done.
Qed.

(** ** The layout of a volume *)

Definition data_addr : Z := (start_lba v + data_start v) * bps.

Lemma cl_addr_eq c : cl_addr c = data_addr + (c - 2) * bpc.
Proof using Hv. unfold cl_addr, data_addr. destruct (vo_bpc v Hv) as [-> _]. lia. Qed.

Lemma bpc_pos : 0 < bpc.
Proof using Hv. destruct (vo_bpc v Hv) as [-> _]. pose proof (vo_bps4 v Hv). pose proof (vo_spc v Hv). nia. Qed.

Lemma table_below c : 0 <= c < total_clusters v + 2 ->
  fat_addr c + 4 <= (start_lba v + reserved_sectors v + fat_size v) * bps /\
  (start_lba v + reserved_sectors v + fat_size v) * bps <= data_addr /\
  (2 <= num_fats v -> (start_lba v + reserved_sectors v + fat_size v) * bps <= mirror_addr c /\ mirror_addr c + 4 <= data_addr).
Proof using Hv.
  intros Hc. destruct Hv as [_ _ [H4 _] _ _ Hr Hf [Hf0 Hfs] Hds _ _ _ _ _]. unfold mirror_addr, fat_addr, data_addr. rewrite Hds.
  assert (fat_size v <= num_fats v * fat_size v) by nia. split_and!; [nia|nia|]. intros H2. assert (2 * fat_size v <= num_fats v * fat_size v) by nia. split; nia.
Qed.

(** A sector whose entry at [off] was replaced is memory with that entry stored. *)
Lemma merged_sector L off value (b m m' : mem) : 0 <= off -> off + 4 <= bps ->
  (forall j, 0 <= j < bps -> b j = m (L * bps + j)) ->
  (forall x, m' x = if (L * bps <=? x) && (x <? (L + 1) * bps) then merge_entry off value b (x - L * bps) else m x) ->
  forall x, m' x = store 4 (L * bps + off) (entry_val (L * bps + off) value m) m x.
Proof using Type.
  intros Ho Hle Hb Hm x. rewrite Hm. destruct (Z.leb_spec (L * bps) x), (Z.ltb_spec x ((L + 1) * bps)); cbn [andb].
  2-4: rewrite store_outside; [done|cbn; lia].
  unfold merge_entry, entry_val. rewrite (load_shift 4 off (L * bps + off) b m).
  2: { intros j Hj. cbn in Hj. rewrite Hb by lia. f_equal. lia. }
  set (w := Z.lor _ _). replace (x - L * bps) with (off + (x - L * bps - off)) by lia.
  rewrite (store_shift 4 off (L * bps + off) b m); [f_equal; lia|]. replace (off + (x - L * bps - off)) with (x - L * bps) by lia.
  rewrite Hb by lia. f_equal. lia.
Qed.

Lemma fat_at_same a value m m' : (forall x, m' x = store 4 a (entry_val a value m) m x) -> fat_at m' a = Z.land value FAT32_MASK.
Proof using Type.
  intros Hm. unfold fat_at. rewrite (load_ext 4 a (store 4 a (entry_val a value m) m) m') by auto.
  rewrite load_store_same by (apply entry_val_range). apply entry_val_masked.
Qed.

Lemma fat_at_other a a' w m m' : a' + 4 <= a \/ a + 4 <= a' -> (forall x, m' x = store 4 a w m x) -> fat_at m' a' = fat_at m a'.
Proof using Type.
  intros Ha Hm. unfold fat_at. rewrite (load_ext 4 a' (store 4 a w m) m') by auto. by rewrite load_store_other by (cbn; lia).
Qed.

(** Reading an entry. *)
Lemma fat_entry_ok s F D c : abs s F D -> 0 <= c < total_clusters v + 2 ->
  wp (fat_entry junk v c) s (fun r s' => r = F c /\ abs s' F D).
Proof using Hv.
  intros Habs Hc. destruct (fat_sector_ok c Hc) as (L & EL & _ & HL & HLe & Ea & Ho & Hol). unfold fat_entry. rewrite EL.
  destruct (vo_lba v Hv) as [_ Hsz]. destruct (vo_clusters v Hv) as [Ht _]. pose proof (vo_spc v Hv). pose proof (vo_data v Hv). destruct (vo_fat v Hv) as [Hf0 _]. pose proof (vo_fats v Hv).
  assert (L + 1 <= st_size (dev v)) as HLs by nia.
  eapply wp_use; [apply bread_ok; [apply Habs|lia|lia|done]|]. intros b s' (Hok & Hview & Hb). apply wp_ret. split; [|by apply (abs_view s)].
  rewrite <- (ab_fat _ _ _ Habs c Hc). unfold fat_at. f_equal. rewrite <- Ea. apply load_shift. intros j Hj. cbn in Hj. rewrite Hb by lia. f_equal. lia.
Qed.


(** The sectors of both copies of the table exist. *)
Lemma table_sectors L : 0 <= L -> L + 1 <= start_lba v + reserved_sectors v + fat_size v ->
  L + 1 <= st_size (dev v) /\ (2 <= num_fats v -> L + fat_size v + 1 <= st_size (dev v)).
Proof using Hv.
  intros HL HLe. destruct (vo_lba v Hv) as [_ Hsz]. destruct (vo_clusters v Hv) as [Ht _]. pose proof (vo_spc v Hv). rewrite (vo_data v Hv) in Hsz.
  destruct (vo_fat v Hv) as [Hf0 _]. pose proof (vo_fats v Hv). assert (0 <= total_clusters v * sectors_per_cluster v) by nia.
  split; [nia|]. intros Hn2. assert (2 * fat_size v <= num_fats v * fat_size v) by nia. lia.
Qed.

(** What is left of the volume after the entry of [c] was stored in the copy at [a]. *)
Lemma set_one_copy (m m' : mem) c a value : 0 <= c < total_clusters v + 2 -> (a = fat_addr c \/ a = mirror_addr c /\ 2 <= num_fats v) ->
  (forall x, m' x = store 4 a (entry_val a value m) m x) ->
  (forall c', 0 <= c' < total_clusters v + 2 -> fat_at m' (fat_addr c') = if decide (a = fat_addr c') then Z.land value FAT32_MASK else fat_at m (fat_addr c')) /\
  (2 <= num_fats v -> forall c', 0 <= c' < total_clusters v + 2 ->
     fat_at m' (mirror_addr c') = if decide (a = mirror_addr c') then Z.land value FAT32_MASK else fat_at m (mirror_addr c')) /\
  (forall x, data_addr <= x -> m' x = m x).
Proof using Hv.
  intros Hc Ha Hm. pose proof (table_below c Hc) as (B1 & B2 & B3).
  assert (a + 4 <= data_addr) as Hbelow by (destruct Ha as [->|[-> H2]]; [|destruct (B3 H2)]; lia).
  split_and!.
  - intros c' Hc'. pose proof (table_below c' Hc') as (C1 & C2 & _). destruct (decide (a = fat_addr c')) as [->|Hn]; [by apply (fat_at_same (fat_addr c') value m)|].
    apply (fat_at_other a _ (entry_val a value m)); [|done]. destruct Ha as [->|[-> H2]]; [unfold fat_addr in *|destruct (B3 H2)]; lia.
  - intros H2 c' Hc'. pose proof (table_below c' Hc') as (C1 & C2 & C3). destruct (C3 H2) as [C4 C5]. destruct (decide (a = mirror_addr c')) as [->|Hn]; [by apply (fat_at_same (mirror_addr c') value m)|].
    apply (fat_at_other a _ (entry_val a value m)); [|done]. destruct Ha as [->|[-> _]]; [|unfold mirror_addr, fat_addr in *]; lia.
  - intros x Hx. rewrite Hm. apply store_outside. cbn. lia.
Qed.

Lemma fat_addr_inj c c' : fat_addr c = fat_addr c' -> c = c'.
Proof using Type. unfold fat_addr. lia. Qed.

(** Writing an entry changes it in both copies, and nothing else. *)
Lemma fat_set_entry_ok s F D c value : abs s F D -> 0 <= c < total_clusters v + 2 ->
  wp (fat_set_entry junk v c value) s (fun _ s' => abs s' (F.[c <- Z.land value FAT32_MASK]) D).
Proof using Hv.
  intros Habs Hc. destruct (fat_sector_ok c Hc) as (L & EL & EL2 & HL & HLe & Ea & Ho & Hol). destruct (table_sectors L HL HLe) as [HS1 HS2].
  unfold fat_set_entry. rewrite EL. destruct (vo_fat v Hv) as [Hf0 _]. pose proof (bpc_pos) as Hbpc.
  eapply wp_use; [apply bread_ok; [apply Habs|lia|lia|done]|]. intros b s1 (Hok1 & V1 & Hb1).
  eapply wp_use; [apply bwrite_ok; [done|lia|lia|done]|]. intros _ s2 [Hok2 V2].
  pose proof (merged_sector L (fat_offset v c) value b (vw s) (vw s2) Ho Hol ltac:(intros j Hj; apply Hb1; lia)
    ltac:(intros x; rewrite V2; by destruct (_ && _))) as M2. rewrite Ea in M2.
  destruct (set_one_copy (vw s) (vw s2) c (fat_addr c) value Hc ltac:(auto) M2) as (P1 & P2 & P3).
  assert (forall c', 0 <= c' < total_clusters v + 2 -> fat_at (vw s2) (fat_addr c') = F.[c <- Z.land value FAT32_MASK] c') as Hfat2.
  { intros c' Hc'. rewrite P1 by done. destruct (decide (fat_addr c = fat_addr c')) as [E|E]; [apply fat_addr_inj in E as ->; by rewrite upd_eq|].
    rewrite upd_ne by congruence. by apply Habs. }
  assert (forall c' i, valid c' -> 0 <= i < bpc -> vw s2 (cl_addr c' + i) = D c' i) as Hdata2.
  { intros c' i Hc' Hi. rewrite P3; [by apply Habs|]. rewrite cl_addr_eq. unfold valid in Hc'. nia. }
  destruct (Z.leb_spec 2 (num_fats v)) as [H2|H2].
  2: { apply wp_ret. split; auto. intros; lia. }
  rewrite EL2 by done.
  eapply wp_use; [apply bread_ok; [done|lia|lia|auto]|]. intros b' s3 (Hok3 & V3 & Hb3).
  eapply wp_mono; [|apply bwrite_ok; [done|lia|lia|auto]]. intros _ s4 [Hok4 V4].
  pose proof (merged_sector (L + fat_size v) (fat_offset v c) value b' (vw s2) (vw s4) Ho Hol ltac:(intros j Hj; apply Hb3; lia)
    ltac:(intros x; rewrite V4; by destruct (_ && _))) as M4.
  replace ((L + fat_size v) * bps + fat_offset v c) with (mirror_addr c) in M4 by (unfold mirror_addr; lia).
  destruct (set_one_copy (vw s2) (vw s4) c (mirror_addr c) value Hc ltac:(auto) M4) as (Q1 & Q2 & Q3). pose proof (table_below c Hc) as (B1 & B2 & B3). destruct (B3 H2) as [B4 B5].
  split; auto.
  - intros c' Hc'. rewrite Q1 by done. pose proof (table_below c' Hc') as (C1 & C2 & _). destruct (decide (mirror_addr c = fat_addr c')); [lia|]. auto.
  - intros c' _ Hc'. rewrite Q2 by done. destruct (decide (mirror_addr c = mirror_addr c')) as [E|E].
    + assert (c = c') as -> by (unfold mirror_addr in E; apply fat_addr_inj; lia). by rewrite upd_eq.
    + rewrite upd_ne by congruence. rewrite P2 by done. destruct (table_below c' Hc') as (_ & _ & C3). destruct (C3 H2). destruct (decide (fat_addr c = mirror_addr c')); [lia|]. by apply Habs.
  - intros c' i Hc' Hi. rewrite Q3; [by apply Hdata2|]. rewrite cl_addr_eq. nia.
Qed.

(** ** Clusters *)

Lemma cluster_lba c : valid c -> exists L, u64 (start_lba v + cluster_to_sector v c) = L /\ 0 <= L /\
  L + sectors_per_cluster v <= st_size (dev v) /\ L * bps = cl_addr c /\ (L + sectors_per_cluster v) * bps = cl_addr c + bpc.
Proof using Hv.
  intros Hc. unfold valid in Hc. destruct (vo_lba v Hv) as [Hl Hsz]. pose proof (vo_u32 v Hv). pose proof (vo_u64 v Hv). destruct (vo_clusters v Hv) as [Ht Ht2].
  pose proof (vo_spc v Hv). pose proof (vo_res v Hv). pose proof (vo_data v Hv). destruct (vo_fat v Hv) as [Hf0 _]. pose proof (vo_fats v Hv).
  assert (0 <= data_start v) by nia. assert (0 <= (c - 2) * sectors_per_cluster v /\ (c - 2) * sectors_per_cluster v + sectors_per_cluster v <= total_clusters v * sectors_per_cluster v) by nia.
  unfold cluster_to_sector. rewrite (wrap_small 32 (c - 2)) by lia. rewrite (wrap_small 32) by lia. rewrite (wrap_small 64) by lia.
  eexists. split; [reflexivity|]. unfold cl_addr. destruct (vo_bpc v Hv) as [-> _]. split_and!; lia.
Qed.

Lemma cluster_read_ok s F D c : abs s F D -> valid c ->
  wp (cluster_read junk v c) s (fun b s' => (forall i, 0 <= i < bpc -> b i = D c i) /\ abs s' F D).
Proof using Hv.
  intros Habs Hc. destruct (cluster_lba c Hc) as (L & EL & HL & HLs & Ea & Ee). unfold cluster_read. rewrite EL. pose proof (vo_spc v Hv).
  eapply wp_mono; [|apply bread_ok; [apply Habs|lia|lia|done]]. intros b s' (Hok & Hview & Hb). split; [|by apply (abs_view s)].
  intros i Hi. rewrite Hb; [rewrite Ea; by apply Habs|]. destruct (vo_bpc v Hv) as [E _]. lia.
Qed.

Lemma cluster_write_ok s F D c b : abs s F D -> valid c ->
  wp (cluster_write v c b) s (fun _ s' => abs s' F (D.[c <- b])).
Proof using Hv.
  intros Habs Hc. destruct (cluster_lba c Hc) as (L & EL & HL & HLs & Ea & Ee). unfold cluster_write. rewrite EL. pose proof (vo_spc v Hv). pose proof bpc_pos.
  eapply wp_mono; [|apply bwrite_ok; [apply Habs|lia|lia|done]]. intros _ s' [Hok Hm]. rewrite Ea, Ee in Hm.
  assert (forall x, ~ cl_addr c <= x < cl_addr c + bpc -> vw s' x = vw s x) as Hrest.
  { intros x Hx. rewrite Hm. destruct (Z.leb_spec (cl_addr c) x), (Z.ltb_spec x (cl_addr c + bpc)); cbn [andb]; try done. lia. }
  assert (data_addr <= cl_addr c) as Hbase by (rewrite cl_addr_eq; unfold valid in Hc; nia). split; auto.
  - intros c' Hc'. rewrite <- (ab_fat _ _ _ Habs c' Hc'). pose proof (table_below c' Hc') as (C1 & C2 & _). unfold fat_at. f_equal. apply load_ext. intros x Hx. apply Hrest. cbn in Hx. lia.
  - intros c' H2 Hc'. rewrite <- (ab_mirror _ _ _ Habs c' H2 Hc'). pose proof (table_below c' Hc') as (C1 & C2 & C3). destruct (C3 H2). unfold fat_at. f_equal. apply load_ext. intros x Hx. apply Hrest. cbn in Hx. lia.
  - intros c' i Hc' Hi. destruct (decide (c' = c)) as [->|Hn].
    + rewrite upd_eq, Hm. destruct (Z.leb_spec (cl_addr c) (cl_addr c + i)), (Z.ltb_spec (cl_addr c + i) (cl_addr c + bpc)); cbn [andb]; try lia. f_equal. lia.
    + rewrite upd_ne by done. rewrite Hrest; [by apply Habs|]. rewrite !cl_addr_eq. nia.
Qed.


End vol.
End FatProps.
