(* ===== verification/FatFiles.v ===== *)
(** * Clusters, chains and the data of files in FAT32 volumes *)

From S2P Require Import Prelude Mem Block Fat32 FatProps.
Import Mem Block Fat32 FatProps.

Module FatFiles.

Section files.
Context {T : Type} `{HSL : StoreLaws T}.
Variable junk : buffer.
Variable v : fat32_vol_t.
Hypothesis Hv : vol_ok v.
Implicit Types (s : T) (F : Z -> Z) (D : Z -> Z -> Z) (l : list Z).

#[local] Notation bpc := (bytes_per_cluster v).
#[local] Notation abs := (abs v).
#[local] Notation valid := (valid v).

Lemma valid_entry c : valid c -> 0 <= c < total_clusters v + 2.
Proof using Type. unfold FatProps.valid. lia. Qed.

Lemma valid_in_chain c : valid c -> in_chain c = true.
Proof using Hv. intros Hc. unfold FatProps.valid in Hc. pose proof (vo_clusters v Hv). unfold in_chain, FAT32_EOC. apply andb_true_iff. split; [apply Z.ltb_lt|apply Z.leb_le]; lia. Qed.

Lemma abs_range s F D c : abs s F D -> 0 <= c < total_clusters v + 2 -> 0 <= F c < 2 ^ 28.
Proof using Type.
  intros Habs Hc. rewrite <- (ab_fat v _ _ _ Habs c Hc). unfold fat_at. change FAT32_MASK with (Z.ones 28). rewrite Z.land_ones by lia. apply Z.mod_pos_bound. lia.
Qed.

(** ** Allocation *)

Definition zeros : Z -> Z := fun _ => 0.

Lemma alloc_loop_ok n : forall s F D c, abs s F D -> 2 <= c -> c + Z.of_nat n <= total_clusters v + 2 ->
  wp (alloc_loop junk n v c) s (fun r s' =>
    (r = 0 /\ (forall c', c <= c' < c + Z.of_nat n -> F c' <> 0) /\ abs s' F D) \/
    (c <= r < c + Z.of_nat n /\ F r = 0 /\ (forall c', c <= c' < r -> F c' <> 0) /\ abs s' (F.[r <- FAT32_EOC]) (D.[r <- zeros]))).
Proof using Hv.
  induction n as [|n IH]; intros s F D c Habs Hc Hn; cbn [alloc_loop].
  { apply wp_ret. left. split_and!; auto. intros; lia. }
  eapply wp_use; [apply (fat_entry_ok junk v Hv); [done|lia]|]. intros r s1 [-> Habs1]. unfold FAT32_FREE. destruct (Z.eqb_spec (F c) 0) as [E|E].
  - eapply wp_use; [apply (fat_set_entry_ok junk v Hv); [done|lia]|]. cbv beta. intros _ s2 Habs2. change (Z.land FAT32_EOC FAT32_MASK) with FAT32_EOC in Habs2.
    eapply wp_use; [apply (cluster_write_ok v Hv); [done|unfold FatProps.valid; lia]|]. cbv beta. intros _ s3 Habs3. apply wp_ret. right. split_and!; auto; [lia|lia|intros; lia|].
    apply (abs_ext v _ _ _ _ _ Habs3); [done|]. intros c' i Hc' Hi. destruct (decide (c' = c)) as [->|]; [rewrite !upd_eq|by rewrite !upd_ne].
    unfold blit. destruct (Z.leb_spec 0 i), (Z.ltb_spec i (0 + bpc)); cbn [andb]; (done || lia).
  - eapply wp_mono; [|apply IH; [done|lia|lia]]. intros r s' [(-> & Hall & Ha)|(Hr & Hz & Hall & Ha)]; [left|right]; split_and!; auto; try lia.
    all: intros c' Hc'; destruct (decide (c' = c)) as [->|]; [done|apply Hall; lia].
Qed.

(** The first free cluster is taken; 0 when there is none. *)
Lemma alloc_cluster_ok s F D : abs s F D ->
  wp (alloc_cluster junk v) s (fun r s' =>
    (r = 0 /\ (forall c, valid c -> F c <> 0) /\ abs s' F D) \/
    (valid r /\ F r = 0 /\ (forall c, valid c -> c < r -> F c <> 0) /\ abs s' (F.[r <- FAT32_EOC]) (D.[r <- zeros]))).
Proof using Hv.
  intros Habs. destruct (vo_clusters v Hv) as [Ht0 Ht]. unfold alloc_cluster. rewrite (wrap_small 32) by lia.
  eapply wp_mono; [|apply alloc_loop_ok; [done|lia|lia]]. unfold FatProps.valid.
  intros r s' [(-> & Hall & Ha)|(Hr & Hz & Hall & Ha)]; [left|right]; split_and!; auto; try lia; intros; apply Hall; lia.
Qed.

(** ** Chains *)

(** The clusters from [c] on, up to an end marker. *)
Fixpoint chain F (c : Z) l : Prop :=
  match l with
  | [] => in_chain c = false
  | x :: l' => c = x /\ valid x /\ chain F (F x) l'
  end.

Lemma chain_ext F F' c l : (forall x, In x l -> F' x = F x) -> chain F c l -> chain F' c l.
Proof using Type.
  revert c. induction l as [|x l IH]; intros c E; cbn [chain]; [done|]. intros (-> & Hx & Hc). split_and!; auto.
  rewrite E by (by left). apply IH; [|done]. intros y Hy. apply E. by right.
Qed.

Lemma chain_valid F c l x : chain F c l -> In x l -> valid x.
Proof using Type. revert c. induction l as [|y l IH]; intros c; [done|]. intros (-> & Hy & Hc) [<-|Hx]; [done|by apply (IH (F y))]. Qed.

(** Two chains from the same cluster are the same. *)
Lemma chain_det F c l l' : chain F c l -> chain F c l' -> l = l'.
Proof using Hv.
  revert c l'. induction l as [|x l IH]; intros c [|y l']; cbn [chain]; [done|..].
  - intros E (-> & Hy & _). rewrite (valid_in_chain y Hy) in E. done.
  - intros (-> & Hx & _) E. rewrite (valid_in_chain x Hx) in E. done.
  - intros (-> & _ & C1) (-> & _ & C2). f_equal. by apply (IH (F y)).
Qed.

(** A chain that ends has no cluster twice. *)
Lemma chain_suffix F c l1 x l2 : chain F c (l1 ++ x :: l2) -> chain F x (x :: l2).
Proof using Type. revert c. induction l1 as [|y l1 IH]; intros c; cbn [app chain]; [intros (-> & ? & ?); by split_and!|]. intros (-> & _ & Hc). by apply (IH (F y)). Qed.

Lemma chain_nodup F c l : chain F c l -> NoDup l.
Proof using Hv.
  revert c. induction l as [|x l IH]; intros c Hc; [apply base.NoDup_nil_2|]. pose proof Hc as Hc0. destruct Hc as (-> & Hx & Hc).
  apply list.NoDup_cons. split; [|by apply (IH (F x))]. intros Hin. apply list_elem_of_split in Hin as (l1 & l2 & ->).
  pose proof (chain_suffix F (F x) l1 x l2 Hc) as Hs. pose proof (chain_det F x _ _ Hc0 Hs) as E.
  apply (f_equal length) in E. cbn in E. rewrite length_app in E. cbn in E. lia.
Qed.

(** [F] with the clusters of [l] free. *)
Definition freed F l : Z -> Z := fun c => if decide (c ∈ l) then 0 else F c.

Lemma free_chain_ok l : forall s F D c fuel, abs s F D -> chain F c l -> (length l < fuel)%nat ->
  wp (free_chain junk fuel v c) s (fun _ s' => abs s' (freed F l) D).
Proof using Hv.
  induction l as [|x l IH]; intros s F D c fuel Habs Hc Hf; (destruct fuel as [|fuel]; [cbn in Hf; lia|]); cbn [free_chain].
  { cbn [chain] in Hc. rewrite Hc. apply wp_ret. apply (abs_ext v _ _ _ _ _ Habs); [|done]. intros c' _. unfold freed. destruct (decide (c' ∈ [])) as [H0|]; [by apply not_elem_of_nil in H0|done]. }
  pose proof (chain_nodup F c (x :: l) Hc) as Hnd. apply list.NoDup_cons in Hnd as [Hnx _]. destruct Hc as (-> & Hx & Hc).
  rewrite (valid_in_chain x Hx). eapply wp_use; [apply (fat_entry_ok junk v Hv); [done|by apply valid_entry]|]. intros r s1 [-> Habs1].
  eapply wp_use; [apply (fat_set_entry_ok junk v Hv); [done|by apply valid_entry]|]. cbv beta. intros _ s2 Habs2. change (Z.land FAT32_FREE FAT32_MASK) with 0 in Habs2.
  eapply wp_mono; [|apply (IH _ (F.[x <- 0]) D); [done| |cbn in Hf; lia]].
  - cbv beta. intros _ s3 Ha. apply (abs_ext v _ _ _ _ _ Ha); [|done]. intros c' _. unfold freed. destruct (decide (c' = x)) as [->|Hn].
    + rewrite upd_eq. destruct (decide (x ∈ x :: l)) as [|Hno]; [by destruct (decide (x ∈ l))|]. destruct Hno. by left.
    + rewrite upd_ne by done. destruct (decide (c' ∈ l)) as [Hl|Hl], (decide (c' ∈ x :: l)) as [Hl'|Hl']; try done; [destruct Hl'; by right|]. by apply elem_of_cons in Hl' as [|].
  - apply (chain_ext F); [|done]. intros y Hy. apply upd_ne. intros ->. apply Hnx. by apply list_elem_of_In.
Qed.

(** ** Writing the data of a file *)

(** The table after the clusters of [l] were taken one by one and linked behind [prev]. *)
Fixpoint linked F (prev : Z) l : Z -> Z :=
  match l with
  | [] => F
  | c :: l' => let F := F.[c <- FAT32_EOC] in linked (if prev =? 0 then F else F.[prev <- c]) c l'
  end.

(** The clusters of [l] filled with [rem] bytes of [src] from [p] on. *)
Fixpoint stored D (src : buffer) (p rem : Z) l : Z -> Z -> Z :=
  match l with
  | [] => D
  | c :: l' =>
      let cnt := if rem <? bpc then rem else bpc in
      stored (D.[c <- blit zeros 0 src p cnt]) src (p + cnt) (rem - cnt) l'
  end.

(** The clusters were free, each when it was taken. *)
Fixpoint fresh F (prev : Z) l : Prop :=
  match l with
  | [] => True
  | c :: l' => valid c /\ F c = 0 /\ fresh (let F := F.[c <- FAT32_EOC] in if prev =? 0 then F else F.[prev <- c]) c l'
  end.

(** Number of clusters of [rem] bytes. *)
Definition clusters (rem : Z) : nat := Z.to_nat ((rem + bpc - 1) / bpc).

Lemma clusters_0 : clusters 0 = 0%nat.
Proof using Hv. pose proof (bpc_pos v Hv). unfold clusters. rewrite Z.div_small by lia. done. Qed.

Lemma clusters_step rem : 0 < rem -> clusters rem = S (clusters (rem - if rem <? bpc then rem else bpc)).
Proof using Hv.
  intros Hr. pose proof (bpc_pos v Hv). unfold clusters. destruct (Z.ltb_spec rem bpc).
  - replace (rem - rem + bpc - 1) with (bpc - 1) by lia. rewrite (Z.div_small (bpc - 1)) by lia.
    replace ((rem + bpc - 1) / bpc) with 1; [done|]. apply Z.div_unique with (rem - 1); lia.
  - replace (rem + bpc - 1) with (rem - bpc + bpc - 1 + 1 * bpc) by lia. rewrite Z.div_add by lia.
    assert (0 <= (rem - bpc + bpc - 1) / bpc) by (apply Z.div_pos; lia). lia.
Qed.

(** The data of a file: either all of it, in as many clusters as it needs, or the
    disk is full. *)
Lemma write_data_ok src : forall fuel s F D p rem first prev, abs s F D -> 0 <= rem < 2 ^ 32 -> (clusters rem < fuel)%nat ->
  (prev <> 0 -> valid prev /\ F prev <> 0) ->
  wp (write_data junk fuel v src p rem first prev) s (fun r s' => exists l, fresh F prev l /\
    abs s' (linked F prev l) (stored D src p rem l) /\
    (r = Some (if first =? 0 then hd first l else first) /\ length l = clusters rem \/
     r = None /\ (length l < clusters rem)%nat /\ forall c, valid c -> linked F prev l c <> 0)).
Proof using Hv.
  induction fuel as [|fuel IH]; intros s F D p rem first prev Habs Hrem Hfuel Hprev; [lia|]. cbn [write_data].
  destruct (Z.leb_spec rem 0).
  { assert (rem = 0) as -> by lia. apply wp_ret. exists []. split; [done|]. split; [exact Habs|]. left. rewrite clusters_0. split; [|done]. by destruct (first =? 0). }
  pose proof (bpc_pos v Hv). destruct (vo_bpc v Hv) as [_ Hb32].
  eapply wp_use; [apply alloc_cluster_ok; exact Habs|]. intros c s1 [(-> & Hfull & Habs1)|(Hc & Hz & _ & Habs1)].
  { cbn [Z.eqb]. apply wp_ret. exists []. split; [done|]. split; [exact Habs1|]. right. split_and!; auto. rewrite clusters_step by lia. cbn. lia. }
  destruct (Z.eqb_spec c 0); [unfold FatProps.valid in Hc; lia|].
  set (F1 := if prev =? 0 then F.[c <- FAT32_EOC] else F.[c <- FAT32_EOC].[prev <- c]).
  assert (wp (if prev =? 0 then mret tt else fat_set_entry junk v prev c) s1 (fun _ s' => abs s' F1 (D.[c <- zeros]))) as Hlink.
  { unfold F1. destruct (Z.eqb_spec prev 0) as [|Hp]; [by apply wp_ret|]. destruct (Hprev Hp) as [Hpv _].
    eapply wp_mono; [|apply (fat_set_entry_ok junk v Hv); [exact Habs1|by apply valid_entry]]. cbv beta. intros _ s' Ha. apply (abs_ext v _ _ _ _ _ Ha); [|done].
    intros c' _. replace (Z.land c FAT32_MASK) with c; [done|]. change FAT32_MASK with (Z.ones 28). rewrite Z.land_ones by lia.
    symmetry. apply Z.mod_small. unfold FatProps.valid in Hc. pose proof (vo_clusters v Hv). lia. }
  eapply wp_use; [exact Hlink|]. cbv beta. intros _ s2 Habs2.
  eapply wp_use; [apply (cluster_read_ok junk v Hv); [exact Habs2|done]|]. intros dst s3 [Hdst Habs3].
  replace (if rem <? bpc then u32 rem else bpc) with (if rem <? bpc then rem else bpc) by (rewrite (wrap_small 32) by lia; done).
  set (cnt := if rem <? bpc then rem else bpc).
  assert (0 < cnt <= rem /\ cnt <= bpc) as [Hcnt1 Hcnt2] by (unfold cnt; destruct (Z.ltb_spec rem bpc); lia).
  eapply wp_use; [apply (cluster_write_ok v Hv); [exact Habs3|done]|]. cbv beta. intros _ s4 Habs4. rewrite (wrap_small 64) by lia.
  assert (abs s4 F1 (D.[c <- blit zeros 0 src p cnt])) as Habs5.
  { apply (abs_ext v _ _ _ _ _ Habs4); [done|]. intros c' i Hc' Hi. destruct (decide (c' = c)) as [->|]; [rewrite !upd_eq|by rewrite !upd_ne].
    unfold blit. rewrite Hdst by done. by rewrite upd_eq. }
  assert (c <> prev) as Hcp by (intros ->; destruct (Hprev n); done).
  eapply wp_mono; [|apply (IH s4 F1 _ _ _ _ c Habs5); [lia| |]].
  - intros r s' (l & Hfr & Ha & Hres). exists (c :: l). cbn [fresh linked stored length hd]. fold F1 cnt. rewrite clusters_step by lia. fold cnt.
    split_and!; auto. destruct Hres as [[-> El]|(-> & El & Hfull)]; [left|right; split_and!; auto; lia]. rewrite El. split; [|done]. f_equal.
    destruct (Z.eqb_spec first 0) as [->|Hn]; [|by apply Z.eqb_neq in Hn as ->]. apply Z.eqb_neq in n. by rewrite n.
  - rewrite clusters_step in Hfuel by lia. fold cnt in Hfuel. lia.
  - intros _. split; [done|]. unfold F1. destruct (Z.eqb_spec prev 0); [by rewrite upd_eq|]. rewrite upd_ne by done. by rewrite upd_eq.
Qed.


(** The clusters taken are different, were free, and form a chain behind [prev]. *)
Lemma fresh_facts l : forall F prev, fresh F prev l -> (prev <> 0 -> F prev <> 0) ->
  NoDup l /\ (forall c, In c l -> valid c /\ F c = 0) /\ (forall c, ~ In c l -> c <> prev -> linked F prev l c = F c) /\
  chain (linked F prev l) (hd FAT32_EOC l) l /\ (prev <> 0 -> linked F prev l prev = hd (F prev) l).
Proof using Hv.
  induction l as [|c l IH]; intros F prev Hfr Hprev; cbn [fresh linked hd] in *.
  { split_and!; try done. apply base.NoDup_nil_2. }
  destruct Hfr as (Hc & Hz & Hfr). set (F1 := if prev =? 0 then _ else _) in *. assert (2 <= c) as Hc2 by (apply Hc).
  assert (c <> prev) as Hcp by (intros ->; destruct (Hprev ltac:(lia)); done).
  assert (F1 c = FAT32_EOC) as E1 by (unfold F1; destruct (prev =? 0); [by rewrite upd_eq|rewrite upd_ne by done; by rewrite upd_eq]).
  assert (prev <> 0 -> F1 prev = c) as E2 by (intros Hp; unfold F1; apply Z.eqb_neq in Hp as ->; by rewrite upd_eq).
  assert (forall x, x <> c -> x <> prev -> F1 x = F x) as E3 by (intros x Hx Hx'; unfold F1; destruct (prev =? 0); rewrite ?upd_ne by done; done).
  destruct (IH F1 c Hfr ltac:(by rewrite E1)) as (I1 & I2 & I3 & I4 & I5).
  assert (~ In c l) as Hnc by (intros Hin; destruct (I2 c Hin) as [_ E]; by rewrite E1 in E).
  assert (~ In prev l) as Hnp.
  { intros Hin. destruct (I2 prev Hin) as [Hvp E]. unfold FatProps.valid in Hvp. rewrite E2 in E by lia. lia. }
  split_and!.
  - apply list.NoDup_cons. rewrite list_elem_of_In. done.
  - intros x [<-|Hx]; [done|]. destruct (I2 x Hx) as [Hvx E]. split; [done|]. rewrite <- E. symmetry. apply E3; intros ->; done.
  - intros x Hx Hxp. cbn in Hx. rewrite I3 by (tauto || (intros ->; tauto)). apply E3; [intros ->; tauto|done].
  - cbn [chain]. split_and!; auto. rewrite I5 by lia. rewrite E1. exact I4.
  - intros Hp. rewrite I3 by done. auto.
Qed.

(** The clusters taken are in use afterwards. *)
Lemma linked_used l : forall F prev, fresh F prev l -> (prev <> 0 -> F prev <> 0) -> forall x, In x l -> linked F prev l x <> 0.
Proof using Hv.
  induction l as [|c l IH]; intros F prev Hfr Hprev x Hx; [done|]. cbn [fresh linked] in *. destruct Hfr as (Hc & Hz & Hfr). set (F1 := if prev =? 0 then _ else _) in *.
  assert (2 <= c) as Hc2 by (apply Hc). assert (c <> prev) as Hcp by (intros ->; destruct (Hprev ltac:(lia)); done).
  assert (F1 c = FAT32_EOC) as E1 by (unfold F1; destruct (prev =? 0); [by rewrite upd_eq|rewrite upd_ne by done; by rewrite upd_eq]).
  assert (c <> 0 -> F1 c <> 0) as Hc1 by (by rewrite E1). destruct Hx as [<-|Hx]; [|by apply IH].
  destruct (fresh_facts l F1 c Hfr Hc1) as (_ & I2 & _ & _ & I5). rewrite I5 by lia. destruct l as [|y l]; cbn [hd]; [by rewrite E1|].
  destruct (I2 y ltac:(by left)) as [Hy _]. unfold FatProps.valid in Hy. lia.
Qed.

(** The bytes of a file whose clusters are [l]. *)
Definition file_byte D l (j : Z) : Z := D (nth (Z.to_nat (j / bpc)) l 0) (j mod bpc).

Lemma file_byte_cons D c l j : 0 <= j -> file_byte D (c :: l) j = if j <? bpc then D c j else file_byte D l (j - bpc).
Proof using Hv.
  intros Hj. pose proof (bpc_pos v Hv). unfold file_byte. destruct (Z.ltb_spec j bpc).
  - rewrite Z.div_small, Z.mod_small by lia. done.
  - replace j with (j - bpc + 1 * bpc) at 1 2 by lia. rewrite Z.div_add, Z.mod_add by lia.
    assert (0 <= (j - bpc) / bpc) by (apply Z.div_pos; lia). rewrite Z2Nat.inj_add by lia. rewrite Nat.add_comm. done.
Qed.

Lemma stored_other D src p rem l c : ~ In c l -> stored D src p rem l c = D c.
Proof using Type.
  revert D p rem. induction l as [|x l IH]; intros D p rem Hc; cbn [stored]; [done|]. cbn in Hc. rewrite IH by tauto. apply upd_ne. intros ->. tauto.
Qed.

(** A file reads as what was stored. *)
Lemma stored_bytes src l : forall D p rem, NoDup l -> length l = clusters rem -> 0 <= rem -> forall j, 0 <= j < rem ->
  file_byte (stored D src p rem l) l j = src (p + j).
Proof using Hv.
  pose proof (bpc_pos v Hv) as Hb. induction l as [|c l IH]; intros D p rem Hnd Hlen Hrem j Hj.
  { rewrite clusters_step in Hlen by lia. done. }
  apply list.NoDup_cons in Hnd as [Hnc Hnd]. rewrite list_elem_of_In in Hnc. rewrite file_byte_cons by lia. cbn [stored].
  rewrite clusters_step in Hlen by lia. cbn [length] in Hlen. set (cnt := if rem <? bpc then rem else bpc) in *.
  assert (0 < cnt <= rem /\ (bpc <= rem -> cnt = bpc) /\ (rem < bpc -> cnt = rem)) as (H1 & H2 & H3) by (unfold cnt; destruct (Z.ltb_spec rem bpc); lia).
  destruct (Z.ltb_spec j bpc).
  - rewrite stored_other by done. rewrite upd_eq. unfold blit. destruct (Z.leb_spec 0 j), (Z.ltb_spec j (0 + cnt)); cbn [andb]; try lia. f_equal. lia.
  - rewrite H2 in * by lia. rewrite IH; [f_equal; lia|done|lia|lia|lia].
Qed.

(** Reading a file along its chain. *)
Lemma read_chain_ok l : forall s F D c remaining copied buf buf_size fuel, abs s F D -> chain F c l -> (length l < fuel)%nat ->
  0 <= remaining < 2 ^ 32 -> 0 <= copied -> copied + remaining <= buf_size < 2 ^ 64 -> remaining <= Z.of_nat (length l) * bpc ->
  wp (read_chain junk fuel v c remaining copied buf buf_size) s (fun r s' => fst r = copied + remaining /\ abs s' F D /\
    (forall x, ~ copied <= x < copied + remaining -> snd r x = buf x) /\
    forall j, 0 <= j < remaining -> snd r (copied + j) = file_byte D l j).
Proof using Hv.
  pose proof (bpc_pos v Hv) as Hb. induction l as [|x l IH]; intros s F D c remaining copied buf buf_size fuel Habs Hc Hfuel Hrem Hcop Hsz Hlen;
    (destruct fuel as [|fuel]; [cbn in Hfuel; lia|]); cbn [read_chain].
  { cbn in Hlen. assert (remaining = 0) as -> by lia. rewrite andb_false_r. apply wp_ret. cbn [fst snd]. split_and!; auto; [lia|]. intros; lia. }
  destruct Hc as (-> & Hx & Hc). rewrite (valid_in_chain x Hx). cbn [andb]. destruct (Z.ltb_spec 0 remaining).
  2: { apply wp_ret. cbn [fst snd]. split_and!; auto; [lia|]. intros; lia. }
  eapply wp_use; [apply (cluster_read_ok junk v Hv); [exact Habs|done]|]. intros src s1 [Hsrc Habs1].
  set (cnt := if remaining <? bpc then remaining else bpc).
  assert (0 < cnt <= remaining /\ (bpc <= remaining -> cnt = bpc) /\ (remaining < bpc -> cnt = remaining)) as (H1 & H2 & H3) by (unfold cnt; destruct (Z.ltb_spec remaining bpc); lia).
  rewrite (wrap_small 64 (copied + cnt)) by lia. destruct (Z.ltb_spec buf_size (copied + cnt)); [lia|].
  eapply wp_use; [apply (fat_entry_ok junk v Hv); [exact Habs1|by apply valid_entry]|]. intros r s2 [-> Habs2]. rewrite (wrap_small 32), (wrap_small 64) by lia.
  eapply wp_mono; [|apply (IH s2 F D (F x) (remaining - cnt) (copied + cnt) (blit buf copied src 0 cnt) buf_size fuel); auto; [cbn in Hfuel; lia|lia|lia|lia|]].
  2: { cbn [length] in Hlen. destruct (decide (remaining < bpc)); [rewrite H3 by done|rewrite H2 by lia]; nia. }
  intros [n b] s' (En & Ha & Hout & Hin). cbn [fst snd] in *. split_and!; auto; [lia| |].
  - intros y Hy. rewrite Hout by lia. unfold blit. destruct (Z.leb_spec copied y), (Z.ltb_spec y (copied + cnt)); cbn [andb]; try done. lia.
  - intros j Hj. rewrite file_byte_cons by lia. destruct (Z.ltb_spec j bpc).
    + rewrite Hout by lia. unfold blit. destruct (Z.leb_spec copied (copied + j)), (Z.ltb_spec (copied + j) (copied + cnt)); cbn [andb]; try lia.
      rewrite Hsrc by lia. f_equal. lia.
    + rewrite H2 in * by lia. rewrite <- Hin by lia. f_equal. lia.
Qed.


End files.
End FatFiles.
