(* ===== verification/FatDirs.v ===== *)
(** * Directories of FAT32 volumes *)

From S2P Require Import Prelude Mem Block Fat32 FatProps FatFiles.
Import Mem Block Fat32 FatProps FatFiles.

Module FatDirs.

(** ** Entries in buffers *)

Lemma get_dirent_ext b b' off : (forall a, off <= a < off + 32 -> b' a = b a) -> get_dirent b' off = get_dirent b off.
Proof.
  intros E. unfold get_dirent. f_equal.
  - apply map_ext_in. intros i Hi. apply list_elem_of_In, elem_of_seqZ in Hi. apply E. lia.
  - apply E. lia.
  - apply load_ext. intros a Ha. cbn in Ha. apply E. lia.
  - apply load_ext. intros a Ha. cbn in Ha. apply E. lia.
  - apply load_ext. intros a Ha. cbn in Ha. apply E. lia.
Qed.

Lemma get_name_0 b off : nth 0 (name (get_dirent b off)) 0 = b off.
Proof. unfold get_dirent. cbn [name]. rewrite seqZ_cons by lia. cbn [map nth]. by rewrite Z.add_0_r. Qed.

(** The two halves of a cluster number. *)
Lemma join_cluster c : 0 <= c < 2 ^ 32 -> Z.lor (Z.shiftl (u16 (Z.shiftr c 16)) 16) (u16 (Z.land c 0xFFFF)) = c.
Proof.
  intros Hc. change 0xFFFF with (Z.ones 16). rewrite Z.land_ones, Z.shiftr_div_pow2 by lia.
  assert (0 <= c / 2 ^ 16 < 2 ^ 16) as Hq by (split; [apply Z.div_pos; lia|apply Z.div_lt_upper_bound; lia]).
  pose proof (Z.mod_pos_bound c (2 ^ 16) ltac:(lia)) as Hm. rewrite !(wrap_small 16) by lia. rewrite Z.shiftl_mul_pow2 by lia.
  pose proof (Z.add_lor_land (c / 2 ^ 16 * 2 ^ 16) (c mod 2 ^ 16)) as E.
  assert (Z.land (c / 2 ^ 16 * 2 ^ 16) (c mod 2 ^ 16) = 0) as E0.
  { rewrite <- (Z.land_ones c 16) by lia. rewrite (Z.land_comm c), Z.land_assoc, Z.land_ones, Z.mod_mul, Z.land_0_l by lia. done. }
  pose proof (Z.div_mod c (2 ^ 16) ltac:(lia)). lia.
Qed.

(** Bytes a change of the entry at [off] leaves alone. *)
Definition elsewhere (off : Z) (b b' : buffer) : Prop := forall a, ~ off <= a < off + 32 -> b' a = b a.

Definition point (off first size : Z) (b : buffer) : buffer := set_size off size (set_cluster off first b).

Lemma point_outside off first size b a : ~ off + 20 <= a < off + 32 -> point off first size b a = b a.
Proof. intros Ha. unfold point, set_size, set_cluster. rewrite !store_outside by (cbn; lia). done. Qed.

(** The entry after its cluster and size were set. *)
Lemma point_dirent off first size b : 0 <= first < 2 ^ 32 -> 0 <= size < 2 ^ 32 ->
  let de := get_dirent (point off first size b) off in
  name de = name (get_dirent b off) /\ attr de = attr (get_dirent b off) /\ de_cluster de = first /\ file_size de = size.
Proof.
  intros Hf Hs. cbv zeta. unfold get_dirent at 1 3 5 6. cbn [name attr file_size]. split_and!.
  - apply map_ext_in. intros i Hi. apply list_elem_of_In, elem_of_seqZ in Hi. apply point_outside. lia.
  - unfold get_dirent. cbn [attr]. apply point_outside. lia.
  - unfold de_cluster, get_dirent. cbn [first_cluster_hi first_cluster_lo]. unfold point, set_size, set_cluster.
    rewrite !(load_store_other 4 2) by (cbn; lia). rewrite load_store_same by (pose proof (wrap_range 16 (Z.shiftr first 16)); cbn in *; lia).
    rewrite (load_store_other 2 2) by (cbn; lia). rewrite load_store_same by (pose proof (wrap_range 16 (Z.land first 65535)); cbn in *; lia). by apply join_cluster.
  - unfold point, set_size. rewrite (wrap_small 32) by lia. apply load_store_same. cbn. lia.
Qed.

(** ** Scanning a cluster *)

Lemma scan_ext n : forall i b b' nm, 0 <= i -> (forall a, i * 32 <= a < (i + Z.of_nat n) * 32 -> b' a = b a) -> scan_entries n i b' nm = scan_entries n i b nm.
Proof.
  induction n as [|n IH]; intros i b b' nm Hi E; [done|]. cbn [scan_entries]. unfold SIZEOF_DIRENT.
  rewrite (get_dirent_ext b b') by (intros a Ha; apply E; lia). rewrite (IH (i + 1) b b' nm) by (lia || (intros a Ha; apply E; lia)). done.
Qed.

(** Scanning sees names and attributes only. *)
Lemma scan_names n : forall i b b' nm,
  (forall k, name (get_dirent b' (k * 32)) = name (get_dirent b (k * 32)) /\ attr (get_dirent b' (k * 32)) = attr (get_dirent b (k * 32))) ->
  scan_entries n i b' nm = scan_entries n i b nm.
Proof.
  induction n as [|n IH]; intros i b b' nm E; [done|]. cbn [scan_entries]. unfold SIZEOF_DIRENT. rewrite (IH (i + 1) b b' nm E).
  destruct (E i) as [En Ea]. unfold is_end, is_deleted, names_match, dirent_to_name. rewrite En, Ea. done.
Qed.

Lemma scan_point n k first size b nm i : scan_entries n i (point (k * 32) first size b) nm = scan_entries n i b nm.
Proof.
  apply scan_names. intros j. unfold get_dirent. cbn [name attr]. split; [|apply point_outside; lia].
  apply map_ext_in. intros q Hq. apply list_elem_of_In, elem_of_seqZ in Hq. apply point_outside. lia.
Qed.

Lemma scan_hit_range n : forall i b nm k, scan_entries n i b nm = ScanHit k -> i <= k < i + Z.of_nat n.
Proof.
  induction n as [|n IH]; intros i b nm k; cbn [scan_entries]; [done|]. destruct (is_end _); [done|].
  destruct (_ || _); [intros Hk; apply IH in Hk; lia|]. destruct (names_match _ _); [intros [= <-]; lia|intros Hk; apply IH in Hk; lia].
Qed.

(** ** Placing an entry *)

(** The entry [place_file] writes. *)
Definition placed (off : Z) (nm83 : list Z) (first size : Z) (b : buffer) : buffer :=
  point off first size (set_attr off FAT_ATTR_ARCHIVE (set_name off nm83 b)).

Lemma placed_outside off nm83 first size b : elsewhere off b (placed off nm83 first size b).
Proof.
  intros a Ha. unfold placed. rewrite point_outside by lia. unfold set_attr. rewrite upd_ne by lia. unfold set_name.
  destruct (Z.leb_spec off a), (Z.ltb_spec a (off + 11)); cbn [andb]; (done || lia).
Qed.

Lemma placed_dirent off nm83 first size b : length nm83 = 11%nat -> 0 <= first < 2 ^ 32 -> 0 <= size < 2 ^ 32 ->
  let de := get_dirent (placed off nm83 first size b) off in
  name de = nm83 /\ attr de = FAT_ATTR_ARCHIVE /\ de_cluster de = first /\ file_size de = size.
Proof.
  intros Hl Hf Hs. cbv zeta. destruct (point_dirent off first size (set_attr off FAT_ATTR_ARCHIVE (set_name off nm83 b)) Hf Hs) as (E1 & E2 & E3 & E4).
  fold (placed off nm83 first size b) in *. split_and!; [rewrite E1|rewrite E2|done|done].
  - unfold get_dirent. cbn [name]. set (f := fun i => _). apply (nth_ext (map f (seqZ 0 11)) nm83 (f 0) 0); [by rewrite length_map, length_seqZ, Hl|].
    intros n Hn. rewrite length_map, length_seqZ in Hn. rewrite map_nth.
    assert (nth n (seqZ 0 11) 0 = Z.of_nat n) as -> by (apply nth_lookup_Some, lookup_seqZ; lia). unfold f.
    unfold set_attr. rewrite upd_ne by lia. unfold set_name. destruct (Z.leb_spec off (off + Z.of_nat n)), (Z.ltb_spec (off + Z.of_nat n) (off + 11)); cbn [andb]; try lia. f_equal. lia.
  - unfold get_dirent. cbn [attr]. unfold set_attr. apply upd_eq.
Qed.

(** A name that does not look like the end of a directory or a deleted file. *)
Definition name_ok (nm : list Z) : Prop :=
  length (name_to_83 nm) = 11%nat /\ nth 0 (name_to_83 nm) 0 <> 0 /\ nth 0 (name_to_83 nm) 0 <> 0xE5.

Definition slot (b : buffer) (i : Z) : bool := (b (i * SIZEOF_DIRENT) =? 0) || (b (i * SIZEOF_DIRENT) =? 0xE5).

(** A file placed in the first free slot is found there. *)
Lemma scan_placed nm first size b : name_ok nm -> 0 <= first < 2 ^ 32 -> 0 <= size < 2 ^ 32 -> forall n i k,
  (forall h, scan_entries n i b nm <> ScanHit h) -> find_index n i (slot b) = Some k ->
  scan_entries n i (placed (k * SIZEOF_DIRENT) (name_to_83 nm) first size b) nm = ScanHit k.
Proof.
  intros (Hl & N0 & N1) Hf Hs. unfold SIZEOF_DIRENT. induction n as [|n IH]; intros i k Hno Hk; [done|]. cbn [find_index] in Hk. cbn [scan_entries] in *. unfold SIZEOF_DIRENT in *.
  destruct (slot b i) eqn:Eslot.
  - injection Hk as <-. destruct (placed_dirent (i * 32) (name_to_83 nm) first size b Hl Hf Hs) as (E1 & E2 & _ & _). unfold is_end, is_deleted, names_match. rewrite E1, E2.
    apply Z.eqb_neq in N0, N1. rewrite N0, N1. cbn [orb]. rewrite bool_decide_true by done. done.
  - assert (i < k) as Hik by (apply find_index_Some in Hk; lia).
    rewrite (get_dirent_ext b) by (intros a Ha; apply placed_outside; lia). unfold slot, SIZEOF_DIRENT in Eslot. apply orb_false_iff in Eslot as [S0 S1].
    unfold is_end, is_deleted in *. rewrite get_name_0 in *. rewrite S0, S1 in *. cbn [orb] in *.
    destruct (attr (get_dirent b (i * 32)) =? FAT_ATTR_LFN); [by apply IH|]. destruct (names_match nm (get_dirent b (i * 32))); [by destruct (Hno i)|by apply IH].
Qed.

(** Without a free slot the end of the directory is not in the cluster. *)
Lemma scan_no_slot nm b : forall n i, find_index n i (slot b) = None -> scan_entries n i b nm <> ScanEnd.
Proof.
  induction n as [|n IH]; intros i; cbn [find_index scan_entries]; [done|]. destruct (slot b i) eqn:Eslot; [done|]. unfold slot, SIZEOF_DIRENT in *. apply orb_false_iff in Eslot as [S0 S1].
  intros Hn. unfold is_end. rewrite get_name_0, S0. destruct (_ || _); [by apply IH|]. destruct (names_match _ _); [done|by apply IH].
Qed.

(** ** Directories of a volume *)

Section dirs.
Context {T : Type} `{HSL : StoreLaws T}.
Variable junk : buffer.
Variable v : fat32_vol_t.
Hypothesis Hv : vol_ok v.
Implicit Types (s : T) (F : Z -> Z) (D : Z -> Z -> Z) (l : list Z).

#[local] Notation bpc := (bytes_per_cluster v).
#[local] Notation abs := (abs v).
#[local] Notation valid := (valid v).
#[local] Notation chain := (chain v).

(** The entry of a name in the directory whose clusters are [l]. *)
Fixpoint lookup D l (nm : list Z) : option (fat32_dirent_t * Z * Z) :=
  match l with
  | [] => None
  | c :: l' =>
      match scan_entries (entries v) 0 (D c) nm with
      | ScanEnd => None
      | ScanHit i => Some (get_dirent (D c) (i * SIZEOF_DIRENT), c, i * SIZEOF_DIRENT)
      | ScanNone => lookup D l' nm
      end
  end.

Lemma entries_fit : Z.of_nat (entries v) * 32 <= bpc.
Proof using Hv. pose proof (bpc_pos v Hv). unfold entries, SIZEOF_DIRENT. rewrite Z2Nat.id by (apply Z.div_pos; lia). pose proof (Z.mul_div_le bpc 32). lia. Qed.

(** A buffer that holds the cluster. *)
Lemma scan_cluster (b b' : buffer) nm : (forall i, 0 <= i < bpc -> b' i = b i) ->
  scan_entries (entries v) 0 b' nm = scan_entries (entries v) 0 b nm /\
  forall i, scan_entries (entries v) 0 b nm = ScanHit i -> get_dirent b' (i * SIZEOF_DIRENT) = get_dirent b (i * SIZEOF_DIRENT).
Proof using Hv.
  intros E. pose proof entries_fit. split.
  - apply scan_ext; [lia|]. intros a Ha. apply E. lia.
  - intros i Hi. apply scan_hit_range in Hi. unfold SIZEOF_DIRENT. apply get_dirent_ext. intros a Ha. apply E. lia.
Qed.

Lemma find_in_dir_ok nm l : forall s F D c fuel, abs s F D -> chain F c l -> (length l < fuel)%nat ->
  wp (find_in_dir junk fuel v c nm) s (fun r s' => r = lookup D l nm /\ abs s' F D).
Proof using Hv.
  induction l as [|x l IH]; intros s F D c fuel Habs Hc Hfuel; (destruct fuel as [|fuel]; [cbn in Hfuel; lia|]); cbn [find_in_dir lookup].
  { cbn [FatFiles.chain] in Hc. rewrite Hc. by apply wp_ret. }
  destruct Hc as (-> & Hx & Hc). rewrite (valid_in_chain v Hv x Hx). eapply wp_use; [apply (cluster_read_ok junk v Hv); [exact Habs|done]|].
  intros base s1 [Hb Habs1]. destruct (scan_cluster (D x) base nm Hb) as [-> Hde]. destruct (scan_entries (entries v) 0 (D x) nm) as [|i|] eqn:Es.
  - by apply wp_ret.
  - apply wp_ret. by rewrite Hde.
  - eapply wp_use; [apply (fat_entry_ok junk v Hv); [exact Habs1|by apply valid_entry]|]. intros r s2 [-> Habs2]. apply IH; auto. cbn in Hfuel. lia.
Qed.

(** The table and the clusters outside a directory stay. *)
Definition outside F D F' D' l : Prop := forall c, ~ In c l -> F' c = F c /\ forall i, D' c i = D c i.

Lemma free_slot_eq (b b' : buffer) : (forall i, 0 <= i < bpc -> b' i = b i) -> free_slot v b' = find_index (entries v) 0 (slot b).
Proof using Hv.
  intros E. pose proof entries_fit as Hfit. unfold free_slot, slot, SIZEOF_DIRENT.
  assert (forall n i, 0 <= i -> (i + Z.of_nat n) * 32 <= bpc -> find_index n i (fun i => (b' (i * 32) =? 0) || (b' (i * 32) =? 0xE5)) =
    find_index n i (fun i => (b (i * 32) =? 0) || (b (i * 32) =? 0xE5))) as Hn; [|apply Hn; lia].
  induction n as [|n IH]; intros i Hi Hle; cbn [find_index]; [done|]. rewrite E by lia. destruct (_ || _); [done|]. apply IH; lia.
Qed.

(** The result of placing a file of [size] bytes with first cluster [first] under
    the name [nm] in the directory whose clusters were [l]. *)
Record placed_in F D l nm first size F' D' l' : Prop := {
  pl_chain : chain F' (hd 0 l') l';
  pl_more : exists x, l' = l \/ l' = l ++ [x] /\ valid x /\ F x = 0;
  pl_outside : outside F D F' D' l';
  pl_used : (forall y, In y l -> 2 <= F y) -> forall y, In y l' -> 2 <= F' y;
  pl_entry : exists de cl off, lookup D' l' nm = Some (de, cl, off) /\ attr de = FAT_ATTR_ARCHIVE /\ de_cluster de = first /\ file_size de = size
}.

(** A directory cluster that is read past: no free slot, and not the name. *)
Lemma passed D l x nm : lookup D (x :: l) nm = None -> find_index (entries v) 0 (slot (D x)) = None ->
  scan_entries (entries v) 0 (D x) nm = ScanNone /\ lookup D l nm = None.
Proof using Type.
  cbn [lookup]. intros Hl Hs. pose proof (scan_no_slot nm (D x) _ _ Hs). by destruct (scan_entries (entries v) 0 (D x) nm).
Qed.

Section place.
Variables (nm : list Z) (first size : Z).
Hypothesis Hnm : name_ok nm.
Hypothesis Hfirst : 0 <= first < 2 ^ 32.
Hypothesis Hsize : 0 <= size < 2 ^ 32.

(** Placing in a cluster that has room. *)
Lemma place_here s F D x l fuel i : abs s F D -> valid x -> chain F x (x :: l) -> (forall h, scan_entries (entries v) 0 (D x) nm <> ScanHit h) ->
  find_index (entries v) 0 (slot (D x)) = Some i ->
  wp (place_file junk (S fuel) v x (name_to_83 nm) first size) s (fun ok s' => exists D', ok = true /\ abs s' F D' /\
    placed_in F D (x :: l) nm first size F D' (x :: l)).
Proof using Hv Hnm Hfirst Hsize.
  intros Habs Hx Hc Hno Hi. cbn [place_file]. rewrite (valid_in_chain v Hv x Hx). eapply wp_use; [apply (cluster_read_ok junk v Hv); [exact Habs|done]|].
  intros base s1 [Hb Habs1]. rewrite (free_slot_eq (D x) base Hb), Hi. pose proof entries_fit as Hfit.
  pose proof (proj1 (find_index_Some _ _ _ _ Hi)) as Hir.
  eapply wp_use; [apply (cluster_write_ok v Hv); [exact Habs1|done]|]. cbv beta. intros _ s2 Habs2. apply wp_ret.
  set (e := placed (i * SIZEOF_DIRENT) (name_to_83 nm) first size (D x)). exists (D.[x <- e]). split; [done|]. split.
  { apply (abs_ext v _ _ _ _ _ Habs2); [done|]. intros c' j Hc' Hj. destruct (decide (c' = x)) as [->|]; [rewrite !upd_eq|by rewrite !upd_ne].
    unfold e, placed, point, set_size, set_cluster, set_attr, set_name. repeat apply store_ext.
    destruct (decide (j = i * SIZEOF_DIRENT + 11)) as [->|]; [by rewrite !upd_eq|rewrite !upd_ne by done]. destruct (_ && _); [done|]. by apply Hb. }
  split.
  - exact Hc.
  - exists 0. by left.
  - intros c Hc'. split; [done|]. intros j. rewrite upd_ne; [done|]. intros ->. apply Hc'. by left.
  - done.
  - pose proof (scan_placed nm first size (D x) Hnm Hfirst Hsize _ _ _ Hno Hi) as Hscan. destruct Hnm as (Hl & _).
    destruct (placed_dirent (i * SIZEOF_DIRENT) (name_to_83 nm) first size (D x) Hl Hfirst Hsize) as (_ & E2 & E3 & E4). fold e in Hscan, E2, E3, E4.
    cbn [lookup]. rewrite upd_eq, Hscan. eauto 10.
Qed.

Lemma chain_tail F x y l : chain F x (x :: y :: l) -> F x = y.
Proof using Type. by intros (_ & _ & -> & _). Qed.

(** What a result for the rest of the directory says of all of it. *)
Lemma placed_cons F D x l F' D' l' : chain F x (x :: l) -> l <> [] -> ~ In x l' -> hd 0 l' = hd 0 l -> scan_entries (entries v) 0 (D x) nm = ScanNone ->
  placed_in F D l nm first size F' D' l' -> placed_in F D (x :: l) nm first size F' D' (x :: l').
Proof using Hv.
  intros Hc Hne Hx Eh Hscan [P1 P2 P3 P5 P4]. destruct (P3 x Hx) as [EF ED]. destruct l as [|y l]; [done|]. cbn [hd] in Eh. split.
  - cbn [hd FatFiles.chain]. destruct Hc as (_ & Hxv & Hy & _). split_and!; auto. rewrite EF, Hy, <- Eh. exact P1.
  - destruct P2 as [z [->|(-> & ? & ?)]]; exists z; [by left|right; by split_and!].
  - intros c Hc'. apply P3. intros Hin. apply Hc'. by right.
  - intros HF z [<-|Hz]; [rewrite EF; apply HF; by left|]. apply P5; [|done]. intros w Hw. apply HF. by right.
  - cbn [lookup]. rewrite (proj1 (scan_cluster (D x) (D' x) nm ltac:(auto))), Hscan. exact P4.
Qed.

Lemma not_hit D x l : lookup D (x :: l) nm = None -> forall h, scan_entries (entries v) 0 (D x) nm <> ScanHit h.
Proof using Type. cbn [lookup]. intros Hl h E. by rewrite E in Hl. Qed.

(** Extending the directory by a cluster for the entry. *)
Lemma place_extend s F D x fuel : abs s F D -> chain F x [x] -> 2 <= F x -> 1 <= Z.of_nat (entries v) -> lookup D [x] nm = None ->
  find_index (entries v) 0 (slot (D x)) = None ->
  wp (c ← chain_extend junk v x; if (FAT32_EOC <=? F x) && (c =? 0) then mret false else place_file junk (S fuel) v c (name_to_83 nm) first size) s
    (fun ok s' => exists F' D', abs s' F' D' /\
      (ok = true /\ (exists l', hd 0 l' = x /\ placed_in F D [x] nm first size F' D' l') \/ ok = false /\ forall c, valid c -> F c <> 0)).
Proof using Hv Hnm Hfirst Hsize.
  intros Habs Hc HFx Hent Hl Hslot. destruct (passed D [] x nm Hl Hslot) as [Hscan _]. pose proof Hc as (_ & Hx & Hend). cbn [FatFiles.chain] in Hend.
  assert (FAT32_EOC <= F x) as Heoc by (unfold in_chain in Hend; apply andb_false_iff in Hend as [E|E]; [by apply Z.ltb_ge in E|apply Z.leb_gt in E; lia]).
  apply wp_bind. unfold chain_extend. eapply wp_use; [apply (alloc_cluster_ok junk v Hv); exact Habs|].
  intros c s1 [(-> & Hfull & Habs1)|(Hcv & Hz & _ & Habs1)].
  { cbn [Z.eqb]. apply wp_ret. apply Z.leb_le in Heoc as ->. cbn [andb]. apply wp_ret. exists F, D. split; [done|]. by right. }
  assert (c <> x /\ 2 <= c) as [Hcx Hc2] by (split; [intros ->; lia|apply Hcv]).
  assert ((c =? 0) = false) as Hc0 by (apply Z.eqb_neq; lia). rewrite Hc0.
  eapply wp_use; [apply (fat_set_entry_ok junk v Hv); [exact Habs1|by apply valid_entry]|]. cbv beta. intros _ s2 Habs2. apply wp_ret. rewrite Hc0, andb_false_r.
  assert (Z.land c FAT32_MASK = c) as Em.
  { change FAT32_MASK with (Z.ones 28). rewrite Z.land_ones by lia. apply Z.mod_small. unfold FatProps.valid in Hcv. pose proof (vo_clusters v Hv). lia. }
  rewrite Em in Habs2. set (F2 := F.[c <- FAT32_EOC].[x <- c]) in *. set (D1 := D.[c <- zeros]) in *.
  assert (F2 c = FAT32_EOC /\ F2 x = c) as [E1 E2] by (unfold F2; split; [rewrite upd_ne by done|]; by rewrite upd_eq).
  assert (chain F2 c [c]) as Hcc by (cbn [FatFiles.chain]; split_and!; auto; rewrite E1; done).
  assert (D1 c = zeros) as ED1 by apply upd_eq. destruct (entries v) as [|n] eqn:En; [lia|].
  eapply wp_mono; [|apply (place_here s2 F2 D1 c [] fuel 0 Habs2 Hcv Hcc); rewrite ED1, En; [|done]].
  2: { intros h. cbn. done. }
  intros ok s3 (D' & -> & Ha & P). exists F2, D'. split; [done|]. left. split; [done|]. exists [x; c]. split; [done|].
  destruct P as [_ _ P3 _ P4]. assert (~ In x [c]) as Hxc by (intros [->|[]]; done). destruct (P3 x Hxc) as [_ EDx].
  split.
  - cbn [hd FatFiles.chain]. rewrite E2, E1. by split_and!.
  - exists c. right. by split_and!.
  - intros y Hy. cbn in Hy. destruct (P3 y) as [_ EDy]; [cbn; tauto|]. split; [unfold F2; by rewrite !upd_ne by (intros ->; tauto)|].
    intros i. rewrite EDy. unfold D1. by rewrite upd_ne by (intros ->; tauto).
  - intros _ y [<-|[<-|[]]]; [lia|rewrite E1; done].
  - cbn [lookup] in *. rewrite (proj1 (scan_cluster (D x) (D' x) nm ltac:(intros; rewrite EDx; unfold D1; by rewrite upd_ne))). rewrite En, Hscan, <- En. exact P4.
Qed.

(** A file is placed in the directory, or the disk is full. *)
Lemma place_file_ok l : forall s F D fuel x, abs s F D -> chain F x (x :: l) -> (forall y, In y (x :: l) -> 2 <= F y) -> 1 <= Z.of_nat (entries v) ->
  lookup D (x :: l) nm = None -> (length l + 2 <= fuel)%nat ->
  wp (place_file junk fuel v x (name_to_83 nm) first size) s (fun ok s' => exists F' D', abs s' F' D' /\
    (ok = true /\ (exists l', hd 0 l' = x /\ placed_in F D (x :: l) nm first size F' D' l') \/ ok = false /\ forall c, valid c -> F c <> 0)).
Proof using Hv Hnm Hfirst Hsize.
  induction l as [|y l IH]; intros s F D fuel x Habs Hc HF Hent Hl Hfuel; (destruct fuel as [|fuel]; [lia|]); pose proof Hc as (_ & Hx & Hc');
    destruct (find_index (entries v) 0 (slot (D x))) as [i|] eqn:Hslot.
  1, 3: eapply wp_mono; [|apply (place_here s F D x _ fuel i Habs Hx Hc); [exact (not_hit D x _ Hl)|done]];
    intros ok s' (D' & -> & Ha & P); exists F, D'; split; [done|]; left; split; [done|]; eexists; split; [|exact P]; done.
  all: cbn [place_file]; rewrite (valid_in_chain v Hv x Hx); (eapply wp_use; [apply (cluster_read_ok junk v Hv); [exact Habs|done]|]);
    intros base s1 [Hb Habs1]; rewrite (free_slot_eq (D x) base Hb), Hslot;
    (eapply wp_use; [apply (fat_entry_ok junk v Hv); [exact Habs1|by apply valid_entry]|]); intros r s2 [-> Habs2].
  - destruct fuel as [|fuel]; [cbn in Hfuel; lia|].
    assert (FAT32_EOC <= F x) as Heoc. { cbn [FatFiles.chain] in Hc'. unfold in_chain in Hc'. specialize (HF x ltac:(by left)). apply andb_false_iff in Hc' as [E|E]; [by apply Z.ltb_ge in E|apply Z.leb_gt in E; lia]. }
    assert ((FAT32_EOC <=? F x) = true) as E by (by apply Z.leb_le). pose proof (place_extend s2 F D x fuel Habs2 Hc (HF x ltac:(by left)) Hent Hl Hslot) as Hext. rewrite E in *. exact Hext.
  - destruct (passed D _ x nm Hl Hslot) as [Hscan Hl']. destruct Hc' as (Ey & Hy & Hc'). assert ((FAT32_EOC <=? F x) = false) as E.
    { rewrite Ey. apply Z.leb_gt. pose proof (valid_in_chain v Hv y Hy) as Hi. apply andb_true_iff in Hi as [Hi _]. by apply Z.ltb_lt in Hi. }
    rewrite E. apply wp_bind, wp_ret. cbn [andb]. rewrite Ey.
    eapply wp_mono; [|apply (IH s2 F D fuel y Habs2); auto; [by split_and!|intros z Hz; apply HF; by right|cbn in Hfuel; lia]].
    intros ok s' (F' & D' & Ha & [(-> & l' & Eh & P)|Hfull]); exists F', D'; (split; [done|]); [left|by right]. split; [done|]. exists (x :: l').
    split; [done|]. apply placed_cons; auto. pose proof (chain_nodup v Hv F x _ Hc) as Hnd. apply list.NoDup_cons in Hnd as [Hnx _]. rewrite list_elem_of_In in Hnx.
    destruct (pl_more _ _ _ _ _ _ _ _ _ P) as [z [->|(-> & _ & Hz)]]; [done|]. rewrite in_app_iff. intros [?|[->|[]]]; [done|]. specialize (HF x ltac:(by left)). lia.
Qed.


End place.


End dirs.


End FatDirs.
