(* ===== verification/FatClaims.v ===== *)
(** * Files of FAT32 volumes are read back as they were written *)

From S2P Require Import Prelude Mem Block Fat32 FatProps FatFiles FatDirs.
Import Mem Block Fat32 FatProps FatFiles FatDirs.

Module FatClaims.

(** ** Names and paths *)

Lemma span_all p l : (forall c, In c l -> p c = false) -> span p l = l.
Proof. induction l as [|c l IH]; intros Hp; cbn [span]; [done|]. rewrite Hp by (by left). rewrite IH; [done|]. intros x Hx. apply Hp. by right. Qed.

Lemma pad_length n l : (length l <= n)%nat -> length (pad n l) = n.
Proof. intros Hl. unfold pad. rewrite length_app, repeat_length. lia. Qed.

Lemma name_83_length nm : length (name_to_83 nm) = 11%nat.
Proof.
  unfold name_to_83. set (base := take 8 _). assert (length base <= 8)%nat by (unfold base; rewrite length_take; lia).
  assert (length (pad 11 (map upper base)) = 11%nat) as E by (apply pad_length; rewrite length_map; lia).
  destruct (drop (length base) nm) as [|x ext]; [done|]. destruct (decide (x = 46)) as [->|Hx].
  - rewrite length_app, !pad_length; [done|rewrite length_map, length_take; lia|rewrite length_map; lia].
  - destruct x as [|p|p]; try exact E. repeat (destruct p as [p|p|]; try exact E). done.
Qed.

(** What a name may be: no NUL and no slash, short enough for the driver's
    arrays, and not starting like a deleted entry. *)
Definition plain (nm : list Z) : Prop :=
  nm <> [] /\ (length nm < 127)%nat /\ (forall c, In c nm -> c <> 0 /\ c <> 47) /\ hd 0 nm <> 0xE5.

Lemma upper_facts c : (upper c = 0 -> c = 0) /\ (upper c = 0xE5 -> c = 0xE5).
Proof. unfold upper. destruct (Z.leb_spec 97 c), (Z.leb_spec c 122); cbn [andb]; lia. Qed.

Lemma pad_head n l : (0 < n)%nat -> hd 0 (pad n l) = match l with [] => 32 | c :: _ => c end.
Proof. intros Hn. unfold pad. destruct l; [|done]. cbn. rewrite Nat.sub_0_r. destruct n; [lia|done]. Qed.

Lemma name_83_head nm : exists l, hd 0 (name_to_83 nm) = hd 0 (pad 8 (map upper l)) /\ (l = [] \/ hd 0 l = hd 0 nm /\ l <> []).
Proof.
  exists (take 8 (span (Z.eqb 46) nm)). set (base := take 8 _). split.
  - assert (hd 0 (pad 11 (map upper base)) = hd 0 (pad 8 (map upper base))) as E by (rewrite !pad_head by lia; done).
    unfold name_to_83. fold base. destruct (drop (length base) nm) as [|x ext]; [done|]. destruct (decide (x = 46)) as [->|Hx].
    + assert (pad 8 (map upper base) <> []) as Hp by (unfold pad; destruct base; done). destruct (pad 8 (map upper base)); done.
    + destruct x as [|p|p]; try exact E. repeat (destruct p as [p|p|]; try exact E). done.
  - unfold base. destruct nm as [|c nm]; cbn [span]; [by left|]. destruct (46 =? c); [by left|]. by right.
Qed.

Lemma plain_name_ok nm : plain nm -> name_ok nm.
Proof.
  intros (Hne & _ & Hc & Hd). split; [apply name_83_length|]. destruct (name_83_head nm) as (l & E & Hl).
  assert (forall k, nth 0 k 0 = hd 0 k) as Hnth by (by intros [|]). rewrite !Hnth, E, !pad_head by lia. destruct Hl as [->|[El Hl]]; [done|].
  destruct l as [|c l]; [done|]. cbn [map hd] in *. destruct (upper_facts c) as [U1 U2]. destruct nm as [|d nm]; [done|]. cbn in El, Hd. subst d.
  destruct (Hc c ltac:(by left)). split; intros U; auto.
Qed.

Lemma last_slash_root nm : (forall c, In c nm -> c <> 47) -> last_slash (47 :: nm) = 0%nat.
Proof.
  intros Hc. unfold last_slash. cbn [fold_left]. change (47 =? 47) with true. cbn iota. generalize 1%nat as i.
  assert (forall l i r, (forall c, In c l -> c <> 47) -> snd (fold_left (fun '(i, r) c => (S i, if c =? 47 then i else r)) l (i, r)) = r) as Hf.
  { induction l as [|c l IH]; intros i r Hl; cbn [fold_left]; [done|]. pose proof (Hl c ltac:(by left)) as Hn. apply Z.eqb_neq in Hn as ->. apply IH. intros x Hx. apply Hl. by right. }
  intros i. by apply Hf.
Qed.

Lemma split_root lim rest nm : plain nm -> split_path lim rest (47 :: nm) = ([47], nm).
Proof.
  intros (_ & Hl & Hc & _). unfold split_path. rewrite last_slash_root by (intros c Hin; by apply Hc). cbn [tail].
  apply Nat.ltb_lt in Hl as ->. done.
Qed.

(** ** Files in the root directory *)

Section root.
Context {T : Type} `{HSL : StoreLaws T}.
Variables (junk : buffer) (stack : list Z).
Variable v : fat32_vol_t.
Hypothesis Hv : vol_ok v.
Implicit Types (s : T) (F : Z -> Z) (D : Z -> Z -> Z) (l rl : list Z).

#[local] Notation bpc := (bytes_per_cluster v).
#[local] Notation abs := (abs v).
#[local] Notation valid := (valid v).
#[local] Notation chain := (chain v).
#[local] Notation lookup := (lookup v).
#[local] Notation clusters := (clusters v).
#[local] Notation file_byte := (file_byte v).

(** The root directory has clusters [rl], all in use. *)
Definition root_ok F rl : Prop := chain F (root_cluster v) rl /\ rl <> [] /\ forall x, In x rl -> 2 <= F x.

(** A chain is no longer than the volume. *)
Lemma chain_length F c l : chain F c l -> (length l <= Z.to_nat (total_clusters v))%nat.
Proof using Hv.
  intros Hc. pose proof (chain_nodup v Hv F c l Hc) as Hnd. destruct (vo_clusters v Hv) as [Ht _].
  rewrite <- (length_seqZ 2 (total_clusters v)). apply NoDup_ListNoDup in Hnd. apply NoDup_incl_length; [done|].
  intros x Hx. apply list_elem_of_In, elem_of_seqZ. pose proof (chain_valid v F c l x Hc Hx) as Hvx. unfold FatProps.valid in Hvx. lia.
Qed.

Lemma root_cluster_eq F rl : root_ok F rl -> de_cluster (root_dirent v) = root_cluster v /\ hd 0 rl = root_cluster v.
Proof using Hv.
  intros (Hc & Hne & _). destruct rl as [|x rl]; [done|]. destruct Hc as (E & Hx & _). split; [|done]. unfold FatProps.valid in Hx. pose proof (vo_clusters v Hv).
  unfold de_cluster, root_dirent. cbn [first_cluster_hi first_cluster_lo]. apply join_cluster. lia.
Qed.

(** Resolving the root, and a name in it. *)
Lemma resolve_root s fuel : wp (resolve_path junk fuel v [47]) s (fun r s' => r = Some (root_dirent v) /\ s' = s).
Proof using Type. by apply wp_ret. Qed.

Lemma resolve_name s F D rl nm fuel : abs s F D -> root_ok F rl -> plain nm -> (Z.to_nat (total_clusters v) < fuel)%nat ->
  wp (resolve_path junk fuel v (47 :: nm)) s (fun r s' => r = option_map (fun x => fst (fst x)) (lookup D rl nm) /\ abs s' F D).
Proof using Hv.
  intros Habs Hroot (Hne & Hlen & Hc & _) Hfuel. destruct (root_cluster_eq F rl Hroot) as [Er _]. pose proof (chain_length F _ rl (proj1 Hroot)) as Hrl.
  assert (exists c nm', nm = c :: nm') as (c & nm' & Enm) by (destruct nm; [done|eauto]).
  assert (take 127 (span (Z.eqb 47) nm) = nm) as Ecomp.
  { rewrite span_all; [apply take_ge; lia|]. intros x Hx. destruct (Hc x Hx). by apply Z.eqb_neq. }
  cbn [resolve_path]. change (resolve_path junk fuel v (47 :: nm)) with (walk junk (S (length nm)) fuel v nm (root_dirent v)).
  assert (walk junk (S (length nm)) fuel v nm (root_dirent v) = (r ← find_in_dir junk fuel v (de_cluster (root_dirent v)) nm;
    match r with None => mret None | Some (de', _, _) => walk junk (length nm) fuel v [] de' end)) as ->.
  { cbn [walk]. rewrite Ecomp, drop_all. rewrite Enm. done. }
  rewrite Er. eapply wp_use; [apply (find_in_dir_ok junk v Hv nm rl); [exact Habs|apply Hroot|lia]|]. intros r s' [-> Ha].
  destruct (lookup D rl nm) as [[[de cl] off]|]; cbn [option_map fst]; [|by apply wp_ret]. rewrite Enm. by apply wp_ret.
Qed.

(** Data that agrees on the directory gives the same entries. *)
Lemma lookup_ext D D' l nm : (forall c, In c l -> forall i, D' c i = D c i) -> lookup D' l nm = lookup D l nm.
Proof using Hv.
  induction l as [|x l IH]; intros E; cbn [FatDirs.lookup]; [done|]. destruct (scan_cluster v Hv (D x) (D' x) nm) as [-> Hde]; [intros; apply E; by left|].
  rewrite IH by (intros c Hc; apply E; by right). destruct (scan_entries (entries v) 0 (D x) nm) as [|i|]; try done. by rewrite Hde.
Qed.

Lemma lookup_in D l nm de cl off : lookup D l nm = Some (de, cl, off) -> In cl l /\ exists i, off = i * SIZEOF_DIRENT.
Proof using Type.
  induction l as [|x l IH]; cbn [FatDirs.lookup]; [done|]. destruct (scan_entries (entries v) 0 (D x) nm) as [|i|]; [done| |].
  - intros [= <- <- <-]. split; [by left|by exists i].
  - intros Hl. destruct (IH Hl). split; [by right|done].
Qed.

Lemma lookup_dirent D l nm de cl off : lookup D l nm = Some (de, cl, off) -> get_dirent (D cl) off = de.
Proof using Type.
  induction l as [|x l IH]; cbn [FatDirs.lookup]; [done|]. destruct (scan_entries (entries v) 0 (D x) nm) as [|i|]; [done| |done]. by intros [= <- <- <-].
Qed.

(** Changing cluster and size of the entry found. *)
Lemma lookup_point D l nm de cl off first size : lookup D l nm = Some (de, cl, off) ->
  lookup (D.[cl <- point off first size (D cl)]) l nm = Some (get_dirent (point off first size (D cl)) off, cl, off).
Proof using Type.
  intros Hl. pose proof (lookup_in D l nm de cl off Hl) as [_ [i Ei]].
  assert (forall c n j, scan_entries n j (D.[cl <- point off first size (D cl)] c) nm = scan_entries n j (D c) nm) as Hscan.
  { intros c n j. destruct (decide (c = cl)) as [->|]; [|by rewrite upd_ne]. rewrite upd_eq, Ei. apply scan_point. }
  revert Hl. induction l as [|x l IH]; cbn [FatDirs.lookup]; [done|]. rewrite Hscan. destruct (scan_entries (entries v) 0 (D x) nm) as [|k|]; [done| |apply IH].
  intros [= _ <- <-]. by rewrite upd_eq.
Qed.

Lemma clusters_enough size : 0 <= size -> size <= Z.of_nat (clusters size) * bpc.
Proof using Hv.
  intros Hs. pose proof (bpc_pos v Hv). unfold FatFiles.clusters. rewrite Z2Nat.id by (apply Z.div_pos; lia).
  pose proof (Z.div_mod (size + bpc - 1) bpc ltac:(lia)). pose proof (Z.mod_pos_bound (size + bpc - 1) bpc ltac:(lia)). lia.
Qed.

(** The root directory has the file [nm], of [size] bytes of [src]. *)
Definition file_at F D rl nm (src : buffer) (size : Z) : Prop :=
  exists de cl off l, lookup D rl nm = Some (de, cl, off) /\ has (attr de) FAT_ATTR_DIRECTORY = false /\ file_size de = size /\
    chain F (de_cluster de) l /\ length l = clusters size /\ forall j, 0 <= j < size -> file_byte D l j = src j.

Lemma read_file_ok s F D rl nm src size fuel buf n : abs s F D -> root_ok F rl -> plain nm -> file_at F D rl nm src size ->
  (Z.to_nat (total_clusters v) < fuel)%nat -> 0 <= size < 2 ^ 32 -> size <= n < 2 ^ 64 ->
  wp (fat32_read_file junk fuel v (47 :: nm) (Some buf) n) s (fun r s' => abs s' F D /\ exists b, r = (size, Some b) /\
    (forall j, 0 <= j < size -> b j = src j) /\ forall j, size <= j -> b j = buf j).
Proof using Hv.
  intros Habs Hroot Hnm (de & cl & off & l & Hl & Hdir & Hsz & Hc & Hlen & Hdata) Hfuel Hsize Hn. unfold fat32_read_file. rewrite (vo_mounted v Hv). cbn [negb].
  eapply wp_use; [apply (resolve_name s F D rl); eauto|]. intros r s1 [-> Habs1]. rewrite Hl. cbn [option_map fst]. rewrite Hdir, Hsz.
  pose proof (chain_length F _ l Hc). pose proof (clusters_enough size ltac:(lia)) as He. rewrite <- Hlen in He.
  eapply wp_use; [apply (read_chain_ok junk v Hv l s1 F D (de_cluster de) size 0 buf n fuel Habs1 Hc); lia|]. intros [k b] s2 (Ek & Ha & Hout & Hin). cbn [fst snd] in *. subst k.
  apply wp_ret. split; [done|]. exists b. rewrite (swrap_small 64) by lia. split; [done|]. split; [|intros j Hj; apply Hout; lia].
  intros j Hj. rewrite <- Hdata by done. rewrite <- Hin by done. done.
Qed.

(** The data of a new file: its clusters [l] were free and hold it. *)
Record data_in F D (src : buffer) (size : Z) l F' D' : Prop := {
  di_length : length l = clusters size;
  di_chain : chain F' (hd 0 l) l;
  di_bytes j : 0 <= j < size -> file_byte D' l j = src j;
  di_free x : In x l -> valid x /\ F x = 0;
  di_rest c : ~ In c l -> D' c = D c /\ (c <> 0 -> F' c = F c);
  di_used x : In x l -> F' x <> 0
}.

Lemma write_data_in s F D src size fuel : abs s F D -> 0 <= size < 2 ^ 32 -> (clusters size < fuel)%nat ->
  wp (write_data junk fuel v src 0 size 0 0) s (fun r s' => exists F' D', abs s' F' D' /\
    (r = None \/ exists l, r = Some (hd 0 l) /\ data_in F D src size l F' D')).
Proof using Hv.
  intros Habs Hs Hf. eapply wp_mono; [|apply (write_data_ok junk v Hv src fuel s F D 0 size 0 0 Habs Hs Hf); done].
  intros r s' (l & Hfr & Ha & Hres). exists (linked F 0 l), (stored v D src 0 size l). split; [done|].
  destruct Hres as [[-> Hlen]|(-> & _)]; [right|by left]. exists l. split; [done|]. destruct (fresh_facts v Hv l F 0 Hfr) as (N & Hfree & Hrest & Hc & _); [done|].
  split; auto.
  - destruct l; [done|exact Hc].
  - intros j Hj. by rewrite (stored_bytes v Hv src l D 0 size N Hlen ltac:(lia) j Hj).
  - intros c Hc'. split; [by apply stored_other|]. intros Hc0. by apply Hrest.
  - by apply (linked_used v Hv).
Qed.

Lemma hd_range l : (forall x, In x l -> valid x) -> 0 <= hd 0 l < 2 ^ 32.
Proof using Hv. intros Hl. pose proof (vo_clusters v Hv). destruct l as [|x l]; cbn [hd]; [lia|]. specialize (Hl x ltac:(by left)). unfold FatProps.valid in Hl. lia. Qed.

(** Data out of the clusters of a file does not matter to it. *)
Lemma file_byte_ext D D' l j : (forall c i, In c l -> D' c i = D c i) -> 0 <= j < Z.of_nat (length l) * bpc -> file_byte D' l j = file_byte D l j.
Proof using Hv.
  intros E Hj. pose proof (bpc_pos v Hv). unfold FatFiles.file_byte. apply E. apply nth_In.
  assert (0 <= j / bpc < Z.of_nat (length l)) by (split; [apply Z.div_pos; lia|apply Z.div_lt_upper_bound; lia]). lia.
Qed.

(** An entry of the root that gets the new data. *)
Lemma replace_ok s F D rl nm src size l F' D' de cl off : abs s F' D' -> root_ok F rl -> data_in F D src size l F' D' -> 0 <= size < 2 ^ 32 ->
  lookup D rl nm = Some (de, cl, off) -> has (attr de) FAT_ATTR_DIRECTORY = false ->
  wp (cbuf ← cluster_read junk v cl; cluster_write v cl (set_size off size (set_cluster off (hd 0 l) cbuf))) s
    (fun _ s' => exists D2, abs s' F' D2 /\ root_ok F' rl /\ file_at F' D2 rl nm src size).
Proof using Hv.
  intros Habs (Hc & Hne & HF) [D1 D2 D3 D4 D5 D6] Hs Hl Hdir. destruct (lookup_in D rl nm de cl off Hl) as [Hcl [i Ei]].
  assert (forall x, In x rl -> ~ In x l) as Hsep by (intros x Hx Hxl; specialize (HF x Hx); destruct (D4 x Hxl); lia).
  pose proof (chain_valid v F _ rl cl Hc Hcl) as Hclv. pose proof (hd_range l ltac:(intros x Hx; by apply D4)) as Hhd.
  eapply wp_use; [apply (cluster_read_ok junk v Hv); [exact Habs|done]|]. intros cbuf s1 [Hb Habs1].
  eapply wp_mono; [|apply (cluster_write_ok v Hv); [exact Habs1|done]]. cbv beta. intros _ s2 Habs2. fold (point off (hd 0 l) size cbuf) in Habs2.
  assert (D' cl = D cl) as Ecl by (by apply D5, Hsep). set (e := point off (hd 0 l) size (D cl)). exists (D'.[cl <- e]). split_and!.
  - apply (abs_ext v _ _ _ _ _ Habs2); [done|]. intros c j _ Hj. destruct (decide (c = cl)) as [->|]; [rewrite !upd_eq|by rewrite !upd_ne].
    unfold e, point, set_size, set_cluster. repeat apply store_ext. rewrite <- Ecl. by apply Hb.
  - split; [|split; [done|]].
    + apply (chain_ext v F); [|done]. intros x Hx. apply D5; [by apply Hsep|]. specialize (HF x Hx). pose proof (chain_valid v F _ rl x Hc Hx) as Hxv. unfold FatProps.valid in Hxv. lia.
    + intros x Hx. pose proof (chain_valid v F _ rl x Hc Hx) as Hxv. unfold FatProps.valid in Hxv. rewrite (proj2 (D5 x (Hsep x Hx))) by lia. by apply HF.
  - destruct (point_dirent off (hd 0 l) size (D cl) Hhd Hs) as (_ & E2 & E3 & E4). fold e in E2, E3, E4.
    assert (get_dirent (D cl) off = de) as Ede by (apply (lookup_dirent D rl nm de cl off Hl)). rewrite Ede in E2.
    exists (get_dirent e off), cl, off, l. rewrite E2, E3, E4. split_and!; auto.
    + pose proof (lookup_point D rl nm de cl off (hd 0 l) size Hl) as LP. fold e in LP. rewrite <- LP. apply lookup_ext. intros c Hc' j. destruct (decide (c = cl)) as [->|]; [by rewrite !upd_eq|rewrite !upd_ne by done].
      by rewrite (proj1 (D5 c (Hsep c Hc'))).
    + intros j Hj. rewrite (file_byte_ext D'); [by apply D3| |]; [|pose proof (clusters_enough size ltac:(lia)); rewrite <- D1 in *; lia].
      intros c k Hck. rewrite upd_ne; [done|]. intros ->. by apply (Hsep cl).
Qed.


(** A name that is not in the root gets an entry, or the disk is full. *)
Lemma create_file_ok s F D rl nm src size l F' D' fuel : abs s F' D' -> root_ok F rl -> data_in F D src size l F' D' -> 0 <= size < 2 ^ 32 -> plain nm ->
  32 <= bpc -> lookup D rl nm = None -> (Z.to_nat (total_clusters v) + 2 <= fuel)%nat ->
  wp (place_file junk fuel v (root_cluster v) (name_to_83 nm) (hd 0 l) size) s (fun ok s' => exists F2 D2, abs s' F2 D2 /\
    (ok = false \/ ok = true /\ exists rl', root_ok F2 rl' /\ file_at F2 D2 rl' nm src size)).
Proof using Hv.
  intros Habs Hroot [D1 D2 D3 D4 D5 D6] Hs Hnm Hb Hl Hfuel. pose proof (root_cluster_eq F rl Hroot) as [_ Erc]. destruct Hroot as (Hc & Hne & HF).
  pose proof (chain_length F _ rl Hc) as Hlen.
  assert (forall x, In x rl -> ~ In x l) as Hsep by (intros x Hx Hxl; specialize (HF x Hx); destruct (D4 x Hxl); lia).
  assert (forall x, In x rl -> F' x = F x) as HF'.
  { intros x Hx. apply D5; [by apply Hsep|]. pose proof (chain_valid v F _ rl x Hc Hx) as Hxv. unfold FatProps.valid in Hxv. lia. }
  destruct rl as [|x rl]; [done|]. cbn [hd] in Erc. subst x.
  assert (lookup D' (root_cluster v :: rl) nm = None) as Hl' by (rewrite <- Hl; apply lookup_ext; intros c Hc' i; by rewrite (proj1 (D5 c (Hsep c Hc')))).
  assert (1 <= Z.of_nat (entries v)) as Hent by (unfold entries, SIZEOF_DIRENT; assert (1 <= bpc / 32) by (apply Z.div_le_lower_bound; lia); lia).
  eapply wp_mono; [|apply (place_file_ok junk v Hv nm (hd 0 l) size (plain_name_ok nm Hnm) (hd_range l ltac:(intros x Hx; by apply D4)) Hs rl s F' D' fuel (root_cluster v) Habs);
    [by apply (chain_ext v F)|intros y Hy; rewrite HF' by done; by apply HF|done|done|cbn in Hlen; lia]].
  intros ok s' (F2 & D2' & Ha & [(-> & rl' & Eh & P)|[-> _]]); exists F2, D2'; (split; [done|]); [right|by left]. split; [done|]. exists rl'.
  destruct P as [P1 P2 P3 P5 (de & cl & off & E1 & E2 & E3 & E4)]. rewrite Eh in P1.
  assert (forall x, In x l -> ~ In x rl') as Hsep'.
  { intros x Hx Hxr. destruct P2 as [z [->|(-> & Hz & Ez)]]; [by apply (Hsep x)|]. apply in_app_iff in Hxr as [Hxr|[->|[]]]; [by apply (Hsep x)|].
    by apply (D6 x). }
  split.
  - split; [done|]. split; [by destruct rl'|]. apply P5. intros y Hy. rewrite HF' by done. by apply HF.
  - exists de, cl, off, l. rewrite E2, E3, E4. split_and!; auto.
    + apply (chain_ext v F'); [|done]. intros x Hx. by apply P3, Hsep'.
    + intros j Hj. rewrite (file_byte_ext D'); [by apply D3| |pose proof (clusters_enough size ltac:(lia)); rewrite <- D1 in *; lia].
      intros c k Hck. by apply P3, Hsep'.
Qed.


(** What the name may be in the root already: a file whose clusters are not those
    of the root directory. *)
Definition replaceable F D rl nm : Prop := forall de cl off, lookup D rl nm = Some (de, cl, off) ->
  has (attr de) FAT_ATTR_DIRECTORY = false /\ exists fl, chain F (de_cluster de) fl /\ forall x, In x fl -> ~ In x rl.

Lemma freed_root F rl fl : root_ok F rl -> (forall x, In x fl -> ~ In x rl) -> root_ok (freed F fl) rl.
Proof using Type.
  intros (Hc & Hne & HF) Hsep. assert (forall x, In x rl -> freed F fl x = F x) as E.
  { intros x Hx. unfold freed. destruct (decide (x ∈ fl)) as [Hin|]; [|done]. apply list_elem_of_In in Hin. by destruct (Hsep x Hin). }
  split; [by apply (chain_ext v F)|]. split; [done|]. intros x Hx. rewrite E by done. by apply HF.
Qed.

Lemma write_file_ok s F D rl nm src size fuel : abs s F D -> root_ok F rl -> plain nm -> replaceable F D rl nm -> 32 <= bpc ->
  0 <= size < 2 ^ 32 -> (Z.to_nat (total_clusters v) + 2 <= fuel)%nat -> (clusters size < fuel)%nat ->
  wp (fat32_write_file junk stack fuel v (47 :: nm) (Some src) size) s (fun rc s' => exists F' D', abs s' F' D' /\
    (rc = -1 \/ rc = size /\ exists rl', root_ok F' rl' /\ file_at F' D' rl' nm src size)).
Proof using Hv.
  intros Habs Hroot Hnm Hrep Hb Hs Hfuel Hcl. unfold fat32_write_file. rewrite (vo_mounted v Hv), (split_root 255 stack nm Hnm). cbn [negb].
  pose proof (chain_length F _ rl (proj1 Hroot)) as Hlen. destruct (root_cluster_eq F rl Hroot) as [Erc _].
  eapply wp_use; [apply resolve_root|]. intros r s0 [-> ->]. rewrite Erc. eapply wp_use; [apply (find_in_dir_ok junk v Hv nm rl); [exact Habs|apply Hroot|lia]|].
  intros r s1 [-> Habs1]. destruct (lookup D rl nm) as [[[de cl] off]|] eqn:El.
  - destruct (Hrep de cl off El) as (Hdir & fl & Hfl & Hsep). pose proof (chain_length F _ fl Hfl).
    eapply wp_use; [apply (free_chain_ok junk v Hv fl); [exact Habs1|exact Hfl|lia]|]. cbv beta. intros _ s2 Habs2.
    eapply wp_use; [apply (write_data_in s2 _ D src size fuel Habs2 Hs Hcl)|]. intros w s3 (F' & D' & Habs3 & [->|(l & -> & Hdi)]).
    { apply wp_ret. exists F', D'. split; [done|]. by left. }
    apply wp_assoc. eapply wp_use; [apply (replace_ok s3 _ D rl nm src size l F' D' de cl off Habs3 (freed_root F rl fl Hroot Hsep) Hdi Hs El Hdir)|].
    intros _ s4 (D2 & Ha & Hr & Hfa). apply wp_ret. exists F', D2. split; [done|]. right. rewrite (swrap_small 64) by lia. split; [done|]. by exists rl.
  - apply wp_bind, wp_ret. eapply wp_use; [apply (write_data_in s1 F D src size fuel Habs1 Hs Hcl)|]. intros w s3 (F' & D' & Habs3 & [->|(l & -> & Hdi)]).
    { apply wp_ret. exists F', D'. split; [done|]. by left. }
    eapply wp_use; [apply (create_file_ok s3 F D rl nm src size l F' D' fuel Habs3 Hroot Hdi Hs Hnm Hb El Hfuel)|].
    intros ok s4 (F2 & D2 & Ha & [->|(-> & rl' & Hr & Hfa)]); apply wp_ret; exists F2, D2; (split; [done|]); [by left|right]. rewrite (swrap_small 64) by lia. split; [done|]. by exists rl'.
Qed.



End root.


(** ** A small volume in memory *)

Module Demo.

(** One device of 64 sectors of 512 bytes. *)
#[export] Instance flat_store : Store (Z -> Z) := {
  st_read d lba n b s := (n, blit b 0 s (lba * 512) (n * 512), s);
  st_write d lba n b s := (n, blit s (lba * 512) b 0 (n * 512));
  st_raw d := if d =? 1 then Some (fun lba n b s => (n, blit b 0 s (lba * 512) (n * 512), s)) else None
}.

#[export] Instance flat_laws : StoreLaws (Z -> Z).
Proof.
  refine {| st_ok _ := True; st_view s _ := s; st_ss _ := 512; st_size _ := 64 |}.
  - intros s d lba n b rc b' s' _ _ _ _ _ [= <- <- <-]. split_and!; auto. intros j Hj. unfold blit.
    destruct (Z.leb_spec 0 j), (Z.ltb_spec j (0 + n * 512)); cbn [andb]; try lia. f_equal. lia.
  - intros s d lba n b rc s' _ _ _ _ _ [= <- <-]. split; [done|]. intros x. unfold blit. replace (lba * 512 + n * 512) with ((lba + n) * 512) by lia.
    destruct (_ && _); [|done]. f_equal. lia.
Defined.

Definition bytes_at (a : Z) (l : list Z) (m : Z -> Z) : Z -> Z := fun x => if (a <=? x) && (x <? a + Z.of_nat (length l)) then nth (Z.to_nat (x - a)) l 0 else m x.

(** The boot sector: 512-byte clusters, one reserved sector, one table of one
    sector, [n] sectors in all, root directory in cluster 2. *)
Definition boot (n : Z) : Z -> Z :=
  bytes_at 11 [0; 2; 1; 1; 0; 1] (bytes_at 32 [n; 0; 0; 0; 1; 0; 0; 0] (bytes_at 44 [2; 0; 0; 0] (bytes_at 82 [70; 65; 84; 51; 50; 32; 32; 32] (fun _ => 0)))).

(** The root directory is empty. *)
Definition disk (n : Z) : Z -> Z := bytes_at (512 + 8) [0xF8; 0xFF; 0xFF; 0x0F] (boot n).

Definition vol (n : Z) : fat32_vol_t :=
  match fat32_mount (fun _ => 0xCC) 1 0 (disk n) with Some (Some v, _) => v | _ =>
    {| dev := 0; start_lba := 0; bytes_per_sector := 0; sectors_per_cluster := 0; bytes_per_cluster := 0; reserved_sectors := 0; num_fats := 0;
       fat_size := 0; root_cluster := 0; data_start := 0; total_clusters := 0; mounted := false |} end.

Definition junk : buffer := fun _ => 0xCC.

(** "a.txt" and the data of a file of 700 bytes. *)
Definition a_txt : list Z := [97; 46; 116; 120; 116].
Definition text : buffer := fun i => i mod 7.

Lemma vol_8 : vol 8 = {| dev := 1; start_lba := 0; bytes_per_sector := 512; sectors_per_cluster := 1; bytes_per_cluster := 512; reserved_sectors := 1;
  num_fats := 1; fat_size := 1; root_cluster := 2; data_start := 2; total_clusters := 6; mounted := true |}.
Proof. vm_compute. reflexivity. Qed.

Lemma vol_8_ok : vol_ok (vol 8).
Proof. rewrite vol_8. split; cbn; try lia; done. Qed.

Definition F8 : Z -> Z := fun c => fat_at (disk 8) (fat_addr (vol 8) c).
Definition D8 : Z -> Z -> Z := fun c i => disk 8 (cl_addr (vol 8) c + i).

Lemma abs_8 : abs (vol 8) (disk 8) F8 D8.
Proof. by split. Qed.

Lemma root_8 : root_ok (vol 8) F8 [2].
Proof.
  assert (F8 2 = FAT32_EOC) as E by (vm_compute; reflexivity). split; [|split; [done|]].
  - cbn [chain]. rewrite E. rewrite vol_8. split_and!; done.
  - intros x [<-|[]]. rewrite E. done.
Qed.

Lemma lookup_8 : lookup (vol 8) D8 [2] a_txt = None.
Proof. vm_compute. reflexivity. Qed.

Lemma plain_a : plain a_txt.
Proof. split_and!; [done|cbn; lia| |done]. intros c [<-|[<-|[<-|[<-|[<-|[]]]]]]; done. Qed.


(** ** Where the driver goes wrong *)

Definition put (v : fat32_vol_t) (nm : list Z) (b : buffer) (size : Z) (s : Z -> Z) : Z * (Z -> Z) :=
  match fat32_write_file junk [] 20 v (47 :: nm) (Some b) size s with Some r => r | None => (-2, s) end.
Definition get (v : fat32_vol_t) (nm : list Z) (s : Z -> Z) : Z * Z :=
  match fat32_read_file junk 20 v (47 :: nm) (Some zeros) 4096 s with Some ((n, Some b), _) => (n, b 0) | _ => (-2, 0) end.

(** Overwriting a file on a full disk fails after its clusters were freed and used
    again: the file is still there, with other contents. *)
Example failed_write_destroys :
  let '(r1, s1) := put (vol 5) a_txt (fun _ => 1) 512 (disk 5) in
  let '(r2, s2) := put (vol 5) a_txt (fun _ => 2) 2000 s1 in
  r1 = 512 /\ get (vol 5) a_txt s1 = (512, 1) /\ r2 = -1 /\ get (vol 5) a_txt s2 = (512, 2).
Proof. vm_compute. split_and!; reflexivity. Qed.

(** Writing to a directory frees it and stores the data in its place. *)
Example write_replaces_directory :
  match fat32_mkdir junk [] 20 (vol 8) [47; 100] (disk 8) with
  | Some (true, s1) => let '(r, s2) := put (vol 8) [100] (fun _ => 1) 5 s1 in r = 5 /\ get (vol 8) [100] s2 = (-1, 0)
  | _ => False
  end.
Proof. vm_compute. split; reflexivity. Qed.

(** "longfile1.txt" and "longfile2.txt". *)
Definition long1 : list Z := [108; 111; 110; 103; 102; 105; 108; 101; 49; 46; 116; 120; 116].
Definition long2 : list Z := [108; 111; 110; 103; 102; 105; 108; 101; 50; 46; 116; 120; 116].

Example long_names_collide :
  let '(r1, s1) := put (vol 8) long1 (fun _ => 1) 5 (disk 8) in
  let '(r2, s2) := put (vol 8) long2 (fun _ => 2) 5 s1 in
  r1 = 5 /\ r2 = 5 /\ get (vol 8) long1 s2 = (5, 2).
Proof. vm_compute. split_and!; reflexivity. Qed.

(** The data of a file is searched as if the file were a directory. *)
Example file_as_directory :
  let '(r, s) := put (vol 8) a_txt (bytes_at 0 (66 :: repeat 32 11) zeros) 64 (disk 8) in
  match fat32_lookup junk 20 (vol 8) (47 :: a_txt ++ [47; 98]) s with Some (Some fi, _) => fi_first_cluster fi = 0 | _ => False end.
Proof. vm_compute. reflexivity. Qed.

(** A directory whose chain is a cycle keeps every lookup busy forever. *)
Definition cyclic : Z -> Z := bytes_at (512 + 8) [2; 0; 0; 0] (fun x => if (1024 <=? x) && (x <? 1536) then 88 else boot 8 x).

Lemma cyclic_step : cluster_read junk (vol 8) 2 cyclic = Some (blit junk 0 cyclic 1024 512, cyclic) /\
  scan_entries (entries (vol 8)) 0 (blit junk 0 cyclic 1024 512) [97] = ScanNone /\ fat_entry junk (vol 8) 2 cyclic = Some (2, cyclic).
Proof. rewrite vol_8. split_and!; [reflexivity|vm_compute; reflexivity|]. unfold fat_entry, mbind, M_bind, bread. cbn [st_read flat_store]. unfold mret, M_ret. do 2 f_equal. Qed.

Example cyclic_directory_hangs fuel : find_in_dir junk fuel (vol 8) 2 [97] cyclic = None.
Proof.
  destruct cyclic_step as (E1 & E2 & E3). induction fuel as [|fuel IH]; [done|]. cbn [find_in_dir]. change (in_chain 2) with true. cbn iota. unfold mbind, M_bind in *.
  rewrite E1, E2, E3. exact IH.
Qed.


End Demo.


End FatClaims.
