(* ===== verification/FatCache.v ===== *)
(** * FAT32 on the block cache

    The block cache over a device that does not fail is a store of sectors, so
    that what is shown of FAT32 volumes holds for volumes behind the cache. *)

From S2P Require Import Prelude Mem Block Bcache BcacheProps BcacheClaims Fat32 FatProps FatFiles FatDirs FatClaims.
Import Block Bcache BcacheProps BcacheClaims FatClaims.

Module FatCache.

(** fat32.c calls the block cache; only mounting reads the device itself. *)
Definition cache_store {W} (t : Z -> block_device_t W) : Store (bcache W) := {|
  st_read d lba n b s := let '(rc, b', s') := bcache_read d lba n (Some b) s in (rc, match b' with Some b' => b' | None => b end, s');
  st_write d lba n b s := bcache_write d lba n (Some b) s;
  st_raw d := match read (t d) with
              | Some r => Some (fun lba n b s => let '(rc, b', w) := r lba n b (world s) in (rc, b', s <| world := w |>))
              | None => None
              end
|}.

(** A device that reads and writes all its sectors, a whole number of pages. *)
Record reliable {W} `{Disks W} (id : Z) (d : block_device_t W) : Prop := {
  re_id : id <> 0;
  re_dev : dev_ok id d;
  re_pages : sector_count d mod (4096 / sector_size d) = 0;
  re_count : 0 <= sector_count d < 2 ^ 64;
  re_write : exists f, write d = Some f;
  re_wr f lba n b w rc w' : write d = Some f -> f lba n b w = (rc, w') -> 0 <= lba -> lba + n <= sector_count d -> ~ failed w -> ~ failed w';
  re_rd r lba n b w rc b' w' : read d = Some r -> r lba n b w = (rc, b', w') -> 0 <= lba -> 0 <= n -> lba + n <= sector_count d -> ~ failed w -> 0 <= rc /\ ~ failed w';
  re_fl f w rc w' : flush d = Some f -> f w = (rc, w') -> ~ failed w -> ~ failed w'
}.

Section cache.
Context {W : Type} `{HD : Disks W}.
Variable t : Z -> block_device_t W.
Variable id : Z.
Hypothesis Hrel : reliable id (t id).
Implicit Types s : bcache W.

#[local] Notation count := (sector_count (t id)).
#[local] Notation n0 := (4096 / sector_size (t id)).

Lemma n0_pos : 1 <= n0 <= 4096.
Proof using Hrel.
  pose proof (do_size _ _ (re_dev _ _ Hrel)). split; [apply Z.div_le_lower_bound; lia|]. apply Z.div_le_upper_bound; lia.
Qed.

Lemma spp_n0 s : devs s = t -> spp s id = n0.
Proof using Hrel. intros E. pose proof n0_pos. unfold spp, sectors_per_page, BCACHE_PAGE_SIZE. rewrite E. destruct (Z.eqb_spec n0 0); [lia|done]. Qed.

(** An entry is free or a page of the device. *)
Definition entry_ok (e : bcache_entry_t) : Prop := dev e <> 0 -> dev e = id /\ sectors e = n0 /\ 0 <= page_lba e /\ page_lba e + n0 <= count.

(** No device has failed, and the cached pages exist. *)
Record sound s : Prop := {
  sd_devs : devs s = t;
  sd_fine : ~ failed (world s);
  sd_entries i : 0 <= i < BCACHE_MAX_PAGES -> entry_ok (g_bcache s i)
}.

Lemma sound_upd i f s : sound s -> (0 <= i < BCACHE_MAX_PAGES -> entry_ok (g_bcache s i) -> entry_ok (f (g_bcache s i))) -> sound (upd_entry i f s).
Proof using Type.
  intros [S1 S2 S3] Hf. split; [done|done|]. intros j Hj. change (g_bcache (upd_entry i f s) j) with ((g_bcache s).[i <- f (g_bcache s i)] j).
  destruct (decide (j = i)) as [->|]; [rewrite upd_eq; auto|]. rewrite upd_ne by done. auto.
Qed.

Lemma sound_tick s : sound s -> sound (snd (tick s)).
Proof using Type. intros [S1 S2 S3]. by split. Qed.

Lemma sound_write_back i s : sound s -> 0 <= i < BCACHE_MAX_PAGES -> dev (g_bcache s i) <> 0 -> sound (write_back i s).
Proof using Hrel.
  intros Hs Hi Hd. pose proof (sd_entries s Hs i Hi Hd) as (Ed & Es & H0 & Hle). pose proof Hs as [S1 S2 S3]. unfold write_back. rewrite S1, Ed, Es.
  destruct (re_write _ _ Hrel) as [f Ef]. rewrite Ef. destruct (f (page_lba (g_bcache s i)) n0 (data (g_bcache s i)) (world s)) as [rc w] eqn:E. cbn [snd].
  pose proof (re_wr _ _ Hrel f _ _ _ _ _ _ Ef E H0 Hle S2) as Hw. apply sound_upd; [by split|]. done.
Qed.

Lemma sound_evict i s : sound s -> 0 <= i < BCACHE_MAX_PAGES -> sound (bcache_evict i s).
Proof using Hrel.
  intros Hs Hi. unfold bcache_evict. apply sound_upd; [|by intros _ _ ?]. destruct (Z.eqb_spec (dev (g_bcache s i)) 0); cbn [negb andb]; [done|].
  destruct (dirty _); [by apply sound_write_back|done].
Qed.

Lemma sound_claim i lba s : sound s -> 0 <= lba -> lba + n0 <= count -> sound (claim i id lba n0 s).
Proof using Type. intros Hs H0 Hle. unfold claim, tick. apply sound_upd; [by apply (sound_tick s)|]. intros _ _ _. by split_and!. Qed.

Lemma sound_alloc lba s : sound s -> 0 <= lba -> lba + n0 <= count -> exists i s',
  bcache_alloc id lba n0 s = (i, s') /\ 0 <= i < BCACHE_MAX_PAGES /\ sound s'.
Proof using Hrel.
  intros Hs H0 Hle. unfold bcache_alloc. destruct (find_index _ _ _) as [i|] eqn:E.
  - apply find_index_Some in E as (Hi & _). change (0 + Z.of_nat (Z.to_nat BCACHE_MAX_PAGES)) with BCACHE_MAX_PAGES in Hi.
    exists i, (claim i id lba n0 s). split; [done|]. split; [done|]. by apply sound_claim.
  - pose proof (oldest_range s) as Hi. generalize dependent (fst (oldest s)). intros i Hi.
    exists i, (claim i id lba n0 (bcache_evict i s)). split; [done|]. split; [done|]. apply sound_claim; auto. by apply sound_evict.
Qed.

Lemma sound_get_page lba whole s : sound s -> 0 <= lba -> lba + n0 <= count ->
  exists i s', get_page id lba n0 whole s = (Some i, s') /\ sound s' /\ 0 <= i < BCACHE_MAX_PAGES.
Proof using Hrel.
  intros Hs H0 Hle. unfold get_page, bcache_find. destruct (find_index _ _ _) as [i|] eqn:E.
  - apply find_index_Some in E as (Hi & _). change (0 + Z.of_nat (Z.to_nat BCACHE_MAX_PAGES)) with BCACHE_MAX_PAGES in Hi. unfold tick. eexists _, _. split; [done|]. split; [|exact Hi]. apply sound_upd; [by apply (sound_tick s)|]. done.
  - destruct (sound_alloc lba s Hs H0 Hle) as (i & s1 & -> & Hi & Hs1). destruct whole; [by exists i, s1|].
    unfold fill. rewrite (sd_devs s1 Hs1). destruct (read (t id)) as [r|] eqn:Er; [|by destruct (do_readable _ _ (re_dev _ _ Hrel))].
    destruct (r lba n0 (data (g_bcache s1 i)) (world s1)) as [[rc b] w] eqn:Ef. destruct (re_rd _ _ Hrel r _ _ _ _ _ _ _ Er Ef H0 ltac:(pose proof n0_pos; lia) Hle (sd_fine s1 Hs1)) as [Hrc Hw].
    destruct (Z.ltb_spec rc 0); [lia|]. eexists _, _. split; [done|]. split; [|done]. destruct Hs1 as [S1 S2 S3]. apply sound_upd; [by split|]. done.
Qed.

(** The page of a sector of the device is a page of the device. *)
Lemma page_fits s page cur : devs s = t -> page_at s id page -> page <= cur < count -> page + n0 <= count.
Proof using Hrel.
  intros E (_ & _ & _ & Hm) Hc. pose proof n0_pos. rewrite (spp_n0 s E) in Hm. pose proof (re_pages _ _ Hrel) as Hp.
  apply Z.mod_divide in Hm as [q ->]; [|lia]. apply Z.mod_divide in Hp as [k Hk]; [|lia]. rewrite Hk in *. set (n := n0) in *. clearbody n. assert (q < k) by nia. nia.
Qed.

Lemma sound_read_loop fuel : forall p b s cur remaining, sound s -> 0 <= cur -> 0 <= remaining < 2 ^ 32 -> cur + remaining <= count ->
  (Z.to_nat remaining < fuel)%nat -> exists b' s', read_loop fuel id cur remaining p b s = (0, b', s') /\ sound s'.
Proof using Hrel.
  pose proof (re_count _ _ Hrel) as Hcount. induction fuel as [|fuel IH]; intros p b s cur remaining Hs Hc Hr Hle Hf; [lia|]. cbn [read_loop].
  destruct (Z.leb_spec remaining 0); [by exists b, s|]. pose proof (sd_devs s Hs) as Ed.
  destruct (chunk_ok s id cur remaining (re_id _ _ Hrel)) as (page & off & k & -> & Hp & Ecur & Ho & Hk & Hok); [rewrite Ed; apply Hrel|lia|lia|].
  fold (spp s id). rewrite (spp_n0 s Ed) in *. pose proof (page_fits s page cur Ed Hp ltac:(lia)) as Hfit. pose proof n0_pos. pose proof (proj1 (proj2 (proj2 Hp))) as Hp0.
  destruct (sound_get_page page false s Hs ltac:(lia) Hfit) as (i & s1 & -> & Hs1 & Hi). rewrite (wrap_small 64), (wrap_small 32 (remaining - k)) by lia. apply IH; auto; lia.
Qed.

Lemma sound_write_loop fuel b : forall p s cur remaining, sound s -> 0 <= cur -> 0 <= remaining < 2 ^ 32 -> cur + remaining <= count ->
  (Z.to_nat remaining < fuel)%nat -> exists s', write_loop fuel id cur remaining p b s = (0, s') /\ sound s'.
Proof using Hrel.
  pose proof (re_count _ _ Hrel) as Hcount. induction fuel as [|fuel IH]; intros p s cur remaining Hs Hc Hr Hle Hf; [lia|]. cbn [write_loop].
  destruct (Z.leb_spec remaining 0); [by exists s|]. pose proof (sd_devs s Hs) as Ed.
  destruct (chunk_ok s id cur remaining (re_id _ _ Hrel)) as (page & off & k & -> & Hp & Ecur & Ho & Hk & Hok); [rewrite Ed; apply Hrel|lia|lia|].
  fold (spp s id). rewrite (spp_n0 s Ed) in *. pose proof (page_fits s page cur Ed Hp ltac:(lia)) as Hfit. pose proof n0_pos. pose proof (proj1 (proj2 (proj2 Hp))) as Hp0.
  destruct (sound_get_page page (n0 <=? k) s Hs ltac:(lia) Hfit) as (i & s1 & -> & Hs1 & Hi). rewrite (wrap_small 64), (wrap_small 32 (remaining - k)) by lia.
  apply IH; [|lia|lia|lia|lia]. by apply sound_upd.
Qed.

(** Reads and writes of the device through the cache, without errors. *)
Lemma cache_read_law s lba n b rc b' s' : bc_ok s -> sound s -> 0 <= lba -> 0 < n < 2 ^ 31 -> lba + n <= count ->
  bcache_read id lba n (Some b) s = (rc, b', s') -> exists b1, b' = Some b1 /\ bc_ok s' /\ sound s' /\ (forall x, view s' id x = view s id x) /\
    forall j, 0 <= j < n * sector_size (t id) -> b1 j = view s id (lba * sector_size (t id) + j).
Proof using Hrel.
  intros Hok Hs Hl Hn Hle E. pose proof (re_id _ _ Hrel) as Hid. pose proof (re_count _ _ Hrel) as Hcount. pose proof (sd_devs s Hs) as Ed.
  pose proof (bcache_read_ok s id lba n b Hok) as Hread. cbn [bstep] in Hread. rewrite E in Hread.
  destruct Hread as (Hok' & Hv & Hflat); [rewrite Ed; split_and!; auto; [apply Hrel|lia..]|].
  unfold bcache_read in E. destruct (Z.eqb_spec id 0); [done|]. cbn [orb] in E. rewrite Ed in E. destruct (read (t id)) as [r|] eqn:Er; [|by destruct (do_readable _ _ (re_dev _ _ Hrel))].
  destruct (sound_read_loop (S (Z.to_nat n)) 0 b s lba n Hs Hl ltac:(lia) Hle ltac:(lia)) as (b1 & s1 & Eloop & Hs1). rewrite Eloop in E. cbn [Z.ltb Z.compare] in E.
  rewrite swrap_small in E by lia. injection E as <- <- <-. exists b1. destruct (Hflat (sd_fine s1 Hs1)) as [Hsame [?|[_ Hdata]]]; [lia|].
  unfold ss in Hdata. rewrite Ed in Hdata. split_and!; auto.
Qed.

Lemma cache_write_law s lba n b rc s' : bc_ok s -> sound s -> 0 <= lba -> 0 < n < 2 ^ 31 -> lba + n <= count ->
  bcache_write id lba n (Some b) s = (rc, s') -> bc_ok s' /\ sound s' /\ forall x, view s' id x =
    if (lba * sector_size (t id) <=? x) && (x <? (lba + n) * sector_size (t id)) then b (x - lba * sector_size (t id)) else view s id x.
Proof using Hrel.
  intros Hok Hs Hl Hn Hle E. pose proof (re_id _ _ Hrel) as Hid. pose proof (re_count _ _ Hrel) as Hcount. pose proof (sd_devs s Hs) as Ed.
  pose proof (bcache_write_ok s id lba n b Hok) as Hwrite. cbn [bstep] in Hwrite. rewrite E in Hwrite.
  destruct Hwrite as (Hok' & _ & _ & Hflat); [rewrite Ed; split_and!; auto; [apply Hrel|lia..]|].
  unfold bcache_write in E. destruct (Z.eqb_spec id 0); [done|]. cbn [orb] in E. rewrite Ed in E. destruct (re_write _ _ Hrel) as [f Ef]. rewrite Ef in E.
  destruct (sound_write_loop (S (Z.to_nat n)) b 0 s lba n Hs Hl ltac:(lia) Hle ltac:(lia)) as (s1 & Eloop & Hs1). rewrite Eloop in E. cbn [Z.ltb Z.compare] in E.
  rewrite swrap_small in E by lia. injection E as <- <-. destruct (Hflat (sd_fine s1 Hs1)) as (m & Hm & [?|[_ ->]] & Hview); [lia|]. split_and!; auto.
  intros x. rewrite Hview by done. unfold written, ss. rewrite Z.eqb_refl, Ed. cbn [andb].
  replace ((lba + n) * sector_size (t id)) with (lba * sector_size (t id) + n * sector_size (t id)) by lia. destruct (_ && _); [|done]. f_equal.
Qed.

(** The cache implements the interface FAT32 volumes are shown correct against. *)
Definition cache_laws : @StoreLaws (bcache W) (cache_store t).
Proof using Hrel id.
  refine (@Build_StoreLaws _ (cache_store t) (fun s => bc_ok s /\ sound s) view (fun d => sector_size (t d)) (fun d => if decide (d = id) then sector_count (t id) else 0) _ _).
  - intros s d lba n b rc b' s' [Hok Hs] Hd Hl Hn Hle E. destruct (decide (d = id)) as [->|]; [|lia]. cbn [st_read cache_store] in E.
    destruct (bcache_read id lba n (Some b) s) as [[rc1 b1] s1] eqn:Er. injection E as <- <- <-.
    destruct (cache_read_law s lba n b rc1 b1 s1 Hok Hs Hl Hn Hle Er) as (b2 & -> & ? & ? & ? & ?). by split_and!.
  - intros s d lba n b rc s' [Hok Hs] Hd Hl Hn Hle E. destruct (decide (d = id)) as [->|]; [|lia].
    destruct (cache_write_law s lba n b rc s' Hok Hs Hl Hn Hle E) as (? & ? & ?). by split_and!.
Defined.


(** ** Flushing and starting over *)

Lemma sound_flush s : sound s -> sound (bcache_flush id s).
Proof using Hrel.
  intros Hs. unfold bcache_flush. destruct (ready s); [cbn [negb]|done].
  assert (sound (for_loop (Z.to_nat BCACHE_MAX_PAGES) 0 (flush_entry id) s)) as Hl.
  { apply (for_loop_ind sound); [|done]. intros i s1 Hi Hs1. change (0 + Z.of_nat (Z.to_nat BCACHE_MAX_PAGES)) with BCACHE_MAX_PAGES in Hi. unfold flush_entry.
    destruct (Z.eqb_spec (dev (g_bcache s1 i)) 0); cbn [negb andb]; [done|]. destruct (_ && _); [by apply sound_write_back|done]. }
  set (s1 := for_loop _ _ _ s) in *. clearbody s1. destruct (id =? 0); [done|]. rewrite (sd_devs s1 Hl). destruct (flush (t id)) as [f|] eqn:Ef; [|done].
  destruct (f (world s1)) as [rc w] eqn:E. destruct Hl as [S1 S2 S3]. split; [done| |done]. exact (re_fl _ _ Hrel f _ _ _ Ef E S2).
Qed.

(** After a flush an empty cache shows what the old one showed. *)
Lemma reboot_view s : bc_ok s -> sound s -> let s' := bcache_init (bcache_flush id s) in
  bc_ok s' /\ sound s' /\ forall x, view s' id x = view s id x.
Proof using Hrel.
  intros Hok Hs. cbv zeta. pose proof (sound_flush s Hs) as Hs1. destruct (flush_ok id s Hok) as (Hok1 & Hv & Hc); [intros _; rewrite (sd_devs s Hs); apply Hrel|].
  destruct (bcache_init_ok (bcache_flush id s)) as [Hok2 Hv2]. split_and!; [done| |].
  - destruct Hs1 as [S1 S2 S3]. split; [done|done|]. by intros i _ ?.
  - intros x. pose proof (re_id _ _ Hrel) as Hid. rewrite Hv2 by done. rewrite Hc by (try done; first [apply Hs1|by right]). by apply (sv_view _ _ Hv (sd_fine _ Hs1)).
Qed.

Section volume.
#[local] Instance dev_store : Store (bcache W) := cache_store t.
#[local] Instance dev_laws : StoreLaws (bcache W) := cache_laws.
Variables (junk : buffer) (stack : list Z) (v : Fat32.fat32_vol_t).
Hypothesis Hv : FatProps.vol_ok (T := bcache W) v.
Hypothesis Hdev : Fat32.dev v = id.

(** C20: a file written to the root directory of a volume behind the block cache
    of a device that works survives a restart: once the cache was flushed, an
    empty cache over the same device reads it back. *)
Theorem file_survives_restart s F D rl nm src size fuel buf n : FatProps.abs v s F D -> root_ok v F rl -> plain nm -> replaceable v F D rl nm ->
  32 <= Fat32.bytes_per_cluster v -> 0 <= size < 2 ^ 32 -> size <= n < 2 ^ 64 -> (Z.to_nat (Fat32.total_clusters v) + 2 <= fuel)%nat ->
  (FatFiles.clusters v size < fuel)%nat ->
  exists rc s', Fat32.fat32_write_file junk stack fuel v (47 :: nm) (Some src) size s = Some (rc, s') /\
    (rc = -1 \/ rc = size /\ exists b s'',
       Fat32.fat32_read_file junk fuel v (47 :: nm) (Some buf) n (bcache_init (bcache_flush id s')) = Some ((size, Some b), s'') /\
       forall j, 0 <= j < size -> b j = src j).
Proof using Hv Hdev Hrel.
  intros Habs Hroot Hnm Hrep Hb Hs Hn Hfuel Hcl.
  destruct (write_file_ok junk stack v Hv s F D rl nm src size fuel Habs Hroot Hnm Hrep Hb Hs Hfuel Hcl) as (rc & s' & E & F' & D' & Ha & Hres).
  exists rc, s'. split; [done|]. destruct Hres as [->|(-> & rl' & Hr & Hfa)]; [by left|right]. split; [done|].
  destruct (FatProps.ab_ok v _ _ _ Ha) as [Hok Hsd]. destruct (reboot_view s' Hok Hsd) as (Hok2 & Hs2 & Hview).
  assert (FatProps.abs v (bcache_init (bcache_flush id s')) F' D') as Ha2.
  { apply (FatProps.abs_view v s'); [done|by split|]. intros x. unfold FatProps.vw. rewrite Hdev. apply Hview. }
  destruct (read_file_ok junk v Hv _ F' D' rl' nm src size fuel buf n Ha2 Hr Hnm Hfa) as (r & s'' & E' & _ & b & -> & Hin & _); [lia|done|done|]. by exists b, s''.
Qed.

End volume.
End cache.
(** ** A volume on a disk in memory *)

Module Demo.
Import BcacheClaims.Demo FatClaims.Demo.

Definition table : Z -> block_device_t ramdisk := fun d => ram d 64 512.

Lemma table_reliable : reliable 1 (table 1).
Proof.
  split; [done|apply ram_ok; lia|done|cbn; lia|by eexists|..].
  - intros f lba n b w rc w' [= <-]. intros E H0 Hle. cbn in Hle. apply Z.leb_le in H0, Hle. rewrite H0, Hle in E. cbn [andb] in E. by injection E as <- <-.
  - intros r lba n b w rc b' w' [= <-]. intros E H0 Hn Hle. cbn in Hle. apply Z.leb_le in H0, Hle. rewrite H0, Hle in E. cbn [andb] in E. by injection E as <- <- <-.
  - done.
Qed.

(** The disk of 8 sectors at the beginning of the device, behind an empty cache. *)
Definition start8 : bcache ramdisk :=
  bcache_init {| g_bcache := fun _ => zero_entry; ready := false; g_bcache_ticks := 0; devs := table; world := {| rd_bytes := fun _ => disk 8; rd_lost := false |} |}.

#[local] Instance demo_store : Store (bcache ramdisk) := cache_store table.
#[local] Instance demo_laws : StoreLaws (bcache ramdisk) := cache_laws table 1 table_reliable.

Lemma start8_abs : FatProps.abs (vol 8) start8 F8 D8.
Proof.
  destruct (bcache_init_ok {| g_bcache := fun _ => zero_entry; ready := false; g_bcache_ticks := 0; devs := table; world := {| rd_bytes := fun _ => disk 8; rd_lost := false |} |}) as [Hok Hview].
  fold start8 in Hok, Hview.
  assert (forall x, FatProps.vw (vol 8) start8 x = disk 8 x) as E.
  { intros x. unfold FatProps.vw. replace (Fat32.dev (vol 8)) with 1 by (rewrite vol_8; reflexivity). apply (Hview 1 x). lia. }
  split.
  - split; [exact Hok|]. split; [reflexivity|discriminate|]. by intros i _ ?.
  - intros c _. unfold F8, FatProps.fat_at. f_equal.
  - intros c Hn. rewrite vol_8 in Hn. cbn in Hn. lia.
  - intros c i _ _. apply E.
Qed.

Lemma vol_8_cached : FatProps.vol_ok (T := bcache ramdisk) (vol 8).
Proof. rewrite vol_8. split; cbn; try lia; done. Qed.

Lemma file_survives_restart_witness : exists s' b s'',
  Fat32.fat32_write_file junk [] 10 (vol 8) (47 :: a_txt) (Some text) 700 start8 = Some (700, s') /\
  Fat32.fat32_read_file junk 10 (vol 8) (47 :: a_txt) (Some FatFiles.zeros) 1000 (bcache_init (bcache_flush 1 s')) = Some ((700, Some b), s'') /\ b 699 = 6.
Proof.
  assert (Fat32.dev (vol 8) = 1) as Hdev by (rewrite vol_8; reflexivity).
  destruct (file_survives_restart table 1 table_reliable junk [] (vol 8) vol_8_cached Hdev start8 F8 D8 [2] a_txt text 700 10 FatFiles.zeros 1000 start8_abs root_8 plain_a) as (rc & s' & E & Hres).
  - intros de cl off. by rewrite lookup_8.
  - rewrite vol_8. cbn. lia.
  - lia.
  - lia.
  - rewrite vol_8. cbn. lia.
  - rewrite vol_8. vm_compute. lia.
  - assert (fst <$> Fat32.fat32_write_file junk [] 10 (vol 8) (47 :: a_txt) (Some text) 700 start8 = Some 700) as Erc by (vm_compute; reflexivity).
    change (dev_store table) with demo_store in E. rewrite E in Erc. injection Erc as ->. destruct Hres as [Hm|(_ & b & s'' & E' & Hin)]; [discriminate Hm|]. exists s', b, s''.
    split; [exact E|]. split; [exact E'|]. clear E E'. rewrite Hin by lia. reflexivity.
Defined.

End Demo.


End FatCache.
