(* ===== verification/Cstr.v ===== *)
(** * C strings as values

    Components that pass short strings around in fixed arrays (paths, names,
    format strings) are modelled on the list of the bytes before the
    terminator.  Copying with [strncpy(dst, src, cap - 1)] and a final zero is
    [copy_str]; reading at the length of the string gives the terminator. *)

From Stdlib Require Import String Ascii.
From Stdlib Require Export ZifyBool.
From S2P Require Import Prelude.

Module Cstr.

(** A string literal of the source. *)
Definition str (s : string) : list Z := map (fun a => Z.of_N (N_of_ascii a)) (list_ascii_of_string s).
Arguments str s%_string.

(** No byte of the string is the terminator. *)
Definition cstring (s : list Z) : Prop := Forall (fun c => 0 < c < 256) s.

(** [s[i]], the terminator included. *)
Definition char_at (s : list Z) (i : Z) : Z := nth (Z.to_nat i) s 0.

Definition strlen (s : list Z) : Z := Z.of_nat (length s).

(** [strcmp(a, b) == 0] *)
Fixpoint streq (a b : list Z) : bool :=
  match a, b with
  | [], [] => true
  | x :: a', y :: b' => (x =? y) && streq a' b'
  | _, _ => false
  end.

(** [strncmp(s, p, strlen(p)) == 0] *)
Fixpoint starts_with (p s : list Z) : bool :=
  match p, s with
  | [], _ => true
  | x :: p', y :: s' => (x =? y) && starts_with p' s'
  | _, [] => false
  end.

(** [strncpy(dst, s, cap - 1); dst[cap - 1] = 0] *)
Definition copy_str (cap : Z) (s : list Z) : list Z := take (Z.to_nat (cap - 1)) s.

Lemma streq_spec a b : reflect (a = b) (streq a b).
Proof.
  revert b. induction a as [|x a IH]; intros [|y b]; cbn; try by constructor.
  destruct (Z.eqb_spec x y) as [->|Hne]; cbn; [|constructor; congruence].
  destruct (IH b) as [->|Hne]; constructor; congruence.
Qed.

Lemma streq_refl a : streq a a = true.
Proof. by destruct (streq_spec a a). Qed.

Lemma streq_ne a b : a <> b -> streq a b = false.
Proof. by destruct (streq_spec a b). Qed.

Lemma starts_with_spec p s : starts_with p s = true <-> exists r, s = p ++ r.
Proof.
  revert s. induction p as [|x p IH]; intros s; cbn; [split; [by exists s|done]|].
  destruct s as [|y s]; [by split; [|intros [r ?]]|].
  rewrite andb_true_iff, Z.eqb_eq, IH. split.
  - intros [-> [r ->]]. by exists r.
  - intros [r [= -> ->]]. eauto.
Qed.

Lemma char_at_head c s : char_at (c :: s) 0 = c.
Proof. done. Qed.

Lemma char_at_tail c s i : 0 < i -> char_at (c :: s) i = char_at s (i - 1).
Proof. unfold char_at. intros H. by replace (Z.to_nat i) with (S (Z.to_nat (i - 1))) by lia. Qed.

Lemma copy_str_id cap s : strlen s < cap -> copy_str cap s = s.
Proof. unfold strlen, copy_str. intros H. apply take_ge. lia. Qed.

Lemma copy_str_len cap s : 0 < cap -> strlen (copy_str cap s) < cap.
Proof. unfold strlen, copy_str. intros H. rewrite length_take. lia. Qed.

Lemma copy_str_cstring cap s : cstring s -> cstring (copy_str cap s).
Proof. apply Forall_take. Qed.

Lemma cstring_app a b : cstring (a ++ b) <-> cstring a /\ cstring b.
Proof. apply Forall_app. Qed.

End Cstr.
