(* ===== verification/Kprintf.v ===== *)
(** * Formatted output (src/src/lib/kprintf.c)

    [kvsnprintf] on a character buffer, with the variable arguments as a list
    of 64-bit slots and strings.  An argument that does not fit its conversion
    has no result ([None]): C leaves it undefined.  [expand] is the text a
    format stands for; the buffer gets as much of it as fits. *)

From Stdlib Require Import String.
From S2P Require Import Prelude Cstr.
Import Cstr.

Module Kprintf.

Inductive arg := AInt (v : Z) | AStr (s : option (list Z)).

(** ** Numbers *)

Definition digit (uppercase : bool) (d : Z) : Z :=
  if d <? 10 then 48 + d else (if uppercase then 55 else 87) + d.

(** The digits of [val], least significant first, as they are put in [tmp];
    20 digits are enough for 64 bits in base 10. *)
Fixpoint digits (fuel : nat) (val base : Z) (uppercase : bool) : list Z :=
  match fuel with
  | O => []
  | S fuel' => if 0 <? val then digit uppercase (val mod base) :: digits fuel' (val / base) base uppercase else []
  end.

Definition uint_to_str (val base : Z) (uppercase : bool) : list Z :=
  if val =? 0 then [48] else rev (digits 20 val base uppercase).

Definition int_to_str (val : Z) : list Z :=
  if val <? 0 then 45 :: uint_to_str (u64 (- val)) 10 false else uint_to_str (u64 val) 10 false.

(** ** The format *)

Definition is_digit (c : Z) : bool := (48 <=? c) && (c <=? 57).

(** The digits of a field width. *)
Fixpoint read_width (width : Z) (fmt : list Z) : Z * list Z :=
  match fmt with
  | c :: fmt' => if is_digit c then read_width (i32 (width * 10 + (c - 48))) fmt' else (width, fmt)
  | [] => (width, [])
  end.

(** Width, padding character and the rest of the format. *)
Definition read_field (fmt : list Z) : Z * Z * list Z :=
  let c0 := char_at fmt 0 in
  let c1 := char_at fmt 1 in
  if (c0 =? 48) && ((49 <=? c1) && (c1 <=? 57)) then
    let '(w, fmt) := read_width 0 (tail fmt) in (w, 48, fmt)
  else if (49 <=? c0) && (c0 <=? 57) then
    let '(w, fmt) := read_width 0 fmt in (w, 32, fmt)
  else (-1, 32, fmt).

(** [is_long || is_ll] and the rest. *)
Definition read_long (fmt : list Z) : bool * list Z :=
  if (char_at fmt 0 =? 108) && (char_at fmt 1 =? 108) then (true, drop 2 fmt)
  else if char_at fmt 0 =? 108 then (true, drop 1 fmt)
  else (false, fmt).

Definition padded (width pad : Z) (s : list Z) : list Z :=
  (if (0 <? width) && (strlen s <? width) then repeat pad (Z.to_nat (width - strlen s)) else []) ++ s.

(** The text of one conversion, and the arguments left. *)
Definition convert (c width pad : Z) (long : bool) (args : list arg) : option (list Z * list arg) :=
  if (c =? 100) || (c =? 105) then
    match args with
    | AInt v :: args => Some (padded width pad (int_to_str (if long then i64 v else i32 v)), args)
    | _ => None
    end
  else if c =? 117 then
    match args with
    | AInt v :: args => Some (padded width pad (uint_to_str (if long then u64 v else u32 v) 10 false), args)
    | _ => None
    end
  else if (c =? 120) || (c =? 88) then
    match args with
    | AInt v :: args => Some (padded width pad (uint_to_str (if long then u64 v else u32 v) 16 (c =? 88)), args)
    | _ => None
    end
  else if c =? 112 then
    match args with
    | AInt v :: args =>
        let s := uint_to_str (u64 v) 16 false in
        Some ([48; 120] ++ repeat 48 (Z.to_nat (16 - strlen s)) ++ s, args)
    | _ => None
    end
  else if c =? 115 then
    match args with
    | AStr s :: args => Some (match s with Some s => s | None => str "(null)" end, args)
    | _ => None
    end
  else if c =? 99 then
    match args with
    | AInt v :: args => Some ([u8 v], args)
    | _ => None
    end
  else if c =? 37 then Some ([37], args)
  else Some ([37; c], args).

(** ** The buffer *)

Record sink := { buf : Z -> Z; pos : Z }.

(** [PUT(c)] *)
Definition put (size c : Z) (o : sink) : sink :=
  {| buf := if pos o <? u64 (size - 1) then (buf o).[pos o <- c] else buf o; pos := u64 (pos o + 1) |}.

Definition puts (size : Z) (s : list Z) (o : sink) : sink := fold_left (fun o c => put size c o) s o.

(** The loop over the format takes one round per character at most.  A
    percent sign at the end of the format makes the code read on behind the
    terminator: no result. *)
Fixpoint format (fuel : nat) (size : Z) (fmt : list Z) (args : list arg) (o : sink) : option sink :=
  match fuel with
  | O => match fmt with [] => Some o | _ => None end
  | S fuel' =>
      match fmt with
      | [] => Some o
      | c :: fmt =>
          if negb (c =? 37) then format fuel' size fmt args (put size c o)
          else
            let '(width, pad, fmt) := read_field fmt in
            let '(long, fmt) := read_long fmt in
            match fmt with
            | [] => None
            | c :: fmt =>
                match convert c width pad long args with
                | None => None
                | Some (s, args) => format fuel' size fmt args (puts size s o)
                end
            end
      end
  end.

Definition kvsnprintf (b : Z -> Z) (size : Z) (fmt : list Z) (args : list arg) : option (Z * (Z -> Z)) :=
  match format (length fmt) size fmt args {| buf := b; pos := 0 |} with
  | None => None
  | Some o =>
      Some (i32 (pos o),
            if pos o <? size then (buf o).[pos o <- 0]
            else if 0 <? size then (buf o).[size - 1 <- 0] else buf o)
  end.
(** ** What a format stands for *)

Inductive expands : list Z -> list arg -> list Z -> Prop :=
| expands_end args : expands [] args []
| expands_char c fmt args t : c <> 37 -> expands fmt args t -> expands (c :: fmt) args (c :: t)
| expands_conv fmt width pad fmt1 long c fmt2 args s args' t :
    read_field fmt = (width, pad, fmt1) -> read_long fmt1 = (long, c :: fmt2) ->
    convert c width pad long args = Some (s, args') -> expands fmt2 args' t ->
    expands (37 :: fmt) args (s ++ t).

Lemma read_width_len w fmt : (length (snd (read_width w fmt)) <= length fmt)%nat.
Proof.
  revert w. induction fmt as [|c fmt IH]; intros w; cbn; [done|].
  destruct (is_digit c); cbn; [|done]. specialize (IH (i32 (w * 10 + (c - 48)))). lia.
Qed.

Lemma read_field_len fmt : (length (snd (read_field fmt)) <= length fmt)%nat.
Proof.
  unfold read_field. repeat case_bool; cbn [snd]; try done.
  - pose proof (read_width_len 0 (tail fmt)). destruct (read_width 0 (tail fmt)) as [w f]; cbn in *.
    destruct fmt; cbn in *; lia.
  - pose proof (read_width_len 0 fmt). by destruct (read_width 0 fmt) as [w f].
Qed.

Lemma read_long_len fmt : (length (snd (read_long fmt)) <= length fmt)%nat.
Proof. unfold read_long. repeat case_bool; cbn [snd]; rewrite ?length_drop; lia. Qed.

Lemma format_expands fmt args t size : expands fmt args t ->
  forall fuel o, (length fmt <= fuel)%nat -> format fuel size fmt args o = Some (puts size t o).
Proof.
  induction 1 as [args|c fmt args t Hc _ IH|fmt w p f1 lg c f2 args s args' t E1 E2 E3 _ IH]; intros fuel o Hf.
  - by destruct fuel.
  - destruct fuel as [|fuel]; cbn in Hf; [lia|]. cbn [format]. rewrite (proj2 (Z.eqb_neq c 37) Hc). cbn [negb].
    apply IH. lia.
  - destruct fuel as [|fuel]; cbn [length] in Hf; [lia|]. cbn [format]. rewrite E1, E2, E3. cbn.
    rewrite IH; [by unfold puts; rewrite fold_left_app|].
    pose proof (read_field_len fmt). pose proof (read_long_len f1). rewrite E1 in *. rewrite E2 in *. cbn in *. lia.
Qed.

(** The buffer after a text, as far as it fits. *)
Lemma puts_at size t : 0 < size < 2 ^ 64 -> forall o, 0 <= pos o -> pos o + strlen t < 2 ^ 64 ->
  pos (puts size t o) = pos o + strlen t /\
  forall j, buf (puts size t o) j =
    if (pos o <=? j) && (j <? Z.min (pos o + strlen t) (size - 1)) then char_at t (j - pos o) else buf o j.
Proof.
  intros Hs. unfold strlen. induction t as [|c t IH]; intros o Hp Hb; cbn [puts fold_left length] in *.
  - split; [lia|]. intros j. case_bool; [lia|done].
  - assert (pos (put size c o) = pos o + 1) as Hn by (cbn; apply wrap_small; lia).
    destruct (IH (put size c o) ltac:(lia) ltac:(lia)) as [Hpos Hat].
    unfold puts in *. rewrite Hpos, Hn. split; [lia|]. intros j.
    rewrite Hat, Hn. cbn [buf put]. rewrite (wrap_small 64) by lia. unfold char_at, upd.
    repeat case_bool; try lia; try done.
    + replace (Z.to_nat (j - pos o)) with (S (Z.to_nat (j - (pos o + 1)))) by lia. done.
    + assert (j = pos o) as -> by lia. by rewrite Z.sub_diag.
Qed.

(** ** Numbers read back *)

Definition undigit (c : Z) : Z := if c <? 58 then c - 48 else if c <? 97 then c - 55 else c - 87.
Definition value (base : Z) (s : list Z) : Z := fold_left (fun n c => n * base + undigit c) s 0.

Lemma undigit_digit up d : 0 <= d < 16 -> undigit (digit up d) = d.
Proof. intros Hd. unfold undigit, digit. destruct up; repeat case_bool; lia. Qed.

Lemma digits_value fuel val base up : 2 <= base <= 16 -> 0 <= val < base ^ Z.of_nat fuel ->
  value base (rev (digits fuel val base up)) = val /\ (length (digits fuel val base up) <= fuel)%nat.
Proof.
  intros Hb. revert val. induction fuel as [|fuel IH]; intros val Hv.
  { rewrite Z.pow_0_r in Hv. cbn. split; lia. }
  cbn [digits]. destruct (Z.ltb_spec 0 val); [|cbn; split; lia].
  rewrite Nat2Z.inj_succ, Z.pow_succ_r in Hv by lia.
  destruct (IH (val / base)) as [IHv IHl].
  { split; [apply Z.div_pos; lia|apply Z.div_lt_upper_bound; lia]. }
  split; [|cbn; lia]. unfold value in *. cbn [rev]. rewrite fold_left_app, IHv. cbn.
  rewrite undigit_digit by (pose proof (Z.mod_pos_bound val base); lia).
  pose proof (Z.div_mod val base). lia.
Qed.

Lemma uint_to_str_value val base up : 10 <= base <= 16 -> 0 <= val < 2 ^ 64 ->
  value base (uint_to_str val base up) = val /\ (length (uint_to_str val base up) <= 20)%nat.
Proof.
  intros Hb Hv. unfold uint_to_str. destruct (Z.eqb_spec val 0) as [->|Hne]; [cbn; split; lia|].
  rewrite length_rev. apply digits_value; [lia|]. split; [lia|].
  apply Z.lt_le_trans with (10 ^ Z.of_nat 20); [cbn; lia|]. apply Z.pow_le_mono_l. lia.
Qed.

(** A percent sign and a conversion letter without a field width. *)
Lemma expands_simple c fmt args s args' t :
  is_digit c = false -> c <> 108 -> convert c (-1) 32 false args = Some (s, args') -> expands fmt args' t ->
  expands (37 :: c :: fmt) args (s ++ t).
Proof.
  intros Hd Hl Hc Ht. unfold is_digit in Hd. refine (expands_conv _ (-1) 32 (c :: fmt) false c fmt _ _ _ _ _ _ Hc Ht).
  - unfold read_field. rewrite char_at_head. by repeat case_bool; try lia.
  - unfold read_long. by rewrite char_at_head, (proj2 (Z.eqb_neq c 108) Hl).
Qed.

Lemma expands_str s fmt args t : expands fmt args t -> expands (37 :: 115 :: fmt) (AStr (Some s) :: args) (s ++ t).
Proof. by intros; eapply expands_simple. Qed.

(** C34: [kvsnprintf] writes the text of its format, cut to what the buffer
    holds, terminates it, touches nothing outside the buffer and returns the
    full length of the text. *)
Theorem kvsnprintf_fits b size fmt args t :
  0 < size < 2 ^ 64 -> expands fmt args t -> strlen t < 2 ^ 31 ->
  exists b', kvsnprintf b size fmt args = Some (strlen t, b') /\
    (forall j, 0 <= j < Z.min (strlen t) (size - 1) -> b' j = char_at t j) /\
    b' (Z.min (strlen t) (size - 1)) = 0 /\
    (forall j, j < 0 \/ size <= j -> b' j = b j).
Proof.
  intros Hs Ht Hl. unfold kvsnprintf. rewrite (format_expands _ _ _ size Ht) by done.
  destruct (puts_at size t Hs {| buf := b; pos := 0 |}) as [Hp Hat]; cbn [pos buf] in *; [done|lia|].
  assert (0 <= strlen t) by (unfold strlen; lia).
  rewrite Z.add_0_l in Hp. rewrite Hp, swrap_small by lia. eexists. split; [done|].
  destruct (Z.ltb_spec (strlen t) size).
  - split_and!.
    + intros j Hj. rewrite upd_ne by lia. rewrite Hat, Z.sub_0_r. case_bool; [done|lia].
    + rewrite Z.min_l by lia. apply upd_eq.
    + intros j Hj. rewrite upd_ne by lia. rewrite Hat. case_bool; [lia|done].
  - rewrite (proj2 (Z.ltb_lt 0 size)) by lia. split_and!.
    + intros j Hj. rewrite upd_ne by lia. rewrite Hat, Z.sub_0_r. case_bool; [done|lia].
    + rewrite Z.min_r by lia. apply upd_eq.
    + intros j Hj. rewrite upd_ne by lia. rewrite Hat. case_bool; [lia|done].
Qed.

Lemma kvsnprintf_fits_witness : exists b',
  kvsnprintf (fun _ => 7) 4 (str "/%s") [AStr (Some (str "home"))] = Some (5, b') /\
  map b' [-1; 0; 1; 2; 3; 4] = [7; 47; 104; 111; 0; 7].
Proof.
  destruct (kvsnprintf_fits (fun _ => 7) 4 (str "/%s") [AStr (Some (str "home"))] (47 :: str "home" ++ [])) as (b' & E & H1 & H2 & H3).
  - lia.
  - apply expands_char; [done|]. apply expands_str. constructor.
  - vm_compute. reflexivity.
  - exists b'. split; [exact E|]. cbn [map]. change (strlen _) with 5 in H1, H2. change (Z.min 5 (4 - 1)) with 3 in H1, H2.
    rewrite (H1 0), (H1 1), (H1 2), H2, (H3 (-1)), (H3 4) by lia. reflexivity.
Defined.

(** A size of zero makes [size - 1] the largest 64-bit number: the text is
    written although the buffer has no room. *)
Example zero_size_unbounded :
  option_map (fun r => snd r 0) (kvsnprintf (fun _ => 7) 0 (str "x") []) = Some 120.
Proof. reflexivity. Qed.

(** Text of a number and back. *)
Lemma decimal_roundtrip v : 0 <= v < 2 ^ 64 ->
  exists t, expands (str "%lu") [AInt v] t /\ value 10 t = v.
Proof.
  intros Hv. exists (uint_to_str v 10 false ++ []). split; [|rewrite app_nil_r; by apply uint_to_str_value].
  eapply (expands_conv (str "lu") (-1) 32 (str "lu") true 117 [] _ _ []); [done|done| |constructor].
  unfold convert. cbn. by rewrite wrap_small.
Qed.

End Kprintf.
