(* ===== verification/VfsPath.v ===== *)
(** * Paths and the mount table (src/src/fs/vfs.c 17-222 and 605-628)

    Normalising a path against the working directory, splitting it, and
    finding the mount it belongs to.  Paths are C strings of at most 255
    bytes; a canonical path is a slash and its components, none of them empty,
    [.] or [..]. *)

From Stdlib Require Import String.
From S2P Require Import Prelude Cstr.
Import Cstr.

Module VfsPath.

Definition SLASH : Z := 47.
Definition PATH_CAP : Z := 256.
Definition MAX_PARTS : Z := 32.

(** ** Normalising *)

Definition is_abs_path (path : list Z) : bool := char_at path 0 =? SLASH.

(** [while ( *p == '/') p++] *)
Fixpoint skip_slashes (p : list Z) : list Z :=
  match p with
  | c :: p' => if c =? SLASH then skip_slashes p' else p
  | [] => []
  end.

(** The component that starts here, and what follows it. *)
Fixpoint span_name (p : list Z) : list Z * list Z :=
  match p with
  | c :: p' => if c =? SLASH then ([], p) else let '(a, b) := span_name p' in (c :: a, b)
  | [] => ([], [])
  end.

(** One component on the stack [parts]. *)
Definition push_part (start : list Z) (parts : list (list Z)) : list (list Z) :=
  if streq start (str ".") then parts
  else if streq start (str "..") then removelast parts
  else if Z.of_nat (length parts) <? MAX_PARTS then parts ++ [start] else parts.

(** The loop over [temp]; every round takes at least one character. *)
Fixpoint norm_loop (fuel : nat) (p : list Z) (parts : list (list Z)) : list (list Z) :=
  match fuel with
  | O => parts
  | S fuel' =>
      match skip_slashes p with
      | [] => parts
      | p => let '(start, p) := span_name p in norm_loop fuel' (tail p) (push_part start parts)
      end
  end.

(** Writing the components to [out], as long as there is room. *)
Fixpoint emit (cap : Z) (first : bool) (parts : list (list Z)) (out : list Z) : list Z :=
  match parts with
  | [] => out
  | s :: parts =>
      if strlen out + 1 <? cap then
        let out := if first then out else out ++ [SLASH] in
        emit cap false parts (out ++ take (Z.to_nat (cap - 1 - strlen out)) s)
      else out
  end.

Definition path_normalize (input : list Z) (cap : Z) : list Z :=
  match input with
  | [] => copy_str cap (str "/")
  | _ =>
      let temp := copy_str PATH_CAP input in
      emit cap true (norm_loop (length temp) temp []) [SLASH]
  end.

(** The working directory [cwd] of the current task; the joined path is cut
    to 255 bytes by ksnprintf. *)
Definition vfs_resolve_path (cwd path : list Z) (cap : Z) : list Z :=
  let cwd := match cwd with [] => str "/" | _ => cwd end in
  match path with
  | [] => path_normalize cwd cap
  | _ =>
      if is_abs_path path then path_normalize path cap
      else
        let joined := if streq cwd (str "/") then SLASH :: path else cwd ++ SLASH :: path in
        path_normalize (copy_str PATH_CAP joined) cap
  end.

(** ** Directory and name of a path *)

(** Index of the last slash behind the first character, 0 if there is none. *)
Fixpoint last_slash (i : Z) (last : Z) (p : list Z) : Z :=
  match p with
  | [] => last
  | c :: p' => last_slash (i + 1) (if c =? SLASH then i else last) p'
  end.

Definition path_parent (path : list Z) (parent_cap base_cap : Z) : list Z * list Z :=
  if negb (char_at path 0 =? SLASH) then ([], [])
  else
    let last := last_slash 1 0 (tail path) in
    if last =? 0 then (copy_str parent_cap (str "/"), copy_str base_cap (drop 1 path))
    else (copy_str parent_cap (take (Z.to_nat last) path), copy_str base_cap (drop (Z.to_nat (last + 1)) path)).

(** ** Mounts *)

Inductive fs_type_e := FS_NONE | FS_INITRD | FS_FAT32 | FS_DEVFS | FS_PROCFS | FS_RAMFS.
#[export] Instance fs_type_eq_dec : EqDecision fs_type_e.
Proof. solve_decision. Defined.

(** [priv] is the number of the ramfs or of the FAT32 volume. *)
Record vfs_mount_t := {
  mount_point : list Z;
  m_type : fs_type_e;
  priv : Z;
  block_dev : Z;
  block_start_lba : Z;
  block_sector_count : Z;
  block_backed : bool;
  m_active : bool
}.
#[export] Instance eta_mount : Eta vfs_mount_t := fun r => Build_vfs_mount_t (mount_point r) (m_type r) (priv r)
  (block_dev r) (block_start_lba r) (block_sector_count r) (block_backed r) (m_active r).

Definition VFS_MAX_MOUNTS : Z := 16.

Definition zero_mount : vfs_mount_t :=
  {| mount_point := []; m_type := FS_NONE; priv := 0; block_dev := 0; block_start_lba := 0;
     block_sector_count := 0; block_backed := false; m_active := false |}.

(** The mount point is a prefix of the path that ends at a component:
    [path[mplen]] is the terminator or a slash. *)
Definition mount_matches (m : vfs_mount_t) (path : list Z) : bool :=
  let mplen := strlen (mount_point m) in
  m_active m && (starts_with (mount_point m) path &&
    ((mplen =? 1) || (strlen path =? mplen) || (char_at path mplen =? SLASH))).

(** The loop over the table keeps the best index and its length. *)
Definition best_mount (path : list Z) (mounts : Z -> vfs_mount_t) (count : Z) : Z * Z :=
  for_loop (Z.to_nat count) 0 (fun i '(best, best_len) =>
    let mplen := strlen (mount_point (mounts i)) in
    if mount_matches (mounts i) path && (best_len <? mplen) then (i, mplen) else (best, best_len)) (-1, 0).

Definition relative (path : list Z) (best_len : Z) : list Z :=
  let p := drop (Z.to_nat best_len) path in
  match p with
  | [] => str "/"
  | _ => if best_len =? 1 then path else p
  end.

Definition vfs_find_mount (path : list Z) (mounts : Z -> vfs_mount_t) (count : Z) : Z * list Z :=
  let '(best, best_len) := best_mount path mounts count in
  (best, if 0 <=? best then relative path best_len else []).

(** Whether another mount lies between [parent] and mount [i]. *)
Definition nested_child (parent : list Z) (mounts : Z -> vfs_mount_t) (count i : Z) : bool :=
  let parent_len := strlen parent in
  match find_index (Z.to_nat count) 0 (fun j =>
    let mp := mount_point (mounts j) in
    let other_len := strlen mp in
    negb (i =? j) && m_active (mounts j) && (parent_len <? other_len) && starts_with parent mp &&
    (char_at mp (if parent_len =? 1 then 1 else parent_len) =? SLASH) &&
    starts_with mp (mount_point (mounts i)) && (char_at (mount_point (mounts i)) other_len =? SLASH)) with
  | Some _ => true
  | None => false
  end.

(** The name of the [index]-th mount directly below [parent]. *)
Fixpoint child_loop (n : nat) (i seen : Z) (parent : list Z) (index : Z) (mounts : Z -> vfs_mount_t) (count : Z) : option (list Z) :=
  match n with
  | O => None
  | S n' =>
      let m := mounts i in
      let '(mount_parent, mount_name) := path_parent (mount_point m) 128 128 in
      if negb (m_active m) || streq (mount_point m) (str "/") || negb (streq mount_parent parent) ||
         nested_child parent mounts count i
      then child_loop n' (i + 1) seen parent index mounts count
      else if seen =? index then Some mount_name
      else child_loop n' (i + 1) (seen + 1) parent index mounts count
  end.

Definition mount_child_at (parent : list Z) (index : Z) (mounts : Z -> vfs_mount_t) (count : Z) : option (list Z) :=
  child_loop (Z.to_nat count) 0 0 parent index mounts count.

Definition mount_has_child (parent : list Z) (mounts : Z -> vfs_mount_t) (count : Z) : bool :=
  match mount_child_at parent 0 mounts count with Some _ => true | None => false end.

(** ** Components of a path *)

Fixpoint segs (cur l : list Z) : list (list Z) :=
  match l with
  | [] => match cur with [] => [] | _ => [cur] end
  | c :: l' =>
      if c =? SLASH then match cur with [] => segs [] l' | _ => cur :: segs [] l' end
      else segs (cur ++ [c]) l'
  end.

(** The non-empty pieces between slashes. *)
Definition segments (l : list Z) : list (list Z) := segs [] l.

Definition flat (parts : list (list Z)) : list Z := concat (map (cons SLASH) parts).
Definition render (parts : list (list Z)) : list Z := match parts with [] => str "/" | _ => flat parts end.

(** What [.] and [..] mean. *)
Definition resolve (l : list (list Z)) : list (list Z) :=
  fold_left (fun ps s => if streq s (str ".") then ps else if streq s (str "..") then removelast ps else ps ++ [s]) l [].

Definition no_slash (s : list Z) : Prop := Forall (fun c => c <> SLASH) s.
Definition part_ok (s : list Z) : Prop := s <> [] /\ no_slash s /\ s <> str "." /\ s <> str "..".
Definition canonical (parts : list (list Z)) : Prop := Forall part_ok parts /\ Z.of_nat (length parts) <= MAX_PARTS.

(** ** Splitting and rendering *)

Lemma segs_name cur s l : no_slash s -> segs cur (s ++ l) = segs (cur ++ s) l.
Proof.
  intros H. revert cur. induction H as [|c s Hc _ IH]; intros cur; cbn; [by rewrite app_nil_r|].
  by rewrite (proj2 (Z.eqb_neq c SLASH) Hc), IH, <- app_assoc.
Qed.

Lemma segs_slash cur l : segs cur (SLASH :: l) = segs cur [] ++ segments l.
Proof. by destruct cur. Qed.

Lemma segs_app_slash a cur l : segs cur (a ++ SLASH :: l) = segs cur a ++ segments l.
Proof.
  revert cur. induction a as [|c a IH]; intros cur; cbn [app]; [apply segs_slash|].
  cbn [segs]. destruct (c =? SLASH); [|apply IH]. rewrite IH. by destruct cur.
Qed.

Lemma segments_span a b : a <> [] -> no_slash a -> b = [] \/ (exists b', b = SLASH :: b') ->
  segments (a ++ b) = a :: segments (tail b).
Proof.
  intros Hne Ha Hb. unfold segments. rewrite segs_name by done. cbn.
  destruct Hb as [->|[b' ->]]; cbn; by destruct a.
Qed.

Lemma flat_cons s parts : flat (s :: parts) = SLASH :: s ++ flat parts.
Proof. done. Qed.

Lemma flat_app a b : flat (a ++ b) = flat a ++ flat b.
Proof. unfold flat. by rewrite map_app, concat_app. Qed.

Lemma flat_head parts : flat parts = [] \/ exists l, flat parts = SLASH :: l.
Proof. destruct parts; [by left|right; by eexists]. Qed.

Lemma segments_tail l : l = [] \/ (exists l', l = SLASH :: l') -> segments (tail l) = segments l.
Proof. by intros [->|[l' ->]]. Qed.

Lemma segments_flat parts : Forall (fun s => s <> [] /\ no_slash s) parts -> segments (flat parts) = parts.
Proof.
  induction 1 as [|s parts [Hne Hs] _ IH]; [done|]. rewrite flat_cons.
  change (segments (SLASH :: s ++ flat parts)) with (segments (s ++ flat parts)).
  rewrite segments_span by auto using flat_head. by rewrite segments_tail, IH by apply flat_head.
Qed.

Lemma segs_parts l cur : no_slash cur -> Forall (fun s => s <> [] /\ no_slash s) (segs cur l).
Proof.
  revert cur. induction l as [|c l IH]; intros cur Hc; cbn [segs].
  - destruct cur; [constructor|]. by constructor; [|constructor].
  - destruct (Z.eqb_spec c SLASH).
    + destruct cur; [apply IH; constructor|]. constructor; [done|]. apply IH. constructor.
    + apply IH. apply Forall_app. split; [done|]. by repeat constructor.
Qed.

Lemma segments_parts l : Forall (fun s => s <> [] /\ no_slash s) (segments l).
Proof. apply segs_parts. constructor. Qed.

Lemma span_name_ok p : let '(a, b) := span_name p in
  p = a ++ b /\ no_slash a /\ (b = [] \/ exists b', b = SLASH :: b').
Proof.
  induction p as [|c p IH]; cbn [span_name]; [by split_and!; [|constructor|left]|].
  destruct (Z.eqb_spec c SLASH) as [->|Hc]; [by split_and!; [|constructor|right; exists p]|].
  destruct (span_name p) as [a b]. destruct IH as (-> & Ha & Hb). split_and!; [done|by constructor|done].
Qed.

Lemma skip_slashes_ok p : segments (skip_slashes p) = segments p /\
  (length (skip_slashes p) <= length p)%nat /\ char_at (skip_slashes p) 0 <> SLASH.
Proof.
  induction p as [|c p IH]; cbn [skip_slashes]; [done|].
  destruct (Z.eqb_spec c SLASH) as [->|Hc]; [|by rewrite char_at_head].
  destruct IH as (IH1 & IH2 & IH3). cbn [length]. split_and!; [done|lia|done].
Qed.

Lemma norm_loop_ok fuel p parts : (length p <= fuel)%nat ->
  norm_loop fuel p parts = fold_left (fun ps s => push_part s ps) (segments p) parts.
Proof.
  revert p parts. induction fuel as [|fuel IH]; intros p parts Hf; cbn [norm_loop].
  { by destruct p; cbn in Hf; [|lia]. }
  pose proof (skip_slashes_ok p) as (Hs & Hl & Hc). rewrite <- Hs.
  destruct (skip_slashes p) as [|c q] eqn:E; [done|]. rewrite char_at_head in Hc.
  pose proof (span_name_ok (c :: q)) as Hsp. cbn [span_name] in *.
  rewrite (proj2 (Z.eqb_neq c SLASH) Hc) in *. destruct (span_name q) as [a b] eqn:Eq.
  destruct Hsp as (Heq & Ha & Hb). rewrite Heq, segments_span by done. cbn [fold_left].
  apply IH. assert (length (c :: q) = length ((c :: a) ++ b)) as Hlen by (by rewrite Heq).
  rewrite length_app in Hlen. cbn [length] in *. destruct b; cbn [length tail] in *; lia.
Qed.

(** ** Canonical paths *)

Definition weight (parts : list (list Z)) : Z := strlen (flat parts).

Lemma weight_nil : weight [] = 0.
Proof. done. Qed.

Lemma weight_cons s parts : weight (s :: parts) = 1 + strlen s + weight parts.
Proof. unfold weight, strlen. rewrite flat_cons. cbn [length]. rewrite length_app. lia. Qed.

Lemma weight_app a b : weight (a ++ b) = weight a + weight b.
Proof. unfold weight, strlen. rewrite flat_app, length_app. lia. Qed.

Lemma weight_removelast parts : weight (removelast parts) <= weight parts.
Proof.
  destruct (decide (parts = [])) as [->|Hne]; [done|].
  rewrite (app_removelast_last [] Hne) at 2. rewrite weight_app. unfold weight at 3. unfold strlen. lia.
Qed.

Lemma weight_push s parts : weight (push_part s parts) <= 1 + strlen s + weight parts.
Proof.
  pose proof (weight_removelast parts). assert (0 <= strlen s) by (unfold strlen; lia).
  unfold push_part. repeat case_bool; try lia. rewrite weight_app, weight_cons, weight_nil. lia.
Qed.

Lemma weight_norm l parts : weight (fold_left (fun ps s => push_part s ps) l parts) <= weight l + weight parts.
Proof.
  revert parts. induction l as [|s l IH]; intros parts; cbn [fold_left]; [rewrite weight_nil; lia|].
  specialize (IH (push_part s parts)). pose proof (weight_push s parts). rewrite weight_cons. lia.
Qed.

Lemma weight_segs cur l : weight (segs cur l) <= 1 + strlen cur + strlen l.
Proof.
  revert cur. induction l as [|c l IH]; intros cur; cbn [segs].
  - destruct cur; rewrite ?weight_cons, weight_nil; unfold strlen; lia.
  - destruct (c =? SLASH).
    + specialize (IH []). unfold strlen in *. destruct cur; cbn [length] in *; rewrite ?weight_cons; unfold strlen; cbn [length]; lia.
    + specialize (IH (cur ++ [c])). unfold strlen in *. rewrite length_app in IH. cbn [length] in *. lia.
Qed.

Lemma canonical_push s parts : s <> [] -> no_slash s -> canonical parts -> canonical (push_part s parts).
Proof.
  intros Hne Hs [Hp Hl]. unfold push_part, canonical.
  destruct (streq_spec s (str ".")); [done|]. destruct (streq_spec s (str "..")).
  - destruct (decide (parts = [])) as [->|Hnil]; [done|].
    rewrite (app_removelast_last [] Hnil) in Hp, Hl. rewrite length_app in Hl. cbn in Hl.
    apply Forall_app in Hp as [? _]. split; [done|lia].
  - destruct (Z.ltb_spec (Z.of_nat (length parts)) MAX_PARTS); [|done].
    rewrite length_app, Forall_app. cbn. split; [|lia]. split; [done|]. by repeat constructor.
Qed.

Lemma canonical_norm l parts : Forall (fun s => s <> [] /\ no_slash s) l -> canonical parts ->
  canonical (fold_left (fun ps s => push_part s ps) l parts).
Proof.
  intros Hl. revert parts. induction Hl as [|s l [? ?] _ IH]; intros parts Hp; cbn [fold_left]; [done|].
  apply IH. by apply canonical_push.
Qed.

Lemma norm_canonical l parts : canonical (parts ++ l) -> fold_left (fun ps s => push_part s ps) l parts = parts ++ l.
Proof.
  revert parts. induction l as [|s l IH]; intros parts [Hp Hl]; cbn [fold_left]; [by rewrite app_nil_r|].
  apply Forall_app in Hp as [Hp Hs]. destruct (Forall_inv Hs) as (Hne & Hsl & Hd & Hdd).
  rewrite length_app in Hl. cbn [length] in Hl.
  assert (push_part s parts = parts ++ [s]) as ->.
  { unfold push_part. rewrite !streq_ne by done. by rewrite (proj2 (Z.ltb_lt _ _)) by lia. }
  rewrite IH; [by rewrite <- app_assoc|]. split.
  - rewrite <- app_assoc. by apply Forall_app.
  - rewrite !length_app. cbn [length]. lia.
Qed.

Lemma norm_resolve l parts : Z.of_nat (length parts + length l) <= MAX_PARTS ->
  fold_left (fun ps s => push_part s ps) l parts =
  fold_left (fun ps s => if streq s (str ".") then ps else if streq s (str "..") then removelast ps else ps ++ [s]) l parts.
Proof.
  revert parts. induction l as [|s l IH]; intros parts Hl; cbn [fold_left length] in *; [done|].
  assert (length (removelast parts) <= length parts)%nat.
  { destruct (decide (parts = [])) as [->|Hne]; [done|]. rewrite (app_removelast_last [] Hne) at 2. rewrite length_app. lia. }
  assert (push_part s parts = if streq s (str ".") then parts else if streq s (str "..") then removelast parts else parts ++ [s]) as ->.
  { unfold push_part. by rewrite (proj2 (Z.ltb_lt _ _)) by lia. }
  repeat case_bool; apply IH; rewrite ?length_app; cbn [length]; lia.
Qed.

Lemma emit_ok cap parts out : strlen out + weight parts < cap -> emit cap false parts out = out ++ flat parts.
Proof.
  revert out. induction parts as [|s parts IH]; intros out Hc; cbn [emit]; [by rewrite app_nil_r|].
  rewrite weight_cons in Hc. assert (0 <= weight parts /\ 0 <= strlen s) by (unfold weight, strlen; lia).
  rewrite (proj2 (Z.ltb_lt _ _)) by lia. unfold strlen in *. rewrite length_app in *. cbn [length] in *.
  rewrite take_ge by lia. rewrite IH by (rewrite !length_app; cbn [length]; lia).
  rewrite flat_cons, <- !app_assoc. done.
Qed.

Lemma emit_render cap parts : Forall part_ok parts -> weight parts < cap -> emit cap true parts [SLASH] = render parts.
Proof.
  intros Hp Hc. destruct parts as [|s parts]; [done|]. cbn [emit]. rewrite weight_cons in Hc.
  destruct (Forall_inv Hp) as [Hne _].
  assert (0 <= weight parts /\ 0 < strlen s) by (unfold weight, strlen; destruct s; cbn [length]; [done|lia]).
  rewrite (proj2 (Z.ltb_lt _ _)) by (change (strlen [SLASH]) with 1; lia). unfold strlen in *. cbn [length] in *.
  rewrite take_ge by lia. rewrite emit_ok; [done|]. unfold strlen. cbn [length app]. lia.
Qed.

Lemma segments_render parts : Forall part_ok parts -> segments (render parts) = parts.
Proof.
  intros Hp. destruct parts as [|s parts]; [done|]. apply segments_flat.
  eapply Forall_impl; [|exact Hp]. by intros x (? & ? & _).
Qed.

Lemma render_len parts : strlen (render parts) = Z.max 1 (weight parts).
Proof.
  destruct parts as [|s parts]; [done|]. unfold render. fold (weight (s :: parts)).
  rewrite weight_cons. assert (0 <= weight parts /\ 0 <= strlen s) by (unfold weight, strlen; lia). lia.
Qed.

Lemma render_abs parts : is_abs_path (render parts) = true.
Proof. by destruct parts. Qed.

(** An absolute path, normalised. *)
Lemma path_normalize_abs input : is_abs_path input = true ->
  let parts := fold_left (fun ps s => push_part s ps) (segments (copy_str PATH_CAP input)) [] in
  path_normalize input PATH_CAP = render parts /\ canonical parts /\ weight parts < PATH_CAP.
Proof.
  intros Ha. cbv zeta. unfold is_abs_path in Ha. destruct input as [|c input]; [done|].
  rewrite char_at_head in Ha. apply Z.eqb_eq in Ha as ->.
  set (temp := copy_str PATH_CAP (SLASH :: input)).
  assert (weight (fold_left (fun ps s => push_part s ps) (segments temp) []) < PATH_CAP) as Hw.
  { pose proof (weight_norm (segments temp) []) as H. rewrite weight_nil in H.
    pose proof (copy_str_len PATH_CAP (SLASH :: input)) as Hl. fold temp in Hl.
    change temp with (SLASH :: take 254 input) in *.
    change (segments (SLASH :: take 254 input)) with (segs [] (take 254 input)) in *.
    pose proof (weight_segs [] (take 254 input)). unfold strlen in *. cbn [length] in *. unfold PATH_CAP in *. lia. }
  assert (canonical (fold_left (fun ps s => push_part s ps) (segments temp) [])) as Hc.
  { apply canonical_norm; [apply segments_parts|]. by split; [constructor|]. }
  split_and!; [|done|done].
  unfold path_normalize. fold temp. rewrite norm_loop_ok by done. apply emit_render; [apply Hc|done].
Qed.

Lemma path_normalize_fixed parts : canonical parts -> strlen (render parts) < PATH_CAP ->
  path_normalize (render parts) PATH_CAP = render parts.
Proof.
  intros Hc Hl. destruct (path_normalize_abs (render parts) (render_abs parts)) as [-> _].
  rewrite copy_str_id, segments_render by (done || apply Hc). by rewrite norm_canonical.
Qed.

(** ** Mounts and prefixes *)

Lemma weight_pos parts : Forall part_ok parts -> parts <> [] -> 2 <= weight parts.
Proof.
  intros Hp Hne. destruct parts as [|s parts]; [done|]. destruct (Forall_inv Hp) as [Hs _]. rewrite weight_cons.
  assert (0 <= weight parts /\ 0 < strlen s) by (unfold weight, strlen; destruct s; cbn [length]; [done|lia]). lia.
Qed.

Lemma render_app p1 p2 : p1 <> [] -> render (p1 ++ p2) = render p1 ++ flat p2.
Proof. intros H. destruct p1 as [|s p1]; [done|]. exact (flat_app (s :: p1) p2). Qed.

Lemma char_at_app_r a b i : strlen a <= i -> char_at (a ++ b) i = char_at b (i - strlen a).
Proof.
  unfold char_at, strlen. intros H. rewrite app_nth2 by lia. f_equal. lia.
Qed.

(** A mount holds the paths below its mount point. *)
Lemma mount_matches_iff m q p : Forall part_ok q -> Forall part_ok p -> mount_point m = render q ->
  mount_matches m (render p) = true <-> m_active m = true /\ exists p2, p = q ++ p2.
Proof.
  intros Hq Hp Hm. unfold mount_matches. rewrite Hm, render_len, !andb_true_iff, starts_with_spec.
  destruct (decide (q = [])) as [->|Hne].
  { rewrite weight_nil. cbn [Z.max Z.eqb orb]. split.
    - intros (Ha & _). split; [done|]. by exists p.
    - intros (Ha & _). split_and!; [done| |done]. destruct p as [|s p]; [by exists []|].
      by exists (s ++ flat p). }
  pose proof (weight_pos q Hq Hne) as Hw. rewrite Z.max_r by lia.
  replace (weight q =? 1) with false by lia. cbn [orb].
  assert (strlen (render q) = weight q) as Hl by (rewrite render_len; lia).
  split.
  - intros (Ha & [r Hr] & Hc). split; [done|]. exists (segments r).
    assert (r = [] \/ exists r', r = SLASH :: r') as Hb.
    { rewrite Hr, char_at_app_r, Hl, Z.sub_diag in Hc by lia.
      unfold strlen at 1 in Hc. rewrite length_app in Hc. unfold strlen in Hl.
      destruct r as [|c r]; [by left|right]. rewrite char_at_head in Hc. exists r. cbn [length] in Hc. f_equal. lia. }
    rewrite <- (segments_render p Hp), Hr. destruct Hb as [->|[r' ->]].
    + by rewrite !app_nil_r, segments_render.
    + unfold segments at 1. rewrite segs_app_slash. fold (segments (render q)). by rewrite segments_render.
  - intros (Ha & [p2 ->]). split_and!; [done| |].
    + exists (flat p2). by apply render_app.
    + rewrite render_app, char_at_app_r, Hl, Z.sub_diag by (done || lia).
      unfold strlen at 1. rewrite length_app. unfold strlen in Hl. destruct p2; [cbn; lia|].
      rewrite flat_cons, char_at_head. lia.
Qed.

Lemma relative_ok q p2 : Forall part_ok q -> Forall part_ok p2 ->
  relative (render (q ++ p2)) (strlen (render q)) = render p2.
Proof.
  intros Hq Hp2. unfold relative. destruct (decide (q = [])) as [->|Hne].
  - cbn [app]. destruct p2 as [|s p2]; [done|]. destruct (Forall_inv Hp2) as [Hs _].
    change (render (s :: p2)) with (SLASH :: s ++ flat p2). cbn. by destruct s.
  - pose proof (weight_pos q Hq Hne). rewrite render_app by done.
    assert (drop (Z.to_nat (strlen (render q))) (render q ++ flat p2) = flat p2) as ->
      by (unfold strlen; by rewrite Nat2Z.id, drop_app_length).
    rewrite render_len.
    destruct p2 as [|s p2]; [done|]. change (render (s :: p2)) with (flat (s :: p2)). rewrite flat_cons. cbv iota.
    by replace (Z.max 1 (weight q) =? 1) with false by lia.
Qed.

Definition best_ok (path : list Z) (mounts : Z -> vfs_mount_t) (n : Z) (r : Z * Z) : Prop :=
  let '(best, len) := r in
  (best = -1 /\ len = 0 \/ 0 <= best < n /\ mount_matches (mounts best) path = true /\ len = strlen (mount_point (mounts best))) /\
  forall i, 0 <= i < n -> mount_matches (mounts i) path = true -> strlen (mount_point (mounts i)) <= len.

Lemma best_mount_ok path mounts count : 0 <= count -> best_ok path mounts count (best_mount path mounts count).
Proof.
  intros Hc. unfold best_mount. rewrite <- (Z2Nat.id count Hc) at 1. clear Hc.
  induction (Z.to_nat count) as [|n IH]; [cbn; split; [by left|lia]|]. rewrite for_loop_snoc.
  destruct (for_loop n 0 _ (-1, 0)) as [best len]. rewrite Z.add_0_l, Nat2Z.inj_succ. destruct IH as [IH1 IH2].
  case_bool.
  - apply andb_true_iff in Heqb as [Hm Hlt%Z.ltb_lt]. split; [right; split_and!; [lia|lia|done|done]|].
    intros i Hi Hmi. destruct (decide (i = Z.of_nat n)) as [->|]; [lia|]. specialize (IH2 i ltac:(lia) Hmi). lia.
  - split; [destruct IH1 as [?|(? & ? & ?)]; [by left|right; split_and!; auto; lia]|].
    intros i Hi Hmi. destruct (decide (i = Z.of_nat n)) as [->|]; [rewrite Hmi in Heqb; cbn in Heqb; lia|].
    apply IH2; [lia|done].
Qed.

(** A longer prefix of a path is the longer string. *)
Lemma prefix_deeper p q q' r r' : Forall part_ok p -> p = q ++ r -> p = q' ++ r' ->
  strlen (render q') <= strlen (render q) -> (length q' <= length q)%nat.
Proof.
  intros Hp -> E Hl. destruct (decide (length q' <= length q)%nat) as [|Hgt]; [done|]. exfalso.
  assert (q' = q ++ drop (length q) q') as Hq'.
  { rewrite <- (take_drop (length q) q') at 1. f_equal.
    assert (take (length q) (q ++ r) = take (length q) (q' ++ r')) as Ht by (by rewrite E).
    rewrite take_app_length, take_app_le in Ht by lia. by symmetry. }
  rewrite !render_len, Hq', weight_app in Hl.
  assert (2 <= weight (drop (length q) q')); [|assert (0 <= weight q) by (unfold weight, strlen; lia); lia].
  apply weight_pos.
  - rewrite E in Hp. apply Forall_app in Hp as [Hp _]. by apply Forall_drop.
  - intros Hd. apply (f_equal length) in Hd. rewrite length_drop in Hd. cbn in Hd. lia.
Qed.

(** ** Claims *)

(** Normalising any absolute path gives a canonical path of fewer than 256
    bytes on which normalising has no further effect; a path that fits the
    buffers and has at most 32 components becomes exactly what [.] and [..]
    make of its components. *)
Theorem path_canonical input : is_abs_path input = true ->
  exists parts, path_normalize input PATH_CAP = render parts /\ canonical parts /\
    strlen (render parts) < PATH_CAP /\ path_normalize (render parts) PATH_CAP = render parts /\
    (strlen input < PATH_CAP -> Z.of_nat (length (segments input)) <= MAX_PARTS ->
     parts = resolve (segments input)).
Proof.
  intros Ha. destruct (path_normalize_abs input Ha) as (E & Hc & Hw).
  assert (strlen (render (fold_left (fun ps s => push_part s ps) (segments (copy_str PATH_CAP input)) [])) < PATH_CAP) as Hl.
  { rewrite render_len. unfold PATH_CAP in *. lia. }
  eexists. split_and!; [exact E|exact Hc|exact Hl|by apply path_normalize_fixed|].
  intros Hs Hn. rewrite copy_str_id by done. by apply norm_resolve.
Qed.

Lemma path_canonical_witness : exists parts,
  path_normalize (str "/home//guest/./x/../y") PATH_CAP = render parts /\ parts = [str "home"; str "guest"; str "y"].
Proof.
  destruct (path_canonical (str "/home//guest/./x/../y") eq_refl) as (parts & E & _ & _ & _ & H).
  exists parts. split; [exact E|]. rewrite (H ltac:(vm_compute; reflexivity) ltac:(vm_compute; discriminate)). reflexivity.
Defined.

Lemma find_mount_ok p mounts count : canonical p -> 0 <= count ->
  (forall i, 0 <= i < count -> m_active (mounts i) = true ->
    exists q, Forall part_ok q /\ mount_point (mounts i) = render q) ->
  let '(best, rel) := vfs_find_mount (render p) mounts count in
  (best = -1 /\ forall i q p2, 0 <= i < count -> m_active (mounts i) = true -> Forall part_ok q ->
    mount_point (mounts i) = render q -> p <> q ++ p2) \/
  (0 <= best < count /\ m_active (mounts best) = true /\ exists q p2,
    mount_point (mounts best) = render q /\ p = q ++ p2 /\ rel = render p2 /\
    forall i q' p2', 0 <= i < count -> m_active (mounts i) = true -> Forall part_ok q' ->
      mount_point (mounts i) = render q' -> p = q' ++ p2' -> (length q' <= length q)%nat).
Proof.
  intros [Hp _] Hc Hm. unfold vfs_find_mount. pose proof (best_mount_ok (render p) mounts count Hc) as H.
  destruct (best_mount (render p) mounts count) as [best len]. destruct H as [[[-> ->]|(Hb & Hmb & ->)] Hmax].
  - left. split; [done|]. intros i q p2 Hi Ha Hq Hmp ->.
    specialize (Hmax i Hi ltac:(apply (mount_matches_iff _ q); eauto)). rewrite Hmp, render_len in Hmax. lia.
  - right. assert (m_active (mounts best) = true) as Ha by (unfold mount_matches in Hmb; by destruct (m_active _)).
    destruct (Hm best Hb Ha) as (q & Hq & Hmp). split_and!; [lia|lia|done|].
    apply (mount_matches_iff _ q p Hq Hp Hmp) in Hmb as [_ [p2 ->]]. exists q, p2. split_and!; [done|done| |].
    + replace (0 <=? best) with true by lia. rewrite Hmp. apply relative_ok; [done|]. by apply Forall_app in Hp as [_ ?].
    + intros i q' p2' Hi Ha' Hq' Hmp' E.
      apply (prefix_deeper _ q q' p2 p2' Hp eq_refl E). rewrite <- Hmp, <- Hmp'.
      apply Hmax; [done|]. apply (mount_matches_iff _ q'); eauto.
Qed.

(** C33: A canonical path is served by the deepest active mount whose components
    begin it, under the path that remains; it is served by none only if no
    active mount contains it. *)
Theorem mount_resolution p mounts count : canonical p -> 0 <= count ->
  (forall i, 0 <= i < count -> m_active (mounts i) = true ->
    exists q, Forall part_ok q /\ mount_point (mounts i) = render q) ->
  let '(best, rel) := vfs_find_mount (render p) mounts count in
  (best = -1 /\ forall i q p2, 0 <= i < count -> m_active (mounts i) = true -> Forall part_ok q ->
    mount_point (mounts i) = render q -> p <> q ++ p2) \/
  (0 <= best < count /\ m_active (mounts best) = true /\ exists q p2,
    mount_point (mounts best) = render q /\ p = q ++ p2 /\ rel = render p2 /\
    forall i q' p2', 0 <= i < count -> m_active (mounts i) = true -> Forall part_ok q' ->
      mount_point (mounts i) = render q' -> p = q' ++ p2' -> (length q' <= length q)%nat).
Proof. exact (find_mount_ok p mounts count). Qed.

Definition demo_mount (at_ : list Z) : vfs_mount_t := zero_mount <| mount_point := at_ |> <| m_active := true |>.
Definition demo_mounts (i : Z) : vfs_mount_t :=
  demo_mount (nth (Z.to_nat i) [str "/"; str "/usr/local"; str "/home"] []).

Lemma mount_resolution_witness :
  vfs_find_mount (str "/usr/local/bin") demo_mounts 3 = (1, str "/bin") /\
  exists q p2, mount_point (demo_mounts 1) = render q /\ [str "usr"; str "local"; str "bin"] = q ++ p2 /\ str "/bin" = render p2.
Proof.
  pose proof (mount_resolution [str "usr"; str "local"; str "bin"] demo_mounts 3) as H.
  change (vfs_find_mount _ _ _) with (1, str "/bin") in H. split; [reflexivity|].
  destruct H as [[H _]|(_ & _ & q & p2 & H1 & H2 & H3 & _)].
  - split; [by repeat constructor|done].
  - lia.
  - intros i Hi _. assert (i = 0 \/ i = 1 \/ i = 2) as [-> | [-> | ->]] by lia.
    + by exists [].
    + exists [str "usr"; str "local"]. split; [|reflexivity]. by repeat constructor.
    + exists [str "home"]. split; [|reflexivity]. by repeat constructor.
  - discriminate H.
  - by exists q, p2.
Defined.

(** A component that begins with two dots is taken for [..] when the 255-byte
    limit falls behind them: a long path names a file of the parent. *)
Example long_path_escapes :
  let dir := SLASH :: repeat 97 251 in
  path_normalize (dir ++ str "/..secret") PATH_CAP = str "/".
Proof. vm_compute. reflexivity. Qed.

End VfsPath.
