(* ===== verification/Ramfs.v ===== *)
(** * The in-memory file system (src/src/fs/vfs.c 27-42 and 578-798)

    A table of 128 nodes with full path names; a directory is a node without
    data, and nothing ties a node to its parent but the name.  The bytes of a
    file are in a buffer from kmalloc, a value of the node here; whether kmalloc
    succeeds is an argument of the operations that call it.  [None] is a call
    that does not return. *)

From Stdlib Require Import String.
From S2P Require Import Prelude Cstr VfsPath Block.
Import Cstr VfsPath Block.

Module Ramfs.

Definition RAMFS_MAX_FILES : Z := 128.
Definition RAMFS_MAX_DATA : Z := 16 * 1024 * 1024.
Definition NAME_CAP : Z := 192.

Record ramfs_node_t := {
  name : list Z;
  data : option buffer;
  size : Z;
  cap : Z;
  is_dir : bool;
  used : bool
}.
#[export] Instance eta_node : Eta ramfs_node_t :=
  fun r => Build_ramfs_node_t (name r) (data r) (size r) (cap r) (is_dir r) (used r).

Record ramfs_t := { nodes : Z -> ramfs_node_t; bytes_used : Z }.
#[export] Instance eta_ramfs : Eta ramfs_t := fun r => Build_ramfs_t (nodes r) (bytes_used r).

Definition zero_node : ramfs_node_t :=
  {| name := []; data := None; size := 0; cap := 0; is_dir := false; used := false |}.

Definition set_node (i : Z) (n : ramfs_node_t) (fs : ramfs_t) : ramfs_t := fs <| nodes := (nodes fs).[i <- n] |>.

Definition ramfs_init : ramfs_t :=
  {| nodes := (fun _ => zero_node).[0 <- zero_node <| used := true |> <| is_dir := true |> <| name := str "/" |>];
     bytes_used := 0 |}.

(** ** Finding and creating nodes *)

Definition ramfs_find (fs : ramfs_t) (path : list Z) : option Z :=
  match path with
  | [] => None
  | _ => find_index (Z.to_nat RAMFS_MAX_FILES) 0 (fun i => used (nodes fs i) && streq (name (nodes fs i)) path)
  end.

Definition new_node (path : list Z) (dir : bool) : ramfs_node_t :=
  zero_node <| used := true |> <| is_dir := dir |> <| name := copy_str NAME_CAP path |>.

Definition ramfs_create (path : list Z) (dir : bool) (fs : ramfs_t) : option Z * ramfs_t :=
  match path with
  | [] => (None, fs)
  | _ =>
      match ramfs_find fs path with
      | Some i => (Some i, fs)
      | None =>
          match find_index (Z.to_nat RAMFS_MAX_FILES) 0 (fun i => negb (used (nodes fs i))) with
          | Some i => (Some i, set_node i (new_node path dir) fs)
          | None => (None, fs)
          end
      end
  end.

(** The loop of ramfs_mkdir_p; every round but the first takes a character of
    [p] or is the last one. *)
Fixpoint mkdir_loop (fuel : nat) (p cur : list Z) (fs : ramfs_t) : ramfs_t :=
  match fuel with
  | O => fs
  | S fuel' =>
      match p with
      | [] => fs
      | _ =>
          if negb (strlen cur + 1 <? NAME_CAP) then fs
          else
            let p := skip_slashes p in
            let room := Z.to_nat (NAME_CAP - 1 - strlen cur) in
            let part := take room (fst (span_name p)) in
            let p := drop (length part) p in
            let cur := cur ++ part in
            let fs := snd (ramfs_create cur true fs) in
            let cur := if (char_at p 0 =? SLASH) && (strlen cur + 1 <? NAME_CAP) then cur ++ [SLASH] else cur in
            mkdir_loop fuel' p cur fs
      end
  end.

Definition ramfs_mkdir_p (path : list Z) (fs : ramfs_t) : ramfs_t :=
  if negb (is_abs_path path) then fs
  else
    let fs := snd (ramfs_create (str "/") true fs) in
    mkdir_loop (length path) (tail path) (str "/") fs.

(** ** Reading and writing *)

Definition ramfs_read (fs : ramfs_t) (path : list Z) (buf : buffer) (count offset : Z) : Z * buffer :=
  match ramfs_find fs path with
  | None => (-1, buf)
  | Some i =>
      let n := nodes fs i in
      if is_dir n then (-1, buf)
      else if size n <=? offset then (0, buf)
      else
        let avail := size n - offset in
        let avail := if count <? avail then count else avail in
        (avail, match data n with Some d => blit buf 0 d offset avail | None => buf end)
  end.

(** [while (newcap < end) newcap *= 2] *)
Fixpoint grow (fuel : nat) (newcap end_ : Z) : option Z :=
  if newcap <? end_ then match fuel with O => None | S fuel' => grow fuel' (u64 (newcap * 2)) end_ end
  else Some newcap.

(** 64 doublings of a 64-bit number reach its top bit or zero, where it stays. *)
Definition GROW_FUEL : nat := 64.

Definition start_cap (n : ramfs_node_t) : Z := if cap n =? 0 then 256 else cap n.

(** A larger buffer for node [i], holding the first [keep] bytes of the old one. *)
Definition enlarge (i newcap keep : Z) (fs : ramfs_t) : ramfs_t :=
  let n := nodes fs i in
  let newdata := match data n with Some d => blit (fun _ => 0) 0 d 0 keep | None => fun _ => 0 end in
  set_node i (n <| data := Some newdata |> <| cap := newcap |>)
    (fs <| bytes_used := u64 (bytes_used fs - cap n + newcap) |>).

(** Node [i] with room for [end_] bytes; [false]: the quota or kmalloc refuses. *)
Definition reserve (i end_ keep : Z) (ok : bool) (fs : ramfs_t) : option (bool * ramfs_t) :=
  let n := nodes fs i in
  if cap n <? end_ then
    match grow GROW_FUEL (start_cap n) end_ with
    | None => None
    | Some newcap =>
        if RAMFS_MAX_DATA <? u64 (bytes_used fs - cap n + newcap) then Some (false, fs)
        else if negb ok then Some (false, fs)
        else Some (true, enlarge i newcap keep fs)
    end
  else Some (true, fs).

Definition ramfs_write (path : list Z) (buf : buffer) (count offset : Z) (ok : bool) (fs : ramfs_t) : option (Z * ramfs_t) :=
  match ramfs_create path false fs with
  | (None, fs) => Some (-1, fs)
  | (Some i, fs) =>
      if is_dir (nodes fs i) then Some (-1, fs)
      else
        let end_ := u64 (offset + count) in
        match reserve i end_ (size (nodes fs i)) ok fs with
        | None => None
        | Some (false, fs) => Some (-1, fs)
        | Some (true, fs) =>
            let n := nodes fs i in
            let n := n <| data := option_map (fun d => blit d offset buf 0 count) (data n) |> in
            let n := if size n <? end_ then n <| size := end_ |> else n in
            Some (i64 count, set_node i n fs)
        end
  end.

Definition ramfs_truncate (path : list Z) (fs : ramfs_t) : bool * ramfs_t :=
  match ramfs_create path false fs with
  | (None, fs) => (false, fs)
  | (Some i, fs) =>
      if is_dir (nodes fs i) then (false, fs) else (true, set_node i ((nodes fs i) <| size := 0 |>) fs)
  end.

Definition ramfs_resize (path : list Z) (sz : Z) (ok : bool) (fs : ramfs_t) : option (bool * ramfs_t) :=
  match ramfs_create path false fs with
  | (None, fs) => Some (false, fs)
  | (Some i, fs) =>
      let n := nodes fs i in
      if is_dir n then Some (false, fs)
      else
        match reserve i sz (if size n <? sz then size n else sz) ok fs with
        | None => None
        | Some (false, fs) => Some (false, fs)
        | Some (true, fs) =>
            let n := nodes fs i in
            let n := if size n <? sz
                     then n <| data := option_map (fun d => blit d (size n) (fun _ => 0) 0 (sz - size n)) (data n) |>
                     else n in
            Some (true, set_node i (n <| size := sz |>) fs)
        end
  end.

(** ** Removing, renaming, listing *)

(** [strncmp(name, path, plen) == 0 && name[plen] == '/'] *)
Definition below (path nm : list Z) : bool := starts_with path nm && (char_at nm (strlen path) =? SLASH).

Definition drop_node (i : Z) (fs : ramfs_t) : ramfs_t :=
  set_node i zero_node (fs <| bytes_used := u64 (bytes_used fs - cap (nodes fs i)) |>).

Definition ramfs_unlink (path : list Z) (fs : ramfs_t) : Z * ramfs_t :=
  match ramfs_find fs path with
  | None => (-1, fs)
  | Some n =>
      if streq path (str "/") then (-1, fs)
      else
        let fs := for_loop (Z.to_nat RAMFS_MAX_FILES) 0 (fun i fs =>
          if negb (used (nodes fs i)) || (i =? n) then fs
          else if below path (name (nodes fs i)) then drop_node i fs else fs) fs in
        (0, drop_node n fs)
  end.

(** Renaming the nodes below a directory; it stops at a name that is too long. *)
Fixpoint rename_loop (k : nat) (i n : Z) (oldpath newpath : list Z) (fs : ramfs_t) : Z * ramfs_t :=
  match k with
  | O => (0, fs)
  | S k' =>
      let child := nodes fs i in
      if negb (used child) || (i =? n) || negb (below oldpath (name child)) then rename_loop k' (i + 1) n oldpath newpath fs
      else
        let rest := drop (length oldpath) (name child) in
        if NAME_CAP <=? strlen newpath + strlen rest then (-1, fs)
        else rename_loop k' (i + 1) n oldpath newpath (set_node i (child <| name := newpath ++ rest |>) fs)
  end.

Definition ramfs_rename (oldpath newpath : list Z) (fs : ramfs_t) : Z * ramfs_t :=
  match ramfs_find fs oldpath with
  | None => (-1, fs)
  | Some n =>
      if streq oldpath (str "/") || match ramfs_find fs newpath with Some _ => true | None => false end then (-1, fs)
      else if NAME_CAP <=? strlen newpath then (-1, fs)
      else
        let fs := set_node n ((nodes fs n) <| name := newpath |>) fs in
        if negb (is_dir (nodes fs n)) then (0, fs)
        else rename_loop (Z.to_nat RAMFS_MAX_FILES) 0 n oldpath newpath fs
  end.

Record vfs_dirent_t := { d_name : list Z; d_size : Z; d_is_dir : bool }.

(** The [index]-th node whose parent is [path]. *)
Fixpoint readdir_loop (k : nat) (i seen : Z) (path : list Z) (index : Z) (fs : ramfs_t) : option vfs_dirent_t :=
  match k with
  | O => None
  | S k' =>
      let n := nodes fs i in
      let '(parent, base) := path_parent (name n) NAME_CAP NAME_CAP in
      if negb (used n) || streq (name n) (str "/") || negb (streq parent path)
      then readdir_loop k' (i + 1) seen path index fs
      else if seen =? index then Some {| d_name := base; d_size := size n; d_is_dir := is_dir n |}
      else readdir_loop k' (i + 1) (seen + 1) path index fs
  end.

Definition ramfs_readdir (fs : ramfs_t) (path : list Z) (index : Z) : option vfs_dirent_t :=
  readdir_loop (Z.to_nat RAMFS_MAX_FILES) 0 0 path index fs.

End Ramfs.
