(* ===== verification/RamfsClaims.v ===== *)
(** * The in-memory file system keeps files

    [contents] is what a ramfs holds, as a map from paths to directories and
    byte strings.  [ramfs_ok] is the invariant of the node table; the theorem
    says what every operation does to the contents. *)

From Stdlib Require Import String.
From S2P Require Import Prelude Cstr VfsPath Block Ramfs.
Import Cstr VfsPath Block Ramfs.

Module RamfsClaims.

(** ** Contents *)

Definition bytes_of (d : buffer) (n : Z) : list Z := map d (seqZ 0 n).

Inductive entry := Dir | File (bs : list Z).

Definition entry_of (n : ramfs_node_t) : entry :=
  if is_dir n then Dir else File (match data n with Some d => bytes_of d (size n) | None => [] end).

Definition contents (fs : ramfs_t) (p : list Z) : option entry :=
  option_map (fun i => entry_of (nodes fs i)) (ramfs_find fs p).

(** The bytes of a file, none if there is no such file. *)
Definition file_bytes (fs : ramfs_t) (p : list Z) : list Z :=
  match contents fs p with Some (File bs) => bs | _ => [] end.

Definition same_but (p : list Z) (fs fs' : ramfs_t) : Prop := forall q, q <> p -> contents fs' q = contents fs q.

(** [bs] over the bytes of [l] from [off] on. *)
Definition overlay (l : list Z) (off : Z) (bs : list Z) : list Z :=
  take (Z.to_nat off) l ++ bs ++ drop (Z.to_nat off + length bs) l.

(** All nodes are taken. *)
Definition table_full (fs : ramfs_t) : Prop := forall i, 0 <= i < RAMFS_MAX_FILES -> used (nodes fs i) = true.

Definition short (p : list Z) : Prop := p <> [] /\ strlen p < NAME_CAP.

(** ** The invariant *)

Definition power_cap (c : Z) : Prop := exists k, 0 <= k <= 55 /\ c = 256 * 2 ^ k.

Definition node_ok (n : ramfs_node_t) : Prop :=
  0 <= size n <= cap n /\ (cap n = 0 /\ data n = None \/ power_cap (cap n) /\ data n <> None).

Record ramfs_ok (fs : ramfs_t) : Prop := {
  ok_root : used (nodes fs 0) = true /\ is_dir (nodes fs 0) = true /\ name (nodes fs 0) = str "/";
  ok_node : forall i, 0 <= i < RAMFS_MAX_FILES -> node_ok (nodes fs i);
  ok_name : forall i, 0 <= i < RAMFS_MAX_FILES -> used (nodes fs i) = true -> short (name (nodes fs i));
  ok_free : forall i, 0 <= i < RAMFS_MAX_FILES -> used (nodes fs i) = false -> cap (nodes fs i) = 0;
  ok_distinct : forall i j, 0 <= i < RAMFS_MAX_FILES -> 0 <= j < RAMFS_MAX_FILES ->
    used (nodes fs i) = true -> used (nodes fs j) = true -> name (nodes fs i) = name (nodes fs j) -> i = j;
  ok_bytes : bytes_used fs = sum_range (Z.to_nat RAMFS_MAX_FILES) 0 (fun i => cap (nodes fs i)) /\
    bytes_used fs <= RAMFS_MAX_DATA
}.

Lemma ram_init_ok : ramfs_ok ramfs_init.
Proof.
  assert (forall i, i <> 0 -> nodes ramfs_init i = zero_node) as Hz by (intros i Hi; cbn; by apply upd_ne).
  assert (forall i, cap (nodes ramfs_init i) = 0 /\ size (nodes ramfs_init i) = 0 /\ data (nodes ramfs_init i) = None) as Hn.
  { intros i. destruct (decide (i = 0)) as [->|Hi]; [done|]. by rewrite Hz. }
  split.
  - done.
  - intros i Hi. destruct (Hn i) as (Hc & Hs & Hd). unfold node_ok. rewrite Hc, Hs. split; [lia|]. by left.
  - intros i Hi Hu. destruct (decide (i = 0)) as [->|Hne]; [by split|]. by rewrite Hz in Hu.
  - intros i Hi _. apply Hn.
  - intros i j Hi Hj Hu Hu' _. destruct (decide (i = 0)) as [->|Hne]; [|by rewrite Hz in Hu].
    destruct (decide (j = 0)) as [->|Hne]; [done|]. by rewrite Hz in Hu'.
  - split; [vm_compute; reflexivity|]. cbn. unfold RAMFS_MAX_DATA. lia.
Qed.

(** ** Finding *)

Lemma find_some fs p i : ramfs_find fs p = Some i ->
  0 <= i < RAMFS_MAX_FILES /\ used (nodes fs i) = true /\ name (nodes fs i) = p /\ p <> [].
Proof.
  unfold ramfs_find. destruct p as [|c p]; [done|]. intros H.
  apply find_index_Some in H as (Hi & Hp & _). apply andb_true_iff in Hp as [Hu Hn].
  destruct (streq_spec (name (nodes fs i)) (c :: p)) as [E|]; [|done]. split_and!; [lia|unfold RAMFS_MAX_FILES in *; lia|done|done|done].
Qed.

Lemma find_intro fs i : ramfs_ok fs -> 0 <= i < RAMFS_MAX_FILES -> used (nodes fs i) = true ->
  ramfs_find fs (name (nodes fs i)) = Some i.
Proof.
  intros Hok Hi Hu. destruct (ramfs_find fs (name (nodes fs i))) as [j|] eqn:E.
  - apply find_some in E as (Hj & Hu' & Hn & _). f_equal. by apply (ok_distinct fs Hok).
  - exfalso. pose proof (ok_name fs Hok i Hi Hu) as [Hne _]. unfold ramfs_find in E.
    destruct (name (nodes fs i)) as [|c p] eqn:En; [done|]. rewrite find_index_None in E.
    specialize (E i ltac:(unfold RAMFS_MAX_FILES in *; lia)). rewrite Hu, En, streq_refl in E. done.
Qed.

Lemma find_none fs p : ramfs_find fs p = None -> p <> [] ->
  forall i, 0 <= i < RAMFS_MAX_FILES -> used (nodes fs i) = true -> name (nodes fs i) <> p.
Proof.
  unfold ramfs_find. destruct p as [|c p]; [done|]. intros H _ i Hi Hu Hn. rewrite find_index_None in H.
  specialize (H i ltac:(unfold RAMFS_MAX_FILES in *; lia)). by rewrite Hu, Hn, streq_refl in H.
Qed.

(** Finding depends on the names in use only. *)
Lemma find_ext fs fs' p : (forall i, 0 <= i < RAMFS_MAX_FILES ->
    used (nodes fs' i) = used (nodes fs i) /\ name (nodes fs' i) = name (nodes fs i)) ->
  ramfs_find fs' p = ramfs_find fs p.
Proof.
  intros H. unfold ramfs_find. destruct p; [done|]. apply find_index_ext. intros i Hi.
  destruct (H i ltac:(unfold RAMFS_MAX_FILES in *; lia)) as [-> ->]. done.
Qed.

Lemma contents_node fs i : ramfs_ok fs -> 0 <= i < RAMFS_MAX_FILES -> used (nodes fs i) = true ->
  contents fs (name (nodes fs i)) = Some (entry_of (nodes fs i)).
Proof. intros. unfold contents. by rewrite find_intro. Qed.

Lemma contents_some fs p e : contents fs p = Some e ->
  exists i, ramfs_find fs p = Some i /\ entry_of (nodes fs i) = e.
Proof. unfold contents. destruct (ramfs_find fs p) as [i|]; cbn; [|done]. intros [= <-]. by exists i. Qed.

Lemma contents_none fs q : (forall i, 0 <= i < RAMFS_MAX_FILES -> used (nodes fs i) = true -> name (nodes fs i) <> q) ->
  contents fs q = None.
Proof.
  intros H. unfold contents. destruct (ramfs_find fs q) as [i|] eqn:E; [|done].
  apply find_some in E as (Hi & Hu & Hn & _). by destruct (H i Hi Hu).
Qed.

(** Two tables that agree outside node [i] have the same contents at all
    other names. *)
Lemma contents_outside fs fs' i q : ramfs_ok fs -> ramfs_ok fs' -> (forall j, j <> i -> nodes fs' j = nodes fs j) ->
  (used (nodes fs i) = true -> name (nodes fs i) <> q) -> (used (nodes fs' i) = true -> name (nodes fs' i) <> q) ->
  contents fs' q = contents fs q.
Proof.
  intros Hok Hok' Ej Hn Hn'. destruct (ramfs_find fs q) as [j|] eqn:E.
  - apply find_some in E as (Hj & Hu & <- & _). assert (j <> i) as Hne by (intros ->; by apply Hn).
    rewrite contents_node, <- (Ej j Hne), contents_node by (done || by rewrite Ej). done.
  - rewrite (contents_none fs' q); [unfold contents; by rewrite E|]. intros j Hj Hu.
    destruct (decide (j = i)) as [->|Hne]; [by apply Hn'|]. rewrite Ej in * by done.
    destruct (decide (q = [])) as [->|Hq]; [by apply Hok|by apply (find_none fs q E Hq)].
Qed.

(** ** Changing one node *)

(** Node [i] with another buffer; the name stays. *)
Lemma put_node_ok fs i n b : ramfs_ok fs -> 0 <= i < RAMFS_MAX_FILES ->
  used (nodes fs i) = true -> used n = true -> name n = name (nodes fs i) -> is_dir n = is_dir (nodes fs i) ->
  node_ok n -> b = bytes_used fs - cap (nodes fs i) + cap n -> b <= RAMFS_MAX_DATA ->
  let fs' := set_node i n (fs <| bytes_used := b |>) in
  ramfs_ok fs' /\ contents fs' (name n) = Some (entry_of n) /\ same_but (name n) fs fs'.
Proof.
  intros Hok Hi Hu Hu' Hn Hd Hnode Hb Hmax. cbv zeta.
  set (fs' := set_node i n (fs <| bytes_used := b |>)).
  assert (nodes fs' i = n) as Ei by apply upd_eq.
  assert (forall j, j <> i -> nodes fs' j = nodes fs j) as Ej by (intros j Hj; by apply upd_ne).
  assert (forall j, used (nodes fs' j) = used (nodes fs j) /\ name (nodes fs' j) = name (nodes fs j)) as Hun.
  { intros j. destruct (decide (j = i)) as [->|Hne]; [rewrite Ei; by split; congruence|by rewrite Ej]. }
  assert (ramfs_ok fs') as Hok'.
  { destruct (ok_root fs Hok) as (R1 & R2 & R3). split.
    - destruct (Hun 0) as [-> ->]. split_and!; [done| |done].
      destruct (decide (0 = i)) as [<-|Hne]; [by rewrite Ei, Hd|by rewrite Ej].
    - intros j Hj. destruct (decide (j = i)) as [->|Hne]; [by rewrite Ei|rewrite Ej by done; by apply Hok].
    - intros j Hj. destruct (Hun j) as [-> ->]. by apply Hok.
    - intros j Hj. destruct (Hun j) as [-> _]. intros Hf. destruct (decide (j = i)) as [->|Hne]; [congruence|].
      rewrite Ej by done. by apply Hok.
    - intros j k Hj Hk. destruct (Hun j) as [-> ->], (Hun k) as [-> ->]. by apply Hok.
    - change (bytes_used fs') with b. destruct (ok_bytes fs Hok) as [Hs _].
      rewrite (sum_range_upd _ 0 (fun j => cap (nodes fs j)) _ i); [|unfold RAMFS_MAX_FILES in *; lia|].
      + rewrite Ei. lia.
      + intros j _ Hne. by rewrite Ej. }
  split_and!; [done| |].
  - rewrite <- Ei at 1. rewrite contents_node by (done || congruence). by rewrite Ei.
  - intros q Hq. apply (contents_outside fs fs' i); rewrite ?Ei; try done; congruence.
Qed.
(** ** Creating *)

Lemma create_new_ok fs p dir i : ramfs_ok fs -> short p -> ramfs_find fs p = None ->
  0 <= i < RAMFS_MAX_FILES -> used (nodes fs i) = false ->
  let fs' := set_node i (new_node p dir) fs in
  ramfs_ok fs' /\ contents fs' p = Some (if dir then Dir else File []) /\ same_but p fs fs'.
Proof.
  intros Hok [Hne Hlen] Hf Hi Hu. cbv zeta. set (fs' := set_node i (new_node p dir) fs).
  assert (name (new_node p dir) = p) as En by (cbn; by apply copy_str_id).
  assert (nodes fs' i = new_node p dir) as Ei by apply upd_eq.
  assert (forall j, j <> i -> nodes fs' j = nodes fs j) as Ej by (intros j Hj; by apply upd_ne).
  pose proof (find_none fs p Hf Hne) as Hfresh.
  assert (i <> 0) as Hi0 by (intros ->; destruct (ok_root fs Hok); congruence).
  assert (ramfs_ok fs') as Hok'.
  { split.
    - rewrite Ej by done. apply Hok.
    - intros j Hj. destruct (decide (j = i)) as [->|Hj']; [|rewrite Ej by done; by apply Hok].
      rewrite Ei. split; [cbn; lia|]. by left.
    - intros j Hj. destruct (decide (j = i)) as [->|Hj']; [|rewrite Ej by done; by apply Hok]. by rewrite Ei, En.
    - intros j Hj. destruct (decide (j = i)) as [->|Hj']; [by rewrite Ei|rewrite Ej by done; by apply Hok].
    - intros j k Hj Hk. destruct (decide (j = i)) as [->|Hj'], (decide (k = i)) as [->|Hk']; [done| | |];
        rewrite ?Ei, ?En, ?(Ej j), ?(Ej k) by done.
      + intros _ Huk E. by destruct (Hfresh k Hk Huk).
      + intros Huj _ E. by destruct (Hfresh j Hj Huj).
      + by apply Hok.
    - change (bytes_used fs') with (bytes_used fs). destruct (ok_bytes fs Hok) as [Hs ?]. split; [|done]. rewrite Hs.
      apply sum_range_ext. intros j Hj. destruct (decide (j = i)) as [->|Hj']; [|by rewrite Ej].
      rewrite Ei. cbn. by apply Hok. }
  split_and!; [done| |].
  - rewrite <- En, <- Ei, contents_node; [rewrite Ei; unfold entry_of; by destruct dir|done|done|by rewrite Ei].
  - intros q Hq. apply (contents_outside fs fs' i); rewrite ?Ei, ?En; try done; congruence.
Qed.

Lemma ram_create_ok fs p dir : ramfs_ok fs -> short p ->
  match ramfs_create p dir fs with
  | (Some i, fs') => ramfs_ok fs' /\ 0 <= i < RAMFS_MAX_FILES /\ used (nodes fs' i) = true /\ name (nodes fs' i) = p /\
      contents fs' p = Some (default (if dir then Dir else File []) (contents fs p)) /\
      same_but p fs fs' /\ bytes_used fs' = bytes_used fs /\ (contents fs p <> None -> fs' = fs)
  | (None, fs') => fs' = fs /\ contents fs p = None /\ table_full fs
  end.
Proof.
  intros Hok Hp. destruct Hp as [Hne Hlen]. unfold ramfs_create. destruct p as [|c p'] eqn:Ep; [done|]. rewrite <- Ep in *.
  destruct (ramfs_find fs p) as [i|] eqn:E.
  - destruct (find_some fs p i E) as (Hi & Hu & Hn & _).
    assert (contents fs p = Some (entry_of (nodes fs i))) as Hc by (unfold contents; by rewrite E).
    rewrite Hc. by split_and!; try done; try lia; intros q.
  - assert (contents fs p = None) as Hc by (unfold contents; by rewrite E).
    destruct (find_index _ _ _) as [i|] eqn:Ei.
    + apply find_index_Some in Ei as (Hi & Hu & _). apply negb_true_iff in Hu.
      assert (0 <= i < RAMFS_MAX_FILES) as Hi' by (unfold RAMFS_MAX_FILES in *; lia).
      destruct (create_new_ok fs p dir i Hok (conj Hne Hlen) E Hi' Hu) as (H1 & H2 & H3).
      assert (nodes (set_node i (new_node p dir) fs) i = new_node p dir) as En by apply upd_eq.
      rewrite Hc, En. split_and!; try done; try lia. cbn. by apply copy_str_id.
    + split_and!; [done|done|]. rewrite find_index_None in Ei. intros i Hi.
      specialize (Ei i ltac:(unfold RAMFS_MAX_FILES in *; lia)). by apply negb_false_iff in Ei.
Qed.

(** ** Buffers *)

Lemma bytes_of_length d n : length (bytes_of d n) = Z.to_nat n.
Proof. unfold bytes_of. by rewrite length_map, length_seqZ. Qed.

Lemma bytes_of_lookup d n (i : nat) : (i < Z.to_nat n)%nat -> bytes_of d n !! i = Some (d (Z.of_nat i)).
Proof.
  intros Hi. unfold bytes_of. rewrite list_lookup_fmap, lookup_seqZ_lt by lia. cbn. by rewrite Z.add_0_l.
Qed.

Lemma bytes_of_ext d d' n : (forall i, 0 <= i < n -> d' i = d i) -> bytes_of d' n = bytes_of d n.
Proof.
  intros H. unfold bytes_of. apply map_ext_in. intros i Hi%list_elem_of_In%elem_of_seqZ. apply H. lia.
Qed.

Lemma bytes_of_slice d off n sz : 0 <= off -> 0 <= n -> off + n <= sz ->
  bytes_of (fun i => d (off + i)) n = take (Z.to_nat n) (drop (Z.to_nat off) (bytes_of d sz)).
Proof.
  intros Ho Hn Hs. apply list_eq. intros i. destruct (decide (i < Z.to_nat n)%nat) as [Hi|Hi].
  - rewrite bytes_of_lookup, lookup_take_lt, lookup_drop, bytes_of_lookup by lia. do 2 f_equal. lia.
  - rewrite !lookup_ge_None_2; [done| |].
    + rewrite length_take. lia.
    + rewrite bytes_of_length. lia.
Qed.

Lemma overlay_length l off bs : 0 <= off <= strlen l ->
  length (overlay l off bs) = Nat.max (length l) (Z.to_nat off + length bs).
Proof.
  unfold overlay, strlen. intros H. rewrite !length_app, length_take, length_drop. lia.
Qed.

Lemma bytes_of_blit d off src count sz : 0 <= off <= sz -> 0 <= count ->
  bytes_of (blit d off src 0 count) (Z.max sz (off + count)) = overlay (bytes_of d sz) off (bytes_of src count).
Proof.
  intros Ho Hc. apply list_eq. intros i.
  assert (length (overlay (bytes_of d sz) off (bytes_of src count)) = Z.to_nat (Z.max sz (off + count))) as Hl.
  { rewrite overlay_length by (unfold strlen; rewrite bytes_of_length; lia). rewrite !bytes_of_length. lia. }
  destruct (decide (i < Z.to_nat (Z.max sz (off + count)))%nat) as [Hi|Hi].
  - rewrite bytes_of_lookup by done. unfold overlay, blit.
    assert (length (take (Z.to_nat off) (bytes_of d sz)) = Z.to_nat off) as Ht by (rewrite length_take, bytes_of_length; lia).
    case_bool.
    + rewrite lookup_app_r, Ht, lookup_app_l, bytes_of_lookup by (rewrite ?Ht, ?bytes_of_length; lia).
      do 2 f_equal. lia.
    + destruct (decide (Z.of_nat i < off)).
      * rewrite lookup_app_l, lookup_take_lt, bytes_of_lookup by (rewrite ?Ht; lia). done.
      * rewrite lookup_app_r, Ht, lookup_app_r, bytes_of_length, lookup_drop, bytes_of_lookup by (rewrite ?Ht, ?bytes_of_length; lia).
        do 2 f_equal. lia.
  - rewrite !lookup_ge_None_2; [done| |]; rewrite ?bytes_of_length, ?Hl; lia.
Qed.

(** ** Room for data *)

Lemma pow2_step k : 0 <= k -> 256 * 2 ^ (k + 1) = 2 * (256 * 2 ^ k).
Proof. intros. rewrite Z.pow_add_r by lia. lia. Qed.

Lemma pow2_bound k : 0 <= k <= 55 -> 256 <= 256 * 2 ^ k <= 2 ^ 63.
Proof.
  intros H. pose proof (Z.pow_le_mono_r 2 0 k). pose proof (Z.pow_le_mono_r 2 k 55).
  change (2 ^ 63) with (256 * 2 ^ 55). rewrite Z.pow_0_r in *. lia.
Qed.

Lemma ram_grow_ok fuel k end_ : 0 <= k <= 55 -> end_ <= 2 ^ 63 -> 55 - k <= Z.of_nat fuel ->
  exists k', k <= k' <= 55 /\ grow fuel (256 * 2 ^ k) end_ = Some (256 * 2 ^ k') /\ end_ <= 256 * 2 ^ k' /\
    (k' = k \/ 256 * 2 ^ k' < 2 * end_).
Proof.
  revert k. induction fuel as [|fuel IH]; intros k Hk He Hf; pose proof (pow2_bound k Hk); cbn [grow];
    (destruct (Z.ltb_spec (256 * 2 ^ k) end_); [|exists k; split_and!; auto; lia]).
  { assert (k = 55) as -> by lia. change (256 * 2 ^ 55) with (2 ^ 63) in *. lia. }
  assert (k <> 55) by (intros ->; change (256 * 2 ^ 55) with (2 ^ 63) in *; lia).
  pose proof (pow2_bound (k + 1) ltac:(lia)).
  rewrite (Z.mul_comm _ 2), <- pow2_step, wrap_small by lia.
  destruct (IH (k + 1)) as (k' & Hk' & -> & Hend & Hor); [lia|lia|lia|]. exists k'. split_and!; auto; [lia|lia|].
  right. destruct Hor as [->|?]; [|done]. rewrite pow2_step by lia. lia.
Qed.

(** For more than 2^63 bytes the loop never ends. *)
Lemma grow_hangs fuel c end_ : 2 ^ 63 < end_ -> c = 0 \/ power_cap c -> grow fuel c end_ = None.
Proof.
  intros He. revert c. induction fuel as [|fuel IH]; intros c Hc;
    (assert (c <= 2 ^ 63) by (destruct Hc as [->|(k & Hk & ->)]; [lia|by apply pow2_bound]));
    cbn [grow]; rewrite (proj2 (Z.ltb_lt _ _)) by lia; [done|].
  apply IH. destruct Hc as [->|(k & Hk & ->)]; [by left|]. rewrite (Z.mul_comm _ 2), <- pow2_step by lia.
  destruct (decide (k = 55)) as [->|]; [by left|right]. exists (k + 1). split; [lia|].
  pose proof (pow2_bound (k + 1) ltac:(lia)). apply wrap_small. lia.
Qed.

Lemma cap_le fs i : ramfs_ok fs -> 0 <= i < RAMFS_MAX_FILES -> 0 <= cap (nodes fs i) <= bytes_used fs.
Proof.
  intros Hok Hi. destruct (ok_node fs Hok i Hi) as [? _]. split; [lia|]. destruct (ok_bytes fs Hok) as [-> _].
  apply (sum_range_le_one _ 0 (fun j => cap (nodes fs j))); [|unfold RAMFS_MAX_FILES in *; lia].
  intros j Hj. destruct (ok_node fs Hok j) as [? _]; [unfold RAMFS_MAX_FILES in *; lia|lia].
Qed.

(** No room: kmalloc has none, or the 16 MB of the file system are used up. *)
Definition refused (fs : ramfs_t) (end_ : Z) (ok : bool) : Prop :=
  ok = false \/ RAMFS_MAX_DATA < bytes_used fs + Z.max 256 (2 * end_).

Lemma same_refl p fs : same_but p fs fs.
Proof. by intros q. Qed.

Lemma ram_same_trans p fs1 fs2 fs3 : same_but p fs1 fs2 -> same_but p fs2 fs3 -> same_but p fs1 fs3.
Proof. intros H1 H2 q Hq. rewrite H2, H1 by done. done. Qed.

Definition node_is (fs : ramfs_t) (i : Z) (p : list Z) (sz : Z) : Prop :=
  0 <= i < RAMFS_MAX_FILES /\ used (nodes fs i) = true /\ name (nodes fs i) = p /\
  is_dir (nodes fs i) = false /\ size (nodes fs i) = sz.

Lemma reserve_ok fs i p sz end_ keep ok : ramfs_ok fs -> node_is fs i p sz -> 0 <= end_ <= 2 ^ 63 ->
  (cap (nodes fs i) < end_ -> keep = sz) ->
  exists b fs', reserve i end_ keep ok fs = Some (b, fs') /\ ramfs_ok fs' /\ node_is fs' i p sz /\
    contents fs' p = contents fs p /\ same_but p fs fs' /\
    if b then end_ <= cap (nodes fs' i) else fs' = fs /\ refused fs end_ ok.
Proof.
  intros Hok Hn He Hkeep. destruct Hn as (Hi & Hu & Hnm & Hd & Hsz). unfold reserve.
  destruct (Z.ltb_spec (cap (nodes fs i)) end_) as [Hlt|Hge]; [|by exists true, fs; split_and!].
  rewrite (Hkeep Hlt). clear Hkeep keep. pose proof (ok_node fs Hok i Hi) as Hnode. pose proof (cap_le fs i Hok Hi) as Hcap.
  assert (exists k, 0 <= k <= 55 /\ start_cap (nodes fs i) = 256 * 2 ^ k /\ (cap (nodes fs i) = 0 /\ k = 0 \/ cap (nodes fs i) = 256 * 2 ^ k)) as (k & Hk & Hstart & Hor).
  { unfold start_cap. destruct Hnode as [_ [[-> _]|[(k & Hk & E) _]]]; [exists 0; split_and!; auto; lia|].
    pose proof (pow2_bound k Hk). rewrite (proj2 (Z.eqb_neq _ _)) by lia. exists k. auto. }
  destruct (ram_grow_ok GROW_FUEL k end_) as (k' & Hk' & Hg & Hend & Hsmall); [done|lia|unfold GROW_FUEL; lia|].
  rewrite Hstart, Hg. pose proof (pow2_bound k' ltac:(lia)) as Hb. destruct (ok_bytes fs Hok) as [_ Hmax].
  assert (256 * 2 ^ k' <= Z.max 256 (2 * end_)) as Hle by (destruct Hsmall as [->|]; [destruct Hor as [[_ ->]|]; lia|lia]).
  rewrite wrap_small by (unfold RAMFS_MAX_DATA in *; lia).
  destruct (Z.ltb_spec RAMFS_MAX_DATA (bytes_used fs - cap (nodes fs i) + 256 * 2 ^ k')) as [Hq|Hq].
  { exists false, fs. split_and!; try done; try lia. right. lia. }
  destruct ok; cbn [negb]; [|exists false, fs; split_and!; try done; try lia; by left].
  set (d' := match data (nodes fs i) with Some d => blit (fun _ => 0) 0 d 0 sz | None => fun _ => 0 end).
  set (n' := (nodes fs i) <| data := Some d' |> <| cap := 256 * 2 ^ k' |>).
  destruct (put_node_ok fs i n' (bytes_used fs - cap (nodes fs i) + 256 * 2 ^ k')) as (H1 & H2 & H3); try done.
  { split; [cbn; destruct Hnode; lia|]. right. split; [|done]. exists k'. split; [lia|done]. }
  change (name n') with (name (nodes fs i)) in *. rewrite Hnm in *.
  exists true, (enlarge i (256 * 2 ^ k') sz fs). unfold enlarge. fold d' n'.
  rewrite wrap_small by (unfold RAMFS_MAX_DATA in *; lia).
  assert (nodes (set_node i n' (fs <| bytes_used := bytes_used fs - cap (nodes fs i) + 256 * 2 ^ k' |>)) i = n') as Ei by apply upd_eq.
  split_and!; [done|done| | |done|by rewrite Ei].
  - unfold node_is. rewrite Ei. by split_and!; try lia.
  - rewrite H2. rewrite <- Hnm, contents_node by done. f_equal. unfold entry_of. change (is_dir n') with (is_dir (nodes fs i)).
    rewrite Hd. f_equal. change (data n') with (Some d'). change (size n') with (size (nodes fs i)). rewrite Hsz.
    subst d'. destruct (data (nodes fs i)) as [d|] eqn:Ed.
    + apply bytes_of_ext. intros j Hj. unfold blit. case_bool; [f_equal; lia|lia].
    + destruct Hnode as [? [[? _]|[_ ?]]]; [|done]. by replace sz with 0 by lia.
Qed.

(** ** Reading and writing *)

Definition node_bytes (n : ramfs_node_t) : list Z := match data n with Some d => bytes_of d (size n) | None => [] end.

Lemma node_bytes_len n : node_ok n -> strlen (node_bytes n) = size n.
Proof.
  intros [Hs [[Hc Hd]|[_ Hd]]]; unfold node_bytes, strlen; destruct (data n); try done; [cbn; lia|].
  rewrite bytes_of_length. lia.
Qed.

Lemma file_contents fs i p sz : ramfs_ok fs -> node_is fs i p sz -> contents fs p = Some (File (node_bytes (nodes fs i))).
Proof.
  intros Hok (Hi & Hu & <- & Hd & _). rewrite contents_node by done. unfold entry_of. by rewrite Hd.
Qed.

(** Node [i] of a file with new bytes, in the buffer it has. *)
Lemma put_bytes_ok fs i p sz d' sz' : ramfs_ok fs -> node_is fs i p sz -> 0 <= sz' <= cap (nodes fs i) ->
  (data (nodes fs i) = None <-> d' = None) ->
  let n := (nodes fs i) <| data := d' |> <| size := sz' |> in
  ramfs_ok (set_node i n fs) /\ same_but p fs (set_node i n fs) /\ contents (set_node i n fs) p = Some (File (node_bytes n)).
Proof.
  intros Hok (Hi & Hu & Hn & Hd & Hs) Hsz Hdata n. pose proof (ok_node fs Hok i Hi) as [_ Hnode].
  destruct (put_node_ok fs i n (bytes_used fs)) as (H1 & H2 & H3); try done.
  - split; [done|]. change (cap n) with (cap (nodes fs i)). change (data n) with d'. tauto.
  - change (cap n) with (cap (nodes fs i)). lia.
  - by apply Hok.
  - change (set_node i n (fs <| bytes_used := bytes_used fs |>)) with (set_node i n fs) in *.
    change (name n) with (name (nodes fs i)) in *. rewrite Hn in *. split_and!; [done|done|].
    rewrite H2. unfold entry_of. change (is_dir n) with (is_dir (nodes fs i)). by rewrite Hd.
Qed.

(** A file to write to: an existing one, or a new one if there is a free node. *)
Lemma ram_open_file_ok fs p : ramfs_ok fs -> short p ->
  match ramfs_create p false fs with
  | (Some i, fs') => ramfs_ok fs' /\ same_but p fs fs' /\ bytes_used fs' = bytes_used fs /\
      (is_dir (nodes fs' i) = true /\ contents fs p = Some Dir /\ fs' = fs \/
       node_is fs' i p (strlen (file_bytes fs p)) /\ contents fs p <> Some Dir /\
       node_bytes (nodes fs' i) = file_bytes fs p)
  | (None, fs') => fs' = fs /\ contents fs p = None /\ table_full fs
  end.
Proof.
  intros Hok Hp. pose proof (ram_create_ok fs p false Hok Hp) as H. destruct (ramfs_create p false fs) as [[i|] fs']; [|done].
  destruct H as (Hok' & Hi & Hu & Hn & Hc & Hsame & Hb & Heq). split_and!; try done.
  assert (contents fs' p = Some (entry_of (nodes fs' i))) as E by (rewrite <- Hn; by apply contents_node).
  rewrite Hc in E. injection E as E. unfold entry_of in E.
  destruct (is_dir (nodes fs' i)) eqn:Ed.
  - left. destruct (contents fs p) as [e|] eqn:Ep; cbn in E; [|done]. subst e. split_and!; [done|done|]. by apply Heq.
  - right. assert (file_bytes fs p = node_bytes (nodes fs' i)) as Hfb.
    { unfold file_bytes. destruct (contents fs p) as [e|]; cbn in E; [by subst e|by injection E]. }
    split_and!; [|by intros Hdir; rewrite Hdir in E|done].
    unfold node_is. rewrite Hfb, node_bytes_len by (by apply Hok'). by split_and!; try lia.
Qed.

Lemma ram_write_ok fs p src count off ok : ramfs_ok fs -> short p -> 0 <= off <= strlen (file_bytes fs p) ->
  0 <= count -> off + count < 2 ^ 63 ->
  exists r fs', ramfs_write p src count off ok fs = Some (r, fs') /\ ramfs_ok fs' /\ same_but p fs fs' /\
    (r = count /\ contents fs p <> Some Dir /\
       contents fs' p = Some (File (overlay (file_bytes fs p) off (bytes_of src count))) \/
     r = -1 /\ (contents fs p = Some Dir /\ fs' = fs \/ contents fs p = None /\ table_full fs /\ fs' = fs \/
       contents fs' p = Some (File (file_bytes fs p)) /\ refused fs (off + count) ok)).
Proof.
  intros Hok Hp Hoff Hc Hend. unfold ramfs_write. pose proof (ram_open_file_ok fs p Hok Hp) as H.
  destruct (ramfs_create p false fs) as [[i|] fs1].
  2:{ destruct H as (-> & Hn & Hf). exists (-1), fs. split_and!; try done. right. split; [done|]. right. by left. }
  destruct H as (Hok1 & Hs1 & Hb1 & [(Hd & Hdir & ->)|(Hn1 & Hndir & Hfb)]).
  { rewrite Hd. exists (-1), fs. split_and!; try done. right. split; [done|]. by left. }
  pose proof Hn1 as (Hi & _ & _ & Hd & Hsz). rewrite Hd, wrap_small by lia.
  destruct (reserve_ok fs1 i p _ (off + count) (size (nodes fs1 i)) ok Hok1 Hn1) as (b & fs2 & -> & Hok2 & Hn2 & Hc2 & Hs2 & Hb); [lia|done|].
  rewrite (file_contents fs1 i p _ Hok1 Hn1), Hfb in Hc2. pose proof (ram_same_trans _ _ _ _ Hs1 Hs2) as Hs12. destruct b.
  2:{ destruct Hb as [-> Hr]. exists (-1), fs1. split_and!; try done. right. split; [done|]. right. right.
      split; [done|]. unfold refused in *. by rewrite <- Hb1. }
  pose proof Hn2 as (_ & _ & _ & _ & Hsz2). pose proof (ok_node fs2 Hok2 i Hi) as Hnode2.
  set (n1 := (nodes fs2 i) <| data := option_map (fun d => blit d off src 0 count) (data (nodes fs2 i)) |>).
  set (sz := strlen (file_bytes fs p)) in *.
  assert ((if size n1 <? off + count then n1 <| size := off + count |> else n1) = n1 <| size := Z.max sz (off + count) |>) as ->.
  { change (size n1) with (size (nodes fs2 i)). rewrite Hsz2. destruct (Z.ltb_spec sz (off + count)); [by rewrite Z.max_r by lia|].
    rewrite Z.max_l by lia. rewrite <- Hsz2. done. }
  destruct (put_bytes_ok fs2 i p sz (option_map (fun d => blit d off src 0 count) (data (nodes fs2 i))) (Z.max sz (off + count))) as (Hok3 & Hs3 & Hc3);
    [done|done|destruct Hnode2; lia|by destruct (data (nodes fs2 i))|].
  rewrite swrap_small by lia. eexists _, _. split; [done|]. split_and!; [done|by eapply ram_same_trans|]. left. split_and!; [done|done|].
  etransitivity; [exact Hc3|]. do 2 f_equal.
  rewrite (file_contents fs2 i p _ Hok2 Hn2) in Hc2. injection Hc2 as Hc2. rewrite <- Hc2. unfold node_bytes.
  change (data ((nodes fs2 i) <| data := ?x |> <| size := ?y |>)) with x.
  destruct (data (nodes fs2 i)) as [d|] eqn:Ed; cbn.
  - rewrite Hsz2. by apply bytes_of_blit.
  - destruct Hnode2 as [? [[? _]|[_ ?]]]; [|done]. by replace count with 0 by lia; replace off with 0 by lia.
Qed.

Lemma truncate_ok fs p : ramfs_ok fs -> short p ->
  let '(r, fs') := ramfs_truncate p fs in
  ramfs_ok fs' /\ same_but p fs fs' /\
  (r = true /\ contents fs p <> Some Dir /\ contents fs' p = Some (File []) \/
   r = false /\ fs' = fs /\ (contents fs p = Some Dir \/ contents fs p = None /\ table_full fs)).
Proof.
  intros Hok Hp. unfold ramfs_truncate. pose proof (ram_open_file_ok fs p Hok Hp) as H.
  destruct (ramfs_create p false fs) as [[i|] fs1].
  2:{ destruct H as (-> & Hn & Hf). split_and!; try done. right. split_and!; try done. by right. }
  destruct H as (Hok1 & Hs1 & Hb1 & [(Hd & Hdir & ->)|(Hn1 & Hndir & Hfb)]).
  { rewrite Hd. split_and!; try done. right. split_and!; try done. by left. }
  pose proof Hn1 as (Hi & _ & _ & -> & _). pose proof (ok_node fs1 Hok1 i Hi) as Hnode.
  destruct (put_bytes_ok fs1 i p _ (data (nodes fs1 i)) 0 Hok1 Hn1) as (Hok2 & Hs2 & Hc2); [destruct Hnode; lia|done|].
  split_and!; [done|by eapply ram_same_trans|]. left. split_and!; [done|done|]. etransitivity; [exact Hc2|].
  unfold node_bytes. cbn. by destruct (data (nodes fs1 i)).
Qed.

(** Cut to [sz] bytes, or filled up with zeros. *)
Definition resized (l : list Z) (sz : Z) : list Z := take (Z.to_nat sz) l ++ replicate (Z.to_nat sz - length l) 0.

Lemma bytes_of_resized d sz sz' : 0 <= sz -> 0 <= sz' ->
  bytes_of (if sz <? sz' then blit d sz (fun _ => 0) 0 (sz' - sz) else d) sz' = resized (bytes_of d sz) sz'.
Proof.
  intros Hs Hs'. apply list_eq. intros i. unfold resized.
  assert (length (take (Z.to_nat sz') (bytes_of d sz)) = Nat.min (Z.to_nat sz') (Z.to_nat sz)) as Ht by (by rewrite length_take, bytes_of_length).
  destruct (decide (i < Z.to_nat sz')%nat) as [Hi|Hi].
  - rewrite bytes_of_lookup by done. destruct (decide (i < Z.to_nat sz)%nat).
    + rewrite lookup_app_l, lookup_take_lt, bytes_of_lookup by (rewrite ?Ht; lia). f_equal.
      unfold blit. repeat case_bool; lia || done.
    + rewrite lookup_app_r by (rewrite Ht; lia). rewrite Ht, bytes_of_length.
      rewrite lookup_replicate_2 by lia. f_equal. unfold blit. repeat case_bool; lia || done.
  - rewrite !lookup_ge_None_2; [done| |].
    + rewrite length_app, Ht, length_replicate, bytes_of_length. lia.
    + rewrite bytes_of_length. lia.
Qed.

Lemma resize_ok fs p sz ok : ramfs_ok fs -> short p -> 0 <= sz <= 2 ^ 63 ->
  exists r fs', ramfs_resize p sz ok fs = Some (r, fs') /\ ramfs_ok fs' /\ same_but p fs fs' /\
    (r = true /\ contents fs p <> Some Dir /\ contents fs' p = Some (File (resized (file_bytes fs p) sz)) \/
     r = false /\ (contents fs p = Some Dir /\ fs' = fs \/ contents fs p = None /\ table_full fs /\ fs' = fs \/
       contents fs' p = Some (File (file_bytes fs p)) /\ refused fs sz ok)).
Proof.
  intros Hok Hp Hsz. unfold ramfs_resize. pose proof (ram_open_file_ok fs p Hok Hp) as H.
  destruct (ramfs_create p false fs) as [[i|] fs1].
  2:{ destruct H as (-> & Hn & Hf). exists false, fs. split_and!; try done. right. split; [done|]. right. by left. }
  destruct H as (Hok1 & Hs1 & Hb1 & [(Hd & Hdir & ->)|(Hn1 & Hndir & Hfb)]).
  { rewrite Hd. exists false, fs. split_and!; try done. right. split; [done|]. by left. }
  pose proof Hn1 as (Hi & _ & _ & Hd & Hsz1). rewrite Hd. pose proof (ok_node fs1 Hok1 i Hi) as Hnode1.
  destruct (reserve_ok fs1 i p _ sz (if size (nodes fs1 i) <? sz then size (nodes fs1 i) else sz) ok Hok1 Hn1) as (b & fs2 & -> & Hok2 & Hn2 & Hc2 & Hs2 & Hb).
  { done. }
  { destruct Hnode1. intros. case_bool; lia. }
  rewrite (file_contents fs1 i p _ Hok1 Hn1), Hfb in Hc2. pose proof (ram_same_trans _ _ _ _ Hs1 Hs2) as Hs12. destruct b.
  2:{ destruct Hb as [-> Hr]. exists false, fs1. split_and!; try done. right. split; [done|]. right. right.
      split; [done|]. unfold refused in *. by rewrite <- Hb1. }
  pose proof Hn2 as (_ & _ & _ & _ & Hsz2). pose proof (ok_node fs2 Hok2 i Hi) as Hnode2.
  set (old := strlen (file_bytes fs p)) in *.
  set (d' := if old <? sz then option_map (fun d => blit d old (fun _ => 0) 0 (sz - old)) (data (nodes fs2 i)) else data (nodes fs2 i)).
  destruct (put_bytes_ok fs2 i p old d' sz Hok2 Hn2) as (Hok3 & Hs3 & Hc3);
    [destruct Hnode2; lia|by subst d'; case_bool; destruct (data (nodes fs2 i))|].
  eexists true, (set_node i ((nodes fs2 i) <| data := d' |> <| size := sz |>) fs2). split.
  { subst d'. rewrite Hsz2. by case_bool. }
  split_and!; [done|by eapply ram_same_trans|]. left. split_and!; [done|done|]. rewrite Hc3. do 2 f_equal.
  rewrite (file_contents fs2 i p _ Hok2 Hn2) in Hc2. injection Hc2 as Hc2. rewrite <- Hc2. unfold node_bytes.
  change (data ((nodes fs2 i) <| data := d' |> <| size := sz |>)) with d'.
  change (size ((nodes fs2 i) <| data := d' |> <| size := sz |>)) with sz. subst d'. rewrite Hsz2.
  assert (0 <= old) by (subst old; unfold strlen; lia). destruct (data (nodes fs2 i)) as [d|] eqn:Ed.
  - rewrite <- bytes_of_resized by lia. by case_bool.
  - destruct Hnode2 as [? [[? _]|[_ ?]]]; [|done]. replace sz with 0 by lia. by case_bool.
Qed.

Lemma ram_read_ok fs p buf count off : ramfs_ok fs -> 0 <= count -> 0 <= off ->
  let '(r, buf') := ramfs_read fs p buf count off in
  match contents fs p with
  | Some (File bs) =>
      let s := take (Z.to_nat count) (drop (Z.to_nat off) bs) in
      r = strlen s /\ bytes_of buf' r = s /\ forall j, j < 0 \/ r <= j -> buf' j = buf j
  | _ => r = -1 /\ buf' = buf
  end.
Proof.
  intros Hok Hc Ho. unfold ramfs_read, contents. destruct (ramfs_find fs p) as [i|] eqn:E; cbn [option_map]; [|done].
  apply find_some in E as (Hi & Hu & Hn & _). unfold entry_of. destruct (is_dir (nodes fs i)); [done|].
  pose proof (ok_node fs Hok i Hi) as Hnode. pose proof (node_bytes_len _ Hnode) as Hlen. fold (node_bytes (nodes fs i)).
  assert (length (node_bytes (nodes fs i)) = Z.to_nat (size (nodes fs i))) as Hl by (unfold strlen in Hlen; lia).
  destruct (Z.leb_spec (size (nodes fs i)) off).
  - rewrite (drop_ge (node_bytes _)) by lia. rewrite take_nil. by split_and!.
  - assert (exists d, data (nodes fs i) = Some d) as [d Ed].
    { destruct Hnode as [? [[? _]|[_ ?]]]; [lia|]. destruct (data (nodes fs i)); [eauto|done]. }
    set (r := if count <? size (nodes fs i) - off then count else size (nodes fs i) - off).
    assert (0 <= r /\ off + r <= size (nodes fs i) /\ r <= count) as (H1 & H2 & H3) by (subst r; case_bool; lia).
    assert (bytes_of (blit buf 0 d off r) r = take (Z.to_nat count) (drop (Z.to_nat off) (node_bytes (nodes fs i)))) as Hb.
    { rewrite (bytes_of_ext (fun j => d (off + j))) by (intros j Hj; unfold blit; case_bool; [f_equal; lia|lia]).
      rewrite (bytes_of_slice d off r (size (nodes fs i))) by lia. unfold node_bytes. rewrite Ed.
      destruct (Z.ltb_spec count (size (nodes fs i) - off)); [done|]. subst r.
      rewrite !take_ge; [done| |]; rewrite length_drop, bytes_of_length; lia. }
    rewrite Ed. split_and!; [|done|].
    + rewrite <- Hb. unfold strlen. rewrite bytes_of_length. lia.
    + intros j Hj. unfold blit. case_bool; [lia|done].
Qed.

(** ** Removing and renaming *)

Lemma ram_drop_ok fs i : ramfs_ok fs -> 0 < i < RAMFS_MAX_FILES -> used (nodes fs i) = true ->
  let fs' := drop_node i fs in
  ramfs_ok fs' /\ nodes fs' i = zero_node /\ (forall j, j <> i -> nodes fs' j = nodes fs j) /\
  contents fs' (name (nodes fs i)) = None /\ same_but (name (nodes fs i)) fs fs'.
Proof.
  intros Hok Hi Hu fs'. assert (nodes fs' i = zero_node) as Ei by apply upd_eq.
  assert (forall j, j <> i -> nodes fs' j = nodes fs j) as Ej by (intros j Hj; by apply upd_ne).
  pose proof (cap_le fs i Hok ltac:(lia)) as Hcap. destruct (ok_bytes fs Hok) as [Hs Hmax].
  assert (ramfs_ok fs') as Hok'.
  { split.
    - rewrite Ej by lia. apply Hok.
    - intros j Hj. destruct (decide (j = i)) as [->|Hne]; [|rewrite Ej by done; by apply Hok].
      rewrite Ei. split; [cbn; lia|by left].
    - intros j Hj. destruct (decide (j = i)) as [->|Hne]; [by rewrite Ei|rewrite Ej by done; by apply Hok].
    - intros j Hj. destruct (decide (j = i)) as [->|Hne]; [by rewrite Ei|rewrite Ej by done; by apply Hok].
    - intros j k Hj Hk. destruct (decide (j = i)) as [->|Hj'], (decide (k = i)) as [->|Hk']; [done| | |];
        rewrite ?Ei, ?(Ej j), ?(Ej k) by done; [done|done|by apply Hok].
    - change (bytes_used fs') with (u64 (bytes_used fs - cap (nodes fs i))).
      rewrite wrap_small by (unfold RAMFS_MAX_DATA in *; lia). split; [|lia].
      rewrite (sum_range_upd _ 0 (fun j => cap (nodes fs j)) _ i); [rewrite Ei; cbn; lia|unfold RAMFS_MAX_FILES in *; lia|].
      intros j _ Hne. by rewrite Ej. }
  split_and!; [done|done|done| |].
  - apply contents_none. intros j Hj Huj. destruct (decide (j = i)) as [->|Hne]; [by rewrite Ei in Huj|].
    rewrite Ej in * by done. intros E. apply Hne. apply (ok_distinct fs Hok); [lia|lia|done|done|done].
  - intros q Hq. apply (contents_outside fs fs' i); rewrite ?Ei; try done; congruence.
Qed.

Lemma root_not_below p : p <> [] -> p <> str "/" -> below p (str "/") = false.
Proof.
  intros H1 H2. unfold below. destruct (starts_with p (str "/")) eqn:E; [|done]. exfalso.
  apply starts_with_spec in E as [r E]. destruct p as [|c p]; [done|]. injection E as <- E.
  symmetry in E. apply app_nil in E as [-> _]. by apply H2.
Qed.

(** The nodes below a path and the node itself disappear. *)
Lemma ram_unlink_ok fs p : ramfs_ok fs -> short p ->
  let '(r, fs') := ramfs_unlink p fs in
  ramfs_ok fs' /\
  (r = 0 /\ contents fs p <> None /\ p <> str "/" /\
     (forall q, contents fs' q = if streq q p || below p q then None else contents fs q) \/
   r = -1 /\ fs' = fs /\ (contents fs p = None \/ p = str "/")).
Proof.
  intros Hok [Hp0 Hplen]. unfold ramfs_unlink. destruct (ramfs_find fs p) as [n|] eqn:E.
  2:{ split; [done|]. right. split_and!; [done|done|]. left. unfold contents. by rewrite E. }
  destruct (streq_spec p (str "/")) as [Hroot|Hroot]; [split; [done|]; right; by auto|].
  destruct (find_some fs p n E) as (Hn & Hu & Hnm & _).
  assert (n <> 0) as Hn0 by (intros ->; destruct (ok_root fs Hok) as (_ & _ & ?); congruence).
  set (body := fun i fs => _).
  assert (forall k, (k <= Z.to_nat RAMFS_MAX_FILES)%nat -> let fs' := for_loop k 0 body fs in
    ramfs_ok fs' /\ nodes fs' n = nodes fs n /\
    (forall q, below p q = false -> contents fs' q = contents fs q) /\
    forall i, 0 <= i < Z.of_nat k -> i <> n -> used (nodes fs' i) = true -> below p (name (nodes fs' i)) = false) as Hloop.
  { induction k as [|k IH]; intros Hk; [cbn; split_and!; try done; lia|]. cbv zeta. rewrite for_loop_snoc, Z.add_0_l.
    specialize (IH ltac:(lia)). cbv zeta in IH. destruct IH as (H1 & H2 & H3 & H4). set (fk := for_loop k 0 body fs) in *.
    assert (forall i, 0 <= i < Z.of_nat (S k) -> i <> Z.of_nat k -> i <> n -> used (nodes fk i) = true -> below p (name (nodes fk i)) = false) as H4'.
    { intros i Hi Hne. apply H4. lia. }
    unfold body. destruct (used (nodes fk (Z.of_nat k))) eqn:Huk; cbn [negb orb].
    2:{ split_and!; try done. intros i Hi Hin Hui. destruct (decide (i = Z.of_nat k)) as [->|]; [congruence|by apply H4']. }
    destruct (Z.eqb_spec (Z.of_nat k) n) as [Hkn|Hkn].
    { split_and!; try done. intros i Hi Hin Hui. apply H4'; [done|congruence|done|done]. }
    destruct (below p (name (nodes fk (Z.of_nat k)))) eqn:Hb.
    2:{ split_and!; try done. intros i Hi Hin Hui. destruct (decide (i = Z.of_nat k)) as [->|]; [done|by apply H4']. }
    assert (Z.of_nat k <> 0) as Hk0.
    { intros E0. destruct (ok_root fk H1) as (_ & _ & Hr). rewrite E0, Hr, root_not_below in Hb by done. done. }
    destruct (ram_drop_ok fk (Z.of_nat k) H1 ltac:(lia) Huk) as (D1 & D2 & D3 & D4 & D5). split_and!; [done| | |].
    - rewrite D3 by done. done.
    - intros q Hq. rewrite <- H3 by done. apply D5. congruence.
    - intros i Hi Hin. destruct (decide (i = Z.of_nat k)) as [->|Hik]; [by rewrite D2|].
      rewrite D3 by done. intros Hui. by apply H4'. }
  destruct (Hloop (Z.to_nat RAMFS_MAX_FILES) ltac:(done)) as (H1 & H2 & H3 & H4). clear Hloop.
  set (fk := for_loop _ 0 body fs) in *.
  destruct (ram_drop_ok fk n H1 ltac:(lia) ltac:(by rewrite H2)) as (D1 & D2 & D3 & D4 & D5). rewrite H2, Hnm in D4, D5.
  split; [done|]. left. split_and!; [done|by unfold contents; rewrite E|done|]. intros q.
  destruct (streq_spec q p) as [->|Hqp]; [done|]. cbn [orb]. rewrite D5 by done.
  destruct (below p q) eqn:Hb; [|by apply H3].
  apply contents_none. intros i Hi Hui Hq.
  destruct (decide (i = n)) as [->|Hin]; [rewrite H2 in Hq; congruence|].
  specialize (H4 i ltac:(unfold RAMFS_MAX_FILES in *; lia) Hin Hui). congruence.
Qed.

Lemma rename_file_ok fs p q bs : ramfs_ok fs -> short q -> contents fs p = Some (File bs) ->
  let '(r, fs') := ramfs_rename p q fs in
  ramfs_ok fs' /\
  (r = 0 /\ contents fs q = None /\ contents fs' q = Some (File bs) /\ contents fs' p = None /\
     (forall x, x <> p -> x <> q -> contents fs' x = contents fs x) \/
   r = -1 /\ fs' = fs /\ contents fs q <> None).
Proof.
  intros Hok [Hq0 Hqlen] Hp. destruct (contents_some _ _ _ Hp) as (n & E & Hent).
  unfold ramfs_rename. rewrite E. destruct (find_some fs p n E) as (Hn & Hu & Hnm & _).
  assert (n <> 0) as Hn0.
  { intros ->. destruct (ok_root fs Hok) as (_ & Hd & _). unfold entry_of in Hent. by rewrite Hd in Hent. }
  assert (p <> str "/") as Hroot.
  { intros ->. destruct (ok_root fs Hok) as (Hu0 & _ & Hn'). apply Hn0.
    apply (ok_distinct fs Hok); [done|done|done|done|congruence]. }
  rewrite streq_ne by done. cbn [orb]. destruct (ramfs_find fs q) as [j|] eqn:Eq.
  { split; [done|]. right. split_and!; [done|done|]. unfold contents. by rewrite Eq. }
  rewrite (proj2 (Z.leb_gt _ _)) by lia. set (n' := (nodes fs n) <| name := q |>).
  set (fs' := set_node n n' fs). assert (nodes fs' n = n') as En by apply upd_eq.
  assert (forall j, j <> n -> nodes fs' j = nodes fs j) as Ej by (intros j Hj; by apply upd_ne).
  pose proof (find_none fs q Eq Hq0) as Hfresh. rewrite En.
  assert (is_dir n' = false) as Hd by (unfold entry_of in Hent; change (is_dir n') with (is_dir (nodes fs n)); by destruct (is_dir (nodes fs n))).
  rewrite Hd. cbn [negb].
  assert (ramfs_ok fs') as Hok'.
  { split.
    - rewrite Ej by done. apply Hok.
    - intros j Hj. destruct (decide (j = n)) as [->|Hne]; [|rewrite Ej by done; by apply Hok].
      rewrite En. exact (ok_node fs Hok n Hn).
    - intros j Hj. destruct (decide (j = n)) as [->|Hne]; [by rewrite En|rewrite Ej by done; by apply Hok].
    - intros j Hj. destruct (decide (j = n)) as [->|Hne]; [|rewrite Ej by done; by apply Hok].
      rewrite En. exact (ok_free fs Hok n Hn).
    - intros j k Hj Hk. destruct (decide (j = n)) as [->|Hj'], (decide (k = n)) as [->|Hk']; [done| | |];
        rewrite ?En, ?(Ej j), ?(Ej k) by done.
      + intros _ Huk Enm. by destruct (Hfresh k Hk Huk).
      + intros Huj _ Enm. by destruct (Hfresh j Hj Huj).
      + by apply Hok.
    - change (bytes_used fs') with (bytes_used fs). destruct (ok_bytes fs Hok) as [Hs ?]. split; [|done]. rewrite Hs.
      apply sum_range_ext. intros j Hj. destruct (decide (j = n)) as [->|Hj']; [by rewrite En|by rewrite Ej]. }
  assert (contents fs q = None) as Hqn by (unfold contents; by rewrite Eq).
  assert (p <> q) as Hpq by (intros ->; congruence).
  split; [done|]. left. split_and!; [done|done| | |].
  - change q with (name n'). rewrite <- En, contents_node by (done || by rewrite En). by rewrite En, <- Hent.
  - apply contents_none. intros j Hj. destruct (decide (j = n)) as [->|Hne]; [rewrite En; by intros _ ?|].
    rewrite Ej by done. intros Huj E'. apply Hne. apply (ok_distinct fs Hok); [done|done|done|done|congruence].
  - intros x Hxp Hxq. apply (contents_outside fs fs' n); rewrite ?En; try done; congruence.
Qed.

(** ** Directories made at boot *)

(** Nothing is lost, and what is new is a directory. *)
Definition adds_dirs (fs fs' : ramfs_t) : Prop :=
  forall q, contents fs' q = contents fs q \/ contents fs q = None /\ contents fs' q = Some Dir.

Lemma adds_trans fs1 fs2 fs3 : adds_dirs fs1 fs2 -> adds_dirs fs2 fs3 -> adds_dirs fs1 fs3.
Proof.
  intros H1 H2 q. destruct (H1 q) as [E1|[E1 E1']], (H2 q) as [E2|[E2 E2']]; rewrite ?E2, ?E1, ?E1' in *; auto; congruence.
Qed.

Lemma create_dir_ok fs p : ramfs_ok fs -> short p ->
  ramfs_ok (snd (ramfs_create p true fs)) /\ adds_dirs fs (snd (ramfs_create p true fs)).
Proof.
  intros Hok Hp. pose proof (ram_create_ok fs p true Hok Hp) as H. destruct (ramfs_create p true fs) as [[i|] fs']; cbn.
  - destruct H as (H1 & _ & _ & _ & Hc & Hs & _). split; [done|]. intros q. destruct (decide (q = p)) as [->|Hq]; [|left; by apply Hs].
    destruct (contents fs p); [by left|by right].
  - destruct H as (-> & _ & _). split; [done|]. intros q. by left.
Qed.

Lemma mkdir_loop_ok fuel p cur fs : ramfs_ok fs -> short cur ->
  ramfs_ok (mkdir_loop fuel p cur fs) /\ adds_dirs fs (mkdir_loop fuel p cur fs).
Proof.
  revert p cur fs. induction fuel as [|fuel IH]; intros p cur fs Hok Hc; cbn [mkdir_loop]; [by split; [|left]|].
  destruct p as [|c p]; [by split; [|left]|]. case_bool; [by split; [|left]|].
  set (part := take _ _). set (cur' := cur ++ part).
  assert (short cur') as Hc'.
  { destruct Hc as [Hne Hl]. split; [by destruct cur|]. unfold cur', part, strlen in *.
    rewrite length_app, length_take. lia. }
  destruct (create_dir_ok fs cur' Hok Hc') as [H1 H2]. set (fs1 := snd (ramfs_create cur' true fs)) in *.
  set (cur2 := if (_ : bool) then cur' ++ [SLASH] else cur').
  assert (short cur2) as Hc2.
  { unfold cur2. case_bool; [|done]. destruct Hc' as [Hne Hl]. split; [by destruct cur'|].
    unfold strlen in *. rewrite length_app. cbn [length]. lia. }
  destruct (IH (drop (length part) (skip_slashes (c :: p))) cur2 fs1 H1 Hc2) as [H3 H4].
  split; [done|]. by eapply adds_trans.
Qed.

Lemma mkdir_p_ok fs p : ramfs_ok fs -> ramfs_ok (ramfs_mkdir_p p fs) /\ adds_dirs fs (ramfs_mkdir_p p fs).
Proof.
  intros Hok. unfold ramfs_mkdir_p. case_bool; [by split; [|left]|].
  destruct (create_dir_ok fs (str "/") Hok ltac:(done)) as [H1 H2].
  destruct (mkdir_loop_ok (length p) (tail p) (str "/") _ H1 ltac:(done)) as [H3 H4]. split; [done|]. by eapply adds_trans.
Qed.

(** ** The operations together *)

Inductive op :=
| Create (p : list Z) (dir : bool)
| Mkdirs (p : list Z)
| Write (p : list Z) (src : buffer) (count off : Z) (ok : bool)
| Read (p : list Z) (dst : buffer) (count off : Z)
| Truncate (p : list Z)
| Resize (p : list Z) (sz : Z) (ok : bool)
| Unlink (p : list Z)
| Rename (p q : list Z).

Inductive result := Done (r : Z) | Data (r : Z) (buf : buffer).

Definition exec (o : op) (fs : ramfs_t) : option (result * ramfs_t) :=
  match o with
  | Create p dir => let '(i, fs') := ramfs_create p dir fs in Some (Done (match i with Some _ => 0 | None => -1 end), fs')
  | Mkdirs p => Some (Done 0, ramfs_mkdir_p p fs)
  | Write p src count off ok => option_map (fun '(r, fs') => (Done r, fs')) (ramfs_write p src count off ok fs)
  | Read p dst count off => let '(r, buf) := ramfs_read fs p dst count off in Some (Data r buf, fs)
  | Truncate p => let '(b, fs') := ramfs_truncate p fs in Some (Done (if b then 0 else -1), fs')
  | Resize p sz ok => option_map (fun '((b, fs') : bool * ramfs_t) => (Done (if b then 0 else -1), fs')) (ramfs_resize p sz ok fs)
  | Unlink p => let '(r, fs') := ramfs_unlink p fs in Some (Done r, fs')
  | Rename p q => let '(r, fs') := ramfs_rename p q fs in Some (Done r, fs')
  end.

(** Names fit the table, writes do not leave a gap behind the end of the file,
    no file is to reach 2^63 bytes, and only files are renamed. *)
Definition allowed (o : op) (fs : ramfs_t) : Prop :=
  match o with
  | Create p _ | Truncate p | Unlink p => short p
  | Mkdirs p => True
  | Write p _ count off _ => short p /\ 0 <= off <= strlen (file_bytes fs p) /\ 0 <= count /\ off + count < 2 ^ 63
  | Read p _ count off => 0 <= count /\ 0 <= off
  | Resize p sz _ => short p /\ 0 <= sz <= 2 ^ 63
  | Rename p q => short q /\ contents fs p <> Some Dir
  end.

(** What a failed operation may leave: nothing, or an empty new file. *)
Definition failed_on (p : list Z) (want : Z) (ok : bool) (fs fs' : ramfs_t) : Prop :=
  contents fs p = Some Dir /\ fs' = fs \/ contents fs p = None /\ table_full fs /\ fs' = fs \/
  contents fs' p = Some (File (file_bytes fs p)) /\ refused fs want ok.

Definition spec (o : op) (fs : ramfs_t) (r : result) (fs' : ramfs_t) : Prop :=
  match o, r with
  | Create p dir, Done r => same_but p fs fs' /\
      (r = 0 /\ contents fs' p = Some (default (if dir then Dir else File []) (contents fs p)) \/
       r = -1 /\ fs' = fs /\ contents fs p = None /\ table_full fs)
  | Mkdirs p, Done r => r = 0 /\ adds_dirs fs fs'
  | Write p src count off ok, Done r => same_but p fs fs' /\
      (r = count /\ contents fs p <> Some Dir /\
         contents fs' p = Some (File (overlay (file_bytes fs p) off (bytes_of src count))) \/
       r = -1 /\ failed_on p (off + count) ok fs fs')
  | Read p dst count off, Data r buf => fs' = fs /\
      match contents fs p with
      | Some (File bs) =>
          let s := take (Z.to_nat count) (drop (Z.to_nat off) bs) in
          r = strlen s /\ bytes_of buf r = s /\ forall j, j < 0 \/ r <= j -> buf j = dst j
      | _ => r = -1 /\ buf = dst
      end
  | Truncate p, Done r => same_but p fs fs' /\
      (r = 0 /\ contents fs p <> Some Dir /\ contents fs' p = Some (File []) \/
       r = -1 /\ fs' = fs /\ (contents fs p = Some Dir \/ contents fs p = None /\ table_full fs))
  | Resize p sz ok, Done r => same_but p fs fs' /\
      (r = 0 /\ contents fs p <> Some Dir /\ contents fs' p = Some (File (resized (file_bytes fs p) sz)) \/
       r = -1 /\ failed_on p sz ok fs fs')
  | Unlink p, Done r =>
      r = 0 /\ contents fs p <> None /\ p <> str "/" /\
        (forall q, contents fs' q = if streq q p || below p q then None else contents fs q) \/
      r = -1 /\ fs' = fs /\ (contents fs p = None \/ p = str "/")
  | Rename p q, Done r =>
      r = 0 /\ contents fs p <> None /\ contents fs q = None /\ contents fs' q = contents fs p /\ contents fs' p = None /\
        (forall x, x <> p -> x <> q -> contents fs' x = contents fs x) \/
      r = -1 /\ fs' = fs /\ (contents fs p = None \/ contents fs q <> None)
  | _, _ => False
  end.

Inductive reach : ramfs_t -> Prop :=
| reach_init : reach ramfs_init
| reach_step o fs r fs' : reach fs -> allowed o fs -> exec o fs = Some (r, fs') -> reach fs'.

Lemma ram_exec_ok o fs : ramfs_ok fs -> allowed o fs ->
  exists r fs', exec o fs = Some (r, fs') /\ ramfs_ok fs' /\ spec o fs r fs'.
Proof.
  intros Hok Ha. destruct o as [p dir|p|p src count off ok|p dst count off|p|p sz ok|p|p q]; cbn [exec allowed] in *.
  - pose proof (ram_create_ok fs p dir Hok Ha) as H. destruct (ramfs_create p dir fs) as [[i|] fs'].
    + destruct H as (H1 & _ & _ & _ & H2 & H3 & _). eexists _, _. split_and!; [done|done|]. split; [done|]. by left.
    + destruct H as (-> & H1 & H2). eexists _, _. split_and!; [done|done|]. split; [done|]. by right.
  - destruct (mkdir_p_ok fs p Hok). eexists _, _. by split_and!.
  - destruct Ha as (Hp & Ho & Hc & He). destruct (ram_write_ok fs p src count off ok Hok Hp Ho Hc He) as (r & fs' & -> & H1 & H2 & H3).
    eexists _, _. by split_and!.
  - destruct Ha as [Hc Ho]. pose proof (ram_read_ok fs p dst count off Hok Hc Ho) as H.
    destruct (ramfs_read fs p dst count off) as [r buf]. eexists _, _. by split_and!.
  - pose proof (truncate_ok fs p Hok Ha) as H. destruct (ramfs_truncate p fs) as [b fs']. destruct H as (H1 & H2 & H3).
    eexists _, _. split_and!; [done|done|]. split; [done|]. destruct H3 as [[-> H3]|[-> H3]]; [by left|by right].
  - destruct Ha as [Hp Hs]. destruct (resize_ok fs p sz ok Hok Hp Hs) as (r & fs' & -> & H1 & H2 & H3).
    eexists _, _. split_and!; [done|done|]. split; [done|]. destruct H3 as [[-> H3]|[-> H3]]; [by left|by right].
  - pose proof (ram_unlink_ok fs p Hok Ha) as H. destruct (ramfs_unlink p fs) as [r fs']. destruct H as [H1 H2]. eexists _, _. by split_and!.
  - destruct Ha as [Hq Hd]. destruct (contents fs p) as [[|bs]|] eqn:E; [done| |].
    + pose proof (rename_file_ok fs p q bs Hok Hq E) as H. destruct (ramfs_rename p q fs) as [r fs']. destruct H as [H1 H2].
      eexists _, _. split_and!; [done|done|]. cbn [spec]. rewrite E.
      destruct H2 as [(-> & H2 & H3 & H4 & H5)|(-> & -> & H2)]; [by left|right; by auto].
    + unfold ramfs_rename. unfold contents in E. destruct (ramfs_find fs p) eqn:Ef; [done|].
      eexists _, _. split_and!; [done|done|]. right. split_and!; [done|done|]. left. unfold contents. by rewrite Ef.
Qed.

(** C32: Over any allowed calls a ramfs is a map from paths to directories and
    byte strings: every call returns, reads return the bytes last written,
    writes, truncation, resizing, unlinking and renaming change exactly what
    they name, and they fail only on directories, on missing files, on a full
    table or without memory. *)
Theorem ramfs_refines fs o : reach fs -> allowed o fs ->
  exists r fs', exec o fs = Some (r, fs') /\ spec o fs r fs'.
Proof.
  intros Hr. assert (ramfs_ok fs) as Hok.
  { clear o. induction Hr as [|o fs r fs' _ IH Ha E]; [exact ram_init_ok|].
    destruct (ram_exec_ok o fs IH Ha) as (r2 & fs2 & E2 & H & _). congruence. }
  intros Ha. destruct (ram_exec_ok o fs Hok Ha) as (r & fs' & E & _ & H). eauto.
Qed.

Definition demo_src (s : list Z) : buffer := fun i => char_at s i.

Lemma ramfs_refines_witness : exists r fs',
  exec (Write (str "/a") (demo_src (str "abc")) 3 0 true) ramfs_init = Some (r, fs') /\
  contents fs' (str "/a") = Some (File (str "abc")).
Proof.
  destruct (ramfs_refines ramfs_init (Write (str "/a") (demo_src (str "abc")) 3 0 true) reach_init) as (r & fs' & E & S).
  { split; [by split|]. split; [split; [lia|vm_compute; discriminate]|]. lia. }
  exists r, fs'. split; [exact E|].
  assert (option_map fst (exec (Write (str "/a") (demo_src (str "abc")) 3 0 true) ramfs_init) = Some (Done 3)) as Er
    by (vm_compute; reflexivity).
  rewrite E in Er. injection Er as ->. destruct S as [_ [(_ & _ & S)|[S _]]]; [|discriminate S]. rewrite S. reflexivity.
Defined.

(** A file that was truncated keeps its buffer: a write behind the end brings
    the old bytes back. *)
Example truncate_keeps_bytes :
  option_map (fun '(_, fs) => contents fs (str "/a"))
    (match ramfs_write (str "/a") (demo_src (str "secret")) 6 0 true ramfs_init with
     | Some (_, fs) => ramfs_write (str "/a") (demo_src (str "!")) 1 6 true (snd (ramfs_truncate (str "/a") fs))
     | None => None
     end) = Some (Some (File (str "secret!"))).
Proof. vm_compute. reflexivity. Qed.

(** A write that ends behind 2^63 never returns. *)
Example huge_offset_hangs fuel : grow fuel 256 (2 ^ 63 + 1) = None.
Proof. apply grow_hangs; [lia|]. right. exists 0. split; [lia|done]. Qed.

(** A path of 192 bytes or more is cut when it is stored and never found
    again: every creation takes another node. *)
Example long_name_lost :
  let p := str "/" ++ repeat 97 199 in
  let fs := snd (ramfs_create p false ramfs_init) in
  ramfs_find fs p = None /\ fst (ramfs_create p false fs) = Some 2.
Proof. vm_compute. split; reflexivity. Qed.

(** A directory can be renamed into itself: its own path disappears. *)
Example rename_into_itself :
  let fs := snd (ramfs_create (str "/a/x") false (snd (ramfs_create (str "/a") true ramfs_init))) in
  let '(r, fs) := ramfs_rename (str "/a") (str "/a/b") fs in
  r = 0 /\ contents fs (str "/a") = None /\ contents fs (str "/a/b/x") = Some (File []).
Proof. vm_compute. split_and!; reflexivity. Qed.

End RamfsClaims.
