(* ===== verification/Input.v ===== *)
(** * Input devices (src/src/drivers/input: evdev.c, keyboard.c, mouse.c, touch.c, gesture.c)

    The interrupt handlers of the PS/2 keyboard and mouse as functions of the
    byte they read, the multi-touch slots and the gesture recogniser, and the
    queues they fill.  Code under a spinlock is one step; the ports of the
    controller and the registration of handlers are left out. *)

From S2P Require Import Prelude Ring.
From Stdlib Require Export ZifyBool.

(** ** Queues that leave one slot free *)

Module OpenRing.

(** [wr] is where the next element goes, [rd] where the next one comes from. *)
Record ring (A : Type) := { slots : Z -> A; wr : Z; rd : Z }.
Arguments slots {A} r.
Arguments wr {A} r.
Arguments rd {A} r.
#[export] Instance eta_ring {A} : Eta (ring A) := fun r => Build_ring A (slots r) (wr r) (rd r).

Section ring.
Context {A : Type} (N : Z).

Definition push (x : A) (r : ring A) : bool * ring A :=
  let next := (wr r + 1) mod N in
  if next =? rd r then (false, r)
  else (true, r <| slots := (slots r).[wr r <- x] |> <| wr := next |>).

Definition pop (r : ring A) : option A * ring A :=
  if rd r =? wr r then (None, r)
  else (Some (slots r (rd r)), r <| rd := (rd r + 1) mod N |>).

Definition ring_ok (r : ring A) : Prop := 1 < N /\ 0 <= wr r < N /\ 0 <= rd r < N.

Definition contents (r : ring A) : list A := ring_queue N (slots r) (wr r) (rd r).

#[export] Instance open_fifo : Fifo (ring A) A :=
  { fifo_ok := ring_ok; fifo_contents := contents; fifo_cap := N - 1; fifo_put := push; fifo_take := pop }.

Lemma ring_push_ok x r : ring_ok r -> ring_ok (snd (push x r)).
Proof.
  intros (HN & Hw & Hr). unfold push. case_bool; [done|]. split_and!; cbn; try lia; apply Z.mod_pos_bound; lia.
Qed.

#[export] Instance open_fifo_laws : FifoLaws (ring A) A.
Proof.
  split; cbn [fifo_ok fifo_contents fifo_cap fifo_put fifo_take open_fifo].
  - apply ring_push_ok.
  - intros x r (HN & Hw & Hr). unfold push, contents. rewrite (ring_queue_length N _ _ HN).
    pose proof (ring_full_iff N (wr r) (rd r) HN Hw Hr) as Hf. unfold ring_next in Hf.
    pose proof (ring_used_range N (wr r) (rd r) HN). case_bool; cbn [fst]; lia.
  - intros x r (HN & Hw & Hr). unfold push, contents. case_bool; cbn [fst snd]; [by rewrite app_nil_r|].
    apply (ring_queue_put N (wr r) (rd r) HN Hw Hr). unfold ring_next. lia.
  - intros r (HN & Hw & Hr). unfold pop. case_bool; [done|]. split_and!; cbn; try lia; apply Z.mod_pos_bound; lia.
  - intros r (HN & Hw & Hr). unfold pop, contents. case_bool; cbn [fst].
    + by rewrite ring_queue_nil by lia.
    + by rewrite (ring_queue_take N (wr r) (rd r) HN Hw Hr) by lia.
  - intros r (HN & Hw & Hr). unfold pop, contents. case_bool; cbn [snd].
    + by rewrite ring_queue_nil by lia.
    + by rewrite (ring_queue_take N (wr r) (rd r) HN Hw Hr) by lia.
Qed.
End ring.

Definition empty {A : Type} (x : A) : ring A := {| slots := fun _ => x; wr := 0; rd := 0 |}.

End OpenRing.

Export OpenRing.

(** ** The event queue (evdev.c) *)

Module Evdev.

Definition EV_SYN : Z := 0.
Definition EV_KEY : Z := 1.
Definition EV_REL : Z := 2.
Definition EV_ABS : Z := 3.
Definition REL_X : Z := 0.
Definition REL_Y : Z := 1.
Definition KEY_RELEASED : Z := 0.
Definition KEY_PRESSED : Z := 1.
Definition EVDEV_RING_SIZE : Z := 256.

Record input_event_t := { type : Z; code : Z; value : Z }.

Definition evdev_init (r : ring input_event_t) : ring input_event_t := r <| wr := 0 |> <| rd := 0 |>.

Definition evdev_push_event (type code value : Z) (r : ring input_event_t) : ring input_event_t :=
  snd (push EVDEV_RING_SIZE {| type := u16 type; code := u16 code; value := i32 value |} r).

Definition evdev_pop_event (r : ring input_event_t) : option input_event_t * ring input_event_t :=
  pop EVDEV_RING_SIZE r.

Definition evdev_has_events (r : ring input_event_t) : bool := negb (wr r =? rd r).

(** Pushing a list of events one after another. *)
Definition push_all (evs : list input_event_t) (r : ring input_event_t) : ring input_event_t :=
  fold_left (fun r e => evdev_push_event (type e) (code e) (value e) r) evs r.

Definition queue (r : ring input_event_t) : list input_event_t := contents EVDEV_RING_SIZE r.

Definition event_fits (e : input_event_t) : Prop :=
  0 <= type e < 2 ^ 16 /\ 0 <= code e < 2 ^ 16 /\ - 2 ^ 31 <= value e < 2 ^ 31.

Lemma push_event_ok t c v r :
  ring_ok EVDEV_RING_SIZE r -> ring_ok EVDEV_RING_SIZE (evdev_push_event t c v r).
Proof. apply (ring_push_ok EVDEV_RING_SIZE). Qed.

Lemma push_all_ok evs r : ring_ok EVDEV_RING_SIZE r -> ring_ok EVDEV_RING_SIZE (push_all evs r).
Proof. revert r. induction evs as [|e evs IH]; intros r Hr; [done|]. by apply IH, push_event_ok. Qed.

Lemma push_all_app e1 e2 r : push_all (e1 ++ e2) r = push_all e2 (push_all e1 r).
Proof. apply fold_left_app. Qed.

Lemma push_event_queue t c v r :
  ring_ok EVDEV_RING_SIZE r -> event_fits (Build_input_event_t t c v) ->
  Z.of_nat (length (queue r)) < EVDEV_RING_SIZE - 1 ->
  queue (evdev_push_event t c v r) = queue r ++ [Build_input_event_t t c v].
Proof.
  intros Hr (Ht & Hc & Hv) Hroom. cbn [type code value] in *. unfold evdev_push_event.
  rewrite (wrap_small 16), (wrap_small 16), (swrap_small 32) by lia. set (e := Build_input_event_t t c v).
  pose proof (fifo_put_contents (H := open_fifo EVDEV_RING_SIZE) e r Hr) as Hp.
  pose proof (fifo_put_accepts (H := open_fifo EVDEV_RING_SIZE) e r Hr) as Hb.
  cbn [fifo_put fifo_contents fifo_cap open_fifo] in Hp, Hb. unfold queue in *.
  rewrite Hp, Hb, (proj2 (Z.ltb_lt _ _)) by lia. done.
Qed.

(** With room for all of them, the events join the queue in order. *)
Lemma push_all_queue evs r :
  ring_ok EVDEV_RING_SIZE r -> Forall event_fits evs ->
  Z.of_nat (length (queue r)) + Z.of_nat (length evs) < EVDEV_RING_SIZE ->
  queue (push_all evs r) = queue r ++ evs.
Proof.
  revert r. induction evs as [|[t c v] evs IH]; intros r Hr Hf Hroom; [by rewrite app_nil_r|].
  inversion Hf as [|? ? He Hf']; subst. cbn [length] in Hroom.
  pose proof (push_event_queue t c v r Hr He ltac:(lia)) as Hq.
  cbn [push_all fold_left type code value]. fold (push_all evs (evdev_push_event t c v r)).
  rewrite IH; [by rewrite Hq, <- app_assoc|by apply push_event_ok|done|].
  rewrite Hq, length_app. cbn [length]. lia.
Qed.

End Evdev.

Export Evdev.

(** ** The keyboard (keyboard.c) *)

Module Keyboard.

Definition KBD_BUF_SIZE : Z := 256.

(** Missing entries of the 128-byte tables are zero, as in the initialisers. *)
Definition scancode_ascii : list Z :=
  [0; 27; 49; 50; 51; 52; 53; 54; 55; 56; 57; 48; 45; 61; 8;
   9; 113; 119; 101; 114; 116; 121; 117; 105; 111; 112; 91; 93; 10;
   0; 97; 115; 100; 102; 103; 104; 106; 107; 108; 59; 39; 96; 0;
   92; 122; 120; 99; 118; 98; 110; 109; 44; 46; 47; 0; 42; 0; 32;
   0; 0; 0; 0; 0; 0; 0; 0; 0; 0; 0; 0; 0; 0; 0; 0;
   45; 0; 0; 0; 43; 0; 0; 0; 0; 0; 0; 0; 0; 0; 0; 0].

Definition scancode_ascii_shift : list Z :=
  [0; 27; 33; 64; 35; 36; 37; 94; 38; 42; 40; 41; 95; 43; 8;
   9; 81; 87; 69; 82; 84; 89; 85; 73; 79; 80; 123; 125; 10;
   0; 65; 83; 68; 70; 71; 72; 74; 75; 76; 58; 34; 126; 0;
   124; 90; 88; 67; 86; 66; 78; 77; 60; 62; 63; 0; 42; 0; 32].

Definition table (t : list Z) (i : Z) : Z := nth (Z.to_nat i) t 0.

Record kbd := {
  shift_pressed : bool;
  caps_pressed : bool;
  expecting_extended : bool;
  kbd_buffer : ring Z;
  events : ring input_event_t
}.
#[export] Instance eta_kbd : Eta kbd := fun k =>
  Build_kbd (shift_pressed k) (caps_pressed k) (expecting_extended k) (kbd_buffer k) (events k).

Definition kbd_push (c : Z) (k : kbd) : kbd :=
  k <| kbd_buffer := snd (push KBD_BUF_SIZE c (kbd_buffer k)) |>.

Definition push_event (type code value : Z) (k : kbd) : kbd :=
  k <| events := evdev_push_event type code value (events k) |>.

(** The character of a key under the shift and caps lock states. *)
Definition translate (shift caps : bool) (scancode : Z) : Z :=
  let base := table scancode_ascii scancode in
  let use_shift := if caps && (97 <=? base) && (base <=? 122) then negb shift else shift in
  if use_shift then table scancode_ascii_shift scancode else base.

Definition arrow (scancode : Z) : option Z :=
  if scancode =? 0x48 then Some 0x11
  else if scancode =? 0x50 then Some 0x12
  else if scancode =? 0x4B then Some 0x13
  else if scancode =? 0x4D then Some 0x14
  else None.

Definition is_shift (scancode : Z) : bool := (scancode =? 0x2A) || (scancode =? 0x36).

Definition keyboard_isr (scancode : Z) (k : kbd) : kbd :=
  if scancode =? 0xE0 then k <| expecting_extended := true |>
  else if has scancode 0x80 then
    let released := Z.land scancode 0x7F in
    let k := push_event EV_KEY released KEY_RELEASED k in
    if expecting_extended k then k <| expecting_extended := false |>
    else if is_shift released then k <| shift_pressed := false |>
    else k
  else if expecting_extended k then
    let k := k <| expecting_extended := false |> in
    match arrow scancode with Some c => kbd_push c k | None => k end
  else if is_shift scancode then
    push_event EV_KEY scancode KEY_PRESSED k <| shift_pressed := true |>
  else if scancode =? 0x3A then k <| caps_pressed := negb (caps_pressed k) |>
  else
    let k := push_event EV_KEY scancode KEY_PRESSED k in
    let k := push_event EV_SYN 0 0 k in
    if scancode <? 128 then
      let c := translate (shift_pressed k) (caps_pressed k) scancode in
      if c =? 0 then k else kbd_push c k
    else k.

Definition keyboard_has_key (k : kbd) : bool := negb (rd (kbd_buffer k) =? wr (kbd_buffer k)).

(** [None]: the caller waits, with interrupts on, for a key. *)
Definition keyboard_get_char (k : kbd) : option (Z * kbd) :=
  match pop KBD_BUF_SIZE (kbd_buffer k) with
  | (Some c, r) => Some (c, k <| kbd_buffer := r |>)
  | (None, _) => None
  end.

Definition boot : kbd :=
  {| shift_pressed := false; caps_pressed := false; expecting_extended := false;
     kbd_buffer := empty 0; events := empty {| type := 0; code := 0; value := 0 |} |}.

Definition isr_all (codes : list Z) (k : kbd) : kbd := fold_left (fun k s => keyboard_isr s k) codes k.

Definition typed (k : kbd) : list Z := contents KBD_BUF_SIZE (kbd_buffer k).

(** *** What is typed

    The reference decoder reads the whole sequence of scancodes: a prefix
    byte attaches to the next one, and shift and caps lock are the state. *)

Record mods := { m_shift : bool; m_caps : bool; m_ext : bool }.

Definition decode1 (scancode : Z) (m : mods) : mods * list Z :=
  let '(Build_mods sh ca ex) := m in
  if scancode =? 0xE0 then (Build_mods sh ca true, [])
  else if 0x80 <=? scancode then
    (Build_mods (sh && (ex || negb (is_shift (scancode - 0x80)))) ca false, [])
  else if ex then (Build_mods sh ca false, match arrow scancode with Some c => [c] | None => [] end)
  else if is_shift scancode then (Build_mods true ca false, [])
  else if scancode =? 0x3A then (Build_mods sh (negb ca) false, [])
  else (m, let c := translate sh ca scancode in if c =? 0 then [] else [c]).

Fixpoint decode (codes : list Z) (m : mods) : mods * list Z :=
  match codes with
  | [] => (m, [])
  | s :: codes =>
      let '(m1, out1) := decode1 s m in
      let '(m2, out2) := decode codes m1 in (m2, out1 ++ out2)
  end.

Definition kbd_ok (k : kbd) : Prop :=
  ring_ok KBD_BUF_SIZE (kbd_buffer k) /\ ring_ok EVDEV_RING_SIZE (events k).

Definition kbd_mods (k : kbd) : mods := Build_mods (shift_pressed k) (caps_pressed k) (expecting_extended k).

Lemma land_80 s : 0 <= s < 256 -> has s 0x80 = (0x80 <=? s) /\ (0x80 <= s -> Z.land s 0x7F = s - 0x80).
Proof.
  intros Hs. assert (Hl : Z.land s 0x7F = s mod 2 ^ 7) by (apply (Z.land_ones s 7); lia).
  assert (Hb : Z.testbit s 7 = (0x80 <=? s)).
  { rewrite Z.testbit_eqb by lia. change (2 ^ 7) with 128.
    destruct (0x80 <=? s) eqn:E.
    - replace (s / 128) with 1; [done|]. apply (Z.div_unique s 128 1 (s - 128)); lia.
    - by rewrite Z.div_small by lia. }
  split.
  - unfold has. rewrite <- Hb. destruct (Z.testbit s 7) eqn:E.
    + destruct (Z.eqb_spec (Z.land s 128) 0) as [HC|]; [|done]. exfalso.
      assert (Ht : Z.testbit (Z.land s 128) 7 = true) by (by rewrite Z.land_spec, E). by rewrite HC in Ht.
    + replace (Z.land s 128) with 0; [done|]. symmetry. apply Z.bits_inj'. intros i Hi.
      rewrite Z.land_spec, Z.bits_0. change 128 with (2 ^ 7). rewrite Z.pow2_bits_eqb by lia.
      destruct (7 =? i) eqn:Ei; [|by rewrite andb_false_r]. apply Z.eqb_eq in Ei. subst i. by rewrite E.
  - intros Hge. rewrite Hl. symmetry. apply (Z.mod_unique s (2 ^ 7) 1); lia.
Qed.

Lemma isr_decodes s k :
  0 <= s < 256 -> kbd_ok k -> Z.of_nat (length (typed k)) < KBD_BUF_SIZE - 1 ->
  kbd_ok (keyboard_isr s k) /\
  (kbd_mods (keyboard_isr s k), typed (keyboard_isr s k)) =
    let '(m, out) := decode1 s (kbd_mods k) in (m, typed k ++ out).
Proof.
  intros Hs [Hk He] Hroom. destruct (land_80 s Hs) as [H80 H7f].
  assert (Hpush : forall c k', kbd_buffer k' = kbd_buffer k -> typed (kbd_push c k') = typed k ++ [c]).
  { intros c k' E. pose proof (fifo_put_contents (H := open_fifo KBD_BUF_SIZE) c _ Hk) as Hp.
    pose proof (fifo_put_accepts (H := open_fifo KBD_BUF_SIZE) c _ Hk) as Hb.
    cbn [fifo_put fifo_contents fifo_cap open_fifo] in Hp, Hb. unfold typed, kbd_push.
    change (kbd_buffer (k' <| kbd_buffer := ?b |>)) with b. rewrite E, Hp, Hb.
    unfold typed in Hroom. by rewrite (proj2 (Z.ltb_lt _ _)) by lia. }
  assert (Hpok : forall c, ring_ok KBD_BUF_SIZE (snd (push KBD_BUF_SIZE c (kbd_buffer k))))
    by (intros c; by apply ring_push_ok).
  unfold keyboard_isr, decode1, kbd_mods. rewrite H80.
  destruct (s =? 0xE0); [by rewrite app_nil_r|].
  destruct (0x80 <=? s) eqn:E80; [rewrite (H7f ltac:(lia))|].
  - destruct k as [sh ca ex kb ev]; cbn in *. destruct ex; [|destruct (is_shift (s - 128))]; cbn;
      rewrite ?app_nil_r, ?andb_true_r, ?andb_false_r; (split; [split; cbn; auto using push_event_ok|done]).
  - rewrite (proj2 (Z.ltb_lt s 128)) by lia.
    destruct k as [sh ca ex kb ev]; cbn in *. destruct ex; [destruct (arrow s) as [c|]; cbn|destruct (is_shift s);
      [|destruct (s =? 0x3A); [|destruct (translate sh ca s =? 0)]]]; cbn; rewrite ?app_nil_r;
      (split; [split; cbn; auto 6 using push_event_ok|]); rewrite ?Hpush by done; try done.
Qed.

Lemma decode1_short s m : (length (snd (decode1 s m)) <= 1)%nat.
Proof.
  destruct m as [sh ca ex]. unfold decode1.
  repeat match goal with |- context [if ?b then _ else _] => destruct b end; cbn; try lia.
  destruct (arrow s); cbn; lia.
Qed.

(** The interrupt handler, byte by byte, types what the reference decoder
    reads from the whole sequence, as long as the buffer has room. *)
Lemma isr_all_decodes codes k :
  Forall (fun s => 0 <= s < 256) codes -> kbd_ok k ->
  Z.of_nat (length (typed k)) + Z.of_nat (length codes) < KBD_BUF_SIZE ->
  kbd_ok (isr_all codes k) /\
  (kbd_mods (isr_all codes k), typed (isr_all codes k)) =
    let '(m, out) := decode codes (kbd_mods k) in (m, typed k ++ out).
Proof.
  revert k. induction codes as [|s codes IH]; intros k Hc Hk Hroom; [split; [done|cbn; by rewrite app_nil_r]|].
  inversion Hc as [|? ? Hs Hc']; subst. cbn [length] in Hroom.
  destruct (isr_decodes s k Hs Hk ltac:(lia)) as [Hk1 E1]. cbn [decode].
  pose proof (decode1_short s (kbd_mods k)) as Hshort.
  destruct (decode1 s (kbd_mods k)) as [m1 out1] eqn:D. cbn in Hshort. injection E1 as Em Et.
  destruct (IH (keyboard_isr s k) Hc' Hk1) as [Hk2 E2].
  { rewrite Et, length_app. lia. }
  split; [done|]. change (isr_all (s :: codes) k) with (isr_all codes (keyboard_isr s k)).
  rewrite E2, Em, Et. destruct (decode codes m1) as [m2 out2]. by rewrite app_assoc.
Qed.

(** Caps lock and shift together give lower case again; releasing shift does
    not undo caps lock. *)
Example typing : typed (isr_all [0x3A; 0x1E; 0x2A; 0x1E; 0xAA; 0x1E; 0x02; 0xE0; 0x48] boot) = [65; 97; 65; 49; 0x11].
Proof. vm_compute. reflexivity. Qed.

(** An arrow key reports its release to the event queue but not its press. *)
Example arrow_press_unreported :
  queue (events (isr_all [0xE0; 0x48; 0xE0; 0xC8] boot)) = [{| type := EV_KEY; code := 0x48; value := KEY_RELEASED |}].
Proof. vm_compute. reflexivity. Qed.

(** Releasing one shift key while the other is held ends the shift. *)
Example both_shifts : typed (isr_all [0x2A; 0x36; 0xB6; 0x1E] boot) = [97].
Proof. vm_compute. reflexivity. Qed.

End Keyboard.

(** ** The mouse (mouse.c) *)

Module Mouse.

Record mouse := {
  mouse_cycle : Z;
  mouse_byte : Z -> Z;
  mouse_x : Z; mouse_y : Z;
  mouse_left : bool; mouse_right : bool;
  events : ring input_event_t
}.
#[export] Instance eta_mouse : Eta mouse := fun m =>
  Build_mouse (mouse_cycle m) (mouse_byte m) (mouse_x m) (mouse_y m) (mouse_left m) (mouse_right m) (events m).

Definition i8 : Z -> Z := swrap 8.

Definition push_event (type code value : Z) (m : mouse) : mouse :=
  m <| events := evdev_push_event type code value (events m) |>.

(** The button and motion events of a complete packet. *)
Definition update_left (new_left : bool) (m : mouse) : mouse :=
  if Bool.eqb new_left (mouse_left m) then m
  else push_event EV_KEY 0x110 (Z.b2z new_left) m <| mouse_left := new_left |>.

Definition update_right (new_right : bool) (m : mouse) : mouse :=
  if Bool.eqb new_right (mouse_right m) then m
  else push_event EV_KEY 0x111 (Z.b2z new_right) m <| mouse_right := new_right |>.

Definition push_rel (axis v : Z) (m : mouse) : mouse :=
  if v =? 0 then m else push_event EV_REL axis v m.

(** The end of the third byte's case. *)
Definition packet (m : mouse) : mouse :=
  let x := i32 (mouse_x m + mouse_byte m 1) in
  let y := i32 (mouse_y m - mouse_byte m 2) in
  let m := m <| mouse_x := if x <? 0 then 0 else x |> <| mouse_y := if y <? 0 then 0 else y |> in
  let new_left := has (mouse_byte m 0) 1 in
  let new_right := has (mouse_byte m 0) 2 in
  let m := update_right new_right (update_left new_left m) in
  let m := push_rel REL_X (mouse_byte m 1) m in
  let m := push_rel REL_Y (- mouse_byte m 2) m in
  push_event EV_SYN 0 0 m.

(** [status] and [data] are the bytes read from the controller's ports. *)
Definition mouse_isr (status data : Z) (m : mouse) : mouse :=
  if negb (has status 0x01) then m
  else if negb (has status 0x20) then m
  else if mouse_cycle m =? 0 then
    if negb (has data 0x08) then m
    else m <| mouse_byte := (mouse_byte m).[0 <- i8 data] |> <| mouse_cycle := 1 |>
  else if mouse_cycle m =? 1 then
    m <| mouse_byte := (mouse_byte m).[1 <- i8 data] |> <| mouse_cycle := 2 |>
  else if mouse_cycle m =? 2 then
    packet (m <| mouse_byte := (mouse_byte m).[2 <- i8 data] |> <| mouse_cycle := 0 |>)
  else m.

(** *** What a reader of the events knows *)

Record view := { v_left : bool; v_right : bool; v_dx : Z; v_dy : Z }.

Definition see (v : view) (e : input_event_t) : view :=
  let '(Build_view l r dx dy) := v in
  if (type e =? EV_KEY) && (code e =? 0x110) then Build_view (negb (value e =? 0)) r dx dy
  else if (type e =? EV_KEY) && (code e =? 0x111) then Build_view l (negb (value e =? 0)) dx dy
  else if (type e =? EV_REL) && (code e =? REL_X) then Build_view l r (dx + value e) dy
  else if (type e =? EV_REL) && (code e =? REL_Y) then Build_view l r dx (dy + value e)
  else v.

Definition isr_packet (b0 b1 b2 : Z) (m : mouse) : mouse :=
  mouse_isr 0x21 b2 (mouse_isr 0x21 b1 (mouse_isr 0x21 b0 m)).

(** The events of a packet after one that left the buttons as [l] and [r]. *)
Definition packet_events (b0 dx dy : Z) (l r : bool) : list input_event_t :=
  (if Bool.eqb (has b0 1) l then [] else [Build_input_event_t EV_KEY 0x110 (Z.b2z (has b0 1))]) ++
  (if Bool.eqb (has b0 2) r then [] else [Build_input_event_t EV_KEY 0x111 (Z.b2z (has b0 2))]) ++
  (if dx =? 0 then [] else [Build_input_event_t EV_REL REL_X dx]) ++
  (if dy =? 0 then [] else [Build_input_event_t EV_REL REL_Y (- dy)]) ++ [Build_input_event_t EV_SYN 0 0].

Lemma i8_range b : -128 <= i8 b < 128.
Proof. unfold i8, swrap. change (2 ^ 8) with 256. change (2 ^ (8 - 1)) with 128.
  pose proof (Z.mod_pos_bound (b + 128) 256 ltac:(lia)). lia. Qed.

Lemma update_left_eq nl c bs x y l r ev :
  update_left nl (Build_mouse c bs x y l r ev) = Build_mouse c bs x y nl r
    (push_all (if Bool.eqb nl l then [] else [Build_input_event_t EV_KEY 0x110 (Z.b2z nl)]) ev).
Proof. by destruct nl, l. Qed.

Lemma update_right_eq nr c bs x y l r ev :
  update_right nr (Build_mouse c bs x y l r ev) = Build_mouse c bs x y l nr
    (push_all (if Bool.eqb nr r then [] else [Build_input_event_t EV_KEY 0x111 (Z.b2z nr)]) ev).
Proof. by destruct nr, r. Qed.

Lemma push_rel_eq axis v c bs x y l r ev :
  push_rel axis v (Build_mouse c bs x y l r ev) = Build_mouse c bs x y l r
    (push_all (if v =? 0 then [] else [Build_input_event_t EV_REL axis v]) ev).
Proof. unfold push_rel. by destruct (v =? 0). Qed.

(** A packet moves the pointer, never below zero, and reports what changed. *)
Lemma packet_eq bs x y l r ev :
  packet (Build_mouse 0 bs x y l r ev) =
  Build_mouse 0 bs (Z.max 0 (i32 (x + bs 1))) (Z.max 0 (i32 (y - bs 2))) (has (bs 0) 1) (has (bs 0) 2)
    (push_all (packet_events (bs 0) (bs 1) (bs 2) l r) ev).
Proof.
  unfold packet, packet_events. cbv zeta.
  change (_ <| mouse_y := ?y' |>) with (Build_mouse 0 bs (if i32 (x + bs 1) <? 0 then 0 else i32 (x + bs 1)) y' l r ev).
  cbn [mouse_byte mouse_x mouse_y]. rewrite update_left_eq, update_right_eq. cbn [mouse_byte].
  rewrite push_rel_eq. cbn [mouse_byte]. rewrite push_rel_eq, !push_all_app.
  replace (- bs 2 =? 0) with (bs 2 =? 0) by lia.
  assert (Hmax : forall z, (if z <? 0 then 0 else z) = Z.max 0 z) by (intros z; case_bool; lia).
  by rewrite !Hmax.
Qed.

Lemma isr_packet_eq b0 b1 b2 x y l r bs ev :
  has b0 8 = true -> isr_packet b0 b1 b2 (Build_mouse 0 bs x y l r ev) =
  Build_mouse 0 bs.[0 <- i8 b0].[1 <- i8 b1].[2 <- i8 b2]
    (Z.max 0 (i32 (x + i8 b1))) (Z.max 0 (i32 (y - i8 b2))) (has (i8 b0) 1) (has (i8 b0) 2)
    (push_all (packet_events (i8 b0) (i8 b1) (i8 b2) l r) ev).
Proof.
  intros H8. unfold isr_packet.
  replace (mouse_isr 0x21 b0 _) with (Build_mouse 1 bs.[0 <- i8 b0] x y l r ev)
    by (unfold mouse_isr; cbn [mouse_cycle]; by rewrite H8).
  change (mouse_isr 0x21 b2 _) with (packet (Build_mouse 0 bs.[0 <- i8 b0].[1 <- i8 b1].[2 <- i8 b2] x y l r ev)).
  by rewrite packet_eq, upd_eq, !(upd_ne _ 2), upd_eq, (upd_ne _ 1), upd_eq by lia.
Qed.

Lemma packet_seen b0 dx dy l r vx vy :
  fold_left see (packet_events b0 dx dy l r) (Build_view l r vx vy) =
  Build_view (has b0 1) (has b0 2) (vx + dx) (vy - dy).
Proof.
  unfold packet_events. rewrite !fold_left_app.
  assert (HL : fold_left see (if Bool.eqb (has b0 1) l then [] else [Build_input_event_t EV_KEY 0x110 (Z.b2z (has b0 1))])
    (Build_view l r vx vy) = Build_view (has b0 1) r vx vy) by (by destruct (has b0 1), l).
  assert (HR : fold_left see (if Bool.eqb (has b0 2) r then [] else [Build_input_event_t EV_KEY 0x111 (Z.b2z (has b0 2))])
    (Build_view (has b0 1) r vx vy) = Build_view (has b0 1) (has b0 2) vx vy) by (by destruct (has b0 2), r).
  rewrite HL, HR. destruct (Z.eqb_spec dx 0), (Z.eqb_spec dy 0); cbn; f_equal; lia.
Qed.

Lemma packet_events_fit b0 dx dy l r :
  -128 <= dx < 128 -> -128 <= dy < 128 ->
  Forall event_fits (packet_events b0 dx dy l r) /\ (length (packet_events b0 dx dy l r) <= 5)%nat.
Proof.
  intros Hx Hy. unfold packet_events, event_fits.
  destruct (Bool.eqb (has b0 1) l), (Bool.eqb (has b0 2) r), (dx =? 0), (dy =? 0), (has b0 1), (has b0 2); cbn;
    split; try lia; repeat constructor; cbn; unfold EV_REL, EV_KEY, EV_SYN, REL_X, REL_Y; lia.
Qed.

Definition packet_t : Type := Z * Z * Z.
Definition run (pkts : list packet_t) (m : mouse) : mouse :=
  fold_left (fun m '((b0, b1, b2) : packet_t) => isr_packet b0 b1 b2 m) pkts m.

Definition moved_x (pkts : list packet_t) : Z := fold_right (fun '((_, b1, _) : packet_t) z => i8 b1 + z) 0 pkts.
Definition moved_y (pkts : list packet_t) : Z := fold_right (fun '((_, _, b2) : packet_t) z => z - i8 b2) 0 pkts.

Definition at_rest (m : mouse) : Prop := mouse_cycle m = 0 /\ ring_ok EVDEV_RING_SIZE (events m).

(** Packets fed to the handler byte by byte reach a reader of the queue, who
    then knows the buttons and the distance moved. *)
Lemma run_reported pkts m v :
  Forall (fun '((b0, _, _) : packet_t) => has b0 8 = true) pkts -> at_rest m ->
  Z.of_nat (length (queue (events m))) + 5 * Z.of_nat (length pkts) < EVDEV_RING_SIZE ->
  v_left v = mouse_left m -> v_right v = mouse_right m ->
  exists evs, queue (events (run pkts m)) = queue (events m) ++ evs /\ at_rest (run pkts m) /\
    fold_left see evs v = Build_view (mouse_left (run pkts m)) (mouse_right (run pkts m))
      (v_dx v + moved_x pkts) (v_dy v + moved_y pkts).
Proof.
  revert m v. induction pkts as [|[[b0 b1] b2] pkts IH]; intros m v Hp [Hc Hr] Hroom Hl Hrt.
  - exists []. destruct v as [l r vx vy]; cbn in *. rewrite app_nil_r, <- Hl, <- Hrt, !Z.add_0_r. done.
  - pose proof (Forall_inv Hp) as H8. cbn in H8. cbn [length] in Hroom.
    destruct m as [c bs x y l r ev], v as [vl vr vx vy]; cbn in Hc, Hr, Hroom, Hl, Hrt; subst c vl vr.
    destruct (packet_events_fit (i8 b0) (i8 b1) (i8 b2) l r (i8_range b1) (i8_range b2)) as [Hf Hn].
    pose proof (push_all_queue _ ev Hr Hf ltac:(lia)) as Hq.
    change (run ((b0, b1, b2) :: pkts) ?m) with (run pkts (isr_packet b0 b1 b2 m)).
    rewrite isr_packet_eq by done.
    destruct (IH (Build_mouse 0 bs.[0 <- i8 b0].[1 <- i8 b1].[2 <- i8 b2] (Z.max 0 (i32 (x + i8 b1)))
      (Z.max 0 (i32 (y - i8 b2))) (has (i8 b0) 1) (has (i8 b0) 2) (push_all (packet_events (i8 b0) (i8 b1) (i8 b2) l r) ev))
      (Build_view (has (i8 b0) 1) (has (i8 b0) 2) (vx + i8 b1) (vy - i8 b2)))
      as (evs & Eq & Hrest & Ev); [exact (Forall_inv_tail Hp)|split; [done|by apply push_all_ok]| |done|done|].
    { cbn [events]. rewrite Hq, length_app. lia. }
    exists (packet_events (i8 b0) (i8 b1) (i8 b2) l r ++ evs). split_and!; [|done|].
    + rewrite Eq. cbn [events]. by rewrite Hq, app_assoc.
    + rewrite fold_left_app, packet_seen, Ev. cbn [v_dx v_dy moved_x moved_y fold_right]. f_equal; unfold moved_x, moved_y; lia.
Qed.

(** A byte lost from the line is made up for only when a first byte without
    its marker bit arrives: until then the packets are read shifted. *)
Example lost_byte_shifts :
  let m0 := Build_mouse 0 (fun _ => 0) 0 0 false false (empty (Build_input_event_t 0 0 0)) in
  let m := mouse_isr 0x21 0x09 (mouse_isr 0x21 0 (mouse_isr 0x21 0x08 m0)) in
  mouse_y m = 0 /\ mouse_y (mouse_isr 0x21 0xF7 (mouse_isr 0x21 0 (mouse_isr 0x21 0x08 m))) = 9.
Proof. vm_compute. split; reflexivity. Qed.

End Mouse.
