(* ===== verification/Touch.v ===== *)
(** * Multi-touch slots and gestures (src/src/drivers/input/touch.c, gesture.c)

    The slot table of the multi-touch protocol, the events a frame emits, and
    the gesture recogniser that reads the table after each frame. *)

From S2P Require Import Prelude Ring Input.

(** One goal for every element of a list. *)
Ltac each := repeat first [apply List.Forall_nil|apply List.Forall_cons].

Module Touch.

Definition TOUCH_MAX_SLOTS : Z := 10.
Definition TOUCH_MATRIX_SIZE : Z := 6.
Definition ABS_MT_SLOT : Z := 0x2F.
Definition ABS_MT_TOUCH_MAJOR : Z := 0x30.
Definition ABS_MT_POSITION_X : Z := 0x35.
Definition ABS_MT_POSITION_Y : Z := 0x36.
Definition ABS_MT_TRACKING_ID : Z := 0x39.
Definition ABS_MT_PRESSURE : Z := 0x3A.

Record touch_slot_t := {
  tracking_id : Z;
  sx : Z; sy : Z;
  pressure : Z;
  touch_major : Z; touch_minor : Z;
  orientation : Z;
  active : bool
}.
#[export] Instance eta_slot : Eta touch_slot_t := fun s =>
  Build_touch_slot_t (tracking_id s) (sx s) (sy s) (pressure s) (touch_major s) (touch_minor s)
    (orientation s) (active s).

Record touch := {
  tslots : Z -> touch_slot_t;
  prev_slots : Z -> touch_slot_t;
  calibration : Z -> Z;
  palm_threshold : Z;
  active_slots : Z;
  events : ring input_event_t
}.
#[export] Instance eta_touch : Eta touch := fun t =>
  Build_touch (tslots t) (prev_slots t) (calibration t) (palm_threshold t) (active_slots t) (events t).

Definition identity_cal : Z -> Z :=
  (fun _ => 0).[0 <- 65536].[1 <- 0].[2 <- 0].[3 <- 0].[4 <- 65536].[5 <- 0].

Definition apply_calibration (a : Z -> Z) (raw_x raw_y : Z) : Z * Z :=
  (Z.shiftr (i32 (a 0 * raw_x + a 1 * raw_y + a 2)) 16,
   Z.shiftr (i32 (a 3 * raw_x + a 4 * raw_y + a 5)) 16).

Definition empty_slot : touch_slot_t :=
  {| tracking_id := -1; sx := 0; sy := 0; pressure := 0; touch_major := 0; touch_minor := 0;
     orientation := 0; active := false |}.

Definition touch_init (t : touch) : touch :=
  t <| tslots := fun _ => empty_slot |> <| prev_slots := fun _ => empty_slot |>
    <| calibration := identity_cal |> <| active_slots := 0 |>.

Definition touch_set_calibration (cal : option (Z -> Z)) (t : touch) : touch :=
  match cal with
  | Some a => t <| calibration := for_loop (Z.to_nat TOUCH_MATRIX_SIZE) 0 (fun i c => c.[i <- a i]) (calibration t) |>
  | None => t
  end.

Definition touch_set_palm_threshold (major_threshold : Z) (t : touch) : touch :=
  t <| palm_threshold := major_threshold |>.

Definition touch_get_slot (slot : Z) (t : touch) : option touch_slot_t :=
  if TOUCH_MAX_SLOTS <=? slot then None else Some (tslots t slot).

Definition touch_active_count (t : touch) : Z := active_slots t.

Definition touch_report_slot (slot id raw_x raw_y press major minor : Z) (t : touch) : touch :=
  if TOUCH_MAX_SLOTS <=? slot then t
  else if (palm_threshold t <? major) && (0 <? palm_threshold t) then t
  else
    let '(cal_x, cal_y) := apply_calibration (calibration t) raw_x raw_y in
    t <| tslots := (tslots t).[slot <-
           {| tracking_id := id; sx := cal_x; sy := cal_y; pressure := press; touch_major := major;
              touch_minor := minor; orientation := orientation (tslots t slot); active := 0 <=? id |}] |>.

(** The events of slot [i] in a frame. *)
Definition slot_events (i : Z) (prev cur : touch_slot_t) : list input_event_t :=
  let abs c v := {| type := EV_ABS; code := c; value := v |} in
  if negb (active prev) && active cur then
    [abs ABS_MT_SLOT i; abs ABS_MT_TRACKING_ID (tracking_id cur); abs ABS_MT_POSITION_X (sx cur);
     abs ABS_MT_POSITION_Y (sy cur); abs ABS_MT_PRESSURE (pressure cur); abs ABS_MT_TOUCH_MAJOR (touch_major cur)]
  else if active prev && negb (active cur) then
    [abs ABS_MT_SLOT i; abs ABS_MT_TRACKING_ID (-1)]
  else if active cur then
    if negb (sx cur =? sx prev) || negb (sy cur =? sy prev) then
      [abs ABS_MT_SLOT i; abs ABS_MT_POSITION_X (sx cur); abs ABS_MT_POSITION_Y (sy cur)] ++
      (if negb (pressure cur =? pressure prev) then [abs ABS_MT_PRESSURE (pressure cur)] else [])
    else []
  else [].

Definition sync_slot (i : Z) (t : touch) : touch :=
  let cur := tslots t i in
  t <| active_slots := if active cur then u32 (active_slots t + 1) else active_slots t |>
    <| events := push_all (slot_events i (prev_slots t i) cur) (events t) |>
    <| prev_slots := (prev_slots t).[i <- cur] |>.

Definition touch_report_sync (t : touch) : touch :=
  let t := for_loop (Z.to_nat TOUCH_MAX_SLOTS) 0 sync_slot (t <| active_slots := 0 |>) in
  t <| events := evdev_push_event EV_SYN 0 0 (events t) |>.

(** *** A reader of the protocol

    It keeps the slot the last [ABS_MT_SLOT] selected and, for every slot,
    whether a contact is down and where. *)

Record contact := { down : bool; cx : Z; cy : Z }.
Record reader := { cur_slot : Z; contacts : Z -> contact }.

Definition read_event (r : reader) (e : input_event_t) : reader :=
  let '(Build_reader i c) := r in
  if negb (type e =? EV_ABS) then r
  else if code e =? ABS_MT_SLOT then Build_reader (value e) c
  else if code e =? ABS_MT_TRACKING_ID then
    Build_reader i c.[i <- {| down := 0 <=? value e; cx := cx (c i); cy := cy (c i) |}]
  else if code e =? ABS_MT_POSITION_X then
    Build_reader i c.[i <- {| down := down (c i); cx := value e; cy := cy (c i) |}]
  else if code e =? ABS_MT_POSITION_Y then
    Build_reader i c.[i <- {| down := down (c i); cx := cx (c i); cy := value e |}]
  else r.

(** The reader has slot [i] as [s] has it: down or up, and where while down. *)
Definition shows (c : contact) (s : touch_slot_t) : Prop :=
  down c = active s /\ (active s = true -> cx c = sx s /\ cy c = sy s).

Definition slot_fits (s : touch_slot_t) : Prop :=
  Forall (fun v => - 2 ^ 31 <= v < 2 ^ 31)
    [tracking_id s; sx s; sy s; pressure s; touch_major s] /\ active s = (0 <=? tracking_id s).

Definition touch_ok (t : touch) : Prop :=
  ring_ok EVDEV_RING_SIZE (events t) /\
  (forall i, slot_fits (tslots t i)) /\ (forall i, slot_fits (prev_slots t i)).

Lemma slot_events_fit i prev cur :
  0 <= i < TOUCH_MAX_SLOTS -> slot_fits cur ->
  Forall event_fits (slot_events i prev cur) /\ (length (slot_events i prev cur) <= 6)%nat.
Proof.
  intros Hi [Hc _]. unfold TOUCH_MAX_SLOTS in Hi. rewrite !Forall_cons_iff in Hc. destruct_and! Hc. unfold slot_events.
  repeat match goal with |- context [if ?b then _ else _] => destruct b end; cbn [length app];
    (split; [|lia]); each;
    unfold event_fits; cbn [type code value]; unfold EV_ABS, ABS_MT_SLOT, ABS_MT_TRACKING_ID, ABS_MT_POSITION_X,
      ABS_MT_POSITION_Y, ABS_MT_PRESSURE, ABS_MT_TOUCH_MAJOR; lia.
Qed.

Lemma slot_events_read i prev cur r :
  slot_fits cur -> shows (contacts r i) prev ->
  let r' := fold_left read_event (slot_events i prev cur) r in
  shows (contacts r' i) cur /\ forall j, j <> i -> contacts r' j = contacts r j.
Proof.
  intros [_ Ha] [Hd Hp]. destruct r as [k c]. cbn [contacts] in *. unfold slot_events.
  destruct (active prev) eqn:Ep, (active cur) eqn:Ec; cbn [negb andb].
  - destruct (negb (sx cur =? sx prev) || negb (sy cur =? sy prev)) eqn:Em.
    + destruct (negb (pressure cur =? pressure prev)); cbn;
        (split; [unfold shows; rewrite !upd_eq; cbn; by rewrite Ec|intros j Hj; by rewrite !upd_ne]).
    + cbn. unfold shows. rewrite Ec. split; [|done]. specialize (Hp eq_refl).
      split; [done|]. intros _. lia.
  - cbn. split; [|intros j Hj; by rewrite !upd_ne]. unfold shows. by rewrite upd_eq, Ec.
  - cbn. split; [|intros j Hj; by rewrite !upd_ne]. unfold shows. rewrite !upd_eq, Ec. cbn. by rewrite <- Ha.
  - cbn. unfold shows. by rewrite Ec.
Qed.

(** The slots synchronised so far are shown as they are, the others as they were. *)
Lemma sync_loop n t r :
  touch_ok t -> (forall i, shows (contacts r i) (prev_slots t i)) -> Z.of_nat n <= TOUCH_MAX_SLOTS ->
  Z.of_nat (length (queue (events t))) + 6 * TOUCH_MAX_SLOTS < EVDEV_RING_SIZE ->
  let t' := for_loop n 0 sync_slot t in
  tslots t' = tslots t /\ touch_ok t' /\
  (forall i, prev_slots t' i = if (0 <=? i) && (i <? Z.of_nat n) then tslots t i else prev_slots t i) /\
  exists evs, queue (events t') = queue (events t) ++ evs /\ (length evs <= 6 * n)%nat /\
    forall i, shows (contacts (fold_left read_event evs r) i) (prev_slots t' i).
Proof.
  intros Hok Hsh. induction n as [|n IH]; intros Hn Hroom; cbv zeta.
  { split_and!; [done|done|intros i; cbn; case_bool; lia||done|]. exists []. by rewrite app_nil_r. }
  rewrite for_loop_snoc, Z.add_0_l. destruct (IH ltac:(lia) Hroom) as (Et & (Hr & Hs & Hp) & Eprev & evs & Eq & Hlen & Hsh').
  set (t' := for_loop n 0 sync_slot t) in *. set (k := Z.of_nat n) in *.
  destruct (slot_events_fit k (prev_slots t' k) (tslots t' k) ltac:(lia) (Hs k)) as [Hf Hl].
  assert (Hq := push_all_queue _ (events t') Hr Hf). rewrite Eq, length_app in Hq. specialize (Hq ltac:(lia)).
  destruct (slot_events_read k (prev_slots t' k) (tslots t' k) (fold_left read_event evs r) (Hs k) (Hsh' k)) as [Hk Hne].
  split_and!; [done| | |].
  - split_and!; [by apply push_all_ok|done|]. intros i. cbn. destruct (Z.eq_dec i k) as [->|Hi];
      [by rewrite upd_eq|by rewrite upd_ne].
  - intros i. cbn. destruct (Z.eq_dec i k) as [->|Hi].
    + rewrite upd_eq, Et. case_bool; [done|lia].
    + rewrite upd_ne, Eprev by done. do 2 case_bool; done || lia.
  - exists (evs ++ slot_events k (prev_slots t' k) (tslots t' k)). split_and!.
    + cbn. by rewrite Hq, app_assoc.
    + rewrite length_app. lia.
    + intros i. rewrite fold_left_app. cbn. destruct (Z.eq_dec i k) as [->|Hi]; [by rewrite upd_eq|].
      by rewrite upd_ne, Hne.
Qed.


Fixpoint drain (fuel : nat) (q : ring input_event_t) (r : reader) : reader * ring input_event_t :=
  match fuel with
  | O => (r, q)
  | S fuel =>
      match evdev_pop_event q with
      | (Some e, q') => drain fuel q' (read_event r e)
      | (None, q') => (r, q')
      end
  end.

Lemma drain_all fuel q r :
  ring_ok EVDEV_RING_SIZE q -> (length (queue q) < fuel)%nat ->
  fst (drain fuel q r) = fold_left read_event (queue q) r /\
  ring_ok EVDEV_RING_SIZE (snd (drain fuel q r)) /\ queue (snd (drain fuel q r)) = [].
Proof.
  revert q r. induction fuel as [|fuel IH]; intros q r Hq Hn; [lia|]. cbn [drain].
  pose proof (fifo_take_ok (H := open_fifo EVDEV_RING_SIZE) q Hq) as H1.
  pose proof (fifo_take_first (H := open_fifo EVDEV_RING_SIZE) q Hq) as H2.
  pose proof (fifo_take_contents (H := open_fifo EVDEV_RING_SIZE) q Hq) as H3.
  cbn [fifo_take fifo_ok fifo_contents open_fifo] in H1, H2, H3. unfold evdev_pop_event, queue in *.
  destruct (pop EVDEV_RING_SIZE q) as [o q'] eqn:Ep. cbn [fst snd] in *.
  destruct (contents EVDEV_RING_SIZE q) as [|e es]; cbn in H2, H3, Hn; subst o; [done|].
  rewrite <- H3. apply IH; [done|]. rewrite H3. lia.
Qed.

(** The compositor's side: after each frame it drains the queue. *)
Inductive op :=
| Report (slot id raw_x raw_y press major minor : Z)
| Palm (threshold : Z)
| Frame.

Definition frame (fuel : nat) (t : touch) (r : reader) : touch * reader :=
  let t := touch_report_sync t in
  let '(r, q) := drain fuel (events t) r in (t <| events := q |>, r).

Definition step (o : op) (s : touch * reader) : touch * reader :=
  let '(t, r) := s in
  match o with
  | Report slot id raw_x raw_y press major minor => (touch_report_slot slot id raw_x raw_y press major minor t, r)
  | Palm threshold => (touch_set_palm_threshold threshold t, r)
  | Frame => frame 256 t r
  end.

Definition run (ops : list op) (s : touch * reader) : touch * reader := fold_left (fun s o => step o s) ops s.

Definition op_fits (o : op) : Prop :=
  match o with
  | Report slot id _ _ press major _ =>
      0 <= slot < 256 /\ Forall (fun v => - 2 ^ 31 <= v < 2 ^ 31) [id; press; major]
  | _ => True
  end.

Definition boot_touch : touch :=
  touch_init {| tslots := fun _ => empty_slot; prev_slots := fun _ => empty_slot; calibration := fun _ => 0;
    palm_threshold := 200; active_slots := 0; events := empty (Build_input_event_t 0 0 0) |}.

Definition new_reader : reader := {| cur_slot := 0; contacts := fun _ => {| down := false; cx := 0; cy := 0 |} |}.

Definition synced (s : touch * reader) : Prop :=
  touch_ok (fst s) /\ queue (events (fst s)) = [] /\
  (forall i, shows (contacts (snd s) i) (prev_slots (fst s) i)) /\
  (forall i, ~ 0 <= i < TOUCH_MAX_SLOTS -> tslots (fst s) i = prev_slots (fst s) i).

Lemma shifted_fits v : - 2 ^ 31 <= Z.shiftr (i32 v) 16 < 2 ^ 31.
Proof.
  rewrite Z.shiftr_div_pow2 by lia. unfold i32, swrap. change (2 ^ 32) with 4294967296. change (2 ^ 31) with 2147483648.
  change (2 ^ (32 - 1)) with 2147483648. change (2 ^ 16) with 65536.
  pose proof (Z.mod_pos_bound (v + 2147483648) 4294967296 ltac:(lia)) as Hm.
  set (w := (v + 2147483648) mod 4294967296 - 2147483648). 
  pose proof (Z.div_mod w 65536 ltac:(lia)). pose proof (Z.mod_pos_bound w 65536 ltac:(lia)). lia.
Qed.

Lemma report_synced slot id raw_x raw_y press major minor t r :
  op_fits (Report slot id raw_x raw_y press major minor) -> synced (t, r) ->
  synced (touch_report_slot slot id raw_x raw_y press major minor t, r).
Proof.
  intros [Hslot Hf] ((Hr & Hs & Hp) & Hq & Hsh & Hout). unfold touch_report_slot. cbn [apply_calibration].
  case_bool; [done|]. case_bool; [done|]. split_and!; [split_and!|..]; cbn; try done.
  - intros i. destruct (Z.eq_dec i slot) as [->|Hi]; [rewrite upd_eq|by rewrite upd_ne].
    rewrite !Forall_cons_iff in Hf. destruct_and! Hf. split; [|done]. cbn.
    each; apply shifted_fits || lia.
  - intros i Hi. rewrite upd_ne by lia. by apply Hout.
Qed.

Lemma set_events_twice t q q' : t <| events := q |> <| events := q' |> = t <| events := q' |>.
Proof. reflexivity. Qed.

Lemma set_events_synced t q r :
  ring_ok EVDEV_RING_SIZE q -> queue q = [] -> (forall i, slot_fits (tslots t i)) ->
  (forall i, prev_slots t i = tslots t i) -> (forall i, shows (contacts r i) (prev_slots t i)) ->
  synced (t <| events := q |>, r).
Proof.
  destruct t as [s p c th n e]. cbn [tslots prev_slots]. intros Hr Hq Hs Hall Hsh.
  split; [|split; [exact Hq|split; [exact Hsh|]]].
  - split; [exact Hr|]. split; intros i; [exact (Hs i)|]. change (slot_fits (p i)). by rewrite Hall.
  - intros i _. symmetry. exact (Hall i).
Qed.

(** After a frame every slot is shown to the reader. *)
Lemma frame_synced fuel t r :
  (61 < fuel)%nat -> synced (t, r) -> synced (frame fuel t r) /\
  (forall i, prev_slots (fst (frame fuel t r)) i = tslots (fst (frame fuel t r)) i).
Proof.
  intros Hfuel (Hok & Hq & Hsh & Hout). cbn [fst snd] in *.
  assert (Hok0 : touch_ok (t <| active_slots := 0 |>)) by exact Hok.
  destruct (sync_loop (Z.to_nat TOUCH_MAX_SLOTS) (t <| active_slots := 0 |>) r Hok0 Hsh) as
    (Et & (Hr & Hs & Hp) & Eprev & evs & Eq & Hlen & Hsh'); [done|change (events _) with (events t); rewrite Hq; done|].
  unfold frame, touch_report_sync. set (t' := for_loop _ _ _ _) in *.
  change (events (t <| active_slots := 0 |>)) with (events t) in Eq. rewrite Hq in Eq. cbn [app] in Eq.
  change (Z.of_nat (Z.to_nat TOUCH_MAX_SLOTS)) with TOUCH_MAX_SLOTS in Eprev.
  change (Z.to_nat TOUCH_MAX_SLOTS) with 10%nat in Hlen. clearbody t'.
  set (syn := Build_input_event_t EV_SYN 0 0).
  assert (Hq2 : queue (evdev_push_event EV_SYN 0 0 (events t')) = evs ++ [syn]).
  { rewrite push_event_queue, Eq by (done || (unfold event_fits, EV_SYN; cbn; lia) || (rewrite Eq; unfold EVDEV_RING_SIZE; lia)).
    done. }
  change (events (t' <| events := ?q |>)) with q.
  destruct (drain_all fuel (evdev_push_event EV_SYN 0 0 (events t')) r) as (Er & Hrq & Hqq);
    [by apply push_event_ok|rewrite Hq2, length_app; cbn [length]; lia|].
  destruct (drain fuel _ r) as [r' q]. cbn [fst snd] in *. rewrite Hq2, fold_left_app in Er.
  assert (Er' : contacts r' = contacts (fold_left read_event evs r)).
  { rewrite Er. cbn [fold_left]. by destruct (fold_left read_event evs r). }
  assert (Hall : forall i, prev_slots t' i = tslots t' i).
  { intros i. rewrite Eprev, Et. case_bool; [done|]. symmetry. apply Hout. lia. }
  rewrite set_events_twice. split; [|by destruct t']. apply set_events_synced; try done. by rewrite Er'.
Qed.

Lemma run_synced ops s : Forall op_fits ops -> synced s -> synced (run ops s).
Proof.
  revert s. induction ops as [|o ops IH]; intros [t r] Hf Hs; [done|].
  inversion Hf; subst. apply IH; [done|]. destruct o; [by apply report_synced|exact Hs|apply frame_synced; [lia|exact Hs]].
Qed.

Lemma boot_synced : synced (boot_touch, new_reader).
Proof.
  assert (Hs : slot_fits empty_slot) by (split; [each; cbn; lia|reflexivity]).
  split; [split; [repeat split; cbn; lia|split; intros i; exact Hs]|].
  split; [vm_compute; reflexivity|]. split; intros i; [split; [reflexivity|discriminate]|reflexivity].
Qed.

(** C35: After any sequence of contact reports ending in a frame, a process that
    follows the event queue has every contact of the driver's table, up or
    down, and where it is while it is down. *)
Theorem touch_frames_followed ops :
  Forall op_fits ops ->
  let '(t, r) := run (ops ++ [Frame]) (boot_touch, new_reader) in
  queue (events t) = [] /\ forall slot, shows (contacts r slot) (tslots t slot).
Proof.
  intros Hf. unfold run. rewrite fold_left_app. fold (run ops (boot_touch, new_reader)). cbn [fold_left].
  pose proof (run_synced ops _ Hf boot_synced) as Hs. destruct (run ops (boot_touch, new_reader)) as [t r].
  destruct (frame_synced 256 t r ltac:(lia) Hs) as [(_ & Hq & Hsh & _) Hall]. cbn [step]. destruct (frame 256 t r) as [t' r']. cbn [fst snd] in *.
  split; [done|]. intros slot. rewrite <- Hall. apply Hsh.
Qed.

Definition two_fingers : list op :=
  [Report 0 7 100 50 9 3 3; Frame; Report 0 7 120 50 9 3 3; Report 1 8 5 5 9 3 3].

Lemma touch_frames_followed_witness :
  let '(t, r) := run (two_fingers ++ [Frame]) (boot_touch, new_reader) in
  queue (events t) = [] /\ forall slot, shows (contacts r slot) (tslots t slot).
Proof.
  assert (Hf : Forall op_fits two_fingers) by (unfold two_fingers; each; cbn; try exact I; (split; [lia|each; lia])).
  exact (touch_frames_followed two_fingers Hf).
Defined.

(** With the identity calibration a raw coordinate of 32768 or more overflows
    the fixed-point product and comes out negative. *)
Example calibration_overflow : apply_calibration identity_cal 32767 32768 = (32767, -32768).
Proof. reflexivity. Qed.

(** A slot that passes from one contact to another within a frame keeps the
    old contact's tracking identifier in the event stream. *)
Example replaced_contact_unreported :
  map code (slot_events 0 (Build_touch_slot_t 7 10 10 1 1 1 0 true) (Build_touch_slot_t 8 90 90 1 1 1 0 true)) =
  [ABS_MT_SLOT; ABS_MT_POSITION_X; ABS_MT_POSITION_Y].
Proof. reflexivity. Qed.

End Touch.

(** ** Gestures (gesture.c) *)

Module Gesture.

Inductive gesture_type_t :=
| GESTURE_NONE | GESTURE_TAP | GESTURE_DOUBLE_TAP | GESTURE_LONG_PRESS
| GESTURE_SWIPE_UP | GESTURE_SWIPE_DOWN | GESTURE_SWIPE_LEFT | GESTURE_SWIPE_RIGHT
| GESTURE_PINCH_IN | GESTURE_PINCH_OUT | GESTURE_ROTATE | GESTURE_TWO_FINGER_SCROLL.

Definition gesture_code (g : gesture_type_t) : Z :=
  match g with
  | GESTURE_NONE => 0 | GESTURE_TAP => 1 | GESTURE_DOUBLE_TAP => 2 | GESTURE_LONG_PRESS => 3
  | GESTURE_SWIPE_UP => 4 | GESTURE_SWIPE_DOWN => 5 | GESTURE_SWIPE_LEFT => 6 | GESTURE_SWIPE_RIGHT => 7
  | GESTURE_PINCH_IN => 8 | GESTURE_PINCH_OUT => 9 | GESTURE_ROTATE => 10 | GESTURE_TWO_FINGER_SCROLL => 11
  end.

Inductive gesture_state_t := GSTATE_IDLE | GSTATE_POSSIBLE | GSTATE_RECOGNIZED | GSTATE_COMPLETED.

Record gesture_event_t := {
  gtype : gesture_type_t;
  gstate : gesture_state_t;
  gx : Z; gy : Z; gdx : Z; gdy : Z;
  scale : Z; angle : Z;
  finger_count : Z
}.

Record gesture_config_t := {
  tap_timeout_ms : Z;
  double_tap_gap_ms : Z;
  long_press_ms : Z;
  swipe_min_px : Z;
  swipe_max_ms : Z;
  pinch_min_px : Z;
  rotate_min_deg : Z
}.

Definition default_cfg : gesture_config_t :=
  {| tap_timeout_ms := 200; double_tap_gap_ms := 300; long_press_ms := 500; swipe_min_px := 50;
     swipe_max_ms := 400; pinch_min_px := 30; rotate_min_deg := 15 |}.

Record finger_state_t := {
  fdown : bool;
  down_tick : Z;
  start_x : Z; start_y : Z;
  last_x : Z; last_y : Z
}.
#[export] Instance eta_finger : Eta finger_state_t := fun f =>
  Build_finger_state_t (fdown f) (down_tick f) (start_x f) (start_y f) (last_x f) (last_y f).

Record gestures := {
  g_ring : ring gesture_event_t;
  g_cfg : gesture_config_t;
  fingers : Z -> finger_state_t;
  g_state : gesture_state_t;
  last_tap_tick : Z;
  last_tap_x : Z; last_tap_y : Z;
  gevents : ring input_event_t
}.
#[export] Instance eta_gestures : Eta gestures := fun g =>
  Build_gestures (g_ring g) (g_cfg g) (fingers g) (g_state g) (last_tap_tick g) (last_tap_x g) (last_tap_y g) (gevents g).

Definition EV_GESTURE : Z := 6.
Definition GESTURE_RING_SIZE : Z := 32.

Definition ms_to_ticks (ms : Z) : Z := u32 (ms + 9) / 10.

Definition abs_i32 (x : Z) : Z := if x <? 0 then i32 (- x) else x.

Fixpoint isqrt_loop (fuel : nat) (v x y : Z) : option Z :=
  match fuel with
  | O => None
  | S fuel => if y <? x then isqrt_loop fuel v y (Z.quot (i32 (Z.quot v y + y)) 2) else Some x
  end.

Definition ISQRT_FUEL : nat := 32.

Definition isqrt (v : Z) : option Z :=
  if v <=? 0 then Some 0 else isqrt_loop ISQRT_FUEL v v (Z.quot (i32 (v + 1)) 2).

(** The length of a vector, as the code computes it. *)
Definition dist (dx dy : Z) : option Z := isqrt (i32 (dx * dx + dy * dy)).

Definition push_gesture (t : gesture_type_t) (x y dx dy sc an n : Z) (g : gestures) : gestures :=
  let ev := {| gtype := t; gstate := GSTATE_RECOGNIZED; gx := x; gy := y; gdx := dx; gdy := dy;
               scale := sc; angle := an; finger_count := n |} in
  g <| g_ring := snd (push GESTURE_RING_SIZE ev (g_ring g)) |>
    <| gevents := evdev_push_event EV_GESTURE (gesture_code t) n (gevents g) |>.

Definition zero_finger : finger_state_t := Build_finger_state_t false 0 0 0 0 0.

Definition gesture_init (g : gestures) : gestures :=
  g <| fingers := fun _ => zero_finger |> <| g_state := GSTATE_IDLE |>
    <| g_ring := {| slots := slots (g_ring g); wr := 0; rd := 0 |} |>.

Definition gesture_set_config (cfg : option gesture_config_t) (g : gestures) : gestures :=
  match cfg with Some c => g <| g_cfg := c |> | None => g end.

Definition swipe_of (dx dy : Z) : gesture_type_t :=
  if abs_i32 dy <? abs_i32 dx then (if 0 <? dx then GESTURE_SWIPE_RIGHT else GESTURE_SWIPE_LEFT)
  else if 0 <? dy then GESTURE_SWIPE_DOWN else GESTURE_SWIPE_UP.

(** The gestures of a single finger that is lifted. *)
Definition lifted (now d dx dy : Z) (f : finger_state_t) (g : gestures) : gestures :=
  let duration := u64 (now - down_tick f) in
  let cfg := g_cfg g in
  if (duration <=? ms_to_ticks (tap_timeout_ms cfg)) && (d <? 10) then
    if (u64 (now - last_tap_tick g) <=? ms_to_ticks (double_tap_gap_ms cfg)) &&
       (abs_i32 (i32 (start_x f - last_tap_x g)) <? 30) && (abs_i32 (i32 (start_y f - last_tap_y g)) <? 30) then
      push_gesture GESTURE_DOUBLE_TAP (start_x f) (start_y f) 0 0 256 0 1 g <| last_tap_tick := 0 |>
    else
      push_gesture GESTURE_TAP (start_x f) (start_y f) 0 0 256 0 1 g
        <| last_tap_tick := now |> <| last_tap_x := start_x f |> <| last_tap_y := start_y f |>
  else if (ms_to_ticks (long_press_ms cfg) <=? duration) && (d <? 10) then
    push_gesture GESTURE_LONG_PRESS (start_x f) (start_y f) 0 0 256 0 1 g
  else if (swipe_min_px cfg <=? d) && (duration <=? ms_to_ticks (swipe_max_ms cfg)) then
    push_gesture (swipe_of dx dy) (start_x f) (start_y f) dx dy 256 0 1 g
  else g.

Definition finger_step (now active_n i : Z) (slot : Touch.touch_slot_t) (g : gestures) : option gestures :=
  let f := fingers g i in
  if Touch.active slot && negb (fdown f) then
    Some (g <| fingers := (fingers g).[i <- Build_finger_state_t true now (Touch.sx slot) (Touch.sy slot)
                                              (Touch.sx slot) (Touch.sy slot)] |>)
  else if Touch.active slot && fdown f then
    Some (g <| fingers := (fingers g).[i <- f <| last_x := Touch.sx slot |> <| last_y := Touch.sy slot |>] |>)
  else if negb (Touch.active slot) && fdown f then
    let dx := i32 (last_x f - start_x f) in
    let dy := i32 (last_y f - start_y f) in
    match dist dx dy with
    | None => None
    | Some d =>
        let g := if active_n <=? 1 then lifted now d dx dy f g else g in
        Some (g <| fingers := (fingers g).[i <- f <| fdown := false |>] |>)
    end
  else Some g.

Fixpoint fingers_loop (n : nat) (i now : Z) (t : Touch.touch) (g : gestures) : option gestures :=
  match n with
  | O => Some g
  | S n =>
      match Touch.touch_get_slot i t with
      | None => fingers_loop n (i + 1) now t g
      | Some slot =>
          match finger_step now (Touch.touch_active_count t) i slot g with
          | Some g => fingers_loop n (i + 1) now t g
          | None => None
          end
      end
  end.

(** The indices of the first two fingers down. *)
Definition two_down (g : gestures) : option (Z * Z) :=
  match List.filter (fun i => fdown (fingers g i)) (map Z.of_nat (List.seq 0 10)) with
  | f0 :: f1 :: _ => Some (f0, f1)
  | _ => None
  end.

Definition pinch (f0 f1 : finger_state_t) (cur start : Z) (g : gestures) : gestures :=
  if 0 <? start then
    let change := i32 (cur - start) in
    if pinch_min_px (g_cfg g) <? abs_i32 change then
      push_gesture (if 0 <? change then GESTURE_PINCH_OUT else GESTURE_PINCH_IN)
        (Z.quot (i32 (last_x f0 + last_x f1)) 2) (Z.quot (i32 (last_y f0 + last_y f1)) 2) 0 0
        (Z.quot (i32 (cur * 256)) start) 0 2 g
    else g
  else g.

Definition scroll (f0 f1 : finger_state_t) (g : gestures) : gestures :=
  let avg_dy := Z.quot (i32 ((last_y f0 - start_y f0) + (last_y f1 - start_y f1))) 2 in
  let avg_dx := Z.quot (i32 ((last_x f0 - start_x f0) + (last_x f1 - start_x f1))) 2 in
  if (20 <? abs_i32 avg_dy) || (20 <? abs_i32 avg_dx) then
    push_gesture GESTURE_TWO_FINGER_SCROLL
      (Z.quot (i32 (last_x f0 + last_x f1)) 2) (Z.quot (i32 (last_y f0 + last_y f1)) 2) avg_dx avg_dy 256 0 2 g
  else g.

Definition two_fingers (g : gestures) : option gestures :=
  match two_down g with
  | None => Some g
  | Some (i0, i1) =>
      let f0 := fingers g i0 in
      let f1 := fingers g i1 in
      match dist (i32 (last_x f1 - last_x f0)) (i32 (last_y f1 - last_y f0)),
            dist (i32 (start_x f1 - start_x f0)) (i32 (start_y f1 - start_y f0)) with
      | Some cur, Some start => Some (scroll f0 f1 (pinch f0 f1 cur start g))
      | _, _ => None
      end
  end.

(** [None]: the square root did not finish. *)
Definition gesture_process_frame (now : Z) (t : Touch.touch) (g : gestures) : option gestures :=
  match fingers_loop 10 0 now t g with
  | None => None
  | Some g => if Touch.touch_active_count t =? 2 then two_fingers g else Some g
  end.

Definition gesture_pop_event (g : gestures) : option gesture_event_t * gestures :=
  let '(e, r) := pop GESTURE_RING_SIZE (g_ring g) in (e, g <| g_ring := r |>).

(** *** The square root *)

Lemma newton_next v x :
  0 < v < 2 ^ 31 - 1 -> 0 < x <= v ->
  Z.quot (i32 (Z.quot v x + x)) 2 = (v / x + x) / 2.
Proof.
  intros Hv Hx. pose proof (Z.div_pos v x ltac:(lia) ltac:(lia)).
  rewrite (Z.quot_div_nonneg v x), (swrap_small 32) by (try lia; pose proof (Z.mul_div_le v x ltac:(lia)); nia).
  apply Z.quot_div_nonneg; lia.
Qed.

Lemma newton_bounds v x :
  0 < v -> Z.sqrt v <= x -> 0 < x ->
  Z.sqrt v <= (v / x + x) / 2 /\ (Z.sqrt v < x -> (v / x + x) / 2 - Z.sqrt v <= (x - Z.sqrt v) / 2) /\
  (x <= (v / x + x) / 2 -> x = Z.sqrt v).
Proof.
  intros Hv Hsx Hx. pose proof (Z.sqrt_spec v ltac:(lia)) as Hs. set (s := Z.sqrt v) in *. cbn zeta in Hs.
  pose proof (Z.sqrt_nonneg v) as Hs0. fold s in Hs0.
  pose proof (Z.mul_div_le v x Hx) as Hd1. pose proof (Z.mul_succ_div_gt v x Hx) as Hd2.
  split_and!.
  - apply Z.div_le_lower_bound; [lia|]. nia.
  - intros Hlt. assert (Hq : v / x <= s) by nia.
    replace ((x - s) / 2) with ((s + x + (- s) * 2) / 2) by (f_equal; lia). rewrite Z.div_add by lia.
    assert ((v / x + x) / 2 <= (s + x) / 2) by (apply Z.div_le_mono; lia). lia.
  - intros Hge. pose proof (Z.mul_div_le (v / x + x) 2 ltac:(lia)). assert (x <= v / x) by lia.
    assert (x * x <= v) by nia. nia.
Qed.

Lemma isqrt_loop_ok fuel v x :
  0 < v < 2 ^ 31 - 1 -> Z.sqrt v <= x <= v -> 0 < x -> x - Z.sqrt v < 2 ^ Z.of_nat fuel ->
  isqrt_loop (S fuel) v x ((v / x + x) / 2) = Some (Z.sqrt v).
Proof.
  intros Hv. revert x. induction fuel as [|fuel IH]; intros x Hx Hx0 Hd;
    destruct (newton_bounds v x ltac:(lia) ltac:(lia) Hx0) as (Hlo & Hhalf & Hend); cbn [isqrt_loop].
  - assert (Hxs : x = Z.sqrt v) by (change (2 ^ Z.of_nat 0) with 1 in Hd; lia). case_bool; [lia|]. by rewrite <- Hxs.
  - case_bool; [|rewrite <- Hend by lia; done].
    pose proof (Z.sqrt_pos v) as Hpos.
    rewrite newton_next by lia. apply IH; [lia|lia|].
    assert (Hlt : Z.sqrt v < x) by lia. specialize (Hhalf Hlt). rewrite Nat2Z.inj_succ, Z.pow_succ_r in Hd by lia.
    assert ((x - Z.sqrt v) / 2 < 2 ^ Z.of_nat fuel) by (apply Z.div_lt_upper_bound; lia). lia.
Qed.

Lemma isqrt_eq v : v < 2 ^ 31 - 1 -> isqrt v = Some (Z.sqrt v).
Proof.
  intros Hv. unfold isqrt. case_bool.
  - destruct (Z.eq_dec v 0) as [->|]; [done|by rewrite Z.sqrt_neg by lia].
  - replace (Z.quot (i32 (v + 1)) 2) with ((v / v + v) / 2).
    + pose proof (Z.sqrt_le_lin v ltac:(lia)). pose proof (Z.sqrt_nonneg v).
      apply isqrt_loop_ok; [lia|lia|lia|]. change (2 ^ Z.of_nat 31) with (2 ^ 31). lia.
    + rewrite Z.div_same, (swrap_small 32), Z.quot_div_nonneg by lia. f_equal. lia.
Qed.

(** A distance whose square overflows reads as zero: a fast stroke across a
    large surface is a tap. *)
Example long_stroke_is_short : dist 65536 0 = Some 0 /\ dist 40000 30000 = Some 0.
Proof. split; vm_compute; reflexivity. Qed.

(** *** Every frame is processed *)

(** No sum of squares of 32-bit differences is the one value the square root
    does not handle. *)
Lemma square_mod4 z : (z * z) mod 4 = 0 \/ (z * z) mod 4 = 1.
Proof.
  rewrite Z.mul_mod by lia. pose proof (Z.mod_pos_bound z 4 ltac:(lia)).
  assert (z mod 4 = 0 \/ z mod 4 = 1 \/ z mod 4 = 2 \/ z mod 4 = 3) as [->|[->|[->| ->]]] by lia; cbn; auto.
Qed.

Lemma dist_some dx dy : exists d, dist dx dy = Some d.
Proof.
  unfold dist. set (v := i32 (dx * dx + dy * dy)).
  assert (Hv : v mod 4 <> 3).
  { unfold v, i32, swrap. change (2 ^ (32 - 1)) with 2147483648. change (2 ^ 32) with 4294967296.
    set (n := dx * dx + dy * dy).
    replace (((n + 2147483648) mod 4294967296 - 2147483648) mod 4) with (n mod 4).
    - unfold n. rewrite Z.add_mod by lia.
      destruct (square_mod4 dx) as [->| ->], (square_mod4 dy) as [->| ->]; discriminate.
    - pose proof (Z.div_mod (n + 2147483648) 4294967296 ltac:(lia)) as E.
      replace n with ((n + 2147483648) mod 4294967296 - 2147483648 + ((n + 2147483648) / 4294967296 * 1073741824) * 4) at 1 by lia.
      by rewrite Z.mod_add by lia. }
  assert (Hr : v < 2 ^ 31).
  { unfold v, i32, swrap. change (2 ^ (32 - 1)) with (2 ^ 31).
    pose proof (Z.mod_pos_bound (dx * dx + dy * dy + 2 ^ 31) (2 ^ 32) ltac:(lia)). lia. }
  destruct (Z.eq_dec v (2 ^ 31 - 1)) as [->|]; [by vm_compute in Hv|].
  exists (Z.sqrt v). apply isqrt_eq. lia.
Qed.

Lemma finger_step_some now n i slot g : exists g', finger_step now n i slot g = Some g'.
Proof.
  unfold finger_step. destruct (Touch.active slot), (fdown (fingers g i)); cbn [negb andb]; eauto.
  edestruct dist_some as [d ->]. eauto.
Qed.

(** The square root of the gesture recogniser ends within 32 rounds, is the
    exact floor of the root, and so every touch frame is processed to the
    end, whatever the contacts. *)
Theorem frame_processed :
  (forall v, v < 2 ^ 31 - 1 -> isqrt v = Some (Z.sqrt v)) /\
  (forall now t g, exists g', gesture_process_frame now t g = Some g').
Proof.
  split; [exact isqrt_eq|]. intros now t g. unfold gesture_process_frame.
  assert (Hl : forall n i g, exists g', fingers_loop n i now t g = Some g').
  { induction n as [|n IH]; intros i g0; cbn [fingers_loop]; [eauto|].
    destruct (Touch.touch_get_slot i t) as [slot|]; [|apply IH].
    destruct (finger_step_some now (Touch.touch_active_count t) i slot g0) as [g1 ->]. apply IH. }
  destruct (Hl 10%nat 0 g) as [g' ->]. case_bool; [|eauto]. unfold two_fingers.
  destruct (two_down g') as [[i0 i1]|]; [|eauto].
  edestruct dist_some as [d0 ->]. edestruct dist_some as [d1 ->]. eauto.
Qed.

End Gesture.
