(* ===== verification/Vtty.v ===== *)
(** * Virtual consoles (src/src/os/dev/vtty.c) and the device files over them (src/src/os/dev/devfs.c)

    Six terminals with a screen, a scrollback and an input ring each.  A write
    outside an array is [None].  Drawing to the framebuffer is left out. *)

From S2P Require Import Prelude Ring Cstr Input.
Import Cstr.

Module Vtty.

Definition VTTY_COUNT : Z := 6.
Definition VTTY_COLS : Z := 80.
Definition VTTY_ROWS : Z := 25.
Definition VTTY_SCROLLBACK : Z := 200.
Definition VTTY_INPUT_RING : Z := 512.

(** A row is its 80 bytes; copies and fills are of whole rows. *)
Definition row : Type := Z -> Z.

Record vtty_t := {
  screen : Z -> row;
  attrib : Z -> row;
  cursor_col : Z;
  cursor_row : Z;
  scrollback : Z -> row;
  scroll_lines : Z;
  scroll_view : Z;
  input : ring Z;
  active : bool;
  escape_seq : bool;
  esc_buf : Z -> Z;
  esc_len : Z;
  fg : Z;
  bg : Z
}.
#[export] Instance eta_vtty : Eta vtty_t := fun v =>
  Build_vtty_t (screen v) (attrib v) (cursor_col v) (cursor_row v) (scrollback v) (scroll_lines v)
    (scroll_view v) (input v) (active v) (escape_seq v) (esc_buf v) (esc_len v) (fg v) (bg v).

Record vttys := { g_vttys : Z -> vtty_t; g_active_vtty : Z }.

Definition blank : row := fun _ => 32.
Definition plain : row := fun _ => 0x07.

Definition in_screen (r c : Z) : bool := (0 <=? r) && (r <? VTTY_ROWS) && (0 <=? c) && (c <? VTTY_COLS).

(** The attribute byte of the current colours. *)
Definition attr (v : vtty_t) : Z := u8 (Z.lor (Z.shiftl (bg v) 4) (fg v)).

Definition put_cell (c : Z) (v : vtty_t) : option vtty_t :=
  let r := cursor_row v in
  let k := cursor_col v in
  if in_screen r k then
    Some (v <| screen := (screen v).[r <- (screen v r).[k <- c]] |>
            <| attrib := (attrib v).[r <- (attrib v r).[k <- attr v]] |>)
  else None.

Definition vtty_scroll_up_internal (v : vtty_t) : option vtty_t :=
  if (scroll_lines v <? 0) || (VTTY_SCROLLBACK <? scroll_lines v) then None
  else
    let v :=
      if scroll_lines v <? VTTY_SCROLLBACK then
        v <| scrollback := (scrollback v).[scroll_lines v <- screen v 0] |>
          <| scroll_lines := scroll_lines v + 1 |>
      else
        let sb := for_loop (Z.to_nat (VTTY_SCROLLBACK - 1)) 0 (fun i s => s.[i <- s (i + 1)]) (scrollback v) in
        v <| scrollback := sb.[VTTY_SCROLLBACK - 1 <- screen v 0] |> in
    let up (a : Z -> row) := for_loop (Z.to_nat (VTTY_ROWS - 1)) 0 (fun r s => s.[r <- s (r + 1)]) a in
    Some (v <| screen := (up (screen v)).[VTTY_ROWS - 1 <- blank] |>
            <| attrib := (up (attrib v)).[VTTY_ROWS - 1 <- plain] |>).

Definition vtty_clear (v : vtty_t) : vtty_t :=
  v <| screen := for_loop (Z.to_nat VTTY_ROWS) 0 (fun r s => s.[r <- blank]) (screen v) |>
    <| attrib := for_loop (Z.to_nat VTTY_ROWS) 0 (fun r s => s.[r <- plain]) (attrib v) |>
    <| cursor_row := 0 |> <| cursor_col := 0 |>.

(** The number written in the escape buffer, other bytes skipped. *)
Definition esc_number (v : vtty_t) : Z :=
  for_loop (Z.to_nat (esc_len v - 2)) 1 (fun i n =>
    if (48 <=? esc_buf v i) && (esc_buf v i <=? 57) then i32 (n * 10 + (esc_buf v i - 48)) else n) 0.

Definition set_colour (n : Z) (v : vtty_t) : vtty_t :=
  if n =? 0 then v <| fg := 7 |> <| bg := 0 |>
  else if (30 <=? n) && (n <=? 37) then v <| fg := u8 (n - 30) |>
  else if (40 <=? n) && (n <=? 47) then v <| bg := u8 (n - 40) |>
  else if (90 <=? n) && (n <=? 97) then v <| fg := u8 (n - 90 + 8) |>
  else if n =? 1 then v <| fg := Z.lor (fg v) 8 |>
  else v.

Definition escape_end (c : Z) (v : vtty_t) : vtty_t :=
  if (c =? 72) && (esc_len v =? 2) then v <| cursor_row := 0 |> <| cursor_col := 0 |>
  else if (c =? 74) && (2 <=? esc_len v) && (esc_buf v 0 =? 91) then vtty_clear v
  else if c =? 109 then set_colour (esc_number v) v
  else if c =? 65 then if 0 <? cursor_row v then v <| cursor_row := cursor_row v - 1 |> else v
  else if c =? 66 then if cursor_row v <? VTTY_ROWS - 1 then v <| cursor_row := cursor_row v + 1 |> else v
  else if c =? 67 then if cursor_col v <? VTTY_COLS - 1 then v <| cursor_col := cursor_col v + 1 |> else v
  else if c =? 68 then if 0 <? cursor_col v then v <| cursor_col := cursor_col v - 1 |> else v
  else v.

Definition vtty_handle_escape (c : Z) (v : vtty_t) : option vtty_t :=
  if esc_len v <? 0 then None
  else
    let v := if esc_len v <? 15 then v <| esc_buf := (esc_buf v).[esc_len v <- c] |> <| esc_len := esc_len v + 1 |> else v in
    if (64 <=? c) && (c <=? 126) then
      Some ((escape_end c (v <| escape_seq := false |>)) <| esc_len := 0 |>)
    else Some v.

(** The cursor past the last row scrolls the screen. *)
Definition handle_scroll (v : vtty_t) : option vtty_t :=
  if VTTY_ROWS <=? cursor_row v then
    match vtty_scroll_up_internal v with
    | Some v => Some (v <| cursor_row := VTTY_ROWS - 1 |>)
    | None => None
    end
  else Some v.

Definition wrap_col (v : vtty_t) : vtty_t :=
  if VTTY_COLS <=? cursor_col v then v <| cursor_col := 0 |> <| cursor_row := cursor_row v + 1 |> else v.

(** [vtty_write_char] on one terminal; [c] is a signed byte. *)
Definition write_char (c : Z) (v : vtty_t) : option vtty_t :=
  if escape_seq v then vtty_handle_escape c v
  else if c =? 27 then Some (v <| escape_seq := true |> <| esc_len := 0 |>)
  else if c =? 10 then handle_scroll (v <| cursor_row := cursor_row v + 1 |> <| cursor_col := 0 |>)
  else if c =? 13 then handle_scroll (v <| cursor_col := 0 |>)
  else if c =? 8 then
    if 0 <? cursor_col v then put_cell 32 (v <| cursor_col := cursor_col v - 1 |>) else Some v
  else if c =? 9 then
    handle_scroll (wrap_col (v <| cursor_col := Z.land (cursor_col v + 8) (Z.lnot 7) |>))
  else if 32 <=? c then
    match put_cell (u8 c) v with
    | Some v => handle_scroll (wrap_col (v <| cursor_col := cursor_col v + 1 |>))
    | None => None
    end
  else handle_scroll v.

Definition valid_id (id : Z) : bool := (0 <=? id) && (id <? VTTY_COUNT).

(** Applying an operation to terminal [id] of the table. *)
Definition on (id : Z) (f : vtty_t -> option vtty_t) (s : vttys) : option vttys :=
  match f (g_vttys s id) with
  | Some v => Some {| g_vttys := (g_vttys s).[id <- v]; g_active_vtty := g_active_vtty s |}
  | None => None
  end.

Definition vtty_write_char (id c : Z) (s : vttys) : option vttys :=
  if valid_id id then on id (write_char c) s else Some s.

Fixpoint vtty_write (id : Z) (cs : list Z) (s : vttys) : option vttys :=
  match cs with
  | [] => Some s
  | c :: cs => match vtty_write_char id c s with Some s => vtty_write id cs s | None => None end
  end.

Definition vtty_input_char (id c : Z) (s : vttys) : option vttys :=
  if valid_id id then on id (fun v => Some (v <| input := snd (push VTTY_INPUT_RING c (input v)) |>)) s else Some s.

(** [-1] when there is no such terminal or nothing to read. *)
Definition vtty_read_char (id : Z) (s : vttys) : Z * vttys :=
  if valid_id id then
    let v := g_vttys s id in
    match pop VTTY_INPUT_RING (input v) with
    | (Some c, r) => (c, {| g_vttys := (g_vttys s).[id <- v <| input := r |>]; g_active_vtty := g_active_vtty s |})
    | (None, _) => (-1, s)
    end
  else (-1, s).

Definition vtty_switch (id : Z) (s : vttys) : vttys :=
  if valid_id id then {| g_vttys := g_vttys s; g_active_vtty := id |} else s.

Definition vtty_active (s : vttys) : Z := g_active_vtty s.

Fixpoint scroll_times (n : nat) (v : vtty_t) : option vtty_t :=
  match n with
  | O => Some v
  | S n => match vtty_scroll_up_internal v with Some v => scroll_times n v | None => None end
  end.

Definition vtty_scroll_up (id n : Z) (s : vttys) : option vttys :=
  if valid_id id then on id (scroll_times (Z.to_nat n)) s else Some s.

(** No check of [id]: outside the table the access is out of bounds. *)
Definition vtty_scroll_down (id n : Z) (s : vttys) : option vttys :=
  if valid_id id then
    on id (fun v => let w := i32 (scroll_view v - n) in Some (v <| scroll_view := if w <? 0 then 0 else w |>)) s
  else None.

Definition vtty_clear_id (id : Z) (s : vttys) : option vttys :=
  if valid_id id then on id (fun v => Some (vtty_clear v)) s else Some s.

Definition vtty_get (id : Z) (s : vttys) : option vtty_t :=
  if valid_id id then Some (g_vttys s id) else None.

Definition zero_vtty : vtty_t :=
  {| screen := fun _ _ => 0; attrib := fun _ _ => 0; cursor_col := 0; cursor_row := 0;
     scrollback := fun _ _ => 0; scroll_lines := 0; scroll_view := 0; input := empty 0; active := false;
     escape_seq := false; esc_buf := fun _ => 0; esc_len := 0; fg := 0; bg := 0 |}.

Definition init_vtty : vtty_t :=
  vtty_clear (zero_vtty <| active := true |> <| fg := 7 |> <| bg := 0 |>).

(** The bytes of the greeting as [char]s: the dash is three negative bytes. *)
Definition welcome : list Z :=
  [89; 97; 109; 79; 83; 32; 86; 105; 114; 116; 117; 97; 108; 32; 67; 111; 110; 115; 111; 108; 101; 32;
   -30; -128; -108; 32; 116; 121; 112; 101; 32; 39; 104; 101; 108; 112; 39; 32; 102; 111; 114; 32;
   99; 111; 109; 109; 97; 110; 100; 115; 10].

Fixpoint welcome_all (n : nat) (id : Z) (s : vttys) : option vttys :=
  match n with
  | O => Some s
  | S n => match vtty_write id welcome s with Some s => welcome_all n (id + 1) s | None => None end
  end.

Definition vtty_init : option vttys :=
  welcome_all (Z.to_nat VTTY_COUNT) 0
    {| g_vttys := for_loop (Z.to_nat VTTY_COUNT) 0 (fun i t => t.[i <- init_vtty]) (fun _ => zero_vtty);
       g_active_vtty := 0 |}.


(** *** Accesses stay in bounds *)

Definition vtty_ok (v : vtty_t) : Prop :=
  0 <= cursor_col v < VTTY_COLS /\ 0 <= cursor_row v < VTTY_ROWS /\
  0 <= scroll_lines v <= VTTY_SCROLLBACK /\ 0 <= scroll_view v < 2 ^ 31 /\
  0 <= esc_len v <= 15 /\ ring_ok VTTY_INPUT_RING (input v) /\ 0 <= fg v < 16 /\ 0 <= bg v < 16.

Definition sys_ok (s : vttys) : Prop :=
  (forall id, valid_id id = true -> vtty_ok (g_vttys s id)) /\ valid_id (g_active_vtty s) = true.

(** An operation on one terminal that stays in bounds and keeps the terminal sound. *)
Definition safe (f : vtty_t -> option vtty_t) : Prop :=
  forall v, vtty_ok v -> exists v', f v = Some v' /\ vtty_ok v'.

Ltac vtty_solve := unfold vtty_ok; split_and!; cbn -[Z.lor Z.land] in *; try assumption; lia.

Lemma scroll_up_ok v : vtty_ok v -> exists v', vtty_scroll_up_internal v = Some v' /\ vtty_ok v'.
Proof.
  intros Hv. unfold vtty_ok in Hv. destruct_and! Hv. unfold vtty_scroll_up_internal. case_bool; [lia|].
  eexists. split; [done|]. case_bool; vtty_solve.
Qed.

(** The scroll only needs a sound number of saved lines. *)
Lemma handle_scroll_ok v :
  0 <= cursor_row v <= VTTY_ROWS -> vtty_ok (v <| cursor_row := 0 |>) ->
  exists v', handle_scroll v = Some v' /\ vtty_ok v'.
Proof.
  intros Hr Hv. unfold handle_scroll. case_bool.
  - destruct (scroll_up_ok (v <| cursor_row := 0 |>) Hv) as (w & E & Hw).
    unfold vtty_ok in Hv; cbn in Hv. destruct_and! Hv. unfold vtty_scroll_up_internal.
    case_bool; [lia|]. eexists. split; [done|]. case_bool; vtty_solve.
  - eexists. split; [done|]. unfold vtty_ok in Hv; cbn in Hv. destruct_and! Hv. vtty_solve.
Qed.

Lemma put_cell_ok c v : vtty_ok v -> exists v', put_cell c v = Some v' /\ vtty_ok v' /\
  cursor_col v' = cursor_col v /\ cursor_row v' = cursor_row v.
Proof.
  intros Hv. unfold put_cell, in_screen. unfold vtty_ok in Hv. destruct_and! Hv.
  rewrite !(proj2 (Z.leb_le _ _)), !(proj2 (Z.ltb_lt _ _)) by lia. eexists. split_and!; [done|vtty_solve|done|done].
Qed.

Lemma lor_8_small z : 0 <= z < 16 -> 0 <= Z.lor z 8 < 16.
Proof.
  intros Hz. assert (E : z = 0 \/ z = 1 \/ z = 2 \/ z = 3 \/ z = 4 \/ z = 5 \/ z = 6 \/ z = 7 \/ z = 8 \/ z = 9 \/
    z = 10 \/ z = 11 \/ z = 12 \/ z = 13 \/ z = 14 \/ z = 15) by lia.
  destruct_or! E; subst z; (split; [discriminate|reflexivity]).
Qed.

Lemma handle_escape_ok c : safe (vtty_handle_escape c).
Proof.
  intros v Hv. unfold vtty_ok in Hv. destruct_and! Hv. unfold vtty_handle_escape. case_bool; [lia|].
  set (v1 := if esc_len v <? 15 then _ else v).
  assert (Hv1 : vtty_ok v1) by (unfold v1; case_bool; vtty_solve).
  case_bool; [|eauto]. eexists. split; [done|].
  assert (Hv2 : vtty_ok (escape_end c (v1 <| escape_seq := false |>))).
  { clearbody v1. clear - Hv1. unfold vtty_ok in Hv1. destruct_and! Hv1. unfold escape_end, set_colour.
    repeat match goal with |- vtty_ok (if ?b then _ else _) => destruct b eqn:? end; cbn in *;
      try (vtty_solve); try (rewrite (wrap_small 8) by lia; vtty_solve).
    pose proof (lor_8_small (fg v1) ltac:(lia)). vtty_solve. }
  set (w := escape_end c _) in *. clearbody w. clear - Hv2. unfold vtty_ok in Hv2. destruct_and! Hv2. vtty_solve.
Qed.

Lemma tab_stop k : 0 <= k < VTTY_COLS -> 0 <= Z.land (k + 8) (Z.lnot 7) <= VTTY_COLS.
Proof.
  intros Hk. change (Z.lnot 7) with (Z.lnot (Z.ones 3)). rewrite <- Z.ldiff_land, Z.ldiff_ones_r by lia.
  rewrite Z.shiftl_mul_pow2, Z.shiftr_div_pow2 by lia. change (2 ^ 3) with 8. unfold VTTY_COLS in *.
  pose proof (Z.div_mod (k + 8) 8 ltac:(lia)). pose proof (Z.mod_pos_bound (k + 8) 8 ltac:(lia)). lia.
Qed.

Lemma write_char_ok c : safe (write_char c).
Proof.
  intros v Hv. unfold write_char. destruct (escape_seq v); [by apply handle_escape_ok|].
  pose proof Hv as Hv0. unfold vtty_ok in Hv. destruct_and! Hv.
  destruct (c =? 27); [eexists; split; [done|vtty_solve]|].
  destruct (c =? 10); [apply handle_scroll_ok; [cbn; lia|vtty_solve]|].
  destruct (c =? 13); [apply handle_scroll_ok; [cbn; lia|vtty_solve]|].
  destruct (c =? 8).
  { case_bool; [|eauto]. destruct (put_cell_ok 32 (v <| cursor_col := cursor_col v - 1 |>)) as (v' & E & H' & _);
      [vtty_solve|eauto]. }
  pose proof (tab_stop (cursor_col v) ltac:(lia)).
  destruct (c =? 9).
  { unfold wrap_col. cbn [cursor_col]. case_bool; cbn in *; apply handle_scroll_ok; try (cbn; lia); vtty_solve. }
  destruct (32 <=? c).
  - destruct (put_cell_ok (u8 c) v Hv0) as (v' & -> & H' & Ec & Er). unfold vtty_ok in H'. destruct_and! H'.
    unfold wrap_col. cbn [cursor_col]. case_bool; cbn in *; apply handle_scroll_ok; try (cbn; lia); vtty_solve.
  - apply handle_scroll_ok; [lia|vtty_solve].
Qed.


Lemma scroll_times_ok n : safe (scroll_times n).
Proof.
  induction n as [|n IH]; intros v Hv; cbn [scroll_times]; [eauto|].
  destruct (scroll_up_ok v Hv) as (v' & -> & Hv'). by apply IH.
Qed.

Lemma on_ok id f s :
  safe f -> sys_ok s -> valid_id id = true -> exists s', on id f s = Some s' /\ sys_ok s'.
Proof.
  intros Hf [Hs Ha] Hid. unfold on. destruct (Hf _ (Hs id Hid)) as (v & -> & Hv). eexists. split; [done|].
  split; [|done]. intros j Hj. cbn. destruct (Z.eq_dec j id) as [->|Hne]; [by rewrite upd_eq|].
  rewrite upd_ne by done. by apply Hs.
Qed.

Inductive op :=
| WriteChar (id c : Z) | InputChar (id c : Z) | ReadChar (id : Z) | Switch (id : Z)
| ScrollUp (id n : Z) | ScrollDown (id n : Z) | Clear (id : Z).

Definition exec (o : op) (s : vttys) : option vttys :=
  match o with
  | WriteChar id c => vtty_write_char id c s
  | InputChar id c => vtty_input_char id c s
  | ReadChar id => Some (snd (vtty_read_char id s))
  | Switch id => Some (vtty_switch id s)
  | ScrollUp id n => vtty_scroll_up id n s
  | ScrollDown id n => vtty_scroll_down id n s
  | Clear id => vtty_clear_id id s
  end.

Fixpoint exec_all (ops : list op) (s : vttys) : option vttys :=
  match ops with
  | [] => Some s
  | o :: ops => match exec o s with Some s => exec_all ops s | None => None end
  end.

(** The one call that does not check its argument. *)
Definition allowed (o : op) : Prop := match o with ScrollDown id _ => valid_id id = true | _ => True end.

Lemma vtty_exec_ok o s : allowed o -> sys_ok s -> exists s', exec o s = Some s' /\ sys_ok s'.
Proof.
  intros Ho Hs. destruct o as [id c|id c|id|id|id n|id n|id]; cbn [exec].
  - unfold vtty_write_char. case_bool; [|eauto]. by apply on_ok; [apply write_char_ok|..].
  - unfold vtty_input_char. case_bool; [|eauto]. apply on_ok; [|done|done]. intros v Hv. eexists. split; [done|].
    unfold vtty_ok in Hv. destruct_and! Hv. unfold vtty_ok. split_and!; cbn; try assumption; try lia. by apply ring_push_ok.
  - eexists. split; [done|]. unfold vtty_read_char. case_bool; [|done].
    destruct Hs as [Hs Ha]. pose proof (Hs id Heqb) as Hv. unfold vtty_ok in Hv. destruct_and! Hv.
    pose proof (fifo_take_ok (H := open_fifo VTTY_INPUT_RING) (input (g_vttys s id)) ltac:(done)) as Hp.
    cbn [fifo_take open_fifo fifo_ok] in Hp.
    destruct (pop VTTY_INPUT_RING (input (g_vttys s id))) as [[c|] r]; cbn [snd] in *; [|done].
    split; [|done]. intros j Hj. cbn. destruct (Z.eq_dec j id) as [->|Hne].
    + rewrite upd_eq. vtty_solve.
    + rewrite upd_ne by done. by apply Hs.
  - eexists. split; [done|]. unfold vtty_switch. case_bool; [|done]. by destruct Hs.
  - unfold vtty_scroll_up. case_bool; [|eauto]. by apply on_ok; [apply scroll_times_ok|..].
  - cbn in Ho. unfold vtty_scroll_down. rewrite Ho. apply on_ok; [|done|done]. intros v Hv. eexists. split; [done|].
    unfold vtty_ok in Hv. destruct_and! Hv. unfold vtty_ok. split_and!; cbn -[swrap]; try assumption; try lia.
    + case_bool; lia.
    + case_bool; [lia|]. unfold i32, swrap. change (2 ^ (32 - 1)) with (2 ^ 31).
      pose proof (Z.mod_pos_bound (scroll_view v - n + 2 ^ 31) (2 ^ 32) ltac:(lia)). lia.
  - unfold vtty_clear_id. case_bool; [|eauto]. apply on_ok; [|done|done]. intros v Hv. eexists. split; [done|].
    unfold vtty_ok in Hv. destruct_and! Hv. vtty_solve.
Qed.

Lemma exec_all_ok ops s : Forall allowed ops -> sys_ok s -> exists s', exec_all ops s = Some s' /\ sys_ok s'.
Proof.
  revert s. induction ops as [|o ops IH]; intros s Hf Hs; cbn [exec_all]; [eauto|].
  destruct (vtty_exec_ok o s (Forall_inv Hf) Hs) as (s1 & -> & H1). apply IH; [exact (Forall_inv_tail Hf)|done].
Qed.

Lemma vtty_write_ok id cs s : sys_ok s -> exists s', vtty_write id cs s = Some s' /\ sys_ok s'.
Proof.
  revert s. induction cs as [|c cs IH]; intros s Hs; cbn [vtty_write]; [eauto|].
  destruct (vtty_exec_ok (WriteChar id c) s I Hs) as (s1 & E & H1). cbn [exec] in E. rewrite E. by apply IH.
Qed.

Lemma vtty_init_ok : exists s, vtty_init = Some s /\ sys_ok s.
Proof.
  unfold vtty_init. set (s0 := Build_vttys _ 0).
  assert (H0 : sys_ok s0).
  { split; [|reflexivity]. intros id Hid. unfold s0. cbn [g_vttys].
    replace (for_loop _ _ _ _ id) with init_vtty.
    - unfold vtty_ok. cbn. unfold VTTY_COLS, VTTY_ROWS, VTTY_SCROLLBACK, ring_ok, VTTY_INPUT_RING. cbn. lia.
    - change (for_loop _ _ _ _) with (for_loop (Z.to_nat VTTY_COUNT) 0 (fun i b => b.[i <- (fun _ => init_vtty) (b i)]) (fun _ => zero_vtty)).
      rewrite for_loop_upd. unfold valid_id in Hid. change (Z.of_nat (Z.to_nat VTTY_COUNT)) with VTTY_COUNT.
      case_bool; [done|lia]. }
  clearbody s0. generalize (Z.to_nat VTTY_COUNT) as n, 0 as id. intros n. revert s0 H0.
  induction n as [|n IH]; intros s Hs id; cbn [welcome_all]; [eauto|].
  destruct (vtty_write_ok id welcome s Hs) as (s1 & -> & H1). by apply IH.
Qed.

(** C36: Whatever is written to, typed at, read from, switched, scrolled and
    cleared on the consoles after they are set up, no access leaves the
    screen, the scrollback, the escape buffer or the input ring, and cursor,
    colours and indices stay in range. *)
Theorem consoles_in_bounds ops :
  Forall allowed ops ->
  exists s0 s, vtty_init = Some s0 /\ exec_all ops s0 = Some s /\ sys_ok s.
Proof.
  intros Hf. destruct vtty_init_ok as (s0 & E0 & H0). destruct (exec_all_ok ops s0 Hf H0) as (s & E & Hs). eauto.
Qed.

Lemma consoles_in_bounds_witness :
  exists s0 s, vtty_init = Some s0 /\
    exec_all [WriteChar 0 27; WriteChar 0 91; InputChar 5 10; ScrollDown 2 7; Clear 0; WriteChar 9 65] s0 = Some s /\ sys_ok s.
Proof.
  apply (consoles_in_bounds [WriteChar 0 27; WriteChar 0 91; InputChar 5 10; ScrollDown 2 7; Clear 0; WriteChar 9 65]).
  repeat first [apply List.Forall_nil|apply List.Forall_cons; [first [exact I|reflexivity]|]].
Defined.

(** The bracket that opens an escape sequence also ends it: the rest of a
    colour sequence is printed. *)
Example colour_sequence_printed :
  match vtty_write 0 [27; 91; 51; 49; 109; 88] {| g_vttys := fun _ => init_vtty; g_active_vtty := 0 |} with
  | Some s => map (screen (g_vttys s 0) 0) [0; 1; 2; 3; 4] = [51; 49; 109; 88; 32] /\ fg (g_vttys s 0) = 7
  | None => False
  end.
Proof. vm_compute. split; reflexivity. Qed.


(** *** The screen and the scrollback are the end of what was printed

    The reference terminal is an endless sheet: the finished lines, the line
    being printed and the column. *)

Record sheet := { finished : list row; current : row; col : Z }.

Definition line_feed (p : sheet) : sheet := {| finished := finished p ++ [current p]; current := blank; col := 0 |}.

Definition move_to (k : Z) (p : sheet) : sheet :=
  if k <? VTTY_COLS then {| finished := finished p; current := current p; col := k |} else line_feed p.

Definition print (p : sheet) (c : Z) : sheet :=
  if c =? 10 then line_feed p
  else if c =? 13 then move_to 0 p
  else if c =? 8 then
    if 0 <? col p then {| finished := finished p; current := (current p).[col p - 1 <- 32]; col := col p - 1 |} else p
  else if c =? 9 then move_to (Z.land (col p + 8) (Z.lnot 7)) p
  else if 32 <=? c then
    move_to (col p + 1) {| finished := finished p; current := (current p).[col p <- u8 c]; col := col p |}
  else p.

Definition last_n {A} (n : nat) (l : list A) : list A := skipn (length l - n) l.

Definition rows (f : Z -> row) (n : Z) : list row := map (fun k => f (Z.of_nat k)) (List.seq 0 (Z.to_nat n)).

(** The scrollback and the first [n] lines of the screen. *)
Definition kept (v : vtty_t) (n : Z) : list row := rows (scrollback v) (scroll_lines v) ++ rows (screen v) n.

(** The lines above the cursor that the terminal still holds. *)
Definition above (v : vtty_t) : list row := kept v (cursor_row v).

Definition KEPT : nat := 224.

Definition prints (v : vtty_t) (p : sheet) : Prop :=
  vtty_ok v /\ escape_seq v = false /\ cursor_col v = col p /\ screen v (cursor_row v) = current p /\
  (forall r, cursor_row v < r < VTTY_ROWS -> screen v r = blank) /\ above v = last_n KEPT (finished p).

Lemma rows_snoc f n : 0 <= n -> rows f (n + 1) = rows f n ++ [f n].
Proof.
  intros Hn. unfold rows. replace (Z.to_nat (n + 1)) with (S (Z.to_nat n)) by lia.
  rewrite seq_S, map_app. cbn. by rewrite Z2Nat.id by lia.
Qed.

Lemma rows_cons f n : 0 <= n -> rows f (n + 1) = f 0 :: rows (fun i => f (i + 1)) n.
Proof.
  intros Hn. unfold rows. replace (Z.to_nat (n + 1)) with (S (Z.to_nat n)) by lia.
  cbn [List.seq map]. f_equal. rewrite <- seq_shift, map_map. apply map_ext. intros k. f_equal. lia.
Qed.

Lemma rows_ext f g n : (forall i, 0 <= i < n -> f i = g i) -> rows f n = rows g n.
Proof. intros H. apply map_ext_in. intros k Hk. apply in_seq in Hk. apply H. lia. Qed.

Lemma rows_length f n : length (rows f n) = Z.to_nat n.
Proof. unfold rows. by rewrite length_map, length_seq. Qed.

Lemma last_n_all {A} n (l : list A) : (length l <= n)%nat -> last_n n l = l.
Proof. intros H. unfold last_n. by replace (length l - n)%nat with O by lia. Qed.

Lemma last_n_snoc {A} n (l : list A) x : (0 < n)%nat -> last_n n (last_n n l ++ [x]) = last_n n (l ++ [x]).
Proof.
  intros Hn. unfold last_n. rewrite !length_app, !length_skipn, !skipn_app, skipn_skipn, length_skipn. cbn [length].
  f_equal; f_equal; lia.
Qed.

Lemma shift_up {A} n (a : Z -> A) j :
  for_loop n 0 (fun i s => s.[i <- s (i + 1)]) a j = if (0 <=? j) && (j <? Z.of_nat n) then a (j + 1) else a j.
Proof.
  revert j. induction n as [|n IH]; intros j; [case_bool; lia || done|]. rewrite for_loop_snoc, Z.add_0_l.
  destruct (Z.eq_dec j (Z.of_nat n)) as [->|Hj].
  - rewrite upd_eq, IH. do 2 case_bool; lia || done.
  - rewrite upd_ne, IH by done. do 2 case_bool; lia || done.
Qed.

(** Scrolling keeps the last lines and opens a blank one. *)
Lemma scroll_above v :
  0 <= scroll_lines v <= VTTY_SCROLLBACK ->
  exists v', vtty_scroll_up_internal v = Some v' /\ screen v' (VTTY_ROWS - 1) = blank /\
    kept v' (VTTY_ROWS - 1) = last_n KEPT (kept v (VTTY_ROWS - 1) ++ [screen v (VTTY_ROWS - 1)]) /\
    cursor_col v' = cursor_col v /\ escape_seq v' = escape_seq v.
Proof.
  intros Hl. unfold vtty_scroll_up_internal. case_bool; [lia|].
  unfold VTTY_SCROLLBACK, VTTY_ROWS in *. change (Z.to_nat (25 - 1)) with 24%nat. change (Z.to_nat (200 - 1)) with 199%nat.
  eexists. split; [done|]. unfold kept.
  assert (Hscreen : forall s : Z -> row, rows ((for_loop 24 0 (fun r s => s.[r <- s (r + 1)]) s).[24 <- blank]) 24 =
    rows (fun i => s (i + 1)) 23 ++ [s 24]).
  { intros s. pose proof (rows_snoc (fun i => s (i + 1)) 23 ltac:(lia)) as E. cbn beta in E. change (23 + 1) with 24 in E.
    rewrite <- E. apply rows_ext. intros i Hi.
    rewrite upd_ne, shift_up by lia. case_bool; [done|lia]. }
  assert (Hall : rows (screen v) 24 = screen v 0 :: rows (fun i => screen v (i + 1)) 23) by (apply (rows_cons _ 23); lia).
  destruct (scroll_lines v <? 200) eqn:El; cbn [screen scrollback scroll_lines cursor_row cursor_col escape_seq].
  - change (scrollback (v <| scrollback := ?a |> <| scroll_lines := ?n |>)) with a.
    split_and!; [cbn -[for_loop upd Z.sub]; by rewrite upd_eq| |done|done]. cbn -[rows last_n for_loop Z.sub upd]. change (25 - 1) with 24. rewrite Hscreen.
    rewrite rows_snoc, upd_eq, Hall by lia. rewrite (rows_ext _ (scrollback v)) by (intros i Hi; by rewrite upd_ne by lia).
    rewrite last_n_all; [by rewrite <- !app_assoc|]. repeat rewrite ?length_app, ?rows_length; cbn [length]. rewrite rows_length. unfold KEPT. lia.
  - split_and!; [cbn -[for_loop upd Z.sub]; by rewrite upd_eq| |done|done]. cbn -[rows last_n for_loop Z.sub upd]. change (25 - 1) with 24. rewrite Hscreen.
    change (200 - 1) with 199.
    replace (scroll_lines v) with (199 + 1) by lia. rewrite rows_snoc, upd_eq by lia.
    rewrite (rows_ext _ (fun i => scrollback v (i + 1))) by (intros i Hi; rewrite upd_ne, shift_up by lia; case_bool; [done|lia]).
    rewrite (rows_cons (scrollback v) 199), Hall by lia. unfold last_n. cbn [app].
    cbn [length]. repeat rewrite ?length_app, ?rows_length; cbn [length]. rewrite rows_length.
    replace (S _ - KEPT)%nat with 1%nat by (unfold KEPT; lia). cbn [skipn]. by rewrite <- !app_assoc.
Qed.


Lemma line_feed_prints v p :
  prints v p ->
  exists v', handle_scroll (v <| cursor_row := cursor_row v + 1 |> <| cursor_col := 0 |>) = Some v' /\ prints v' (line_feed p).
Proof.
  intros (Hv & He & Hc & Hcur & Hbelow & Hab). pose proof Hv as Hv0. unfold vtty_ok in Hv. destruct_and! Hv.
  set (w := v <| cursor_row := cursor_row v + 1 |> <| cursor_col := 0 |>).
  destruct (handle_scroll_ok w) as (v' & E & Hok); [cbn; lia|vtty_solve|]. exists v'. split; [done|].
  unfold handle_scroll in E. destruct (VTTY_ROWS <=? cursor_row w) eqn:Er; cbn in Er.
  - destruct (scroll_above w) as (u & Eu & Hb & Hk & Hcc & Hes); [cbn; lia|]. rewrite Eu in E. injection E as <-.
    assert (Hrow : cursor_row v = VTTY_ROWS - 1) by (unfold VTTY_ROWS in *; lia).
    split_and!; [done|by cbn; rewrite Hes|by cbn; rewrite Hcc|exact Hb|cbn; lia|].
    change (above _) with (kept u (VTTY_ROWS - 1)). rewrite Hk.
    change (kept w ?r) with (kept v r). change (screen w) with (screen v).
    rewrite <- Hrow. fold (above v). rewrite Hab, Hcur. apply last_n_snoc. unfold KEPT. lia.
  - injection E as <-. split_and!; [done|done|done|cbn; apply Hbelow; lia|cbn; intros r Hr; apply Hbelow; lia|].
    change (above w) with (kept v (cursor_row v + 1)). unfold kept. rewrite rows_snoc by lia.
    rewrite app_assoc. fold (kept v (cursor_row v)). fold (above v). cbn [finished line_feed]. rewrite <- last_n_snoc by (unfold KEPT; lia).
    rewrite <- Hab, Hcur. symmetry. apply last_n_all. unfold above, kept. rewrite !length_app, !rows_length. cbn [length].
    unfold VTTY_SCROLLBACK, VTTY_ROWS, KEPT in *. lia.
Qed.

Lemma move_prints k v p :
  prints v p -> 0 <= k <= VTTY_COLS ->
  exists v', handle_scroll (wrap_col (v <| cursor_col := k |>)) = Some v' /\ prints v' (move_to k p).
Proof.
  intros Hp Hk. unfold wrap_col, move_to. change (cursor_col (v <| cursor_col := k |>)) with k.
  destruct (VTTY_COLS <=? k) eqn:E1, (k <? VTTY_COLS) eqn:E2; try lia; [exact (line_feed_prints v p Hp)|].
  destruct Hp as (Hv & He & Hc & Hcur & Hbelow & Hab). unfold vtty_ok in Hv. destruct_and! Hv.
  unfold handle_scroll. cbn [cursor_row]. case_bool; cbn in *; [lia|]. eexists. split; [done|].
  split_and!; [vtty_solve|done|done|done|done|done].
Qed.

Lemma put_prints c k v p :
  prints v p -> 0 <= k < VTTY_COLS -> exists v',
  put_cell c (v <| cursor_col := k |>) = Some v' /\ cursor_col v' = k /\
  prints v' {| finished := finished p; current := (current p).[k <- c]; col := k |}.
Proof.
  intros (Hv & He & Hc & Hcur & Hbelow & Hab) Hk. pose proof Hv as Hv0. unfold vtty_ok in Hv. destruct_and! Hv.
  destruct (put_cell_ok c (v <| cursor_col := k |>)) as (v' & E & Hok & Ec & Er); [vtty_solve|].
  exists v'. split_and!; [done|done|]. cbn in Ec, Er. revert E. unfold put_cell. destruct (in_screen _ _); [|done].
  intros [= <-]. split_and!; [exact Hok|exact He|done| | |].
  - cbn. by rewrite upd_eq, Hcur.
  - cbn. intros r Hr. rewrite upd_ne by lia. by apply Hbelow.
  - cbn [finished]. rewrite <- Hab. unfold above, kept. cbn. f_equal. apply rows_ext. intros i Hi. rewrite upd_ne by lia. done.
Qed.

Lemma set_col_same v : v <| cursor_col := cursor_col v |> = v.
Proof. by destruct v. Qed.

Lemma char_prints c v p : c <> 27 -> prints v p -> exists v', write_char c v = Some v' /\ prints v' (print p c).
Proof.
  intros Hc Hp. pose proof Hp as (Hv & He & Hcol & _). unfold write_char, print. rewrite He, (proj2 (Z.eqb_neq c 27) Hc).
  unfold vtty_ok in Hv. destruct_and! Hv.
  destruct (c =? 10); [by apply line_feed_prints|].
  destruct (c =? 13).
  { destruct (move_prints 0 v p Hp ltac:(unfold VTTY_COLS; lia)) as (v' & E & H'). exists v'. split; [exact E|done]. }
  destruct (c =? 8).
  { rewrite <- Hcol. case_bool; [|by eauto].
    destruct (put_prints 32 (cursor_col v - 1) v p Hp ltac:(lia)) as (v' & E & _ & H'). eauto. }
  destruct (c =? 9); [rewrite <- Hcol; apply move_prints; [done|by apply tab_stop; lia]|].
  destruct (32 <=? c).
  - destruct (put_prints (u8 c) (cursor_col v) v p Hp ltac:(lia)) as (v' & E & Ec & H').
    rewrite set_col_same in E. rewrite E, Ec, <- Hcol. apply move_prints; [done|lia].
  - unfold handle_scroll. case_bool; [lia|]. eauto.
Qed.

(** C37: A console is the end of an endless sheet of paper: after any text
    without escapes is printed on a fresh console, the line at the cursor is
    the sheet's current line, and the scrollback with the screen above the
    cursor is the last 224 finished lines. *)
Theorem console_shows_tail id text s :
  valid_id id = true -> g_vttys s id = init_vtty -> Forall (fun c => c <> 27) text ->
  exists s', vtty_write id text s = Some s' /\
    let v := g_vttys s' id in
    let p := fold_left print text {| finished := []; current := blank; col := 0 |} in
    screen v (cursor_row v) = current p /\ cursor_col v = col p /\ above v = last_n KEPT (finished p).
Proof.
  intros Hid Hs Ht.
  assert (H0 : prints (g_vttys s id) {| finished := []; current := blank; col := 0 |}).
  { rewrite Hs. split_and!; try done.
    - intros r Hr. unfold init_vtty, vtty_clear.
      change (screen _) with (for_loop (Z.to_nat VTTY_ROWS) 0 (fun r s => s.[r <- (fun _ => blank) (s r)]) (screen zero_vtty)).
      rewrite for_loop_upd. change (Z.of_nat (Z.to_nat VTTY_ROWS)) with VTTY_ROWS. case_bool; [done|]. cbn in Hr. lia. }
  clear Hs. revert s H0. generalize {| finished := []; current := blank; col := 0 |} as p.
  induction text as [|c text IH]; intros p s Hp; cbn [vtty_write fold_left].
  - exists s. split; [done|]. by destruct Hp as (_ & _ & Hc & Hcur & _ & Hab).
  - destruct (char_prints c (g_vttys s id) p (Forall_inv Ht) Hp) as (v' & E & H').
    unfold vtty_write_char, on. rewrite Hid, E. apply (IH (Forall_inv_tail Ht)). cbn [g_vttys]. by rewrite upd_eq.
Qed.

Definition fresh : vttys := {| g_vttys := fun _ => init_vtty; g_active_vtty := 0 |}.

Lemma console_shows_tail_witness :
  exists s', vtty_write 3 [72; 105; 10; 65; 8; 66] fresh = Some s' /\
    let v := g_vttys s' 3 in
    let p := fold_left print [72; 105; 10; 65; 8; 66] {| finished := []; current := blank; col := 0 |} in
    screen v (cursor_row v) = current p /\ cursor_col v = col p /\ above v = last_n KEPT (finished p).
Proof.
  apply (console_shows_tail 3 [72; 105; 10; 65; 8; 66] fresh); [reflexivity|reflexivity|].
  repeat first [apply List.Forall_nil|apply List.Forall_cons; [lia|]].
Defined.

End Vtty.
