(* ===== verification/Pseudo.v ===== *)
(** * The initial ramdisk and the device and process files
    (src/src/fs/initrd.c, src/src/os/dev/devfs.c, src/src/os/proc/procfs.c)

    A table of built-in files, the device files over the consoles, and the
    files of /proc, which are printed on every read. *)

From Stdlib Require Import String.
From S2P Require Import Prelude Ring Cstr Kprintf VfsPath Block Input Vtty.
Import Cstr Kprintf VfsPath Block.

(** ** The initial ramdisk *)

Module Initrd.

Definition INITRD_MAX_FILES : Z := 64.
Definition INITRD_NAME_MAX : Z := 128.

(** [data] is [None] for NULL. *)
Record initrd_entry_t := { name : list Z; data : option (list Z); size : Z; is_dir : bool }.

Record initrd := { g_entries : Z -> initrd_entry_t; g_entry_count : Z }.

Definition initrd_register (path : list Z) (dat : option (list Z)) (sz : Z) (dir : bool) (r : initrd) : initrd :=
  if INITRD_MAX_FILES <=? g_entry_count r then r
  else {| g_entries := (g_entries r).[g_entry_count r <-
            {| name := copy_str INITRD_NAME_MAX path; data := dat; size := sz; is_dir := dir |}];
          g_entry_count := g_entry_count r + 1 |}.

Definition nl (s : string) : list Z := str s ++ [10].

Definition g_passwd_content : list Z :=
  nl "root:x:0:0:root:/root:/bin/sh" ++ nl "guest:x:1000:1000:guest:/home/guest:/bin/sh" ++
  nl "yamuser:x:1001:1001:YamOS User:/home/yamuser:/bin/sh".
Definition g_fstab_content : list Z :=
  nl "# <device> <mountpoint> <type> <options>" ++ nl "initrd / initrd defaults 0 0" ++
  nl "/dev/sda1 /mnt/disk fat32 defaults 0 1".
Definition g_hostname_content : list Z := nl "yamkernel".
Definition g_motd_content : list Z :=
  nl "" ++ nl "  Welcome to YamOS v0.4.0" ++ nl "  Graph-Based Adaptive Operating System" ++
  nl "  Type 'help' for available commands." ++ nl "".

Definition builtin_dirs : list (list Z) :=
  map str ["/"; "/bin"; "/etc"; "/dev"; "/proc"; "/tmp"; "/home"; "/home/root"; "/home/guest"; "/mnt"; "/var"; "/var/log"]%string.

Definition builtin_files : list (list Z * list Z) :=
  [(str "/etc/passwd", g_passwd_content); (str "/etc/fstab", g_fstab_content);
   (str "/etc/hostname", g_hostname_content); (str "/etc/motd", g_motd_content)].

Definition initrd_init (r : initrd) : initrd :=
  let r := {| g_entries := g_entries r; g_entry_count := 0 |} in
  let r := fold_left (fun r p => initrd_register p None 0 true r) builtin_dirs r in
  fold_left (fun r '((p, c) : list Z * list Z) => initrd_register p (Some c) (strlen c) false r) builtin_files r.

Definition find_entry (path : list Z) (r : initrd) : option initrd_entry_t :=
  match find_index (Z.to_nat (g_entry_count r)) 0 (fun i => streq (name (g_entries r i)) path) with
  | Some i => Some (g_entries r i)
  | None => None
  end.

(** The data and the size of the first entry of that name; [None] is NULL. *)
Definition initrd_lookup (path : list Z) (r : initrd) : option (list Z * Z) :=
  match find_entry path r with
  | Some e => match data e with Some d => Some (d, size e) | None => None end
  | None => None
  end.

Definition initrd_is_dir (path : list Z) (r : initrd) : bool :=
  match find_entry path r with Some e => is_dir e | None => false end.

(** Whether [nm] is directly below the directory [norm]. *)
Definition direct_child (norm nm : list Z) : bool :=
  let nlen := strlen norm in
  (nlen <? strlen nm) && starts_with norm nm && (char_at nm nlen =? SLASH) &&
  negb (existsb (fun c => c =? SLASH) (drop (Z.to_nat (nlen + 1)) nm)).

Fixpoint readdir_loop (n : nat) (i : Z) (norm : list Z) (room : Z) (r : initrd) : list initrd_entry_t :=
  match n with
  | O => []
  | S n =>
      if room <=? 0 then []
      else
        let e := g_entries r i in
        if direct_child norm (name e) then e :: readdir_loop n (i + 1) norm (room - 1) r
        else readdir_loop n (i + 1) norm room r
  end.

(** [norm] has no terminator when the path fills it; paths here are shorter. *)
Definition initrd_readdir (dirpath : list Z) (max : Z) (r : initrd) : list initrd_entry_t :=
  let norm := copy_str INITRD_NAME_MAX dirpath in
  let nlen := strlen norm in
  let norm := if (1 <? nlen) && (char_at norm (nlen - 1) =? SLASH) then take (Z.to_nat (nlen - 1)) norm else norm in
  readdir_loop (Z.to_nat (g_entry_count r)) 0 norm max r.

Definition no_entry : initrd_entry_t := {| name := []; data := None; size := 0; is_dir := false |}.
Definition built : initrd := initrd_init {| g_entries := fun _ => no_entry; g_entry_count := 0 |}.

(** The table after boot serves each built-in file whole, under its name. *)
Lemma builtin_served p c : In (p, c) builtin_files -> initrd_lookup p built = Some (c, strlen c).
Proof. intros H. repeat (destruct H as [[= <- <-]|H]; [vm_compute; reflexivity|]). destruct H. Qed.

Example etc_listed : map name (initrd_readdir (str "/etc/") 64 built) = map fst builtin_files.
Proof. vm_compute. reflexivity. Qed.

(** The root directory lists nothing: its name already ends in the slash that
    must separate an entry from it. *)
Example root_lists_nothing : initrd_readdir (str "/") 64 built = [].
Proof. vm_compute. reflexivity. Qed.

End Initrd.

(** ** Device files *)

Module Devfs.
Import Vtty.Vtty.

Definition strip (path : list Z) : list Z := if char_at path 0 =? SLASH then tail path else path.

Definition is_tty_name (path : list Z) : bool :=
  (char_at path 0 =? 116) && (char_at path 1 =? 116) && (char_at path 2 =? 121) &&
  (48 <=? char_at path 3) && (char_at path 3 <=? 53).

Definition tty_id_from_path (path : list Z) (s : vttys) : Z :=
  let path := strip path in
  if is_tty_name path then char_at path 3 - 48
  else if streq path (str "tty") then g_active_vtty s
  else if streq path (str "console") then g_active_vtty s
  else -1.

(** Up to [n] characters, or to the end of a line. *)
Fixpoint tty_line (n : nat) (id i : Z) (buf : buffer) (s : vttys) : Z * buffer * vttys :=
  match n with
  | O => (i, buf, s)
  | S n =>
      let '(c, s') := vtty_read_char id s in
      if c <? 0 then (i, buf, s')
      else
        let buf := buf.[i <- u8 c] in
        if c =? 10 then (i + 1, buf, s') else tty_line n id (i + 1) buf s'
  end.

Definition devtty_read (path : list Z) (buf : buffer) (count : Z) (s : vttys) : Z * buffer * vttys :=
  let id := tty_id_from_path path s in
  if id <? 0 then (-1, buf, s) else tty_line (Z.to_nat count) id 0 buf s.

(** The first [n] bytes of a buffer as characters. *)
Definition chars (buf : buffer) (n : Z) : list Z := map (fun i => swrap 8 (buf (Z.of_nat i))) (List.seq 0 (Z.to_nat n)).

(** [None]: a terminal was written out of bounds. *)
Definition devtty_write (path : list Z) (buf : buffer) (count : Z) (s : vttys) : option (Z * vttys) :=
  let id := tty_id_from_path path s in
  let id := if id <? 0 then g_active_vtty s else id in
  match vtty_write id (chars buf count) s with Some s => Some (i64 count, s) | None => None end.

Definition devfs_exists (path : list Z) : bool :=
  let path := strip path in
  streq path (str "null") || streq path (str "zero") || streq path (str "fb0") || streq path (str "tty") ||
  streq path (str "console") || is_tty_name path.

Definition devfs_read (path : list Z) (buf : buffer) (count : Z) (s : vttys) : Z * buffer * vttys :=
  let path := strip path in
  if streq path (str "null") || streq path (str "zero") then (0, buf, s)
  else if streq path (str "fb0") then (-1, buf, s)
  else devtty_read path buf count s.

Definition devfs_write (path : list Z) (buf : buffer) (count : Z) (s : vttys) : option (Z * vttys) :=
  let path := strip path in
  if streq path (str "null") then Some (i64 count, s)
  else if streq path (str "fb0") then Some (-1, s)
  else devtty_write path buf count s.

(** *** A terminal is read by lines *)

(** What a read of at most [n] takes of the characters typed, and what is left. *)
Fixpoint first_line (n : nat) (q : list Z) : list Z :=
  match n, q with
  | S n, c :: q => if c =? 10 then [c] else c :: first_line n q
  | _, _ => []
  end.

Definition typed (id : Z) (s : vttys) : list Z := OpenRing.contents VTTY_INPUT_RING (input (g_vttys s id)).

Lemma read_char_eq id s :
  valid_id id = true -> ring_ok VTTY_INPUT_RING (input (g_vttys s id)) -> Forall (fun c => 0 <= c < 256) (typed id s) ->
  match typed id s with
  | [] => vtty_read_char id s = (-1, s)
  | c :: q => exists s', vtty_read_char id s = (c, s') /\ typed id s' = q /\ ring_ok VTTY_INPUT_RING (input (g_vttys s' id))
  end.
Proof.
  intros Hid Hr Hb. unfold vtty_read_char, typed in *. rewrite Hid.
  pose proof (fifo_take_ok (H := open_fifo VTTY_INPUT_RING) _ Hr) as H1.
  pose proof (fifo_take_first (H := open_fifo VTTY_INPUT_RING) _ Hr) as H2.
  pose proof (fifo_take_contents (H := open_fifo VTTY_INPUT_RING) _ Hr) as H3.
  cbn [fifo_take fifo_ok fifo_contents open_fifo] in H1, H2, H3.
  destruct (pop VTTY_INPUT_RING (input (g_vttys s id))) as [o r]. cbn [fst snd] in *.
  destruct (OpenRing.contents VTTY_INPUT_RING (input (g_vttys s id))) as [|c q]; cbn in H2, H3; subst o; [done|].
  eexists. split; [done|]. cbn [g_vttys]. rewrite upd_eq. done.
Qed.

(** A read returns the characters typed up to the end of the line or of the
    buffer, in order, and leaves the rest for the next one. *)
Lemma tty_line_ok n id i buf s :
  valid_id id = true -> ring_ok VTTY_INPUT_RING (input (g_vttys s id)) -> Forall (fun c => 0 <= c < 256) (typed id s) ->
  let l := first_line n (typed id s) in
  exists buf' s', tty_line n id i buf s = (i + strlen l, buf', s') /\
    typed id s' = drop (length l) (typed id s) /\
    (forall j, 0 <= j < strlen l -> buf' (i + j) = char_at l j) /\ (forall j, j < i -> buf' j = buf j).
Proof.
  revert i buf s. induction n as [|n IH]; intros i buf s Hid Hr Hb.
  { exists buf, s. cbn. rewrite Z.add_0_r, drop_0. split_and!; try done. intros j Hj. unfold strlen in Hj; cbn in Hj; lia. }
  pose proof (read_char_eq id s Hid Hr Hb) as Hc. cbn [tty_line]. destruct (typed id s) as [|c q] eqn:Eq.
  - rewrite Hc. cbn. exists buf, s. rewrite Z.add_0_r. split_and!; try done. intros j Hj. unfold strlen in Hj; cbn in Hj; lia.
  - destruct Hc as (s1 & -> & Et & Hr1). pose proof (Forall_inv Hb) as Hcb. cbn in Hcb.
    rewrite (proj2 (Z.ltb_ge c 0)), (wrap_small 8) by lia. cbn [first_line]. case_bool.
    + exists (buf.[i <- c]), s1. cbn [length drop]. rewrite drop_0. split_and!; [done|done| |intros j Hj; by rewrite upd_ne by lia].
      intros j Hj. unfold strlen in Hj. cbn in Hj. assert (j = 0) as -> by lia. by rewrite Z.add_0_r, upd_eq.
    + destruct (IH (i + 1) (buf.[i <- c]) s1 Hid Hr1) as (b' & s' & E & Et' & Hin & Hout).
      { rewrite Et. exact (Forall_inv_tail Hb). }
      rewrite Et in *. exists b', s'. split_and!.
      * rewrite E. unfold strlen. cbn [length]. do 2 f_equal. lia.
      * done.
      * intros j Hj. unfold strlen in Hj, Hin. cbn [length] in Hj. destruct (Z.eq_dec j 0) as [->|Hj0].
        -- rewrite Z.add_0_r, Hout, upd_eq by lia. done.
        -- replace (i + j) with (i + 1 + (j - 1)) by lia. rewrite Hin by lia. unfold char_at.
           replace (Z.to_nat j) with (S (Z.to_nat (j - 1))) by lia. done.
      * intros j Hj. rewrite Hout, upd_ne by lia. done.
Qed.

(** A write is in bounds whatever the name, and accepted but for the framebuffer. *)
Lemma devfs_write_ok path buf count s :
  sys_ok s -> exists r s', devfs_write path buf count s = Some (r, s') /\ sys_ok s'.
Proof.
  intros Hs. unfold devfs_write, devtty_write. case_bool; [by eauto|]. case_bool; [by eauto|].
  edestruct vtty_write_ok as (s' & -> & H'); [exact Hs|]. eauto.
Qed.

(** What is written to /dev/zero is printed on the active console. *)
Example zero_prints :
  match devfs_write (str "/zero") (fun i => char_at (str "Z") i) 1 fresh with
  | Some (r, s) => r = 1 /\ screen (g_vttys s 0) 0 0 = 90
  | None => False
  end.
Proof. vm_compute. split; reflexivity. Qed.

(** /dev/zero reads as an empty file. *)
Example zero_empty buf s : devfs_read (str "/zero") buf 512 s = (0, buf, s).
Proof. reflexivity. Qed.

End Devfs.

(** ** Files of /proc *)

Module Procfs.

Section files.
(** What the files report: CPUs, bytes of memory in all and free, tasks. *)
Context (ncpus total_memory free_memory tasks : Z).

Definition tab : list Z := [9].
Definition line (l : list Z) : list Z := l ++ [10].

Definition cpuinfo_fmt : list Z :=
  line (str "processor" ++ tab ++ str ": 0-%u") ++ line (str "vendor_id" ++ tab ++ str ": YamKernel x86_64") ++
  line (str "cpu cores" ++ tab ++ str ": %u") ++ line (str "architecture" ++ tab ++ str ": x86_64") ++
  line (str "flags" ++ tab ++ tab ++ str ": sse sse2 nx lm").

Definition meminfo_fmt : list Z :=
  line (str "MemTotal:" ++ tab ++ str "%lu kB") ++ line (str "MemFree:" ++ tab ++ str "%lu kB") ++
  line (str "MemAvailable:" ++ tab ++ str "%lu kB") ++ line (str "Buffers:" ++ tab ++ str "0 kB") ++
  line (str "Cached:" ++ tab ++ tab ++ str "0 kB").

Definition version_text : list Z := line (str "YamKernel v0.4.0 (Graph-Based Adaptive OS) #1 SMP").

(** Printing into a local buffer of [cap] bytes and copying at most [count];
    the comparison and the result are of type [int]. *)
Definition print_file (cap : Z) (fmt : list Z) (args : list arg) (buf : buffer) (count : Z) : option (Z * buffer) :=
  match kvsnprintf (fun _ => 0) cap fmt args with
  | None => None
  | Some (len, tmp) =>
      let len := if i32 count <? len then i32 count else len in
      Some (len, blit buf 0 tmp 0 (u64 len))
  end.

Definition procfs_cpuinfo (buf : buffer) (count : Z) : option (Z * buffer) :=
  print_file 512 cpuinfo_fmt [AInt (u32 (ncpus - 1)); AInt ncpus] buf count.

Definition procfs_meminfo (buf : buffer) (count : Z) : option (Z * buffer) :=
  let total_kb := total_memory / 1024 in
  let free_kb := free_memory / 1024 in
  print_file 512 meminfo_fmt [AInt total_kb; AInt free_kb; AInt free_kb] buf count.

Definition procfs_version (buf : buffer) (count : Z) : option (Z * buffer) :=
  let len := strlen version_text in
  let len := if count <? len then count else len in
  Some (len, blit buf 0 (char_at version_text) 0 len).

Definition procfs_uptime (buf : buffer) (count : Z) : option (Z * buffer) :=
  print_file 64 (line (str "0.00 0.00")) [] buf count.

Definition procfs_loadavg (buf : buffer) (count : Z) : option (Z * buffer) :=
  print_file 64 (line (str "0.00 0.00 0.00 %lu/1 1")) [AInt tasks] buf count.

Definition procfs_read (path : list Z) (buf : buffer) (count : Z) : option (Z * buffer) :=
  let path := Devfs.strip path in
  if streq path (str "cpuinfo") then procfs_cpuinfo buf count
  else if streq path (str "meminfo") then procfs_meminfo buf count
  else if streq path (str "version") then procfs_version buf count
  else if streq path (str "uptime") then procfs_uptime buf count
  else if streq path (str "loadavg") then procfs_loadavg buf count
  else Some (-1, buf).

(** procfs_exists of vfs.c *)
Definition procfs_exists (path : list Z) : bool :=
  let path := Devfs.strip path in
  existsb (streq path) (map str ["cpuinfo"; "meminfo"; "version"; "uptime"; "loadavg"]%string).
End files.

(** The numbers in the file are those of the memory manager. *)
Example meminfo_text :
  match procfs_read 2 (512 * 1024 * 1024) (300 * 1024 * 1024 + 5) 7 (str "/meminfo") (fun _ => 0) 32 with
  | Some (n, b) => n = 32 /\ map b (seqZ 0 32) = take 32 (line (str "MemTotal:" ++ tab ++ str "524288 kB") ++ str "MemFree:" ++ tab ++ str "307200")
  | None => False
  end.
Proof. vm_compute. split; reflexivity. Qed.

(** A read of two gigabytes or more, but for the version file, copies a
    negative length: the whole of memory. *)
Example huge_read_overruns :
  match procfs_read 1 0 0 1 (str "/uptime") (fun _ => 1) (2 ^ 31) with
  | Some (n, b) => n = - 2 ^ 31 /\ b (2 ^ 40) = 0
  | None => False
  end.
Proof. vm_compute. split; reflexivity. Qed.

End Procfs.
