(* ===== verification/Vfs.v ===== *)
(** * The virtual file system (src/src/fs/vfs.c)

    The mount table over the RAM file systems, FAT32 volumes behind the block
    cache, the initial ramdisk and the device and process files, and the calls
    on paths and descriptors.  A call that does not return, or that leaves an
    array, is [None].  [mem n] says whether kmalloc grants a request for [n]
    bytes of data; [a] is the address it returns for a file object. *)

From Stdlib Require Import String.
From stdpp Require Import gmap.
From S2P Require Import Prelude Mem Str Block Bcache Fat32 FatCache Sched Wait Pipe Fd Cstr Kprintf VfsPath Ramfs Input Vtty Pseudo.
Import Mem Block Bcache Fat32 FatCache Cstr VfsPath Ramfs.

Module Vfs.

#[local] Existing Instance Fd.eta_file.

Definition VFS_O_CREAT : Z := 0x40.
Definition VFS_O_EXCL : Z := 0x80.
Definition VFS_O_TRUNC : Z := 0x200.
Definition VFS_O_APPEND : Z := 0x400.

Definition YAM_S_IFMT : Z := 0xF000.
Definition YAM_S_IFDIR : Z := 0x4000.
Definition YAM_S_IFCHR : Z := 0x2000.
Definition YAM_S_IFREG : Z := 0x8000.
Definition YAM_S_IRUSR : Z := 0x100.
Definition YAM_S_IWUSR : Z := 0x80.
Definition YAM_S_IXUSR : Z := 0x40.

Record yam_stat_t := {
  st_dev : Z; st_ino : Z; st_mode : Z; st_nlink : Z; st_uid : Z; st_gid : Z;
  st_size : Z; st_blksize : Z; st_blocks : Z
}.

Definition vfs_fill_stat (mode size ino : Z) : yam_stat_t :=
  {| st_dev := 1; st_ino := ino; st_mode := mode;
     st_nlink := if Z.land mode YAM_S_IFMT =? YAM_S_IFDIR then 2 else 1;
     st_uid := 0; st_gid := 0; st_size := size; st_blksize := 512;
     st_blocks := if 0 <? size then Z.quot (i64 (size + 511)) 512 else 0 |}.

Definition MODE_DIR : Z := Z.lor (Z.lor (Z.lor YAM_S_IFDIR YAM_S_IRUSR) YAM_S_IWUSR) YAM_S_IXUSR.
Definition MODE_CHR : Z := Z.lor (Z.lor YAM_S_IFCHR YAM_S_IRUSR) YAM_S_IWUSR.

(** The mode of a node of a file system that can be written. *)
Definition node_mode (dir : bool) : Z :=
  Z.lor (Z.lor (if dir then Z.lor YAM_S_IFDIR YAM_S_IXUSR else YAM_S_IFREG) YAM_S_IRUSR) YAM_S_IWUSR.

(** What /proc reports. *)
Record sysinfo := { ncpus : Z; total_memory : Z; free_memory : Z; task_count : Z }.

(** [ramfs_at] are the static file systems and [vols] the volumes from
    kmalloc, by number; [cwd] is by task; [console] is what went to the
    framebuffer console. *)
Record vfs {W : Type} := {
  g_mounts : Z -> vfs_mount_t;
  g_mount_count : Z;
  ramfs_at : Z -> ramfs_t;
  vols : Z -> fat32_vol_t;
  vol_count : Z;
  g_primary : option Z;
  initrd : Initrd.initrd;
  tty : Vtty.Vtty.vttys;
  disk : bcache W;
  blocks : block_t W;
  kern : Fd.kern;
  cwd : Z -> list Z;
  console : list Z;
  info : sysinfo
}.
Arguments vfs : clear implicits.
#[export] Instance eta_vfs {W} : Eta (vfs W) := fun r =>
  Build_vfs W (g_mounts r) (g_mount_count r) (ramfs_at r) (vols r) (vol_count r) (g_primary r) (initrd r) (tty r)
    (disk r) (blocks r) (kern r) (cwd r) (console r) (info r).

Section vfs.
Context {W : Type}.
Variable junk : buffer.
Variable stack : list Z.
Variable fuel : nat.
Variable mem : Z -> bool.

#[local] Notation MV := (M (vfs W)).

Definition get : MV (vfs W) := fun s => Some (s, s).
Definition modify (f : vfs W -> vfs W) : MV unit := fun s => Some (tt, f s).

(** A computation on the disk behind the cache. *)
Definition on_disk {A} (m : forall (st : Store (bcache W)), M (bcache W) A) : MV A := fun s =>
  match m (cache_store (devs (disk s))) (disk s) with
  | Some (a, d) => Some (a, s <| disk := d |>)
  | None => None
  end.

(** A call of the descriptor layer. *)
Definition on_kern {A} (f : Fd.kern -> option (A * Fd.kern)) : MV A := fun s =>
  match f (kern s) with
  | Some (a, k) => Some (a, s <| kern := k |>)
  | None => None
  end.

Definition on_ramfs {A} (i : Z) (f : ramfs_t -> A * ramfs_t) : MV A := fun s =>
  let '(a, fs) := f (ramfs_at s i) in Some (a, s <| ramfs_at := (ramfs_at s).[i <- fs] |>).

Definition on_ramfs_opt {A} (i : Z) (f : ramfs_t -> option (A * ramfs_t)) : MV A := fun s =>
  match f (ramfs_at s i) with
  | Some (a, fs) => Some (a, s <| ramfs_at := (ramfs_at s).[i <- fs] |>)
  | None => None
  end.

Definition current (s : vfs W) : Z := Sched.pc_current (Fd.sch (kern s)).

(** vfs_resolve_path into an array of 256 characters. *)
Definition abs_path (path : list Z) (s : vfs W) : list Z := vfs_resolve_path (cwd s (current s)) path 256.

Definition find_mount (path : list Z) (s : vfs W) : Z * list Z := vfs_find_mount path (g_mounts s) (g_mount_count s).

Definition flush_mount (m : vfs_mount_t) : MV unit :=
  if negb (block_backed m) || (block_dev m =? 0) then mret tt
  else modify (fun s => s <| disk := bcache_flush (block_dev m) (disk s) |>).

(** *** Reading and writing *)

Definition vfs_do_read (midx : Z) (rel : list Z) (buf : buffer) (count offset : Z) : MV (Z * buffer) :=
  s ← get;
  let m := g_mounts s midx in
  match m_type m with
  | FS_INITRD =>
      match Initrd.initrd_lookup rel (initrd s) with
      | None => mret (-1, buf)
      | Some (data, size) =>
          if size <=? offset then mret (0, buf)
          else
            let avail := size - offset in
            let avail := if count <? avail then count else avail in
            mret (avail, blit buf 0 (char_at data) offset avail)
      end
  | FS_FAT32 =>
      let vol := vols s (priv m) in
      if (priv m =? 0) || negb (mounted vol) then mret (-1, buf)
      else if negb (mem (u64 (count + offset + 4096))) then mret (-1, buf)
      else
        '(total, tmp) ← on_disk (fun st => fat32_read_file junk fuel vol rel (Some junk) (u64 (count + offset)));
        if total <? 0 then mret (-1, buf)
        else if total <=? offset then mret (0, buf)
        else
          let avail := total - offset in
          let avail := if count <? avail then count else avail in
          mret (avail, match tmp with Some t => blit buf 0 t offset avail | None => buf end)
  | FS_DEVFS =>
      let '(n, buf, t) := Devfs.devfs_read rel buf count (tty s) in
      _ ← modify (fun s => s <| tty := t |>); mret (n, buf)
  | FS_PROCFS => fun s =>
      match Procfs.procfs_read (ncpus (info s)) (total_memory (info s)) (free_memory (info s)) (task_count (info s)) rel buf count with
      | Some r => Some (r, s)
      | None => None
      end
  | FS_RAMFS => mret (ramfs_read (ramfs_at s (priv m)) rel buf count offset)
  | FS_NONE => mret (-1, buf)
  end.

Definition vfs_do_write (midx : Z) (rel : list Z) (buf : buffer) (count : Z) : MV Z :=
  s ← get;
  let m := g_mounts s midx in
  match m_type m with
  | FS_FAT32 =>
      let vol := vols s (priv m) in
      if (priv m =? 0) || negb (mounted vol) then mret (-1)
      else
        n ← on_disk (fun st => fat32_write_file junk stack fuel vol rel (Some buf) count);
        _ ← (if 0 <=? n then flush_mount m else mret tt);
        mret n
  | FS_DEVFS => fun s =>
      match Devfs.devfs_write rel buf count (tty s) with
      | Some (n, t) => Some (n, s <| tty := t |>)
      | None => None
      end
  | FS_RAMFS => on_ramfs_opt (priv m) (ramfs_write rel buf count 0 (mem count))
  | _ => mret (-1)
  end.

Definition vfs_path_exists_for_open (midx : Z) (rel : list Z) : MV bool :=
  s ← get;
  if (midx <? 0) || (g_mount_count s <=? midx) then mret false
  else
    let m := g_mounts s midx in
    match m_type m with
    | FS_INITRD =>
        mret (match Initrd.initrd_lookup rel (initrd s) with Some _ => true | None => Initrd.initrd_is_dir rel (initrd s) end)
    | FS_FAT32 =>
        let vol := vols s (priv m) in
        if (priv m =? 0) || negb (mounted vol) then mret false
        else if match rel with [] => true | _ => streq rel (str "/") end then mret true
        else r ← on_disk (fun st => fat32_lookup junk fuel vol rel); mret (match r with Some _ => true | None => false end)
    | FS_DEVFS => mret (Devfs.devfs_exists rel)
    | FS_PROCFS => mret (Procfs.procfs_exists rel)
    | FS_RAMFS => mret (match ramfs_find (ramfs_at s (priv m)) rel with Some _ => true | None => false end)
    | FS_NONE => mret false
    end.

(** *** Opening *)

(** What the flags do to the file itself; [None] refuses the open. *)
Definition prepare (m : vfs_mount_t) (rel : list Z) (exists_ create trunc : bool) : MV bool :=
  match m_type m with
  | FS_RAMFS =>
      made ← (if create then on_ramfs (priv m) (ramfs_create rel false) else mret (Some 0));
      match made with
      | None => mret false
      | Some _ => if trunc then on_ramfs (priv m) (ramfs_truncate rel) else mret true
      end
  | FS_FAT32 =>
      if create || trunc then
        s ← get;
        let vol := vols s (priv m) in
        if (priv m =? 0) || negb (mounted vol) then mret false
        else if negb exists_ || trunc then
          n ← on_disk (fun st => fat32_write_file junk stack fuel vol rel (Some (fun _ => 0)) 0);
          if n <? 0 then mret false else _ ← flush_mount m; mret true
        else mret true
      else mret true
  | _ => mret (negb (negb exists_ && create))
  end.

Definition sys_open (path : list Z) (flags a : Z) : MV Z :=
  s ← get;
  let abs := abs_path path s in
  let '(midx, rel) := find_mount abs s in
  if midx <? 0 then mret (-1)
  else
    exists_ ← vfs_path_exists_for_open midx rel;
    let create := has flags VFS_O_CREAT in
    let excl := has flags VFS_O_EXCL in
    let trunc := has flags VFS_O_TRUNC in
    if negb exists_ && negb create then mret (-1)
    else if exists_ && create && excl then mret (-1)
    else
      ok ← prepare (g_mounts s midx) rel exists_ create trunc;
      if ok : bool then on_kern (Fd.open_file flags midx abs a) else mret (-1).

(** *** Paths *)

Definition sys_unlink (path : list Z) : MV Z :=
  s ← get;
  let '(midx, rel) := find_mount (abs_path path s) s in
  if midx <? 0 then mret (-1)
  else
    let m := g_mounts s midx in
    match m_type m with
    | FS_RAMFS => on_ramfs (priv m) (ramfs_unlink rel)
    | FS_FAT32 =>
        if priv m =? 0 then mret (-1)
        else
          ok ← on_disk (fun st => fat32_unlink junk fuel (vols s (priv m)) (Some rel));
          if ok : bool then _ ← flush_mount m; mret 0 else mret (-1)
    | _ => mret (-1)
    end.

Definition rename_fat32 (m : vfs_mount_t) (vol : fat32_vol_t) (old_rel new_rel : list Z) : MV Z :=
  old ← on_disk (fun st => fat32_lookup junk fuel vol old_rel);
  match old with
  | None => mret (-1)
  | Some i =>
      if fi_is_dir i then mret (-1)
      else
        new ← on_disk (fun st => fat32_lookup junk fuel vol new_rel);
        match new with
        | Some _ => mret (-1)
        | None =>
            let cap := if fi_file_size i =? 0 then 1 else fi_file_size i in
            if negb (mem cap) then mret (-1)
            else
              '(n, tmp) ← on_disk (fun st => fat32_read_file junk fuel vol old_rel (Some junk) cap);
              if n <? 0 then mret (-1)
              else
                w ← on_disk (fun st => fat32_write_file junk stack fuel vol new_rel tmp n);
                if w <? 0 then mret (-1)
                else
                  ok ← on_disk (fun st => fat32_unlink junk fuel vol (Some old_rel));
                  if ok : bool then _ ← flush_mount m; mret 0 else mret (-1)
        end
  end.

Definition sys_rename (oldpath newpath : list Z) : MV Z :=
  s ← get;
  let old_abs := abs_path oldpath s in
  let new_abs := abs_path newpath s in
  if streq old_abs (str "/") || streq new_abs (str "/") then mret (-1)
  else
    let '(old_midx, old_rel) := find_mount old_abs s in
    let '(new_midx, new_rel) := find_mount new_abs s in
    if (old_midx <? 0) || negb (old_midx =? new_midx) then mret (-1)
    else
      let m := g_mounts s old_midx in
      match m_type m with
      | FS_RAMFS => on_ramfs (priv m) (ramfs_rename old_rel new_rel)
      | FS_FAT32 => if priv m =? 0 then mret (-1) else rename_fat32 m (vols s (priv m)) old_rel new_rel
      | _ => mret (-1)
      end.

Definition sys_mkdir (path : list Z) : MV Z :=
  s ← get;
  let '(midx, rel) := find_mount (abs_path path s) s in
  if midx <? 0 then mret (-1)
  else
    let m := g_mounts s midx in
    match m_type m with
    | FS_RAMFS => r ← on_ramfs (priv m) (ramfs_create rel true); mret (match r with Some _ => 0 | None => -1 end)
    | FS_FAT32 =>
        let vol := vols s (priv m) in
        if (priv m =? 0) || negb (mounted vol) then mret (-1)
        else
          ok ← on_disk (fun st => fat32_mkdir junk stack fuel vol rel);
          if ok : bool then _ ← flush_mount m; mret 0 else mret (-1)
    | _ => mret (-1)
    end.

(** The number of entries the RAM file system itself has below [rel]: at most
    one per node, so 129 rounds are enough. *)
Fixpoint native_count (n : nat) (k : Z) (fs : ramfs_t) (rel : list Z) : Z :=
  match n with
  | O => k
  | S n => match ramfs_readdir fs rel k with Some _ => native_count n (k + 1) fs rel | None => k end
  end.

Definition roots : list (list Z) := map str ["dev"; "home"; "mnt"; "opt"; "proc"; "tmp"; "usr"; "var"]%string.

Definition dir_entry (name : list Z) : vfs_dirent_t := {| d_name := name; d_size := 0; d_is_dir := true |}.

(** The entry, or [None] for the result -1. *)
Definition sys_readdir (path : list Z) (index : Z) : MV (option vfs_dirent_t) :=
  s ← get;
  let abs := abs_path path s in
  if streq abs (str "/") then
    mret (if Z.of_nat (length roots) <=? index then None else option_map dir_entry (roots !! Z.to_nat index))
  else
    let '(midx, rel) := find_mount abs s in
    if midx <? 0 then mret None
    else
      let m := g_mounts s midx in
      let child k := option_map (fun n => dir_entry (take 191 n)) (mount_child_at abs (u32 k) (g_mounts s) (g_mount_count s)) in
      match m_type m with
      | FS_RAMFS =>
          let fs := ramfs_at s (priv m) in
          match ramfs_readdir fs rel index with
          | Some e => mret (Some e)
          | None =>
              let n := native_count 129 0 fs rel in
              mret (if n <=? index then child (index - n) else None)
          end
      | FS_FAT32 =>
          r ← on_disk (fun st => fat32_readdir junk fuel (vols s (priv m)) rel 16);
          match r with
          | None => mret None
          | Some l =>
              if Z.of_nat (length l) <=? index then mret (child (index - Z.of_nat (length l)))
              else mret (match l !! Z.to_nat index with
                         | Some e => Some {| d_name := take 191 (fi_name e); d_size := fi_file_size e; d_is_dir := fi_is_dir e |}
                         | None => None
                         end)
          end
      | _ => mret None
      end.

(** *** Attributes *)

(** The index of the mount at exactly this path. *)
Definition mount_at (abs : list Z) (s : vfs W) : option Z :=
  find_index (Z.to_nat (g_mount_count s)) 0 (fun i => m_active (g_mounts s i) && streq (mount_point (g_mounts s i)) abs).

Definition sys_stat (path : list Z) : MV (option yam_stat_t) :=
  s ← get;
  let abs := abs_path path s in
  if streq abs (str "/") || mount_has_child abs (g_mounts s) (g_mount_count s) then mret (Some (vfs_fill_stat MODE_DIR 0 1))
  else
    match mount_at abs s with
    | Some i => mret (Some (vfs_fill_stat MODE_DIR 0 (i + 2)))
    | None =>
        let '(midx, rel) := find_mount abs s in
        if midx <? 0 then mret None
        else
          let m := g_mounts s midx in
          match m_type m with
          | FS_RAMFS =>
              let fs := ramfs_at s (priv m) in
              mret (match ramfs_find fs rel with
                    | Some i => Some (vfs_fill_stat (node_mode (is_dir (nodes fs i))) (i64 (size (nodes fs i))) (i + 1000))
                    | None => None
                    end)
          | FS_FAT32 =>
              if priv m =? 0 then mret None
              else
                r ← on_disk (fun st => fat32_lookup junk fuel (vols s (priv m)) rel);
                mret (match r with
                      | Some i => Some (vfs_fill_stat (node_mode (fi_is_dir i)) (fi_file_size i) (fi_first_cluster i))
                      | None => None
                      end)
          | FS_INITRD =>
              mret (match Initrd.initrd_lookup rel (initrd s) with
                    | Some (_, size) => Some (vfs_fill_stat (Z.lor YAM_S_IFREG YAM_S_IRUSR) (i64 size) 2000)
                    | None =>
                        if Initrd.initrd_is_dir rel (initrd s)
                        then Some (vfs_fill_stat (Z.lor (Z.lor YAM_S_IFDIR YAM_S_IRUSR) YAM_S_IXUSR) 0 2001) else None
                    end)
          | FS_DEVFS => mret (if Devfs.devfs_exists rel then Some (vfs_fill_stat MODE_CHR 0 3000) else None)
          | FS_PROCFS =>
              if negb (Procfs.procfs_exists rel) then mret None
              else
                '(n, _) ← vfs_do_read midx rel junk 768 0;
                mret (Some (vfs_fill_stat (Z.lor YAM_S_IFREG YAM_S_IRUSR) (if 0 <? n then n else 0) 4000))
          | FS_NONE => mret None
          end
    end.

(** The file object behind a descriptor; an address that is not one is [None]. *)
Definition file_of (f : Z) : MV Fd.file_t := fun s =>
  match Fd.get_file f (kern s) with Some fl => Some (fl, s) | None => None end.

Definition set_offset (f off : Z) (fl : Fd.file_t) : MV unit :=
  modify (fun s => s <| kern := Fd.put_obj f (Fd.File (fl <| Fd.offset := off |>)) (kern s) |>).

Definition sys_fstat (fd : Z) : MV (option yam_stat_t) :=
  s ← get;
  if fd <? 0 then mret None
  else
    let f := Fd.fd_get fd (kern s) in
    if (fd <=? 2) && (f =? 0) then mret (Some (vfs_fill_stat MODE_CHR 0 (3000 + fd)))
    else if f =? 0 then mret None
    else
      fl ← file_of f;
      if Fd.mount_idx fl <? 0 then mret (Some (vfs_fill_stat MODE_CHR 0 (5000 + fd)))
      else sys_stat (Fd.f_path fl).

(** [vfs_path_is_dir] *)
Definition vfs_path_is_dir (path : list Z) : MV bool :=
  s ← get;
  let abs := abs_path path s in
  if streq abs (str "/") then mret true
  else
    match mount_at abs s with
    | Some _ => mret true
    | None =>
        let '(midx, rel) := find_mount abs s in
        if midx <? 0 then mret false
        else
          let m := g_mounts s midx in
          match m_type m with
          | FS_RAMFS =>
              let fs := ramfs_at s (priv m) in
              mret (match ramfs_find fs rel with Some i => is_dir (nodes fs i) | None => false end)
          | FS_DEVFS | FS_PROCFS => mret (streq rel (str "/"))
          | FS_FAT32 =>
              if priv m =? 0 then mret false
              else
                r ← on_disk (fun st => fat32_lookup junk fuel (vols s (priv m)) rel);
                mret (match r with Some i => fi_is_dir i | None => false end)
          | _ => mret false
          end
    end.

Definition sys_chdir (path : list Z) : MV Z :=
  dir ← vfs_path_is_dir path;
  if negb dir then mret (-1)
  else
    s ← get;
    if current s =? 0 then mret (-1)
    else _ ← modify (fun s => s <| cwd := (cwd s).[current s <- abs_path path s] |>); mret 0.

(** The path with its terminator, when it fits. *)
Definition sys_getcwd (size : Z) (s : vfs W) : option (list Z) :=
  if size =? 0 then None
  else
    let c := match cwd s (current s) with [] => str "/" | c => if current s =? 0 then str "/" else c end in
    if size <? strlen c + 1 then None else Some (c ++ [0]).

(** *** Descriptors *)

Definition sys_ftruncate (fd length : Z) : MV Z :=
  s ← get;
  if (fd <? 0) || (length <? 0) then mret (-1)
  else
    let f := Fd.fd_get fd (kern s) in
    if f =? 0 then mret (-1)
    else
      fl ← file_of f;
      if Fd.mount_idx fl <? 0 then mret (-1)
      else
        let '(midx, rel) := find_mount (Fd.f_path fl) s in
        if midx <? 0 then mret (-1)
        else
          let m := g_mounts s midx in
          let clamp := if length <? Fd.offset fl then set_offset f length fl else mret tt in
          match m_type m with
          | FS_RAMFS =>
              ok ← on_ramfs_opt (priv m) (ramfs_resize rel length (mem length));
              if ok : bool then _ ← clamp; mret 0 else mret (-1)
          | FS_FAT32 =>
              if negb (mem (if length =? 0 then 1 else length)) then mret (-1)
              else
                '(_, tmp) ← (if 0 <? length then vfs_do_read midx rel (fun _ => 0) length 0 else mret (0, fun _ => 0));
                n ← vfs_do_write midx rel tmp length;
                if n <? 0 then mret (-1) else _ ← clamp; mret 0
          | _ => mret (-1)
          end.

(** The custom operations of pipe ends are those of Pipe.v; here they are not
    reached ([None]). *)
Definition sys_read (fd : Z) (buf : buffer) (count : Z) : MV (Z * buffer) :=
  s ← get;
  let f := Fd.fd_get fd (kern s) in
  if f =? 0 then mret (-1, buf)
  else
    fl ← file_of f;
    match Fd.fops fl with
    | Fd.NoFops =>
        let '(midx, rel) := find_mount (Fd.f_path fl) s in
        if midx <? 0 then mret (-1, buf)
        else
          '(n, buf) ← vfs_do_read midx rel buf count (Fd.offset fl);
          _ ← (if 0 <? n then set_offset f (u64 (Fd.offset fl + n)) fl else mret tt);
          mret (n, buf)
    | _ => out_of_fuel
    end.

(** The new contents of a FAT32 file: what precedes the offset, then the data. *)
Definition write_fat32 (midx : Z) (rel : list Z) (buf : buffer) (count offset : Z) : MV Z :=
  let total := u64 (offset + count) in
  if negb (mem (if total =? 0 then 1 else total)) then mret (-1)
  else
    '(_, tmp) ← (if 0 <? offset then vfs_do_read midx rel (fun _ => 0) offset 0 else mret (0, fun _ => 0));
    vfs_do_write midx rel (blit tmp offset buf 0 count) total.

Definition write_file (midx : Z) (rel : list Z) (f : Z) (fl : Fd.file_t) (buf : buffer) (count : Z) : MV Z :=
  s ← get;
  let m := g_mounts s midx in
  let off := Fd.offset fl in
  match m_type m with
  | FS_RAMFS =>
      n ← on_ramfs_opt (priv m) (ramfs_write rel buf count off (mem count));
      _ ← (if 0 <? n then set_offset f (u64 (off + n)) fl else mret tt);
      mret n
  | FS_FAT32 =>
      n ← write_fat32 midx rel buf count off;
      if n <? 0 then mret (-1) else _ ← set_offset f (u64 (off + count)) fl; mret (i64 count)
  | _ =>
      n ← vfs_do_write midx rel buf count;
      _ ← (if 0 <? n then set_offset f (u64 (off + n)) fl else mret tt);
      mret n
  end.

Definition sys_write (fd : Z) (buf : buffer) (count : Z) : MV Z :=
  s ← get;
  let f := Fd.fd_get fd (kern s) in
  if f =? 0 then
    if (fd =? 1) || (fd =? 2) then
      _ ← modify (fun s => s <| console := console s ++ map buf (seqZ 0 count) |>); mret (i64 count)
    else mret (-1)
  else
    fl ← file_of f;
    match Fd.fops fl with
    | Fd.NoFops =>
        let '(midx, rel) := find_mount (Fd.f_path fl) s in
        if midx <? 0 then mret (-1)
        else
          st ← (if has (Fd.f_flags fl) VFS_O_APPEND then sys_stat (Fd.f_path fl) else mret None);
          let fl := match st with
                    | Some st => if 0 <=? st_size st then fl <| Fd.offset := u64 (st_size st) |> else fl
                    | None => fl
                    end in
          _ ← (if has (Fd.f_flags fl) VFS_O_APPEND then set_offset f (Fd.offset fl) fl else mret tt);
          write_file midx rel f fl buf count
    | _ => out_of_fuel
    end.

Definition sys_lseek (fd offset whence : Z) : MV Z :=
  s ← get;
  let f := Fd.fd_get fd (kern s) in
  if f =? 0 then mret (-1)
  else
    fl ← file_of f;
    base ← (if whence =? 0 then mret (Some 0)
            else if whence =? 1 then mret (Some (i64 (Fd.offset fl)))
            else if whence =? 2 then st ← sys_fstat fd; mret (option_map st_size st)
            else mret None);
    match base with
    | None => mret (-1)
    | Some base =>
        let next := i64 (base + offset) in
        if next <? 0 then mret (-1) else _ ← set_offset f next fl; mret next
    end.

End vfs.
End Vfs.
