(* ===== verification/VfsMount.v ===== *)
(** * Mounting (src/src/fs/vfs.c 270-581 and 1492-1533)

    Partition tables, the mounts of FAT32 volumes on block devices, the aliases
    that put /home, /var and /usr/local on the first of them, and the mounts
    made at boot.  Messages and the registration in the graph are left out. *)

From Stdlib Require Import String.
From stdpp Require Import gmap.
From S2P Require Import Prelude Mem Str Block Bcache Fat32 FatCache Sched Wait Pipe Fd Cstr Kprintf VfsPath Ramfs Input Vtty Pseudo Vfs.
Import Mem Block Bcache Fat32 FatCache Cstr VfsPath Ramfs Vfs.

Module VfsMount.

Definition mbr_type_is_fat32 (type : Z) : bool :=
  (type =? 0x0B) || (type =? 0x0C) || (type =? 0x1B) || (type =? 0x1C).

Definition GPT_BASIC_DATA_GUID : list Z :=
  [0xA2; 0xA0; 0xD0; 0xEB; 0xE5; 0xB9; 0x33; 0x44; 0x87; 0xC0; 0x68; 0xB6; 0xB7; 0x26; 0x99; 0xC7].

(** The [n] bytes of a buffer at [off]. *)
Definition bytes_at (b : buffer) (off n : Z) : list Z := map (fun i => b (off + i)) (seqZ 0 n).

Definition gpt_type_is_fat32_compatible (guid : list Z) : bool := bool_decide (guid = GPT_BASIC_DATA_GUID).

Definition SIZEOF_GPT_ENTRY : Z := 128.
Definition SIZEOF_VOL : Z := 56.

Record mbr_partition_t := { p_type : Z; lba_first : Z; p_sector_count : Z }.

(** Entry [p] of the partition table of a boot sector. *)
Definition mbr_part (b : buffer) (p : Z) : mbr_partition_t :=
  {| p_type := b (446 + 16 * p + 4); lba_first := load 4 (446 + 16 * p + 8) b; p_sector_count := load 4 (446 + 16 * p + 12) b |}.

Record gpt_header_t := {
  gpt_signature : list Z; header_size : Z; part_entry_lba : Z; part_entry_count : Z; part_entry_size : Z
}.

Definition gpt_header (b : buffer) : gpt_header_t :=
  {| gpt_signature := bytes_at b 0 8; header_size := load 4 12 b; part_entry_lba := load 8 72 b;
     part_entry_count := load 4 80 b; part_entry_size := load 4 84 b |}.

Record gpt_entry_t := { type_guid : list Z; first_lba : Z; last_lba : Z }.

Definition gpt_entry (b : buffer) (off : Z) : gpt_entry_t :=
  {| type_guid := bytes_at b off 16; first_lba := load 8 (off + 32) b; last_lba := load 8 (off + 40) b |}.

Section mount.
Context {W : Type}.
Variable junk : buffer.
Variable stack : list Z.
Variable fuel : nat.
Variable mem : Z -> bool.

#[local] Notation MV := (M (vfs W)).

(** Transfers of at most 128 sectors; a device without a read function is [None]. *)
Fixpoint rw_loop (n : nat) (d : Z) (wr : bool) (lba sectors off : Z) (buf : buffer) (s : bcache W) : option (Z * buffer * bcache W) :=
  if sectors <=? 0 then Some (0, buf, s)
  else
    match n with
    | O => None
    | S n =>
        let dev := devs s d in
        let chunk := if 128 <? sectors then 128 else sectors in
        let part := fun i => buf (off + i) in
        let next buf s := rw_loop n d wr (u64 (lba + chunk)) (sectors - chunk) (off + chunk * sector_size dev) buf s in
        if wr then
          match write dev with
          | None => Some (-1, buf, s)
          | Some w =>
              let '(rc, wd) := w lba chunk part (world s) in
              let s := s <| world := wd |> in
              if rc <? 0 then Some (-1, buf, s) else next buf s
          end
        else
          match read dev with
          | None => None
          | Some r =>
              let '(rc, b, wd) := r lba chunk part (world s) in
              let s := s <| world := wd |> in
              if rc <? 0 then Some (-1, buf, s) else next (blit buf off b 0 (chunk * sector_size dev)) s
          end
    end.

(** A round moves 128 sectors, or the rest. *)
Definition block_rw_all (d : Z) (wr : bool) (lba sectors : Z) (buf : buffer) : MV (Z * buffer) := fun s =>
  if d =? 0 then Some ((-1, buf), s)
  else
    match rw_loop (Z.to_nat (sectors / 128 + 1)) d wr lba sectors 0 buf (disk s) with
    | Some (rc, buf, dk) => Some ((rc, buf), s <| disk := dk |>)
    | None => None
    end.

Definition vfs_mount_fat32_block (d start_lba sectors : Z) (mount_point : list Z) : MV bool :=
  s ← get;
  if (d =? 0) || (VFS_MAX_MOUNTS <=? g_mount_count s) then mret false
  else if (sector_size (devs (disk s) d) =? 0) || (sectors =? 0) then mret false
  else if negb (mem SIZEOF_VOL) then mret false
  else
    vol ← on_disk (fun st => fat32_mount junk d start_lba);
    match vol with
    | None => mret false
    | Some vol =>
        _ ← modify (fun s =>
              let i := g_mount_count s in
              let v := vol_count s + 1 in
              let m := {| VfsPath.mount_point := copy_str 128 mount_point; m_type := FS_FAT32; priv := v; block_dev := d;
                          block_start_lba := start_lba; block_sector_count := sectors; block_backed := true; m_active := true |} in
              s <| vols := (vols s).[v <- vol] |> <| vol_count := v |> <| g_mounts := (g_mounts s).[i <- m] |>
                <| g_mount_count := i + 1 |>
                <| g_primary := match g_primary s with Some p => Some p | None => Some i end |>);
        mret true
    end.

(** The first usable entry of the table that mounts. *)
Fixpoint gpt_loop (n : nat) (i : Z) (d : Z) (h : gpt_header_t) (entries : buffer) (mount_point : list Z) : MV bool :=
  match n with
  | O => mret false
  | S n =>
      s ← get;
      let e := gpt_entry entries (i * part_entry_size h) in
      let next := gpt_loop n (i + 1) d h entries mount_point in
      if negb (gpt_type_is_fat32_compatible (type_guid e)) then next
      else if (first_lba e =? 0) || (last_lba e <? first_lba e) then next
      else if sector_count (devs (disk s) d) <=? last_lba e then next
      else
        ok ← vfs_mount_fat32_block d (first_lba e) (last_lba e - first_lba e + 1) mount_point;
        if ok : bool then mret true else next
  end.

Definition vfs_try_mount_gpt_fat32 (d : Z) (mount_point : list Z) : MV bool :=
  s ← get;
  let dev := devs (disk s) d in
  if (d =? 0) || negb (sector_size dev =? 512) || (sector_count dev <? 34) then mret false
  else
    '(rc, hs) ← block_rw_all d false 1 1 junk;
    if rc <? 0 then mret false
    else
      let h := gpt_header hs in
      if negb (bool_decide (gpt_signature h = str "EFI PART")) then mret false
      else if (header_size h <? 92) || (part_entry_size h <? SIZEOF_GPT_ENTRY) then mret false
      else if (part_entry_count h =? 0) || (256 <? part_entry_count h) then mret false
      else
        let entry_bytes := u64 (part_entry_count h * part_entry_size h) in
        let entry_sectors := u64 (entry_bytes + sector_size dev - 1) / sector_size dev in
        if (entry_sectors =? 0) || (64 <? entry_sectors) then mret false
        else if sector_count dev <? u64 (part_entry_lba h + entry_sectors) then mret false
        else if negb (mem (entry_sectors * sector_size dev)) then mret false
        else
          '(rc, entries) ← block_rw_all d false (part_entry_lba h) (u32 entry_sectors) junk;
          if rc <? 0 then mret false
          else gpt_loop (Z.to_nat (part_entry_count h)) 0 d h entries mount_point.

(** *** Directories on a volume, and aliases of its mount *)

Definition fat32_ensure_dir (vol : fat32_vol_t) (path : list Z) : MV bool :=
  r ← on_disk (fun st => fat32_lookup junk fuel vol path);
  match r with
  | Some i => mret (fi_is_dir i)
  | None => on_disk (fun st => fat32_mkdir junk stack fuel vol path)
  end.

(** Every round takes a character of [p] or is the last one. *)
Fixpoint ensure_loop (n : nat) (vol : fat32_vol_t) (p cur : list Z) (ok : bool) : MV bool :=
  match n with
  | O => mret ok
  | S n =>
      match p with
      | [] => mret ok
      | _ =>
          if negb (strlen cur + 1 <? 256) then mret ok
          else
            let p := skip_slashes p in
            let part := take (Z.to_nat (255 - strlen cur)) (fst (span_name p)) in
            let p := drop (length part) p in
            let cur := cur ++ part in
            made ← (if 1 <? strlen cur then fat32_ensure_dir vol cur else mret true);
            let cur := if (char_at p 0 =? SLASH) && (strlen cur + 1 <? 256) then cur ++ [SLASH] else cur in
            ensure_loop n vol p cur (ok && made)
      end
  end.

Definition fat32_ensure_dir_path (vol : fat32_vol_t) (path : list Z) : MV bool :=
  if negb (char_at path 0 =? SLASH) then mret false
  else if streq path (str "/") then mret true
  else ensure_loop (length path) vol (tail path) (str "/") true.

(** The index of the alias, or [None] when the table is full. *)
Definition vfs_replace_mount_with_block_alias (mount_point : list Z) (source : vfs_mount_t) : MV (option Z) :=
  s ← get;
  if negb (bool_decide (m_type source = FS_FAT32)) || (priv source =? 0) then mret None
  else
    let alias := source <| VfsPath.mount_point := copy_str 128 mount_point |> <| m_active := true |> in
    match mount_at mount_point s with
    | Some i => _ ← modify (fun s => s <| g_mounts := (g_mounts s).[i <- alias] |>); mret (Some i)
    | None =>
        if VFS_MAX_MOUNTS <=? g_mount_count s then mret None
        else
          let i := g_mount_count s in
          _ ← modify (fun s => s <| g_mounts := (g_mounts s).[i <- alias] |> <| g_mount_count := i + 1 |>);
          mret (Some i)
    end.

(** [changed |= ...] over the directories the promotion wants. *)
Fixpoint ensure_all (vol : fat32_vol_t) (paths : list (list Z)) (changed : bool) : MV bool :=
  match paths with
  | [] => mret changed
  | p :: paths => c ← fat32_ensure_dir_path vol p; ensure_all vol paths (changed || c)
  end.

(** The common body of vfs_promote_home_to_block, vfs_promote_var_to_block and
    vfs_promote_usr_local_to_block. *)
Definition promote (mount_point : list Z) (dirs : list (list Z)) (source : vfs_mount_t) : MV unit :=
  s ← get;
  if negb (bool_decide (m_type source = FS_FAT32)) || (priv source =? 0) then mret tt
  else
    changed ← ensure_all (vols s (priv source)) dirs false;
    _ ← (if changed && block_backed source then flush_mount source else mret tt);
    _ ← vfs_replace_mount_with_block_alias mount_point source;
    mret tt.

Definition vfs_promote_home_to_block : vfs_mount_t -> MV unit :=
  promote (str "/home") (map str ["/root"; "/guest"; "/yamuser"]%string).
Definition vfs_promote_var_to_block : vfs_mount_t -> MV unit :=
  promote (str "/var") (map str ["/cache/yamos/downloads"; "/cache/yamos/ypkg"; "/lib/yamos/packages"; "/log"]%string).
Definition vfs_promote_usr_local_to_block : vfs_mount_t -> MV unit :=
  promote (str "/usr/local") (map str ["/bin"; "/lib"; "/share"]%string).

(** *** The devices at boot *)

Fixpoint gpt_parts (n : nat) (p d : Z) (sector : buffer) (mount_point : list Z) : MV bool :=
  match n with
  | O => mret false
  | S n =>
      ok ← (if p_type (mbr_part sector p) =? 0xEE then vfs_try_mount_gpt_fat32 d mount_point else mret false);
      if ok : bool then mret true else gpt_parts n (p + 1) d sector mount_point
  end.

Fixpoint mbr_parts (n : nat) (p d : Z) (sector : buffer) (mount_point : list Z) : MV bool :=
  match n with
  | O => mret false
  | S n =>
      s ← get;
      let part := mbr_part sector p in
      let next := mbr_parts n (p + 1) d sector mount_point in
      if negb (mbr_type_is_fat32 (p_type part)) || (p_sector_count part =? 0) then next
      else if sector_count (devs (disk s) d) <? lba_first part + p_sector_count part then next
      else
        ok ← vfs_mount_fat32_block d (lba_first part) (p_sector_count part) mount_point;
        if ok : bool then mret true else next
  end.

(** ksnprintf of "/mnt/%s" into 32 bytes. *)
Definition dev_mount_point (name : list Z) : list Z := copy_str 32 (str "/mnt/" ++ name).

Definition mount_device (i : Z) : MV unit :=
  s ← get;
  let d := block_device_at i (blocks s) in
  let dev := devs (disk s) d in
  if (d =? 0) || negb (sector_size dev =? 512) || (sector_count dev =? 0) then mret tt
  else if 0xFFFFFFFF <? sector_count dev then mret tt
  else
    '(rc, sector) ← block_rw_all d false 0 1 junk;
    if rc <? 0 then mret tt
    else
      let mp := dev_mount_point (Block.name dev) in
      did ← (if load 2 510 sector =? 0xAA55 then
               g ← gpt_parts 4 0 d sector mp;
               if g : bool then mret true else mbr_parts 4 0 d sector mp
             else mret false);
      _ ← (if did : bool then mret true else vfs_mount_fat32_block d 0 (sector_count dev) mp);
      mret tt.

Fixpoint mount_devices (n : nat) (i : Z) : MV unit :=
  match n with O => mret tt | S n => _ ← mount_device i; mount_devices n (i + 1) end.

Definition vfs_mount_block_devices : MV unit :=
  s ← get;
  _ ← mount_devices (Z.to_nat (block_device_count (blocks s))) 0;
  s ← get;
  match g_primary s with
  | None => mret tt
  | Some p =>
      let source := g_mounts s p in
      _ ← vfs_promote_home_to_block source;
      _ ← vfs_promote_var_to_block source;
      vfs_promote_usr_local_to_block source
  end.

(** *** Mounts by type *)

(** [Kfat32] has whether a device was given. *)
Inductive mount_kind := Kinitrd | Kdevfs | Kprocfs | Kramfs (i : Z) | Kfat32 (device : bool) | Kother.

Definition zero_vol : fat32_vol_t :=
  {| Fat32.dev := 0; start_lba := 0; bytes_per_sector := 0; sectors_per_cluster := 0; bytes_per_cluster := 0; reserved_sectors := 0;
     num_fats := 0; fat_size := 0; root_cluster := 0; data_start := 0; total_clusters := 0; mounted := false |}.

(** The table entry is only partly overwritten, as in the source; an unknown
    type leaves the entry inactive and the count as it was. *)
Definition vfs_mount (k : mount_kind) (mount_point : list Z) (s : vfs W) : vfs W :=
  if VFS_MAX_MOUNTS <=? g_mount_count s then s
  else
    let i := g_mount_count s in
    let m := (g_mounts s i) <| VfsPath.mount_point := copy_str 128 mount_point |> <| m_active := true |> in
    let put m n := s <| g_mounts := (g_mounts s).[i <- m] |> <| g_mount_count := n |> in
    match k with
    | Kinitrd => put (m <| m_type := FS_INITRD |> <| priv := 0 |>) (i + 1)
    | Kdevfs => put (m <| m_type := FS_DEVFS |> <| priv := 0 |>) (i + 1)
    | Kprocfs => put (m <| m_type := FS_PROCFS |> <| priv := 0 |>) (i + 1)
    | Kramfs r => put (m <| m_type := FS_RAMFS |> <| priv := r |>) (i + 1)
    | Kfat32 device =>
        if mem SIZEOF_VOL && device then
          let v := vol_count s + 1 in
          (put (m <| m_type := FS_FAT32 |> <| priv := v |>) (i + 1)) <| vols := (vols s).[v <- zero_vol] |> <| vol_count := v |>
        else put m (i + 1)
    | Kother => put (m <| m_active := false |>) i
    end.

Definition vfs_unmount (mount_point : list Z) (s : vfs W) : vfs W :=
  match find_index (Z.to_nat (g_mount_count s)) 0 (fun i => streq (VfsPath.mount_point (g_mounts s i)) mount_point) with
  | Some i => s <| g_mounts := (g_mounts s).[i <- (g_mounts s i) <| m_active := false |>] |>
  | None => s
  end.

Definition RAMFS_TMP : Z := 1.
Definition RAMFS_VAR : Z := 2.
Definition RAMFS_USR_LOCAL : Z := 3.
Definition RAMFS_OPT : Z := 4.
Definition RAMFS_HOME : Z := 5.
Definition RAMFS_MNT : Z := 6.

Definition mkdirs (paths : list (list Z)) (fs : ramfs_t) : ramfs_t := fold_left (fun fs p => ramfs_mkdir_p p fs) paths fs.

Definition boot_ramfs : Z -> ramfs_t :=
  (fun _ => ramfs_init)
    .[RAMFS_VAR <- mkdirs (map str ["/cache/yamos/downloads"; "/cache/yamos/ypkg"; "/lib/yamos/packages"; "/log"]%string) ramfs_init]
    .[RAMFS_USR_LOCAL <- mkdirs (map str ["/bin"; "/lib"; "/share"]%string) ramfs_init]
    .[RAMFS_OPT <- mkdirs (map str ["/yamos/packages"]%string) ramfs_init]
    .[RAMFS_HOME <- mkdirs (map str ["/root"; "/guest"]%string) ramfs_init].

Definition boot_mounts : list (mount_kind * list Z) :=
  [(Kinitrd, str "/"); (Kdevfs, str "/dev"); (Kprocfs, str "/proc"); (Kramfs RAMFS_TMP, str "/tmp");
   (Kramfs RAMFS_VAR, str "/var"); (Kramfs RAMFS_USR_LOCAL, str "/usr/local"); (Kramfs RAMFS_OPT, str "/opt");
   (Kramfs RAMFS_HOME, str "/home"); (Kramfs RAMFS_MNT, str "/mnt")].

(** The state before block devices are looked at. *)
Definition early_init (s : vfs W) : vfs W :=
  let s := s <| g_mounts := fun _ => zero_mount |> <| g_mount_count := 0 |>
             <| initrd := Initrd.initrd_init (initrd s) |> <| ramfs_at := boot_ramfs |> in
  fold_left (fun s '((k, mp) : mount_kind * list Z) => vfs_mount k mp s) boot_mounts s.

Definition vfs_init : MV unit := fun s => vfs_mount_block_devices (early_init s).

End mount.
End VfsMount.
