(* ===== verification/VfsClaims.v ===== *)
(** * What the file calls promise

    A descriptor on a RAM file system is an abstract file with an offset,
    whatever is called on it; paths opened at boot reach the right file
    system; and what the layer above FAT32 and /proc does to files. *)

From Stdlib Require Import String.
From stdpp Require Import gmap.
From S2P Require Import Prelude Mem Str Block Bcache BcacheClaims Fat32 FatClaims FatCache Sched SchedClaims Wait Pipe Fd Cstr Kprintf VfsPath Ramfs RamfsClaims Input Vtty Pseudo Vfs VfsMount.
Import Mem Block Bcache Fat32 FatCache Cstr VfsPath Ramfs RamfsClaims Vfs VfsMount.

Module VfsClaims.

#[local] Existing Instance Fd.eta_file.
#[local] Existing Instance Fd.eta_kern.

Section io.
Context {W : Type}.
Variable junk : buffer.
Variable stack : list Z.
Variable fuel : nat.
Variable mem : Z -> bool.
Implicit Types s : vfs W.

(** [f] is the file object of descriptor [fd], open on [rel] of RAM file system [i]. *)
Record behind s (fd i : Z) (rel : list Z) (off : Z) (fl : Fd.file_t) : Prop := {
  bh_fd : Fd.fd_get fd (kern s) <> 0;
  bh_file : Fd.get_file (Fd.fd_get fd (kern s)) (kern s) = Some fl;
  bh_fops : Fd.fops fl = Fd.NoFops;
  bh_off : Fd.offset fl = off;
  bh_append : has (Fd.f_flags fl) VFS_O_APPEND = false;
  bh_mount : exists midx, find_mount (Fd.f_path fl) s = (midx, rel) /\ 0 <= midx /\
    m_type (g_mounts s midx) = FS_RAMFS /\ priv (g_mounts s midx) = i
}.

(** Descriptor [fd] is open on the file [rel] of RAM file system [i], which has
    the bytes [bs], at offset [off]. *)
Record ram_open s (fd i : Z) (rel : list Z) (bs : list Z) (off : Z) : Prop := {
  ro_file : exists fl, behind s fd i rel off fl;
  ro_fs : ramfs_ok (ramfs_at s i);
  ro_short : short rel;
  ro_bytes : contents (ramfs_at s i) rel = Some (File bs);
  ro_off : 0 <= off < 2 ^ 63
}.

(** *** The abstract file *)

Inductive io := Write (src : buffer) (count : Z) | Read (buf : buffer) (count : Z) | Seek (pos whence : Z).

Inductive answer := Wrote (n : Z) | Got (n : Z) (data : buffer) | At (pos : Z).

Definition do_io (fd : Z) (o : io) : M (vfs W) answer :=
  match o with
  | Write src count => n ← sys_write junk stack fuel mem fd src count; mret (Wrote n)
  | Read buf count => '(n, b) ← sys_read junk fuel mem fd buf count; mret (Got n b)
  | Seek pos whence => n ← sys_lseek junk fuel mem fd pos whence; mret (At n)
  end.

Definition io_allowed (o : io) (bs : list Z) (off : Z) : Prop :=
  match o with
  | Write _ count => 0 <= count /\ off + count < 2 ^ 63 /\ off <= strlen bs
  | Read _ count => 0 <= count < 2 ^ 63 /\ off + strlen bs < 2 ^ 63
  | Seek pos whence => (whence = 0 \/ whence = 1) /\ - 2 ^ 62 <= pos < 2 ^ 62 /\ off < 2 ^ 62
  end.

(** What an operation answers, and the file and offset it leaves. *)
Definition io_spec s (i : Z) (o : io) (bs : list Z) (off : Z) (r : answer) (bs' : list Z) (off' : Z) : Prop :=
  match o with
  | Write src count =>
      r = Wrote count /\ bs' = overlay bs off (bytes_of src count) /\ off' = off + count \/
      r = Wrote (-1) /\ bs' = bs /\ off' = off /\ refused (ramfs_at s i) (off + count) (mem count)
  | Read buf count =>
      let data := take (Z.to_nat count) (drop (Z.to_nat off) bs) in
      bs' = bs /\ off' = off + strlen data /\
      exists b, r = Got (strlen data) b /\ bytes_of b (strlen data) = data /\
        forall j, j < 0 \/ strlen data <= j -> b j = buf j
  | Seek pos whence =>
      let next := (if whence =? 0 then 0 else off) + pos in
      bs' = bs /\ (next < 0 /\ r = At (-1) /\ off' = off \/ 0 <= next /\ r = At next /\ off' = next)
  end.

Lemma set_offset_behind s fd i rel off fl off' :
  behind s fd i rel off fl ->
  let k := Fd.put_obj (Fd.fd_get fd (kern s)) (Fd.File (fl <| Fd.offset := off' |>)) (kern s) in
  behind (s <| kern := k |>) fd i rel off' (fl <| Fd.offset := off' |>).
Proof.
  intros [H1 H2 H3 H4 H5 H6]. cbv zeta.
  assert (Hg : forall k', kern (s <| kern := k' |>) = k') by done.
  assert (Hfd : Fd.fd_get fd (Fd.put_obj (Fd.fd_get fd (kern s)) (Fd.File (fl <| Fd.offset := off' |>)) (kern s)) = Fd.fd_get fd (kern s))
    by reflexivity.
  split; rewrite ?Hg, ?Hfd; [done| |done|done|done|done].
  unfold Fd.get_file, Fd.put_obj. change (Fd.heap ((kern s) <| Fd.heap := ?h |>)) with h. by rewrite lookup_insert_eq.
Qed.

Lemma set_ramfs_behind s fd i rel off fl j fs : behind s fd i rel off fl -> behind (s <| ramfs_at := (ramfs_at s).[j <- fs] |>) fd i rel off fl.
Proof. intros [H1 H2 H3 H4 H5 H6]. by split. Qed.

Lemma set_offset_open s fd i rel bs off fl off' :
  ram_open s fd i rel bs off -> behind s fd i rel off fl -> 0 <= off' < 2 ^ 63 -> exists s',
  set_offset (Fd.fd_get fd (kern s)) off' fl s = Some (tt, s') /\ ram_open s' fd i rel bs off' /\ ramfs_at s' = ramfs_at s.
Proof.
  intros [_ H2 H3 H4 H5] Hb Ho. eexists. split; [reflexivity|]. split; [|done].
  split; [eexists; by eapply set_offset_behind|done|done|done|done].
Qed.

Lemma write_refines s fd i rel bs off src count :
  ram_open s fd i rel bs off -> io_allowed (Write src count) bs off ->
  exists r s' bs' off', do_io fd (Write src count) s = Some (r, s') /\ io_spec s i (Write src count) bs off r bs' off' /\
    ram_open s' fd i rel bs' off' /\ forall q, q <> rel -> contents (ramfs_at s' i) q = contents (ramfs_at s i) q.
Proof.
  intros Ho (Hc & Hend & Hoff). pose proof Ho as [[fl Hb] Hfs Hsh Hbs Hr]. pose proof Hb as [H1 H2 H3 H4 H5 (midx & Hm & Hm0 & Ht & Hp)].
  assert (Hfb : file_bytes (ramfs_at s i) rel = bs) by (unfold file_bytes; by rewrite Hbs).
  destruct (ram_write_ok (ramfs_at s i) rel src count off (mem count) Hfs Hsh ltac:(rewrite Hfb; lia) Hc Hend) as (r & fs' & E & Hfs' & Hsame & Hres).
  set (s1 := s <| ramfs_at := (ramfs_at s).[i <- fs'] |>).
  assert (Hat : ramfs_at s1 i = fs') by apply upd_eq.
  assert (Hdo : do_io fd (Write src count) s =
    match (if 0 <? r then set_offset (Fd.fd_get fd (kern s)) (u64 (off + r)) fl s1 else Some (tt, s1)) with
    | Some (_, s2) => Some (Wrote r, s2) | None => None end).
  { unfold do_io, sys_write, mbind, M_bind, get. rewrite (proj2 (Z.eqb_neq _ 0) H1). unfold file_of. rewrite H2, H3, Hm.
    rewrite (proj2 (Z.ltb_ge midx 0) Hm0), H5. unfold write_file, mbind, M_bind, get, mret, M_ret. cbv beta iota zeta. rewrite H5. cbv beta iota. rewrite Ht, Hp. unfold on_ramfs_opt.
    rewrite H4, E. fold s1. destruct (0 <? r); [|done]. by destruct (set_offset _ _ _ s1) as [[[] s2]|]. }
  assert (Hb1 : behind s1 fd i rel off fl) by (by apply set_ramfs_behind).
  destruct Hres as [(-> & Hnd & Hc')|(-> & Hres)].
  - rewrite Hfb in Hc'.
    assert (Ho1 : ram_open s1 fd i rel (overlay bs off (bytes_of src count)) off) by (split; rewrite ?Hat; eauto).
    assert (Hin : 0 <= off + count < 2 ^ 63) by lia.
    destruct (set_offset_open s1 fd i rel _ off fl (off + count) Ho1 Hb1 Hin) as (s2 & E2 & Ho2 & Er2).
    change (kern s1) with (kern s) in E2. destruct (Z.ltb_spec 0 count) as [Hpos|Hz].
    + exists (Wrote count), s2, (overlay bs off (bytes_of src count)), (off + count). rewrite Hdo, wrap_small by lia.
      rewrite E2. split_and!; [done|by left|done|]. intros q Hq. rewrite Er2, Hat. by apply Hsame.
    + exists (Wrote count), s1, (overlay bs off (bytes_of src count)), (off + count). rewrite Hdo.
      split_and!; [done|by left|by replace (off + count) with off by lia|]. intros q Hq. rewrite Hat. by apply Hsame.
  - exists (Wrote (-1)), s1, bs, off. rewrite Hdo. rewrite Hbs in Hres.
    destruct Hres as [[? _]|[[? _]|[Hc' Href]]]; [done|done|]. rewrite Hfb in Hc'.
    split_and!; [done|right; done|split; rewrite ?Hat; eauto|]. intros q Hq. rewrite Hat. by apply Hsame.
Qed.

Lemma read_refines s fd i rel bs off buf count :
  ram_open s fd i rel bs off -> io_allowed (Read buf count) bs off ->
  exists r s' bs' off', do_io fd (Read buf count) s = Some (r, s') /\ io_spec s i (Read buf count) bs off r bs' off' /\
    ram_open s' fd i rel bs' off' /\ forall q, q <> rel -> contents (ramfs_at s' i) q = contents (ramfs_at s i) q.
Proof.
  intros Ho (Hc & Hend). pose proof Ho as [[fl Hb] Hfs Hsh Hbs Hr]. pose proof Hb as [H1 H2 H3 H4 H5 (midx & Hm & Hm0 & Ht & Hp)].
  pose proof (ram_read_ok (ramfs_at s i) rel buf count off Hfs ltac:(lia) ltac:(lia)) as Hread.
  destruct (ramfs_read (ramfs_at s i) rel buf count off) as [n b] eqn:E. rewrite Hbs in Hread. cbv zeta in Hread.
  set (data := take (Z.to_nat count) (drop (Z.to_nat off) bs)) in *. destruct Hread as (Hn & Hdata & Hrest).
  assert (Hdo : do_io fd (Read buf count) s =
    match (if 0 <? n then set_offset (Fd.fd_get fd (kern s)) (u64 (off + n)) fl s else Some (tt, s)) with
    | Some (_, s2) => Some (Got n b, s2) | None => None end).
  { unfold do_io, sys_read, mbind, M_bind, get. rewrite (proj2 (Z.eqb_neq _ 0) H1). unfold file_of. rewrite H2, H3, Hm.
    rewrite (proj2 (Z.ltb_ge midx 0) Hm0). unfold vfs_do_read, mbind, M_bind, get, mret, M_ret. cbv beta iota zeta.
    rewrite Ht, Hp, H4, E. cbv beta iota zeta. destruct (0 <? n); [|done]. by destruct (set_offset _ _ _ s) as [[[] s2]|]. }
  assert (Hlen : strlen data <= strlen bs) by (unfold data, strlen; rewrite length_take, length_drop; lia).
  destruct (Z.ltb_spec 0 n) as [Hpos|Hz].
  - destruct (set_offset_open s fd i rel bs off fl (off + n) Ho Hb ltac:(lia)) as (s2 & E2 & Ho2 & Er2).
    exists (Got n b), s2, bs, (off + n). rewrite Hdo, wrap_small, E2 by lia. cbn [io_spec]. fold data. rewrite <- Hn, Er2.
    split_and!; try done. by exists b.
  - assert (n = 0) as Hn0 by (unfold strlen in Hn; lia). exists (Got n b), s, bs, off. rewrite Hdo. cbn [io_spec]. fold data. rewrite <- Hn.
    split_and!; try done; [lia|]. by exists b.
Qed.

Lemma seek_refines s fd i rel bs off pos whence :
  ram_open s fd i rel bs off -> io_allowed (Seek pos whence) bs off ->
  exists r s' bs' off', do_io fd (Seek pos whence) s = Some (r, s') /\ io_spec s i (Seek pos whence) bs off r bs' off' /\
    ram_open s' fd i rel bs' off' /\ forall q, q <> rel -> contents (ramfs_at s' i) q = contents (ramfs_at s i) q.
Proof.
  intros Ho (Hw & Hpos & Hoff). pose proof Ho as [[fl Hb] Hfs Hsh Hbs Hr]. pose proof Hb as [H1 H2 H3 H4 H5 _].
  set (next := (if whence =? 0 then 0 else off) + pos).
  assert (Hdo : do_io fd (Seek pos whence) s =
    if next <? 0 then Some (At (-1), s)
    else match set_offset (Fd.fd_get fd (kern s)) next fl s with Some (_, s2) => Some (At next, s2) | None => None end).
  { unfold do_io, sys_lseek, mbind, M_bind, get. rewrite (proj2 (Z.eqb_neq _ 0) H1). unfold file_of. rewrite H2.
    assert (Hi : forall z, - 2 ^ 63 <= z < 2 ^ 63 -> i64 z = z) by (intros z Hz; apply swrap_small; lia).
    unfold next. destruct Hw as [-> | ->]; cbn [Z.eqb Pos.eqb]; unfold mret, M_ret; cbv beta iota zeta; rewrite ?H4, ?(Hi off), ?Hi by lia;
      (destruct (_ <? 0); [done|]); by destruct (set_offset _ _ _ s) as [[[] s2]|]. }
  destruct (Z.ltb_spec next 0) as [Hneg|Hge].
  - exists (At (-1)), s, bs, off. rewrite Hdo. split_and!; [done| |done|done]. split; [done|]. by left.
  - destruct (set_offset_open s fd i rel bs off fl next Ho Hb) as (s2 & E2 & Ho2 & Er2).
    { unfold next in *. destruct (whence =? 0); lia. }
    exists (At next), s2, bs, next. rewrite Hdo, E2, Er2. split_and!; [done| |done|done]. split; [done|]. by right.
Qed.

(** *** Opening *)

(** An object for the file and a descriptor are to be had. *)
Definition can_open (a : Z) s : Prop :=
  a <> 0 /\ current s <> 0 /\ exists j, 0 <= j < Fd.MAX_FDS /\ Fd.fd_table (kern s) (current s) j = 0.

(** A path that leads to [rel] in RAM file system [i]. *)
Definition leads s (path : list Z) (i : Z) (rel : list Z) : Prop :=
  strlen (abs_path path s) < 256 /\ exists midx, find_mount (abs_path path s) s = (midx, rel) /\
    0 <= midx < g_mount_count s /\ m_type (g_mounts s midx) = FS_RAMFS /\ priv (g_mounts s midx) = i.

(** Create and empty. *)
Definition O_NEW : Z := 0x240.

Lemma install_behind s abs a midx rel i :
  can_open a s -> strlen abs < 256 -> find_mount abs s = (midx, rel) -> 0 <= midx ->
  m_type (g_mounts s midx) = FS_RAMFS -> priv (g_mounts s midx) = i ->
  exists fd s' fl, on_kern (Fd.open_file O_NEW midx abs a) s = Some (fd, s') /\ 0 <= fd /\
    behind s' fd i rel 0 fl /\ ramfs_at s' = ramfs_at s.
Proof.
  intros (Ha & Hc & j & Hj & Hfree) Habs Hm Hm0 Ht Hp. unfold on_kern, Fd.open_file. rewrite (proj2 (Z.eqb_neq _ 0) Ha).
  set (fl := Fd.zero_file <| Fd.f_flags := O_NEW |> <| Fd.ref_count := 1 |> <| Fd.mount_idx := midx |> <| Fd.f_path := take 255 abs |>).
  set (k := Fd.put_obj a (Fd.File fl) (kern s)). unfold Fd.fd_alloc. change (Sched.pc_current (Fd.sch k)) with (current s).
  rewrite (proj2 (Z.eqb_neq _ 0) Hc). change (Fd.fd_table k) with (Fd.fd_table (kern s)).
  destruct (find_index (Z.to_nat Fd.MAX_FDS) 0 (fun i => Fd.fd_table (kern s) (current s) i =? 0)) as [fd|] eqn:E.
  2:{ rewrite find_index_None in E. specialize (E j ltac:(unfold Fd.MAX_FDS in *; lia)). lia. }
  apply find_index_Some in E as (Hfd & _ & _). rewrite (proj2 (Z.ltb_ge fd 0)) by lia.
  eexists fd, _, fl. split; [reflexivity|]. split; [lia|]. split; [|done].
  assert (Hget : Fd.fd_get fd (Fd.set_fd (current s) fd a k) = a).
  { unfold Fd.fd_get. change (Sched.pc_current (Fd.sch (Fd.set_fd (current s) fd a k))) with (current s).
    rewrite (proj2 (Z.eqb_neq _ 0) Hc). unfold Fd.MAX_FDS in *. case_bool; [lia|].
    change (Fd.fd_table (Fd.set_fd ?t ?i ?f ?k)) with ((Fd.fd_table k).[t <- (Fd.fd_table k t).[i <- f]]). by rewrite !upd_eq. }
  assert (Hpath : Fd.f_path fl = abs) by (change (Fd.f_path fl) with (take 255 abs); apply take_ge; unfold strlen in Habs; lia).
  split.
  - change (kern (s <| kern := ?x |>)) with x. by rewrite Hget.
  - change (kern (s <| kern := ?x |>)) with x. rewrite Hget. unfold Fd.get_file.
    change (Fd.heap (Fd.set_fd (current s) fd a k)) with (<[a := Fd.File fl]> (Fd.heap (kern s))). by rewrite lookup_insert_eq.
  - done.
  - done.
  - done.
  - exists midx. by rewrite Hpath.
Qed.

Lemma open_new s path a i rel :
  can_open a s -> leads s path i rel -> ramfs_ok (ramfs_at s i) -> short rel -> contents (ramfs_at s i) rel <> Some Dir ->
  (contents (ramfs_at s i) rel <> None \/ ~ table_full (ramfs_at s i)) ->
  exists fd s', sys_open junk stack fuel path O_NEW a s = Some (fd, s') /\ 0 <= fd /\ ram_open s' fd i rel [] 0 /\
    bytes_used (ramfs_at s' i) = bytes_used (ramfs_at s i).
Proof.
  intros Ha (Habs & midx & Hm & Hm0 & Ht & Hp) Hfs Hsh Hnd Hroom.
  pose proof (ram_create_ok (ramfs_at s i) rel false Hfs Hsh) as Hc.
  destruct (ramfs_create rel false (ramfs_at s i)) as [[n|] fs1] eqn:Ec.
  2:{ destruct Hc as (_ & Hn & Hfull). by destruct Hroom. }
  destruct Hc as (Hfs1 & Hn & Hu & Hnm & Hc1 & _ & Hb1 & _).
  pose proof (truncate_ok fs1 rel Hfs1 Hsh) as Htr. destruct (ramfs_truncate rel fs1) as [t fs2] eqn:Et.
  destruct Htr as (Hfs2 & _ & Htr). assert (Hnd1 : contents fs1 rel <> Some Dir).
  { rewrite Hc1. destruct (contents (ramfs_at s i) rel) as [[]|]; cbn; congruence. }
  destruct Htr as [(-> & _ & Hc2)|(_ & _ & [?|[Hnone _]])]; [|done|by rewrite Hc1 in Hnone].
  assert (Hb2 : bytes_used fs2 = bytes_used fs1).
  { revert Et. unfold ramfs_truncate. destruct (ramfs_create rel false fs1) as [[m|] fs3] eqn:E3.
    - pose proof (ram_create_ok fs1 rel false Hfs1 Hsh) as H3. rewrite E3 in H3. destruct H3 as (_ & _ & _ & _ & _ & _ & H3 & _).
      destruct (is_dir _); intros [= <-]; by rewrite <- H3.
    - pose proof (ram_create_ok fs1 rel false Hfs1 Hsh) as H3. rewrite E3 in H3. by destruct H3 as (-> & _); intros [= <-]. }
  set (s2 := s <| ramfs_at := (ramfs_at s).[i <- fs1] |> <| ramfs_at := ((ramfs_at s).[i <- fs1]).[i <- fs2] |>).
  destruct (install_behind s2 (abs_path path s) a midx rel i) as (fd & s' & fl & E & Hfd & Hb & Er); try done; [lia|].
  exists fd, s'. split; [|split; [done|split]].
  - rewrite <- E. unfold sys_open, mbind, M_bind, get. rewrite Hm, (proj2 (Z.ltb_ge midx 0)) by lia.
    unfold vfs_path_exists_for_open, mbind, M_bind, get, mret, M_ret. rewrite (proj2 (Z.ltb_ge midx 0)), (proj2 (Z.leb_gt (g_mount_count s) midx)) by lia.
    cbn [orb]. rewrite Ht, Hp. cbv beta iota zeta. change (has O_NEW VFS_O_CREAT) with true. change (has O_NEW VFS_O_EXCL) with false.
    change (has O_NEW VFS_O_TRUNC) with true. rewrite !andb_false_r. unfold prepare, mbind, M_bind, on_ramfs. rewrite Ht, Hp, Ec. cbv beta iota zeta.
    change (ramfs_at (s <| ramfs_at := ?x |>)) with x. rewrite upd_eq, Et. done.
  - assert (Hat : ramfs_at s' i = fs2) by (rewrite Er; apply upd_eq). split; rewrite ?Hat; eauto. lia.
  - rewrite Er. change (ramfs_at s2) with (((ramfs_at s).[i <- fs1]).[i <- fs2]). rewrite upd_eq. congruence.
Qed.


(** *** From boot on *)

Definition ram_mounts : list (list (list Z) * Z) :=
  [([str "tmp"], RAMFS_TMP); ([str "var"], RAMFS_VAR); ([str "usr"; str "local"], RAMFS_USR_LOCAL); ([str "opt"], RAMFS_OPT);
   ([str "home"], RAMFS_HOME); ([str "mnt"], RAMFS_MNT)].

(** The components of the mount points at boot, by index. *)
Definition boot_points : list (list (list Z)) :=
  [[]; [str "dev"]; [str "proc"]; [str "tmp"]; [str "var"]; [str "usr"; str "local"]; [str "opt"]; [str "home"]; [str "mnt"]].

Definition boot_mount (i : Z) : vfs_mount_t :=
  match boot_mounts !! Z.to_nat i with
  | Some (k, mp) =>
      let '(t, r) := match k with Kinitrd => (FS_INITRD, 0) | Kdevfs => (FS_DEVFS, 0) | Kprocfs => (FS_PROCFS, 0)
                                | Kramfs r => (FS_RAMFS, r) | _ => (FS_NONE, 0) end in
      zero_mount <| mount_point := mp |> <| m_type := t |> <| priv := r |> <| m_active := true |>
  | None => zero_mount
  end.

Lemma early_table s0 : g_mount_count (early_init mem s0) = 9 /\ ramfs_at (early_init mem s0) = boot_ramfs /\
  kern (early_init mem s0) = kern s0 /\ cwd (early_init mem s0) = cwd s0 /\
  forall i, 0 <= i < 9 -> g_mounts (early_init mem s0) i = boot_mount i.
Proof.
  split_and!; [reflexivity|reflexivity|reflexivity|reflexivity|]. intros i Hi.
  assert (i = 0 \/ i = 1 \/ i = 2 \/ i = 3 \/ i = 4 \/ i = 5 \/ i = 6 \/ i = 7 \/ i = 8) as E by lia.
  destruct_or! E; subst i; reflexivity.
Qed.

Definition part_okb (p : list Z) : bool :=
  negb (streq p []) && forallb (fun c => negb (c =? SLASH)) p && negb (streq p (str ".")) && negb (streq p (str "..")).

Lemma part_okb_ok p : part_okb p = true -> part_ok p.
Proof.
  unfold part_okb. rewrite !andb_true_iff, !negb_true_iff. intros [[[H1 H2] H3] H4].
  split_and!; [intros ->; done| |intros ->; by rewrite streq_refl in H3|intros ->; by rewrite streq_refl in H4].
  apply List.Forall_forall. intros c Hc. rewrite forallb_forall in H2. specialize (H2 c Hc). lia.
Qed.

Lemma point_parts q : In q boot_points -> Forall part_ok q.
Proof.
  intros Hq. assert (forallb (forallb part_okb) boot_points = true) as H by (vm_compute; reflexivity).
  rewrite forallb_forall in H. specialize (H q Hq). rewrite forallb_forall in H.
  apply List.Forall_forall. intros p Hp. by apply part_okb_ok, H.
Qed.

Lemma boot_point i : 0 <= i < 9 -> exists q, boot_points !! Z.to_nat i = Some q /\ In q boot_points /\
  mount_point (boot_mount i) = render q /\ m_active (boot_mount i) = true.
Proof.
  intros Hi. assert (i = 0 \/ i = 1 \/ i = 2 \/ i = 3 \/ i = 4 \/ i = 5 \/ i = 6 \/ i = 7 \/ i = 8) as E by lia.
  destruct_or! E; subst i; (eexists; split; [reflexivity|]; split; [cbn; auto 10|split; reflexivity]).
Qed.

(** Below a RAM file system's mount point no other mount point lies. *)
Lemma mount_points_apart q i p2 q' p2' : In (q, i) ram_mounts -> In q' boot_points -> q ++ p2 = q' ++ p2' -> q' = [] \/ q' = q.
Proof.
  intros Hq Hq' E. unfold ram_mounts in Hq. cbn [In] in Hq. unfold boot_points in Hq'. cbn [In] in Hq'.
  repeat (destruct Hq as [Hq|Hq]; [injection Hq as <- <-|]); try done;
    repeat (destruct Hq' as [Hq'|Hq']; [subst q'; auto; cbn [app] in E; try discriminate E|]); try done.
Qed.

Lemma ram_mount_index q i : In (q, i) ram_mounts -> exists k, 0 <= k < 9 /\ boot_points !! Z.to_nat k = Some q /\
  m_type (boot_mount k) = FS_RAMFS /\ priv (boot_mount k) = i /\ q <> [].
Proof.
  intros Hq. unfold ram_mounts in Hq. cbn [In] in Hq.
  repeat (destruct Hq as [Hq|Hq]; [injection Hq as <- <-|]); [exists 3|exists 4|exists 5|exists 6|exists 7|exists 8|done];
    (split; [lia|]; split; [reflexivity|]; split; [reflexivity|]; split; [reflexivity|done]).
Qed.

Lemma boot_points_inj i j q : 0 <= i < 9 -> 0 <= j < 9 -> boot_points !! Z.to_nat i = Some q -> boot_points !! Z.to_nat j = Some q -> i = j.
Proof.
  intros Hi Hj E1 E2. assert (NoDup boot_points) as Hnd by (apply (bool_decide_unpack _); vm_compute; exact I).
  pose proof (NoDup_lookup _ _ _ _ Hnd E1 E2). lia.
Qed.

(** Paths below a mount point of a RAM file system lead into it. *)
Lemma boot_leads s0 q i p2 :
  In (q, i) ram_mounts -> canonical (q ++ p2) -> strlen (render (q ++ p2)) < 256 ->
  leads (early_init mem s0) (render (q ++ p2)) i (render p2).
Proof.
  intros Hq Hc Hl. destruct (early_table s0) as (En & _ & Ek & Ew & Em).
  assert (Habs : abs_path (render (q ++ p2)) (early_init mem s0) = render (q ++ p2)).
  { unfold abs_path, vfs_resolve_path. destruct (render (q ++ p2)) as [|c r] eqn:Er; [by destruct (q ++ p2)|]. rewrite <- Er.
    rewrite render_abs. apply path_normalize_fixed; [done|by rewrite Er]. }
  unfold leads. rewrite Habs. split; [done|]. unfold find_mount. rewrite En.
  destruct (ram_mount_index q i Hq) as (k & Hk & Hbk & Htk & Hpk & Hne).
  pose proof (find_mount_ok (q ++ p2) (g_mounts (early_init mem s0)) 9 Hc ltac:(lia)) as Hf.
  destruct (vfs_find_mount (render (q ++ p2)) (g_mounts (early_init mem s0)) 9) as [best rel].
  destruct Hf as [(-> & Hno)|(Hb & Hact & q' & p2' & Hmp & E & -> & Hmax)].
  { intros j Hj Ha. rewrite Em in * by done. destruct (boot_point j Hj) as (qj & _ & Hin & Hr & _). exists qj. split; [by apply point_parts|done]. }
  - exfalso. destruct (boot_point k Hk) as (qk & E & Hin & Hr & Ha). rewrite Hbk in E. injection E as <-.
    apply (Hno k q p2 Hk); rewrite ?Em by done; try done. by apply point_parts.
  - rewrite Em in Hmp by done. destruct (boot_point best Hb) as (qb & Eb & Hinb & Hrb & Hab). rewrite Hrb in Hmp.
    assert (qb = q') as <-.
    { destruct Hc as [Hparts _]. rewrite E in Hparts. apply Forall_app in Hparts as [Hq' _].
      rewrite <- (segments_render qb), Hmp, segments_render; [done|done|by apply point_parts]. }
    destruct (boot_point k Hk) as (qk & Ek' & Hin & Hr & Ha). rewrite Hbk in Ek'. injection Ek' as <-.
    specialize (Hmax k q p2 Hk). rewrite Em in Hmax by done. specialize (Hmax Ha (point_parts q Hin) Hr eq_refl).
    destruct (mount_points_apart q i p2 qb p2' Hq Hinb E) as [-> | ->].
    { destruct q; [done|]. cbn in Hmax. lia. }
    apply app_inv_head in E as <-. assert (best = k) as -> by (eapply boot_points_inj; eauto).
    exists k. rewrite Em by done. split_and!; [done|lia|lia|done|done].
Qed.

Lemma mkdirs_ok paths fs : ramfs_ok fs -> ramfs_ok (mkdirs paths fs).
Proof.
  revert fs. induction paths as [|p paths IH]; intros fs Hfs; [done|]. cbn. apply IH. by apply mkdir_p_ok.
Qed.

Lemma boot_ramfs_ok q i : In (q, i) ram_mounts ->
  ramfs_ok (boot_ramfs i) /\ bytes_used (boot_ramfs i) = 0 /\ ~ table_full (boot_ramfs i).
Proof.
  intros Hq. assert (ramfs_ok (boot_ramfs i)) as Hok.
  { unfold boot_ramfs. pose proof ram_init_ok as H0.
    repeat (match goal with |- ramfs_ok (_.[?k <- _] i) => destruct (Z.eq_dec i k) as [->|];
      [rewrite upd_eq; by apply mkdirs_ok|rewrite upd_ne by done] end). done. }
  split; [done|].
  assert (bytes_used (boot_ramfs i) = 0 /\ used (nodes (boot_ramfs i) 127) = false) as [Hb Hu].
  { clear Hok. unfold ram_mounts in Hq. cbn [In] in Hq.
    repeat (destruct Hq as [Hq|Hq]; [injection Hq as <- <-; split; vm_compute; reflexivity|]). done. }
  split; [done|]. intros Hf. specialize (Hf 127 ltac:(unfold RAMFS_MAX_FILES; lia)). congruence.
Qed.

Lemma render_short p2 : strlen (render p2) < NAME_CAP -> short (render p2).
Proof. intros H. split; [by destruct p2|done]. Qed.


End io.

(** ** Concrete states *)

Module Demo.

Definition all_mem : Z -> bool := fun _ => true.

(** A machine whose task 10 runs, over some disks. *)
Definition machine {W} (d : bcache W) (b : block_t W) : vfs W :=
  {| g_mounts := fun _ => zero_mount; g_mount_count := 0; ramfs_at := fun _ => ramfs_init; vols := fun _ => zero_vol; vol_count := 0;
     g_primary := None; initrd := Initrd.built; tty := Vtty.Vtty.fresh; disk := d; blocks := b;
     kern := {| Fd.heap := ∅; Fd.fd_table := fun _ _ => 0; Fd.fd_flags := fun _ _ => 0; Fd.sch := SchedClaims.demo_sched |};
     cwd := fun _ => []; console := []; info := {| ncpus := 1; total_memory := 0; free_memory := 0; task_count := 1 |} |}.

Definition no_disks : vfs unit :=
  machine {| g_bcache := fun _ => zero_entry; ready := false; g_bcache_ticks := 0; devs := fun _ => no_device; world := tt |}
    {| g_block_devices := fun _ => no_device; g_block_device_count := 0 |}.

Lemma demo_open : can_open 4096 (early_init all_mem no_disks).
Proof. split; [done|]. split; [vm_compute; discriminate|]. exists 0. split; [unfold Fd.MAX_FDS; lia|vm_compute; reflexivity]. Qed.

Lemma notes_canonical : canonical ([str "tmp"] ++ [str "notes"]).
Proof.
  split; [|vm_compute; discriminate].
  apply List.Forall_cons; [by apply part_okb_ok; vm_compute|apply List.Forall_cons; [by apply part_okb_ok; vm_compute|apply List.Forall_nil]].
Qed.


(** A descriptor on the file /notes of the RAM file system of /tmp. *)
Lemma notes_open : exists fd s1, sys_open (fun _ => 0) [] 0 (render ([str "tmp"] ++ [str "notes"])) O_NEW 4096 (early_init all_mem no_disks) = Some (fd, s1) /\
  ram_open s1 fd RAMFS_TMP (render [str "notes"]) [] 0.
Proof.
  assert (Hq : In ([str "tmp"], RAMFS_TMP) ram_mounts) by (left; reflexivity).
  destruct (early_table all_mem no_disks) as (_ & Er & _). destruct (boot_ramfs_ok _ _ Hq) as (Hok & _ & Hroom). rewrite <- Er in Hok, Hroom.
  destruct (open_new (fun _ => 0) [] 0 (early_init all_mem no_disks) (render ([str "tmp"] ++ [str "notes"])) 4096 RAMFS_TMP (render [str "notes"]))
    as (fd & s1 & E & _ & Ho & _); [exact demo_open| |done|apply render_short; vm_compute; reflexivity| |by right|eauto].
  - apply boot_leads; [done|exact notes_canonical|vm_compute; reflexivity].
  - rewrite Er. vm_compute. discriminate.
Qed.


(** *** A FAT32 volume as the root *)

Definition fat_root : vfs BcacheClaims.Demo.ramdisk :=
  (machine FatCache.Demo.start8 {| g_block_devices := fun _ => no_device; g_block_device_count := 0 |})
    <| g_mounts := fun _ => {| mount_point := str "/"; m_type := FS_FAT32; priv := 1; block_dev := 1; block_start_lba := 0;
                              block_sector_count := 8; block_backed := true; m_active := true |} |>
    <| g_mount_count := 1 |> <| vols := fun _ => FatClaims.Demo.vol 8 |>.

(** Writing in the middle of a FAT32 file cuts off what follows. *)
Example overwrite_truncates :
  match (_ ← vfs_do_write (fun _ => 0) [] 20 all_mem 0 (str "/a.txt") (char_at (str "hello")) 5;
         _ ← write_fat32 (fun _ => 0) [] 20 all_mem 0 (str "/a.txt") (char_at (str "X")) 1 1;
         vfs_do_read (fun _ => 0) 20 all_mem 0 (str "/a.txt") (fun _ => 0) 10 0) fat_root with
  | Some ((n, b), _) => n = 2 /\ b 0 = 104 /\ b 1 = 88
  | None => False
  end.
Proof. vm_compute. split_and!; reflexivity. Qed.

(** *** A machine with one FAT32 disk *)

Definition one_disk : vfs BcacheClaims.Demo.ramdisk :=
  machine FatCache.Demo.start8 {| g_block_devices := fun _ => no_device; g_block_device_count := 1 |}.

(** /home, /var and /usr/local all become the root of the first volume: the
    directory made for /home/root is /var/root and /usr/local/root as well. *)
Example promoted_trees_share :
  match (_ ← vfs_init (fun _ => 0) [] 20 all_mem;
         a ← vfs_path_is_dir (fun _ => 0) 20 (str "/home/root"); b ← vfs_path_is_dir (fun _ => 0) 20 (str "/var/root");
         c ← vfs_path_is_dir (fun _ => 0) 20 (str "/usr/local/root"); mret (a, b, c)) one_disk with
  | Some (r, s) => r = (true, true, true) /\ g_mount_count s = 10
  | None => False
  end.
Proof. vm_compute. split; reflexivity. Qed.

(** A file of /proc is printed from its start on every read: it never ends. *)
Lemma proc_never_ends {W} (s : vfs W) midx rel buf count off off' :
  m_type (g_mounts s midx) = FS_PROCFS ->
  vfs_do_read (fun _ => 0) 0 all_mem midx rel buf count off s = vfs_do_read (fun _ => 0) 0 all_mem midx rel buf count off' s.
Proof. intros Ht. unfold vfs_do_read, mbind, M_bind, get. by rewrite Ht. Qed.

End Demo.
End VfsClaims.
