(* ===== verification/NetBase.v ===== *)
(** * Bytes on the wire (src/src/net: net_socket.h, net.h, ip.c)

    Byte order, the memory image of header fields, and the Internet checksum.
    A packet being built is the list of its bytes; a received packet is the
    buffer it lies in and an offset, so that code that reads past its end
    reads what the buffer holds there. *)

From S2P Require Import Prelude Mem.
From Stdlib Require Export ZifyBool.
Import Mem.

Module NetBase.

(** ** Byte order *)

Definition htons (x : Z) : Z := u16 (Z.lor (Z.shiftr x 8) (Z.shiftl x 8)).

Definition htonl (x : Z) : Z :=
  Z.lor (Z.lor (Z.lor (Z.shiftr (Z.land x 0xFF000000) 24) (Z.shiftr (Z.land x 0x00FF0000) 8))
               (Z.shiftl (Z.land x 0x0000FF00) 8))
        (Z.shiftl (Z.land x 0x000000FF) 24).

Definition ntohs : Z -> Z := htons.
Definition ntohl : Z -> Z := htonl.

Definition make_ip (a b c d : Z) : Z := Z.lor (Z.lor (Z.lor (Z.shiftl a 24) (Z.shiftl b 16)) (Z.shiftl c 8)) d.

(** ** Checksums *)

(** [sum += *p++] over the 16-bit words, the odd last byte by itself *)
Fixpoint sum_words (l : list Z) (sum : Z) : Z :=
  match l with
  | x :: y :: r => sum_words r (u32 (sum + (x + 256 * y)))
  | [x] => u32 (sum + x)
  | [] => sum
  end.

(** [while (sum >> 16) sum = (sum & 0xFFFF) + (sum >> 16)], of at most [n]
    rounds; three are enough for 32 bits. *)
Fixpoint fold_carries (n : nat) (sum : Z) : Z :=
  match n with
  | O => sum
  | S n' => if Z.shiftr sum 16 =? 0 then sum else fold_carries n' (u32 (Z.land sum 0xFFFF + Z.shiftr sum 16))
  end.

Definition net_checksum (data : list Z) : Z := u16 (Z.lnot (fold_carries 3 (sum_words data 0))).

Fixpoint checksum_add_be_bytes (sum : Z) (data : list Z) : Z :=
  match data with
  | x :: y :: r => checksum_add_be_bytes (u32 (sum + Z.lor (Z.shiftl x 8) y)) r
  | [x] => u32 (sum + Z.shiftl x 8)
  | [] => sum
  end.

Definition pseudo (src_ip dst_ip proto len : Z) : list Z :=
  [u8 (Z.shiftr src_ip 24); u8 (Z.shiftr src_ip 16); u8 (Z.shiftr src_ip 8); u8 src_ip;
   u8 (Z.shiftr dst_ip 24); u8 (Z.shiftr dst_ip 16); u8 (Z.shiftr dst_ip 8); u8 dst_ip;
   0; proto; u8 (Z.shiftr len 8); u8 len].

Definition transport_checksum (src_ip dst_ip proto : Z) (data : list Z) : Z :=
  let sum := checksum_add_be_bytes 0 (pseudo src_ip dst_ip proto (Z.of_nat (length data))) in
  let sum := checksum_add_be_bytes sum data in
  htons (u16 (Z.lnot (fold_carries 3 sum))).

(** ** Received packets *)

Definition ntohs_at (b : mem) (off : Z) : Z := ntohs (load 2 off b).
Definition ntohl_at (b : mem) (off : Z) : Z := ntohl (load 4 off b).

(** Four bytes read one by one, most significant first. *)
Definition ip_at (b : mem) (off : Z) : Z := make_ip (b off) (b (off + 1)) (b (off + 2)) (b (off + 3)).

(** A list of bytes. *)
Definition all_bytes (l : list Z) : Prop := Forall (fun c => 0 <= c < 256) l.

(** ** Byte order, proved *)

Lemma lor_add a b n : 0 <= n -> 0 <= b < 2 ^ n -> Z.lor (a * 2 ^ n) b = a * 2 ^ n + b.
Proof.
  intros Hn Hb. symmetry. apply Z.add_nocarry_lor.
  apply Z.bits_inj'. intros i Hi. rewrite Z.land_spec, Z.bits_0, <- Z.shiftl_mul_pow2, Z.shiftl_spec by lia.
  destruct (decide (i < n)); [by rewrite Z.testbit_neg_r by lia|].
  rewrite <- (Z.mod_small b (2 ^ n)), Z.mod_pow2_bits_high by lia. apply andb_false_r.
Qed.

Lemma lor_8 a b : 0 <= b < 256 -> Z.lor (Z.shiftl a 8) b = a * 256 + b.
Proof. intros. rewrite Z.shiftl_mul_pow2 by lia. by apply lor_add. Qed.

Lemma make_ip_eq a b c d : 0 <= a < 256 -> 0 <= b < 256 -> 0 <= c < 256 -> 0 <= d < 256 ->
  make_ip a b c d = ((a * 256 + b) * 256 + c) * 256 + d.
Proof.
  intros. unfold make_ip. rewrite !Z.shiftl_mul_pow2 by lia.
  rewrite (lor_add a) by lia.
  replace (a * 2 ^ 24 + b * 2 ^ 16) with ((a * 2 ^ 8 + b) * 2 ^ 16) by lia. rewrite lor_add by lia.
  replace ((a * 2 ^ 8 + b) * 2 ^ 16 + c * 2 ^ 8) with ((a * 2 ^ 16 + b * 2 ^ 8 + c) * 2 ^ 8) by lia.
  rewrite lor_add by lia. lia.
Qed.

Lemma htons_eq x : 0 <= x < 65536 -> htons x = x mod 256 * 256 + x / 256.
Proof.
  intros Hx. unfold htons. rewrite Z.lor_comm, Z.shiftr_div_pow2, Z.shiftl_mul_pow2 by lia.
  change (2 ^ 8) with 256. pose proof (Z.div_mod x 256 ltac:(lia)). pose proof (Z.mod_pos_bound x 256 ltac:(lia)).
  change 256 with (2 ^ 8) at 1. rewrite lor_add by lia. change (2 ^ 8) with 256. unfold wrap. change (2 ^ 16) with 65536.
  symmetry. apply (Z.mod_unique _ _ (x / 256)); lia.
Qed.

Lemma htons_range x : 0 <= htons x < 65536.
Proof. apply (wrap_range 16). lia. Qed.

Lemma htons_involutive x : 0 <= x < 65536 -> htons (htons x) = x.
Proof.
  intros Hx. rewrite (htons_eq (htons x)) by apply htons_range. rewrite htons_eq by done.
  pose proof (Z.div_mod x 256 ltac:(lia)). pose proof (Z.mod_pos_bound x 256 ltac:(lia)).
  rewrite (Z.add_comm (x mod 256 * 256)), Z.mod_add, Z.div_add by lia.
  rewrite (Z.mod_small (x / 256)), (Z.div_small (x / 256)) by lia. lia.
Qed.

Lemma lor_reverse a b c d : Z.lor (Z.lor (Z.lor a b) c) d = Z.lor (Z.lor (Z.lor d c) b) a.
Proof. by rewrite (Z.lor_comm (Z.lor (Z.lor d c) b)), (Z.lor_comm (Z.lor d c)), (Z.lor_comm d), !Z.lor_assoc. Qed.

Lemma htonl_eq x : 0 <= x < 2 ^ 32 ->
  htonl x = ((x mod 256 * 256 + x / 2 ^ 8 mod 256) * 256 + x / 2 ^ 16 mod 256) * 256 + x / 2 ^ 24.
Proof.
  intros Hx. unfold htonl.
  change 0xFF000000 with (Z.shiftl (Z.ones 8) 24). change 0xFF0000 with (Z.shiftl (Z.ones 8) 16).
  change 0xFF00 with (Z.shiftl (Z.ones 8) 8). change 0xFF with (Z.shiftl (Z.ones 8) 0).
  rewrite !land_field, !Z.shiftr_div_pow2, !Z.shiftl_mul_pow2 by lia. rewrite Z.div_mul by lia.
  change (2 ^ 0) with 1. rewrite Z.div_1_r, Z.mul_1_r.
  replace (x / 2 ^ 16 mod 2 ^ 8 * 2 ^ 16) with (x / 2 ^ 16 mod 2 ^ 8 * 2 ^ 8 * 2 ^ 8) by lia. rewrite Z.div_mul by lia.
  rewrite (Z.mod_small (x / 2 ^ 24)) by (split; [apply Z.div_pos; lia|apply Z.div_lt_upper_bound; lia]).
  pose proof (Z.div_pos x (2 ^ 24) ltac:(lia) ltac:(lia)). pose proof (Z.div_lt_upper_bound x (2 ^ 24) 256 ltac:(lia) ltac:(lia)).
  change (2 ^ 8) with 256 in *.
  pose proof (Z.mod_pos_bound (x / 2 ^ 16) 256 ltac:(lia)). pose proof (Z.mod_pos_bound (x / 256) 256 ltac:(lia)).
  pose proof (Z.mod_pos_bound x 256 ltac:(lia)).
  rewrite <- make_ip_eq by lia. unfold make_ip. rewrite !Z.shiftl_mul_pow2 by lia. change (2 ^ 8) with 256.
  replace (x / 256 mod 256 * 256 * 256) with (x / 256 mod 256 * 2 ^ 16) by lia. apply lor_reverse.
Qed.


Lemma htonl_quad a b c d : 0 <= a < 256 -> 0 <= b < 256 -> 0 <= c < 256 -> 0 <= d < 256 ->
  htonl (((a * 256 + b) * 256 + c) * 256 + d) = ((d * 256 + c) * 256 + b) * 256 + a.
Proof.
  intros. rewrite htonl_eq by lia. change (2 ^ 8) with 256. change (2 ^ 16) with (256 * 256). change (2 ^ 24) with (256 * 256 * 256).
  rewrite <- !Z.div_div by lia. rewrite !Z.div_add_l, !(Z.div_small _ 256), !Z.add_0_r by lia.
  rewrite !Z.div_add_l, !(Z.div_small _ 256), !Z.add_0_r by lia.
  rewrite (Z.add_comm _ d), (Z.add_comm _ c), (Z.add_comm _ b), !Z.mod_add, !Z.mod_small by lia. rewrite Z.div_add, Z.div_small by lia. lia.
Qed.

Lemma quad x : 0 <= x < 2 ^ 32 -> exists a b c d, x = ((a * 256 + b) * 256 + c) * 256 + d /\
  0 <= a < 256 /\ 0 <= b < 256 /\ 0 <= c < 256 /\ 0 <= d < 256.
Proof.
  intros Hx. exists (x / 256 / 256 / 256), (x / 256 / 256 mod 256), (x / 256 mod 256), (x mod 256).
  pose proof (Z.div_mod x 256). pose proof (Z.div_mod (x / 256) 256). pose proof (Z.div_mod (x / 256 / 256) 256).
  pose proof (Z.mod_pos_bound x 256). pose proof (Z.mod_pos_bound (x / 256) 256). pose proof (Z.mod_pos_bound (x / 256 / 256) 256).
  lia.
Qed.

Lemma htonl_range x : 0 <= x < 2 ^ 32 -> 0 <= htonl x < 2 ^ 32.
Proof. intros Hx. destruct (quad x Hx) as (a & b & c & d & -> & ? & ? & ? & ?). rewrite htonl_quad by done. lia. Qed.

Lemma htonl_involutive x : 0 <= x < 2 ^ 32 -> htonl (htonl x) = x.
Proof. intros Hx. destruct (quad x Hx) as (a & b & c & d & -> & ? & ? & ? & ?). by rewrite !htonl_quad by done. Qed.

(** ** Images in buffers *)

Lemma le_bytes n v : all_bytes (le n v).
Proof.
  revert v. induction n as [|n IH]; intros v; cbn; [apply List.Forall_nil|].
  apply List.Forall_cons; [apply Z.mod_pos_bound; lia|apply IH].
Qed.

Lemma ntohs_at_le b off v : holds b off (le 2 (htons v)) -> 0 <= v < 65536 -> ntohs_at b off = v.
Proof.
  intros H Hv. unfold ntohs_at, ntohs. rewrite (load_le 2 (htons v) b off H) by apply htons_range. by apply htons_involutive.
Qed.

Lemma ntohl_at_le b off v : holds b off (le 4 (htonl v)) -> 0 <= v < 2 ^ 32 -> ntohl_at b off = v.
Proof.
  intros H Hv. unfold ntohl_at, ntohl. rewrite (load_le 4 (htonl v) b off H) by (apply htonl_range; done). by apply htonl_involutive.
Qed.

(** Bytes read from a buffer that holds them. *)
Lemma holds_map b off l : holds b off l -> map (fun i => b (off + i)) (seqZ 0 (Z.of_nat (length l))) = l.
Proof.
  intros H. apply list_eq. intros i. rewrite list_lookup_fmap. destruct (decide (i < length l)%nat) as [Hi|Hi].
  - rewrite (lookup_seqZ_lt 0) by lia. cbn. rewrite H by lia.
    destruct (nth_lookup_or_length l i 0) as [E|]; [|lia]. rewrite E. do 2 f_equal. lia.
  - rewrite lookup_seqZ_ge by lia. cbn. symmetry. apply lookup_ge_None. lia.
Qed.


(** ** The Internet checksum *)

(** The plain sum of the words of a packet, the first byte of a word counting
    [h] and the second [k] times. *)
Fixpoint word_sum (h k : Z) (l : list Z) : Z :=
  match l with
  | x :: y :: r => h * x + k * y + word_sum h k r
  | [x] => h * x
  | [] => 0
  end.

(** Two bytes at a time. *)
Lemma pair_ind (P : list Z -> Prop) :
  P [] -> (forall x, P [x]) -> (forall x y l, P l -> P (x :: y :: l)) -> forall l, P l.
Proof.
  intros H0 H1 H2. assert (forall n l, (length l <= n)%nat -> P l) as H; [|intros l; by apply (H (length l))].
  induction n as [|n IH]; intros [|x [|y l]] Hl; cbn in Hl; try lia; auto. apply H2, IH. lia.
Qed.

Definition weights (h k : Z) : Prop := h = 1 /\ k = 256 \/ h = 256 /\ k = 1.

Lemma word_sum_range h k l : weights h k -> all_bytes l -> 0 <= word_sum h k l <= 32768 * (Z.of_nat (length l) + 1).
Proof.
  intros Hw. induction l as [|x|x y l IH] using pair_ind; intros Hl; cbn [word_sum length].
  - lia.
  - apply Forall_inv in Hl. destruct Hw; lia.
  - pose proof (Forall_inv Hl) as Hx. pose proof (Forall_inv (Forall_inv_tail Hl)) as Hy. cbn in Hx, Hy.
    specialize (IH (Forall_inv_tail (Forall_inv_tail Hl))). destruct Hw; lia.
Qed.

Lemma word_sum_app h k l1 l2 : Nat.even (length l1) = true -> word_sum h k (l1 ++ l2) = word_sum h k l1 + word_sum h k l2.
Proof.
  induction l1 as [|x|x y l IH] using pair_ind; cbn [length app word_sum Nat.even]; intros H; [lia|done|]. rewrite IH by done. lia.
Qed.

(** The loops of the code compute it while it fits 32 bits. *)
Lemma sum_words_eq l s : all_bytes l -> 0 <= s -> s + word_sum 1 256 l < 2 ^ 32 -> sum_words l s = s + word_sum 1 256 l.
Proof.
  revert s. induction l as [|x|x y l IH] using pair_ind; intros s Hl Hs Hb; cbn [sum_words word_sum] in *.
  - lia.
  - pose proof (Forall_inv Hl) as Hx. cbn in Hx. rewrite Z.mul_1_l in *. apply wrap_small. lia.
  - pose proof (Forall_inv Hl) as Hx. pose proof (Forall_inv (Forall_inv_tail Hl)) as Hy. cbn in Hx, Hy.
    assert (all_bytes l) as Hl' by apply (Forall_inv_tail (Forall_inv_tail Hl)).
    pose proof (word_sum_range 1 256 l ltac:(by left) Hl'). rewrite wrap_small by lia. rewrite IH by (done || lia). lia.
Qed.

Lemma be_bytes_eq l s : all_bytes l -> 0 <= s -> s + word_sum 256 1 l < 2 ^ 32 -> checksum_add_be_bytes s l = s + word_sum 256 1 l.
Proof.
  revert s. induction l as [|x|x y l IH] using pair_ind; intros s Hl Hs Hb; cbn [checksum_add_be_bytes word_sum] in *.
  - lia.
  - pose proof (Forall_inv Hl) as Hx. cbn in Hx. rewrite Z.shiftl_mul_pow2 by lia. rewrite wrap_small; lia.
  - pose proof (Forall_inv Hl) as Hx. pose proof (Forall_inv (Forall_inv_tail Hl)) as Hy. cbn in Hx, Hy.
    assert (all_bytes l) as Hl' by apply (Forall_inv_tail (Forall_inv_tail Hl)).
    pose proof (word_sum_range 256 1 l ltac:(by right) Hl'). rewrite lor_8, wrap_small by lia. rewrite IH by (done || lia). lia.
Qed.

Lemma fold_step x : 0 <= x -> Z.land x 0xFFFF + Z.shiftr x 16 = x - 65535 * (x / 65536).
Proof.
  intros Hx. change (Z.land x 0xFFFF) with (Z.land x (Z.ones 16)). rewrite Z.land_ones, Z.shiftr_div_pow2 by lia.
  change (2 ^ 16) with 65536. pose proof (Z.div_mod x 65536). lia.
Qed.

(** Three rounds end the loop for every 32-bit sum: no carry is left, and the
    sum is the same modulo 65535, zero only for zero. *)
Lemma fold_carries_ok x : 0 <= x < 2 ^ 32 ->
  0 <= fold_carries 3 x < 65536 /\ (exists k, 0 <= k /\ x = fold_carries 3 x + 65535 * k) /\ (fold_carries 3 x = 0 -> x = 0).
Proof.
  assert (Hstep : forall n y B, 0 <= y < B * 65536 -> 1 <= B <= 65536 ->
    fold_carries (S n) y = if y <? 65536 then y else fold_carries n (y - 65535 * (y / 65536))).
  { intros n y B Hy HB. cbn [fold_carries]. rewrite fold_step, Z.shiftr_div_pow2 by lia. change (2 ^ 16) with 65536.
    pose proof (Z.div_mod y 65536). pose proof (Z.mod_pos_bound y 65536). destruct (Z.eqb_spec (y / 65536) 0) as [E|E], (Z.ltb_spec y 65536); [done|lia|lia|].
    by rewrite wrap_small by nia. }
  intros Hx. rewrite (Hstep 2%nat x 65536) by lia. destruct (Z.ltb_spec x 65536) as [|?]; [split_and!; try lia; exists 0; lia|].
  pose proof (Z.div_mod x 65536). pose proof (Z.mod_pos_bound x 65536). set (q := x / 65536) in *.
  rewrite (Hstep 1%nat _ 2) by lia. destruct (Z.ltb_spec (x - 65535 * q) 65536) as [|?]; [split_and!; try lia; exists q; lia|].
  set (y := x - 65535 * q) in *. pose proof (Z.div_mod y 65536). pose proof (Z.mod_pos_bound y 65536). set (r := y / 65536) in *.
  assert (r = 1) by lia. rewrite (Hstep 0%nat _ 2) by lia.
  destruct (Z.ltb_spec (y - 65535 * r) 65536) as [|?]; [split_and!; try lia; exists (q + r); lia|lia].
Qed.

Lemma lnot_16 x : 0 <= x < 65536 -> u16 (Z.lnot x) = 65535 - x.
Proof. intros Hx. unfold wrap, Z.lnot. change (2 ^ 16) with 65536. symmetry. apply (Z.mod_unique _ _ (-1)); lia. Qed.

(** A sum to which the complement of its folding is added folds to ones. *)
Lemma fold_complement x : 0 <= x -> x + 65535 < 2 ^ 32 -> fold_carries 3 (x + (65535 - fold_carries 3 x)) = 65535.
Proof.
  intros Hx Hb. destruct (fold_carries_ok x ltac:(lia)) as (Hr & (k & Hk0 & Hk) & H0).
  set (f := fold_carries 3 x) in *. destruct (fold_carries_ok (x + (65535 - f)) ltac:(lia)) as (Hr' & (k' & _ & Hk') & H0').
  set (g := fold_carries 3 (x + (65535 - f))) in *. assert (g <> 0) by (intros E; specialize (H0' E); lia). lia.
Qed.

(** A packet around a checksum field. *)
Definition field_in (l1 : list Z) (v : Z) (l2 : list Z) : list Z := l1 ++ le 2 v ++ l2.

Lemma field_in_ok h k l1 v l2 : weights h k -> all_bytes l1 -> all_bytes l2 -> Nat.even (length l1) = true ->
  Z.of_nat (length l1 + length l2) < 65000 -> 0 <= v < 65536 ->
  all_bytes (field_in l1 v l2) /\ word_sum h k (field_in l1 v l2) = word_sum h k l1 + word_sum h k l2 + h * (v mod 256) + k * (v / 256) /\
  0 <= word_sum h k l1 + word_sum h k l2 < 2 ^ 32 - 3 * 65536.
Proof.
  intros Hw H1 H2 He Hlen Hv. pose proof (word_sum_range h k l1 Hw H1). pose proof (word_sum_range h k l2 Hw H2).
  split_and!; try lia.
  - apply Forall_app. split; [done|]. apply Forall_app. split; [apply le_bytes|done].
  - unfold field_in. rewrite word_sum_app by done. cbn [le app word_sum]. pose proof (Z.div_mod v 256). pose proof (Z.mod_pos_bound v 256).
    rewrite (Z.mod_small (v / 256)) by lia. lia.
Qed.

(** A packet whose checksum field was zero while the sum was taken verifies:
    summed over again, the field included, it gives zero. *)
Lemma net_checksum_verifies l1 l2 : all_bytes l1 -> all_bytes l2 -> Nat.even (length l1) = true ->
  Z.of_nat (length l1 + length l2) < 65000 -> net_checksum (field_in l1 (net_checksum (field_in l1 0 l2)) l2) = 0.
Proof.
  intros H1 H2 He Hlen. set (W := word_sum 1 256 l1 + word_sum 1 256 l2).
  assert (Hsum : forall v, 0 <= v < 65536 -> 0 <= W < 2 ^ 32 - 3 * 65536 /\ sum_words (field_in l1 v l2) 0 = W + v).
  { intros v Hv. destruct (field_in_ok 1 256 l1 v l2 ltac:(by left) H1 H2 He Hlen Hv) as (Hb & Hs & Hr). split; [done|].
    pose proof (Z.div_mod v 256). rewrite sum_words_eq by (done || lia). lia. }
  destruct (Hsum 0 ltac:(lia)) as [Hr E0]. pose proof (fold_carries_ok W ltac:(lia)) as [? _].
  assert (net_checksum (field_in l1 0 l2) = 65535 - fold_carries 3 W) as ->.
  { unfold net_checksum. rewrite E0, Z.add_0_r. by apply lnot_16. }
  unfold net_checksum. rewrite (proj2 (Hsum (65535 - fold_carries 3 W) ltac:(lia))), fold_complement by lia. done.
Qed.

Lemma pseudo_bytes src dst proto len : 0 <= proto < 256 -> all_bytes (pseudo src dst proto len).
Proof.
  intros Hp. unfold pseudo. repeat (apply List.Forall_cons; [first [apply (wrap_range 8); lia|lia]|]). apply List.Forall_nil.
Qed.

Lemma transport_checksum_range src dst proto data : 0 <= transport_checksum src dst proto data < 65536.
Proof. apply htons_range. Qed.

Lemma transport_checksum_verifies src dst proto l1 l2 : 0 <= proto < 256 ->
  all_bytes l1 -> all_bytes l2 -> Nat.even (length l1) = true -> Z.of_nat (length l1 + length l2) < 64000 ->
  transport_checksum src dst proto (field_in l1 (transport_checksum src dst proto (field_in l1 0 l2)) l2) = 0.
Proof.
  intros Hp H1 H2 He Hlen. assert (Hw : weights 256 1) by (by right).
  assert (Hl : forall v, Z.of_nat (length (field_in l1 v l2)) = Z.of_nat (length l1 + length l2) + 2)
    by (intros v; unfold field_in; rewrite !length_app, le_length; lia).
  set (P := pseudo src dst proto (Z.of_nat (length l1 + length l2) + 2)).
  set (W := word_sum 256 1 P + (word_sum 256 1 l1 + word_sum 256 1 l2)).
  pose proof (word_sum_range 256 1 P Hw (pseudo_bytes _ _ _ _ Hp)) as HP. change (Z.of_nat (length P)) with 12 in HP.
  pose proof (word_sum_range 256 1 l1 Hw H1). pose proof (word_sum_range 256 1 l2 Hw H2).
  assert (HW : 0 <= W < 2 ^ 32 - 65536) by (unfold W; lia).
  assert (Hsum : forall v, 0 <= v < 65536 ->
    checksum_add_be_bytes (checksum_add_be_bytes 0 P) (field_in l1 (htons v) l2) = W + v).
  { intros v Hv. destruct (field_in_ok 256 1 l1 (htons v) l2 Hw H1 H2 He ltac:(lia) (htons_range v)) as (Hb & Hs & Hr).
    assert (256 * (htons v mod 256) + 1 * (htons v / 256) = v) as Hv' by (rewrite <- (htons_involutive v) at 3 by done; rewrite (htons_eq (htons v)) by apply htons_range; lia).
    rewrite (be_bytes_eq P) by (try apply pseudo_bytes; lia || done). rewrite be_bytes_eq by (done || lia). unfold W. lia. }
  pose proof (fold_carries_ok W ltac:(lia)) as [? _].
  assert (transport_checksum src dst proto (field_in l1 0 l2) = htons (65535 - fold_carries 3 W)) as ->.
  { unfold transport_checksum. rewrite Hl. fold P. change 0 with (htons 0) at 2. rewrite (Hsum 0), Z.add_0_r by lia. by rewrite lnot_16. }
  unfold transport_checksum. rewrite Hl. fold P. rewrite Hsum, fold_complement by lia. done.
Qed.

End NetBase.
