(* ===== verification/Net.v ===== *)
(** * The network stack (src/src/net: arp.c, ip.c, icmp.c, udp.c, tcp.c, dns.c, dhcp.c, http.c; src/src/drivers/net/e1000.c)

    One state for the interface and the tables of the protocols, and the code
    that sends, receives and waits.  The driver is seen from above: [sent] are
    the frames handed to it, [rx] the frames in its receive ring, and
    [arrivals] what reaches the ring before each of the coming polls.

    A call gives [None] when it never returns: e1000_poll holds a spinlock
    while it handles the frames, and code below it that polls again spins on
    that lock for ever.  [mem n] says whether the heap has [n] bytes. *)

From Stdlib Require Import String.
From S2P Require Import Prelude Mem Block NetBase Input Cstr.
Import Mem NetBase OpenRing Cstr.

Module Net.

#[local] Notation buffer := Block.buffer.

Definition ETH_HLEN : Z := 14.
Definition ETH_TYPE_IP : Z := 0x0800.
Definition ETH_TYPE_ARP : Z := 0x0806.
Definition IP_PROTO_ICMP : Z := 1.
Definition IP_PROTO_TCP : Z := 6.
Definition IP_PROTO_UDP : Z := 17.

(** sizeof of the packed headers *)
Definition IP_HLEN : Z := 20.
Definition ICMP_HLEN : Z := 8.
Definition UDP_HLEN : Z := 8.
Definition TCP_HLEN : Z := 20.
Definition ARP_LEN : Z := 28.

(** ** State *)

Record net_interface_t := {
  mac_addr : list Z; ip_addr : Z; netmask : Z; gateway : Z; dns_server : Z;
  is_up : bool; dhcp_done : bool; has_send : bool }.
#[export] Instance eta_iface : Eta net_interface_t := fun r =>
  Build_net_interface_t (mac_addr r) (ip_addr r) (netmask r) (gateway r) (dns_server r) (is_up r) (dhcp_done r) (has_send r).

Definition ARP_CACHE_SIZE : Z := 64.

Record arp_entry_t := { ip : Z; mac : list Z; valid : bool; age_ms : Z }.

Definition UDP_MAX_SOCKETS : Z := 32.
Definition UDP_MAX_CALLBACKS : Z := 16.
Definition UDP_RECV_BUF : Z := 4096.

Record udp_sock_t := {
  u_active : bool; u_local_port : Z; u_recv_buf : buffer; recv_src_ip : Z; recv_src_port : Z;
  recv_len : Z; has_data : bool }.
#[export] Instance eta_udp_sock : Eta udp_sock_t := fun r =>
  Build_udp_sock_t (u_active r) (u_local_port r) (u_recv_buf r) (recv_src_ip r) (recv_src_port r) (recv_len r) (has_data r).

(** The functions that are registered as callbacks. *)
Inductive udp_callback_t := dns_callback_fn | dhcp_receive_fn.

Record udp_cb_entry_t := { port : Z; cb : udp_callback_t }.

Definition TCP_MAX_SOCKETS : Z := 32.
Definition TCP_RECV_BUF : Z := 16384.
Definition TCP_WINDOW_SIZE : Z := 8192.

Definition TCP_FIN : Z := 0x01.
Definition TCP_SYN : Z := 0x02.
Definition TCP_RST : Z := 0x04.
Definition TCP_PSH : Z := 0x08.
Definition TCP_ACK : Z := 0x10.

Inductive sock_state_t :=
  | SOCK_STATE_CLOSED | SOCK_STATE_LISTEN | SOCK_STATE_SYN_SENT | SOCK_STATE_SYN_RCVD | SOCK_STATE_ESTABLISHED
  | SOCK_STATE_FIN_WAIT1 | SOCK_STATE_FIN_WAIT2 | SOCK_STATE_CLOSE_WAIT | SOCK_STATE_CLOSING | SOCK_STATE_LAST_ACK
  | SOCK_STATE_TIME_WAIT.

#[export] Instance sock_state_eq : EqDecision sock_state_t.
Proof. solve_decision. Defined.

(** [recv] is recv_buf with recv_head, where it is written, and recv_tail.
    The send buffer and the retransmission counter are never used. *)
Record tcp_sock_t := {
  active : bool; state : sock_state_t; local_ip : Z; local_port : Z; remote_ip : Z; remote_port : Z;
  snd_una : Z; snd_nxt : Z; snd_isn : Z; rcv_nxt : Z; rcv_isn : Z; snd_wnd : Z;
  recv : ring Z;
  waiting_syn_ack : bool; nonblocking : bool;
  listening : bool; accept_queue : Z -> Z; accept_head : Z; accept_tail : Z }.
#[export] Instance eta_tcp_sock : Eta tcp_sock_t := fun r =>
  Build_tcp_sock_t (active r) (state r) (local_ip r) (local_port r) (remote_ip r) (remote_port r)
    (snd_una r) (snd_nxt r) (snd_isn r) (rcv_nxt r) (rcv_isn r) (snd_wnd r) (recv r)
    (waiting_syn_ack r) (nonblocking r) (listening r) (accept_queue r) (accept_head r) (accept_tail r).

(** A frame in the receive ring of the driver. *)
Record frame := { f_length : Z; packet : buffer }.

Record net := {
  g_net_iface : net_interface_t;
  g_arp_cache : Z -> arp_entry_t;
  g_ip_id : Z;
  g_ping_got_reply : bool; g_ping_expected_seq : Z;
  g_udp_socks : Z -> udp_sock_t; g_udp_cbs : Z -> udp_cb_entry_t; g_udp_cb_count : Z; udp_ephemeral_port : Z;
  g_tcp_socks : Z -> tcp_sock_t; g_tcp_isn_counter : Z; tcp_ephemeral_port : Z;
  g_dns_result : Z; g_dns_done : bool; g_dns_query_id : Z;
  g_dhcp_xid : Z; g_dhcp_offered : Z; g_dhcp_server : Z; g_dhcp_done : bool; g_dhcp_request_sent : bool;
  sent : list (list Z); rx : list frame; arrivals : list (list frame) }.
#[export] Instance eta_net : Eta net := fun r =>
  Build_net (g_net_iface r) (g_arp_cache r) (g_ip_id r) (g_ping_got_reply r) (g_ping_expected_seq r)
    (g_udp_socks r) (g_udp_cbs r) (g_udp_cb_count r) (udp_ephemeral_port r)
    (g_tcp_socks r) (g_tcp_isn_counter r) (tcp_ephemeral_port r)
    (g_dns_result r) (g_dns_done r) (g_dns_query_id r)
    (g_dhcp_xid r) (g_dhcp_offered r) (g_dhcp_server r) (g_dhcp_done r) (g_dhcp_request_sent r)
    (sent r) (rx r) (arrivals r).

(** g_net_iface.send(buf, len) *)
Definition transmit (f : list Z) (s : net) : net := s <| sent := sent s ++ [f] |>.

Section net.
Context (mem : Z -> bool).

(** ** ARP *)

Definition empty_entry : arp_entry_t := {| ip := 0; mac := [0; 0; 0; 0; 0; 0]; valid := false; age_ms := 0 |}.

Definition net_arp_init (s : net) : net :=
  s <| g_arp_cache := for_loop (Z.to_nat ARP_CACHE_SIZE) 0 (fun i a => a.[i <- empty_entry]) (g_arp_cache s) |>.

Definition arp_cache_find (a : Z) (s : net) : option Z :=
  find_index (Z.to_nat ARP_CACHE_SIZE) 0 (fun i => valid (g_arp_cache s i) && (ip (g_arp_cache s i) =? a)).

(** The scan of arp_cache_add from slot [i], [oldest] being the oldest so far. *)
Fixpoint arp_slot (n : nat) (i oldest : Z) (a : Z) (s : net) : Z :=
  match n with
  | O => oldest
  | S n' =>
      if negb (valid (g_arp_cache s i)) || (ip (g_arp_cache s i) =? a) then i
      else arp_slot n' (i + 1) (if age_ms (g_arp_cache s oldest) <? age_ms (g_arp_cache s i) then i else oldest) a s
  end.

Definition arp_cache_add (a : Z) (m : list Z) (s : net) : net :=
  let oldest := arp_slot (Z.to_nat ARP_CACHE_SIZE) 0 0 a s in
  s <| g_arp_cache := (g_arp_cache s).[oldest <- {| ip := a; mac := m; valid := true; age_ms := 0 |}] |>.

Definition arp_lookup (a : Z) (s : net) : option (list Z) :=
  match arp_cache_find a s with Some i => Some (mac (g_arp_cache s i)) | None => None end.

(** An ARP packet in its frame. *)
Definition arp_frame (dst : list Z) (oper : Z) (sha : list Z) (spa : Z) (tha : list Z) (tpa_be : Z) : list Z :=
  dst ++ sha ++ le 2 (htons ETH_TYPE_ARP) ++
  le 2 (htons 1) ++ le 2 (htons ETH_TYPE_IP) ++ [6; 4] ++ le 2 (htons oper) ++
  sha ++ le 4 (htonl spa) ++ tha ++ le 4 tpa_be.

Definition arp_send_request (target_ip : Z) (s : net) : net :=
  let ifc := g_net_iface s in
  if negb (is_up ifc) || negb (has_send ifc) then s
  else transmit (arp_frame (repeat 255 6) 1 (mac_addr ifc) (ip_addr ifc) (repeat 0 6) (htonl target_ip)) s.

(** The six bytes of a hardware address in a packet. *)
Definition mac_at (b : buffer) (off : Z) : list Z := map (fun i => b (off + i)) (seqZ 0 6).

Definition arp_handle (b : buffer) (off len : Z) (s : net) : net :=
  if len <? ARP_LEN then s
  else if negb (ntohs_at b off =? 1) || negb (ntohs_at b (off + 2) =? ETH_TYPE_IP) then s
  else
    let sha := mac_at b (off + 8) in
    let s := arp_cache_add (ntohl_at b (off + 14)) sha s in
    let ifc := g_net_iface s in
    if (ntohs_at b (off + 6) =? 1) && (ntohl_at b (off + 24) =? ip_addr ifc) && has_send ifc
    then transmit (arp_frame sha 2 (mac_addr ifc) (ip_addr ifc) sha (load 4 (off + 14) b)) s
    else s.

(** ** IPv4, outgoing *)

Definition next_hop (dst_ip : Z) (s : net) : Z :=
  let ifc := g_net_iface s in
  if Z.land dst_ip (netmask ifc) =? Z.land (ip_addr ifc) (netmask ifc) then dst_ip else gateway ifc.

(** [n] rounds of waiting that poll, unless [stop] holds before; the rounds
    between two polls only test [stop] again. *)
Fixpoint spin (poll : net -> option net) (n : nat) (stop : net -> bool) (s : net) : option net :=
  match n with
  | O => Some s
  | S n' => if stop s then Some s else s ← poll s; spin poll n' stop s
  end.

Definition broadcast_mac : list Z := repeat 255 6.

(** The hardware address a packet goes to; a missing one is asked for, with
    100 polls in 100000 rounds. *)
Definition destination (poll : net -> option net) (dst_ip : Z) (s : net) : option (list Z * net) :=
  let hop := next_hop dst_ip s in
  if (dst_ip =? 0xFFFFFFFF) || (hop =? 0xFFFFFFFF) then Some (broadcast_mac, s)
  else if Z.land dst_ip 0xF0000000 =? 0xE0000000 then
    Some ([0x01; 0x00; 0x5E; u8 (Z.land (Z.shiftr dst_ip 16) 0x7F); u8 (Z.land (Z.shiftr dst_ip 8) 0xFF); u8 (Z.land dst_ip 0xFF)], s)
  else match arp_lookup hop s with
  | Some m => Some (m, s)
  | None =>
      let s := arp_send_request hop s in
      s ← spin poll 100 (fun _ => false) s;
      Some (match arp_lookup hop s with Some m => m | None => broadcast_mac end, s)
  end.

Definition ip_header (total_len id proto checksum src_ip dst_ip : Z) : list Z :=
  [0x45; 0] ++ le 2 (htons (u16 total_len)) ++ le 2 (htons id) ++ le 2 (htons 0x4000) ++ [64; proto] ++
  le 2 checksum ++ le 4 (htonl src_ip) ++ le 4 (htonl dst_ip).

(** The frame, its header checksum taken over the header with a zero there. *)
Definition ip_frame (dst_mac src_mac : list Z) (id proto src_ip dst_ip : Z) (payload : list Z) : list Z :=
  let hdr c := ip_header (IP_HLEN + Z.of_nat (length payload)) id proto c src_ip dst_ip in
  dst_mac ++ src_mac ++ le 2 (htons ETH_TYPE_IP) ++ hdr (net_checksum (hdr 0)) ++ payload.

Definition ip_send (poll : net -> option net) (dst_ip proto : Z) (payload : list Z) (s : net) : option net :=
  let ifc := g_net_iface s in
  let payload_len := Z.of_nat (length payload) in
  if negb (is_up ifc) || negb (has_send ifc) then Some s
  else if negb (mem (ETH_HLEN + IP_HLEN + payload_len)) then Some s
  else
    '(dst_mac, s) ← destination poll dst_ip s;
    let ifc := g_net_iface s in
    let frame := ip_frame dst_mac (mac_addr ifc) (g_ip_id s) proto (ip_addr ifc) dst_ip payload in
    Some (transmit frame (s <| g_ip_id := u16 (g_ip_id s + 1) |>)).

(** ** ICMP *)

Definition ICMP_ECHO_REQUEST : Z := 8.
Definition ICMP_ECHO_REPLY : Z := 0.

(** [id] and [seq] as they lie in memory. *)
Definition icmp_packet (type checksum id seq : Z) (payload : list Z) : list Z :=
  [type; 0] ++ le 2 checksum ++ le 2 id ++ le 2 seq ++ payload.

(** [n] bytes of a packet. *)
Definition bytes_at (b : buffer) (off n : Z) : list Z := map (fun i => b (off + i)) (seqZ 0 n).

Definition icmp_handle (poll : net -> option net) (b : buffer) (ip_off off len : Z) (s : net) : option net :=
  if len <? ICMP_HLEN then Some s
  else if b off =? ICMP_ECHO_REQUEST then
    if negb (mem len) then Some s
    else
      let pkt c := icmp_packet ICMP_ECHO_REPLY c (load 2 (off + 4) b) (load 2 (off + 6) b)
                     (bytes_at b (off + ICMP_HLEN) (len - ICMP_HLEN)) in
      ip_send poll (ntohl_at b (ip_off + 12)) IP_PROTO_ICMP (pkt (net_checksum (pkt 0))) s
  else if b off =? ICMP_ECHO_REPLY then
    if ntohs_at b (off + 6) =? g_ping_expected_seq s then Some (s <| g_ping_got_reply := true |>) else Some s
  else Some s.

(** ** UDP *)

Definition zero_udp : udp_sock_t :=
  {| u_active := false; u_local_port := 0; u_recv_buf := fun _ => 0; recv_src_ip := 0; recv_src_port := 0;
     recv_len := 0; has_data := false |}.

Definition net_udp_init (s : net) : net :=
  s <| g_udp_socks := for_loop (Z.to_nat UDP_MAX_SOCKETS) 0 (fun i a => a.[i <- zero_udp]) (g_udp_socks s) |>.

Definition udp_register_callback (p : Z) (f : udp_callback_t) (s : net) : net :=
  if UDP_MAX_CALLBACKS <=? g_udp_cb_count s then s
  else s <| g_udp_cbs := (g_udp_cbs s).[g_udp_cb_count s <- {| port := p; cb := f |}] |>
         <| g_udp_cb_count := g_udp_cb_count s + 1 |>.

Definition udp_socket (s : net) : Z * net :=
  match find_index (Z.to_nat UDP_MAX_SOCKETS) 0 (fun i => negb (u_active (g_udp_socks s i))) with
  | None => (-1, s)
  | Some i =>
      let p := udp_ephemeral_port s in
      let next := u16 (p + 1) in
      (i, s <| g_udp_socks := (g_udp_socks s).[i <- (g_udp_socks s i) <| u_active := true |> <| u_local_port := p |>] |>
            <| udp_ephemeral_port := if next =? 0 then 49152 else next |>)
  end.

Definition udp_bad (fd : Z) (s : net) : bool := (fd <? 0) || (UDP_MAX_SOCKETS <=? fd) || negb (u_active (g_udp_socks s fd)).

Definition udp_bind (fd p : Z) (s : net) : Z * net :=
  if udp_bad fd s then (-1, s)
  else (0, s <| g_udp_socks := (g_udp_socks s).[fd <- (g_udp_socks s fd) <| u_local_port := p |>] |>).

Definition udp_packet (src_port dst_port total checksum : Z) (data : list Z) : list Z :=
  le 2 (htons src_port) ++ le 2 (htons dst_port) ++ le 2 (htons (u16 total)) ++ le 2 checksum ++ data.

Definition udp_sendto (poll : net -> option net) (fd : Z) (data : list Z) (dst_ip dst_port : Z) (s : net) : option (Z * net) :=
  if udp_bad fd s then Some (-1, s)
  else
    let len := Z.of_nat (length data) in
    let total := UDP_HLEN + len in
    if negb (mem total) then Some (-1, s)
    else
      let pkt c := udp_packet (u_local_port (g_udp_socks s fd)) dst_port total c data in
      let checksum := transport_checksum (ip_addr (g_net_iface s)) dst_ip IP_PROTO_UDP (pkt 0) in
      s ← ip_send poll dst_ip IP_PROTO_UDP (pkt checksum) s;
      Some (i32 len, s).

(** ** DNS *)

Definition DNS_PORT : Z := 53.
Definition DNS_BUF : Z := 512.
Definition DNS_HLEN : Z := 12.

Definition is_pointer (c : Z) : bool := Z.land c 0xC0 =? 0xC0.

(** Skip the name of the question, up to and including its end. *)
Fixpoint skip_question (n : nat) (b : buffer) (p end_ : Z) : Z :=
  match n with
  | O => p
  | S n' =>
      if (p <? end_) && negb (b p =? 0) then
        if is_pointer (b p) then p + 2 else skip_question n' b (p + b p + 1) end_
      else if p <? end_ then p + 1 else p
  end.

(** [while (p < end && *p) p += *p + 1; if (p < end) p++;] *)
Fixpoint skip_labels (n : nat) (b : buffer) (p end_ : Z) : Z :=
  match n with
  | O => p
  | S n' =>
      if (p <? end_) && negb (b p =? 0) then skip_labels n' b (p + b p + 1) end_
      else if p <? end_ then p + 1 else p
  end.

Definition skip_name (b : buffer) (p end_ : Z) : Z :=
  if is_pointer (b p) then p + 2 else skip_labels (S (Z.to_nat (end_ - p))) b p end_.

(** The answers from [p]: the address of the first A record. *)
Fixpoint answers (n : nat) (b : buffer) (p end_ : Z) : option Z :=
  match n with
  | O => None
  | S n' =>
      if end_ <=? p then None
      else
        let p := skip_name b p end_ in
        if end_ <? p + 10 then None
        else
          let rtype := Z.lor (Z.shiftl (b p) 8) (b (p + 1)) in
          let rdlen := Z.lor (Z.shiftl (b (p + 8)) 8) (b (p + 9)) in
          if (rtype =? 1) && (rdlen =? 4) then Some (ip_at b (p + 10))
          else answers n' b (p + 10 + rdlen) end_
  end.

Definition dns_callback (b : buffer) (off len : Z) (s : net) : net :=
  if len <? DNS_HLEN then s
  else if negb (ntohs_at b off =? g_dns_query_id s) then s
  else if negb (has (ntohs_at b (off + 2)) 0x8000) then s
  else if ntohs_at b (off + 6) =? 0 then s <| g_dns_done := true |>
  else
    let end_ := off + len in
    let n := S (Z.to_nat len) in
    let p := skip_question n b (off + DNS_HLEN) end_ in
    match answers n b (p + 4) end_ with
    | Some a => s <| g_dns_result := a |> <| g_dns_done := true |>
    | None => s <| g_dns_done := true |>
    end.

Definition net_dns_init (s : net) : net := udp_register_callback (DNS_PORT + 1000) dns_callback_fn s.

(** ** DHCP *)

Definition DHCP_SERVER_PORT : Z := 67.
Definition DHCP_CLIENT_PORT : Z := 68.
Definition DHCP_MAGIC : Z := 0x63825363.
Definition DHCP_DISCOVER : Z := 1.
Definition DHCP_OFFER : Z := 2.
Definition DHCP_REQUEST : Z := 3.
Definition DHCP_ACK : Z := 5.
Definition DHCP_LEN : Z := 548.
Definition DHCP_OPTIONS : Z := 308.

(** The four bytes of an address, most significant first. *)
Definition ip_bytes (a : Z) : list Z := [u8 (Z.shiftr a 24); u8 (Z.shiftr a 16); u8 (Z.shiftr a 8); u8 a].

Definition dhcp_build_options (m : list Z) (msg_type requested_ip server_ip : Z) : list Z :=
  [53; 1; msg_type] ++ [61; 7; 1] ++ m ++
  (if requested_ip =? 0 then [] else [50; 4] ++ ip_bytes requested_ip) ++
  (if server_ip =? 0 then [] else [54; 4] ++ ip_bytes server_ip) ++
  [55; 4; 1; 3; 6; 15] ++ [255].

(** An option area of 308 bytes that starts with [opts] and is zero behind. *)
Definition dhcp_packet (xid : Z) (m opts : list Z) : list Z :=
  [1; 1; 6; 0] ++ le 4 (htonl xid) ++ le 2 0 ++ le 2 (htons 0x8000) ++ repeat 0 16 ++
  m ++ repeat 0 10 ++ repeat 0 64 ++ repeat 0 128 ++ le 4 (htonl DHCP_MAGIC) ++
  opts ++ repeat 0 (Z.to_nat DHCP_OPTIONS - length opts).

Definition dhcp_send (poll : net -> option net) (msg_type requested_ip server_ip : Z) (s : net) : option net :=
  let ifc := g_net_iface s in
  if negb (is_up ifc) || negb (has_send ifc) then Some s
  else
    let pkt := dhcp_packet (g_dhcp_xid s) (mac_addr ifc) (dhcp_build_options (mac_addr ifc) msg_type requested_ip server_ip) in
    let '(sock, s) := udp_socket s in
    let '(_, s) := udp_bind sock DHCP_CLIENT_PORT s in
    '(_, s) ← udp_sendto poll sock pkt 0xFFFFFFFF DHCP_SERVER_PORT s;
    Some s.

(** What the option parser has collected. *)
Record dhcp_opts := { o_msg_type : Z; o_subnet : Z; o_gateway : Z; o_dns : Z }.
#[export] Instance eta_dhcp_opts : Eta dhcp_opts := fun r => Build_dhcp_opts (o_msg_type r) (o_subnet r) (o_gateway r) (o_dns r).

(** One option of code [code] and length [l], its data at [p]. *)
Definition take_option (b : buffer) (code l p : Z) (o : dhcp_opts) : dhcp_opts :=
  let o := if (code =? 53) && (l =? 1) then o <| o_msg_type := b p |> else o in
  let o := if (code =? 1) && (l =? 4) then o <| o_subnet := ip_at b p |> else o in
  let o := if (code =? 3) && (4 <=? l) then o <| o_gateway := ip_at b p |> else o in
  if (code =? 6) && (4 <=? l) then o <| o_dns := ip_at b p |> else o.

Fixpoint parse_options (n : nat) (b : buffer) (p end_ : Z) (o : dhcp_opts) : dhcp_opts :=
  match n with
  | O => o
  | S n' =>
      if (p <? end_) && negb (b p =? 255) then
        if b p =? 0 then parse_options n' b (p + 1) end_ o
        else let l := b (p + 1) in parse_options n' b (p + 2 + l) end_ (take_option b (b p) l (p + 2) o)
      else o
  end.

Definition no_opts : dhcp_opts := {| o_msg_type := 0; o_subnet := 0; o_gateway := 0; o_dns := 0 |}.

Definition dhcp_receive (poll : net -> option net) (src_ip : Z) (b : buffer) (off len : Z) (s : net) : option net :=
  if len <? DHCP_LEN then Some s
  else if negb (ntohl_at b (off + 236) =? DHCP_MAGIC) then Some s
  else if negb (ntohl_at b (off + 4) =? g_dhcp_xid s) then Some s
  else
    let o := parse_options (S (Z.to_nat DHCP_OPTIONS)) b (off + 240) (off + 240 + DHCP_OPTIONS) no_opts in
    let offered_ip := ntohl_at b (off + 16) in
    if o_msg_type o =? DHCP_OFFER then
      if g_dhcp_request_sent s then Some s
      else
        let s := s <| g_dhcp_offered := offered_ip |> <| g_dhcp_server := src_ip |> <| g_dhcp_request_sent := true |> in
        dhcp_send poll DHCP_REQUEST (g_dhcp_offered s) (g_dhcp_server s) s
    else if o_msg_type o =? DHCP_ACK then
      Some (s <| g_net_iface := (g_net_iface s) <| ip_addr := offered_ip |>
                                  <| netmask := if o_subnet o =? 0 then 0xFFFFFF00 else o_subnet o |>
                                  <| gateway := o_gateway o |> <| dns_server := o_dns o |> <| dhcp_done := true |> |>
              <| g_dhcp_done := true |>)
    else Some s.

Definition net_dhcp_init (s : net) : net := udp_register_callback DHCP_CLIENT_PORT dhcp_receive_fn s.

(** ** UDP, incoming *)

Definition call_back (poll : net -> option net) (f : udp_callback_t) (src_ip : Z) (b : buffer) (off len : Z) (s : net) : option net :=
  match f with
  | dns_callback_fn => Some (dns_callback b off len s)
  | dhcp_receive_fn => dhcp_receive poll src_ip b off len s
  end.

Definition udp_receive (poll : net -> option net) (b : buffer) (ip_off udp_off off len : Z) (s : net) : option net :=
  let dst_port := ntohs_at b (udp_off + 2) in
  let src_ip := ntohl_at b (ip_off + 12) in
  let src_port := ntohs_at b udp_off in
  match find_index (Z.to_nat (g_udp_cb_count s)) 0 (fun i => port (g_udp_cbs s i) =? dst_port) with
  | Some i => call_back poll (cb (g_udp_cbs s i)) src_ip b off len s
  | None =>
      match find_index (Z.to_nat UDP_MAX_SOCKETS) 0
              (fun i => u_active (g_udp_socks s i) && (u_local_port (g_udp_socks s i) =? dst_port)) with
      | None => Some s
      | Some i =>
          let k := g_udp_socks s i in
          let copy := if len <? UDP_RECV_BUF then len else UDP_RECV_BUF in
          Some (s <| g_udp_socks := (g_udp_socks s).[i <-
                       k <| u_recv_buf := Block.blit (u_recv_buf k) 0 b off copy |> <| recv_len := copy |>
                         <| recv_src_ip := src_ip |> <| recv_src_port := src_port |> <| has_data := true |>] |>)
      end
  end.

(** ** TCP *)

Definition zero_tcp : tcp_sock_t :=
  {| active := false; state := SOCK_STATE_CLOSED; local_ip := 0; local_port := 0; remote_ip := 0; remote_port := 0;
     snd_una := 0; snd_nxt := 0; snd_isn := 0; rcv_nxt := 0; rcv_isn := 0; snd_wnd := 0;
     recv := {| slots := fun _ => 0; wr := 0; rd := 0 |}; waiting_syn_ack := false; nonblocking := false;
     listening := false; accept_queue := fun _ => 0; accept_head := 0; accept_tail := 0 |}.

Definition tcp_at (fd : Z) (s : net) : tcp_sock_t := g_tcp_socks s fd.
Definition set_tcp (fd : Z) (k : tcp_sock_t) (s : net) : net := s <| g_tcp_socks := (g_tcp_socks s).[fd <- k] |>.

Definition tcp_header (src_port dst_port seq ack flags checksum : Z) : list Z :=
  le 2 (htons src_port) ++ le 2 (htons dst_port) ++ le 4 (htonl seq) ++ le 4 ack ++
  [Z.shiftl (TCP_HLEN / 4) 4; flags] ++ le 2 (htons TCP_WINDOW_SIZE) ++ le 2 checksum ++ le 2 0.

Definition tcp_segment (k : tcp_sock_t) (flags : Z) (data : list Z) : list Z :=
  let hdr c := tcp_header (local_port k) (remote_port k) (snd_nxt k)
                 (if has flags TCP_ACK then htonl (rcv_nxt k) else 0) flags c in
  hdr (transport_checksum (local_ip k) (remote_ip k) IP_PROTO_TCP (hdr 0 ++ data)) ++ data.

(** How far a segment advances snd_nxt. *)
Definition seq_after (k : tcp_sock_t) (flags len : Z) : Z :=
  let n := if len =? 0 then snd_nxt k else u32 (snd_nxt k + u32 len) in
  let n := if has flags TCP_SYN then u32 (n + 1) else n in
  if has flags TCP_FIN then u32 (n + 1) else n.

Definition tcp_send_segment (poll : net -> option net) (fd flags : Z) (data : list Z) (s : net) : option net :=
  let len := Z.of_nat (length data) in
  if negb (mem (TCP_HLEN + len)) then Some s
  else
    s ← ip_send poll (remote_ip (tcp_at fd s)) IP_PROTO_TCP (tcp_segment (tcp_at fd s) flags data) s;
    Some (set_tcp fd ((tcp_at fd s) <| snd_nxt := seq_after (tcp_at fd s) flags len |>) s).

Definition tcp_find_sock (r_ip r_port l_port : Z) (s : net) : option Z :=
  find_index (Z.to_nat TCP_MAX_SOCKETS) 0 (fun i =>
    let k := tcp_at i s in
    active k && ((local_port k =? l_port) && ((remote_ip k =? r_ip) || listening k) && ((remote_port k =? r_port) || listening k))).

Definition tcp_find_listener (l_port : Z) (s : net) : option Z :=
  find_index (Z.to_nat TCP_MAX_SOCKETS) 0 (fun i => let k := tcp_at i s in active k && listening k && (local_port k =? l_port)).

Definition net_tcp_init (s : net) : net :=
  s <| g_tcp_socks := for_loop (Z.to_nat TCP_MAX_SOCKETS) 0 (fun i a => a.[i <- zero_tcp]) (g_tcp_socks s) |>.

Definition tcp_socket (s : net) : Z * net :=
  match find_index (Z.to_nat TCP_MAX_SOCKETS) 0 (fun i => negb (active (tcp_at i s))) with
  | None => (-1, s)
  | Some i => (i, set_tcp i (zero_tcp <| active := true |> <| state := SOCK_STATE_CLOSED |> <| local_ip := ip_addr (g_net_iface s) |>) s)
  end.

Definition tcp_socket_nonblock (s : net) : Z * net :=
  let '(fd, s) := tcp_socket s in
  (fd, if 0 <=? fd then set_tcp fd ((tcp_at fd s) <| nonblocking := true |>) s else s).

Definition tcp_in_range (fd : Z) : bool := (0 <=? fd) && (fd <? TCP_MAX_SOCKETS).

Definition tcp_set_nonblock (fd : Z) (nonblock : bool) (s : net) : net :=
  if tcp_in_range fd then set_tcp fd ((tcp_at fd s) <| nonblocking := nonblock |>) s else s.

Definition tcp_is_nonblock (fd : Z) (s : net) : bool := if tcp_in_range fd then nonblocking (tcp_at fd s) else false.

Definition tcp_bad (fd : Z) (s : net) : bool := negb (tcp_in_range fd) || negb (active (tcp_at fd s)).

Definition tcp_listen (fd p : Z) (s : net) : Z * net :=
  if tcp_bad fd s then (-1, s)
  else (0, set_tcp fd ((tcp_at fd s) <| local_port := p |> <| listening := true |> <| state := SOCK_STATE_LISTEN |>
                         <| accept_head := 0 |> <| accept_tail := 0 |>) s).

(** A SYN for a listening socket [ls]. *)
Definition passive_open (poll : net -> option net) (src_ip src_port dst_port seq ls : Z) (s : net) : option net :=
  let '(new_fd, s) := tcp_socket s in
  if new_fd <? 0 then Some s
  else
    let isn := g_tcp_isn_counter s in
    let s := set_tcp new_fd ((tcp_at new_fd s) <| local_port := dst_port |> <| remote_ip := src_ip |> <| remote_port := src_port |>
               <| rcv_isn := seq |> <| rcv_nxt := u32 (seq + 1) |> <| snd_isn := isn |> <| snd_una := isn |> <| snd_nxt := isn |>
               <| state := SOCK_STATE_SYN_RCVD |>) (s <| g_tcp_isn_counter := u32 (isn + 64521) |>) in
    s ← tcp_send_segment poll new_fd (Z.lor TCP_SYN TCP_ACK) [] s;
    let l := tcp_at ls s in
    let next := (accept_head l + 1) mod 8 in
    if next =? accept_tail l then Some s
    else Some (set_tcp ls (l <| accept_queue := (accept_queue l).[accept_head l <- new_fd] |> <| accept_head := next |>) s).

(** The bytes of a segment go to the ring until it is full. *)
Fixpoint receive_bytes (data : list Z) (r : ring Z) : ring Z :=
  match data with
  | [] => r
  | x :: data' => let '(ok, r') := push TCP_RECV_BUF x r in if ok then receive_bytes data' r' else r
  end.

(** An acknowledgement. *)
Definition tcp_ack (ack_num : Z) (k : tcp_sock_t) : tcp_sock_t :=
  let k := if snd_una k <? ack_num then k <| snd_una := ack_num |> else k in
  match state k with
  | SOCK_STATE_SYN_RCVD => k <| state := SOCK_STATE_ESTABLISHED |>
  | SOCK_STATE_FIN_WAIT1 => k <| state := SOCK_STATE_FIN_WAIT2 |>
  | SOCK_STATE_LAST_ACK => k <| state := SOCK_STATE_CLOSED |> <| active := false |>
  | _ => k
  end.

Definition tcp_data (seq : Z) (data : list Z) (k : tcp_sock_t) : tcp_sock_t :=
  if seq =? rcv_nxt k
  then k <| recv := receive_bytes data (recv k) |> <| rcv_nxt := u32 (rcv_nxt k + u32 (Z.of_nat (length data))) |>
  else k.

Definition tcp_fin (k : tcp_sock_t) : tcp_sock_t :=
  match state k with
  | SOCK_STATE_ESTABLISHED => k <| state := SOCK_STATE_CLOSE_WAIT |>
  | SOCK_STATE_FIN_WAIT2 => k <| state := SOCK_STATE_CLOSED |> <| active := false |>
  | _ => k
  end.

(** A segment for socket [fd], past the handshake. *)
Definition tcp_established (poll : net -> option net) (fd flags seq ack_num : Z) (data : list Z) (s : net) : option net :=
  let s := if has flags TCP_ACK then set_tcp fd (tcp_ack ack_num (tcp_at fd s)) s else s in
  s ← (if (0 <? Z.of_nat (length data)) && bool_decide (state (tcp_at fd s) = SOCK_STATE_ESTABLISHED)
       then tcp_send_segment poll fd TCP_ACK [] (set_tcp fd (tcp_data seq data (tcp_at fd s)) s)
       else Some s);
  s ← (if has flags TCP_FIN
       then s ← tcp_send_segment poll fd TCP_ACK [] (set_tcp fd ((tcp_at fd s) <| rcv_nxt := u32 (rcv_nxt (tcp_at fd s) + 1) |>) s);
            Some (set_tcp fd (tcp_fin (tcp_at fd s)) s)
       else Some s);
  Some (if has flags TCP_RST then set_tcp fd ((tcp_at fd s) <| state := SOCK_STATE_CLOSED |> <| active := false |>) s else s).

Definition tcp_input (poll : net -> option net) (src_ip src_port dst_port flags seq ack_num window : Z) (data : list Z) (s : net) : option net :=
  match tcp_find_sock src_ip src_port dst_port s with
  | None =>
      if has flags TCP_SYN && negb (has flags TCP_ACK) then
        match tcp_find_listener dst_port s with
        | None => Some s
        | Some ls => passive_open poll src_ip src_port dst_port seq ls s
        end
      else Some s
  | Some fd =>
      if has flags TCP_SYN && has flags TCP_ACK && bool_decide (state (tcp_at fd s) = SOCK_STATE_SYN_SENT)
      then tcp_send_segment poll fd TCP_ACK []
             (set_tcp fd ((tcp_at fd s) <| rcv_isn := seq |> <| rcv_nxt := u32 (seq + 1) |> <| snd_una := ack_num |>
                            <| snd_wnd := window |> <| state := SOCK_STATE_ESTABLISHED |> <| waiting_syn_ack := false |>) s)
      else tcp_established poll fd flags seq ack_num data s
  end.

(** The header fields of a received segment, and its data. *)
Definition tcp_receive (poll : net -> option net) (b : buffer) (ip_off off data_off data_len : Z) (s : net) : option net :=
  tcp_input poll (ntohl_at b (ip_off + 12)) (ntohs_at b off) (ntohs_at b (off + 2)) (b (off + 13))
    (ntohl_at b (off + 4)) (ntohl_at b (off + 8)) (ntohs_at b (off + 14)) (bytes_at b data_off data_len) s.

(** ** Incoming packets *)

(** The switch on the protocol. *)
Definition ip_dispatch (poll : net -> option net) (b : buffer) (off payload payload_len proto : Z) (s : net) : option net :=
  if proto =? IP_PROTO_ICMP then icmp_handle poll b off payload payload_len s
  else if proto =? IP_PROTO_TCP then
    if payload_len <? TCP_HLEN then Some s
    else
      let tcp_hdr_len := Z.shiftr (b (payload + 12)) 4 * 4 in
      if (tcp_hdr_len <? TCP_HLEN) || (payload_len <? tcp_hdr_len) then Some s
      else tcp_receive poll b off payload (payload + tcp_hdr_len) (payload_len - tcp_hdr_len) s
  else if proto =? IP_PROTO_UDP then
    if payload_len <? UDP_HLEN then Some s
    else udp_receive poll b off payload (payload + UDP_HLEN) (payload_len - UDP_HLEN) s
  else Some s.

Definition ip_receive (poll : net -> option net) (b : buffer) (off total_len : Z) (s : net) : option net :=
  if total_len <? IP_HLEN then Some s
  else if negb (Z.shiftr (b off) 4 =? 4) then Some s
  else
    let proto := b (off + 9) in
    let hdr_len := Z.land (b off) 0x0F * 4 in
    if (hdr_len <? IP_HLEN) || (total_len <? hdr_len) then Some s
    else
      let ip_total := ntohs_at b (off + 2) in
      if ip_total <? hdr_len then Some s
      else if total_len <? ip_total then Some s
      else
        let payload := off + hdr_len in
        let payload_len := ip_total - hdr_len in
        ip_dispatch poll b off payload payload_len proto s.

Definition net_receive (poll : net -> option net) (b : buffer) (len : Z) (s : net) : option net :=
  if len <? ETH_HLEN then Some s
  else
    let type := ntohs_at b 12 in
    let payload_len := len - ETH_HLEN in
    if type =? ETH_TYPE_ARP then Some (arp_handle b ETH_HLEN payload_len s)
    else if type =? ETH_TYPE_IP then
      if IP_HLEN <=? payload_len then ip_receive poll b ETH_HLEN payload_len s else Some s
    else Some s.

Definition E1000_RX_DESC_COUNT : Z := 128.
Definition E1000_RX_BUF_SIZE : Z := 2048.

(** Polling below e1000_poll: the receive lock is taken. *)
Definition locked_poll (_ : net) : option net := None.

(** The frames of the ring, at most [n]. *)
Fixpoint poll_loop (n : nat) (s : net) : option net :=
  match n with
  | O => Some s
  | S n' =>
      match rx s with
      | [] => Some s
      | f :: rest =>
          let s := s <| rx := rest |> in
          s ← (if (0 <? f_length f) && (f_length f <=? E1000_RX_BUF_SIZE)
               then net_receive locked_poll (packet f) (f_length f) s else Some s);
          poll_loop n' s
      end
  end.

(** e1000_poll, after the frames that have arrived since the last poll. *)
Definition net_poll (s : net) : option net :=
  let s := match arrivals s with
           | [] => s
           | fs :: later => s <| rx := rx s ++ fs |> <| arrivals := later |>
           end in
  poll_loop (Z.to_nat E1000_RX_DESC_COUNT) s.

(** ** Calls of the rest of the kernel *)

Definition net_ip_init (s : net) : net := s <| g_ip_id := 1 |>.

(** The protocol layers, in the order of net_init; the rest of it starts
    drivers and registers a node in the graph. *)
Definition net_init (s : net) : net :=
  net_dns_init (net_dhcp_init (net_udp_init (net_tcp_init (net_ip_init (net_arp_init s))))).

Definition ping_packet (seq checksum : Z) : list Z :=
  icmp_packet ICMP_ECHO_REQUEST checksum (htons 0xCAFE) (htons seq) (map u8 (seqZ ICMP_HLEN 32)).

(** timeout_ms * 100 rounds, a poll in every hundredth, and a test of the
    reply at the start of each; when a product that has wrapped leaves one
    round behind the last hundred, what its poll brings is not looked at. *)
Definition icmp_ping (dst_ip seq timeout_ms : Z) (s : net) : option (Z * net) :=
  if negb (mem (ICMP_HLEN + 32)) then Some (-1, s)
  else
    let s := s <| g_ping_got_reply := false |> <| g_ping_expected_seq := seq |> in
    s ← ip_send net_poll dst_ip IP_PROTO_ICMP (ping_packet seq (net_checksum (ping_packet seq 0))) s;
    let rounds := u32 (timeout_ms * 100) in
    s ← spin net_poll (Z.to_nat (rounds / 100)) g_ping_got_reply s;
    if negb (rounds =? 0) && g_ping_got_reply s then Some (0, s)
    else if rounds mod 100 =? 0 then Some (-1, s)
    else
      s ← net_poll s;
      Some (if negb (rounds mod 100 =? 1) && g_ping_got_reply s then 0 else -1, s).

(** The bytes of a name before its next dot. *)
Fixpoint label (name : list Z) : list Z :=
  match name with
  | [] => []
  | c :: r => if c =? 46 then [] else c :: label r
  end.

Fixpoint encode_name (n : nat) (name : list Z) : list Z :=
  match n, name with
  | S n', _ :: _ =>
      let l := label name in
      let rest := drop (length l) name in
      u8 (Z.of_nat (length l)) :: l ++ encode_name n' (match rest with _ :: r => r | [] => [] end)
  | _, _ => []
  end.

Definition dns_query (id : Z) (hostname : list Z) : list Z :=
  le 2 (htons id) ++ le 2 (htons 0x0100) ++ le 2 (htons 1) ++ repeat 0 6 ++
  encode_name (length hostname) hostname ++ [0] ++ [0; 1] ++ [0; 1].

(** The address of a host.  A query that does not fit the buffer on the stack
    runs over it, which gives [None]. *)
Definition dns_resolve (hostname : list Z) (s : net) : option (option Z * net) :=
  let ifc := g_net_iface s in
  if negb (is_up ifc) || (dns_server ifc =? 0) then Some (None, s)
  else
    let id := u16 (g_dns_query_id s + 1) in
    let q := dns_query id hostname in
    if DNS_BUF <? Z.of_nat (length q) then None
    else
      let s := s <| g_dns_query_id := id |> <| g_dns_result := 0 |> <| g_dns_done := false |> in
      let '(sock, s) := udp_socket s in
      let '(_, s) := udp_bind sock (DNS_PORT + 1000) s in
      '(_, s) ← udp_sendto net_poll sock q (dns_server ifc) DNS_PORT s;
      s ← spin net_poll 3000 g_dns_done s;
      Some (if negb (g_dns_done s) || (g_dns_result s =? 0) then None else Some (g_dns_result s), s).

Definition dhcp_start (s : net) : option net :=
  let s := s <| g_dhcp_offered := 0 |> <| g_dhcp_server := 0 |> <| g_dhcp_done := false |> <| g_dhcp_request_sent := false |> in
  s ← dhcp_send net_poll DHCP_DISCOVER 0 0 s;
  spin net_poll 5000 g_dhcp_done s.

Definition EAGAIN : Z := 11.
Definition EINPROGRESS : Z := 115.

(** 8000000 rounds, a poll in every hundredth *)
Definition tcp_connect (fd dst_ip dst_port : Z) (s : net) : option (Z * net) :=
  if tcp_bad fd s then Some (-1, s)
  else
    let p := tcp_ephemeral_port s in
    let next := u16 (p + 1) in
    let isn := g_tcp_isn_counter s in
    let s := set_tcp fd ((tcp_at fd s) <| local_port := p |> <| remote_ip := dst_ip |> <| remote_port := dst_port |>
               <| snd_isn := isn |> <| snd_una := isn |> <| snd_nxt := isn |> <| state := SOCK_STATE_SYN_SENT |> <| waiting_syn_ack := true |>)
               (s <| tcp_ephemeral_port := if next =? 0 then 32768 else next |> <| g_tcp_isn_counter := u32 (isn + 64521) |>) in
    s ← tcp_send_segment net_poll fd TCP_SYN [] s;
    if nonblocking (tcp_at fd s) then Some (- EINPROGRESS, s)
    else
      s ← spin net_poll (Z.to_nat 80000) (fun s => negb (waiting_syn_ack (tcp_at fd s))) s;
      Some (if bool_decide (state (tcp_at fd s) = SOCK_STATE_ESTABLISHED) then 0 else -1, s).

Definition no_client (fd : Z) (s : net) : bool := accept_head (tcp_at fd s) =? accept_tail (tcp_at fd s).

(** The wait of tcp_accept has no limit: once nothing more arrives it never
    returns.  Each round takes a frame or one of the [arrivals] to come. *)
Definition accept_rounds (s : net) : nat := S (length (arrivals s) + length (rx s) + length (concat (arrivals s))).

Definition tcp_accept (fd : Z) (s : net) : option (Z * net) :=
  if tcp_bad fd s then Some (-1, s)
  else if nonblocking (tcp_at fd s) && no_client fd s then Some (- EAGAIN, s)
  else
    s ← spin net_poll (accept_rounds s) (fun s => negb (no_client fd s)) s;
    if no_client fd s then None
    else
      let l := tcp_at fd s in
      Some (accept_queue l (accept_tail l), set_tcp fd (l <| accept_tail := (accept_tail l + 1) mod 8 |>) s).

Definition tcp_send (fd : Z) (data : list Z) (s : net) : option (Z * net) :=
  if tcp_bad fd s then Some (-1, s)
  else if negb (bool_decide (state (tcp_at fd s) = SOCK_STATE_ESTABLISHED)) then Some (-1, s)
  else
    s ← tcp_send_segment net_poll fd (Z.lor TCP_PSH TCP_ACK) data s;
    Some (i32 (Z.of_nat (length data)), s).

Definition ring_empty (fd : Z) (s : net) : bool := wr (recv (tcp_at fd s)) =? rd (recv (tcp_at fd s)).

Definition peer_closed (fd : Z) (s : net) : bool :=
  match state (tcp_at fd s) with SOCK_STATE_CLOSE_WAIT | SOCK_STATE_CLOSED => true | _ => false end.

Definition ring_avail (r : ring Z) : Z :=
  if rd r <=? wr r then wr r - rd r else TCP_RECV_BUF - rd r + wr r.

(** The copy out of the ring, in two parts when it runs over the end. *)
Definition take_bytes (fd : Z) (buf : buffer) (max_len : Z) (s : net) : Z * buffer * net :=
  let k := tcp_at fd s in
  let r := recv k in
  let avail := ring_avail r in
  let copy := if avail <? max_len then avail else max_len in
  if copy =? 0 then (0, buf, s)
  else
    let linear := TCP_RECV_BUF - rd r in
    let buf := if copy <=? linear then Block.blit buf 0 (slots r) (rd r) copy
               else Block.blit (Block.blit buf 0 (slots r) (rd r) linear) linear (slots r) 0 (copy - linear) in
    (i32 copy, buf, set_tcp fd (k <| recv := r <| rd := (rd r + copy) mod TCP_RECV_BUF |> |>) s).

(** 1000000 rounds, a poll in every thousandth *)
Definition tcp_recv (fd : Z) (buf : buffer) (max_len : Z) (s : net) : option (Z * buffer * net) :=
  if negb (tcp_in_range fd) then Some (-1, buf, s)
  else if negb (active (tcp_at fd s)) && ring_empty fd s then Some (-1, buf, s)
  else if nonblocking (tcp_at fd s) then
    if ring_empty fd s then Some (- EAGAIN, buf, s) else Some (take_bytes fd buf max_len s)
  else
    s ← spin net_poll 1000 (fun s => negb (ring_empty fd s) || peer_closed fd s) s;
    if ring_empty fd s && peer_closed fd s then Some (0, buf, s) else Some (take_bytes fd buf max_len s).

Definition tcp_available (fd : Z) (s : net) : Z :=
  if tcp_bad fd s then 0 else i32 (ring_avail (recv (tcp_at fd s))).

Definition tcp_close (fd : Z) (s : net) : option (Z * net) :=
  if tcp_bad fd s then Some (-1, s)
  else
    s ← (match state (tcp_at fd s) with
         | SOCK_STATE_ESTABLISHED | SOCK_STATE_CLOSE_WAIT =>
             tcp_send_segment net_poll fd (Z.lor TCP_FIN TCP_ACK) [] (set_tcp fd ((tcp_at fd s) <| state := SOCK_STATE_FIN_WAIT1 |>) s)
         | _ => Some s
         end);
    s ← spin net_poll 1000 (fun s => bool_decide (state (tcp_at fd s) = SOCK_STATE_CLOSED)) s;
    Some (0, set_tcp fd ((tcp_at fd s) <| active := false |>) s).

(** ** HTTP *)

Definition HTTP_PORT : Z := 80.
Definition HTTP_RECV_CHUNK : Z := 512.

(** A string in an array of [cap] bytes, cut where the array ends. *)
Definition append_text (cap : Z) (dst src : list Z) : list Z :=
  if cap =? 0 then dst else dst ++ take (Z.to_nat (cap - 1 - Z.of_nat (length dst))) src.

Definition crlf : list Z := [13; 10].

Definition http_request (host path : list Z) : list Z :=
  let add := append_text 384 in
  add (add (add (add (add [] (str "GET ")) path) (str " HTTP/1.0" ++ crlf ++ str "Host: ")) host)
      (crlf ++ str "User-Agent: YamOS/0.4 kernel-http" ++ crlf ++ str "Connection: close" ++ crlf ++ crlf).

(** At most [n] receives; [Some r] is a failure with code [r]. *)
Fixpoint http_loop (n : nat) (fd : Z) (out : buffer) (out_cap total : Z) (s : net) : option (option Z * buffer * Z * net) :=
  match n with
  | O => Some (None, out, total, s)
  | S n' =>
      if out_cap <=? total + 1 then Some (None, out, total, s)
      else
        '(got, chunk, s) ← tcp_recv fd (fun _ => 0) HTTP_RECV_CHUNK s;
        if got <? 0 then '(_, s) ← tcp_close fd s; Some (Some (-7), out, total, s)
        else if got =? 0 then
          if 0 <? total then Some (None, out, total, s) else http_loop n' fd out out_cap total s
        else
          let copy := if out_cap - total - 1 <? got then out_cap - total - 1 else got in
          let out := (Block.blit out total chunk 0 copy).[total + copy <- 0] in
          if got <? HTTP_RECV_CHUNK then Some (None, out, total + copy, s)
          else http_loop n' fd out out_cap (total + copy) s
  end.

(** The result, the text and its length. *)
Definition http_get (host path : list Z) (out : buffer) (out_cap : Z) (s : net) : option (Z * buffer * Z * net) :=
  let ifc := g_net_iface s in
  if bool_decide (host = []) || (out_cap =? 0) then Some (-1, out, 0, s)
  else if negb (is_up ifc) || negb (dhcp_done ifc) || (dns_server ifc =? 0) then Some (-2, out, 0, s)
  else
    '(r, s) ← dns_resolve host s;
    match r with
    | None => Some (-3, out, 0, s)
    | Some a =>
        let '(fd, s) := tcp_socket s in
        if fd <? 0 then Some (-4, out, 0, s)
        else
          '(rc, s) ← tcp_connect fd a HTTP_PORT s;
          if negb (rc =? 0) then '(_, s) ← tcp_close fd s; Some (-5, out, 0, s)
          else
            '(rc, s) ← tcp_send fd (http_request host path) s;
            if rc <? 0 then '(_, s) ← tcp_close fd s; Some (-6, out, 0, s)
            else
              '(err, out, total, s) ← http_loop 32 fd out out_cap 0 s;
              match err with
              | Some e => Some (e, out, 0, s)
              | None =>
                  '(_, s) ← tcp_close fd s;
                  Some (if total =? 0 then -8 else 0, out, total, s)
              end
    end.

End net.

End Net.
