(* ===== verification/NetProps.v ===== *)
(** * Lemmas on the network stack

    Frames built by the sending half parse back in the receiving half; which
    parts of the state each step leaves alone; the ring of a TCP socket as a
    queue of bytes. *)

From S2P Require Import Prelude Mem Block Ring NetBase Input Net.
Import Mem NetBase OpenRing Net.

Module NetProps.

(** Split [holds] of concatenations into its parts. *)
Ltac split_holds :=
  repeat match goal with
  | H : holds _ _ (_ ++ _) |- _ => apply holds_app in H as [? ?]
  | H : holds _ _ (_ :: _) |- _ => apply holds_cons in H as [? ?]
  | H : holds _ _ [] |- _ => clear H
  end.

(** Compute the offsets that are closed numbers. *)
Ltac closed_offsets :=
  rewrite ?le_length in *; cbn [length] in *;
  repeat match goal with
  | H : holds ?b ?o ?l |- _ => progress (let o' := eval vm_compute in o in change (holds b o' l) in H)
  | H : ?b ?o = ?v |- _ => match type of o with Z => progress (let o' := eval vm_compute in o in change (b o' = v) in H) end
  end.

Definition u32_range (x : Z) : Prop := 0 <= x < 2 ^ 32.

(** Hardware addresses are six bytes. *)
Definition mac_ok (m : list Z) : Prop := length m = 6%nat /\ all_bytes m.

Lemma ip_header_length t i p c s d : length (ip_header t i p c s d) = 20%nat.
Proof. unfold ip_header. by rewrite !length_app, !le_length. Qed.

Lemma ip_frame_length dm sm id proto src dst payload : mac_ok dm -> mac_ok sm ->
  Z.of_nat (length (ip_frame dm sm id proto src dst payload)) = 34 + Z.of_nat (length payload).
Proof.
  intros [Hd _] [Hs _]. unfold ip_frame. rewrite !length_app, Hd, Hs, le_length, ip_header_length. lia.
Qed.

(** The fields of a frame, where the receiving half looks for them. *)
Lemma ip_frame_fields b dm sm id proto src dst payload :
  mac_ok dm -> mac_ok sm -> holds b 0 (ip_frame dm sm id proto src dst payload) ->
  ntohs_at b 12 = ETH_TYPE_IP /\ b 14 = 0x45 /\ (20 + Z.of_nat (length payload) < 65536 -> ntohs_at b 16 = 20 + Z.of_nat (length payload)) /\
  b 23 = proto /\ (u32_range src -> ntohl_at b 26 = src) /\ (u32_range dst -> ntohl_at b 30 = dst) /\ holds b 34 payload.
Proof.
  intros [Hd _] [Hs _] H. unfold ip_frame in H. set (c := net_checksum _) in H.
  apply holds_app in H as [_ H]. rewrite Hd in H. apply holds_app in H as [_ H]. rewrite Hs in H.
  apply holds_app in H as [Ht H]. rewrite le_length in H. apply holds_app in H as [Hh Hp]. rewrite ip_header_length in Hp.
  unfold ip_header in Hh. split_holds. closed_offsets. split_and!; try done.
  - by apply ntohs_at_le.
  - intros Hl. apply ntohs_at_le; [|lia]. by rewrite wrap_small in * by (unfold IP_HLEN; lia).
  - intros Hr. by apply ntohl_at_le.
  - intros Hr. by apply ntohl_at_le.
Qed.

(** The receiving half takes a frame of the sending half apart into the
    payload that was put in. *)
Lemma ip_frame_parsed mem poll b dm sm id proto src dst payload r :
  mac_ok dm -> mac_ok sm -> 20 + Z.of_nat (length payload) < 65536 ->
  holds b 0 (ip_frame dm sm id proto src dst payload) ->
  net_receive mem poll b (34 + Z.of_nat (length payload)) r =
  ip_dispatch mem poll b 14 34 (Z.of_nat (length payload)) proto r.
Proof.
  intros Hd Hs Hlen H. destruct (ip_frame_fields _ _ _ _ _ _ _ _ Hd Hs H) as (Ht & Hv & Hl & Hp & _).
  specialize (Hl Hlen). unfold net_receive, ip_receive, ETH_HLEN. change (14 + 2) with 16. change (14 + 9) with 23.
  rewrite Ht, Hv, Hl, Hp. change (Z.land 0x45 0x0F * 4) with 20. change (Z.shiftr 0x45 4 =? 4) with true. unfold IP_HLEN. cbn [negb].
  set (n := Z.of_nat (length payload)) in *. assert (0 <= n) by (unfold n; lia).
  replace (34 + n <? 14) with false by lia. replace (34 + n - 14) with (20 + n) by lia. change (ETH_TYPE_IP =? ETH_TYPE_ARP) with false.
  change (ETH_TYPE_IP =? ETH_TYPE_IP) with true. replace (20 <=? 20 + n) with true by lia.
  replace (20 + n <? 20) with false by lia. cbn [orb]. change (20 <? 20) with false. cbn [orb]. replace (20 + n <? 20 + n) with false by lia.
  change (14 + 20) with 34. by replace (20 + n - 20) with n by lia.
Qed.


(** ** Sending *)

(** The interface is up and its addresses fit their fields. *)
Definition host_ok (s : net) : Prop :=
  let ifc := g_net_iface s in
  is_up ifc = true /\ has_send ifc = true /\ mac_ok (mac_addr ifc) /\ u32_range (ip_addr ifc).

Lemma host_ok_frame s s' : g_net_iface s' = g_net_iface s -> host_ok s -> host_ok s'.
Proof. intros E. unfold host_ok. by rewrite E. Qed.

(** The hardware address for [dst] is known without asking. *)
Definition resolves (dst : Z) (m : list Z) (s : net) : Prop :=
  mac_ok m /\ forall poll, destination poll dst s = Some (m, s).

(** What resolving an address depends on. *)
Lemma resolves_frame dst m s s' :
  g_net_iface s' = g_net_iface s -> g_arp_cache s' = g_arp_cache s -> resolves dst m s -> resolves dst m s'.
Proof.
  intros Hi Ha [Hm H]. split; [done|]. intros poll. specialize (H (fun _ => None)). revert H.
  unfold destination, next_hop, arp_lookup, arp_cache_find. rewrite Hi, Ha.
  case_bool; [by intros [= ->]|]. case_bool; [by intros [= ->]|].
  by destruct (find_index (Z.to_nat ARP_CACHE_SIZE) 0 _); [intros [= ->]|].
Qed.

(** An address in the ARP cache is resolved by it. *)
Lemma resolves_cached dst m s : mac_ok m -> dst <> 0xFFFFFFFF -> next_hop dst s <> 0xFFFFFFFF ->
  Z.land dst 0xF0000000 <> 0xE0000000 -> arp_lookup (next_hop dst s) s = Some m -> resolves dst m s.
Proof.
  intros Hm H1 H2 H3 H4. split; [done|]. intros poll. unfold destination.
  rewrite (proj2 (Z.eqb_neq _ _) H1), (proj2 (Z.eqb_neq _ _) H2), (proj2 (Z.eqb_neq _ _) H3). cbn. by rewrite H4.
Qed.

Definition sent_frame (m : list Z) (dst proto : Z) (payload : list Z) (s : net) : list Z :=
  ip_frame m (mac_addr (g_net_iface s)) (g_ip_id s) proto (ip_addr (g_net_iface s)) dst payload.

Lemma ip_send_ok mem poll dst proto payload m s :
  host_ok s -> resolves dst m s -> mem (34 + Z.of_nat (length payload)) = true ->
  ip_send mem poll dst proto payload s =
  Some (transmit (sent_frame m dst proto payload s) (s <| g_ip_id := u16 (g_ip_id s + 1) |>)).
Proof.
  intros (Hu & Hs & _) [_ Hd] Hm. unfold ip_send. rewrite Hu, Hs. unfold ETH_HLEN, IP_HLEN. cbn [negb orb].
  change (14 + 20 + Z.of_nat (length payload)) with (34 + Z.of_nat (length payload)). rewrite Hm. cbn [negb]. by rewrite Hd.
Qed.

(** Sending never asks when the address is known: at worst nothing is sent. *)
Lemma ip_send_returns mem poll dst proto payload m s : resolves dst m s ->
  exists id fs, ip_send mem poll dst proto payload s = Some (s <| g_ip_id := id |> <| sent := fs |>).
Proof.
  intros [_ Hd]. unfold ip_send. assert (Hid : s = s <| g_ip_id := g_ip_id s |> <| sent := sent s |>) by (by destruct s).
  case_bool; [by exists (g_ip_id s), (sent s); rewrite <- Hid|]. case_bool; [by exists (g_ip_id s), (sent s); rewrite <- Hid|].
  rewrite Hd. cbn. eauto.
Qed.

Lemma header_verifies m s dst proto payload : mac_ok m -> host_ok s -> 0 <= proto < 256 ->
  net_checksum (take 20 (drop 14 (sent_frame m dst proto payload s))) = 0.
Proof.
  intros [Hm _] (_ & _ & [Hs _] & _) Hp. unfold sent_frame, ip_frame.
  rewrite (app_assoc m), (app_assoc _ (le 2 _)), drop_app_length' by (by rewrite !length_app, Hm, Hs, le_length).
  rewrite take_app_length' by (by rewrite ip_header_length).
  set (l1 := [0x45; 0] ++ le 2 (htons (u16 (IP_HLEN + Z.of_nat (length payload)))) ++ le 2 (htons (g_ip_id s)) ++ le 2 (htons 0x4000) ++ [64; proto]).
  set (l2 := le 4 (htonl (ip_addr (g_net_iface s))) ++ le 4 (htonl dst)).
  assert (E : forall c, ip_header (IP_HLEN + Z.of_nat (length payload)) (g_ip_id s) proto c (ip_addr (g_net_iface s)) dst = field_in l1 c l2)
    by (intros c; unfold ip_header, field_in, l1; by rewrite <- !app_assoc).
  rewrite !E. apply net_checksum_verifies.
  - unfold l1. apply Forall_app. split; [apply List.Forall_cons; [lia|apply List.Forall_cons; [lia|apply List.Forall_nil]]|].
    do 3 (apply Forall_app; split; [apply le_bytes|]). apply List.Forall_cons; [lia|apply List.Forall_cons; [lia|apply List.Forall_nil]].
  - unfold l2. apply Forall_app; split; apply le_bytes.
  - unfold l1. by rewrite !length_app, !le_length.
  - unfold l1, l2. by rewrite !length_app, !le_length.
Qed.

End NetProps.
