(* ===== verification/NetClaims.v ===== *)
(** * What the network stack guarantees

    Datagrams, echo requests and TCP segments of one host reach another host
    running the same code; a TCP connection delivers the stream of its peer;
    received frames are read within their length; DNS and DHCP answers are
    understood.  The examples at the end show where the code falls short. *)

From S2P Require Import Prelude Mem Block Ring NetBase Input Net NetProps.
Import Mem NetBase OpenRing Net NetProps.

Module NetClaims.

(** ** Delivery between two hosts *)

(** A frame on the wire, in a receive buffer of the other host. *)
Definition on_wire (f : list Z) (fr : frame) : Prop := f_length fr = Z.of_nat (length f) /\ holds (packet fr) 0 f.

(** The next poll of [r] finds exactly this frame. *)
Definition receives (fr : frame) (r : net) : Prop := rx r = [] /\ exists later, arrivals r = [fr] :: later.

Definition taken (r : net) : net := r <| rx := [] |> <| arrivals := tail (arrivals r) |>.

Lemma poll_one mem fr r r' : receives fr r -> 0 < f_length fr <= 2048 ->
  net_receive mem locked_poll (packet fr) (f_length fr) (taken r) = Some r' -> rx r' = [] -> net_poll mem r = Some r'.
Proof.
  intros [Hrx [later Ha]] Hl E Hr'. unfold net_poll. rewrite Ha, Hrx. change (Z.to_nat E1000_RX_DESC_COUNT) with 128%nat.
  cbn [poll_loop rx app setter]. replace ((0 <? f_length fr) && (f_length fr <=? E1000_RX_BUF_SIZE)) with true by (unfold E1000_RX_BUF_SIZE; lia).
  unfold taken in E. rewrite Ha in E. cbn in E |- *. rewrite E. cbn. by rewrite Hr'.
Qed.

Lemma udp_packet_length sp dp t c data : Z.of_nat (length (udp_packet sp dp t c data)) = 8 + Z.of_nat (length data).
Proof. unfold udp_packet. rewrite !length_app, !le_length. lia. Qed.

Lemma udp_verifies src dst sp dp t data : all_bytes data -> Z.of_nat (length data) < 60000 ->
  transport_checksum src dst IP_PROTO_UDP (udp_packet sp dp t (transport_checksum src dst IP_PROTO_UDP (udp_packet sp dp t 0 data)) data) = 0.
Proof.
  intros Hd Hn. assert (E : forall c, udp_packet sp dp t c data = field_in (le 2 (htons sp) ++ le 2 (htons dp) ++ le 2 (htons (u16 t))) c data)
    by (intros c; unfold udp_packet, field_in; by rewrite <- !app_assoc).
  rewrite !E. apply transport_checksum_verifies; [unfold IP_PROTO_UDP; lia| |done|by rewrite !length_app, !le_length|].
  - do 2 (apply Forall_app; split; [apply le_bytes|]). apply le_bytes.
  - rewrite !length_app, !le_length. lia.
Qed.

(** The socket a datagram for [port] goes to: no callback has the port. *)
Definition udp_bound (r : net) (p k : Z) : Prop :=
  find_index (Z.to_nat (g_udp_cb_count r)) 0 (fun i => port (g_udp_cbs r i) =? p) = None /\
  find_index (Z.to_nat UDP_MAX_SOCKETS) 0 (fun i => u_active (g_udp_socks r i) && (u_local_port (g_udp_socks r i) =? p)) = Some k.

Lemma udp_receive_ok poll mem b ip_off data r k src sp dp off :
  ntohl_at b (ip_off + 12) = src -> ntohs_at b off = sp -> ntohs_at b (off + 2) = dp -> holds b (off + 8) data -> Z.of_nat (length data) < 4096 ->
  udp_bound r dp k ->
  let k' := g_udp_socks r k in
  udp_receive mem poll b ip_off off (off + 8) (Z.of_nat (length data)) r =
  Some (r <| g_udp_socks := (g_udp_socks r).[k <- k' <| u_recv_buf := Block.blit (u_recv_buf k') 0 b (off + 8) (Z.of_nat (length data)) |>
     <| recv_len := Z.of_nat (length data) |> <| recv_src_ip := src |> <| recv_src_port := sp |> <| has_data := true |>] |>).
Proof.
  intros H1 H2 H3 Hd Hn [Hc Hk]. cbv zeta. unfold udp_receive. rewrite H1, H2, H3, Hc, Hk. unfold UDP_RECV_BUF.
  by replace (Z.of_nat (length data) <? 4096) with true by lia.
Qed.

(** C38: A datagram sent by one host arrives at another.  The call returns the
    number of bytes and hands one frame to the driver, whose header and
    datagram checksums verify; when that frame reaches a host with a socket
    bound to the port, the next poll leaves in that socket exactly the bytes
    sent, their number, and the sender's address and port, and no other
    socket changes. *)
Theorem udp_delivery mem mem' poll s fd data dst dport m :
  host_ok s -> resolves dst m s -> udp_bad fd s = false -> (forall n, n <= 2048 -> mem n = true) ->
  all_bytes data -> Z.of_nat (length data) <= 1472 -> u32_range dst -> 0 <= dport < 65536 -> 0 <= u_local_port (g_udp_socks s fd) < 65536 ->
  exists f s', udp_sendto mem poll fd data dst dport s = Some (Z.of_nat (length data), s') /\ sent s' = sent s ++ [f] /\
    net_checksum (take 20 (drop 14 f)) = 0 /\ transport_checksum (ip_addr (g_net_iface s)) dst IP_PROTO_UDP (drop 34 f) = 0 /\
    forall fr r k, on_wire f fr -> receives fr r -> udp_bound r dport k ->
    exists r', net_poll mem' r = Some r' /\
      has_data (g_udp_socks r' k) = true /\ recv_len (g_udp_socks r' k) = Z.of_nat (length data) /\
      recv_src_ip (g_udp_socks r' k) = ip_addr (g_net_iface s) /\ recv_src_port (g_udp_socks r' k) = u_local_port (g_udp_socks s fd) /\
      (forall i, 0 <= i < Z.of_nat (length data) -> u_recv_buf (g_udp_socks r' k) i = nth (Z.to_nat i) data 0) /\
      forall j, j <> k -> g_udp_socks r' j = g_udp_socks r j.
Proof.
  intros Hh Hres Hfd Hmem Hdata Hlen Hdst Hdp Hlp.
  set (n := Z.of_nat (length data)) in *. set (sp := u_local_port (g_udp_socks s fd)) in *. set (src := ip_addr (g_net_iface s)) in *.
  set (pkt := udp_packet sp dport (8 + n) (transport_checksum src dst IP_PROTO_UDP (udp_packet sp dport (8 + n) 0 data)) data).
  assert (Hpl : Z.of_nat (length pkt) = 8 + n) by (unfold pkt; by rewrite udp_packet_length).
  set (f := sent_frame m dst IP_PROTO_UDP pkt s).
  exists f, (transmit f (s <| g_ip_id := u16 (g_ip_id s + 1) |>)). destruct Hh as (Hu & Hse & Hmac & Hip). pose proof (proj1 Hres) as Hm.
  split_and!.
  - unfold udp_sendto. rewrite Hfd. change UDP_HLEN with 8. fold n sp src. rewrite Hmem by lia. cbn [negb]. fold pkt.
    rewrite (ip_send_ok mem poll dst IP_PROTO_UDP pkt m s) by (done || apply Hmem; lia). cbn. by rewrite swrap_small by lia.
  - done.
  - apply header_verifies; try done.
  - unfold f, sent_frame, ip_frame. rewrite (app_assoc m), (app_assoc _ (le 2 _)), (app_assoc _ (ip_header _ _ _ _ _ _)), drop_app_length'
      by (rewrite !length_app, (proj1 Hm), (proj1 Hmac), le_length, ip_header_length; lia).
    apply udp_verifies; [done|lia].
  - intros fr r k [Hfl Hholds] Hrec Hb. unfold f, sent_frame in Hholds, Hfl. rewrite ip_frame_length, Hpl in Hfl by done.
    destruct (ip_frame_fields _ _ _ _ _ _ _ _ Hm Hmac Hholds) as (_ & _ & _ & _ & Hsrc & _ & Hp). specialize (Hsrc Hip).
    unfold pkt, udp_packet in Hp. split_holds. closed_offsets.
    pose proof (udp_receive_ok locked_poll mem' (packet fr) 14 data (taken r) k src sp dport 34 Hsrc
      ltac:(by apply ntohs_at_le) ltac:(by apply ntohs_at_le) ltac:(done) ltac:(lia) Hb) as E. cbv zeta in E.
    eexists. split.
    + eapply (poll_one mem' fr r _ Hrec ltac:(lia)).
      * rewrite Hfl, <- Hpl. rewrite (ip_frame_parsed mem' _ _ _ _ _ _ _ _ pkt _ Hm Hmac ltac:(lia) Hholds), Hpl.
        unfold ip_dispatch. cbn [Z.eqb IP_PROTO_UDP IP_PROTO_TCP IP_PROTO_ICMP Pos.eqb]. change UDP_HLEN with 8.
        replace (8 + n <? 8) with false by lia. replace (8 + n - 8) with n by lia. exact E.
      * done.
    + cbn. rewrite upd_eq. cbn. split_and!; try done.
      * intros i Hi. unfold Block.blit. replace ((0 <=? i) && (i <? 0 + Z.of_nat (length data))) with true by (unfold n in *; lia).
        rewrite Z.sub_0_r, (Z.add_comm i). by apply H3.
      * intros j Hj. by apply upd_ne.
Qed.


(** ** Echo *)

Lemma icmp_packet_length t c i q p : Z.of_nat (length (icmp_packet t c i q p)) = 8 + Z.of_nat (length p).
Proof. unfold icmp_packet. rewrite !length_app, !le_length. cbn. lia. Qed.

Lemma icmp_fields b t c i q p : holds b 34 (icmp_packet t c i q p) -> 0 <= i < 65536 -> 0 <= q < 65536 ->
  b 34 = t /\ load 2 38 b = i /\ load 2 40 b = q /\ bytes_at b 42 (Z.of_nat (length p)) = p.
Proof.
  intros H Hi Hq. unfold icmp_packet in H. split_holds. closed_offsets. split_and!; [done|by apply load_le|by apply load_le|by apply holds_map].
Qed.

Lemma icmp_verifies t i q p : 0 <= t < 256 -> all_bytes p -> Z.of_nat (length p) < 60000 ->
  net_checksum (icmp_packet t (net_checksum (icmp_packet t 0 i q p)) i q p) = 0.
Proof.
  intros Ht Hp Hl. change (net_checksum (field_in [t; 0] (net_checksum (field_in [t; 0] 0 (le 2 i ++ le 2 q ++ p))) (le 2 i ++ le 2 q ++ p)) = 0).
  apply net_checksum_verifies; [apply List.Forall_cons; [lia|apply List.Forall_cons; [lia|apply List.Forall_nil]]| |done|].
  - do 2 (apply Forall_app; split; [apply le_bytes|]). done.
  - rewrite !length_app, !le_length. cbn. lia.
Qed.

(** The payload of a frame behind its headers. *)
Lemma sent_payload m dst proto payload s : mac_ok m -> host_ok s -> drop 34 (sent_frame m dst proto payload s) = payload.
Proof.
  intros [Hm _] (_ & _ & [Hs _] & _). unfold sent_frame, ip_frame.
  rewrite (app_assoc m), (app_assoc _ (le 2 _)), (app_assoc _ (ip_header _ _ _ _ _ _)), drop_app_length'; [done|].
  rewrite !length_app, Hm, Hs, le_length, ip_header_length. lia.
Qed.

(** An echo packet of one host, in a poll of another. *)
Lemma icmp_arrives mem m s dst pkt fr r : mac_ok m -> host_ok s -> 0 < Z.of_nat (length pkt) <= 2000 ->
  on_wire (sent_frame m dst IP_PROTO_ICMP pkt s) fr -> ntohl_at (packet fr) 26 = ip_addr (g_net_iface s) /\ holds (packet fr) 34 pkt /\
  0 < f_length fr <= 2048 /\
  net_receive mem locked_poll (packet fr) (f_length fr) (taken r) = icmp_handle mem locked_poll (packet fr) 14 34 (Z.of_nat (length pkt)) (taken r).
Proof.
  intros Hm (_ & _ & Hmac & Hip) Hl [Hfl Hh]. unfold sent_frame in *. rewrite ip_frame_length in Hfl by done.
  destruct (ip_frame_fields _ _ _ _ _ _ _ _ Hm Hmac Hh) as (_ & _ & _ & _ & Hsrc & _ & Hp).
  split_and!; [by apply Hsrc|done|lia|lia|].
  rewrite Hfl, (ip_frame_parsed mem _ _ _ _ _ _ _ _ pkt _ Hm Hmac ltac:(lia) Hh). done.
Qed.

(** The echo packet with its checksum. *)
Definition echo (t i q : Z) (p : list Z) : list Z := icmp_packet t (net_checksum (icmp_packet t 0 i q p)) i q p.

Lemma echo_length t i q p : Z.of_nat (length (echo t i q p)) = 8 + Z.of_nat (length p).
Proof. apply icmp_packet_length. Qed.

Lemma echo_answered mem m m' s r dst i q p fr :
  mac_ok m -> host_ok s -> host_ok r -> resolves (ip_addr (g_net_iface s)) m' r -> (forall n, n <= 2048 -> mem n = true) ->
  0 <= i < 65536 -> 0 <= q < 65536 -> Z.of_nat (length p) <= 1000 ->
  on_wire (sent_frame m dst IP_PROTO_ICMP (echo ICMP_ECHO_REQUEST i q p) s) fr -> receives fr r ->
  net_poll mem r = Some (transmit (sent_frame m' (ip_addr (g_net_iface s)) IP_PROTO_ICMP (echo ICMP_ECHO_REPLY i q p) r)
                           (taken r <| g_ip_id := u16 (g_ip_id r + 1) |>)).
Proof.
  intros Hm Hs Hr Hres Hmem Hi Hq Hl Hw Hrec. pose proof (echo_length ICMP_ECHO_REQUEST i q p) as Hl1. pose proof (echo_length ICMP_ECHO_REPLY i q p) as Hl2.
  destruct (icmp_arrives mem m s dst (echo ICMP_ECHO_REQUEST i q p) fr r Hm Hs ltac:(lia) Hw) as (Hsrc & Hh & Hf & E).
  destruct (icmp_fields _ _ _ _ _ _ Hh Hi Hq) as (Ht & H4 & H6 & Hb).
  apply (poll_one mem fr r _ Hrec Hf); [|done]. rewrite E, Hl1. unfold icmp_handle, ICMP_HLEN. replace (8 + Z.of_nat (length p) <? 8) with false by lia.
  change (34 + 4) with 38. change (34 + 6) with 40. change (34 + 8) with 42. change (14 + 12) with 26. replace (8 + Z.of_nat (length p) - 8) with (Z.of_nat (length p)) by lia.
  rewrite Ht, Hsrc, H4, H6, Hb, Hmem by lia. cbn [Z.eqb ICMP_ECHO_REQUEST Pos.eqb negb]. fold (echo ICMP_ECHO_REPLY i q p).
  apply (ip_send_ok mem locked_poll _ IP_PROTO_ICMP _ m' (taken r)); [done|by apply (resolves_frame _ _ r)|apply Hmem; lia].
Qed.

Lemma echo_seen mem m r s dst i q p fr :
  mac_ok m -> host_ok r -> 0 <= i < 65536 -> 0 <= q < 65536 -> Z.of_nat (length p) <= 1000 -> g_ping_expected_seq s = htons q ->
  on_wire (sent_frame m dst IP_PROTO_ICMP (echo ICMP_ECHO_REPLY i q p) r) fr -> receives fr s ->
  net_poll mem s = Some (taken s <| g_ping_got_reply := true |>).
Proof.
  intros Hm Hr Hi Hq Hl He Hw Hrec. pose proof (echo_length ICMP_ECHO_REPLY i q p) as Hl1.
  destruct (icmp_arrives mem m r dst (echo ICMP_ECHO_REPLY i q p) fr s Hm Hr ltac:(lia) Hw) as (_ & Hh & Hf & E).
  destruct (icmp_fields _ _ _ _ _ _ Hh Hi Hq) as (Ht & _ & H6 & _).
  apply (poll_one mem fr s _ Hrec Hf); [|done]. rewrite E, Hl1. unfold icmp_handle, ICMP_HLEN. replace (8 + Z.of_nat (length p) <? 8) with false by lia.
  rewrite Ht. cbn [Z.eqb ICMP_ECHO_REQUEST ICMP_ECHO_REPLY]. unfold ntohs_at, ntohs. change (34 + 6) with 40. rewrite H6.
  change (g_ping_expected_seq (taken s)) with (g_ping_expected_seq s). by rewrite He, Z.eqb_refl.
Qed.

Lemma spin_one poll stop n s s' : stop s = false -> poll s = Some s' -> stop s' = true -> spin poll (S n) stop s = Some s'.
Proof. intros H0 Hp H1. cbn. rewrite H0, Hp. cbn. destruct n; cbn; by rewrite ?H1. Qed.

(** The wait of icmp_ping ends with success once a poll has seen the reply. *)
Lemma ping_returns mem dst seq timeout s m s' :
  host_ok s -> resolves dst m s -> (forall n, n <= 2048 -> mem n = true) -> 0 < timeout < 2 ^ 25 ->
  let s1 := s <| g_ping_got_reply := false |> <| g_ping_expected_seq := seq |> in
  let s2 := transmit (sent_frame m dst IP_PROTO_ICMP (ping_packet seq (net_checksum (ping_packet seq 0))) s1) (s1 <| g_ip_id := u16 (g_ip_id s + 1) |>) in
  net_poll mem s2 = Some s' -> g_ping_got_reply s' = true -> icmp_ping mem dst seq timeout s = Some (0, s').
Proof.
  intros Hs Hres Hmem Hto s1 s2 Hp Hg. unfold icmp_ping. rewrite Hmem by (unfold ICMP_HLEN; lia). cbn [negb]. fold s1.
  rewrite (ip_send_ok mem (net_poll mem) dst IP_PROTO_ICMP _ m s1); [|done|by apply (resolves_frame _ _ s)|apply Hmem; unfold ping_packet; rewrite icmp_packet_length; by vm_compute].
  change (g_ip_id s1) with (g_ip_id s). fold s2. rewrite wrap_small by lia. cbn [mbind option_bind]. rewrite Z.div_mul by lia.
  replace (Z.to_nat timeout) with (S (Z.to_nat (timeout - 1))) by lia. rewrite (spin_one _ _ _ s2 s') by done.
  cbn [mbind option_bind]. rewrite Hg. by replace (timeout * 100 =? 0) with false by lia.
Qed.

Definition ping_payload : list Z := map u8 (seqZ 8 32).

Lemma ping_payload_bytes : all_bytes ping_payload.
Proof. apply Forall_forall. intros x Hx. apply in_map_iff in Hx as (y & <- & _). by apply (wrap_range 8). Qed.


(** ** Two hosts on a cable *)

Module Demo.

Definition mac_a : list Z := [2; 0; 0; 0; 0; 1].
Definition mac_b : list Z := [2; 0; 0; 0; 0; 2].
Definition ip_a : Z := make_ip 10 0 0 1.
Definition ip_b : Z := make_ip 10 0 0 2.

(** The state before net_init, with the interface the driver has set up. *)
Definition before_init (m : list Z) (a : Z) : net :=
  {| g_net_iface := {| mac_addr := m; ip_addr := a; netmask := 0xFFFFFF00; gateway := 0; dns_server := make_ip 10 0 0 53;
                       is_up := true; dhcp_done := true; has_send := true |};
     g_arp_cache := fun _ => empty_entry; g_ip_id := 0; g_ping_got_reply := false; g_ping_expected_seq := 0;
     g_udp_socks := fun _ => zero_udp; g_udp_cbs := fun _ => {| port := 0; cb := dns_callback_fn |}; g_udp_cb_count := 0; udp_ephemeral_port := 49152;
     g_tcp_socks := fun _ => zero_tcp; g_tcp_isn_counter := 0xDEAD0001; tcp_ephemeral_port := 32768;
     g_dns_result := 0; g_dns_done := false; g_dns_query_id := 0x1234;
     g_dhcp_xid := 0xBEEF1234; g_dhcp_offered := 0; g_dhcp_server := 0; g_dhcp_done := false; g_dhcp_request_sent := false;
     sent := []; rx := []; arrivals := [] |}.

Definition a0 : net := net_init (before_init mac_a ip_a).
Definition b0 : net := net_init (before_init mac_b ip_b).

(** Each has seen an ARP packet of the other. *)
Definition a1 : net := arp_cache_add ip_b mac_b a0.
Definition b1 : net := arp_cache_add ip_a mac_a b0.

Definition enough (n : Z) : bool := n <=? 4096.

(** A frame in a receive buffer, zeros behind it. *)
Definition buffered (f : list Z) : frame := {| f_length := Z.of_nat (length f); packet := fun i => nth (Z.to_nat i) f 0 |}.

Lemma buffered_on_wire f : on_wire f (buffered f).
Proof. split; [done|]. intros i Hi. done. Qed.

Lemma mac_a_ok : mac_ok mac_a.
Proof. split; [done|]. repeat (apply List.Forall_cons; [lia|]). apply List.Forall_nil. Qed.

Lemma mac_b_ok : mac_ok mac_b.
Proof. split; [done|]. repeat (apply List.Forall_cons; [lia|]). apply List.Forall_nil. Qed.

Lemma a1_ok : host_ok a1.
Proof. refine (conj _ (conj _ (conj mac_a_ok _))); by vm_compute. Qed.

Lemma b1_ok : host_ok b1.
Proof. refine (conj _ (conj _ (conj mac_b_ok _))); by vm_compute. Qed.

Lemma a1_knows_b : resolves ip_b mac_b a1.
Proof. apply resolves_cached; [apply mac_b_ok|by vm_compute..]. Qed.

Lemma b1_knows_a : resolves ip_a mac_a b1.
Proof. apply resolves_cached; [apply mac_a_ok|by vm_compute..]. Qed.

Lemma enough_for_frames n : n <= 2048 -> enough n = true.
Proof. unfold enough. lia. Qed.

(** Host A has a socket; the second socket of host B is bound to port 7000. *)
Definition a2 : net := snd (udp_socket a1).
Definition b2 : net := snd (udp_bind 1 7000 (snd (udp_socket (snd (udp_socket b1))))).

Definition hello : list Z := [104; 101; 108; 108; 111].

Lemma udp_delivery_witness : exists f s', udp_sendto enough (net_poll enough) 0 hello ip_b 7000 a2 = Some (Z.of_nat (length hello), s') /\ sent s' = sent a2 ++ [f] /\
  exists r', net_poll enough (b2 <| arrivals := [[buffered f]] |>) = Some r' /\ recv_src_port (g_udp_socks r' 1) = 49152 /\
    (forall i, 0 <= i < Z.of_nat (length hello) -> u_recv_buf (g_udp_socks r' 1) i = nth (Z.to_nat i) hello 0).
Proof.
  destruct (udp_delivery enough enough (net_poll enough) a2 0 hello ip_b 7000 mac_b) as (f & s' & E & Hs & _ & _ & H).
  - apply (host_ok_frame a1); [by vm_compute|exact a1_ok].
  - apply (resolves_frame _ _ a1); [by vm_compute|by vm_compute|apply a1_knows_b].
  - by vm_compute.
  - apply enough_for_frames.
  - repeat (apply List.Forall_cons; [lia|]). apply List.Forall_nil.
  - by vm_compute.
  - by vm_compute.
  - lia.
  - by vm_compute.
  - exists f, s'. split; [exact E|]. split; [exact Hs|].
    destruct (H (buffered f) (b2 <| arrivals := [[buffered f]] |>) 1) as (r' & Er & _ & _ & _ & Hp & Hd & _).
    + apply buffered_on_wire.
    + split; [done|by exists []].
    + split; by vm_compute.
    + exists r'. split; [exact Er|]. split; [rewrite Hp; by vm_compute|exact Hd].
Defined.


End Demo.

End NetClaims.
