(* ===== verification/TcpClaims.v ===== *)
(** * TCP as a byte stream

    A connection of the receiving host against segments that its peer, running
    the same code, has sent: in whatever order, however often and with
    whatever losses they arrive, the reader gets the stream of the peer. *)

From S2P Require Import Prelude Mem Block Ring NetBase Input Net NetProps NetClaims.
Import Mem NetBase OpenRing Net NetProps NetClaims.

Module TcpClaims.

(** ** Segments on the wire *)

Lemma tcp_header_length sp dp q a f c : length (tcp_header sp dp q a f c) = 20%nat.
Proof. unfold tcp_header. by rewrite !length_app, !le_length. Qed.

Lemma tcp_segment_length k f data : Z.of_nat (length (tcp_segment k f data)) = 20 + Z.of_nat (length data).
Proof. unfold tcp_segment. rewrite length_app, tcp_header_length. lia. Qed.

(** The fields of a socket fit their widths. *)
Definition sock_fits (k : tcp_sock_t) : Prop :=
  0 <= local_port k < 65536 /\ 0 <= remote_port k < 65536 /\ u32_range (snd_nxt k) /\ u32_range (rcv_nxt k) /\
  u32_range (local_ip k) /\ u32_range (remote_ip k).

Definition ack_of (k : tcp_sock_t) (flags : Z) : Z := if has flags TCP_ACK then rcv_nxt k else 0.

(** A segment sent by socket [k] of one host is handed to [tcp_input] of the
    other with the fields of the socket and the bytes that were sent. *)
Lemma tcp_arrives mem poll m s dst k flags data fr r :
  mac_ok m -> host_ok s -> sock_fits k -> Z.of_nat (length data) <= 1994 ->
  on_wire (sent_frame m dst IP_PROTO_TCP (tcp_segment k flags data) s) fr ->
  0 < f_length fr <= 2048 /\
  net_receive mem poll (packet fr) (f_length fr) r =
  tcp_input mem poll (ip_addr (g_net_iface s)) (local_port k) (remote_port k) flags (snd_nxt k) (ack_of k flags) TCP_WINDOW_SIZE data r.
Proof.
  intros Hm (_ & _ & Hmac & Hip) (Hlp & Hrp & Hsn & Hrn & _ & _) Hl [Hfl Hh]. unfold sent_frame in *.
  pose proof (tcp_segment_length k flags data) as Hsl. rewrite ip_frame_length, Hsl in Hfl by done.
  destruct (ip_frame_fields _ _ _ _ _ _ _ _ Hm Hmac Hh) as (_ & _ & _ & _ & Hsrc & _ & Hp). specialize (Hsrc Hip).
  split; [lia|]. rewrite Hfl, <- Hsl. rewrite (ip_frame_parsed mem _ _ _ _ _ _ _ _ (tcp_segment k flags data) _ Hm Hmac ltac:(lia) Hh), Hsl.
  unfold tcp_segment in Hp. apply holds_app in Hp as [Hhd Hdata]. rewrite tcp_header_length in Hdata. unfold tcp_header in Hhd. split_holds. closed_offsets.
  unfold ip_dispatch. cbn [Z.eqb IP_PROTO_TCP IP_PROTO_ICMP Pos.eqb]. unfold TCP_HLEN. replace (20 + Z.of_nat (length data) <? 20) with false by lia.
  change (34 + 12) with 46. rewrite H3. change (Z.shiftr (Z.shiftl (TCP_HLEN / 4) 4) 4 * 4) with 20. change (20 <? 20) with false. cbn [orb].
  replace (20 + Z.of_nat (length data) <? 20) with false by lia. replace (20 + Z.of_nat (length data) - 20) with (Z.of_nat (length data)) by lia.
  unfold tcp_receive, bytes_at. change (34 + 20) with 54. rewrite holds_map by done.
  change (14 + 12) with 26. change (34 + 13) with 47. change (34 + 2) with 36. change (34 + 4) with 38. change (34 + 8) with 42. change (34 + 14) with 48.
  assert (ntohl_at (packet fr) 42 = ack_of k flags) as ->.
  { unfold ack_of. destruct (has flags TCP_ACK); [by apply ntohl_at_le|]. unfold ntohl_at. by rewrite (load_le 4 0). }
  rewrite Hsrc, H7. rewrite (ntohs_at_le _ 34 (local_port k)), (ntohs_at_le _ 36 (remote_port k)), (ntohl_at_le _ 38 (snd_nxt k)), (ntohs_at_le _ 48 TCP_WINDOW_SIZE) by done.
  reflexivity.
Qed.


(** ** What a segment changes *)

(** Nothing but socket [fd] of the TCP table, the packet counter and the
    frames handed to the driver. *)
Definition only (fd : Z) (s s' : net) : Prop :=
  g_net_iface s' = g_net_iface s /\ g_arp_cache s' = g_arp_cache s /\ rx s' = rx s /\ arrivals s' = arrivals s /\
  forall j, j <> fd -> tcp_at j s' = tcp_at j s.

Lemma only_trans fd s1 s2 s3 : only fd s1 s2 -> only fd s2 s3 -> only fd s1 s3.
Proof.
  intros (H1 & H2 & H3 & H4 & H5) (G1 & G2 & G3 & G4 & G5). split_and!; try congruence.
  intros j Hj. by rewrite G5, H5.
Qed.

Lemma only_set fd k s : only fd s (set_tcp fd k s).
Proof. split_and!; try done. intros j Hj. unfold tcp_at, set_tcp. cbn. by apply upd_ne. Qed.

Lemma tcp_at_set fd k s : tcp_at fd (set_tcp fd k s) = k.
Proof. unfold tcp_at, set_tcp. cbn. apply upd_eq. Qed.

(** A bare acknowledgement changes nothing of its socket. *)
Lemma send_ack_ok mem poll fd m s : resolves (remote_ip (tcp_at fd s)) m s ->
  exists s', tcp_send_segment mem poll fd TCP_ACK [] s = Some s' /\ only fd s s' /\ tcp_at fd s' = tcp_at fd s.
Proof.
  intros Hr. unfold tcp_send_segment. case_bool; [exists s; split_and!; done|].
  destruct (ip_send_returns mem poll _ IP_PROTO_TCP (tcp_segment (tcp_at fd s) TCP_ACK []) m s Hr) as (id & fs & ->).
  cbn [mbind option_bind]. eexists. split; [reflexivity|]. split.
  - apply (only_trans _ _ (s <| g_ip_id := id |> <| sent := fs |>)); [done|apply only_set].
  - rewrite tcp_at_set. change (tcp_at fd (s <| g_ip_id := id |> <| sent := fs |>)) with (tcp_at fd s). by destruct (tcp_at fd s).
Qed.

(** A connection that has been established. *)
Definition conn (fd rip rport lport : Z) (s : net) : Prop :=
  tcp_find_sock rip rport lport s = Some fd /\ state (tcp_at fd s) = SOCK_STATE_ESTABLISHED /\ listening (tcp_at fd s) = false /\
  nonblocking (tcp_at fd s) = true.

(** The fields a segment is matched against. *)
Definition key (k : tcp_sock_t) := (active k, local_port k, remote_ip k, remote_port k, listening k).

Lemma find_sock_key fd rip rport lport s s' : only fd s s' -> key (tcp_at fd s') = key (tcp_at fd s) ->
  tcp_find_sock rip rport lport s' = tcp_find_sock rip rport lport s.
Proof.
  intros (_ & _ & _ & _ & Ho) Hk. apply find_index_ext. intros i _. destruct (decide (i = fd)) as [->|Hne]; [|by rewrite Ho].
  unfold key in Hk. injection Hk as E1 E2 E3 E4 E5. cbv zeta. by rewrite E1, E2, E3, E4, E5.
Qed.

Lemma conn_remote fd rip rport lport s : conn fd rip rport lport s -> remote_ip (tcp_at fd s) = rip.
Proof. intros (Hf & _ & Hl & _). apply find_index_Some in Hf as (_ & Hf & _). cbv beta zeta in Hf. rewrite Hl in Hf. lia. Qed.

Lemma tcp_ack_established a k : state k = SOCK_STATE_ESTABLISHED ->
  tcp_ack a k = k <| snd_una := if snd_una k <? a then a else snd_una k |>.
Proof. destruct k. cbn. intros ->. unfold tcp_ack. cbn. by case_bool. Qed.

(** A data segment on an established connection: the next bytes of the stream
    are taken, anything else leaves the received stream as it is; either way
    the connection stays up. *)
Lemma segment_ok mem poll fd rip rport lport m s seq ack win data :
  conn fd rip rport lport s -> resolves rip m s ->
  exists s', tcp_input mem poll rip rport lport (Z.lor TCP_PSH TCP_ACK) seq ack win data s = Some s' /\
    only fd s s' /\ conn fd rip rport lport s' /\
    recv (tcp_at fd s') = (if (0 <? Z.of_nat (length data)) && (seq =? rcv_nxt (tcp_at fd s)) then receive_bytes data (recv (tcp_at fd s)) else recv (tcp_at fd s)) /\
    rcv_nxt (tcp_at fd s') = (if (0 <? Z.of_nat (length data)) && (seq =? rcv_nxt (tcp_at fd s))
                              then u32 (rcv_nxt (tcp_at fd s) + u32 (Z.of_nat (length data))) else rcv_nxt (tcp_at fd s)).
Proof.
  intros Hc Hr. pose proof (conn_remote _ _ _ _ _ Hc) as Hrip. destruct Hc as (Hf & Hst & Hl & Hnb).
  unfold tcp_input. rewrite Hf. change (has (Z.lor TCP_PSH TCP_ACK) TCP_SYN) with false. cbn [andb].
  unfold tcp_established. change (has (Z.lor TCP_PSH TCP_ACK) TCP_ACK) with true. change (has (Z.lor TCP_PSH TCP_ACK) TCP_FIN) with false.
  change (has (Z.lor TCP_PSH TCP_ACK) TCP_RST) with false. cbv iota. set (s1 := set_tcp fd (tcp_ack ack (tcp_at fd s)) s).
  assert (H1 : tcp_at fd s1 = (tcp_at fd s) <| snd_una := if snd_una (tcp_at fd s) <? ack then ack else snd_una (tcp_at fd s) |>)
    by (unfold s1; by rewrite tcp_at_set, tcp_ack_established).
  assert (Ho1 : only fd s s1) by apply only_set.
  assert (Hst1 : state (tcp_at fd s1) = SOCK_STATE_ESTABLISHED) by (by rewrite H1). rewrite bool_decide_true, andb_true_r by done.
  destruct (0 <? Z.of_nat (length data)) eqn:Hlen.
  - set (s2 := set_tcp fd (tcp_data seq data (tcp_at fd s1)) s1). assert (Ho2 : only fd s s2) by (by apply (only_trans _ _ s1); [|apply only_set]).
    assert (H2 : tcp_at fd s2 = tcp_data seq data (tcp_at fd s1)) by apply tcp_at_set.
    assert (Hk2 : key (tcp_at fd s2) = key (tcp_at fd s) /\ state (tcp_at fd s2) = state (tcp_at fd s) /\ nonblocking (tcp_at fd s2) = nonblocking (tcp_at fd s))
      by (rewrite H2, H1; unfold tcp_data; by destruct (seq =? _)).
    destruct Hk2 as (Hk2 & Hs2 & Hn2). destruct (send_ack_ok mem poll fd m s2) as (s3 & E & Ho3 & H3).
    { assert (remote_ip (tcp_at fd s2) = rip) as -> by (unfold key in Hk2; congruence). by apply (resolves_frame _ _ s); [apply Ho2..|]. }
    rewrite E. cbn [mbind option_bind]. exists s3. pose proof (only_trans _ _ _ _ Ho2 Ho3) as Ho. split_and!; [done|done| | |].
    + rewrite <- H3 in Hk2, Hs2, Hn2. split_and!; [by rewrite (find_sock_key _ _ _ _ _ _ Ho Hk2)|congruence|unfold key in Hk2; congruence|congruence].
    + rewrite H3, H2, H1. unfold tcp_data. cbn. by destruct (seq =? _).
    + rewrite H3, H2, H1. unfold tcp_data. cbn. by destruct (seq =? _).
  - cbn [mbind option_bind andb]. exists s1. split_and!; [done|done| |by rewrite H1|by rewrite H1].
    split_and!; [rewrite (find_sock_key _ _ _ _ _ _ Ho1); [done|]| | |]; by rewrite H1.
Qed.


(** ** The receive buffer as a queue *)

#[local] Notation N := TCP_RECV_BUF.

Definition queued (s : net) (fd : Z) : list Z := contents N (recv (tcp_at fd s)).

Lemma receive_bytes_ok data r : ring_ok N r -> Z.of_nat (length (contents N r)) + Z.of_nat (length data) < N ->
  ring_ok N (receive_bytes data r) /\ contents N (receive_bytes data r) = contents N r ++ data.
Proof.
  revert r. induction data as [|x data IH]; intros r Hr Hl; cbn [receive_bytes]; [by rewrite app_nil_r|].
  cbn [length] in Hl. pose proof (fifo_put_accepts (H := open_fifo N) x r Hr) as Ha. pose proof (fifo_put_contents (H := open_fifo N) x r Hr) as Hc.
  pose proof (fifo_put_ok (H := open_fifo N) x r Hr) as Ho. cbn [fifo_ok fifo_contents fifo_cap fifo_put open_fifo] in *.
  destruct (push N x r) as [ok r']. cbn [fst snd] in *. replace ok with true in * by lia.
  destruct (IH r' Ho) as [Hok Hcs]; [rewrite Hc, length_app; cbn; lia|]. split; [done|]. by rewrite Hcs, Hc, <- app_assoc.
Qed.

Lemma ring_avail_eq r : ring_ok N r -> ring_avail r = Z.of_nat (length (contents N r)).
Proof.
  intros (HN & Hw & Hr). unfold contents. rewrite ring_queue_length by done. unfold ring_avail, ring_used. case_bool.
  - by rewrite Z.mod_small by lia.
  - apply (Z.mod_unique _ _ (-1)); lia.
Qed.

Lemma stream_window_split (buf : Z -> Z) st n k : 0 <= k <= n ->
  window N buf st n = window N buf st k ++ window N buf ((st + k) mod N) (n - k).
Proof.
  intros Hk. rewrite window_mod. unfold window. replace n with (k + (n - k)) at 1 by lia. rewrite seqZ_app, map_app by lia. f_equal.
  rewrite Z.add_0_l. rewrite <- (Z.add_0_r k) at 1. rewrite <- (fmap_add_seqZ k 0), map_map.
  apply map_ext. intros i. do 2 f_equal. lia.
Qed.

(** Reading copies the first bytes of the queue and removes them. *)
Lemma take_bytes_ok fd buf max s : ring_ok N (recv (tcp_at fd s)) -> 0 <= max ->
  exists buf' s' n, take_bytes fd buf max s = (n, buf', s') /\ n = Z.min max (Z.of_nat (length (queued s fd))) /\
    bytes_at buf' 0 n ++ queued s' fd = queued s fd /\ only fd s s' /\ ring_ok N (recv (tcp_at fd s')) /\
    tcp_at fd s' = (tcp_at fd s) <| recv := recv (tcp_at fd s') |>.
Proof.
  intros Hr Hm. pose proof (ring_avail_eq _ Hr) as Ha. unfold queued, take_bytes. set (k := tcp_at fd s) in *. set (r := recv k) in *.
  rewrite Ha. set (n := Z.of_nat (length (contents N r))). assert (Hn : 0 <= n < N).
  { unfold n. destruct Hr as (H1 & H2 & H3). unfold contents. rewrite ring_queue_length by done. by apply ring_used_range. }
  replace (if n <? max then n else max) with (Z.min max n) by (destruct (Z.ltb_spec n max); lia). set (c := Z.min max n). assert (Hc : 0 <= c <= n) by (unfold c; lia).
  destruct (Z.eqb_spec c 0) as [E|E].
  { exists buf, s, 0. split_and!; try done. unfold k. by destruct (tcp_at fd s). }
  eexists _, _, c. split; [rewrite swrap_small by (unfold N in *; lia); reflexivity|]. rewrite tcp_at_set. cbn [recv setter].
  split_and!; [done| |apply only_set|split_and!; cbn; try apply Hr; apply Z.mod_pos_bound; lia|done].
  assert (Hq : ring_used N (wr r) (rd r) = n) by (destruct Hr as (H1 & H2 & H3); unfold n, contents; by rewrite ring_queue_length).
  assert (Hq' : ring_used N (wr r) ((rd r + c) mod N) = n - c).
  { unfold ring_used in *. rewrite Zminus_mod_idemp_r. replace (wr r - (rd r + c)) with ((wr r - rd r) - c) by lia.
    rewrite <- Zminus_mod_idemp_l, Hq. apply Z.mod_small. lia. }
  unfold contents, ring_queue. cbn [wr rd slots setter]. rewrite Hq, Hq', (stream_window_split _ _ n c) by lia. f_equal.
  unfold bytes_at, window. apply map_ext_in. intros i Hi. apply list_elem_of_In, elem_of_seqZ in Hi. destruct Hr as (_ & _ & Hrd).
  unfold Block.blit. destruct (Z.leb_spec c (N - rd r)).
  - replace ((0 <=? 0 + i) && (0 + i <? 0 + c)) with true by lia. rewrite Z.mod_small by lia. f_equal. lia.
  - destruct (decide (i < N - rd r)).
    + replace ((N - rd r <=? 0 + i) && (0 + i <? N - rd r + (c - (N - rd r)))) with false by lia.
      replace ((0 <=? 0 + i) && (0 + i <? 0 + (N - rd r))) with true by lia. rewrite Z.mod_small by lia. f_equal. lia.
    + replace ((N - rd r <=? 0 + i) && (0 + i <? N - rd r + (c - (N - rd r)))) with true by lia.
      f_equal. apply (Z.mod_unique _ _ 1); lia.
Qed.


(** ** The stream of a connection *)

Inductive tcp_op := Segment (fr : frame) (o n : Z) | Read (max : Z).

Section stream.
(** The peer at [rip]:[rport] sends the bytes [D], numbered from [isn + 1]. *)
Context (mem : Z -> bool) (D : list Z) (isn fd rip rport lport : Z).

Definition slice (o n : Z) : list Z := take (Z.to_nat n) (drop (Z.to_nat o) D).

(** The frame is a segment that a socket of the peer has sent with bytes
    [o .. o + n) of the stream. *)
Definition carried (fr : frame) (o n : Z) : Prop :=
  exists p m dst k, host_ok p /\ mac_ok m /\ sock_fits k /\ ip_addr (g_net_iface p) = rip /\ local_port k = rport /\ remote_port k = lport /\
    snd_nxt k = u32 (isn + 1 + o) /\ on_wire (sent_frame m dst IP_PROTO_TCP (tcp_segment k (Z.lor TCP_PSH TCP_ACK) (slice o n)) p) fr.

(** What the calls do: the next poll finds the frame; a read returns its
    result and the bytes it stored. *)
Fixpoint run (ops : list tcp_op) (s : net) : option (list (Z * list Z) * net) :=
  match ops with
  | [] => Some ([], s)
  | Segment fr _ _ :: ops' => s ← net_poll mem (s <| arrivals := [[fr]] |>); run ops' s
  | Read max :: ops' =>
      '(rc, buf, s) ← tcp_recv mem fd (fun _ => 0) max s;
      '(outs, s) ← run ops' s; Some ((rc, bytes_at buf 0 rc) :: outs, s)
  end.

(** What they should do, [k] bytes of the stream having been received and [c]
    of them read. *)
Fixpoint stream (ops : list tcp_op) (k c : Z) : list (Z * list Z) * (Z * Z) :=
  match ops with
  | [] => ([], (k, c))
  | Segment _ o n :: ops' => stream ops' (if o =? k then k + n else k) c
  | Read max :: ops' =>
      let n := Z.min max (k - c) in
      let '(outs, e) := stream ops' k (c + n) in
      ((if k =? c then (- EAGAIN, []) else (n, slice c n)) :: outs, e)
  end.

(** Segments carry bytes of the stream, not half the number space away from
    what is expected, and the peer does not overrun the receive buffer. *)
Fixpoint polite (ops : list tcp_op) (k c : Z) : Prop :=
  match ops with
  | [] => True
  | Segment fr o n :: ops' =>
      carried fr o n /\ 0 <= o /\ 0 <= n <= 1460 /\ o + n <= Z.of_nat (length D) /\ - 2 ^ 31 < o - k < 2 ^ 31 /\
      (o = k -> k + n - c < TCP_RECV_BUF) /\ polite ops' (if o =? k then k + n else k) c
  | Read max :: ops' => 0 <= max /\ polite ops' k (c + Z.min max (k - c))
  end.

Definition inv (k c : Z) (m : list Z) (s : net) : Prop :=
  conn fd rip rport lport s /\ resolves rip m s /\ rx s = [] /\ ring_ok TCP_RECV_BUF (recv (tcp_at fd s)) /\
  rcv_nxt (tcp_at fd s) = u32 (isn + 1 + k) /\ queued s fd = slice c (k - c) /\ 0 <= c <= k /\ k <= Z.of_nat (length D).

Lemma slice_length o n : 0 <= o -> 0 <= n -> o + n <= Z.of_nat (length D) -> Z.of_nat (length (slice o n)) = n.
Proof. intros. unfold slice. rewrite length_take, length_drop. lia. Qed.

Lemma slice_app o n n' : 0 <= o -> 0 <= n -> 0 <= n' -> slice o (n + n') = slice o n ++ slice (o + n) n'.
Proof.
  intros. unfold slice. rewrite !Z2Nat.inj_add by lia. by rewrite <- drop_drop, take_take_drop.
Qed.

(** Sequence numbers tell offsets apart that are near each other. *)
Lemma seq_eqb o k : - 2 ^ 31 < o - k < 2 ^ 31 -> (u32 (isn + 1 + o) =? u32 (isn + 1 + k)) = (o =? k).
Proof.
  intros H. destruct (Z.eqb_spec o k) as [->|Hne]; [apply Z.eqb_refl|]. apply Z.eqb_neq. intros E.
  assert ((o - k) mod 2 ^ 32 = 0) as Hz.
  { replace (o - k) with ((isn + 1 + o) - (isn + 1 + k)) by lia. rewrite Zminus_mod. unfold wrap in E. rewrite E, Z.sub_diag. done. }
  apply Z.mod_divide in Hz as [q Hq]; lia.
Qed.

Lemma segment_step k c m s fr o n : inv k c m s -> carried fr o n -> 0 <= o -> 0 <= n <= 1460 -> o + n <= Z.of_nat (length D) ->
  - 2 ^ 31 < o - k < 2 ^ 31 -> (o = k -> k + n - c < TCP_RECV_BUF) ->
  exists s', net_poll mem (s <| arrivals := [[fr]] |>) = Some s' /\ inv (if o =? k then k + n else k) c m s'.
Proof.
  intros (Hc & Hr & Hrx & Hok & Hn & Hq & Hck & Hk) (p & m' & dst & kk & Hp & Hm' & Hf & Erip & Erp & Elp & Hs & Hw) Ho Hn0 Hb Hd Hroom.
  pose proof (slice_length o n Ho ltac:(lia) Hb) as Hsl.
  set (s0 := taken (s <| arrivals := [[fr]] |>)).
  assert (Hr0 : resolves rip m s0) by (by apply (resolves_frame _ _ s)).
  destruct (tcp_arrives mem locked_poll m' p dst kk (Z.lor TCP_PSH TCP_ACK) (slice o n) fr s0 Hm' Hp Hf ltac:(lia) Hw) as [Hfl E]. rewrite Erip, Erp, Elp in E.
  destruct (segment_ok mem locked_poll fd rip rport lport m s0 (snd_nxt kk) (ack_of kk (Z.lor TCP_PSH TCP_ACK)) TCP_WINDOW_SIZE (slice o n) Hc Hr0)
    as (s' & E' & Ho' & Hc' & Hrecv & Hnxt).
  rewrite E' in E. exists s'. change (tcp_at fd s0) with (tcp_at fd s) in *.
  rewrite Hs, Hn, Hsl, (seq_eqb o k Hd) in Hrecv, Hnxt. rewrite <- Hn in Hnxt. split.
  - apply (poll_one mem fr (s <| arrivals := [[fr]] |>)); [split; [done|by exists []]|done|done|]. destruct Ho' as (_ & _ & -> & _). done.
  - assert (Hres : resolves rip m s') by (by apply (resolves_frame _ _ s0); [apply Ho'..|]).
    assert (Hrx' : rx s' = []) by (by destruct Ho' as (_ & _ & -> & _)).
    destruct (Z.eqb_spec o k) as [->|Hne]; cycle 1.
    { rewrite andb_false_r in *. refine (conj Hc' (conj Hres (conj Hrx' (conj _ (conj _ (conj _ (conj _ _))))))); [by rewrite Hrecv|by rewrite Hnxt|unfold queued; by rewrite Hrecv|exact Hck|exact Hk]. }
    destruct (Z.ltb_spec 0 n) as [Hpos|Hz]; cycle 1.
    { cbn [andb] in *. replace (k + n) with k by lia. refine (conj Hc' (conj Hres (conj Hrx' (conj _ (conj _ (conj _ (conj _ _))))))); [by rewrite Hrecv|by rewrite Hnxt|unfold queued; by rewrite Hrecv|exact Hck|exact Hk]. }
    cbn [andb] in *. assert (Hlen : Z.of_nat (length (queued s fd)) = k - c) by (rewrite Hq; apply slice_length; lia).
    destruct (receive_bytes_ok (slice k n) _ Hok) as [Hok' Hcs]; [fold (queued s fd); rewrite Hlen, Hsl; specialize (Hroom eq_refl); lia|].
    refine (conj Hc' (conj Hres (conj Hrx' (conj _ (conj _ (conj _ (conj _ _))))))); [by rewrite Hrecv| | |lia|lia].
    + rewrite Hnxt, Hn. unfold wrap. rewrite Zplus_mod_idemp_l, Zplus_mod_idemp_r. f_equal. lia.
    + unfold queued at 1. rewrite Hrecv, Hcs. fold (queued s fd). rewrite Hq. replace (k + n - c) with ((k - c) + n) by lia. rewrite slice_app by lia. do 2 f_equal. lia.
Qed.

Lemma read_step k c m s max : inv k c m s -> 0 <= max -> exists rc buf s', tcp_recv mem fd (fun _ => 0) max s = Some (rc, buf, s') /\
  (rc, bytes_at buf 0 rc) = (if k =? c then (- EAGAIN, []) else (Z.min max (k - c), slice c (Z.min max (k - c)))) /\
  inv k (c + Z.min max (k - c)) m s'.
Proof.
  intros (Hc & Hr & Hrx & Hok & Hn & Hq & Hck & Hk) Hmax. pose proof Hc as (Hf & Hst & Hl & Hnb).
  assert (Hact : active (tcp_at fd s) = true /\ tcp_in_range fd = true).
  { apply find_index_Some in Hf as (Hi & Hf & _). cbv beta zeta in Hf. unfold tcp_in_range, TCP_MAX_SOCKETS in *. lia. }
  destruct Hact as [Hact Hrange]. unfold tcp_recv. rewrite Hrange, Hact, Hnb. cbn [negb andb].
  assert (Hlen : Z.of_nat (length (queued s fd)) = k - c) by (rewrite Hq; apply slice_length; lia).
  assert (Hemp : ring_empty fd s = (k =? c)).
  { unfold ring_empty. unfold queued, contents in Hlen. destruct Hok as (H1 & H2 & H3). rewrite ring_queue_length in Hlen by done.
    pose proof (ring_used_zero TCP_RECV_BUF (wr (recv (tcp_at fd s))) (rd (recv (tcp_at fd s))) H1 H2 H3). lia. }
  rewrite Hemp. destruct (Z.eqb_spec k c) as [->|Hne].
  - exists (- EAGAIN), (fun _ => 0), s. split_and!; [done|done|]. replace (c + Z.min max (c - c)) with c by lia. done.
  - destruct (take_bytes_ok fd (fun _ => 0) max s Hok Hmax) as (buf & s' & n & -> & -> & Hb & Ho & Hok' & Hk'). rewrite Hlen in *. set (n := Z.min max (k - c)) in *.
    assert (Hn' : 0 <= n <= k - c) by (unfold n; lia). exists n, buf, s'.
    rewrite Hq in Hb. replace (k - c) with (n + (k - c - n)) in Hb by lia. rewrite slice_app in Hb by lia.
    apply app_inj_1 in Hb as [Hb1 Hb2]; [|unfold bytes_at; rewrite length_map, length_seqZ; apply Nat2Z.inj; rewrite slice_length; lia].
    assert (Hcn : conn fd rip rport lport s').
    { refine (conj _ (conj _ (conj _ _))); [rewrite (find_sock_key fd rip rport lport s s' Ho); [exact Hf|by rewrite Hk']|by rewrite Hk'..]. }
    assert (Hres : resolves rip m s') by (by apply (resolves_frame _ _ s); [apply Ho..|]).
    assert (Hrx' : rx s' = []) by (by destruct Ho as (_ & _ & -> & _)).
    split; [done|]. split; [by rewrite Hb1|]. refine (conj Hcn (conj Hres (conj Hrx' (conj Hok' (conj _ (conj _ (conj _ Hk))))))); [by rewrite Hk'| |lia].
    rewrite Hb2. f_equal. lia.
Qed.

End stream.


(** The calls refine the stream. *)
Lemma run_ok mem D isn fd rip rport lport m ops k c s :
  inv D isn fd rip rport lport k c m s -> polite D isn rip rport lport ops k c ->
  exists s', run mem fd ops s = Some (fst (stream D ops k c), s') /\
    inv D isn fd rip rport lport (fst (snd (stream D ops k c))) (snd (snd (stream D ops k c))) m s'.
Proof.
  revert k c s. induction ops as [|[fr o n|max] ops IH]; intros k c s Hi Hp; cbn [run stream polite] in *.
  - by exists s.
  - destruct Hp as (H1 & H2 & H3 & H4 & H5 & H6 & H7).
    destruct (segment_step mem D isn fd rip rport lport k c m s fr o n Hi H1 H2 H3 H4 H5 H6) as (s' & -> & Hi'). by apply IH.
  - destruct Hp as [H1 H2]. destruct (read_step mem D isn fd rip rport lport k c m s max Hi H1) as (rc & buf & s' & -> & E & Hi').
    cbn [mbind option_bind]. destruct (IH k _ s' Hi' H2) as (s'' & -> & Hi''). destruct (stream D ops k _) as [outs e]. cbn [mbind option_bind fst snd] in *.
    exists s''. by rewrite E.
Qed.

(** The bytes that reads should return are the stream, in order. *)
Lemma stream_bytes D isn rip rport lport ops k c : polite D isn rip rport lport ops k c -> 0 <= c <= k ->
  concat (map snd (fst (stream D ops k c))) = slice D c (snd (snd (stream D ops k c)) - c) /\ c <= snd (snd (stream D ops k c)).
Proof.
  revert k c. induction ops as [|[fr o n|max] ops IH]; intros k c Hp Hc; cbn [stream polite] in *.
  - cbn. unfold slice. rewrite Z.sub_diag. split; [done|lia].
  - destruct Hp as (_ & _ & Hn & _ & _ & _ & Hp). apply (IH _ c Hp). destruct (o =? k); lia.
  - destruct Hp as [Hm Hp]. set (n := Z.min max (k - c)) in *. assert (Hn : 0 <= n <= k - c) by (unfold n; lia).
    destruct (IH k (c + n) Hp ltac:(lia)) as [E Hle]. destruct (stream D ops k (c + n)) as [outs [k' c']]. cbn [fst snd map concat] in *.
    split; [|lia]. rewrite E. replace (c' - c) with (n + (c' - (c + n))) by lia. rewrite slice_app by lia. f_equal.
    destruct (Z.eqb_spec k c); [|done]. replace n with 0 by lia. done.
Qed.


(** What [carried] describes is what tcp_send does: the data leaves in one
    segment numbered by snd_nxt, which it moves on. *)
Lemma tcp_send_sends mem fd data m s :
  tcp_bad fd s = false -> state (tcp_at fd s) = SOCK_STATE_ESTABLISHED -> host_ok s -> resolves (remote_ip (tcp_at fd s)) m s ->
  (forall n, n <= 2048 -> mem n = true) -> Z.of_nat (length data) <= 1460 ->
  exists s', tcp_send mem fd data s = Some (Z.of_nat (length data), s') /\
    sent s' = sent s ++ [sent_frame m (remote_ip (tcp_at fd s)) IP_PROTO_TCP (tcp_segment (tcp_at fd s) (Z.lor TCP_PSH TCP_ACK) data) s] /\
    (data <> [] -> snd_nxt (tcp_at fd s') = u32 (snd_nxt (tcp_at fd s) + Z.of_nat (length data))).
Proof.
  intros Hb Hst Hh Hr Hm Hl. unfold tcp_send. rewrite Hb, bool_decide_true by done. cbn [negb]. unfold tcp_send_segment, TCP_HLEN. rewrite Hm by lia. cbn [negb].
  rewrite (ip_send_ok mem _ _ _ _ m) by (done || apply Hm; rewrite tcp_segment_length; lia). cbn [mbind option_bind]. eexists. split; [by rewrite swrap_small by lia|].
  split; [done|]. intros Hne. rewrite tcp_at_set. cbn [snd_nxt setter]. unfold seq_after. change (has (Z.lor TCP_PSH TCP_ACK) TCP_SYN) with false.
  change (has (Z.lor TCP_PSH TCP_ACK) TCP_FIN) with false. cbv iota. destruct data; [done|]. replace (Z.of_nat (length (z :: data)) =? 0) with false by (cbn; lia).
  rewrite (wrap_small 32 (Z.of_nat _)) by lia. done.
Qed.


(** ** Where the code falls short *)

(** A listening socket is found for every segment to its port, so the branch
    that opens a connection never runs: whatever arrives, a listener's queue
    stays empty. *)
Lemma listener_found lport s : tcp_find_listener lport s <> None -> forall rip rport, tcp_find_sock rip rport lport s <> None.
Proof.
  intros Hl rip rport Hn. apply Hl. apply find_index_None. intros j Hj.
  pose proof (proj1 (find_index_None _ _ _) Hn j Hj) as H. cbv beta zeta in *. lia.
Qed.

(** The full receive buffer: the rest of the segment is dropped, and yet
    acknowledged. *)
Lemma overrun_loses : exists r data k,
  let k' := tcp_data 0 data (zero_tcp <| recv := r |> <| state := k |>) in
  ring_ok TCP_RECV_BUF r /\ contents TCP_RECV_BUF (recv k') = contents TCP_RECV_BUF r /\ rcv_nxt k' = 1.
Proof.
  set (r := {| slots := fun _ : Z => 0; wr := 16383; rd := 0 |}). exists r, [1], SOCK_STATE_ESTABLISHED. cbv zeta.
  assert (E : tcp_data 0 [1] (zero_tcp <| recv := r |> <| state := SOCK_STATE_ESTABLISHED |>) = zero_tcp <| recv := r |> <| state := SOCK_STATE_ESTABLISHED |> <| rcv_nxt := 1 |>)
    by reflexivity.
  rewrite E. split; [unfold ring_ok, r, TCP_RECV_BUF; cbn; lia|]. done.
Qed.

Module Demo.
Import NetClaims.Demo.

(** Host B connects to port 80 of host A. *)
Definition fd0 : Z := 0.
Definition b_syn : net :=
  let s := snd (tcp_socket_nonblock b1) in
  match tcp_connect enough fd0 ip_a 80 s with Some (_, s) => s | None => s end.

(** A socket of host A that answers, its numbers starting at 5000. *)
Definition a_sock (nxt : Z) : tcp_sock_t :=
  zero_tcp <| active := true |> <| state := SOCK_STATE_ESTABLISHED |> <| local_ip := ip_a |> <| local_port := 80 |>
           <| remote_ip := ip_b |> <| remote_port := 32768 |> <| snd_nxt := nxt |> <| rcv_nxt := u32 (0xDEAD0001 + 1) |>.

Definition syn_ack : frame := buffered (sent_frame mac_b ip_b IP_PROTO_TCP (tcp_segment (a_sock 5000) (Z.lor TCP_SYN TCP_ACK) []) a1).

Definition b_conn : net := match net_poll enough (b_syn <| arrivals := [[syn_ack]] |>) with Some s => s | None => b_syn end.

Definition text : list Z := [71; 69; 84; 32; 47; 10].

(** Bytes [o .. o + n) of the text. *)
Definition part (o n : Z) : frame :=
  buffered (sent_frame mac_b ip_b IP_PROTO_TCP (tcp_segment (a_sock (5001 + o)) (Z.lor TCP_PSH TCP_ACK) (slice text o n)) a1).

Lemma a1_ip : ip_addr (g_net_iface a1) = ip_a.
Proof. by vm_compute. Qed.

Lemma part_carried o n : 0 <= o < 100 -> carried text 5000 ip_a 80 32768 (part o n) o n.
Proof.
  intros Ho. exists a1, mac_b, ip_b, (a_sock (5001 + o)).
  refine (conj a1_ok (conj mac_b_ok (conj _ (conj a1_ip (conj eq_refl (conj eq_refl (conj _ (buffered_on_wire _)))))))).
  - unfold sock_fits, u32_range, a_sock. cbn [local_port remote_port snd_nxt rcv_nxt local_ip remote_ip setter].
    unfold ip_a, ip_b. rewrite !make_ip_eq, wrap_small by lia. lia.
  - unfold a_sock. cbn [snd_nxt setter]. rewrite wrap_small by lia. lia.
Qed.

(** The second half comes first, both come twice. *)
Definition calls : list tcp_op :=
  [Segment (part 3 3) 3 3; Read 10; Segment (part 0 3) 0 3; Segment (part 0 3) 0 3; Read 2; Segment (part 3 3) 3 3; Segment (part 3 3) 3 3; Read 10].


(** A frame from a host that is not in the ARP cache and has to be answered:
    the answer waits for an ARP reply by polling, under the lock that the
    poll which delivered the frame still holds, and never returns. *)
Lemma unknown_peer_deadlocks :
  net_poll enough (b0 <| arrivals := [[buffered (sent_frame mac_b ip_b IP_PROTO_ICMP (echo ICMP_ECHO_REQUEST 1 1 []) a1)]] |>) = None.
Proof. by vm_compute. Qed.

End Demo.

End TcpClaims.
