(* ===== verification/UserSpace.v ===== *)
(** * User address spaces as memories

    What a user program sees through its page tables: the byte at a virtual
    address is the byte of the frame that translates it.  A well-formed space
    maps the pages of the user half to distinct frames that are no tables.
    Then writing a frame changes the bytes of one page, and mapping a page
    changes the bytes of no other. *)

From Stdlib Require Import ZifyBool.
From S2P Require Import Prelude Mem Str Block Vmm VmmProps.
Import Mem Str Vmm VmmProps.
Import Block(buffer, blit).

Module UserSpace.

Section space.
Context {P H : Type} `{HF : Frames P} `{HFL : !FramesLaws P} `{HK : Kheap H}.
Variable hhdm : Z.
Hypothesis Hhhdm : 0 <= hhdm.
Hypothesis Hpage : aligned hhdm.
Implicit Types s : vmm P H.

Notation tab := (tab hhdm).
Notation leaf := (leaf hhdm).
Notation tree := (tree hhdm).

(** The user half. *)
Definition user (v : Z) : Prop := 0 <= v < 2 ^ 47.

(** The byte a program reads at [v]. *)
Definition user_byte (r v : Z) s : Z := vm s (vmm_phys_to_virt hhdm (vmm_virt_to_phys hhdm r v s)).

Definition frame (e : Z) : Z := Z.land e ADDR_MASK.

(** A frame in use that holds no table. *)
Record data_page (p : P) (m : mem) (r q : Z) : Prop := {
  dp_aligned : aligned q;
  dp_pos : 0 < q;
  dp_used : fr_used p q;
  dp_off : forall d v t, (d <= 3)%nat -> tab m r d v = Some t -> off t (q + hhdm)
}.

Record uspace (s : vmm P H) (r : Z) : Prop := {
  us_tree : tree (frames s) (vm s) r;
  us_ok : fr_ok (frames s);
  us_small : small hhdm (frames s);
  us_data : forall v h e, user v -> leaf (vm s) r v = Some (h, e) ->
    h = false /\ data_page (frames s) (vm s) r (frame e);
  us_inj : forall v v' e e', user v -> user v' -> leaf (vm s) r v = Some (false, e) ->
    leaf (vm s) r v' = Some (false, e') -> frame e = frame e' -> v / 4096 = v' / 4096
}.

Definition mapped s r (v : Z) : Prop := exists e, leaf (vm s) r v = Some (false, e).

Lemma frame_aligned e : aligned (frame e).
Proof using Type. unfold aligned, frame. rewrite addr_mask. apply Z.mod_mul. lia. Qed.

Lemma user_same v v' : user v -> user v' -> same 4 v v' <-> v / 4096 = v' / 4096.
Proof using Type. intros Hv Hv'. unfold user in *. apply same_page; lia. Qed.

(** The translation of a mapped address. *)
Lemma mapped_phys s r v e : tree (frames s) (vm s) r -> leaf (vm s) r v = Some (false, e) ->
  vmm_virt_to_phys hhdm r v s = frame e + v mod 4096.
Proof using Type.
  intros T L. rewrite (virt_to_phys_leaf hhdm s r v T), L. cbn [phys_of].
  change 0xFFF with (Z.ones 12). rewrite Z.land_ones by lia. change (2 ^ 12) with 4096.
  apply page_lor; [apply frame_aligned|]. apply Z.mod_pos_bound. lia.
Qed.

Lemma data_range s r q : uspace s r -> data_page (frames s) (vm s) r q -> 0 < q < 2 ^ 52 /\ q + hhdm + 4096 <= 2 ^ 64.
Proof using Hhhdm Hpage.
  intros U [Ha Hp Hu _]. destruct (us_small _ _ U q Hu) as [H1 H2]. split; [lia|].
  unfold aligned in *. change (2 ^ 64) with (2 ^ 52 * 4096) in *. Z.to_euclidean_division_equations. lia.
Qed.

(** Where the byte at [v] lies. *)
Lemma mapped_byte s r v e : uspace s r -> user v -> leaf (vm s) r v = Some (false, e) ->
  vmm_phys_to_virt hhdm (vmm_virt_to_phys hhdm r v s) = frame e + hhdm + v mod 4096 /\
  user_byte r v s = vm s (frame e + hhdm + v mod 4096).
Proof using Hhhdm Hpage.
  intros U Hv L. destruct (us_data _ _ U v _ e Hv L) as [_ D]. destruct (data_range s r _ U D) as [H1 H2].
  assert (vmm_phys_to_virt hhdm (vmm_virt_to_phys hhdm r v s) = frame e + hhdm + v mod 4096) as E.
  { rewrite (mapped_phys s r v e) by (done || apply U). unfold vmm_phys_to_virt.
    pose proof (Z.mod_pos_bound v 4096 ltac:(lia)). rewrite wrap_small; lia. }
  split; [exact E|]. unfold user_byte. by rewrite E.
Qed.

(** ** Writing a frame *)

Lemma page_write s r q m' : uspace s r -> data_page (frames s) (vm s) r q ->
  (forall a, ~ q + hhdm <= a < q + hhdm + 4096 -> m' a = vm s a) ->
  let s' := s <| vm := m' |> in
  uspace s' r /\ (forall v, leaf (vm s') r v = leaf (vm s) r v) /\
  (forall q', data_page (frames s) (vm s) r q' -> data_page (frames s') (vm s') r q').
Proof using Type.
  intros U D Hm s'.
  assert (forall d v t i, (d <= 3)%nat -> tab (vm s) r d v = Some t -> 0 <= i <= 511 -> entry t i m' = entry t i (vm s)) as Hf.
  { intros d v t i Hd Ht Hi. apply load_ext. intros b Hb. apply Hm. pose proof (dp_off _ _ _ _ D d v t Hd Ht) as Ho.
    unfold off in Ho. cbn in Hb. lia. }
  destruct (tree_frame hhdm (frames s) (vm s) m' r Hf (us_tree _ _ U)) as [T L].
  assert (forall q', data_page (frames s) (vm s) r q' -> data_page (frames s') (vm s') r q') as K.
  { intros q' [Ha Hp Hu Ho]. split; auto. intros d v t Hd Ht. apply (Ho d v t Hd).
    rewrite <- Ht. symmetry. apply tab_frame; [exact Hf|lia]. }
  split_and!; [split|exact L|exact K].
  - exact T.
  - apply U.
  - apply U.
  - intros v h e Hv E. cbn in E. rewrite L in E. destruct (us_data _ _ U v h e Hv E). auto.
  - intros v v' e e' Hv Hv' E E' Ef. cbn in E, E'. rewrite L in E, E'. by apply (us_inj _ _ U v v' e e').
Qed.

(** Different pages are in different frames. *)
Lemma frames_apart s r v v' e e' : uspace s r -> user v -> user v' -> leaf (vm s) r v = Some (false, e) ->
  leaf (vm s) r v' = Some (false, e') -> v / 4096 <> v' / 4096 -> off (frame e + hhdm) (frame e' + hhdm).
Proof using Type.
  intros U Hv Hv' L L' Hne. apply page_off; try apply frame_aligned. intros E. by apply Hne, (us_inj _ _ U v v' e e').
Qed.

Lemma write_bytes s r v e o src so n m' : uspace s r -> user v -> leaf (vm s) r v = Some (false, e) ->
  0 <= o -> 0 <= n -> o + n <= 4096 -> (forall a, m' a = blit (vm s) (frame e + hhdm + o) src so n a) ->
  let s' := s <| vm := m' |> in
  uspace s' r /\ (forall v', leaf (vm s') r v' = leaf (vm s) r v') /\
  forall v', user v' -> mapped s r v' ->
    user_byte r v' s' = if (v' / 4096 =? v / 4096) && (o <=? v' mod 4096) && (v' mod 4096 <? o + n)
                        then src (v' mod 4096 - o + so) else user_byte r v' s.
Proof using Hhhdm Hpage.
  intros U Hv L Ho Hn Hb Em s'. destruct (us_data _ _ U v _ e Hv L) as [_ D].
  assert (forall a, ~ frame e + hhdm <= a < frame e + hhdm + 4096 -> vm s' a = vm s a) as Hm.
  { intros a Ha. cbn. rewrite Em. unfold blit. case_bool; [lia|done]. }
  destruct (page_write s r (frame e) (vm s') U D Hm) as (U' & L' & _). change (s <| vm := vm s' |>) with s' in *.
  split_and!; auto. intros v' Hv' [e' E']. pose proof E' as E''. rewrite <- L' in E''.
  rewrite (proj2 (mapped_byte s' r v' e' U' Hv' E'')), (proj2 (mapped_byte s r v' e' U Hv' E')).
  pose proof (Z.mod_pos_bound v' 4096 ltac:(lia)) as Hr.
  destruct (Z.eqb_spec (v' / 4096) (v / 4096)) as [Es|Ns]; cbn [andb].
  - assert (e' = e) as ->. { rewrite (leaf_same hhdm (vm s) r v' v) in E' by (by apply user_same). congruence. }
    cbn. rewrite Em. unfold blit. repeat case_bool; try lia; try done. f_equal. lia.
  - apply Hm. pose proof (frames_apart s r v' v e' e U Hv' Hv E' L Ns) as Hoff. unfold off in Hoff. lia.
Qed.

(** ** Mapping a page *)

(** What creating tables keeps: the frames in use that hold data. *)
Definition keeps s s' (r : Z) : Prop := forall q, data_page (frames s) (vm s) r q ->
  data_page (frames s') (vm s') r q /\ forall i, 0 <= i < 4096 -> vm s' (q + hhdm + i) = vm s (q + hhdm + i).

Lemma keeps_refl s r : keeps s s r.
Proof using Type. by intros q D. Qed.
Lemma keeps_trans s1 s2 s3 r : keeps s1 s2 r -> keeps s2 s3 r -> keeps s1 s3 r.
Proof using Type.
  intros K1 K2 q D. destruct (K1 q D) as [D' E1]. destruct (K2 q D') as [D'' E2]. split; [done|].
  intros i Hi. rewrite E2, E1 by done. done.
Qed.

(** Writing an entry of a table of the tree. *)
Lemma put_keeps s r d v t x : tab (vm s) r d v = Some t -> (d <= 3)%nat ->
  forall q i, data_page (frames s) (vm s) r q -> 0 <= i < 4096 -> vm (put t (idx d v) x s) (q + hhdm + i) = vm s (q + hhdm + i).
Proof using Type.
  intros Ht Hd q i D Hi. apply store_outside. pose proof (dp_off _ _ _ _ D d v t Hd Ht) as Ho.
  pose proof (idx_range d v). unfold off in Ho. cbn. lia.
Qed.

(** A table created by one level of the descent is a fresh frame. *)
Lemma goc_keeps s r d v t f : tree (frames s) (vm s) r -> fr_ok (frames s) -> (d <= 2)%nat -> tab (vm s) r d v = Some t ->
  f = 0 \/ f = VMM_FLAG_USER ->
  let s' := snd (get_or_create_table hhdm t (idx d v) f s) in small hhdm (frames s') -> keeps s s' r.
Proof using HFL Hhhdm.
  intros T Hok Hd Ht Hf. unfold get_or_create_table, get. set (e := entry t (idx d v) (vm s)).
  destruct (has e VMM_FLAG_PRESENT) eqn:Ep; [by destruct (has e (Z.shiftl 1 7))|].
  unfold alloc_page_table, alloc_frame. destruct (fr_alloc (frames s)) as [phys p'] eqn:Ea.
  destruct (fr_alloc_law (frames s) phys p' Hok Ea) as (Hok' & Hkeep & Hnew).
  destruct (Z.eqb_spec phys 0) as [|Hp]; [intros _ q [A B C D]; split; [split; auto|done]|].
  destruct (Hnew Hp) as (Hp0 & Hal & Hfresh & Hused).
  destruct (vmm_phys_to_virt hhdm phys =? 0) eqn:Ehv; cbn [snd]; intros Hsmall; pose proof (Hsmall phys Hused) as [Hlim Hlim'];
    (assert (vmm_phys_to_virt hhdm phys = phys + hhdm) as Ev by (apply wrap_small; lia)); rewrite Ev in *; [lia|].
  assert (vmm_virt_hhdm_to_phys hhdm (phys + hhdm) = phys) as -> by (unfold vmm_virt_hhdm_to_phys; rewrite wrap_small; lia).
  set (nt := phys + hhdm) in *. set (x := Z.lor _ f).
  destruct (table_entry hhdm Hhhdm phys f Hal ltac:(lia) Hlim' Hf) as (Hx & Hxt & Hxr). fold x in Hx, Hxt, Hxr.
  set (s1 := zero_page nt (s <| frames := p' |>)).
  assert (forall t0, is_table hhdm (frames s) t0 -> off t0 nt) as Hoff.
  { intros t0 [(ph0 & -> & Hu & Hal0 & _)]. assert (ph0 <> phys) by (intros ->; done). by apply page_off. }
  assert (forall d v t i, (d <= 3)%nat -> tab (vm s) r d v = Some t -> 0 <= i <= 511 -> entry t i (vm s1) = entry t i (vm s)) as Hm1.
  { intros d0 v0 t0 i Hd0 Ht0 Hi. apply memset_off; auto. apply Hoff. by apply (tr_used _ _ _ _ T d0 v0). }
  destruct (tree_frame hhdm (frames s) (vm s) (vm s1) r Hm1 T) as [T1 _].
  assert (forall d v, (d <= 4)%nat -> tab (vm s1) r d v = tab (vm s) r d v) as Et by (by apply tab_frame).
  assert (tab (vm s1) r d v = Some t) as Ht1 by (rewrite Et by lia; done).
  pose proof (set_entry_sets (vm s1) t (idx d v) x (idx_range d v) Hxr) as Hset.
  assert (has (entry t (idx d v) (vm s1)) VMM_FLAG_PRESENT = false) as Habs by (rewrite (Hm1 d v t) by (auto; try lia; apply idx_range); exact Ep).
  assert (forall i, 0 <= i <= 511 -> entry nt i (set_entry t (idx d v) x (vm s1)) = 0) as Hz.
  { intros i Hi. rewrite (se_other _ _ _ _ _ Hset); [by apply memset_zero|done|right].
    destruct (Hoff t (tr_used _ _ _ _ T d v t ltac:(lia) Ht)); [by right|by left]. }
  intros q D. pose proof D as [Dal Dpos Dused Doff].
  assert (off nt (q + hhdm)) as Hq by (apply (page_off hhdm phys q Hal Dal); congruence).
  assert (data_page (frames s1) (vm s1) r q) as D1.
  { split; [exact Dal|exact Dpos|by apply Hkeep|]. intros d0 v0 t0 Hd0 Ht0. apply (Doff d0 v0); [done|]. by rewrite <- Et by lia. }
  split.
  - split; [exact Dal|exact Dpos|by apply Hkeep|]. intros d0 v0 t0 Hd0 Ht0.
    change (vm (put t (idx d v) x s1)) with (set_entry t (idx d v) x (vm s1)) in Ht0.
    destruct (fresh_tab hhdm (frames s) (vm s1) _ r d v t x nt T1 Hd Ht1 Habs Hset Hx Hxt Hz d0 v0 Hd0)
      as [[F _]|(_ & _ & _ & F)]; rewrite F in Ht0.
    + by apply (dp_off _ _ _ _ D1 d0 v0).
    + destruct (decide (d0 = S d)); [|done]. by injection Ht0 as <-.
  - intros i Hi. rewrite (put_keeps s1 r d v t x Ht1 ltac:(lia) q i D1 Hi). cbn [s1 zero_page vm].
    change (vm (s <| frames := p' |>)) with (vm s).
    transitivity (snd (memset nt 0 PAGE_SIZE (vm s)) (q + hhdm + i)); [done|].
    unfold PAGE_SIZE. rewrite memset_at by lia. unfold off in Hq. case_bool; [lia|done].
Qed.

(** The descent reaches the page table of [v] through three levels. *)
Lemma map_page_keeps s r v phys flags ok s' :
  vmm_map_page hhdm r v phys flags s = (ok, s') ->
  tree (frames s) (vm s) r -> fr_ok (frames s) -> small hhdm (frames s') -> attrs flags -> keeps s s' r.
Proof using HFL Hhhdm.
  intros E T Hok Hs Ha. unfold vmm_map_page in E.
  change (pml4_index v) with (idx 0 v) in E. change (pdpt_index v) with (idx 1 v) in E.
  change (pd_index v) with (idx 2 v) in E. change (pt_index v) with (idx 3 v) in E.
  set (f := Z.land flags VMM_FLAG_USER) in E. pose proof (user_bit flags) as Hf. fold f in Hf.
  destruct (goc_step hhdm Hhhdm s r 0 v r f Hok ltac:(lia) Hf) as (t1 & s1 & E1 & G1 & K1). rewrite E1 in E.
  pose proof (goc_keeps s r 0 v r f T Hok ltac:(lia) eq_refl Hf) as Q1. rewrite E1 in Q1. cbn [snd] in Q1.
  destruct (Z.eqb_spec t1 0) as [|N1]; [injection E as <- <-; auto|].
  destruct (goc_step hhdm Hhhdm s1 r 1 v t1 f (gr_ok _ _ G1) ltac:(lia) Hf) as (t2 & s2 & E2 & G2 & K2). rewrite E2 in E.
  assert (small hhdm (frames s2) -> keeps s s2 r) as Q2.
  { intros Hs2. pose proof (small_before hhdm _ _ G2 Hs2) as Hs1. destruct (K1 Hs1 T eq_refl) as (T1 & _ & X1).
    apply (keeps_trans s s1 s2); [auto|].
    pose proof (goc_keeps s1 r 1 v t1 f T1 (gr_ok _ _ G1) ltac:(lia) (X1 N1) Hf) as Q. rewrite E2 in Q. auto. }
  destruct (Z.eqb_spec t2 0) as [|N2]; [injection E as <- <-; auto|].
  destruct (goc_step hhdm Hhhdm s2 r 2 v t2 f (gr_ok _ _ G2) ltac:(lia) Hf) as (t3 & s3 & E3 & G3 & K3). rewrite E3 in E.
  assert (small hhdm (frames s3) -> keeps s s3 r /\ tree (frames s3) (vm s3) r /\ (t3 <> 0 -> tab (vm s3) r 3 v = Some t3)) as Q3.
  { intros Hs3. pose proof (small_before hhdm _ _ G3 Hs3) as Hs2. pose proof (small_before hhdm _ _ G2 Hs2) as Hs1.
    destruct (K1 Hs1 T eq_refl) as (T1 & _ & X1). destruct (K2 Hs2 T1 (X1 N1)) as (T2 & _ & X2).
    destruct (K3 Hs3 T2 (X2 N2)) as (T3 & _ & X3). split_and!; auto. apply (keeps_trans s s2 s3); [auto|].
    pose proof (goc_keeps s2 r 2 v t2 f T2 (gr_ok _ _ G2) ltac:(lia) (X2 N2) Hf) as Q. rewrite E3 in Q. auto. }
  destruct (Z.eqb_spec t3 0) as [|N3]; injection E as <- <-; destruct (Q3 Hs) as (K & T3 & X3); [exact K|].
  apply (keeps_trans s s3 _ r K). intros q D. destruct (pte_ok phys flags Ha) as (Hr & _).
  destruct (leaf_set hhdm _ _ _ r v t3 _ T3 (X3 N3) (set_entry_sets (vm s3) t3 (idx 3 v) _ (idx_range 3 v) Hr)) as (_ & Et & _).
  split; [|intros i Hi; exact (put_keeps s3 r 3 v t3 _ (X3 N3) ltac:(lia) q i D Hi)].
  destruct D as [D1 D2 D3 D4]. split; [exact D1|exact D2|exact D3|]. intros d v' t Hd Ht. apply (D4 d v' t Hd).
  rewrite <- Ht. symmetry. apply (Et d v' Hd).
Qed.

(** A fresh data page becomes the page of [v]; every other page keeps its
    frame and its bytes. *)
Lemma map_fresh s r v phys flags ok s' :
  vmm_map_page hhdm r v phys flags s = (ok, s') -> uspace s r -> small hhdm (frames s') -> attrs flags -> user v ->
  data_page (frames s) (vm s) r phys -> leaf (vm s) r v = None ->
  (forall v' e, user v' -> leaf (vm s) r v' = Some (false, e) -> frame e <> phys) ->
  uspace s' r /\ keeps s s' r /\
  forall v', leaf (vm s') r v' = if ok && bool_decide (same 4 v v') then Some (false, pte phys flags) else leaf (vm s) r v'.
Proof using HFL Hhhdm Hpage.
  intros E U Hs Ha Hv D Hn Hfresh. destruct (map_page_ok hhdm Hhhdm s r v phys flags ok s' E (us_tree _ _ U) (us_ok _ _ U) Ha) as [G K].
  destruct (K Hs) as [T' L]. pose proof (map_page_keeps s r v phys flags ok s' E (us_tree _ _ U) (us_ok _ _ U) Hs Ha) as Kp.
  assert (frame (pte phys flags) = phys) as Ef.
  { unfold frame. destruct (pte_ok phys flags Ha) as (_ & _ & -> & _). destruct (data_range s r phys U D).
    apply addr_field; [apply D|lia]. }
  split_and!; auto. split; auto; [apply G| |].
  - intros v' h e Hv'. rewrite L. destruct (ok && bool_decide (same 4 v v')).
    + intros [= <- <-]. rewrite Ef. split; [done|]. by apply Kp.
    + intros E'. destruct (us_data _ _ U v' h e Hv' E') as [-> D']. split; [done|]. by apply Kp.
  - intros v1 v2 e1 e2 H1 H2. rewrite !L. destruct ok; cbn [andb]; [|apply U; done].
    destruct (bool_decide_reflect (same 4 v v1)) as [S1|S1], (bool_decide_reflect (same 4 v v2)) as [S2|S2].
    + intros _ _ _. apply user_same; auto. by apply (same_trans _ _ v); [apply same_sym|].
    + intros [= <-] E2 Eq. rewrite Ef in Eq. by destruct (Hfresh v2 e2 H2 E2).
    + intros E1 [= <-] Eq. rewrite Ef in Eq. by destruct (Hfresh v1 e1 H1 E1).
    + apply U; done.
Qed.

(** ** How many frames there are *)

(** The allocator after [k] allocations. *)
Fixpoint allocs (k : nat) (p : P) : P :=
  match k with
  | O => p
  | S k' => allocs k' (snd (fr_alloc p))
  end.

(** The next [n] allocations succeed, and the frames they return lie in the
    direct map. *)
Record budget (n : nat) (p : P) : Prop := {
  bg_room : forall k, (k < n)%nat -> fst (fr_alloc (allocs k p)) <> 0;
  bg_small : small hhdm (allocs n p)
}.

Lemma allocs_add k j p : allocs j (allocs k p) = allocs (k + j) p.
Proof using Type. revert p. induction k as [|k IH]; intros p; cbn; [done|apply IH]. Qed.

Lemma allocs_grows k p : fr_ok p -> grows p (allocs k p).
Proof using HFL.
  revert p. induction k as [|k IH]; intros p Hok; cbn; [done|]. destruct (fr_alloc p) as [r p'] eqn:E.
  destruct (fr_alloc_law p r p' Hok E) as (Hok' & Hk & _). apply (grows_trans _ p'); [by split|by apply IH].
Qed.

Lemma budget_after n k p : fr_ok p -> budget n p -> (k <= n)%nat -> budget (n - k) (allocs k p).
Proof using Type.
  intros Hok [R S] Hk. split; [|rewrite allocs_add; by replace (k + (n - k))%nat with n by lia].
  intros j Hj. rewrite allocs_add. apply R. lia.
Qed.

Lemma budget_le n k p : fr_ok p -> budget n p -> (k <= n)%nat -> budget k p.
Proof using HFL.
  intros Hok [R S] Hk. split; [intros j Hj; apply R; lia|]. apply (small_before hhdm _ (allocs n p)); [|done].
  replace n with (k + (n - k))%nat by lia. rewrite <- allocs_add. apply allocs_grows. by apply allocs_grows.
Qed.

Lemma budget_small n k p : fr_ok p -> budget n p -> (k <= n)%nat -> small hhdm (allocs k p).
Proof using HFL. intros Hok B Hk. by apply (budget_le n k p Hok B Hk). Qed.

Lemma goc_allocs s t i f : exists k, (k <= 1)%nat /\ frames (snd (get_or_create_table hhdm t i f s)) = allocs k (frames s).
Proof using Type.
  unfold get_or_create_table, alloc_page_table, alloc_frame.
  destruct (has _ _); [exists 0%nat; by destruct (has _ _); split; auto with lia|].
  exists 1%nat. split; [done|]. cbn [allocs]. destruct (fr_alloc (frames s)) as [phys p']. cbn [snd].
  destruct (phys =? 0); [done|]. by destruct (_ =? 0).
Qed.

Lemma map_page_allocs s r v phys flags : exists k, (k <= 3)%nat /\ frames (snd (vmm_map_page hhdm r v phys flags s)) = allocs k (frames s).
Proof using Type.
  unfold vmm_map_page. set (f := Z.land flags VMM_FLAG_USER).
  destruct (goc_allocs s r (pml4_index v) f) as (k1 & H1 & E1).
  destruct (get_or_create_table hhdm r _ _ s) as [t1 s1]. cbn [snd] in E1. destruct (t1 =? 0); [exists k1; split; [lia|done]|].
  destruct (goc_allocs s1 t1 (pdpt_index v) f) as (k2 & H2 & E2).
  destruct (get_or_create_table hhdm t1 _ _ s1) as [t2 s2]. cbn [snd] in E2. rewrite E1, allocs_add in E2.
  destruct (t2 =? 0); [exists (k1 + k2)%nat; split; [lia|done]|].
  destruct (goc_allocs s2 t2 (pd_index v) f) as (k3 & H3 & E3).
  destruct (get_or_create_table hhdm t2 _ _ s2) as [t3 s3]. cbn [snd] in E3. rewrite E2, allocs_add in E3.
  exists (k1 + k2 + k3)%nat. split; [lia|]. by destruct (t3 =? 0).
Qed.

(** A level of the descent fails only when the frames ran out. *)
Lemma goc_succeeds s r d v t f s' : tree (frames s) (vm s) r -> fr_ok (frames s) -> (d <= 2)%nat -> tab (vm s) r d v = Some t ->
  (forall e, leaf (vm s) r v <> Some (true, e)) -> budget 1 (frames s) ->
  get_or_create_table hhdm t (idx d v) f s <> (0, s').
Proof using HFL Hhhdm.
  intros T Hok Hd Ht Hh [R Hs]. specialize (R 0%nat ltac:(lia)). cbn in R, Hs. unfold get_or_create_table, get. set (e := entry t (idx d v) (vm s)).
  change (Z.shiftl 1 7) with VMM_FLAG_HUGE. destruct (has e VMM_FLAG_PRESENT) eqn:Ep.
  - destruct (has e VMM_FLAG_HUGE) eqn:Eh.
    + exfalso. destruct (decide (d = 2%nat)) as [->|].
      * apply (Hh e). unfold VmmProps.leaf. rewrite Ht. fold e. by rewrite Ep, Eh.
      * pose proof (tr_small _ _ _ _ T d v t ltac:(lia) Ht) as X. fold e in X. rewrite Ep, Eh in X. by specialize (X eq_refl).
    + intros [= E _]. assert (tab (vm s) r (S d) v = Some (table_of hhdm e)) as Ht'.
      { cbn [VmmProps.tab]. rewrite Ht. fold e. by rewrite (proj2 (live_true e)). }
      destruct (tr_used _ _ _ _ T (S d) v _ ltac:(lia) Ht') as [(ph & E' & _ & _ & ?)].
      unfold table_of in E'. lia.
  - unfold alloc_page_table, alloc_frame. destruct (fr_alloc (frames s)) as [phys p'] eqn:Ea. cbn [fst snd] in R, Hs.
    destruct (Z.eqb_spec phys 0) as [|Hp]; [done|].
    destruct (fr_alloc_law _ _ _ Hok Ea) as (_ & _ & Hnew). destruct (Hnew Hp) as (Hp0 & _ & _ & Hu).
    destruct (Hs phys Hu) as [_ H2]. assert (vmm_phys_to_virt hhdm phys = phys + hhdm) as -> by (apply wrap_small; lia).
    destruct (Z.eqb_spec (phys + hhdm) 0) as [E0|N0]; intros Eq; [lia|by injection Eq].
Qed.

(** vmm_map_page succeeds when there are frames for three tables. *)
Lemma map_page_succeeds s r v phys flags s' : tree (frames s) (vm s) r -> fr_ok (frames s) -> budget 3 (frames s) ->
  (forall e, leaf (vm s) r v <> Some (true, e)) -> vmm_map_page hhdm r v phys flags s <> (false, s').
Proof using HFL Hhhdm.
  intros T Hok B Hh E. unfold vmm_map_page in E.
  change (pml4_index v) with (idx 0 v) in E. change (pdpt_index v) with (idx 1 v) in E.
  change (pd_index v) with (idx 2 v) in E. change (pt_index v) with (idx 3 v) in E.
  set (f := Z.land flags VMM_FLAG_USER) in E. pose proof (user_bit flags) as Hf. fold f in Hf.
  destruct (goc_step hhdm Hhhdm s r 0 v r f Hok ltac:(lia) Hf) as (t1 & s1 & E1 & G1 & K1). rewrite E1 in E.
  destruct (goc_allocs s r (idx 0 v) f) as (k1 & Hk1 & A1). rewrite E1 in A1. cbn [snd] in A1.
  assert (budget 2 (frames s1)) as B1.
  { rewrite A1. apply (budget_le (3 - k1)); [rewrite <- A1; apply G1|by apply budget_after; [|done|lia]|lia]. }
  destruct (Z.eqb_spec t1 0) as [->|N1].
  { apply (goc_succeeds s r 0 v r f s1 T Hok ltac:(lia) eq_refl Hh (budget_le 3 1 _ Hok B ltac:(lia)) E1). }
  destruct (K1 (budget_small 2 0 _ (gr_ok _ _ G1) B1 ltac:(lia)) T eq_refl) as (T1 & L1 & X1).
  assert (forall e, leaf (vm s1) r v <> Some (true, e)) as Hh1 by (intros e; by rewrite L1).
  destruct (goc_step hhdm Hhhdm s1 r 1 v t1 f (gr_ok _ _ G1) ltac:(lia) Hf) as (t2 & s2 & E2 & G2 & K2). rewrite E2 in E.
  destruct (goc_allocs s1 t1 (idx 1 v) f) as (k2 & Hk2 & A2). rewrite E2 in A2. cbn [snd] in A2.
  assert (budget 1 (frames s2)) as B2.
  { rewrite A2. apply (budget_le (2 - k2)); [rewrite <- A2; apply G2|by apply budget_after; [apply G1|done|lia]|lia]. }
  destruct (Z.eqb_spec t2 0) as [->|N2].
  { apply (goc_succeeds s1 r 1 v t1 f s2 T1 (gr_ok _ _ G1) ltac:(lia) (X1 N1) Hh1 (budget_le 2 1 _ (gr_ok _ _ G1) B1 ltac:(lia)) E2). }
  destruct (K2 (budget_small 1 0 _ (gr_ok _ _ G2) B2 ltac:(lia)) T1 (X1 N1)) as (T2 & L2 & X2).
  destruct (get_or_create_table hhdm t2 (idx 2 v) f s2) as [t3 s3] eqn:E3.
  destruct (Z.eqb_spec t3 0) as [->|N3]; [|done].
  apply (goc_succeeds s2 r 2 v t2 f s3 T2 (gr_ok _ _ G2) ltac:(lia) (X2 N2)) in E3; auto. intros e. by rewrite L2.
Qed.

(** ** A page of contents *)

Lemma alloc_data s r phys s1 : alloc_frame s = (phys, s1) -> phys <> 0 -> uspace s r -> small hhdm (frames s1) ->
  uspace s1 r /\ data_page (frames s1) (vm s1) r phys /\ vm s1 = vm s /\ grows (frames s) (frames s1) /\
  vmm_phys_to_virt hhdm phys = phys + hhdm /\
  (forall q, data_page (frames s) (vm s) r q -> q <> phys /\ data_page (frames s1) (vm s1) r q).
Proof using HFL Hhhdm.
  unfold alloc_frame. destruct (fr_alloc (frames s)) as [ph p'] eqn:Ea. intros [= -> <-] Hp U Hs. cbn in Hs.
  destruct (fr_alloc_law _ _ _ (us_ok _ _ U) Ea) as (Hok' & Hkeep & Hnew). destruct (Hnew Hp) as (Hp0 & Hal & Hfresh & Hused).
  assert (forall q, data_page (frames s) (vm s) r q -> data_page p' (vm s) r q) as K by (intros q []; split; auto).
  destruct (Hs phys Hused) as [Hlim Hlim'].
  split_and!; [| |done|by split|apply wrap_small; lia|].
  - split; cbn; auto.
    + apply (tree_mono hhdm (frames s)); [exact Hkeep|apply U].
    + intros v h e Hv E. destruct (us_data _ _ U v h e Hv E). auto.
    + apply U.
  - split; auto. intros d v t Hd Ht. destruct (tr_used _ _ _ _ (us_tree _ _ U) d v t Hd Ht) as [(ph & -> & Hu & Ha & _)].
    apply page_off; auto. congruence.
  - intros q D. split; [|by apply K]. intros ->. by destruct Hfresh; apply D.
Qed.

(** From [s] to [s'] the pages of [lo, hi) were given frames with the bytes [c]
    and the attributes [flags], with at most [n] allocations; the rest of the
    space is as it was. *)
Record loaded (s s' : vmm P H) (r lo hi : Z) (c : Z -> Z) (flags : Z) (n : nat) : Prop := {
  ld_space : uspace s' r;
  ld_allocs : exists k, (k <= n)%nat /\ frames s' = allocs k (frames s);
  ld_other : forall v, user v -> ~ lo <= v < hi -> leaf (vm s') r v = leaf (vm s) r v /\
    (mapped s r v -> user_byte r v s' = user_byte r v s);
  ld_page : forall v, lo <= v < hi ->
    exists e, leaf (vm s') r v = Some (false, e) /\ Z.land e FLAGS_MASK = Z.lor (Z.land flags FLAGS_MASK) VMM_FLAG_PRESENT /\
      user_byte r v s' = c v
}.

Lemma loaded_nil s r lo c flags n : uspace s r -> loaded s s r lo lo c flags n.
Proof using Type. intros U. split; [done|exists 0%nat; split; [lia|done]|done|lia]. Qed.

Lemma loaded_app s1 s2 s3 r lo mid hi c flags n m : loaded s1 s2 r lo mid c flags n -> loaded s2 s3 r mid hi c flags m ->
  0 <= lo <= mid -> mid <= hi <= 2 ^ 47 -> loaded s1 s3 r lo hi c flags (n + m).
Proof using Type.
  intros [U1 (k1 & Hk1 & A1) O1 P1] [U2 (k2 & Hk2 & A2) O2 P2] H1 H2. split; [done| | |].
  - exists (k1 + k2)%nat. split; [lia|]. by rewrite A2, A1, allocs_add.
  - intros v Hu Hv. destruct (O1 v Hu ltac:(lia)) as [E1 B1]. destruct (O2 v Hu ltac:(lia)) as [E2 B2].
    split; [congruence|]. intros M. rewrite B2, B1; [done|done|]. destruct M as [e M]. exists e. congruence.
  - intros v Hv. destruct (decide (v < mid)) as [Hlt|]; [|apply P2; lia].
    destruct (O2 v ltac:(unfold user; lia) ltac:(lia)) as [E B]. destruct (P1 v ltac:(lia)) as (e & L & F & C).
    exists e. split_and!; [congruence|done|]. rewrite B; [done|by exists e].
Qed.

(** What is left of the budget. *)
Lemma loaded_budget s s' r lo hi c flags n b : loaded s s' r lo hi c flags n -> fr_ok (frames s) -> budget (n + b) (frames s) -> budget b (frames s').
Proof using HFL.
  intros [_ (k & Hk & E) _ _] Hok B. rewrite E. apply (budget_le (n + b - k)); [by apply allocs_grows|apply budget_after; [done|done|lia]|lia].
Qed.

Lemma in_page v v' : aligned v -> v' / 4096 = v / 4096 <-> v <= v' < v + 4096.
Proof using Type. unfold aligned. intros. Z.to_euclidean_division_equations. lia. Qed.

(** A frame allocated, filled and mapped: the step of every loop that loads
    memory. *)
Lemma page_step s r v c flags phys s1 m :
  alloc_frame s = (phys, s1) ->
  (forall a, ~ phys + hhdm <= a < phys + hhdm + 4096 -> m a = vm s a) ->
  (forall i, 0 <= i < 4096 -> m (phys + hhdm + i) = c (v + i)) ->
  uspace s r -> budget 4 (frames s) -> attrs flags -> aligned v -> 0 <= v -> v + 4096 <= 2 ^ 47 -> leaf (vm s) r v = None ->
  exists s', vmm_map_page hhdm r v phys flags (s1 <| vm := m |>) = (true, s') /\ loaded s s' r v (v + 4096) c flags 4.
Proof using HFL Hhhdm Hpage.
  intros Ea Hout Hin U B Hattr Hal H0 Hhi Hnone. assert (user v) as Hv by (unfold user; lia). pose proof (us_ok _ _ U) as Hok.
  assert (phys <> 0 /\ frames s1 = allocs 1 (frames s)) as [Hp Ef1].
  { pose proof (bg_room _ _ B 0 ltac:(lia)) as R. cbn [allocs] in *. unfold alloc_frame in Ea.
    destruct (fr_alloc (frames s)) as [ph p']. by injection Ea as -> <-. }
  assert (small hhdm (frames s1)) as Hs1 by (rewrite Ef1; apply (budget_small 4); auto; lia).
  destruct (alloc_data s r phys s1 Ea Hp U Hs1) as (U1 & D1 & Ev & G1 & _ & Hd). rewrite Ev in D1.
  rewrite <- Ev in Hout, D1. destruct (page_write s1 r phys m U1 D1 Hout) as (U2 & L2 & D2). set (s2 := s1 <| vm := m |>) in *.
  destruct (vmm_map_page hhdm r v phys flags s2) as [ok s'] eqn:Em.
  assert (budget 3 (frames s2)) as B2.
  { change (frames s2) with (frames s1). rewrite Ef1. apply (budget_after 4 1); auto; lia. }
  destruct ok; [|exfalso; apply (map_page_succeeds s2 r v phys flags s'); auto; [apply U2|apply U2|intros e; by rewrite L2, Ev, Hnone]].
  exists s'. split; [done|]. destruct (map_page_allocs s2 r v phys flags) as (k & Hk & Ek). rewrite Em in Ek. cbn [snd] in Ek.
  assert (small hhdm (frames s')) as Hs by (rewrite Ek; apply (budget_small 3); auto; apply U2).
  assert (forall v' e, user v' -> leaf (vm s2) r v' = Some (false, e) -> frame e <> phys) as Hfresh.
  { intros v' e Hv' E. rewrite L2, Ev in E. by apply Hd, (us_data _ _ U v' false e). }
  destruct (map_fresh s2 r v phys flags true s' Em U2 Hs Hattr Hv (D2 _ D1) ltac:(by rewrite L2, Ev) Hfresh) as (U3 & K & L3).
  assert (forall v', user v' -> same 4 v v' <-> v <= v' < v + 4096) as Hsame.
  { intros v' Hv'. rewrite user_same, <- in_page by done. done. }
  assert (forall v', user v' -> ~ v <= v' < v + 4096 -> leaf (vm s') r v' = leaf (vm s) r v') as Lout.
  { intros v' Hv' Hn. by rewrite L3, bool_decide_false, L2, Ev by (by rewrite Hsame). }
  assert (forall v', v <= v' < v + 4096 -> leaf (vm s') r v' = Some (false, pte phys flags)) as Lin.
  { intros v' Hv'. by rewrite L3, bool_decide_true by (apply Hsame; [unfold user; lia|done]). }
  split; [done| | |].
  - exists (1 + k)%nat. split; [lia|]. rewrite Ek, <- allocs_add. change (frames s2) with (frames s1). by rewrite Ef1.
  - intros v' Hv' Hn. split; [by apply Lout|]. intros [e Le]. destruct (us_data _ _ U v' _ e Hv' Le) as [_ De]. destruct (Hd _ De) as [Hne De1].
    assert (leaf (vm s') r v' = Some (false, e)) as Le' by (by rewrite Lout).
    rewrite (proj2 (mapped_byte s' r v' e U3 Hv' Le')), (proj2 (mapped_byte s r v' e U Hv' Le)).
    pose proof (Z.mod_pos_bound v' 4096 ltac:(lia)) as Hm. rewrite (proj2 (K _ (D2 _ De1))) by done.
    transitivity (vm s1 (frame e + hhdm + v' mod 4096)); [|by rewrite Ev]. apply Hout.
    pose proof (page_off hhdm (frame e) phys (frame_aligned e) (dp_aligned _ _ _ _ D1) Hne) as Ho. unfold off in Ho. lia.
  - intros v' Hv'. exists (pte phys flags). destruct (pte_ok phys flags Hattr) as (_ & _ & Ef & Efl). split_and!; [by apply Lin|exact Efl|].
    rewrite (proj2 (mapped_byte s' r v' _ U3 ltac:(unfold user; lia) (Lin v' Hv'))). unfold frame. rewrite Ef, addr_field;
      [|apply D1|destruct (data_range s1 r phys U1 D1); lia].
    assert (v' mod 4096 = v' - v) as -> by (unfold aligned in Hal; Z.to_euclidean_division_equations; lia).
    rewrite (proj2 (K _ (D2 _ D1))) by lia. transitivity (m (phys + hhdm + (v' - v))); [done|].
    rewrite Hin by lia. f_equal. lia.
Qed.

(** ** A new address space *)

(** The loop that copies the kernel half of the root. *)
Lemma copy_half n lo k nt s : 0 <= lo -> lo + Z.of_nat n <= 512 -> off k nt -> bytes (vm s) ->
  let s' := for_loop n lo (fun i s => put nt i (get k i s) s) s in
  frames s' = frames s /\ (forall a, ~ nt <= a < nt + 4096 -> vm s' a = vm s a) /\
  forall i, 0 <= i <= 511 -> entry nt i (vm s') = if (lo <=? i) && (i <? lo + Z.of_nat n) then entry k i (vm s) else entry nt i (vm s).
Proof using Type.
  intros Hlo Hn Ho Hb. revert lo s Hlo Hn Hb. induction n as [|n IH]; intros lo s Hlo Hn Hb; cbn [for_loop].
  { split_and!; auto. intros i Hi. case_bool; [lia|done]. }
  set (x := get k lo s). set (s1 := put nt lo x s).
  assert (0 <= x < 2 ^ 64) as Hx by (apply (load_range 8); done).
  pose proof (set_entry_sets (vm s) nt lo x ltac:(lia) Hx) as [Here Other].
  assert (forall a, ~ nt <= a < nt + 4096 -> vm s1 a = vm s a) as Hout by (intros a Ha; apply store_outside; cbn; lia).
  destruct (IH (lo + 1) s1 ltac:(lia) ltac:(lia) (store_bytes 8 _ x _ Hb)) as (Ef & Em & Ee). split_and!.
  - rewrite Ef. done.
  - intros a Ha. rewrite Em, Hout by done. done.
  - intros i Hi. rewrite Ee by done. change (vm s1) with (set_entry nt lo x (vm s)).
    rewrite (Other k i Hi (or_intror Ho)). destruct (decide (i = lo)) as [->|Hne].
    + rewrite Here. repeat case_bool; try lia; done.
    + rewrite (Other nt i Hi) by (by left). repeat case_bool; try lia; done.
Qed.

(** The tables below a root whose upper half is that of [k] and whose lower
    half is empty. *)
Section half.
Variables (p : P) (m m' : mem) (k nt : Z).
Hypothesis T : tree p m k.
Hypothesis Hoff : forall t, is_table hhdm p t -> off t nt.
Hypothesis Hout : forall a, ~ nt <= a < nt + 4096 -> m' a = m a.
Hypothesis Hlow : forall i, 0 <= i <= 255 -> entry nt i m' = 0.
Hypothesis Hhigh : forall i, 256 <= i <= 511 -> entry nt i m' = entry k i m.

Lemma half_entry d v t i : (d <= 3)%nat -> tab m k d v = Some t -> 0 <= i <= 511 -> entry t i m' = entry t i m.
Proof using T Hoff Hout.
  intros Hd Ht Hi. apply load_ext. intros b Hb. apply Hout. pose proof (Hoff t (tr_used _ _ _ _ T d v t Hd Ht)) as Ho.
  unfold off in Ho. cbn in Hb. lia.
Qed.

Lemma half_tab d v : (S d <= 3)%nat -> tab m' nt (S d) v = if 256 <=? idx 0 v then tab m k (S d) v else None.
Proof using T Hoff Hout Hlow Hhigh.
  pose proof (idx_range 0 v) as Hi. induction d as [|d IH]; intros Hd.
  - change (tab m' nt 1 v) with (let e := entry nt (idx 0 v) m' in if live e then Some (table_of hhdm e) else None).
    change (tab m k 1 v) with (let e := entry k (idx 0 v) m in if live e then Some (table_of hhdm e) else None).
    destruct (Z.leb_spec 256 (idx 0 v)); [rewrite Hhigh by lia; done|rewrite Hlow by lia; done].
  - change (tab m' nt (S (S d)) v) with (match tab m' nt (S d) v with None => None | Some t =>
      let e := entry t (idx (S d) v) m' in if live e then Some (table_of hhdm e) else None end).
    change (tab m k (S (S d)) v) with (match tab m k (S d) v with None => None | Some t =>
      let e := entry t (idx (S d) v) m in if live e then Some (table_of hhdm e) else None end).
    rewrite IH by lia. destruct (256 <=? idx 0 v); [|done]. destruct (tab m k (S d) v) as [t|] eqn:E; [|done].
    rewrite (half_entry (S d) v t) by (auto; try lia; apply idx_range). done.
Qed.

Lemma half_tree p' : (forall a, fr_used p a -> fr_used p' a) -> is_table hhdm p' nt -> tree p' m' nt.
Proof using T Hoff Hout Hlow Hhigh.
  intros Hk Hnt.
  assert (forall t, is_table hhdm p t -> is_table hhdm p' t) as Hmono by (intros t [(ph & ? & ? & ?)]; split; exists ph; auto).
  assert (forall d v t, (d <= 3)%nat -> tab m' nt d v = Some t -> (d = 0%nat /\ t = nt) \/ (d <> 0%nat /\ tab m k d v = Some t)) as Split.
  { intros [|d] v t Hd Ht; [left; split; [done|by injection Ht]|right; split; [done|]].
    rewrite half_tab in Ht by lia. by destruct (256 <=? idx 0 v). }
  split.
  - intros d d' v v' t t' Hd Hd' Ht Ht'.
    destruct (Split d v t Hd Ht) as [[-> ->]|[N E]], (Split d' v' t' Hd' Ht') as [[-> ->]|[N' E']].
    + left. split; [done|]. intros i Hi. lia.
    + right. destruct (Hoff t' (tr_used _ _ _ _ T d' v' t' Hd' E')); [by right|by left].
    + right. apply Hoff. by apply (tr_used _ _ _ _ T d v).
    + by apply (tr_apart _ _ _ _ T d d' v v').
  - intros d v t Hd Ht. destruct (Split d v t Hd Ht) as [[-> ->]|[N E]]; [done|]. apply Hmono. by apply (tr_used _ _ _ _ T d v).
  - intros d v t Hd Ht. pose proof (idx_range 0 v) as Hi. destruct (Split d v t ltac:(lia) Ht) as [[-> ->]|[N E]].
    + destruct (decide (idx 0 v <= 255)); [rewrite Hlow by lia; done|]. rewrite Hhigh by lia. by apply (tr_small _ _ _ _ T 0 v k); [lia|].
    + rewrite (half_entry d v t) by (auto; try lia; apply idx_range). apply (tr_small _ _ _ _ T d v t); [lia|done].
Qed.

Lemma half_leaf v : user v -> leaf m' nt v = None.
Proof using T Hoff Hout Hlow Hhigh.
  intros Hv. unfold VmmProps.leaf. rewrite half_tab by lia. case_bool; [|done]. rewrite idx_div in * by lia. unfold user in Hv.
  change (39 - 9 * Z.of_nat 0) with 39 in *. Z.to_euclidean_division_equations. lia.
Qed.
End half.

(** vmm_create_user_pml4: a fresh root with an empty user half and the kernel
    half of the kernel's root. *)
Record fresh_root (s s' : vmm P H) (k phys : Z) : Prop := {
  fo_pos : 0 < phys < 2 ^ 52;
  fo_lim : phys + hhdm < 2 ^ 64;
  fo_aligned : aligned phys;
  fo_new : ~ fr_used (frames s) phys;
  fo_used : fr_used (frames s') phys;
  fo_frames : frames s' = snd (fr_alloc (frames s));
  fo_bytes : bytes (vm s');
  fo_out : forall a, ~ phys + hhdm <= a < phys + hhdm + 4096 -> vm s' a = vm s a;
  fo_low : forall i, 0 <= i <= 255 -> entry (phys + hhdm) i (vm s') = 0;
  fo_high : forall i, 256 <= i <= 511 -> entry (phys + hhdm) i (vm s') = entry k i (vm s)
}.

Lemma create_root cr3 s : fr_ok (frames s) -> bytes (vm s) ->
  let k := vmm_get_kernel_pml4 hhdm cr3 s in
  is_table hhdm (frames s) k -> fst (fr_alloc (frames s)) <> 0 -> small hhdm (snd (fr_alloc (frames s))) ->
  exists phys s', vmm_create_user_pml4 hhdm cr3 s = (phys + hhdm, s') /\ fresh_root s s' k phys.
Proof using HFL Hhhdm.
  intros Hok Hb k Hk R Hs. unfold vmm_create_user_pml4, alloc_page_table, alloc_frame.
  destruct (fr_alloc (frames s)) as [phys p'] eqn:Ea. cbn [fst snd] in *. destruct (fr_alloc_law _ _ _ Hok Ea) as (Hok' & Hkeep & Hnew).
  rewrite (proj2 (Z.eqb_neq phys 0) R).
  destruct (Hnew R) as (Hp0 & Hal & Hfresh & Hused). destruct (Hs phys Hused) as [Hlim Hlim'].
  assert (vmm_phys_to_virt hhdm phys = phys + hhdm) as -> by (apply wrap_small; lia).
  rewrite (proj2 (Z.eqb_neq (phys + hhdm) 0)) by lia. set (nt := phys + hhdm) in *.
  set (s1 := zero_page nt (s <| frames := p' |>)) in *.
  change (vmm_get_kernel_pml4 hhdm cr3 s1) with k.
  cbv zeta. remember (for_loop 256 256 (fun i s => put nt i (get k i s) s) s1) as s' eqn:E. symmetry in E.
  exists phys, s'. split; [done|].
  assert (forall a, vm s1 a = if (nt <=? a) && (a <? nt + 4096) then 0 else vm s a) as Em1.
  { intros a. change (vm s1 a) with (snd (memset nt 0 4096 (vm s)) a). by rewrite memset_at by lia. }
  assert (bytes (vm s1)) as Hb1 by (intros a; rewrite Em1; case_bool; [lia|apply Hb]).
  assert (frames s' = p' /\ bytes (vm s')) as [Ef Hb'].
  { rewrite <- E. apply (for_loop_ind (fun x => frames x = p' /\ bytes (vm x))); [|split; [reflexivity|exact Hb1]].
    intros i x _ [Ex Hx]. split; [done|]. by apply store_bytes. }
  assert (off k nt) as Hoff.
  { destruct Hk as [(ph & -> & Hu & Ha & _)]. apply page_off; auto. congruence. }
  pose proof (copy_half 256 256 k nt s1 ltac:(lia) ltac:(lia) Hoff Hb1) as C. cbv zeta in C. rewrite E in C.
  destruct C as (_ & Hout & Hent). split; auto; try lia; [by rewrite Ef|rewrite Ea; done| | |]; fold nt.
  - intros a Ha. rewrite Hout, Em1 by done. case_bool; [lia|done].
  - intros i Hi. rewrite Hent by lia. case_bool; [lia|]. by apply memset_zero; lia.
  - intros i Hi. rewrite Hent by lia. case_bool; [|lia]. apply memset_off; [lia|done].
Qed.

Lemma root_off s s' k phys t : fresh_root s s' k phys -> is_table hhdm (frames s) t -> off t (phys + hhdm).
Proof using Type. intros F [(ph & -> & Hu & Ha & _)]. apply page_off; auto; [apply F|]. pose proof (fo_new _ _ _ _ F). congruence. Qed.

Lemma root_tree s s' k phys : tree (frames s) (vm s) k -> fresh_root s s' k phys -> (forall a, fr_used (frames s) a -> fr_used (frames s') a) ->
  tree (frames s') (vm s') (phys + hhdm).
Proof using Type.
  intros T F Hk. apply (half_tree (frames s) (vm s) (vm s') k (phys + hhdm)); try apply F; auto.
  - intros t. by apply (root_off s s' k).
  - split. exists phys. split_and!; try apply F. done.
Qed.

Lemma root_leaf s s' k phys v : tree (frames s) (vm s) k -> fresh_root s s' k phys -> user v -> leaf (vm s') (phys + hhdm) v = None.
Proof using Type.
  intros T F. apply (half_leaf (frames s) (vm s) (vm s') k); try apply F; auto. intros t. by apply (root_off s s' k).
Qed.

Lemma create_space cr3 s : fr_ok (frames s) -> bytes (vm s) ->
  tree (frames s) (vm s) (vmm_get_kernel_pml4 hhdm cr3 s) -> budget 1 (frames s) ->
  exists r s', vmm_create_user_pml4 hhdm cr3 s = (r, s') /\ r <> 0 /\ uspace s' r /\ frames s' = allocs 1 (frames s) /\
    forall v, user v -> leaf (vm s') r v = None.
Proof using HFL Hhhdm.
  intros Hok Hb T [R Hs]. specialize (R 0%nat ltac:(lia)). cbn [allocs] in *.
  destruct (create_root cr3 s Hok Hb (tr_used _ _ _ _ T 0 0 _ ltac:(lia) eq_refl) R Hs) as (phys & s' & E & F).
  exists (phys + hhdm), s'. pose proof (fo_pos _ _ _ _ F). split_and!; [done|lia| |apply F|].
  - destruct (fr_alloc (frames s)) as [ph p'] eqn:Ea. destruct (fr_alloc_law _ _ _ Hok Ea) as (Hok' & Hkeep & _).
    pose proof (fo_frames _ _ _ _ F) as Ef. rewrite Ea in Ef. cbn [snd] in *.
    assert (forall v, user v -> leaf (vm s') (phys + hhdm) v = None) as Hleaf by (intros v; exact (root_leaf s s' _ phys v T F)).
    split; rewrite ?Ef; auto.
    + rewrite <- Ef. apply (root_tree s s' _ phys T F). by rewrite Ef.
    + intros v h e Hv L. by rewrite Hleaf in L.
    + intros v v' e e' Hv _ L. by rewrite Hleaf in L.
  - intros v. exact (root_leaf s s' _ phys v T F).
Qed.

End space.
End UserSpace.
