(* ===== verification/VmmFork.v ===== *)
(** * Fork of an address space

    vmm_fork_address_space builds a second tree of page tables over the frames
    of the first one.  The proof follows the four nested loops: up to the
    address the loops have reached, parent and child map the same frames
    copy-on-write; beyond it the parent is as it was and the child is empty. *)

From Stdlib Require Import ZifyBool.
From S2P Require Import Prelude Mem Str Block Vmm VmmProps Pmm PmmSpec PmmProps PmmClaims HeapClaims VmmClaims UserSpace.
Import Pmm PmmSpec PmmProps PmmClaims HeapClaims VmmClaims Mem Str Vmm VmmProps UserSpace.

(** ** Shared frames *)

(** Taking a reference keeps the frames in use and counts one up; an
    allocation leaves the counts of the frames in use alone. *)
Class FramesShare (P : Type) `{Frames P} := {
  fr_ref_law p a : fr_ok p -> fr_used p a ->
    fr_ok (fr_ref a p) /\ (forall x, fr_used p x -> fr_used (fr_ref a p) x) /\
    (0 < fr_refcount a p < 2 ^ 32 - 1 ->
     forall x, fr_used p x -> fr_refcount x (fr_ref a p) = fr_refcount x p + (if x =? a then 1 else 0));
  fr_alloc_refs p r p' x : fr_ok p -> fr_alloc p = (r, p') -> fr_used p x -> fr_refcount x p' = fr_refcount x p
}.

Module VmmFork.

Section fork.
Context {P H : Type} `{HF : Frames P} `{HFL : !FramesLaws P} `{HFS : !FramesShare P} `{HK : Kheap H}.
Variable hhdm : Z.
Hypothesis Hhhdm : 0 <= hhdm.
Hypothesis Hpage : aligned hhdm.
Implicit Types s : vmm P H.

Notation tab := (tab hhdm).
Notation leaf := (leaf hhdm).
Notation tree := (tree hhdm).
Notation uspace := (uspace hhdm).
Notation data_page := (data_page hhdm).
Notation table_of := (Vmm.table_of hhdm).

(** ** Supply of frames *)

(** The allocator after [k] allocations and any references taken in between. *)
Inductive draws : nat -> P -> P -> Prop :=
| draws_none p : draws 0 p p
| draws_alloc k p p' : draws k p p' -> draws (S k) p (snd (fr_alloc p'))
| draws_ref k p p' a : draws k p p' -> fr_used p' a -> draws k p (fr_ref a p').

(** The next [n] allocations succeed, whatever references are taken. *)
Record supply (n : nat) (p : P) : Prop := {
  su_room : forall k p', draws k p p' -> (k < n)%nat -> fst (fr_alloc p') <> 0;
  su_small : forall k p', draws k p p' -> (k <= n)%nat -> small hhdm p'
}.

Lemma draws_grows k p p' : fr_ok p -> draws k p p' -> grows p p'.
Proof using HFL HFS.
  intros Hok D. induction D as [p|k p p' D IH|k p p' a D IH Hu]; [by split| |].
  - apply (grows_trans _ p'); [by apply IH|]. specialize (IH Hok). destruct (fr_alloc p') as [r p''] eqn:E.
    destruct (fr_alloc_law p' r p'' (gr_ok _ _ IH) E) as (? & ? & _). by split.
  - apply (grows_trans _ p'); [by apply IH|]. destruct (fr_ref_law p' a (gr_ok _ _ (IH Hok)) Hu) as (? & ? & _). by split.
Qed.

(** ** The addresses below an entry *)

(** The size of what an entry of a table at depth [d] covers. *)
Definition span (d : nat) : Z := 2 ^ (39 - 9 * Z.of_nat d).

Lemma span_pos d : (d <= 3)%nat -> 0 < span d.
Proof using Type. intros Hd. apply Z.pow_pos_nonneg; lia. Qed.

Lemma span_S d : (d <= 2)%nat -> span d = 512 * span (S d).
Proof using Type. intros Hd. unfold span. change 512 with (2 ^ 9). rewrite <- Z.pow_add_r by lia. f_equal. lia. Qed.

Lemma same_span d v v' : (d <= 3)%nat -> user v -> user v' -> same (S d) v v' <-> v / span d = v' / span d.
Proof using Type.
  intros Hd Hv Hv'. induction d as [|d IH].
  - rewrite same_S, !idx_div by lia. unfold user in *. change (span 0) with (2 ^ 39). change (39 - 9 * Z.of_nat 0) with 39.
    split; [intros [_ E]|intros E; split; [intros i Hi; lia|by rewrite E]]. Z.to_euclidean_division_equations. lia.
  - rewrite same_S, IH, !idx_div by lia. fold (span (S d)).
    assert (forall x, x / span d = x / span (S d) / 512) as Q.
    { intros x. rewrite span_S, Z.mul_comm by lia. symmetry. apply Z.div_div; [pose proof (span_pos (S d)); lia|lia]. }
    rewrite !Q. generalize (v / span (S d)), (v' / span (S d)). intros a c.
    split; [intros [? ?]; Z.to_euclidean_division_equations; lia|intros ->; done].
Qed.

(** Addresses between [b] and the end of its entry have its indices. *)
Lemma below_entry d b v : (d <= 3)%nat -> user b -> b mod span d = 0 -> user v -> same (S d) b v <-> b <= v < b + span d.
Proof using Type.
  intros Hd Hb Ha Hv. rewrite same_span by done. pose proof (span_pos d Hd) as Hs. revert Hs Ha. generalize (span d). intros z Hz Ha.
  assert (b = z * (b / z)) as Eb by (rewrite (Z.div_mod b z) at 1; lia). split; [intros E|].
  - pose proof (Z.div_mod v z ltac:(lia)). pose proof (Z.mod_pos_bound v z Hz). rewrite <- E in *. lia.
  - intros Hr. apply (Z.div_unique_pos v z (b / z) (v - b)); lia.
Qed.

Lemma end_user d b : (d <= 3)%nat -> user b -> b mod span d = 0 -> b + span d <= 2 ^ 47.
Proof using Type.
  intros Hd Hb Ha. unfold user in Hb. assert (2 ^ 47 = span d * 2 ^ (8 + 9 * Z.of_nat d)) as E.
  { unfold span. rewrite <- Z.pow_add_r by lia. f_equal. lia. }
  pose proof (span_pos d Hd) as Hs. pose proof (Z.div_mod b (span d) ltac:(lia)) as D. rewrite Ha in D.
  assert (b / span d < 2 ^ (8 + 9 * Z.of_nat d)) by (apply Z.div_lt_upper_bound; lia).
  rewrite E. generalize dependent (span d). intros z. intros. nia.
Qed.

(** The start of the region of a table at depth [S d]. *)
Definition start (d : nat) (v : Z) : Z := v / span d * span d.

Lemma start_le d v : (d <= 3)%nat -> start d v <= v.
Proof using Type. intros Hd. unfold start. pose proof (span_pos d Hd). rewrite Z.mul_comm. apply Z.mul_div_le. lia. Qed.

Lemma start_same d v v' : (d <= 3)%nat -> user v -> user v' -> same (S d) v v' -> start d v = start d v'.
Proof using Type. intros Hd Hv Hv' E. unfold start. by rewrite (proj1 (same_span d v v' Hd Hv Hv') E). Qed.

Lemma start_self d b : (d <= 3)%nat -> b mod span d = 0 -> start d b = b.
Proof using Type. intros Hd Ha. unfold start. pose proof (span_pos d Hd). pose proof (Z.div_mod b (span d) ltac:(lia)). lia. Qed.

(** ** Entries *)

(** What fork makes of a page table entry. *)
Definition share (e : Z) : Z :=
  let flags := Z.land e FLAGS_MASK in
  if has flags VMM_FLAG_DONT_FREE then Z.lor (Z.land e ADDR_MASK) flags
  else Z.lor (Z.land e ADDR_MASK) (Z.lor (clear_bits flags VMM_FLAG_WRITE) VMM_FLAG_COW).

Definition shared (l : option (bool * Z)) : option (bool * Z) :=
  match l with Some (h, e) => Some (h, share e) | None => None end.

Lemma flags_has e f : Z.land FLAGS_MASK f = f -> has (Z.land e FLAGS_MASK) f = has e f.
Proof using Type. intros E. unfold has. by rewrite <- Z.land_assoc, E. Qed.

Lemma entry_split e : 0 <= e < 2 ^ 64 -> Z.lor (Z.land e ADDR_MASK) (Z.land e FLAGS_MASK) = e.
Proof using Type.
  intros He. rewrite <- Z.land_lor_distr_r. change (Z.lor ADDR_MASK FLAGS_MASK) with (Z.ones 64).
  rewrite Z.land_ones by lia. apply Z.mod_small. lia.
Qed.

Lemma share_frame e : frame (share e) = frame e.
Proof using Type.
  unfold share, frame, clear_bits. destruct (has _ _); rewrite !Z.land_lor_distr_l, <- !Z.land_assoc.
  - change (Z.land ADDR_MASK ADDR_MASK) with ADDR_MASK. change (Z.land FLAGS_MASK ADDR_MASK) with 0. by rewrite Z.land_0_r, Z.lor_0_r.
  - change (Z.land ADDR_MASK ADDR_MASK) with ADDR_MASK.
    change (Z.land FLAGS_MASK (Z.land (u64 (Z.lnot VMM_FLAG_WRITE)) ADDR_MASK)) with 0.
    change (Z.land VMM_FLAG_COW ADDR_MASK) with 0. by rewrite Z.land_0_r, !Z.lor_0_r.
Qed.

Lemma share_has e f : Z.land ADDR_MASK f = 0 -> Z.land FLAGS_MASK f = f -> Z.land VMM_FLAG_WRITE f = 0 -> Z.land VMM_FLAG_COW f = 0 ->
  has (share e) f = has e f.
Proof using Type.
  intros E1 E2 E3 E4. unfold share. destruct (has (Z.land e FLAGS_MASK) _); unfold has, clear_bits; rewrite !Z.land_lor_distr_l, <- !Z.land_assoc, E1, Z.land_0_r, Z.lor_0_l.
  - by rewrite E2.
  - rewrite E4, Z.lor_0_r. do 2 f_equal. rewrite (Z.land_assoc FLAGS_MASK), (Z.land_comm FLAGS_MASK), <- Z.land_assoc, E2.
    f_equal. apply Z.bits_inj'. intros i Hi. rewrite Z.land_spec. unfold u64, wrap. rewrite Z.testbit_mod_pow2, Z.lnot_spec by lia.
    destruct (Z.testbit f i) eqn:Ef; [|by rewrite andb_false_r].
    assert (Z.testbit VMM_FLAG_WRITE i = false) as ->.
    { apply (f_equal (fun x => Z.testbit x i)) in E3. rewrite Z.land_spec, Z.bits_0, Ef, andb_true_r in E3. exact E3. }
    apply (f_equal (fun x => Z.testbit x i)) in E2. rewrite Z.land_spec, Ef in E2.
    destruct (Z.ltb_spec i 64); [done|]. rewrite andb_true_r in E2. rewrite (Z.bits_above_log2 FLAGS_MASK) in E2; [done|done|].
    change (Z.log2 FLAGS_MASK) with 63. lia.
Qed.

Lemma share_range e : 0 <= e < 2 ^ 64 -> 0 <= share e < 2 ^ 64.
Proof using Type.
  intros He. pose proof (mask_range e) as Ha. pose proof (flags_attrs e He) as [Hf _]. unfold share.
  destruct (has _ _); apply lor_range; try lia. apply lor_range; [|unfold VMM_FLAG_COW; lia].
  by apply attrs_clear, flags_attrs.
Qed.

(** A page that fork shares is read-only and marked. *)
Lemma share_cow e : has e VMM_FLAG_DONT_FREE = false -> has (share e) VMM_FLAG_COW = true /\ has (share e) VMM_FLAG_WRITE = false.
Proof using Type.
  intros E. unfold share. rewrite flags_has, E by done. unfold has, clear_bits. rewrite !Z.land_lor_distr_l, <- !Z.land_assoc. split.
  - apply negb_true_iff, Z.eqb_neq. intros X. apply Z.lor_eq_0_iff in X as [_ X]. by apply Z.lor_eq_0_iff in X as [_ X].
  - change (Z.land ADDR_MASK VMM_FLAG_WRITE) with 0. change (Z.land (u64 (Z.lnot VMM_FLAG_WRITE)) VMM_FLAG_WRITE) with 0.
    change (Z.land VMM_FLAG_COW VMM_FLAG_WRITE) with 0. by rewrite !Z.land_0_r.
Qed.

Lemma share_fixed e : 0 <= e < 2 ^ 64 -> has e VMM_FLAG_DONT_FREE = true -> share e = e.
Proof using Type. intros He E. unfold share. rewrite flags_has, E by done. by apply entry_split. Qed.

(** ** The state of the loops *)

Lemma user_idx v : user v -> idx 0 v <= 255.
Proof using Type.
  intros Hv. rewrite idx_div by lia. unfold user in Hv. change (39 - 9 * Z.of_nat 0) with 39. Z.to_euclidean_division_equations. lia.
Qed.

Lemma leaf_at m x v t : tab m x 3 v = Some t ->
  leaf m x v = if has (entry t (idx 3 v) m) VMM_FLAG_PRESENT then Some (false, entry t (idx 3 v) m) else None.
Proof using Type.
  change (tab m x 3 v) with (match tab m x 2 v with None => None | Some t => let e := entry t (idx 2 v) m in if live e then Some (table_of e) else None end).
  unfold VmmProps.leaf. destruct (tab m x 2 v) as [pd|]; [|done]. cbv zeta. destruct (live _) eqn:E; [|done]. intros [= <-].
  apply live_true in E as [-> ->]. cbn [negb]. by destruct (has _ _).
Qed.

(** Writing to a page that holds no table of the tree. *)
Lemma frame_put p m x t0 i y : 0 <= i <= 511 -> 0 <= y < 2 ^ 64 -> (forall d v t, (d <= 3)%nat -> tab m x d v = Some t -> off t t0) ->
  tree p m x -> let m' := set_entry t0 i y m in
  tree p m' x /\ (forall d v, (d <= 3)%nat -> tab m' x d v = tab m x d v) /\ (forall v, leaf m' x v = leaf m x v).
Proof using Type.
  intros Hi Hy Ho T m'. pose proof (set_entry_sets m t0 i y Hi Hy) as Se.
  assert (forall d v t j, (d <= 3)%nat -> tab m x d v = Some t -> 0 <= j <= 511 -> entry t j m' = entry t j m) as Hf.
  { intros d v t j Hd Ht Hj. apply (se_other _ _ _ _ _ Se t j Hj). right. by apply (Ho d v). }
  destruct (tree_frame hhdm p m m' x Hf T) as [T' L]. split_and!; auto. intros d v Hd. apply tab_frame; [exact Hf|lia].
Qed.

(** A table is not in a page that is not in use. *)
Lemma unused_off p t phys : is_table hhdm p t -> aligned phys -> ~ fr_used p phys -> off t (phys + hhdm).
Proof using Type. intros [(ph & -> & Hu & Ha & _)] Hp Hn. apply page_off; [done|done|]. intros ->. by apply Hn. Qed.

Section run.
Variables (s0 : vmm P H) (pr nt : Z) (N : nat).
Hypothesis U : uspace s0 pr.
Hypothesis Hsup : supply N (frames s0).
Hypothesis Hcount : forall v e, user v -> leaf (vm s0) pr v = Some (false, e) -> has e VMM_FLAG_DONT_FREE = false ->
  0 < fr_refcount (frame e) (frames s0) < 2 ^ 32 - 1.

(** A page that was not in use before. *)
Definition fresh (t : Z) : Prop := exists ph, t = ph + hhdm /\ aligned ph /\ ~ fr_used (frames s0) ph.

(** The parent's pages below [bp] are shared, the child has those below [bc],
    and its tables cover what it has and, down to depth [d], the page at
    [bc]. *)
Record forking (d : nat) (bp bc : Z) (k : nat) (s : vmm P H) : Prop := {
  fk_draws : draws k (frames s0) (frames s);
  fk_bytes : bytes (vm s);
  fk_tree : tree (frames s) (vm s) pr;
  fk_tab : forall d v, (d <= 3)%nat -> tab (vm s) pr d v = tab (vm s0) pr d v;
  fk_entry : forall d v t i, (d <= 2)%nat -> tab (vm s0) pr d v = Some t -> 0 <= i <= 511 -> entry t i (vm s) = entry t i (vm s0);
  fk_leaf : forall v, user v -> leaf (vm s) pr v = if v <? bp then shared (leaf (vm s0) pr v) else leaf (vm s0) pr v;
  fk_ctree : tree (frames s) (vm s) nt;
  fk_cleaf : forall v, user v -> leaf (vm s) nt v = if v <? bc then shared (leaf (vm s0) pr v) else None;
  fk_fresh : forall d v t, (d <= 3)%nat -> idx 0 v <= 255 -> tab (vm s) nt d v = Some t -> fresh t;
  fk_kernel : forall d v, (S d <= 3)%nat -> 256 <= idx 0 v -> tab (vm s) nt (S d) v = tab (vm s0) pr (S d) v;
  fk_front : forall d' v t, (S d' <= 3)%nat -> user v -> tab (vm s) nt (S d') v = Some t ->
    start d' v < bc \/ ((S d' <= d)%nat /\ same (S d') v bc);
  fk_data : forall q i, data_page (frames s0) (vm s0) pr q -> 0 <= i < 4096 -> vm s (q + hhdm + i) = vm s0 (q + hhdm + i);
  fk_refs : forall v e, user v -> leaf (vm s0) pr v = Some (false, e) -> has e VMM_FLAG_DONT_FREE = false ->
    fr_refcount (frame e) (frames s) = fr_refcount (frame e) (frames s0) + (if v <? bp then 1 else 0)
}.

Lemma fk_grows d bp bc k s : forking d bp bc k s -> grows (frames s0) (frames s).
Proof using HFL HFS U. intros F. apply (draws_grows k); [apply U|apply F]. Qed.

Lemma fresh_parent d v t t' : (d <= 3)%nat -> tab (vm s0) pr d v = Some t -> fresh t' -> off t t'.
Proof using U.
  intros Hd Ht (ph & -> & Ha & Hn). apply (unused_off (frames s0)); [|done|done]. by apply (tr_used _ _ _ _ (us_tree _ _ _ U) d v).
Qed.

Lemma fresh_data q t : data_page (frames s0) (vm s0) pr q -> fresh t -> off t (q + hhdm).
Proof using Type. intros [A _ Hu _] (ph & -> & Ha & Hn). apply page_off; [done|done|]. intros ->. by apply Hn. Qed.

Lemma frame_off_sym t t' : off t t' -> off t' t.
Proof using Type. unfold off. lia. Qed.

(** The child's tables are apart from the parent's page tables. *)
Lemma child_off dd bp bc k s d v t b src : forking dd bp bc k s -> (d <= 3)%nat -> tab (vm s) nt d v = Some t ->
  user b -> tab (vm s0) pr 3 b = Some src -> off t src.
Proof using U.
  intros F Hd Ht Hb Hsrc. destruct (decide (idx 0 v <= 255)) as [Hi|Hi].
  { apply frame_off_sym, (fresh_parent 3 b); auto. by apply (fk_fresh _ _ _ _ _ F d v). }
  destruct d as [|d].
  { apply frame_off_sym, (fresh_parent 3 b); auto. apply (fk_fresh _ _ _ _ _ F 0 b); [lia|by apply user_idx|done]. }
  rewrite (fk_kernel _ _ _ _ _ F d v ltac:(lia) ltac:(lia)) in Ht.
  destruct (tr_apart _ _ _ _ (us_tree _ _ _ U) (S d) 3 v b t src ltac:(lia) ltac:(lia) Ht Hsrc) as [[_ E]|]; [|done].
  pose proof (user_idx b Hb). rewrite (E 0%nat) in Hi by lia. lia.
Qed.

(** The parent's tables are apart from the child's tables for user pages. *)
Lemma parent_off dd bp bc k s d v t d' b dst : forking dd bp bc k s -> (d <= 3)%nat -> (d' <= 3)%nat -> tab (vm s) pr d v = Some t ->
  user b -> tab (vm s) nt d' b = Some dst -> off t dst.
Proof using U.
  intros F Hd Hd' Ht Hb Hdst. rewrite (fk_tab _ _ _ _ _ F) in Ht by lia. apply (fresh_parent d v); auto.
  apply (fk_fresh _ _ _ _ _ F d' b); [done|by apply user_idx|done].
Qed.

(** Nothing to share between [b] and [b']. *)
Lemma fork_skip d b b' k s : forking d b b k s -> user b -> b < b' ->
  (forall v, user v -> b <= v < b' -> leaf (vm s0) pr v = None) -> forking 0 b' b' k s.
Proof using Type.
  intros F Hu Hb Hn. split; try apply F; auto.
  - intros v Hv. rewrite (fk_leaf _ _ _ _ _ F) by done. repeat case_bool; try lia; try done. by rewrite Hn by (done || lia).
  - intros v Hv. rewrite (fk_cleaf _ _ _ _ _ F) by done. repeat case_bool; try lia; try done. by rewrite Hn by (done || lia).
  - intros d' v t Hd Hv Ht. left. destruct (fk_front _ _ _ _ _ F d' v t Hd Hv Ht) as [|[_ E]]; [lia|].
    rewrite (start_same d' v b) by (done || lia). pose proof (start_le d' b ltac:(lia)). lia.
  - intros v e Hv L Hf. rewrite (fk_refs _ _ _ _ _ F v e Hv L Hf). repeat case_bool; try lia. by rewrite Hn in L by (done || lia).
Qed.

Lemma page_span b v : user b -> aligned b -> user v -> same 4 b v <-> b <= v < b + 4096.
Proof using Type. intros Hb Ha Hv. apply (below_entry 3); auto. Qed.

(** The frame of a mapped page is in use. *)
Lemma leaf_used v e : user v -> leaf (vm s0) pr v = Some (false, e) -> data_page (frames s0) (vm s0) pr (frame e).
Proof using U. intros Hv L. by apply (us_data _ _ _ U v false e). Qed.

Section page.
Variables (d k : nat) (b src e : Z) (s : vmm P H).
Hypothesis Hb : user b.
Hypothesis Ha : aligned b.
Hypothesis L : leaf (vm s0) pr b = Some (false, e).
Hypothesis He : 0 <= e < 2 ^ 64.
Hypothesis Hp : has e VMM_FLAG_PRESENT = true.

Lemma page_leaf v : user v -> b <= v < b + 4096 -> leaf (vm s0) pr v = Some (false, e).
Proof using Hb Ha L. intros Hv Hr. rewrite <- L. symmetry. apply leaf_same. by apply page_span. Qed.

Lemma fork_dont_free : forking d b b k s -> has e VMM_FLAG_DONT_FREE = true -> forking d (b + 4096) b k s.
Proof using Hb Ha L He Hp.
  intros F E. split; try apply F.
  - intros v Hv. rewrite (fk_leaf _ _ _ _ _ F) by done. repeat case_bool; try lia; try done.
    rewrite page_leaf by (done || lia). cbn. by rewrite share_fixed.
  - intros v e' Hv L' Hf. rewrite (fk_refs _ _ _ _ _ F v e' Hv L' Hf). repeat case_bool; try lia.
    rewrite page_leaf in L' by (done || lia). injection L' as <-. by rewrite E in Hf.
Qed.

Lemma fork_parent : forking d b b k s -> has e VMM_FLAG_DONT_FREE = false -> tab (vm s0) pr 3 b = Some src ->
  forking d (b + 4096) b k (put src (idx 3 b) (share e) (s <| frames := fr_ref (frame e) (frames s) |>)).
Proof using HFL HFS U Hcount Hb Ha L He Hp.
  intros F E Ht. pose proof (fk_grows _ _ _ _ _ F) as [Gok Gu]. pose proof (leaf_used b e Hb L) as D.
  assert (fr_used (frames s) (frame e)) as Hus by (apply Gu, D).
  destruct (fr_ref_law (frames s) (frame e) Gok Hus) as (Hok' & Hu' & Hrc).
  assert (fr_refcount (frame e) (frames s) = fr_refcount (frame e) (frames s0)) as Ec.
  { rewrite (fk_refs _ _ _ _ _ F b e Hb L E). case_bool; lia. }
  specialize (Hrc ltac:(rewrite Ec; by apply (Hcount b))).
  assert (has (share e) VMM_FLAG_PRESENT = true) as Hps by (by rewrite share_has).
  assert (tab (vm s) pr 3 b = Some src) as Hts by (by rewrite (fk_tab _ _ _ _ _ F)).
  pose proof (set_entry_sets (vm s) src (idx 3 b) (share e) (idx_range 3 b) (share_range e He)) as Se.
  destruct (leaf_set hhdm _ _ _ pr b src _ (fk_tree _ _ _ _ _ F) Hts Se) as (T1 & Et & L1).
  destruct (frame_put (frames s) (vm s) nt src (idx 3 b) (share e) (idx_range 3 b) (share_range e He)
    ltac:(intros d' v t Hd' Ht'; by apply (child_off d b b k s d' v t b)) (fk_ctree _ _ _ _ _ F)) as (T2 & Et2 & L2).
  set (m' := set_entry src (idx 3 b) (share e) (vm s)) in *. set (s' := put _ _ _ _).
  assert (vm s' = m') as Ev by done. assert (frames s' = fr_ref (frame e) (frames s)) as Ef by done. clearbody s'.
  split; rewrite ?Ef, ?Ev.
  - by apply draws_ref; [apply F|].
  - apply store_bytes, F.
  - by apply (tree_mono hhdm (frames s)).
  - intros d' v Hd'. rewrite Et by done. by apply F.
  - intros d' v t i Hd' Ht' Hi. assert (off t src) as Ho.
    { destruct (tr_apart _ _ _ _ (us_tree _ _ _ U) d' 3 v b t src ltac:(lia) ltac:(lia) Ht' Ht) as [[]|]; [lia|done]. }
    rewrite (se_other _ _ _ _ _ Se t i Hi (or_intror Ho)). by apply (fk_entry _ _ _ _ _ F d' v).
  - intros v Hv. rewrite L1, Hps. cbn [negb]. destruct (decide (same 4 b v)) as [S|S]; rewrite page_span in S by done.
    + case_bool; [|lia]. by rewrite page_leaf.
    + rewrite (fk_leaf _ _ _ _ _ F) by done. repeat case_bool; try lia; done.
  - by apply (tree_mono hhdm (frames s)).
  - intros v Hv. rewrite L2. by apply F.
  - intros d' v t Hd' Hi Ht'. rewrite Et2 in Ht' by done. by apply (fk_fresh _ _ _ _ _ F d' v).
  - intros d' v Hd' Hi. rewrite Et2 by done. by apply F.
  - intros d' v t Hd' Hv Ht'. rewrite Et2 in Ht' by done. by apply (fk_front _ _ _ _ _ F d' v t).
  - intros q i Dq Hi. unfold m', set_entry. rewrite store_outside; [by apply F|].
    pose proof (dp_off _ _ _ _ _ Dq 3 b src ltac:(lia) Ht) as Ho. pose proof (idx_range 3 b). unfold off in Ho. cbn. lia.
  - intros v e' Hv L' Hf. pose proof (leaf_used v e' Hv L') as D'. rewrite Hrc by (apply Gu, D').
    rewrite (fk_refs _ _ _ _ _ F v e' Hv L' Hf). destruct (Z.eqb_spec (frame e') (frame e)) as [Eq|Nf].
    + pose proof (us_inj _ _ _ U v b e' e Hv Hb L' L Eq) as Es. rewrite (in_page b v Ha) in Es. repeat case_bool; lia.
    + assert (~ b <= v < b + 4096) by (intros Hr; rewrite page_leaf in L' by done; congruence). repeat case_bool; lia.
Qed.

Lemma fork_child dst : forking d (b + 4096) b k s -> tab (vm s) nt 3 b = Some dst ->
  let s' := put dst (idx 3 b) (share e) s in
  forking 0 (b + 4096) (b + 4096) k s' /\ (forall d' v, (d' <= 3)%nat -> tab (vm s') nt d' v = tab (vm s) nt d' v).
Proof using U Hb Ha L He Hp.
  intros F Ht s'. assert (has (share e) VMM_FLAG_PRESENT = true) as Hps by (by rewrite share_has).
  pose proof (set_entry_sets (vm s) dst (idx 3 b) (share e) (idx_range 3 b) (share_range e He)) as Se.
  destruct (leaf_set hhdm _ _ _ nt b dst _ (fk_ctree _ _ _ _ _ F) Ht Se) as (T1 & Et & L1).
  assert (fresh dst) as Hf by (by apply (fk_fresh _ _ _ _ _ F 3 b); [|apply user_idx|]).
  destruct (frame_put (frames s) (vm s) pr dst (idx 3 b) (share e) (idx_range 3 b) (share_range e He)
    ltac:(intros d' v t Hd' Ht'; apply (parent_off d (b + 4096) b k s d' v t 3 b); auto) (fk_tree _ _ _ _ _ F)) as (T2 & Et2 & L2).
  split; [|exact Et]. set (m' := set_entry dst (idx 3 b) (share e) (vm s)) in *.
  assert (vm s' = m') as Ev by done. assert (frames s' = frames s) as Ef by done. clearbody s'.
  split; rewrite ?Ef, ?Ev; try apply F; auto.
  - apply store_bytes, F.
  - intros d' v Hd'. rewrite Et2 by done. by apply F.
  - intros d' v t i Hd' Ht' Hi. assert (off t dst) as Ho by (apply (fresh_parent d' v); auto with lia).
    rewrite (se_other _ _ _ _ _ Se t i Hi (or_intror Ho)). by apply (fk_entry _ _ _ _ _ F d' v).
  - intros v Hv. rewrite L2. by apply F.
  - intros v Hv. rewrite L1, Hps. cbn [negb]. destruct (decide (same 4 b v)) as [S|S]; rewrite page_span in S by done.
    + case_bool; [|lia]. by rewrite page_leaf.
    + rewrite (fk_cleaf _ _ _ _ _ F) by done. repeat case_bool; try lia; done.
  - intros d' v t Hd' Hi Ht'. rewrite Et in Ht' by done. by apply (fk_fresh _ _ _ _ _ F d' v).
  - intros d' v Hd' Hi. rewrite Et by done. by apply F.
  - intros d' v t Hd' Hv Ht'. rewrite Et in Ht' by done. left. destruct (fk_front _ _ _ _ _ F d' v t Hd' Hv Ht') as [|[_ Es]]; [lia|].
    rewrite (start_same d' v b) by (done || lia). pose proof (start_le d' b ltac:(lia)). lia.
  - intros q i Dq Hi. unfold m', set_entry. rewrite store_outside; [by apply F|].
    pose proof (fresh_data q dst Dq Hf) as Ho. pose proof (idx_range 3 b). unfold off in Ho. cbn. lia.
Qed.
End page.

(** ** Steps of the loops *)

Definition keeps_tabs s s' : Prop := forall d v t, (d <= 3)%nat -> tab (vm s) nt d v = Some t -> tab (vm s') nt d v = Some t.

(** A round of the innermost loop. *)
Lemma pte_step b k s src dst : forking 3 b b k s -> user b -> aligned b -> tab (vm s0) pr 3 b = Some src -> tab (vm s) nt 3 b = Some dst ->
  let s' := fork_pte src dst (idx 3 b) s in forking 0 (b + 4096) (b + 4096) k s' /\ keeps_tabs s s'.
Proof using HFL HFS U Hcount.
  intros F Hb Ha Ht Hdst s'. assert (tab (vm s) pr 3 b = Some src) as Hts by (by rewrite (fk_tab _ _ _ _ _ F)).
  pose proof (leaf_at (vm s) pr b src Hts) as L. rewrite (fk_leaf _ _ _ _ _ F), Z.ltb_irrefl in L by done.
  unfold s', fork_pte, get. set (e := entry src (idx 3 b) (vm s)) in *.
  assert (0 <= e < 2 ^ 64) as He by (apply (load_range 8), F).
  destruct (has e VMM_FLAG_PRESENT) eqn:Hp; cbn [negb].
  2: { split; [|by intros d v t _ Hv]. apply (fork_skip 3 b); auto; [lia|]. intros v Hv Hr. rewrite <- L. symmetry. apply leaf_same. by apply page_span. }
  rewrite flags_has by done. destruct (has e VMM_FLAG_DONT_FREE) eqn:Hf; cbn [negb].
  - assert (Z.lor (Z.land e ADDR_MASK) (Z.land e FLAGS_MASK) = share e) as -> by (unfold share; by rewrite flags_has, Hf).
    destruct (fork_child 3 k b e s Hb Ha L He Hp dst (fork_dont_free 3 k b e s Hb Ha L He Hp F Hf) Hdst) as [F' E].
    split; [exact F'|]. intros d v t Hd Hv. by rewrite E.
  - cbv zeta. assert (Z.lor (Z.land e ADDR_MASK) (Z.lor (clear_bits (Z.land e FLAGS_MASK) VMM_FLAG_WRITE) VMM_FLAG_COW) = share e) as ->
      by (unfold share; by rewrite flags_has, Hf).
    pose proof (fork_parent 3 k b src e s Hb Ha L He Hp F Hf Ht) as F1. set (s1 := put src _ _ _) in F1.
    assert (forall d v, (d <= 3)%nat -> tab (vm s1) nt d v = tab (vm s) nt d v) as E1.
    { apply (frame_put (frames s) (vm s) nt src (idx 3 b) (share e) (idx_range 3 b) (share_range e He)); [|apply F].
      intros d' v t Hd' Ht'. by apply (child_off 3 b b k s d' v t b). }
    assert (tab (vm s1) nt 3 b = Some dst) as Hd1 by (by rewrite E1).
    destruct (fork_child 3 k b e s1 Hb Ha L He Hp dst F1 Hd1) as [F' E]. split; [exact F'|].
    intros d v t Hd Hv. rewrite <- Hv, <- E1 by done. by apply E.
Qed.

(** The entry of a new table. *)
Lemma new_entry phys e : aligned phys -> 0 < phys < 2 ^ 52 -> phys + hhdm < 2 ^ 64 -> live e = true ->
  let x := Z.lor phys (Z.land e 0xFFF) in live x = true /\ table_of x = phys + hhdm /\ 0 <= x < 2 ^ 64.
Proof using Hhhdm.
  intros Ha Hp Hv Hl x. assert (0 <= Z.land e 0xFFF < 4096) as Hg.
  { change 0xFFF with (Z.ones 12). rewrite Z.land_ones by lia. apply Z.mod_pos_bound. lia. }
  split_and!; [|unfold x, Vmm.table_of, vmm_phys_to_virt; rewrite page_field by (lia || done); apply wrap_small; lia|..].
  - unfold live, x in *. rewrite !page_flag by (done || lia). unfold has in *. rewrite <- !Z.land_assoc. exact Hl.
  - unfold x. rewrite page_lor by done. lia.
  - unfold x. rewrite page_lor by done. lia.
Qed.

(** No table of the child is where the loops are. *)
Lemma fork_absent d b k s dst : (d <= 2)%nat -> forking d b b k s -> user b -> b mod span d = 0 -> tab (vm s) nt d b = Some dst ->
  has (entry dst (idx d b) (vm s)) VMM_FLAG_PRESENT = false.
Proof using Type.
  intros Hd F Hb Ha Ht. set (e := entry dst (idx d b) (vm s)). destruct (has e VMM_FLAG_PRESENT) eqn:Ep; [exfalso|done].
  destruct (has e VMM_FLAG_HUGE) eqn:Eh.
  - destruct (decide (d = 2%nat)) as [->|].
    + pose proof (fk_cleaf _ _ _ _ _ F b Hb) as L. rewrite Z.ltb_irrefl in L. unfold VmmProps.leaf in L. rewrite Ht in L. fold e in L.
      by rewrite Ep, Eh in L.
    + pose proof (tr_small _ _ _ _ (fk_ctree _ _ _ _ _ F) d b dst ltac:(lia) Ht Ep) as X. fold e in X. congruence.
  - assert (tab (vm s) nt (S d) b = Some (table_of e)) as Ht'.
    { change (tab (vm s) nt (S d) b) with (match tab (vm s) nt d b with None => None | Some t => let e := entry t (idx d b) (vm s) in if live e then Some (table_of e) else None end).
      rewrite Ht. cbv zeta. fold e. by rewrite (proj2 (live_true e)). }
    destruct (fk_front _ _ _ _ _ F d b _ ltac:(lia) Hb Ht') as [X|[X _]]; [|lia]. rewrite start_self in X by (done || lia). lia.
Qed.

(** A page of zeros. *)
Lemma zeroed m t a : ~ t <= a < t + 4096 -> snd (memset t 0 4096 m) a = m a.
Proof using Type. intros Hn. rewrite memset_at by lia. case_bool; [lia|done]. Qed.

(** A new table of the child. *)
Section table.
Variables (d k : nat) (b dst e phys : Z) (p' : P) (s : vmm P H).
Hypothesis Hd : (d <= 2)%nat.
Hypothesis F : forking d b b k s.
Hypothesis Hb : user b.
Hypothesis Hal : b mod span d = 0.
Hypothesis Ht : tab (vm s) nt d b = Some dst.
Hypothesis Hl : live e = true.
Hypothesis Ea : fr_alloc (frames s) = (phys, p').
Hypothesis Hp : phys <> 0.
Hypothesis Hs : small hhdm p'.

Let t' := phys + hhdm.
Let m1 := snd (memset t' 0 4096 (vm s)).
Let x := Z.lor phys (Z.land e 0xFFF).
Let m2 := set_entry dst (idx d b) x m1.

Lemma table_frame : 0 < phys < 2 ^ 52 /\ phys + hhdm < 2 ^ 64 /\ aligned phys /\ ~ fr_used (frames s) phys /\
  (forall a, fr_used (frames s) a -> fr_used p' a) /\ fresh t' /\ is_table hhdm p' t'.
Proof using HFL HFS U F Ea Hp Hs.
  pose proof (fk_grows _ _ _ _ _ F) as [Gok Gu]. destruct (fr_alloc_law _ _ _ Gok Ea) as (_ & Hkeep & Hnew).
  destruct (Hnew Hp) as (Hp0 & Hpal & Hfresh & Hused). destruct (Hs phys Hused) as [Hlim Hlim']. split_and!; auto.
  - exists phys. split_and!; auto.
  - split. exists phys. split_and!; auto.
Qed.

Lemma table_x : live x = true /\ table_of x = t' /\ 0 <= x < 2 ^ 64.
Proof using HFL HFS Hhhdm U F Ea Hp Hs Hl. destruct table_frame as (H1 & H2 & H3 & _). by apply new_entry. Qed.

Lemma table_sets : sets m1 m2 dst (idx d b) x.
Proof using HFL HFS Hhhdm U F Ea Hp Hs Hl. apply set_entry_sets; [apply idx_range|apply table_x]. Qed.

Lemma table_off d0 v0 t0 : (d0 <= 3)%nat -> tab (vm s) nt d0 v0 = Some t0 -> off t0 t'.
Proof using HFL HFS U F Ea Hp Hs.
  intros Hd0 Ht0. destruct table_frame as (_ & _ & H3 & H4 & _). apply (unused_off (frames s)); [|done|done].
  by apply (tr_used _ _ _ _ (fk_ctree _ _ _ _ _ F) d0 v0).
Qed.

Lemma table_child : tree p' m2 nt /\ (forall v, leaf m2 nt v = leaf (vm s) nt v) /\
  forall d0 v0, (d0 <= 3)%nat -> (tab m2 nt d0 v0 = tab (vm s) nt d0 v0 /\ ~ ((S d <= d0)%nat /\ same (S d) b v0)) \/
    ((S d <= d0)%nat /\ same (S d) b v0 /\ tab (vm s) nt d0 v0 = None /\ tab m2 nt d0 v0 = if decide (d0 = S d) then Some t' else None).
Proof using HFL HFS Hhhdm U Hd F Hb Hal Ht Hl Ea Hp Hs.
  destruct table_frame as (H1 & H2 & H3 & H4 & Hkeep & Hf & Hnt). destruct table_x as (Hx & Hxt & _).
  assert (forall d v t i, (d <= 3)%nat -> tab (vm s) nt d v = Some t -> 0 <= i <= 511 -> entry t i m1 = entry t i (vm s)) as Hc.
  { intros d0 v0 t0 i Hd0 Ht0 Hi. apply memset_off; [done|by apply (table_off d0 v0)]. }
  destruct (tree_frame hhdm _ _ _ nt Hc (fk_ctree _ _ _ _ _ F)) as [T1 L1].
  assert (forall d v, (d <= 3)%nat -> tab m1 nt d v = tab (vm s) nt d v) as E1 by (intros d0 v0 Hd0; apply tab_frame; [exact Hc|lia]).
  assert (tab m1 nt d b = Some dst) as Ht1 by (rewrite E1 by lia; done).
  assert (has (entry dst (idx d b) m1) VMM_FLAG_PRESENT = false) as Habs.
  { rewrite (Hc d b dst) by (auto; try lia; apply idx_range). by apply (fork_absent d b k). }
  assert (forall i, 0 <= i <= 511 -> entry t' i m2 = 0) as Hzero.
  { intros i Hi. rewrite (se_other _ _ _ _ _ table_sets t' i Hi) by (right; apply frame_off_sym, (table_off d b); [lia|done]). by apply memset_zero. }
  assert (forall t0, is_table hhdm (frames s) t0 -> off t0 t') as Hoff by (intros t0 Ht0; by apply (unused_off (frames s))).
  split_and!.
  - by apply (fresh_tree hhdm (frames s) p' m1 m2 nt d b dst x t' T1 Hkeep Hnt Hoff Hd Ht1 Habs table_sets Hx Hxt).
  - intros v. rewrite (fresh_leaf hhdm (frames s) m1 m2 nt d b dst x t' T1 Hd Ht1 Habs table_sets Hx Hxt Hzero). apply L1.
  - intros d0 v0 Hd0. rewrite <- E1 by done. exact (fresh_tab hhdm (frames s) m1 m2 nt d b dst x t' T1 Hd Ht1 Habs table_sets Hx Hxt Hzero d0 v0 Hd0).
Qed.

Lemma table_parent : tree p' m2 pr /\ (forall v, leaf m2 pr v = leaf (vm s) pr v) /\
  (forall d v, (d <= 3)%nat -> tab m2 pr d v = tab (vm s) pr d v) /\
  (forall d v t i, (d <= 3)%nat -> tab (vm s) pr d v = Some t -> 0 <= i <= 511 -> entry t i m2 = entry t i (vm s)).
Proof using HFL HFS Hhhdm U Hd F Hb Ht Hl Ea Hp Hs.
  destruct table_frame as (_ & _ & _ & _ & Hkeep & Hf & _).
  assert (forall d v t i, (d <= 3)%nat -> tab (vm s) pr d v = Some t -> 0 <= i <= 511 -> entry t i m2 = entry t i (vm s)) as Hc.
  { intros d0 v0 t0 i Hd0 Ht0 Hi. rewrite (se_other _ _ _ _ _ table_sets t0 i Hi)
      by (right; apply (parent_off d b b k s d0 v0 t0 d b); auto; lia).
    apply memset_off; [done|]. rewrite (fk_tab _ _ _ _ _ F) in Ht0 by lia. by apply (fresh_parent d0 v0). }
  destruct (tree_frame hhdm _ _ _ pr Hc (fk_tree _ _ _ _ _ F)) as [T L]. split_and!; [by apply (tree_mono hhdm (frames s))|exact L| |exact Hc].
  intros d0 v0 Hd0. apply tab_frame; [exact Hc|lia].
Qed.

Lemma table_data q i : data_page (frames s0) (vm s0) pr q -> 0 <= i < 4096 -> m2 (q + hhdm + i) = vm s (q + hhdm + i).
Proof using HFL HFS U Hd F Hb Ht Hl Ea Hp Hs.
  intros D Hi. destruct table_frame as (_ & _ & _ & _ & _ & Hf & _).
  assert (fresh dst) as Hfd by (apply (fk_fresh _ _ _ _ _ F d b); [lia|by apply user_idx|done]).
  pose proof (fresh_data q dst D Hfd) as O1. pose proof (fresh_data q t' D Hf) as O2. pose proof (idx_range d b). unfold off in *.
  transitivity (m1 (q + hhdm + i)); [apply store_outside; cbn; lia|]. apply zeroed. lia.
Qed.

Lemma table_forking s2 : vm s2 = m2 -> frames s2 = p' -> forking (S d) b b (S k) s2.
Proof using HFL HFS Hhhdm U Hd F Hb Hal Ht Hl Ea Hp Hs.
  intros Ev Ef. destruct table_frame as (_ & _ & _ & _ & Hkeep & Hf & _). destruct table_child as (T1 & L1 & Ftab).
  destruct table_parent as (T2 & L2 & E2 & Ee). pose proof (fk_grows _ _ _ _ _ F) as [Gok Gu]. split; rewrite ?Ef, ?Ev; auto.
  - pose proof (draws_alloc _ _ _ (fk_draws _ _ _ _ _ F)) as D. by rewrite Ea in D.
  - apply store_bytes. intros a. unfold m1. rewrite memset_at by lia. pose proof (fk_bytes _ _ _ _ _ F a). case_bool; [by change (u8 0) with 0|done].
  - intros d0 v0 Hd0. rewrite E2 by done. by apply F.
  - intros d0 v0 t0 i Hd0 Ht0 Hi. rewrite (Ee d0 v0) by (try rewrite (fk_tab _ _ _ _ _ F); auto; lia). by apply (fk_entry _ _ _ _ _ F d0 v0).
  - intros v0 Hv0. rewrite L2. by apply F.
  - intros v0 Hv0. rewrite L1. by apply F.
  - intros d0 v0 t0 Hd0 Hi Ht0. destruct (Ftab d0 v0 Hd0) as [[E _]|(_ & _ & _ & E)]; rewrite E in Ht0.
    + by apply (fk_fresh _ _ _ _ _ F d0 v0).
    + destruct (decide _); [|done]. by injection Ht0 as <-.
  - intros d0 v0 Hd0 Hi. destruct (Ftab (S d0) v0 Hd0) as [[E _]|(_ & X & _)]; [rewrite E; by apply F|].
    pose proof (user_idx b Hb). rewrite (X 0%nat) in * by lia. lia.
  - intros d0 v0 t0 Hd0 Hv0 Ht0. destruct (Ftab (S d0) v0 Hd0) as [[E _]|(_ & X & _ & E)]; rewrite E in Ht0.
    + destruct (fk_front _ _ _ _ _ F d0 v0 t0 Hd0 Hv0 Ht0) as [|[? ?]]; [by left|right; split; [lia|done]].
    + right. destruct (decide (S d0 = S d)) as [Eq|]; [|done]. rewrite Eq. split; [lia|by apply same_sym].
  - intros q i D Hi. rewrite table_data by done. by apply F.
  - intros v0 e0 Hv0 L0 H0. rewrite (fr_alloc_refs _ _ _ _ Gok Ea); [by apply F|]. apply Gu. by apply (leaf_used v0 e0).
Qed.
End table.

Lemma fork_table d b k s dst e : (d <= 2)%nat -> forking d b b k s -> user b -> b mod span d = 0 -> (k < N)%nat ->
  tab (vm s) nt d b = Some dst -> live e = true ->
  exists t' s1, alloc_page_table hhdm s = (t', s1) /\ t' <> 0 /\
    (forall d v t i, (d <= 3)%nat -> tab (vm s0) pr d v = Some t -> 0 <= i <= 511 -> entry t i (vm s1) = entry t i (vm s)) /\
    let s2 := put dst (idx d b) (Z.lor (vmm_virt_hhdm_to_phys hhdm t') (Z.land e 0xFFF)) s1 in
    forking (S d) b b (S k) s2 /\ tab (vm s2) nt (S d) b = Some t' /\ keeps_tabs s s2.
Proof using HFL HFS Hhhdm U Hsup.
  intros Hd F Hb Hal Hk Ht Hl. pose proof (su_room _ _ Hsup _ _ (fk_draws _ _ _ _ _ F) Hk) as R.
  pose proof (su_small _ _ Hsup _ _ (draws_alloc _ _ _ (fk_draws _ _ _ _ _ F)) ltac:(lia)) as Hs.
  unfold alloc_page_table, alloc_frame. destruct (fr_alloc (frames s)) as [phys p'] eqn:Ea. cbn [fst snd] in *.
  rewrite (proj2 (Z.eqb_neq phys 0) R). destruct (table_frame d k b phys p' s F Ea R Hs) as (H1 & H2 & _ & _ & _ & Hf & _).
  assert (vmm_phys_to_virt hhdm phys = phys + hhdm) as -> by (apply wrap_small; lia).
  exists (phys + hhdm). eexists. split; [reflexivity|]. split; [lia|]. split.
  { intros d0 v t i Hd0 Ht0 Hi. apply memset_off; [done|]. by apply (fresh_parent d0 v). }
  cbv zeta. assert (vmm_virt_hhdm_to_phys hhdm (phys + hhdm) = phys) as -> by (unfold vmm_virt_hhdm_to_phys; rewrite wrap_small; lia).
  destruct (table_child d k b dst e phys p' s Hd F Hb Hal Ht Hl Ea R Hs) as (_ & _ & Ftab).
  split; [by apply (table_forking d k b dst e phys p' s Hd F Hb Hal Ht Hl Ea R Hs)|]. split.
  - destruct (Ftab (S d) b ltac:(lia)) as [[_ X]|(_ & _ & _ & E)]; [exfalso; apply X; split; [lia|done]|]. destruct (decide _); done.
  - intros d0 v0 t0 Hd0 Ht0. destruct (Ftab d0 v0 Hd0) as [[E _]|(_ & _ & X & _)]; [by rewrite <- Ht0|by rewrite X in Ht0].
Qed.

(** ** The loops *)

Fixpoint count (n : nat) (lo : Z) (f : Z -> nat) : nat :=
  match n with O => O | S n' => (f lo + count n' (lo + 1) f)%nat end.

(** The tables below a table with [l] levels under it. *)
Fixpoint tables (l : nat) (m : mem) (t : Z) : nat :=
  match l with
  | O => O
  | S l' => count 512 0 (fun i => let e := entry t i m in if live e then S (tables l' m (table_of e)) else O)
  end.

(** The tables of the user half below the root. *)
Definition user_tables (m : mem) (root : Z) : nat :=
  count 256 0 (fun i => let e := entry root i m in if live e then S (tables 2 m (table_of e)) else O).

(** What an entry of a table at depth [d] costs. *)
Definition cost (d : nat) (t i : Z) : nat :=
  match (3 - d)%nat with
  | O => O
  | S l => let e := entry t i (vm s0) in if live e then S (tables l (vm s0) (table_of e)) else O
  end.

(** What a round of the loop at depth [d] does. *)
Definition round_ok (d : nat) (f : Z -> Z -> Z -> vmm P H -> vmm P H) : Prop :=
  forall b k s src dst, forking d b b k s -> user b -> b mod span d = 0 ->
  tab (vm s0) pr d b = Some src -> tab (vm s) nt d b = Some dst -> (k + cost d src (idx d b) <= N)%nat ->
  let s' := f src dst (idx d b) s in
  forking 0 (b + span d) (b + span d) (k + cost d src (idx d b)) s' /\ keeps_tabs s s'.

Lemma forking_le d d' bp bc k s : (d <= d')%nat -> forking d bp bc k s -> forking d' bp bc k s.
Proof using Type.
  intros Hd F. split; try apply F. intros d0 v t H0 Hv Ht. destruct (fk_front _ _ _ _ _ F d0 v t H0 Hv Ht) as [|[? ?]]; [by left|right; split; [lia|done]].
Qed.

Lemma keeps_trans' s1 s2 s3 : keeps_tabs s1 s2 -> keeps_tabs s2 s3 -> keeps_tabs s1 s3.
Proof using Type. intros K1 K2 d v t Hd Ht. apply K2; [done|]. by apply K1. Qed.

(** The index of the [i]-th entry of the region that starts at [b]. *)
Lemma idx_at d b i : (d <= 3)%nat -> user b -> 0 <= i <= 511 -> b mod (512 * span d) = 0 -> user (b + i * span d) ->
  idx d (b + i * span d) = i /\ same d b (b + i * span d) /\ (b + i * span d) mod span d = 0.
Proof using Type.
  intros Hd Hb Hi Ha Hu. pose proof (span_pos d Hd) as Hs.
  assert (exists q, b = q * (512 * span d)) as [q Eq] by (exists (b / (512 * span d)); pose proof (Z.div_mod b (512 * span d) ltac:(lia)); lia).
  assert ((b + i * span d) / span d = q * 512 + i) as E by (rewrite Eq; replace (q * (512 * span d) + i * span d) with ((q * 512 + i) * span d) by lia; apply Z.div_mul; lia).
  split_and!.
  - rewrite idx_div by lia. fold (span d). rewrite E, Z.add_comm, Z.mod_add by lia. apply Z.mod_small. lia.
  - destruct d as [|d]; [intros j Hj; lia|]. apply same_span; [lia|done|done|].
    rewrite span_S, !(Z.mul_comm 512), <- !Z.div_div by lia. rewrite E, Eq.
    replace (q * (512 * span (S d))) with (q * 512 * span (S d)) by lia. rewrite Z.div_mul by lia.
    Z.to_euclidean_division_equations. lia.
  - rewrite Eq. replace (q * (512 * span d) + i * span d) with ((q * 512 + i) * span d) by lia. apply Z.mod_mul. lia.
Qed.

Lemma round_at d f b i k s src dst : (d <= 3)%nat -> round_ok d f ->
  0 <= i <= 511 -> b + (i + 1) * span d <= 2 ^ 47 -> user b -> b mod (512 * span d) = 0 ->
  forking d (b + i * span d) (b + i * span d) k s ->
  tab (vm s0) pr d b = Some src -> tab (vm s) nt d b = Some dst -> (k + cost d src i <= N)%nat ->
  let e := b + (i + 1) * span d in
  forking 0 e e (k + cost d src i) (f src dst i s) /\ keeps_tabs s (f src dst i s).
Proof using Type.
  intros Hd R Hi He Hb Ha F Hs Ht Hk e. pose proof (span_pos d Hd) as Hp.
  assert (user (b + i * span d)) as Hu by (unfold user in *; nia).
  destruct (idx_at d b i Hd Hb ltac:(lia) Ha Hu) as (Ei & Es & Em).
  assert (e = b + i * span d + span d) as -> by (unfold e; lia).
  pose proof (R (b + i * span d) k s src dst F Hu Em) as X. rewrite Ei, <- !(tab_same hhdm _ _ d _ _ Es) in X. auto.
Qed.

Lemma loop_ok d f n : (d <= 3)%nat -> round_ok d f -> forall b i k s src dst,
  0 <= i -> i + Z.of_nat (S n) <= 512 -> b + (i + Z.of_nat (S n)) * span d <= 2 ^ 47 -> user b -> b mod (512 * span d) = 0 ->
  forking d (b + i * span d) (b + i * span d) k s ->
  tab (vm s0) pr d b = Some src -> tab (vm s) nt d b = Some dst -> (k + count (S n) i (cost d src) <= N)%nat ->
  let e := b + (i + Z.of_nat (S n)) * span d in
  let s' := for_loop (S n) i (f src dst) s in
  forking 0 e e (k + count (S n) i (cost d src)) s' /\ keeps_tabs s s'.
Proof using Type.
  intros Hd R. pose proof (span_pos d Hd) as Hp. induction n as [|n IH]; intros b i k s src dst Hi Hn He Hb Ha F Hs Ht Hk; cbv zeta.
  - assert (count 1 i (cost d src) = cost d src i) as Ec by (cbn [count]; lia). rewrite Ec in *.
    by apply (round_at d f b i k s src dst); auto with lia.
  - change (for_loop (S (S n)) i (f src dst) s) with (for_loop (S n) (i + 1) (f src dst) (f src dst i s)).
    assert (count (S (S n)) i (cost d src) = cost d src i + count (S n) (i + 1) (cost d src))%nat as Ec by done. rewrite Ec in *.
    destruct (round_at d f b i k s src dst) as [F1 K1]; auto; try lia.
    destruct (IH b (i + 1) (k + cost d src i)%nat (f src dst i s) src dst) as [F2 K2]; auto; try lia.
    + by apply (forking_le 0); [lia|].
    + rewrite <- Nat.add_assoc in F2. replace (i + 1 + Z.of_nat (S n)) with (i + Z.of_nat (S (S n))) in F2 by lia.
      split; [exact F2|]. by apply (keeps_trans' _ (f src dst i s)).
Qed.

(** No leaf below an entry that is not present. *)
Lemma absent_leaf m x d v t : (d <= 2)%nat -> tab m x d v = Some t -> has (entry t (idx d v) m) VMM_FLAG_PRESENT = false -> leaf m x v = None.
Proof using Type.
  intros Hd Ht Hp. unfold VmmProps.leaf. destruct (decide (d = 2%nat)) as [->|]; [by rewrite Ht, Hp|].
  destruct (tab m x 2 v) as [pd|] eqn:E; [|done]. exfalso. destruct (tab_prefix hhdm m x 2 (S d) v pd ltac:(lia) E) as [t' E'].
  cbn [VmmProps.tab] in E'. rewrite Ht in E'. unfold live in E'. by rewrite Hp in E'.
Qed.

(** A present entry of the parent's upper levels refers to a table. *)
Lemma parent_live d b src : (d <= 2)%nat -> user b -> tab (vm s0) pr d b = Some src ->
  has (entry src (idx d b) (vm s0)) VMM_FLAG_PRESENT = true -> live (entry src (idx d b) (vm s0)) = true.
Proof using U.
  intros Hd Hb Ht Hp. apply live_true. split; [done|]. destruct (decide (d = 2%nat)) as [->|].
  - destruct (has (entry src (idx 2 b) (vm s0)) VMM_FLAG_HUGE) eqn:Eh; [|done].
    destruct (us_data _ _ _ U b true (entry src (idx 2 b) (vm s0)) Hb) as [X _]; [|done].
    unfold VmmProps.leaf. by rewrite Ht, Hp, Eh.
  - by apply (tr_small _ _ _ _ (us_tree _ _ _ U) d b src); [lia| |].
Qed.

Lemma level_ok d inner : (d <= 2)%nat -> round_ok (S d) inner -> round_ok d (fork_level hhdm inner).
Proof using HFL HFS Hhhdm U Hsup.
  intros Hd R b k s src dst F Hb Ha Hs Ht Hk. cbv zeta. unfold fork_level, get.
  rewrite (fk_entry _ _ _ _ _ F d b src) by (done || apply idx_range). set (e := entry src (idx d b) (vm s0)) in *.
  assert (cost d src (idx d b) = if live e then S (tables (2 - d) (vm s0) (table_of e)) else O) as Ec.
  { unfold cost. by replace (3 - d)%nat with (S (2 - d)) by lia. }
  rewrite Ec in *. destruct (has e VMM_FLAG_PRESENT) eqn:Hp; cbn [negb].
  2: { unfold live. rewrite Hp. cbn [andb]. rewrite Nat.add_0_r. split; [|by intros d' v t _ Hv].
       apply (fork_skip d b); auto; [pose proof (span_pos d); lia|]. intros v Hv Hr.
       assert (same (S d) b v) as Es by (by apply below_entry; [lia| | | |]). apply (absent_leaf _ _ d v src Hd).
       - rewrite <- (tab_same hhdm _ _ d b v); [done|]. by apply (same_le (S d)); [lia|].
       - by rewrite <- (Es d) by lia. }
  pose proof (parent_live d b src Hd Hb Hs Hp) as Hl. fold e in Hl. rewrite Hl in *.
  destruct (fork_table d b k s dst e Hd F Hb Ha ltac:(lia) Ht Hl) as (t' & s1 & -> & Nz & He1 & F2 & Ht2 & K2).
  rewrite (proj2 (Z.eqb_neq t' 0) Nz). rewrite (He1 d b src) by (auto; try lia; apply idx_range).
  rewrite (fk_entry _ _ _ _ _ F d b src) by (done || apply idx_range). fold e.
  set (s2 := put dst _ _ s1) in *.
  assert (tab (vm s0) pr (S d) b = Some (table_of e)) as Hs'.
  { cbn [VmmProps.tab]. rewrite Hs. fold e. by rewrite Hl. }
  assert (count 512 0 (cost (S d) (table_of e)) = tables (2 - d) (vm s0) (table_of e)) as Et.
  { destruct d as [|[|[|]]]; [reflexivity|reflexivity|reflexivity|lia]. }
  pose proof (span_pos (S d)) as Hsp. pose proof (end_user d b ltac:(lia) Hb Ha) as He. rewrite span_S in He, Ha |- * by lia.
  destruct (loop_ok (S d) inner 511 ltac:(lia) R b 0 (S k) s2 (table_of e) t') as [F3 K3]; auto; try lia.
  - by rewrite Z.add_0_r.
  - replace (b + (0 + Z.of_nat 512) * span (S d)) with (b + 512 * span (S d)) in F3 by lia. rewrite Et in F3.
    replace (S k + tables (2 - d) (vm s0) (table_of e))%nat with (k + S (tables (2 - d) (vm s0) (table_of e)))%nat in F3 by lia.
    split; [exact F3|]. by apply (keeps_trans' _ s2).
Qed.

Lemma pte_round : round_ok 3 fork_pte.
Proof using HFL HFS U Hcount.
  intros b k s src dst F Hb Ha Hs Ht Hk. change (cost 3 src (idx 3 b)) with 0%nat. rewrite Nat.add_0_r. by apply pte_step.
Qed.

Lemma pde_round : round_ok 2 (fork_pde hhdm).
Proof using HFL HFS Hhhdm U Hsup Hcount.
  intros b k s src dst F Hb Ha Hs Ht Hk. cbv zeta.
  assert (fork_pde hhdm src dst (idx 2 b) s = fork_level hhdm fork_pte src dst (idx 2 b) s) as ->.
  { unfold fork_pde, fork_level, get. destruct (has _ VMM_FLAG_PRESENT) eqn:Hp; [|done]. cbn [negb].
    rewrite (fk_entry _ _ _ _ _ F 2 b src) in * by (done || apply idx_range).
    pose proof (parent_live 2 b src ltac:(lia) Hb Hs Hp) as Hl. by apply live_true in Hl as [_ ->]. }
  apply (level_ok 2 fork_pte); auto. apply pte_round.
Qed.

(** The loops over the user half. *)
Lemma fork_loops k s : forking 0 0 0 k s -> (k + user_tables (vm s0) pr <= N)%nat ->
  forking 0 (2 ^ 47) (2 ^ 47) (k + user_tables (vm s0) pr) (for_loop 256 0 (fork_level hhdm (fork_level hhdm (fork_pde hhdm)) pr nt) s).
Proof using HFL HFS Hhhdm U Hsup Hcount.
  intros F Hn. assert (round_ok 0 (fork_level hhdm (fork_level hhdm (fork_pde hhdm)))) as R.
  { apply level_ok; [lia|]. apply level_ok; [lia|]. apply pde_round. }
  destruct (loop_ok 0 _ 255 ltac:(lia) R 0 0 k s pr nt) as [F' _]; auto; try done.
Qed.
End run.

(** ** The start of the loops *)

Lemma root_agree m k x d v : entry x (idx 0 v) m = entry k (idx 0 v) m -> tab m x (S d) v = tab m k (S d) v.
Proof using Type.
  intros E. induction d as [|d IH]; [cbn [VmmProps.tab]; by rewrite E|].
  change (tab m x (S (S d)) v) with (match tab m x (S d) v with None => None | Some t => let e := entry t (idx (S d) v) m in if live e then Some (table_of e) else None end).
  by rewrite IH.
Qed.

Lemma fork_start s s' pr k phys : uspace s pr -> tree (frames s) (vm s) k -> fresh_root hhdm s s' k phys ->
  (forall i, 256 <= i <= 511 -> entry pr i (vm s) = entry k i (vm s)) -> forking s pr (phys + hhdm) 0 0 0 1 s'.
Proof using HFL HFS.
  intros U T F Hker. pose proof (fo_frames _ _ _ _ _ F) as Ef. destruct (fr_alloc (frames s)) as [r p'] eqn:Ea. cbn [snd] in Ef.
  destruct (fr_alloc_law _ _ _ (us_ok _ _ _ U) Ea) as (Hok & Hkeep & _). rewrite <- Ef in *.
  assert (fresh s (phys + hhdm)) as Hf by (exists phys; split_and!; [done|apply F|apply F]).
  assert (forall t i, off t (phys + hhdm) -> 0 <= i <= 511 -> entry t i (vm s') = entry t i (vm s)) as He.
  { intros t i Ho Hi. apply load_ext. intros a Ha. apply F. unfold off in Ho. cbn in Ha. lia. }
  assert (forall d v t i, (d <= 3)%nat -> tab (vm s) pr d v = Some t -> 0 <= i <= 511 -> entry t i (vm s') = entry t i (vm s)) as Hp.
  { intros d v t i Hd Ht Hi. apply He; [|done]. by apply (fresh_parent s pr U d v). }
  destruct (tree_frame hhdm _ _ _ pr Hp (us_tree _ _ _ U)) as [T1 L1].
  assert (forall d v, (S d <= 3)%nat -> tab (vm s') (phys + hhdm) (S d) v = if 256 <=? idx 0 v then tab (vm s) k (S d) v else None) as Hh.
  { intros d v Hd. apply (half_tab hhdm (frames s) (vm s) (vm s') k); try apply F; auto. intros t. by apply (root_off hhdm s s' k). }
  split.
  - pose proof (draws_alloc _ _ _ (draws_none (frames s))) as D. by rewrite Ea in D.
  - apply F.
  - by apply (tree_mono hhdm (frames s)).
  - intros d v Hd. apply tab_frame; [exact Hp|lia].
  - intros d v t i Hd Ht Hi. apply (Hp d v t); auto with lia.
  - intros v Hv. rewrite L1. unfold user in Hv. case_bool; [lia|done].
  - by apply (root_tree hhdm s s' k phys T F).
  - intros v Hv. rewrite (root_leaf hhdm s s' k phys v T F Hv). unfold user in Hv. case_bool; [lia|done].
  - intros [|d] v t Hd Hi Ht; [by injection Ht as <-|]. rewrite Hh in Ht by lia. case_bool; [lia|done].
  - intros d v Hd Hi. rewrite Hh by lia. case_bool; [|lia]. symmetry. apply root_agree, Hker. pose proof (idx_range 0 v). lia.
  - intros d v t Hd Hv Ht. rewrite Hh in Ht by lia. pose proof (user_idx v Hv). case_bool; [lia|done].
  - intros q i D Hi. apply F. pose proof (fresh_data s pr q _ D Hf) as Ho. unfold off in Ho. lia.
  - intros v e Hv L Hn. rewrite (fr_alloc_refs _ _ _ _ (us_ok _ _ _ U) Ea) by (by apply (us_data _ _ _ U v false e)).
    unfold user in Hv. case_bool; lia.
Qed.

(** ** After fork *)

(** The page tables of [x] for user pages are apart from the tables of [y]
    and from its pages. *)
Definition apart s (x y : Z) : Prop := forall v t, user v -> tab (vm s) x 3 v = Some t ->
  (forall d v' t', (d <= 3)%nat -> tab (vm s) y d v' = Some t' -> off t' t) /\
  (forall v' e, user v' -> leaf (vm s) y v' = Some (false, e) -> off t (frame e + hhdm)).

(** Parent and child have the memory the parent had, page by page in the same
    frames, which have one more reference; a page of the parent that may be
    freed is read-only and marked copy-on-write in both. *)
Record forked (s s' : vmm P H) (pr cr : Z) : Prop := {
  fd_parent : uspace s' pr;
  fd_child : uspace s' cr;
  fd_pages : forall v, user v -> leaf (vm s') pr v = shared (leaf (vm s) pr v) /\ leaf (vm s') cr v = shared (leaf (vm s) pr v);
  fd_bytes : forall v, user v -> mapped hhdm s pr v ->
    user_byte hhdm pr v s' = user_byte hhdm pr v s /\ user_byte hhdm cr v s' = user_byte hhdm pr v s;
  fd_refs : forall v e, user v -> leaf (vm s) pr v = Some (false, e) -> has e VMM_FLAG_DONT_FREE = false ->
    fr_refcount (frame e) (frames s') = fr_refcount (frame e) (frames s) + 1
}.

Section finished.
Variables (s s' : vmm P H) (pr cr : Z) (k : nat).
Hypothesis U : uspace s pr.
Hypothesis F : forking s pr cr 0 (2 ^ 47) (2 ^ 47) k s'.

Lemma end_leaf v : user v -> leaf (vm s') pr v = shared (leaf (vm s) pr v) /\ leaf (vm s') cr v = shared (leaf (vm s) pr v).
Proof using F.
  intros Hv. rewrite (fk_leaf _ _ _ _ _ _ _ _ F), (fk_cleaf _ _ _ _ _ _ _ _ F) by done. unfold user in Hv. repeat case_bool; done || lia.
Qed.

Lemma shared_inv l h e : shared l = Some (h, e) -> exists e0, l = Some (h, e0) /\ e = share e0.
Proof using Type. destruct l as [[h0 e0]|]; cbn; [intros [= <- <-]; eauto|done]. Qed.

Lemma end_child_off d v t : (d <= 3)%nat -> tab (vm s') cr d v = Some t ->
  fresh s t \/ exists d', (S d' <= 3)%nat /\ 256 <= idx 0 v /\ d = S d' /\ tab (vm s) pr d v = Some t.
Proof using F.
  intros Hd Ht. destruct (decide (idx 0 v <= 255)); [left; by apply (fk_fresh _ _ _ _ _ _ _ _ F d v)|]. destruct d as [|d].
  - left. apply (fk_fresh _ _ _ _ _ _ _ _ F 0 0); [lia|by vm_compute|done].
  - right. exists d. split; [done|]. split; [lia|]. split; [done|]. by rewrite <- (fk_kernel _ _ _ _ _ _ _ _ F) by lia.
Qed.

Lemma end_data q : data_page (frames s) (vm s) pr q ->
  data_page (frames s') (vm s') pr q /\ data_page (frames s') (vm s') cr q.
Proof using HFL HFS U F.
  intros D. pose proof (fk_grows _ _ _ U _ _ _ _ _ F) as [_ Gu]. pose proof D as [A B C E]. split; (split; [done|done|by apply Gu|]); intros d v t Hd Ht.
  - rewrite (fk_tab _ _ _ _ _ _ _ _ F) in Ht by done. by apply (E d v).
  - destruct (end_child_off d v t Hd Ht) as [Hf|(d' & _ & _ & _ & Ht')]; [by apply (fresh_data s pr)|by apply (E d v)].
Qed.

Lemma fork_apart : apart s' pr cr /\ apart s' cr pr.
Proof using U F.
  split; intros v t Hv Ht.
  - rewrite (fk_tab _ _ _ _ _ _ _ _ F) in Ht by done. split.
    + intros d v' t' Hd Ht'. by apply (child_off s pr cr U 0 (2 ^ 47) (2 ^ 47) k s' d v' t' v t).
    + intros v' e Hv' L. rewrite (proj2 (end_leaf v' Hv')) in L. apply shared_inv in L as (e0 & L0 & ->). rewrite share_frame.
      apply (dp_off _ _ _ _ _ (proj2 (us_data _ _ _ U v' false e0 Hv' L0)) 3 v t); auto.
  - assert (fresh s t) as Hf by (by apply (fk_fresh _ _ _ _ _ _ _ _ F 3 v); [|apply user_idx|]). split.
    + intros d v' t' Hd Ht'. rewrite (fk_tab _ _ _ _ _ _ _ _ F) in Ht' by done. by apply (fresh_parent s pr U d v').
    + intros v' e Hv' L. rewrite (proj1 (end_leaf v' Hv')) in L. apply shared_inv in L as (e0 & L0 & ->). rewrite share_frame.
      apply (fresh_data s pr); [|done]. apply (us_data _ _ _ U v' false e0 Hv' L0).
Qed.
Variable N : nat.
Hypothesis Hsup : supply N (frames s).
Hypothesis Hk : (k <= N)%nat.

Lemma end_space x : x = pr \/ x = cr -> uspace s' x.
Proof using HFL HFS U Hsup Hk F.
  intros Hx. assert (forall v, user v -> leaf (vm s') x v = shared (leaf (vm s) pr v)) as L by (intros v Hv; destruct (end_leaf v Hv), Hx as [->| ->]; done).
  pose proof (fk_grows _ _ _ U _ _ _ _ _ F) as [Gok _]. split; [|done|exact (su_small _ _ Hsup _ _ (fk_draws _ _ _ _ _ _ _ _ F) Hk)|..].
  - destruct Hx as [->| ->]; apply F.
  - intros v h e Hv E. rewrite L in E by done. apply shared_inv in E as (e0 & E0 & ->). destruct (us_data _ _ _ U v h e0 Hv E0) as [-> D].
    split; [done|]. rewrite share_frame. destruct (end_data _ D), Hx as [->| ->]; done.
  - intros v v' e e' Hv Hv' E E' Eq. rewrite L in E, E' by done. apply shared_inv in E as (e0 & E0 & ->). apply shared_inv in E' as (e1 & E1 & ->).
    rewrite !share_frame in Eq. by apply (us_inj _ _ _ U v v' e0 e1).
Qed.

Lemma fork_done : forked s s' pr cr.
Proof using HFL HFS Hhhdm Hpage U Hsup Hk F.
  split; [apply end_space; by left|apply end_space; by right|exact end_leaf| |].
  - intros v Hv [e L]. destruct (end_leaf v Hv) as [L1 L2]. rewrite L in L1, L2. cbn in L1, L2.
    rewrite (proj2 (mapped_byte hhdm Hhhdm Hpage s' pr v _ (end_space pr (or_introl eq_refl)) Hv L1)),
      (proj2 (mapped_byte hhdm Hhhdm Hpage s' cr v _ (end_space cr (or_intror eq_refl)) Hv L2)),
      (proj2 (mapped_byte hhdm Hhhdm Hpage s pr v _ U Hv L)), share_frame.
    pose proof (Z.mod_pos_bound v 4096 ltac:(lia)). rewrite (fk_data _ _ _ _ _ _ _ _ F) by (done || by apply (us_data _ _ _ U v false e)). done.
  - intros v e Hv L Hn. rewrite (fk_refs _ _ _ _ _ _ _ _ F v e Hv L Hn). unfold user in Hv. case_bool; lia.
Qed.

End finished.

(** ** A write after fork *)

(** The byte of [v] once the root's leaf is known. *)
Lemma byte_at s p x v e : tree p (vm s) x -> leaf (vm s) x v = Some (false, e) -> frame e + hhdm < 2 ^ 64 ->
  vmm_phys_to_virt hhdm (vmm_virt_to_phys hhdm x v s) = frame e + hhdm + v mod 4096.
Proof using Hhhdm Hpage.
  intros T L Hlim. change (vmm_virt_to_phys hhdm x v s) with (vmm_virt_to_phys hhdm x v (s <| frames := p |>)).
  assert (tree (frames (s <| frames := p |>)) (vm (s <| frames := p |>)) x) as T' by exact T.
  rewrite (mapped_phys hhdm (s <| frames := p |>) x v e T' L). unfold vmm_phys_to_virt.
  pose proof (frame_aligned e) as Ha. pose proof (mask_range e) as Hr. fold (frame e) in Hr.
  pose proof (Z.mod_pos_bound v 4096 ltac:(lia)). rewrite wrap_small; [lia|]. split; [lia|].
  unfold aligned in *. change (2 ^ 64) with (2 ^ 52 * 4096) in *. Z.to_euclidean_division_equations. lia.
Qed.

(** The tables depend on the entries of the upper levels only. *)
Lemma tab_upper m m1 x :
  (forall d v t i, (d <= 2)%nat -> tab m x d v = Some t -> 0 <= i <= 511 -> entry t i m1 = entry t i m) ->
  forall d v, (d <= 3)%nat -> tab m1 x d v = tab m x d v.
Proof using Type.
  intros Hm d. induction d as [|d IH]; intros v Hd; [done|]. cbn [VmmProps.tab]. rewrite IH by lia.
  destruct (tab m x d v) as [t|] eqn:E; [|done]. rewrite (Hm d v t); auto; [lia|apply idx_range].
Qed.

(** What a fault of [w] at [a] and a write there do to memory: only the page
    table and the new frame change. *)
Record split_page (s s3 : vmm P H) (w a e x : Z) (t new : Z) : Prop := {
  sp_table : tab (vm s) w 3 a = Some t;
  sp_new : aligned new /\ new + hhdm < 2 ^ 64 /\ ~ fr_used (frames s) new;
  sp_out : forall b, ~ t <= b < t + 4096 -> ~ new + hhdm <= b < new + hhdm + 4096 -> vm s3 b = vm s b;
  sp_leaf : (exists p, tree p (vm s3) w) /\ forall v, user v -> if v / 4096 =? a / 4096
    then exists e', leaf (vm s3) w v = Some (false, e') /\ frame e' = new else leaf (vm s3) w v = leaf (vm s) w v;
  sp_byte : forall i, 0 <= i < 4096 -> vm s3 (new + hhdm + i) = if i =? a mod 4096 then x else vm s (frame e + hhdm + i)
}.

Lemma fault_splits s w a e x : uspace s w -> bytes (vm s) -> user a ->
  leaf (vm s) w a = Some (false, e) -> has e VMM_FLAG_COW = true -> 1 < fr_refcount (frame e) (frames s) ->
  fst (fr_alloc (frames s)) <> 0 -> small hhdm (snd (fr_alloc (frames s))) ->
  exists s2 t new, vmm_handle_cow_fault hhdm w a s = (true, s2) /\
    split_page s (s2 <| vm := (vm s2).[vmm_phys_to_virt hhdm (vmm_virt_to_phys hhdm w a s2) <- x] |>) w a e x t new.
Proof using HFL Hhhdm Hpage.
  intros U Hb Ha L Hc Hr Hroom Hsm. destruct (us_data _ _ _ U a false e Ha L) as [_ D]. destruct (data_range hhdm Hhhdm Hpage s w _ U D) as [Hd1 Hd2].
  assert (forall q, 0 <= q -> q + hhdm < 2 ^ 64 -> frame_page hhdm q = q + hhdm) as Efp by (intros q H1 H2; apply wrap_small; lia).
  pose proof (cow_private hhdm Hhhdm s w a e (us_tree _ _ _ U) (us_ok _ _ _ U) Hb ltac:(unfold user in Ha; lia) L Hc) as C.
  fold (frame e) in C. specialize (C ltac:(lia) (dp_used _ _ _ _ _ D)).
  specialize (C ltac:(intros d v t Hd Ht; rewrite Efp by lia; by apply (dp_off _ _ _ _ _ D d v)) Hsm).
  destruct (vmm_handle_cow_fault hhdm w a s) as [ok s2]. rewrite (proj2 (Z.ltb_lt 1 _) Hr), (proj2 (Z.eqb_neq _ 0) Hroom) in C. cbn [andb] in C.
  destruct C as [-> [(e' & Le & _ & _ & (Nn & En) & Hcopy) Cother Cold [p T] Cout]]. fold (frame e') in *.
  destruct (leaf_tab hhdm _ _ _ _ L) as (pd & t & _ & Ht & _ & _ & _ & _).
  destruct (fr_alloc (frames s)) as [new p'] eqn:Ea. cbn [fst snd] in *. destruct (fr_alloc_law _ _ _ (us_ok _ _ _ U) Ea) as (_ & Hkeep & Hnew).
  destruct (Hnew Hroom) as (Hn0 & Hal & _ & Hused). destruct (Hsm new Hused) as [Hl1 Hl2]. rewrite En in *. rewrite Efp in * by lia.
  assert (forall b, ~ t <= b < t + 4096 -> ~ new + hhdm <= b < new + hhdm + 4096 -> vm s2 b = vm s b) as Hout.
  { intros b H1 H2. apply (Cout t e' b Ht Le H1). fold (frame e'). by rewrite En, Efp by lia. }
  exists s2, t, new. split; [done|]. rewrite (byte_at s2 p w a e' T Le) by (rewrite En; lia). rewrite En.
  set (s3 := s2 <| vm := _ |>). pose proof (Z.mod_pos_bound a 4096 ltac:(lia)) as Hm.
  assert (forall b, b <> new + hhdm + a mod 4096 -> vm s3 b = vm s2 b) as H3 by (intros b Hn; by apply upd_ne).
  assert (forall d v t0, (d <= 3)%nat -> tab (vm s) w d v = Some t0 -> off t0 (new + hhdm)) as Hoff.
  { intros d v t0 Hd Ht0. apply (unused_off (frames s)); [|done|done]. by apply (tr_used _ _ _ _ (us_tree _ _ _ U) d v). }
  assert (forall d v, (d <= 3)%nat -> tab (vm s2) w d v = tab (vm s) w d v) as Et.
  { apply tab_upper. intros d v t0 i Hd Ht0 Hi. apply load_ext. intros b Hbb. cbn in Hbb.
    pose proof (Hoff d v t0 ltac:(lia) Ht0) as O1. destruct (tr_apart _ _ _ _ (us_tree _ _ _ U) d 3 v a t0 t ltac:(lia) ltac:(lia) Ht0 Ht) as [[]|O2]; [lia|].
    apply Hout; unfold off in *; lia. }
  assert (forall d v t0 i, (d <= 3)%nat -> tab (vm s2) w d v = Some t0 -> 0 <= i <= 511 -> entry t0 i (vm s3) = entry t0 i (vm s2)) as He.
  { intros d v t0 i Hd Ht0 Hi. rewrite Et in Ht0 by done. pose proof (Hoff d v t0 Hd Ht0) as O1. apply load_ext. intros b Hbb. cbn in Hbb.
    apply H3. unfold off in O1. lia. }
  destruct (tree_frame hhdm p (vm s2) (vm s3) w He T) as [T3 L3]. split; [done|split_and!; done|..].
  - intros b H1 H2. rewrite H3 by lia. by apply Hout.
  - split; [by exists p|]. intros v Hv. rewrite L3. destruct (Z.eqb_spec (v / 4096) (a / 4096)) as [Es|Ns].
    + exists e'. split; [|done]. rewrite <- Le. apply leaf_same. by apply user_same.
    + apply Cother. intros Es. apply Ns. symmetry. by apply user_same.
  - intros i Hi. destruct (Z.eqb_spec i (a mod 4096)) as [->|]; [apply upd_eq|]. rewrite H3 by lia. rewrite Hcopy, Efp by lia. done.
Qed.

(** A write fault on a shared page, followed by the write: the writer sees its
    byte, the other space sees nothing of it. *)
Lemma write_fault s w o a e x : uspace s w -> uspace s o -> apart s w o -> bytes (vm s) -> user a ->
  leaf (vm s) w a = Some (false, e) -> has e VMM_FLAG_COW = true -> 1 < fr_refcount (frame e) (frames s) ->
  fst (fr_alloc (frames s)) <> 0 -> small hhdm (snd (fr_alloc (frames s))) ->
  exists s2, vmm_handle_cow_fault hhdm w a s = (true, s2) /\
  let s3 := s2 <| vm := (vm s2).[vmm_phys_to_virt hhdm (vmm_virt_to_phys hhdm w a s2) <- x] |> in
  (forall v, user v -> mapped hhdm s w v -> user_byte hhdm w v s3 = if v =? a then x else user_byte hhdm w v s) /\
  (forall v, user v -> mapped hhdm s o v -> user_byte hhdm o v s3 = user_byte hhdm o v s).
Proof using HFL Hhhdm Hpage.
  intros U V A Hb Ha L Hc Hr Hroom Hsm. destruct (fault_splits s w a e x U Hb Ha L Hc Hr Hroom Hsm) as (s2 & t & new & E & S).
  exists s2. split; [exact E|]. cbv zeta. revert S. generalize (s2 <| vm := (vm s2).[vmm_phys_to_virt hhdm (vmm_virt_to_phys hhdm w a s2) <- x] |>).
  clear s2 E. intros s3 [Ht (Hal & Hlim & Hnu) Hout [[p T] Hleaf] Hbyte].
  assert (forall y q, data_page (frames s) (vm s) y q -> off (q + hhdm) (new + hhdm)) as Hq.
  { intros y q [Q1 _ Q3 _]. apply page_off; [done|done|]. intros ->. by apply Hnu. }
  assert (forall v, v mod 4096 < 4096 /\ 0 <= v mod 4096) as Hm by (intros v; pose proof (Z.mod_pos_bound v 4096 ltac:(lia)); lia).
  split; intros v Hv [ev Lv].
  - specialize (Hleaf v Hv). destruct (Hm v). rewrite (proj2 (mapped_byte hhdm Hhhdm Hpage s w v ev U Hv Lv)).
    destruct (Z.eqb_spec (v / 4096) (a / 4096)) as [Es|Ns].
    + destruct Hleaf as (e' & Le & En). unfold user_byte. rewrite (byte_at s3 p w v e' T Le), En, Hbyte by (try rewrite En; lia).
      assert (ev = e) as ->. { rewrite (leaf_same hhdm (vm s) w v a) in Lv by (by apply user_same). congruence. }
      destruct (Z.eqb_spec v a) as [->|]; [by rewrite Z.eqb_refl|]. destruct (Z.eqb_spec (v mod 4096) (a mod 4096)); [|done].
      exfalso. Z.to_euclidean_division_equations. lia.
    + destruct (us_data _ _ _ U v false ev Hv Lv) as [_ D]. destruct (data_range hhdm Hhhdm Hpage s w _ U D) as [Hd1 Hd2].
      rewrite Lv in Hleaf. unfold user_byte. rewrite (byte_at s3 p w v ev T Hleaf) by lia. destruct (Z.eqb_spec v a) as [->|]; [done|].
      pose proof (Hq w _ D) as O1. pose proof (dp_off _ _ _ _ _ D 3 a t ltac:(lia) Ht) as O2. apply Hout; unfold off in *; lia.
  - destruct (A a t Ha Ht) as [A1 A2]. destruct (us_data _ _ _ V v false ev Hv Lv) as [_ D]. destruct (data_range hhdm Hhhdm Hpage s o _ V D) as [Hd1 Hd2].
    assert (forall d v t i, (d <= 3)%nat -> tab (vm s) o d v = Some t -> 0 <= i <= 511 -> entry t i (vm s3) = entry t i (vm s)) as He.
    { intros d v0 t0 i Hd Ht0 Hi. apply load_ext. intros b Hbb. cbn in Hbb. pose proof (A1 d v0 t0 Hd Ht0) as O1.
      pose proof (unused_off _ t0 new (tr_used _ _ _ _ (us_tree _ _ _ V) d v0 t0 Hd Ht0) Hal Hnu) as O2. apply Hout; unfold off in *; lia. }
    destruct (tree_frame hhdm _ _ (vm s3) o He (us_tree _ _ _ V)) as [T3 L3]. rewrite <- L3 in Lv. destruct (Hm v).
    unfold user_byte at 1. rewrite (byte_at s3 _ o v ev T3 Lv) by lia. rewrite L3 in Lv. rewrite (proj2 (mapped_byte hhdm Hhhdm Hpage s o v ev V Hv Lv)).
    pose proof (Hq o _ D) as O1. pose proof (A2 v ev Hv Lv) as O2. apply Hout; unfold off in *; lia.
Qed.


End fork.

(** ** The physical memory manager counts references *)

#[export] Instance bump_share : FramesShare frame_bump.
Proof.
  split.
  - intros [n l f] a Hok Hu. split; [exact Hok|]. split; [done|]. intros _ x _. cbn. destruct (Z.eqb_spec x a) as [->|N].
    + by rewrite upd_eq.
    + rewrite upd_ne by done. lia.
  - intros [n l f] r p' x [H1 H2] E Hx. cbn in *. destruct (n + 4096 <=? l); injection E as <- <-; cbn; [|done]. apply upd_ne. lia.
Qed.

(** A frame in use has its own descriptor. *)
Lemma owned_page s a : wf s -> fr_used s a -> exists i, in_pool s i /\ state (cells s i) = CELL_USED /\ base (cells s i) = a /\
  0 < a /\ a mod 4096 = 0 /\ phys_to_pfn a = a / 4096.
Proof.
  intros W (k & _ & i & H1 & H2 & H3 & _). exists i. pose proof (fo_cells _ (wf_forest _ W) i H1) as C.
  pose proof (ck_base _ _ C). pose proof (ck_align _ _ C) as Ha. rewrite H3 in *. unfold phys_to_pfn, PAGE_SHIFT, Pmm.PAGE_SIZE in *.
  rewrite Z.shiftr_div_pow2 by lia. split_and!; auto; lia.
Qed.

#[export] Instance pmm_share : FramesShare Pmm.pmm.
Proof.
  split.
  - intros s a W Hu. cbn [fr_ok fr_used fr_ref fr_refcount pmm_frames] in *. unfold pmm_page_ref. split; [by apply upd_page_wf|].
    set (g := fun p : page_t => _). destruct (upd_page_rest a g s) as [pa E]. split; [by rewrite E|].
    destruct (owned_page s a W Hu) as (_ & _ & _ & _ & Ha0 & Ha & Ea). intros Hc x Hx. destruct (owned_page s x W Hx) as (_ & _ & _ & _ & Hx0 & Hxa & Ex).
    unfold pmm_page_refcount in *. cbv zeta in *. rewrite Ea, Ex in *. unfold upd_page. rewrite Ea. cbv zeta. destruct (Z.leb_spec MAX_PHYS_PAGES (a / 4096)); [lia|].
    destruct (Z.eqb_spec x a) as [->|N].
    + rewrite (proj2 (Z.leb_gt _ _)) in * by lia. cbn. rewrite upd_eq. unfold g. cbn. rewrite wrap_small; lia.
    + case_bool; [lia|]. cbn. rewrite upd_ne; [lia|]. intros Eq. apply N. Z.to_euclidean_division_equations. lia.
  - intros s r s' x W E Hx. cbn [fr_ok fr_used fr_alloc fr_refcount pmm_frames] in *. unfold pmm_alloc_page in E.
    apply (alloc_internal_spec _ _ _ _ _ _ W) in E as [(_ & -> & _)|(_ & W' & (i & A) & _)]; [done|].
    destruct (owned_page s x W Hx) as (j & Hj & Uj & Bj & Hx0 & Hxa & Ex). destruct (al_fresh _ _ _ _ _ A j Hj Uj) as (_ & _ & _ & D).
    unfold pmm_page_refcount. rewrite (al_keep _ _ _ _ _ A); [done|]. intros [Hr _]. rewrite Ex in Hr.
    pose proof (fo_cells _ (wf_forest _ W') i (al_pool _ _ _ _ _ A)) as C. pose proof (ck_base _ _ C). pose proof (ck_align _ _ C) as Ha.
    pose proof (fo_cells _ (wf_forest _ W) j Hj) as Cj. destruct (ck_size _ _ Cj) as (k & Hk & Sj). assert (1 <= 4 ^ k) by (apply (Z.pow_le_mono_r 4 0 k); lia).
    unfold phys_to_pfn, PAGE_SHIFT, Pmm.PAGE_SIZE, disjoint_cells in *. rewrite Z.shiftr_div_pow2 in Hr by lia. change (2 ^ 12) with 4096 in Hr. rewrite Bj in D.
    Z.to_euclidean_division_equations. lia.
Qed.

(** ** A process with one page *)

Module Demo.
Import VmmClaims.Demo(hhdm0, root0, va, rw, hhdm0_pos, attrs_rw).

(** The tables of a space are far fewer than the frames of a large machine. *)
Lemma count_le n : forall lo f B, (forall i, Z.of_nat (f i) <= B) -> Z.of_nat (count n lo f) <= Z.of_nat n * B.
Proof.
  induction n as [|n IH]; intros lo f B Hf; [done|].
  change (count (S n) lo f) with (f lo + count n (lo + 1) f)%nat.
  rewrite Nat2Z.inj_add, Nat2Z.inj_succ. pose proof (Hf lo). pose proof (IH (lo + 1) f B Hf). lia.
Qed.

Fixpoint most (l : nat) : Z := match l with O => 0 | S l' => 512 * (1 + most l') end.

Lemma tables_le (m : mem) : forall l t, Z.of_nat (tables hhdm0 l m t) <= most l.
Proof.
  induction l as [|l IH]; intros t; [done|].
  change (tables hhdm0 (S l) m t) with
    (count 512 0 (fun i => let e := entry t i m in if live e then S (tables hhdm0 l m (table_of hhdm0 e)) else O)).
  apply (count_le 512 _ _ (1 + most l)). intros i. cbv zeta. pose proof (IH (table_of hhdm0 (entry t i m))). destruct (live _); lia.
Qed.

Lemma user_tables_le m t : Z.of_nat (user_tables hhdm0 m t) <= 256 * (1 + most 2).
Proof.
  apply (count_le 256 _ _ (1 + most 2)). intros i. cbv zeta. pose proof (tables_le m 2 (table_of hhdm0 (entry t i m))). destruct (live _); lia.
Qed.

Lemma draws_bump k p p' : draws k p p' -> fb_end p' = fb_end p /\ fb_next p <= fb_next p' <= fb_next p + 4096 * Z.of_nat k.
Proof.
  induction 1 as [p|k p p' D IH|k p p' a D IH Hu]; [lia| |exact IH].
  cbn [fr_alloc bump_frames]. destruct (Z.leb_spec (fb_next p' + 4096) (fb_end p')); cbn [fst snd fb_end fb_next]; lia.
Qed.

Lemma bump_supply n p : 0 < fb_next p -> fb_next p + 4096 * Z.of_nat n <= fb_end p -> fb_end p <= 2 ^ 46 -> supply hhdm0 n p.
Proof.
  intros H0 H1 H2. split; intros k p' D Hk; destruct (draws_bump k p p' D) as [E1 E2].
  - cbn [fr_alloc bump_frames]. rewrite (proj2 (Z.leb_le _ _)) by lia. cbn. lia.
  - intros a Ha. cbn in Ha. unfold hhdm0. lia.
Qed.

(** The root alone. *)
Definition bare : vmm frame_bump Z :=
  VmmClaims.Demo.start <| frames := {| fb_next := 0x2000; fb_end := 2 ^ 40; fb_refs := fun _ => 0 |} |>.

(** The frame at 0x2000 mapped at [va]. *)
Definition taken : vmm frame_bump Z := snd (alloc_frame bare).
Definition one : vmm frame_bump Z := snd (vmm_map_page hhdm0 root0 va 0x2000 rw taken).

Lemma bare_space : uspace hhdm0 bare root0 /\ forall v, VmmProps.leaf hhdm0 (vm bare) root0 v = None.
Proof.
  assert (forall v, VmmProps.leaf hhdm0 (vm bare) root0 v = None) as L by (intros v; reflexivity). split; [|exact L]. split.
  - apply empty_tree; [|intros i _; reflexivity]. split. exists 0x1000. split; [done|]. split; [split; cbn; lia|]. split; [done|lia].
  - split; cbn; [lia|done].
  - intros a Ha. cbn in Ha. unfold hhdm0. lia.
  - intros v h e _ E. by rewrite L in E.
  - intros v v' e e' _ _ E. by rewrite L in E.
Qed.

Lemma bare_budget : budget hhdm0 4 (frames bare).
Proof.
  split; [intros [|[|[|[|k]]]] Hk; try lia; vm_compute; discriminate|]. intros a Ha. change (0 <= a < 0x6000) in Ha. unfold hhdm0. lia.
Qed.

(** What mapping a page leaves alone. *)
Lemma goc_rest t i f (s : vmm frame_bump Z) : bytes (vm s) ->
  bytes (vm (snd (get_or_create_table hhdm0 t i f s))) /\ g_kernel_pml4 (snd (get_or_create_table hhdm0 t i f s)) = g_kernel_pml4 s.
Proof.
  intros Hb. unfold get_or_create_table, alloc_page_table, alloc_frame. destruct (has _ _); [by destruct (has _ _)|].
  destruct (fr_alloc (frames s)) as [phys p']. destruct (phys =? 0); [done|].
  assert (bytes (vm (zero_page (vmm_phys_to_virt hhdm0 phys) (s <| frames := p' |>)))) as Hz.
  { intros a. change (0 <= snd (memset (vmm_phys_to_virt hhdm0 phys) 0 4096 (vm s)) a < 256). rewrite memset_at by lia.
    case_bool; [by change (u8 0) with 0|apply Hb]. }
  destruct (_ =? 0); [done|]. split; [|done]. by apply store_bytes.
Qed.

Lemma map_rest v phys flags (s : vmm frame_bump Z) r : bytes (vm s) ->
  bytes (vm (snd (vmm_map_page hhdm0 r v phys flags s))) /\ g_kernel_pml4 (snd (vmm_map_page hhdm0 r v phys flags s)) = g_kernel_pml4 s.
Proof.
  intros Hb. unfold vmm_map_page. set (f := Z.land flags VMM_FLAG_USER).
  destruct (goc_rest r (pml4_index v) f s Hb) as [B1 K1]. destruct (get_or_create_table hhdm0 r _ _ s) as [t1 s1]. cbn [snd] in *.
  destruct (t1 =? 0); [done|]. destruct (goc_rest t1 (pdpt_index v) f s1 B1) as [B2 K2]. destruct (get_or_create_table hhdm0 t1 _ _ s1) as [t2 s2]. cbn [snd] in *.
  destruct (t2 =? 0); [cbn [snd]; split; [done|congruence]|]. destruct (goc_rest t2 (pd_index v) f s2 B2) as [B3 K3].
  destruct (get_or_create_table hhdm0 t2 _ _ s2) as [t3 s3]. cbn [snd] in *. destruct (t3 =? 0); [cbn [snd]; split; [done|congruence]|].
  split; [by apply store_bytes|]. transitivity (g_kernel_pml4 s3); [reflexivity|congruence].
Qed.

Lemma one_space : uspace hhdm0 one root0 /\ bytes (vm one) /\ g_kernel_pml4 one = root0 /\
  (exists k, (k <= 3)%nat /\ frames one = allocs k (frames taken)) /\
  (forall v, user v -> v / 4096 <> va / 4096 -> VmmProps.leaf hhdm0 (vm one) root0 v = None) /\
  exists e, VmmProps.leaf hhdm0 (vm one) root0 va = Some (false, e) /\ frame e = 0x2000 /\ has e VMM_FLAG_DONT_FREE = false.
Proof.
  destruct bare_space as [U L]. pose proof bare_budget as B.
  assert (alloc_frame bare = (0x2000, taken)) as Ea by reflexivity.
  destruct (page_step hhdm0 hhdm0_pos (eq_refl : aligned hhdm0) bare root0 va (fun _ => 0) rw 0x2000 taken (fun _ => 0) Ea
    (fun _ _ => eq_refl) (fun _ _ => eq_refl) U B attrs_rw eq_refl ltac:(unfold va; lia) ltac:(unfold va; lia) (L va)) as (s' & E & D).
  change (taken <| vm := fun _ => 0 |>) with taken in E.
  assert (one = s') as Eo by (unfold one; by rewrite E). assert (bytes (vm taken)) as Hbt by (intros a; change (0 <= 0 < 256); lia).
  assert (bytes (vm one) /\ g_kernel_pml4 one = root0) as [Hb Hk] by exact (map_rest va 0x2000 rw taken root0 Hbt).
  assert (exists k, (k <= 3)%nat /\ frames one = allocs k (frames taken)) as Ek by exact (map_page_allocs hhdm0 taken root0 va 0x2000 rw).
  rewrite <- Eo in *. clear Eo. split; [apply D|]. split; [exact Hb|]. split; [exact Hk|]. split; [exact Ek|]. split.
  - intros v Hv Hn. destruct (ld_other _ _ _ _ _ _ _ _ _ D v Hv) as [-> _]; [|apply L]. rewrite <- in_page by done. done.
  - exists (pte 0x2000 rw). split_and!; [|vm_compute; reflexivity|vm_compute; reflexivity].
    assert (fr_ok (frames taken)) as ok_taken by (split; [change (4096 <= 0x3000); lia|reflexivity]).
    assert (tree_ok : VmmProps.tree hhdm0 (frames taken) (vm taken) root0).
    { apply (tree_mono hhdm0 (frames bare)); [intros a Ha; change (0 <= a < 0x2000) in Ha; change (0 <= a < 0x3000); lia|apply U]. }
    destruct (map_page_ok hhdm0 hhdm0_pos taken root0 va 0x2000 rw true one E tree_ok ok_taken attrs_rw) as [_ K].
    destruct K as [_ K]; [apply D|]. rewrite K, bool_decide_true; [reflexivity|intros i _; reflexivity].
Qed.

End Demo.

End VmmFork.
