(* ===== verification/Elf.v ===== *)
(** * The ELF loader (src/src/fs/elf.c, elf.h)

    An executable is a [buffer] of which the first [file_size] bytes are the
    file.  The loader creates an address space with the operations of Vmm.v,
    maps the PT_LOAD segments, applies the relocations, builds the initial
    stack and starts a task or replaces the image of the calling one.  The
    files and the scheduler are the interfaces [Files] and [Spawn].  [None] is
    a call that does not return.  Offsets from the start of a file buffer are
    signed: an offset with the top bit set points below the buffer. *)

From Stdlib Require Import String.
From S2P Require Import Prelude Mem Str Block Fat32 Vmm Cstr Kprintf.
Import Mem Str Vmm Cstr.
Import Block(buffer, blit) Fat32(M, M_ret, M_bind, out_of_fuel).

(** ** What the loader needs of the file system and of the scheduler *)

Class Files (F : Type) := {
  fs_open : list Z -> Z -> F -> option (Z * F);
  fs_read : Z -> buffer -> Z -> F -> option (Z * buffer * F);
  fs_close : Z -> F -> option (Z * F);
  fs_close_cloexec : Z -> F -> option F
}.

Module Elf.

#[local] Existing Instances M_ret M_bind.

(** ** Constants and headers *)

Definition ELF_MAGIC : Z := 0x464C457F.
Definition ET_EXEC : Z := 2.
Definition ET_DYN : Z := 3.
Definition PT_LOAD : Z := 1.
Definition PT_DYNAMIC : Z := 2.
Definition PT_INTERP : Z := 3.
Definition DT_NULL : Z := 0.
Definition DT_RELA : Z := 7.
Definition DT_RELASZ : Z := 8.
Definition DT_RELAENT : Z := 9.
Definition R_X86_64_NONE : Z := 0.
Definition R_X86_64_RELATIVE : Z := 8.
Definition PF_X : Z := 1.
Definition PF_W : Z := 2.
Definition AT_NULL : Z := 0.
Definition AT_PHDR : Z := 3.
Definition AT_PHENT : Z := 4.
Definition AT_PHNUM : Z := 5.
Definition AT_PAGESZ : Z := 6.
Definition AT_BASE : Z := 7.
Definition AT_FLAGS : Z := 8.
Definition AT_ENTRY : Z := 9.
Definition AT_RANDOM : Z := 25.
Definition AT_EXECFN : Z := 31.
Definition ELF_INTERP_GAP_BYTES : Z := 2 * 1024 * 1024.
Definition USER_STACK_BASE : Z := 0x00007FFF00000000.
Definition USER_STACK_PAGES : Z := 256.
Definition USER_STACK_SIZE : Z := USER_STACK_PAGES * PAGE_SIZE.
Definition USER_STACK_TOP : Z := USER_STACK_BASE + USER_STACK_SIZE.
Definition USER_ELF_DYN_BASE : Z := 0x400000.
Definition SIZEOF_EHDR : Z := 64.
Definition SIZEOF_PHDR : Z := 56.
Definition SIZEOF_DYN : Z := 16.
Definition SIZEOF_RELA : Z := 24.

(** The fields of elf64_ehdr_t that the loader reads. *)
Record elf64_ehdr_t := {
  e_magic : Z; e_class : Z; e_type : Z; e_machine : Z; e_entry : Z; e_phoff : Z; e_phentsize : Z; e_phnum : Z
}.

Definition ehdr_of (base : buffer) : elf64_ehdr_t := {|
  e_magic := load 4 0 base; e_class := base 4; e_type := load 2 16 base; e_machine := load 2 18 base;
  e_entry := load 8 24 base; e_phoff := load 8 32 base; e_phentsize := load 2 54 base; e_phnum := load 2 56 base |}.

Record elf64_phdr_t := {
  p_type : Z; p_flags : Z; p_offset : Z; p_vaddr : Z; p_filesz : Z; p_memsz : Z
}.

Definition phdr_of (base : buffer) (o : Z) : elf64_phdr_t := {|
  p_type := load 4 o base; p_flags := load 4 (o + 4) base; p_offset := load 8 (o + 8) base;
  p_vaddr := load 8 (o + 16) base; p_filesz := load 8 (o + 32) base; p_memsz := load 8 (o + 40) base |}.

(** ** Program headers *)

Section image.
Variable base : buffer.
Let ehdr := ehdr_of base.

Definition elf_phdr_at (idx : Z) : option elf64_phdr_t :=
  if e_phnum ehdr <=? idx then None
  else Some (phdr_of base (i64 (e_phoff ehdr + idx * e_phentsize ehdr))).

(** The headers in order, as the loops [for (u16 i = 0; i < e_phnum; i++)] see
    them. *)
Definition phdrs : list elf64_phdr_t := omap elf_phdr_at (seqZ 0 (e_phnum ehdr)).

Definition elf_find_phdr (kind : Z) : option elf64_phdr_t := List.find (fun ph => p_type ph =? kind) phdrs.

(** The negation of [p_type != PT_LOAD || p_memsz == 0]. *)
Definition loadable (ph : elf64_phdr_t) : bool := (p_type ph =? PT_LOAD) && negb (p_memsz ph =? 0).

Definition elf_va_to_file_off (va : Z) : option Z :=
  match List.find (fun ph => loadable ph && (p_vaddr ph <=? va) && (va <? u64 (p_vaddr ph + p_memsz ph))) phdrs with
  | None => None
  | Some ph =>
      let delta := u64 (va - p_vaddr ph) in
      if p_filesz ph <=? delta then None else Some (u64 (p_offset ph + delta))
  end.

Definition elf_min_load_vaddr : Z :=
  let min_v := fold_left (fun min_v ph =>
    if loadable ph && (p_vaddr ph <? min_v) then p_vaddr ph else min_v) phdrs (2 ^ 64 - 1) in
  if min_v =? 2 ^ 64 - 1 then 0 else min_v.

Definition elf_align_up (x align : Z) : Z :=
  if align =? 0 then x else Z.land (u64 (x + align - 1)) (u64 (Z.lnot (u64 (align - 1)))).

Definition elf_max_load_end (load_bias : Z) : Z :=
  fold_left (fun mx ph =>
    if loadable ph then
      let e := u64 (load_bias + p_vaddr ph + p_memsz ph) in if mx <? e then e else mx
    else mx) phdrs 0.

Definition elf_phdr_runtime_addr (load_bias : Z) : option Z :=
  let phoff := e_phoff ehdr in
  match List.find (fun ph => loadable ph && (p_offset ph <=? phoff) && (phoff <? u64 (p_offset ph + p_filesz ph))) phdrs with
  | None => None
  | Some ph => Some (u64 (load_bias + p_vaddr ph + u64 (phoff - p_offset ph)))
  end.

(** The entries of the dynamic section from offset [cur] to [dend]: DT_RELA,
    DT_RELASZ, DT_RELAENT. *)
Fixpoint scan_dynamic (n : nat) (cur dend : Z) (acc : Z * Z * Z) : Z * Z * Z :=
  match n with
  | O => acc
  | S n' =>
      if cur + SIZEOF_DYN <=? dend then
        let d_tag := load 8 cur base in
        let d_un := load 8 (cur + 8) base in
        let '(rela_va, relasz, relaent) := acc in
        if d_tag =? DT_NULL then acc
        else scan_dynamic n' (cur + SIZEOF_DYN) dend
               (if d_tag =? DT_RELA then (d_un, relasz, relaent)
                else if d_tag =? DT_RELASZ then (rela_va, d_un, relaent)
                else if (d_tag =? DT_RELAENT) && negb (d_un =? 0) then (rela_va, relasz, d_un)
                else acc)
      else acc
  end.

End image.

(** ** Segments *)

(** [memcpy] from a file buffer, or from an array on the kernel stack, to
    memory. *)
Definition copy_in {P H} (d : Z) (src : buffer) (so n : Z) (s : vmm P H) : vmm P H := s <| vm := blit (vm s) d src so n |>.

(** An array with the bytes of [l]. *)
Definition array (l : list Z) : buffer := fun i => nth (Z.to_nat i) l 0.

(** The eight bytes of a u64. *)
Definition u64_bytes (v : Z) : list Z := le 8 v.

(** A vector of string pointers, some of them NULL. *)
Definition strings := Z -> option (list Z).

Section space.
Context {P H : Type} `{Frames P} `{Kheap H}.
Variable hhdm : Z.
Implicit Types s : vmm P H.

(** The pages of a segment from [va] on. *)
Fixpoint map_segment (n : nat) (pml4 : Z) (base : buffer) (phdr : elf64_phdr_t) (seg_base pflags va : Z) s : bool * vmm P H :=
  match n with
  | O => (true, s)
  | S n' =>
      let '(phys, s) := alloc_frame s in
      if phys =? 0 then (false, s)
      else
        let kva := vmm_phys_to_virt hhdm phys in
        let s := zero_page kva s in
        let file_seg_start := seg_base in
        let file_seg_end := u64 (seg_base + p_filesz phdr) in
        let s :=
          if (file_seg_start <? va + PAGE_SIZE) && (va <? file_seg_end) then
            let copy_start := if file_seg_start <? va then va else file_seg_start in
            let copy_end := if va + PAGE_SIZE <? file_seg_end then va + PAGE_SIZE else file_seg_end in
            let dst_offset := copy_start - va in
            let src_offset := copy_start - seg_base in
            copy_in (kva + dst_offset) base (i64 (p_offset phdr + src_offset)) (u64 (copy_end - copy_start)) s
          else s in
        let '(_, s) := vmm_map_page hhdm pml4 va phys pflags s in
        map_segment n' pml4 base phdr seg_base pflags (va + PAGE_SIZE) s
  end.

Definition segment_flags (phdr : elf64_phdr_t) : Z :=
  let pflags := Z.lor VMM_FLAG_PRESENT VMM_FLAG_USER in
  let pflags := if has (p_flags phdr) PF_W then Z.lor pflags VMM_FLAG_WRITE else pflags in
  if has (p_flags phdr) PF_X then pflags else Z.lor pflags VMM_FLAG_NX.

Definition map_load (pml4 : Z) (base : buffer) (load_bias : Z) (phdr : elf64_phdr_t) s : bool * vmm P H :=
  let seg_base := u64 (p_vaddr phdr + load_bias) in
  let seg_start := clear_bits seg_base 0xFFF in
  let seg_end := clear_bits (u64 (seg_base + p_memsz phdr + 0xFFF)) 0xFFF in
  map_segment (Z.to_nat ((seg_end - seg_start) / PAGE_SIZE)) pml4 base phdr seg_base (segment_flags phdr) seg_start s.

Fixpoint map_loads (l : list elf64_phdr_t) (pml4 : Z) (base : buffer) (load_bias : Z) s : bool * vmm P H :=
  match l with
  | [] => (true, s)
  | phdr :: l =>
      if negb (loadable phdr) then map_loads l pml4 base load_bias s
      else
        let '(ok, s) := map_load pml4 base load_bias phdr s in
        if negb ok then (false, s) else map_loads l pml4 base load_bias s
  end.

Definition elf_map_pt_loads (pml4 : Z) (base : buffer) (load_bias : Z) s : bool * vmm P H :=
  map_loads (phdrs base) pml4 base load_bias s.

(** ** Relocations *)

Definition elf_write_u64_user (pml4 va val : Z) s : bool * vmm P H :=
  if negb (Z.land va 7 =? 0) then (false, s)
  else
    let phys := vmm_virt_to_phys hhdm pml4 va s in
    if phys =? 0 then (false, s)
    else (true, s <| vm := store 8 (vmm_phys_to_virt hhdm phys) val (vm s) |>).

(** The relocation entries from offset [off] of the table on. *)
Fixpoint relocate (n : nat) (pml4 : Z) (base : buffer) (rela_file_off relasz relaent load_base va_bias off : Z) s
  : option (bool * vmm P H) :=
  match n with
  | O => None
  | S n' =>
      if relasz <? u64 (off + SIZEOF_RELA) then Some (true, s)
      else
        let rr := i64 (rela_file_off + off) in
        let r_offset := load 8 rr base in
        let type := u32 (load 8 (rr + 8) base) in
        let r_addend := load 8 (rr + 16) base in
        let loc := u64 (va_bias + r_offset) in
        let next := relocate n' pml4 base rela_file_off relasz relaent load_base va_bias (u64 (off + relaent)) in
        if type =? R_X86_64_RELATIVE then
          let '(ok, s) := elf_write_u64_user pml4 loc (u64 (load_base + r_addend)) s in
          if ok then next s else Some (false, s)
        else if type =? R_X86_64_NONE then next s
        else Some (false, s)
  end.

Definition elf_apply_relocations (pml4 : Z) (base : buffer) (file_size load_base va_bias : Z) s : option (bool * vmm P H) :=
  match elf_find_phdr base PT_DYNAMIC with
  | None => Some (true, s)
  | Some dyn_ph =>
      if p_memsz dyn_ph =? 0 then Some (true, s)
      else if file_size <? u64 (p_offset dyn_ph + p_filesz dyn_ph) then Some (false, s)
      else
        let dstart := i64 (p_offset dyn_ph) in
        let dend := i64 (p_offset dyn_ph + p_filesz dyn_ph) in
        let '(rela_va, relasz, relaent) :=
          scan_dynamic base (Z.to_nat ((dend - dstart) / SIZEOF_DYN)) dstart dend (0, 0, SIZEOF_RELA) in
        if relasz =? 0 then Some (true, s)
        else if (rela_va =? 0) || (relaent <? SIZEOF_RELA) then Some (false, s)
        else
          match elf_va_to_file_off base rela_va with
          | None => Some (false, s)
          | Some rela_file_off =>
              if file_size <? u64 (rela_file_off + relasz) then Some (false, s)
              else relocate (S (Z.to_nat (relasz / SIZEOF_RELA))) pml4 base rela_file_off relasz relaent load_base va_bias 0 s
          end
  end.

(** ** The initial stack *)

(** At most [n] chunks; a chunk ends at a page boundary. *)
Fixpoint copy_chunks (n : nat) (pml4 dst : Z) (src : buffer) (so len : Z) s : bool * vmm P H :=
  match n with
  | O => (true, s)
  | S n' =>
      if len =? 0 then (true, s)
      else
        let phys := vmm_virt_to_phys hhdm pml4 dst s in
        if phys =? 0 then (false, s)
        else
          let page_off := Z.land dst (PAGE_SIZE - 1) in
          let chunk := if len <? PAGE_SIZE - page_off then len else PAGE_SIZE - page_off in
          let s := copy_in (vmm_phys_to_virt hhdm (clear_bits phys 0xFFF) + page_off) src so chunk s in
          copy_chunks n' pml4 (u64 (dst + chunk)) src (so + chunk) (len - chunk) s
  end.

Definition copy_to_user_mapping (pml4 dst : Z) (src : list Z) s : bool * vmm P H :=
  copy_chunks (length src) pml4 dst (array src) 0 (Z.of_nat (length src)) s.

Definition count_string_vector (items : option strings) (max_items : Z) : Z :=
  match items with
  | None => 0
  | Some items => default max_items (find_index (Z.to_nat max_items) 0 (fun i => bool_decide (items i = None)))
  end.

(** The bytes put on the stack for one string: at most 254 of them and the
    terminator. *)
Definition stack_string (arg : list Z) : list Z := copy_str 255 arg ++ [0].

(** The strings [i-1, ..., 0], downwards from [sp], with the array of pointers. *)
Fixpoint copy_strings (i : nat) (pml4 sp : Z) (items : strings) (ptrs : Z -> Z) s : bool * Z * (Z -> Z) * vmm P H :=
  match i with
  | O => (true, sp, ptrs, s)
  | S i' =>
      let bytes := stack_string (default [] (items (Z.of_nat i'))) in
      let sp := u64 (sp - Z.of_nat (length bytes)) in
      let '(ok, s) := copy_to_user_mapping pml4 sp bytes s in
      if negb ok then (false, sp, ptrs, s)
      else copy_strings i' pml4 sp items (ptrs.[Z.of_nat i' <- sp]) s
  end.

Definition copy_string_vector (pml4 sp count : Z) (items : strings) (ptrs : Z -> Z) s : bool * Z * (Z -> Z) * vmm P H :=
  if (pml4 =? 0) || (count <? 0) then (false, sp, ptrs, s) else copy_strings (Z.to_nat count) pml4 sp items ptrs s.

(** Pointers [i, ..., i+n-1]. *)
Fixpoint copy_pointers (n : nat) (pml4 base i : Z) (ptrs : Z -> Z) s : bool * vmm P H :=
  match n with
  | O => (true, s)
  | S n' =>
      let '(ok, s) := copy_to_user_mapping pml4 (u64 (base + i * 8)) (u64_bytes (ptrs i)) s in
      if negb ok then (false, s) else copy_pointers n' pml4 base (i + 1) ptrs s
  end.

Definition copy_pointer_vector (pml4 base count : Z) (ptrs : Z -> Z) s : bool * vmm P H :=
  if (pml4 =? 0) || (count <? 0) then (false, s)
  else
    let '(ok, s) := copy_pointers (Z.to_nat count) pml4 base 0 ptrs s in
    if negb ok then (false, s) else copy_to_user_mapping pml4 (u64 (base + count * 8)) (u64_bytes 0) s.

(** [argv] and [argc] after the defaults: one argument, the name, when there is
    none; at most 16. *)
Definition stack_args (name : option (list Z)) (argc : Z) (argv : option strings) : Z * strings :=
  let name := match name with Some (c :: n) => c :: n | _ => str "app" end in
  let '(argc, argv) :=
    match argv with
    | Some argv => if argc <=? 0 then (1, fun _ => Some name) else (argc, argv)
    | None => (1, fun _ => Some name)
    end in
  (if 16 <? argc then 16 else argc, argv).

(** The strings of the environment and of the arguments: the number of
    variables, the stack pointer and the two arrays of pointers. *)
Definition push_strings (pml4 : Z) (argc : Z) (argv : strings) (envp : option strings) (junk : Z -> Z) s
  : bool * (Z * Z * (Z -> Z) * (Z -> Z)) * vmm P H :=
  let sp := USER_STACK_TOP - 8 in
  let envc := count_string_vector envp 16 in
  let '(ok, sp, env_ptrs, s) := copy_string_vector pml4 sp envc (default (fun _ => None) envp) junk s in
  if negb ok then (false, (envc, sp, env_ptrs, junk), s)
  else
    let '(ok, sp, arg_ptrs, s) := copy_string_vector pml4 sp argc argv junk s in
    (ok, (envc, sp, env_ptrs, arg_ptrs), s).

(** The two pointer vectors below [sp]: where they start. *)
Definition push_vectors (pml4 sp argc envc : Z) (arg_ptrs env_ptrs : Z -> Z) s : bool * (Z * Z) * vmm P H :=
  let envp_user := u64 (sp - (envc + 1) * 8) in
  let '(ok, s) := copy_pointer_vector pml4 envp_user envc env_ptrs s in
  if negb ok then (false, (0, envp_user), s)
  else
    let argv_user := u64 (envp_user - (argc + 1) * 8) in
    let '(ok, s) := copy_pointer_vector pml4 argv_user argc arg_ptrs s in
    (ok, (argv_user, envp_user), s).

(** The stack pointer, argv and envp; the stack pointer is 0 on failure. *)
Definition build_initial_stack (pml4 : Z) (name : option (list Z)) (argc : Z) (argv envp : option strings) (junk : Z -> Z) s
  : Z * (Z * Z) * vmm P H :=
  let '(argc, argv) := stack_args name argc argv in
  let '(ok, (envc, sp, env_ptrs, arg_ptrs), s) := push_strings pml4 argc argv envp junk s in
  if negb ok then (0, (0, 0), s)
  else
    let sp := clear_bits sp 0xF in
    let '(ok, (argv_user, envp_user), s) := push_vectors pml4 sp argc envc arg_ptrs env_ptrs s in
    if negb ok then (0, (0, 0), s)
    else
      let sp := if negb (Z.land argv_user 0xF =? 8) then u64 (argv_user - 8) else argv_user in
      (sp, (argv_user, envp_user), s).

(** The auxiliary vector. *)
Definition auxv (at_phdr phent phnum at_entry at_base random_slot execfn_user : Z) : list Z :=
  [AT_PHDR; at_phdr; AT_PHENT; phent; AT_PHNUM; phnum; AT_PAGESZ; PAGE_SIZE; AT_BASE; at_base;
   AT_FLAGS; 0; AT_ENTRY; at_entry; AT_RANDOM; random_slot] ++
  (if execfn_user =? 0 then [] else [AT_EXECFN; execfn_user]) ++ [AT_NULL; 0].

Definition build_initial_stack_ldso (pml4 : Z) (name : option (list Z)) (argc : Z) (argv envp : option strings)
    (execfn : option (list Z)) (at_phdr phent phnum at_entry at_base : Z) (junk : Z -> Z) s : Z * vmm P H :=
  let '(argc, argv) := stack_args name argc argv in
  let '(ok, (envc, sp, env_ptrs, arg_ptrs), s) := push_strings pml4 argc argv envp junk s in
  if negb ok then (0, s)
  else
    let '(ok, execfn_user, sp, s) :=
      match execfn with
      | Some (c :: f) =>
          let bytes := stack_string (c :: f) in
          let sp := u64 (sp - Z.of_nat (length bytes)) in
          let '(ok, s) := copy_to_user_mapping pml4 sp bytes s in (ok, sp, sp, s)
      | _ => (true, 0, sp, s)
      end in
    if negb ok then (0, s)
    else
      let random_slot := u64 (sp - 16) in
      let '(ok, s) := copy_to_user_mapping pml4 random_slot (repeat 0x41 16) s in
      if negb ok then (0, s)
      else
        let sp := clear_bits random_slot 0xF in
        let aux := flat_map u64_bytes (auxv at_phdr phent phnum at_entry at_base random_slot execfn_user) in
        let sp := u64 (sp - Z.of_nat (length aux)) in
        let '(ok, s) := copy_to_user_mapping pml4 sp aux s in
        if negb ok then (0, s)
        else
          let '(ok, (sp, _), s) := push_vectors pml4 sp argc envc arg_ptrs env_ptrs s in
          if negb ok then (0, s)
          else
            let sp := if negb (Z.land sp 0xF =? 8) then u64 (sp - 8) else sp in
            let '(ok, s) := elf_write_u64_user pml4 sp (if argc <=? 0 then 1 else argc) s in
            if negb ok then (0, s) else (sp, s).

(** The pages [i, ..., i+n-1] of the stack. *)
Fixpoint stack_pages (n : nat) (user_pml4 i : Z) s : bool * vmm P H :=
  match n with
  | O => (true, s)
  | S n' =>
      let va := USER_STACK_BASE + i * PAGE_SIZE in
      let '(phys, s) := alloc_frame s in
      if phys =? 0 then (false, s)
      else
        let s := zero_page (vmm_phys_to_virt hhdm phys) s in
        let '(_, s) := vmm_map_page hhdm user_pml4 va phys
          (Z.lor (Z.lor (Z.lor VMM_FLAG_PRESENT VMM_FLAG_USER) VMM_FLAG_WRITE) VMM_FLAG_NX) s in
        stack_pages n' user_pml4 (i + 1) s
  end.

Definition allocate_user_stack (user_pml4 : Z) s : bool * vmm P H := stack_pages (Z.to_nat USER_STACK_PAGES) user_pml4 0 s.

End space.

(** ** Tasks and images *)

Record elf_bootstrap_arg_t := { ba_entry : Z; ba_pml4 : Z; ba_stack_top : Z; ba_argc : Z; ba_argv : Z; ba_envp : Z }.
Record elf_ldso_bootstrap_arg_t := { bl_entry : Z; bl_pml4 : Z; bl_stack_top : Z }.

(** The entry function of a new task with the argument it gets. *)
Inductive start := elf_user_entry_of (ba : elf_bootstrap_arg_t) | elf_user_entry_ldso_of (ba : elf_ldso_bootstrap_arg_t).

(** sched_spawn with the name, the entry with the address of its argument, and
    the priority: the task and its identifier. *)
Class Spawn (T : Type) := { sched_spawn : option (list Z) -> start -> Z -> Z -> T -> option (Z * Z) * T }.

Record elf_exec_image_t := {
  im_pml4 : Z; im_entry : Z; im_rsp : Z; im_argc : Z; im_argv : Z; im_envp : Z; im_brk_start : Z; im_ldso_entry : bool
}.

(** The fields of task_t that the loader reads or writes. *)
Record task_t := {
  id : Z; thread_group : Z; mm : mmtask; signal_pending : Z; sig_mask : Z; sig_handlers : Z -> Z; tls_base : Z; name : list Z
}.
#[export] Instance eta_task : Eta task_t := fun r => Build_task_t (id r) (thread_group r) (mm r) (signal_pending r)
  (sig_mask r) (sig_handlers r) (tls_base r) (name r).

Record world {P H F T : Type} := { space : vmm P H; files : F; sched : T; cr3 : Z; current : Z; task : Z -> task_t }.
Arguments world : clear implicits.
#[export] Instance eta_world {P H F T} : Eta (world P H F T) :=
  fun r => Build_world P H F T (space r) (files r) (sched r) (cr3 r) (current r) (task r).

(** How a system call that may not return ends. *)
Inductive outcome := Returns (rc : Z) | EnterUser (rip rsp argc argv envp : Z) | EnterUserLdso (rip rsp : Z).

Section loader.
Context {P H F T : Type} `{Frames P} `{Kheap H} `{Files F} `{Spawn T}.
Variable hhdm : Z.
(** What uninitialised memory holds. *)
Variable junk : buffer.
(** The bound on the number of reads of one file. *)
Variable reads : nat.

#[local] Notation W := (world P H F T).
#[local] Notation L := (M W).

Definition get : L W := fun w => Some (w, w).
Definition modify (f : W -> W) : L unit := fun w => Some (tt, f w).
Definition on_space {A} (f : vmm P H -> A * vmm P H) : L A := fun w =>
  let '(a, s) := f (space w) in Some (a, w <| space := s |>).
Definition on_space_opt {A} (f : vmm P H -> option (A * vmm P H)) : L A := fun w =>
  match f (space w) with Some (a, s) => Some (a, w <| space := s |>) | None => None end.
Definition on_files {A} (f : F -> option (A * F)) : L A := fun w =>
  match f (files w) with Some (a, x) => Some (a, w <| files := x |>) | None => None end.

Definition kmalloc (n : Z) : L Z := on_space (fun s => let '(a, h) := kh_alloc n (kheap s) in (a, s <| kheap := h |>)).
Definition kfree (a : Z) : L unit := on_space (fun s => (tt, s <| kheap := kh_free a (kheap s) |>)).
Definition create_pml4 : L Z := w ← get; on_space (vmm_create_user_pml4 hhdm (cr3 w)).
Definition destroy_pml4 (pml4 : Z) : L unit := on_space (fun s => (tt, vmm_destroy_user_pml4 hhdm pml4 s)).

(** *** Reading a file *)

Definition MAX_FILE : Z := 4 * 1024 * 1024.

(** The loop that reads the open file [fd] to its end, doubling the buffer;
    the buffer is freed on failure.  The result is the buffer, its contents and
    the size of the file. *)
Fixpoint read_loop (n : nat) (fd buf : Z) (data : buffer) (size cap : Z) : L (option (Z * buffer * Z)) :=
  match n with
  | O => out_of_fuel
  | S n' =>
      '(ok, buf, data, cap) ←
        (if size =? cap then
           let new_cap := cap * 2 in
           if MAX_FILE <? new_cap then mret (false, buf, data, cap)
           else
             next ← kmalloc new_cap;
             if next =? 0 then mret (false, buf, data, cap)
             else _ ← kfree buf; mret (true, next, blit junk 0 data 0 size, new_cap)
         else mret (true, buf, data, cap));
      if negb ok then _ ← kfree buf; mret None
      else
        '(n, part) ← on_files (fs_read fd (fun i => data (size + i)) (cap - size));
        let data := blit data size part 0 (cap - size) in
        if n <? 0 then _ ← kfree buf; mret None
        else if n =? 0 then mret (Some (buf, data, size))
        else read_loop n' fd buf data (size + n) cap
  end.

Definition read_open_file (fd : Z) : L (option (Z * buffer * Z)) :=
  buf ← kmalloc 65536;
  r ← (if buf =? 0 then mret None else read_loop reads fd buf junk 0 65536);
  _ ← on_files (fs_close fd);
  mret r.

Definition elf_read_whole_file (path : list Z) : L (option (Z * buffer * Z)) :=
  fd ← on_files (fs_open path 0);
  if fd <? 0 then mret None else read_open_file fd.

(** *** Checks of the headers *)

Definition is_elf64 (base : buffer) : bool :=
  let ehdr := ehdr_of base in (e_magic ehdr =? ELF_MAGIC) && (e_class ehdr =? 2) && (e_machine ehdr =? 0x3E).

Definition known_type (base : buffer) : bool :=
  let ehdr := ehdr_of base in (e_type ehdr =? ET_EXEC) || (e_type ehdr =? ET_DYN).

Definition phdrs_inside (base : buffer) (file_size : Z) : bool :=
  let ehdr := ehdr_of base in u64 (e_phoff ehdr + e_phnum ehdr * e_phentsize ehdr) <=? file_size.

Definition phdr_size_ok (base : buffer) : bool := e_phentsize (ehdr_of base) =? SIZEOF_PHDR.

(** The characters before a terminator or a line end. *)
Fixpoint line (l : list Z) : list Z :=
  match l with
  | [] => []
  | c :: l => if (c =? 0) || (c =? 10) || (c =? 13) then [] else c :: line l
  end.

(** The path in the PT_INTERP segment, at most 255 characters, if the segment
    lies in the file. *)
Definition interp_path (base : buffer) (file_size : Z) : list Z :=
  match elf_find_phdr base PT_INTERP with
  | None => []
  | Some ph =>
      if (0 <? p_filesz ph) && (u64 (p_offset ph + p_filesz ph) <=? file_size) then
        let il := if 256 <=? p_filesz ph then 255 else p_filesz ph in
        line (map (fun i => base (i64 (p_offset ph) + i)) (seqZ 0 il))
      else []
  end.

Definition clamp_argc (argc : Z) : Z := if argc <=? 0 then 1 else if 16 <? argc then 16 else argc.

Definition brk_after (end_ : Z) : Z := u64 (elf_align_up end_ PAGE_SIZE + PAGE_SIZE).

(** *** Images for exec *)

Definition elf_prepare_static_image (base : buffer) (file_size : Z) (name : option (list Z)) (argc : Z)
    (argv envp : option strings) : L (option elf_exec_image_t) :=
  if file_size <? SIZEOF_EHDR then mret None
  else if negb (is_elf64 base) then mret None
  else if negb (known_type base) then mret None
  else if negb (phdr_size_ok base && phdrs_inside base file_size) then mret None
  else
    let ehdr := ehdr_of base in
    user_pml4 ← create_pml4;
    if user_pml4 =? 0 then mret None
    else
      let load_bias := if e_type ehdr =? ET_DYN then USER_ELF_DYN_BASE else 0 in
      ok ← on_space (elf_map_pt_loads hhdm user_pml4 base load_bias);
      if negb ok then _ ← destroy_pml4 user_pml4; mret None
      else
        let load_base := u64 (load_bias + elf_min_load_vaddr base) in
        ok ← on_space_opt (elf_apply_relocations hhdm user_pml4 base file_size load_base load_bias);
        if negb ok then _ ← destroy_pml4 user_pml4; mret None
        else
          ok ← on_space (allocate_user_stack hhdm user_pml4);
          if negb ok then _ ← destroy_pml4 user_pml4; mret None
          else
            '(user_rsp, (argv_user, envp_user)) ← on_space (build_initial_stack hhdm user_pml4 name argc argv envp junk);
            if user_rsp =? 0 then _ ← destroy_pml4 user_pml4; mret None
            else mret (Some {|
              im_pml4 := user_pml4; im_entry := u64 (load_bias + e_entry ehdr); im_rsp := user_rsp;
              im_argc := clamp_argc argc; im_argv := argv_user; im_envp := envp_user;
              im_brk_start := brk_after (elf_max_load_end base load_bias); im_ldso_entry := false |}).

Definition elf_prepare_dynamic_image (base : buffer) (file_size : Z) (name : option (list Z)) (argc : Z)
    (argv envp : option strings) (execfn : option (list Z)) : L (option elf_exec_image_t) :=
  if file_size <? SIZEOF_EHDR then mret None
  else if negb (is_elf64 base && known_type base) then mret None
  else if negb (phdr_size_ok base && phdrs_inside base file_size) then mret None
  else
    let ehdr := ehdr_of base in
    let path := interp_path base file_size in
    match path with
    | [] => mret None
    | _ =>
      r ← elf_read_whole_file path;
      let '(interp_buf, ibase, interp_sz) := default (0, junk, 0) r in
      if interp_sz <? SIZEOF_EHDR then _ ← kfree interp_buf; mret None
      else
        let ieh := ehdr_of ibase in
        if negb (is_elf64 ibase && (e_type ieh =? ET_DYN) && phdr_size_ok ibase && phdrs_inside ibase interp_sz)
        then _ ← kfree interp_buf; mret None
        else
          user_pml4 ← create_pml4;
          if user_pml4 =? 0 then _ ← kfree interp_buf; mret None
          else
            let fail := (_ ← destroy_pml4 user_pml4; _ ← kfree interp_buf; mret None) in
            let main_bias := if e_type ehdr =? ET_DYN then USER_ELF_DYN_BASE else 0 in
            ok ← on_space (elf_map_pt_loads hhdm user_pml4 base main_bias);
            if negb ok then fail
            else
              let main_load_base := u64 (main_bias + elf_min_load_vaddr base) in
              ok ← on_space_opt (elf_apply_relocations hhdm user_pml4 base file_size main_load_base main_bias);
              if negb ok then fail
              else
                let max_main := elf_max_load_end base main_bias in
                let interp_bias := elf_align_up (u64 (max_main + ELF_INTERP_GAP_BYTES)) PAGE_SIZE in
                ok ← on_space (elf_map_pt_loads hhdm user_pml4 ibase interp_bias);
                if negb ok then fail
                else
                  let interp_load_base := u64 (interp_bias + elf_min_load_vaddr ibase) in
                  ok ← on_space_opt (elf_apply_relocations hhdm user_pml4 ibase interp_sz interp_load_base interp_bias);
                  if negb ok then fail
                  else
                    match elf_phdr_runtime_addr base main_bias with
                    | None => fail
                    | Some at_phdr =>
                        ok ← on_space (allocate_user_stack hhdm user_pml4);
                        if negb ok then fail
                        else
                          user_rsp ← on_space (build_initial_stack_ldso hhdm user_pml4 name argc argv envp
                            (match execfn with Some f => Some f | None => name end) at_phdr
                            (e_phentsize ehdr) (e_phnum ehdr) (u64 (main_bias + e_entry ehdr)) interp_load_base junk);
                          if user_rsp =? 0 then fail
                          else
                            _ ← kfree interp_buf;
                            mret (Some {|
                              im_pml4 := user_pml4; im_entry := u64 (interp_bias + e_entry ieh); im_rsp := user_rsp;
                              im_argc := clamp_argc argc; im_argv := 0; im_envp := 0;
                              im_brk_start := brk_after max_main; im_ldso_entry := true |})
                    end
    end.

(** *** Spawning a task *)

(** The fields of a new task set after sched_spawn. *)
Definition set_new_task (t pml4 brk : Z) : L unit := modify (fun w =>
  w <| task := (task w).[t <- (task w t) <| mm := ((mm (task w t)) <| t_pml4 := pml4 |> <| brk_start := brk |>) <| brk_current := brk |> |>] |>).

Definition spawn (name : option (list Z)) (st : start) (ba prio : Z) : L (option (Z * Z)) := fun w =>
  let '(r, x) := sched_spawn name st ba prio (sched w) in Some (r, w <| sched := x |>).

(** The branch for a program with an interpreter. *)
Definition spawn_interp (base : buffer) (name : option (list Z)) (argc : Z) (argv envp : option strings) (path : list Z) : L Z :=
  let ehdr := ehdr_of base in
  r ← elf_read_whole_file path;
  let '(interp_buf, ibase, interp_sz) := default (0, junk, 0) r in
  if interp_sz <? SIZEOF_EHDR then _ ← kfree interp_buf; mret (-1)
  else
    let ieh := ehdr_of ibase in
    if negb (is_elf64 ibase && (e_type ieh =? ET_DYN)) then _ ← kfree interp_buf; mret (-1)
    else if negb (phdrs_inside ibase interp_sz) then _ ← kfree interp_buf; mret (-1)
    else
      user_pml4 ← create_pml4;
      if user_pml4 =? 0 then _ ← kfree interp_buf; mret (-1)
      else
        let fail := (_ ← destroy_pml4 user_pml4; _ ← kfree interp_buf; mret (-1)) in
        ok ← on_space (elf_map_pt_loads hhdm user_pml4 base 0);
        if negb ok then fail
        else
          let max_main := elf_max_load_end base 0 in
          let interp_bias := elf_align_up (u64 (max_main + ELF_INTERP_GAP_BYTES)) PAGE_SIZE in
          ok ← on_space (elf_map_pt_loads hhdm user_pml4 ibase interp_bias);
          if negb ok then fail
          else
            let interp_load_base := u64 (interp_bias + elf_min_load_vaddr ibase) in
            ok ← on_space_opt (elf_apply_relocations hhdm user_pml4 ibase interp_sz interp_load_base interp_bias);
            if negb ok then fail
            else
              match elf_phdr_runtime_addr base 0 with
              | None => fail
              | Some at_phdr =>
                  ok ← on_space (allocate_user_stack hhdm user_pml4);
                  if negb ok then fail
                  else
                    user_rsp ← on_space (build_initial_stack_ldso hhdm user_pml4 name argc argv envp name at_phdr
                      (e_phentsize ehdr) (e_phnum ehdr) (e_entry ehdr) interp_load_base junk);
                    if user_rsp =? 0 then fail
                    else
                      ba ← kmalloc 24;
                      if ba =? 0 then fail
                      else
                        r ← spawn name (elf_user_entry_ldso_of {|
                          bl_entry := u64 (interp_bias + e_entry ieh); bl_pml4 := user_pml4; bl_stack_top := user_rsp |}) ba 2;
                        match r with
                        | None => _ ← kfree ba; fail
                        | Some (t, tid) =>
                            _ ← set_new_task t user_pml4 (brk_after max_main);
                            _ ← kfree interp_buf;
                            mret (i64 tid)
                        end
              end.

(** The branch for a program without. *)
Definition spawn_static (base : buffer) (file_size : Z) (name : option (list Z)) (argc : Z) (argv envp : option strings) : L Z :=
  let ehdr := ehdr_of base in
  user_pml4 ← create_pml4;
  if user_pml4 =? 0 then mret (-1)
  else
    let fail := (_ ← destroy_pml4 user_pml4; mret (-1)) in
    ok ← on_space (elf_map_pt_loads hhdm user_pml4 base 0);
    if negb ok then fail
    else
      ok ← on_space_opt (elf_apply_relocations hhdm user_pml4 base file_size (elf_min_load_vaddr base) 0);
      if negb ok then fail
      else
        ok ← on_space (allocate_user_stack hhdm user_pml4);
        if negb ok then fail
        else
          '(user_rsp, (argv_user, envp_user)) ← on_space (build_initial_stack hhdm user_pml4 name argc argv envp junk);
          if user_rsp =? 0 then fail
          else
            ba ← kmalloc 48;
            if ba =? 0 then fail
            else
              r ← spawn name (elf_user_entry_of {|
                ba_entry := e_entry ehdr; ba_pml4 := user_pml4; ba_stack_top := user_rsp;
                ba_argc := clamp_argc argc; ba_argv := argv_user; ba_envp := envp_user |}) ba 2;
              match r with
              | None => _ ← kfree ba; fail
              | Some (t, tid) =>
                  _ ← set_new_task t user_pml4 (brk_after (elf_max_load_end base 0));
                  mret (i64 tid)
              end.

Definition elf_spawn_argv_envp (base : buffer) (file_size : Z) (name : option (list Z)) (argc : Z)
    (argv envp : option strings) : L Z :=
  if file_size <? SIZEOF_EHDR then mret (-1)
  else if negb (is_elf64 base) then mret (-1)
  else if negb (known_type base) then mret (-1)
  else if negb (phdrs_inside base file_size) then mret (-1)
  else
    match interp_path base file_size with
    | [] => spawn_static base file_size name argc argv envp
    | path => spawn_interp base name argc argv envp path
    end.

Definition elf_spawn_argv (base : buffer) (file_size : Z) (name : option (list Z)) (argc : Z) (argv : option strings) : L Z :=
  elf_spawn_argv_envp base file_size name argc argv None.

Definition elf_spawn (base : buffer) (file_size : Z) (name : option (list Z)) : L Z :=
  elf_spawn_argv base file_size name 0 None.

Definition elf_load (base : buffer) (file_size : Z) (name : option (list Z)) : L bool :=
  r ← elf_spawn base file_size name; mret (0 <=? r).

(** The first steps of a new task: its page table is loaded and the argument
    is freed. *)
Definition enter_space (pml4 ba : Z) : L unit :=
  _ ← modify (fun w => w <| task := (task w).[current w <- (task w (current w)) <| mm := (mm (task w (current w))) <| t_pml4 := pml4 |> |>] |>);
  _ ← modify (fun w => w <| cr3 := vmm_virt_hhdm_to_phys hhdm pml4 |>);
  kfree ba.

Definition elf_user_entry (addr : Z) (ba : elf_bootstrap_arg_t) : L outcome :=
  _ ← enter_space (ba_pml4 ba) addr;
  mret (EnterUser (ba_entry ba) (ba_stack_top ba) (ba_argc ba) (ba_argv ba) (ba_envp ba)).

Definition elf_user_entry_ldso (addr : Z) (ba : elf_ldso_bootstrap_arg_t) : L outcome :=
  _ ← enter_space (bl_pml4 ba) addr;
  mret (EnterUserLdso (bl_entry ba) (bl_stack_top ba)).

(** *** Finding an executable *)

(** The part after the last slash that does not end the path. *)
Fixpoint basename_from (cur path : list Z) : list Z :=
  match path with
  | [] => cur
  | c :: rest => basename_from (match rest with [] => cur | _ => if c =? 47 then rest else cur end) rest
  end.

Definition elf_basename (path : option (list Z)) : list Z :=
  match path with None => str "app" | Some path => basename_from path path end.

Definition path_has_slash (path : option (list Z)) : bool :=
  match path with None => false | Some path => existsb (Z.eqb 47) path end.

Definition elf_path_has_magic (path : list Z) : L bool :=
  fd ← on_files (fs_open path 0);
  if fd <? 0 then mret false
  else
    '(n, magic) ← on_files (fs_read fd junk 4);
    _ ← on_files (fs_close fd);
    if negb (n =? 4) then mret false
    else
      let value := Z.lor (Z.lor (Z.lor (magic 0) (Z.shiftl (magic 1) 8)) (Z.shiftl (magic 2) 16)) (Z.shiftl (magic 3) 24) in
      mret (value =? ELF_MAGIC).

Definition name_already_yam_suffixed (name : list Z) : bool :=
  (4 <? strlen name) && streq (drop (length name - 4) name) (str ".yam").

(** The resolved path, if the file is an ELF file. *)
Definition try_elf_candidate_path (path : list Z) (out_cap : Z) : L (option (list Z)) :=
  ok ← elf_path_has_magic path;
  if negb ok then mret None else mret (Some (copy_str out_cap path)).

Definition search_dirs : list (list Z) :=
  map str ["/bin"; "/usr/local/bin"; "/opt/yamos/apps"; "/opt/yamos/packages"; "/home/root/bin"]%string.

(** [ksnprintf(candidate, 256, "%s/%s<suffix>", dir, name)], as a string. *)
Definition candidate (dir name suffix : list Z) : list Z := take 255 (dir ++ str "/" ++ name ++ suffix).

Fixpoint search (dirs : list (list Z)) (name : list Z) (out_cap : Z) : L (option (list Z)) :=
  match dirs with
  | [] => mret None
  | dir :: dirs =>
      r ← try_elf_candidate_path (candidate dir name []) out_cap;
      match r with
      | Some out => mret (Some out)
      | None =>
          r ← (if name_already_yam_suffixed name then mret None
               else try_elf_candidate_path (candidate dir name (str ".yam")) out_cap);
          match r with
          | Some out => mret (Some out)
          | None => search dirs name out_cap
          end
      end
  end.

Definition elf_resolve_executable (name : option (list Z)) (out_cap : Z) : L (option (list Z)) :=
  match name with
  | None | Some [] => mret None
  | Some nm =>
      if out_cap =? 0 then mret None
      else if path_has_slash name then try_elf_candidate_path nm out_cap
      else search search_dirs nm out_cap
  end.

Definition elf_spawn_path_argv_envp (path : option (list Z)) (argc : Z) (argv envp : option strings) : L Z :=
  match path with
  | None | Some [] => mret (-1)
  | Some p =>
      fd ← on_files (fs_open p 0);
      if fd <? 0 then mret (-1)
      else
        r ← read_open_file fd;
        match r with
        | None => mret (-1)
        | Some (buf, data, size) =>
            let '(argc, argv) :=
              match argv with
              | Some _ => if argc <=? 0 then (1, Some (fun _ => Some p)) else (argc, argv)
              | None => (1, Some (fun _ => Some p))
              end in
            pid ← elf_spawn_argv_envp data size (Some (elf_basename path)) argc argv envp;
            _ ← kfree buf;
            mret pid
        end
  end.

(** The vector with the resolved path in front: its first [argc] elements and
    NULL. *)
Definition resolved_argv (resolved : list Z) (argc : Z) (argv : option strings) : Z * strings :=
  let only := (1, fun i : Z => if i =? 0 then Some resolved else None) in
  match argv with
  | None => only
  | Some argv =>
      if argc <=? 0 then only
      else
        let capped := if 16 <? argc then 16 else argc in
        (capped, fun i => if i =? 0 then Some resolved else if i <? capped then argv i else None)
  end.

Definition elf_spawn_resolved_argv_envp (name : option (list Z)) (argc : Z) (argv envp : option strings) : L Z :=
  r ← elf_resolve_executable name 256;
  match r with
  | None => mret (-1)
  | Some resolved =>
      let '(argc, argv) := resolved_argv resolved argc argv in
      elf_spawn_path_argv_envp (Some resolved) argc (Some argv) envp
  end.

Definition elf_spawn_path_argv (path : option (list Z)) (argc : Z) (argv : option strings) : L Z :=
  elf_spawn_path_argv_envp path argc argv None.

Definition elf_spawn_path (path : option (list Z)) : L Z := elf_spawn_path_argv path 0 None.

(** *** Replacing the image of the calling task *)

(** The condition [has_interp]. *)
Definition has_interp (base : buffer) (size : Z) : bool :=
  (SIZEOF_EHDR <=? size) && (e_magic (ehdr_of base) =? ELF_MAGIC) && (e_class (ehdr_of base) =? 2) && phdr_size_ok base &&
  phdrs_inside base size && match elf_find_phdr base PT_INTERP with Some _ => true | None => false end.

(** The task after the switch to the new image. *)
Definition commit_image (img : elf_exec_image_t) (resolved : list Z) : L unit :=
  w ← get;
  let cur := current w in
  let old_pml4 := t_pml4 (mm (task w cur)) in
  vt ← on_space (fun s =>
    let '(vt, s) := vmm_destroy_task_vmas ((mm (task w cur)) <| t_pml4 := im_pml4 img |>) s in (vt, s));
  _ ← modify (fun w => w <| task := (task w).[cur <- (task w cur)
    <| mm := (vt <| brk_start := im_brk_start img |>) <| brk_current := im_brk_start img |> |>
    <| signal_pending := 0 |> <| sig_mask := 0 |> <| sig_handlers := fun i => if (0 <=? i) && (i <? 32) then 0 else sig_handlers (task w cur) i |>
    <| tls_base := 0 |> <| thread_group := 0 |> <| name := copy_str 24 (elf_basename (Some resolved)) |>] |>);
  _ ← on_files (fun f => match fs_close_cloexec cur f with Some f => Some (tt, f) | None => None end);
  _ ← modify (fun w => w <| cr3 := vmm_virt_hhdm_to_phys hhdm (im_pml4 img) |>);
  if negb (old_pml4 =? 0) && negb (old_pml4 =? im_pml4 img) then destroy_pml4 old_pml4 else mret tt.

Definition elf_exec_resolved_argv_envp (name : option (list Z)) (argc : Z) (argv envp : option strings) : L outcome :=
  r ← elf_resolve_executable name 256;
  match r with
  | None => mret (Returns (-1))
  | Some resolved =>
      let '(argc, exec_argv) := resolved_argv resolved argc argv in
      r ← elf_read_whole_file resolved;
      match r with
      | None => mret (Returns (-1))
      | Some (buf, data, size) =>
          let nm := Some (elf_basename (Some resolved)) in
          img ← (if has_interp data size
                 then elf_prepare_dynamic_image data size nm argc (Some exec_argv) envp (Some resolved)
                 else elf_prepare_static_image data size nm argc (Some exec_argv) envp);
          match img with
          | None => _ ← kfree buf; mret (Returns (-1))
          | Some img =>
              w ← get;
              if current w =? 0 then _ ← destroy_pml4 (im_pml4 img); _ ← kfree buf; mret (Returns (-1))
              else
                let cur := task w (current w) in
                if negb (thread_group cur =? 0) && negb (thread_group cur =? id cur) then
                  _ ← destroy_pml4 (im_pml4 img); _ ← kfree buf; mret (Returns (-38))
                else
                  _ ← commit_image img resolved;
                  _ ← kfree buf;
                  mret (if im_ldso_entry img then EnterUserLdso (im_entry img) (im_rsp img)
                        else EnterUser (im_entry img) (im_rsp img) (im_argc img) (im_argv img) (im_envp img))
          end
      end
  end.

End loader.
End Elf.
