(* ===== verification/ElfProps.v ===== *)
(** * Properties of the ELF loader's steps

    Copying to a mapped part of a user space, loading the pages of a segment
    and of the stack, and the layout of the initial stack. *)

From S2P Require Import Prelude Mem Str Block Vmm VmmProps UserSpace Cstr Elf.
Import Mem Str Vmm VmmProps UserSpace Cstr Elf.
Import Block(buffer, blit).

Module ElfProps.

Section props.
Context {P H : Type} `{HF : Frames P} `{HFL : !FramesLaws P} `{HK : Kheap H}.
Variable hhdm : Z.
Hypothesis Hhhdm : 0 <= hhdm.
Hypothesis Hpage : aligned hhdm.
Implicit Types s : vmm P H.

Notation leaf := (leaf hhdm).
Notation uspace := (uspace hhdm).
Notation mapped := (mapped hhdm).
Notation user_byte := (user_byte hhdm).

(** ** Writing to a mapped range *)

(** From [s] to [s'] the bytes of [lo, hi) became [c], and nothing else
    changed. *)
Record wrote (s s' : vmm P H) (r lo hi : Z) (c : Z -> Z) : Prop := {
  wr_space : uspace s' r;
  wr_frames : frames s' = frames s;
  wr_leaf : forall v, leaf (vm s') r v = leaf (vm s) r v;
  wr_bytes : forall v, user v -> mapped s r v ->
    user_byte r v s' = if (lo <=? v) && (v <? hi) then c v else user_byte r v s
}.

Definition range_mapped s r (lo hi : Z) : Prop := forall v, lo <= v < hi -> mapped s r v.

Lemma wrote_mapped s s' r lo hi c v : wrote s s' r lo hi c -> mapped s' r v <-> mapped s r v.
Proof using Type. intros W. unfold UserSpace.mapped. by rewrite (wr_leaf _ _ _ _ _ _ W). Qed.

Lemma wrote_nil s r lo c : uspace s r -> wrote s s r lo lo c.
Proof using Type. intros U. split; auto. intros v _ _. case_bool; [lia|done]. Qed.

Lemma wrote_app s1 s2 s3 r lo mid hi c : wrote s1 s2 r lo mid c -> wrote s2 s3 r mid hi c -> lo <= mid <= hi -> wrote s1 s3 r lo hi c.
Proof using Type.
  intros W1 W2 Hle. split; [apply W2|by rewrite (wr_frames _ _ _ _ _ _ W2), (wr_frames _ _ _ _ _ _ W1)| |].
  - intros v. by rewrite (wr_leaf _ _ _ _ _ _ W2), (wr_leaf _ _ _ _ _ _ W1).
  - intros v Hv M. rewrite (wr_bytes _ _ _ _ _ _ W2) by (auto; by apply (wrote_mapped _ _ _ _ _ _ _ W1)).
    rewrite (wr_bytes _ _ _ _ _ _ W1) by auto. repeat case_bool; try lia; done.
Qed.

Lemma low_bits v : Z.land v (PAGE_SIZE - 1) = v mod 4096.
Proof using Type. change (PAGE_SIZE - 1) with (Z.ones 12). by rewrite Z.land_ones by lia. Qed.

(** One chunk of copy_to_user_mapping. *)
Lemma copy_chunk_ok s r dst src so n : uspace s r -> user dst -> mapped s r dst -> 0 <= n -> dst mod 4096 + n <= 4096 ->
  let phys := vmm_virt_to_phys hhdm r dst s in
  phys <> 0 /\
  wrote s (copy_in (vmm_phys_to_virt hhdm (clear_bits phys 0xFFF) + dst mod 4096) src so n s) r dst (dst + n)
    (fun v => src (so + (v - dst))).
Proof using Hhhdm Hpage.
  intros U Hu [e L] Hn Hb phys. destruct (us_data _ _ _ U dst _ e Hu L) as [_ D].
  destruct (data_range hhdm Hhhdm Hpage s r _ U D) as [R1 R2]. pose proof (Z.mod_pos_bound dst 4096 ltac:(lia)) as Hm.
  assert (phys = frame e + dst mod 4096) as Ep by (apply mapped_phys; [apply U|done]).
  assert (clear_bits phys 0xFFF = frame e) as ->.
  { rewrite clear_low by lia. rewrite Ep. pose proof (frame_aligned e) as Ha. unfold aligned in Ha.
    Z.to_euclidean_division_equations. lia. }
  assert (vmm_phys_to_virt hhdm (frame e) = frame e + hhdm) as -> by (apply wrap_small; lia).
  split; [lia|]. destruct (write_bytes hhdm Hhhdm Hpage s r dst e (dst mod 4096) src so n _ U Hu L ltac:(lia) Hn Hb ltac:(done)) as (U' & L' & B).
  split; [exact U'|done|exact L'|]. intros v Hv M. unfold copy_in. rewrite B by done.
  assert ((v / 4096 =? dst / 4096) && (dst mod 4096 <=? v mod 4096) && (v mod 4096 <? dst mod 4096 + n) =
          (dst <=? v) && (v <? dst + n)) as ->.
  { apply eq_true_iff_eq. rewrite !andb_true_iff, !Z.eqb_eq, !Z.leb_le, !Z.ltb_lt. Z.to_euclidean_division_equations. lia. }
  case_bool; [|done]. f_equal. Z.to_euclidean_division_equations. lia.
Qed.

(** The space changed in [lo, hi) at most. *)
Record kept (s s' : vmm P H) (r lo hi : Z) : Prop := {
  kp_space : uspace s' r;
  kp_frames : frames s' = frames s;
  kp_leaf : forall v, leaf (vm s') r v = leaf (vm s) r v;
  kp_bytes : forall v, user v -> mapped s r v -> ~ lo <= v < hi -> user_byte r v s' = user_byte r v s
}.

(** The memory as the program reads it, and the bytes [l] from [a] on in it. *)
Definition view (r : Z) s : mem := fun v => user_byte r v s.
Definition at_user (r a : Z) (l : list Z) s : Prop := holds (view r s) a l.

Lemma kept_mapped s s' r lo hi v : kept s s' r lo hi -> mapped s r v -> mapped s' r v.
Proof using Type. intros K [e E]. exists e. by rewrite (kp_leaf _ _ _ _ _ K). Qed.

Lemma kept_range s s' r lo hi a b : kept s s' r lo hi -> range_mapped s r a b -> range_mapped s' r a b.
Proof using Type. intros K R v Hv. apply (kept_mapped s s' r lo hi v K). by apply R. Qed.

Lemma kept_refl s r lo hi : uspace s r -> kept s s r lo hi.
Proof using Type. by split. Qed.

Lemma kept_steps s1 s2 s3 r lo1 hi1 lo2 hi2 lo hi : kept s1 s2 r lo1 hi1 -> kept s2 s3 r lo2 hi2 ->
  lo <= lo1 /\ hi1 <= hi -> lo <= lo2 /\ hi2 <= hi -> kept s1 s3 r lo hi.
Proof using Type.
  intros K1 K2 H1 H2. split; [apply K2|by rewrite (kp_frames _ _ _ _ _ K2), (kp_frames _ _ _ _ _ K1)| |].
  - intros v. by rewrite (kp_leaf _ _ _ _ _ K2), (kp_leaf _ _ _ _ _ K1).
  - intros v Hv M N. rewrite (kp_bytes _ _ _ _ _ K2 v Hv (kept_mapped _ _ _ _ _ v K1 M)) by lia.
    apply (kp_bytes _ _ _ _ _ K1 v Hv M). lia.
Qed.

Lemma kept_at s s' r lo hi a l : kept s s' r lo hi -> 0 <= a -> a + Z.of_nat (length l) <= 2 ^ 47 ->
  range_mapped s r a (a + Z.of_nat (length l)) -> a + Z.of_nat (length l) <= lo \/ hi <= a -> at_user r a l s -> at_user r a l s'.
Proof using Type.
  intros K H0 H1 R D A k Hk. unfold view. rewrite (kp_bytes _ _ _ _ _ K) by (unfold user; try lia; apply R; lia). by apply A.
Qed.

Lemma copy_chunks_ok n : forall r dst src so len s, uspace s r -> 0 <= dst -> 0 <= len -> dst + len <= 2 ^ 47 -> len <= Z.of_nat n ->
  range_mapped s r dst (dst + len) ->
  exists s', copy_chunks hhdm n r dst src so len s = (true, s') /\ wrote s s' r dst (dst + len) (fun v => src (so + (v - dst))).
Proof using Hhhdm Hpage.
  induction n as [|n IH]; intros r dst src so len s U H0 H1 H2 Hn R; cbn [copy_chunks].
  { exists s. split; [done|]. replace (dst + len) with dst by lia. by apply wrote_nil. }
  destruct (Z.eqb_spec len 0) as [->|Hl]; [exists s; split; [done|]; rewrite Z.add_0_r; by apply wrote_nil|].
  rewrite low_bits. pose proof (Z.mod_pos_bound dst 4096 ltac:(lia)) as Hm. unfold PAGE_SIZE.
  set (chunk := if len <? 4096 - dst mod 4096 then len else 4096 - dst mod 4096).
  assert (0 < chunk <= len /\ dst mod 4096 + chunk <= 4096) as [Hc1 Hc2] by (unfold chunk; case_bool; lia).
  clearbody chunk. destruct (copy_chunk_ok s r dst src so chunk U ltac:(unfold user; lia) ltac:(apply R; lia) ltac:(lia) Hc2) as [Np W].
  rewrite (proj2 (Z.eqb_neq _ 0) Np). set (s1 := copy_in _ src so chunk s) in *. rewrite (wrap_small 64) by lia.
  destruct (IH r (dst + chunk) src (so + chunk) (len - chunk) s1) as (s' & E & W'); try lia; [apply W| |].
  { intros v Hv. apply (wrote_mapped _ _ _ _ _ _ v W). apply R. lia. }
  exists s'. split; [exact E|]. replace (dst + chunk + (len - chunk)) with (dst + len) in W' by lia.
  apply (wrote_app s s1 s' r dst (dst + chunk)); [exact W| |lia].
  destruct W' as [A1 A2 A3 A4]. split; auto. intros v Hv M. rewrite A4 by done. case_bool; [f_equal; lia|done].
Qed.

Lemma copy_to_user_ok r dst l s : uspace s r -> 0 <= dst -> dst + Z.of_nat (length l) <= 2 ^ 47 ->
  range_mapped s r dst (dst + Z.of_nat (length l)) ->
  exists s', copy_to_user_mapping hhdm r dst l s = (true, s') /\ kept s s' r dst (dst + Z.of_nat (length l)) /\ at_user r dst l s'.
Proof using Hhhdm Hpage.
  intros U H0 H1 R. destruct (copy_chunks_ok (length l) r dst (array l) 0 (Z.of_nat (length l)) s U H0 ltac:(lia) H1 ltac:(lia) R)
    as (s' & E & [A1 A2 A3 A4]). exists s'. split_and!; [exact E| |].
  - split; auto. intros v Hv M N. rewrite A4 by done. case_bool; [lia|done].
  - intros k Hk. unfold view. rewrite A4 by (unfold user; try lia; apply R; lia). case_bool; [|lia]. unfold array. do 2 f_equal. lia.
Qed.

(** ** Strings and pointers *)

Lemma stack_string_len l : 1 <= Z.of_nat (length (stack_string l)) <= 255.
Proof using Type. unfold stack_string, copy_str. rewrite length_app, length_take. cbn. lia. Qed.

Lemma copy_strings_ok i : forall r sp0 items ptrs s, uspace s r -> 0 <= sp0 - 255 * Z.of_nat i -> sp0 <= 2 ^ 47 ->
  range_mapped s r (sp0 - 255 * Z.of_nat i) sp0 ->
  exists sp ptrs' s', copy_strings hhdm i r sp0 items ptrs s = (true, sp, ptrs', s') /\
    kept s s' r sp sp0 /\ sp0 - 255 * Z.of_nat i <= sp <= sp0 /\
    (forall j, 0 <= j < Z.of_nat i -> let l := stack_string (default [] (items j)) in
       sp <= ptrs' j /\ ptrs' j + Z.of_nat (length l) <= sp0 /\ at_user r (ptrs' j) l s') /\
    forall j, Z.of_nat i <= j -> ptrs' j = ptrs j.
Proof using Hhhdm Hpage.
  induction i as [|i IH]; intros r sp0 items ptrs s U H0 H1 R; cbn [copy_strings].
  { exists sp0, ptrs, s. split_and!; auto; [by apply kept_refl|lia|lia|lia]. }
  set (l := stack_string (default [] (items (Z.of_nat i)))). pose proof (stack_string_len (default [] (items (Z.of_nat i)))) as Hl. fold l in Hl.
  set (sp := sp0 - Z.of_nat (length l)). rewrite (wrap_small 64 sp) by (unfold sp; lia).
  assert (sp0 = sp + Z.of_nat (length l)) as Esp by (unfold sp; lia). clearbody sp.
  destruct (copy_to_user_ok r sp l s U) as (s1 & -> & K1 & A1); [lia|lia| |]. { intros v Hv. apply R. lia. }
  cbn [negb]. destruct (IH r sp items (ptrs.[Z.of_nat i <- sp]) s1) as (sp' & ptrs' & s' & E & K2 & Hsp & HA & Hp).
  { apply K1. } { lia. } { lia. } { apply (kept_range s s1 r _ _ _ _ K1). intros v Hv. apply R. lia. }
  assert (ptrs' (Z.of_nat i) = sp) as Ei by (rewrite Hp by lia; apply upd_eq).
  exists sp', ptrs', s'. split_and!; [exact E| |lia|lia| |].
  - apply (kept_steps s s1 s' r sp (sp + Z.of_nat (length l)) sp' sp); [exact K1|exact K2|lia|lia].
  - intros j Hj. cbv zeta. destruct (decide (j = Z.of_nat i)) as [->|].
    + rewrite Ei. fold l. split_and!; [lia|lia|]. apply (kept_at s1 s' r sp' sp sp l K2); auto; try lia.
      apply (kept_range s s1 r _ _ _ _ K1). intros v Hv. apply R. lia.
    + destruct (HA j ltac:(lia)) as (B1 & B2 & B3). split_and!; [done|lia|done].
  - intros j Hj. rewrite Hp by lia. apply upd_ne. lia.
Qed.

(** The u64 a program reads at [a]. *)
Definition user_u64 (r a : Z) s : Z := load 8 a (view r s).

Lemma at_user_u64 r a v s : at_user r a (u64_bytes v) s -> 0 <= v < 2 ^ 64 -> user_u64 r a s = v.
Proof using Type. intros A Hv. exact (load_le 8 v _ a A Hv). Qed.

Lemma u64_bytes_len v : length (u64_bytes v) = 8%nat.
Proof using Type. apply le_length. Qed.

Lemma store_blit n : forall a v (m : mem) b, store n a v m b = blit m a (array (le n v)) 0 (Z.of_nat n) b.
Proof using Type.
  induction n as [|n IH]; intros a v m b; cbn [store le].
  - unfold blit. case_bool; [lia|done].
  - rewrite IH. unfold blit, array, upd. repeat case_bool; try lia; try done.
    + replace (Z.to_nat (b - a + 0)) with (S (Z.to_nat (b - (a + 1) + 0))) by lia. done.
    + by replace (Z.to_nat (b - a + 0)) with 0%nat by lia.
Qed.

(** A u64 written through the mapping. *)
Lemma write_u64_ok r va val s : uspace s r -> user va -> mapped s r va -> va mod 8 = 0 -> 0 <= val < 2 ^ 64 ->
  exists s', elf_write_u64_user hhdm r va val s = (true, s') /\ kept s s' r va (va + 8) /\ at_user r va (u64_bytes val) s'.
Proof using Hhhdm Hpage.
  intros U Hu [e L] Hal Hv. unfold elf_write_u64_user. change 7 with (Z.ones 3). rewrite Z.land_ones by lia. change (2 ^ 3) with 8. rewrite Hal. cbn [Z.eqb negb].
  destruct (us_data _ _ _ U va _ e Hu L) as [_ D]. destruct (data_range hhdm Hhhdm Hpage s r _ U D) as [R1 R2].
  destruct (mapped_byte hhdm Hhhdm Hpage s r va e U Hu L) as [Eb _].
  assert (vmm_virt_to_phys hhdm r va s = frame e + va mod 4096) as Ep by (apply mapped_phys; [apply U|done]).
  pose proof (Z.mod_pos_bound va 4096 ltac:(lia)) as Hm. rewrite (proj2 (Z.eqb_neq _ 0)) by lia. rewrite Eb.
  assert (va mod 4096 + 8 <= 4096) as Hr by (Z.to_euclidean_division_equations; lia).
  destruct (write_bytes hhdm Hhhdm Hpage s r va e (va mod 4096) (array (le 8 val)) 0 8 _ U Hu L ltac:(lia) ltac:(lia) Hr (store_blit 8 _ val (vm s))) as (U' & L' & B).
  set (s' := s <| vm := _ |>) in *. exists s'. split; [done|].
  assert (forall v, va <= v < va + 8 -> leaf (vm s) r v = Some (false, e)) as Hin.
  { intros v Hr'. rewrite <- L. symmetry. apply leaf_same, user_same; unfold user in *; [lia| |]; Z.to_euclidean_division_equations; lia. }
  split.
  - split; [exact U'|done|exact L'|]. intros v Hv' M N. rewrite B by done. case_bool; [|done].
    exfalso. Z.to_euclidean_division_equations. lia.
  - intros k Hk. rewrite u64_bytes_len in Hk. unfold view. rewrite B; [|unfold user in *; Z.to_euclidean_division_equations; lia|exists e; apply Hin; lia].
    assert ((va + k) mod 4096 = va mod 4096 + k /\ (va + k) / 4096 = va / 4096) as [-> ->] by (Z.to_euclidean_division_equations; lia).
    case_bool; [|lia]. unfold array. f_equal. lia.
Qed.

(** The pointers [i, ..., i+n-1] of a vector at [base]. *)
Lemma copy_pointers_ok n : forall r base i ptrs s, uspace s r -> 0 <= i -> 0 <= base -> base + 8 * (i + Z.of_nat n) <= 2 ^ 47 ->
  range_mapped s r base (base + 8 * (i + Z.of_nat n)) ->
  exists s', copy_pointers hhdm n r base i ptrs s = (true, s') /\ kept s s' r (base + 8 * i) (base + 8 * (i + Z.of_nat n)) /\
    forall j, i <= j < i + Z.of_nat n -> at_user r (base + 8 * j) (u64_bytes (ptrs j)) s'.
Proof using Hhhdm Hpage.
  induction n as [|n IH]; intros r base i ptrs s U Hi H0 H1 R; cbn [copy_pointers].
  { exists s. split_and!; [done|by apply kept_refl|lia]. }
  replace (base + i * 8) with (base + 8 * i) by lia. rewrite (wrap_small 64) by lia.
  destruct (copy_to_user_ok r (base + 8 * i) (u64_bytes (ptrs i)) s U) as (s1 & -> & K1 & A1);
    rewrite ?u64_bytes_len in *; change (Z.of_nat 8) with 8 in *; [lia|lia|intros v Hv; apply R; lia|]. cbn [negb].
  destruct (IH r base (i + 1) ptrs s1) as (s' & -> & K2 & A2); try lia; [apply K1| |].
  { apply (kept_range s s1 r _ _ _ _ K1). intros v Hv. apply R. lia. }
  exists s'. split_and!; [done| |].
  - apply (kept_steps s s1 s' r (base + 8 * i) (base + 8 * i + 8) (base + 8 * (i + 1)) (base + 8 * (i + 1 + Z.of_nat n))); [done|done|lia|lia].
  - intros j Hj. destruct (decide (j = i)) as [->|]; [|apply A2; lia].
    apply (kept_at s1 s' r _ _ _ _ K2); rewrite ?u64_bytes_len; change (Z.of_nat 8) with 8; auto; try lia.
    apply (kept_range s s1 r _ _ _ _ K1). intros v Hv. apply R. lia.
Qed.

Lemma copy_pointer_vector_ok r base count ptrs s : uspace s r -> r <> 0 -> 0 <= count -> 0 <= base -> base + 8 * (count + 1) <= 2 ^ 47 ->
  range_mapped s r base (base + 8 * (count + 1)) ->
  exists s', copy_pointer_vector hhdm r base count ptrs s = (true, s') /\ kept s s' r base (base + 8 * (count + 1)) /\
    (forall j, 0 <= j < count -> at_user r (base + 8 * j) (u64_bytes (ptrs j)) s') /\
    at_user r (base + 8 * count) (u64_bytes 0) s'.
Proof using Hhhdm Hpage.
  intros U Hr Hc H0 H1 R. unfold copy_pointer_vector. rewrite (proj2 (Z.eqb_neq r 0) Hr), (proj2 (Z.ltb_ge count 0) Hc). cbn [orb].
  destruct (copy_pointers_ok (Z.to_nat count) r base 0 ptrs s U) as (s1 & -> & K1 & A1); try lia.
  { intros v Hv. apply R. lia. }
  rewrite Z2Nat.id, Z.add_0_l in * by lia. cbn [negb]. replace (base + count * 8) with (base + 8 * count) by lia. rewrite (wrap_small 64) by lia.
  assert (range_mapped s1 r base (base + 8 * (count + 1))) as R1 by exact (kept_range s s1 r _ _ _ _ K1 R).
  destruct (copy_to_user_ok r (base + 8 * count) (u64_bytes 0) s1) as (s' & -> & K2 & A2);
    rewrite ?u64_bytes_len in *; change (Z.of_nat 8) with 8 in *; [apply K1|lia|lia|intros v Hv; apply R1; lia|].
  exists s'. split_and!; [done| | |done].
  - apply (kept_steps s s1 s' r (base + 8 * 0) (base + 8 * count) (base + 8 * count) (base + 8 * count + 8)); [done|done|lia|lia].
  - intros j Hj. apply (kept_at s1 s' r _ _ _ _ K2); rewrite ?u64_bytes_len; change (Z.of_nat 8) with 8; try lia; [|by apply A1].
    intros v Hv. apply R1. lia.
Qed.

(** ** The initial stack *)

(** The strings of [count] items, each at its pointer between [lo] and [hi]. *)
Definition strings_at r (count : Z) (items : strings) (ptrs : Z -> Z) (lo hi : Z) s : Prop := forall j, 0 <= j < count ->
  let l := stack_string (default [] (items j)) in
  lo <= ptrs j /\ ptrs j + Z.of_nat (length l) <= hi /\ at_user r (ptrs j) l s.

Lemma strings_at_kept r count items ptrs lo hi s s' a b : kept s s' r a b -> strings_at r count items ptrs lo hi s ->
  0 <= lo -> hi <= 2 ^ 47 -> range_mapped s r lo hi -> b <= lo \/ hi <= a -> strings_at r count items ptrs lo hi s'.
Proof using Type.
  intros K A H0 H1 R D j Hj. destruct (A j Hj) as (B1 & B2 & B3). split_and!; [done|done|].
  apply (kept_at s s' r a b _ _ K); try lia; [|done]. intros v Hv. apply R. lia.
Qed.

Lemma copy_string_vector_ok r sp0 count items junk s : uspace s r -> r <> 0 -> 0 <= count <= 16 -> 0 <= sp0 - 255 * 16 -> sp0 <= 2 ^ 47 ->
  range_mapped s r (sp0 - 255 * 16) sp0 ->
  exists sp ptrs s', copy_string_vector hhdm r sp0 count items junk s = (true, sp, ptrs, s') /\
    kept s s' r sp sp0 /\ sp0 - 255 * 16 <= sp <= sp0 /\ strings_at r count items ptrs sp sp0 s'.
Proof using Hhhdm Hpage.
  intros U Hr Hc H0 H1 R. unfold copy_string_vector. rewrite (proj2 (Z.eqb_neq r 0) Hr), (proj2 (Z.ltb_ge count 0)) by lia. cbn [orb].
  destruct (copy_strings_ok (Z.to_nat count) r sp0 items junk s U) as (sp & ptrs & s' & E & K & Hsp & A & _); [lia|lia| |].
  { intros v Hv. apply R. lia. }
  rewrite Z2Nat.id in * by lia. exists sp, ptrs, s'. split_and!; auto; lia.
Qed.

Lemma vector_count_range items n : 0 <= n -> 0 <= count_string_vector items n <= n.
Proof using Type.
  intros Hn. unfold count_string_vector. destruct items as [items|]; [|lia].
  destruct (find_index _ _ _) as [i|] eqn:E; cbn; [|lia]. apply find_index_Some in E as (? & _ & _). lia.
Qed.

Lemma push_strings_ok r argc argv envp junk s : uspace s r -> r <> 0 -> 0 <= argc <= 16 ->
  range_mapped s r USER_STACK_BASE USER_STACK_TOP ->
  let envc := count_string_vector envp 16 in let env := default (fun _ => None) envp in
  exists sp env_ptrs arg_ptrs s', push_strings hhdm r argc argv envp junk s = (true, (envc, sp, env_ptrs, arg_ptrs), s') /\
    kept s s' r sp (USER_STACK_TOP - 8) /\ USER_STACK_TOP - 8 - 2 * 255 * 16 <= sp <= USER_STACK_TOP - 8 /\
    strings_at r envc env env_ptrs sp (USER_STACK_TOP - 8) s' /\ strings_at r argc argv arg_ptrs sp (USER_STACK_TOP - 8) s'.
Proof using Hhhdm Hpage.
  intros U Hr Ha R envc env. unfold push_strings. fold envc env. pose proof (vector_count_range envp 16 ltac:(lia)) as Hc. fold envc in Hc.
  assert (USER_STACK_TOP = USER_STACK_BASE + 0x100000 /\ USER_STACK_BASE = 0x00007FFF00000000) as [ET EB] by done.
  destruct (copy_string_vector_ok r (USER_STACK_TOP - 8) envc env junk s U Hr Hc) as (sp1 & ep & s1 & -> & K1 & Hsp1 & A1); try lia.
  { intros v Hv. apply R. lia. }
  cbn [negb]. assert (range_mapped s1 r USER_STACK_BASE USER_STACK_TOP) as R1 by exact (kept_range s s1 r _ _ _ _ K1 R).
  destruct (copy_string_vector_ok r sp1 argc argv junk s1) as (sp2 & ap & s2 & -> & K2 & Hsp2 & A2); auto; try lia; [apply K1| |].
  { intros v Hv. apply R1. lia. }
  exists sp2, ep, ap, s2. split_and!; [done| |lia|lia| |].
  - apply (kept_steps s s1 s2 r sp1 (USER_STACK_TOP - 8) sp2 sp1); [done|done|lia|lia].
  - assert (strings_at r envc env ep sp1 (USER_STACK_TOP - 8) s2) as A3.
    { apply (strings_at_kept r envc env ep sp1 (USER_STACK_TOP - 8) s1 s2 sp2 sp1 K2 A1); [lia|lia| |lia].
      intros v Hv. apply R1. lia. }
    intros j Hj. destruct (A3 j Hj) as (B1 & B2 & B3). split_and!; [lia|exact B2|exact B3].
  - intros j Hj. destruct (A2 j Hj) as (B1 & B2 & B3). split_and!; [done|lia|done].
Qed.

(** A vector of string pointers at [a], with its NULL. *)
Definition vector_at r (a count : Z) (items : strings) s : Prop :=
  (forall j, 0 <= j < count -> at_user r (user_u64 r (a + 8 * j) s) (stack_string (default [] (items j))) s) /\
  user_u64 r (a + 8 * count) s = 0.

(** The pointers themselves. *)
Definition words_at r (a count : Z) (ptrs : Z -> Z) s : Prop :=
  (forall j, 0 <= j < count -> at_user r (a + 8 * j) (u64_bytes (ptrs j)) s) /\ at_user r (a + 8 * count) (u64_bytes 0) s.

Lemma word_kept s s' r lo hi a v : kept s s' r lo hi -> 0 <= a -> a + 8 <= 2 ^ 47 -> range_mapped s r a (a + 8) ->
  a + 8 <= lo \/ hi <= a -> at_user r a (u64_bytes v) s -> at_user r a (u64_bytes v) s'.
Proof using Type.
  intros K H0 H1 R D A. apply (kept_at s s' r lo hi a _ K); rewrite ?u64_bytes_len; change (Z.of_nat 8) with 8; auto.
Qed.

Lemma words_kept s s' r lo hi a count ptrs : kept s s' r lo hi -> 0 <= count -> 0 <= a -> a + 8 * (count + 1) <= 2 ^ 47 ->
  range_mapped s r a (a + 8 * (count + 1)) -> a + 8 * (count + 1) <= lo \/ hi <= a -> words_at r a count ptrs s -> words_at r a count ptrs s'.
Proof using Type.
  intros K Hc H0 H1 R D [A N]. split; [intros j Hj; specialize (A j Hj)|]; eapply word_kept; eauto; try lia; intros v Hv; apply R; lia.
Qed.

Lemma vector_of_words r a count items ptrs lo hi s : words_at r a count ptrs s -> strings_at r count items ptrs lo hi s ->
  0 <= lo -> hi <= 2 ^ 47 -> vector_at r a count items s.
Proof using Type.
  intros [A N] S H0 H1. split; [|exact (at_user_u64 r _ 0 s N ltac:(lia))]. intros j Hj. destruct (S j Hj) as (B1 & B2 & B3).
  rewrite (at_user_u64 r _ (ptrs j) s (A j Hj) ltac:(lia)). exact B3.
Qed.

Lemma push_vectors_ok r sp argc envc arg_ptrs env_ptrs s : uspace s r -> r <> 0 -> 0 <= argc <= 16 -> 0 <= envc <= 16 ->
  range_mapped s r (sp - 8 * 34) sp -> 8 * 34 <= sp <= 2 ^ 47 ->
  let ev := sp - 8 * (envc + 1) in let av := ev - 8 * (argc + 1) in
  exists s', push_vectors hhdm r sp argc envc arg_ptrs env_ptrs s = (true, (av, ev), s') /\ kept s s' r av sp /\
    words_at r av argc arg_ptrs s' /\ words_at r ev envc env_ptrs s'.
Proof using Hhhdm Hpage.
  intros U Hr Ha He R H0 ev av. unfold push_vectors.
  assert (ev + 8 * (envc + 1) = sp) as Eev by (unfold ev; lia). assert (av + 8 * (argc + 1) = ev) as Eav by (unfold av; lia). clearbody av. clearbody ev.
  cbv zeta. replace (sp - (envc + 1) * 8) with ev by lia. rewrite (wrap_small 64 ev) by lia.
  replace (ev - (argc + 1) * 8) with av by lia. rewrite (wrap_small 64 av) by lia.
  destruct (copy_pointer_vector_ok r ev envc env_ptrs s U Hr) as (s1 & -> & K1 & P1 & N1); try lia. { intros v Hv. apply R. lia. }
  cbn [negb]. pose proof (kept_range s s1 r _ _ _ _ K1 R) as R1.
  destruct (copy_pointer_vector_ok r av argc arg_ptrs s1) as (s2 & -> & K2 & P2 & N2); auto; try lia; [apply K1|intros v Hv; apply R1; lia|].
  rewrite Eev in K1. rewrite Eav in K2. exists s2. split_and!; [done| |by split|].
  - apply (kept_steps s s1 s2 r ev sp av ev); [done|done|lia|lia].
  - apply (words_kept s1 s2 r av ev ev envc env_ptrs K2); try lia; [intros v Hv; apply R1; lia|by split].
Qed.

(** ** Segments *)

(** The byte of a segment at [v]: the file's, or zero. *)
Definition segment_byte (base : buffer) (ph : elf64_phdr_t) (seg_base v : Z) : Z :=
  if (seg_base <=? v) && (v <? seg_base + p_filesz ph) then base (p_offset ph + (v - seg_base)) else 0.

(** The frame for a page. *)
Lemma alloc_space s r phys s1 : alloc_frame s = (phys, s1) -> uspace s r -> budget hhdm 4 (frames s) ->
  phys <> 0 /\ vm s1 = vm s /\ vmm_phys_to_virt hhdm phys = phys + hhdm.
Proof using HFL Hhhdm.
  intros Ea U B. pose proof (bg_room _ _ _ B 0 ltac:(lia)) as R. cbn [allocs] in R.
  assert (phys <> 0 /\ frames s1 = allocs 1 (frames s)) as [Hp Ef].
  { unfold alloc_frame in Ea. cbn [allocs]. destruct (fr_alloc (frames s)) as [ph p']. by injection Ea as -> <-. }
  destruct (alloc_data hhdm Hhhdm s r phys s1 Ea Hp U) as (_ & _ & Ev & _ & Ek & _); [|done].
  rewrite Ef. apply (budget_small hhdm 4); [apply U|done|lia].
Qed.

(** The memory after the frame at [kva] was filled for the page at [va]. *)
Definition page_image (base : buffer) ph seg_base va kva (m : mem) : mem :=
  let file_seg_end := u64 (seg_base + p_filesz ph) in
  let copy_start := if seg_base <? va then va else seg_base in
  let copy_end := if va + PAGE_SIZE <? file_seg_end then va + PAGE_SIZE else file_seg_end in
  let m0 := snd (memset kva 0 PAGE_SIZE m) in
  if (seg_base <? va + PAGE_SIZE) && (va <? file_seg_end)
  then blit m0 (kva + (copy_start - va)) base (i64 (p_offset ph + (copy_start - seg_base))) (u64 (copy_end - copy_start)) else m0.

Lemma page_filled (base : buffer) ph seg_base va kva (m : mem) :
  0 <= seg_base -> 0 <= p_filesz ph -> seg_base + p_filesz ph <= 2 ^ 47 -> 0 <= p_offset ph -> p_offset ph + p_filesz ph < 2 ^ 63 ->
  0 <= va -> va + 4096 <= 2 ^ 47 ->
  (forall a, ~ kva <= a < kva + 4096 -> page_image base ph seg_base va kva m a = m a) /\
  forall i, 0 <= i < 4096 -> page_image base ph seg_base va kva m (kva + i) = segment_byte base ph seg_base (va + i).
Proof using Type.
  intros H0 H1 H2 H3 H4 H5 H6. unfold page_image, PAGE_SIZE, segment_byte. cbv zeta. rewrite (wrap_small 64 (seg_base + p_filesz ph)) by lia.
  set (cs := if seg_base <? va then va else seg_base). set (ce := if va + 4096 <? seg_base + p_filesz ph then va + 4096 else seg_base + p_filesz ph).
  assert (cs = Z.max va seg_base) as -> by (unfold cs; case_bool; lia).
  assert (ce = Z.min (va + 4096) (seg_base + p_filesz ph)) as -> by (unfold ce; case_bool; lia).
  split; intros a Ha.
  - case_bool; [unfold blit; rewrite (wrap_small 64) by lia; case_bool; [lia|]|]; rewrite memset_at by lia; case_bool; done || lia.
  - case_bool.
    + unfold blit. rewrite (wrap_small 64), (swrap_small 64) by lia. repeat case_bool; try lia.
      * f_equal. lia.
      * rewrite memset_at by lia. case_bool; [done|lia].
    + rewrite memset_at by lia. repeat case_bool; done || lia.
Qed.

Lemma map_segment_ok n : forall r base ph seg_base pflags va s,
  uspace s r -> budget hhdm (4 * n) (frames s) -> attrs pflags -> aligned va -> 0 <= va -> va + 4096 * Z.of_nat n <= 2 ^ 47 ->
  (forall v, va <= v < va + 4096 * Z.of_nat n -> leaf (vm s) r v = None) ->
  0 <= seg_base -> 0 <= p_filesz ph -> seg_base + p_filesz ph <= 2 ^ 47 -> 0 <= p_offset ph -> p_offset ph + p_filesz ph < 2 ^ 63 ->
  exists s', map_segment hhdm n r base ph seg_base pflags va s = (true, s') /\
    loaded hhdm s s' r va (va + 4096 * Z.of_nat n) (segment_byte base ph seg_base) pflags (4 * n).
Proof using HFL Hhhdm Hpage.
  induction n as [|n IH]; intros r base ph seg_base pflags va s U B Ha Hal Hv0 Hv1 Hn Hb0 Hb1 Hb2 Hb3 Hb4; cbn [map_segment].
  { exists s. split; [done|]. rewrite Z.mul_0_r, Z.add_0_r. by apply loaded_nil. }
  pose proof (us_ok _ _ _ U) as Hok. assert (budget hhdm 4 (frames s)) as B4 by (apply (budget_le hhdm (4 * S n)); auto; lia).
  destruct (alloc_frame s) as [phys s1] eqn:Ea.
  destruct (alloc_space s r phys s1 Ea U B4) as (Hp & Ev & Ek). rewrite (proj2 (Z.eqb_neq phys 0) Hp). cbv zeta. rewrite Ek.
  match goal with |- context [vmm_map_page hhdm r va phys pflags ?x] => set (s2 := x) end.
  destruct (page_filled base ph seg_base va (phys + hhdm) (vm s1)) as [F1 F2]; auto; try lia.
  assert (s2 = s1 <| vm := page_image base ph seg_base va (phys + hhdm) (vm s1) |>) as Es2.
  { unfold s2, page_image, zero_page, copy_in. by destruct (_ && _). }
  destruct (page_step hhdm Hhhdm Hpage s r va (segment_byte base ph seg_base) pflags phys s1
    (page_image base ph seg_base va (phys + hhdm) (vm s1)) Ea) as (s3 & E3 & L1);
    [intros a Ho; rewrite <- Ev; exact (F1 a Ho)|exact F2|auto; try lia..].
  { apply Hn. lia. }
  rewrite Es2, E3. destruct (IH r base ph seg_base pflags (va + 4096) s3) as (s' & E & L2); auto; try lia.
  { apply L1. }
  { apply (loaded_budget hhdm _ _ _ _ _ _ _ _ _ L1); auto. by replace (4 + 4 * n)%nat with (4 * S n)%nat by lia. }
  { unfold aligned in *. Z.to_euclidean_division_equations. lia. }
  { intros v Hv. rewrite (proj1 (ld_other _ _ _ _ _ _ _ _ _ L1 v ltac:(unfold user; lia) ltac:(lia))). apply Hn. lia. }
  exists s'. split; [exact E|]. replace (4 * S n)%nat with (4 + 4 * n)%nat by lia.
  replace (va + 4096 * Z.of_nat (S n)) with (va + 4096 + 4096 * Z.of_nat n) by lia.
  apply (loaded_app hhdm s s3 s' r va (va + 4096)); [exact L1|exact L2|lia|lia].
Qed.

Definition seg_base (bias : Z) (ph : elf64_phdr_t) : Z := p_vaddr ph + bias.
(** The pages of a segment. *)
Definition seg_lo (bias : Z) (ph : elf64_phdr_t) : Z := seg_base bias ph / 4096 * 4096.
Definition seg_hi (bias : Z) (ph : elf64_phdr_t) : Z := (seg_base bias ph + p_memsz ph + 4095) / 4096 * 4096.

(** A segment that lies in the file and below the stack. *)
Record segment_ok (bias file_size : Z) (ph : elf64_phdr_t) : Prop := {
  sg_vaddr : 0 <= p_vaddr ph;
  sg_filesz : 0 <= p_filesz ph <= p_memsz ph;
  sg_offset : 0 <= p_offset ph;
  sg_file : p_offset ph + p_filesz ph <= file_size;
  sg_top : seg_base bias ph + p_memsz ph <= USER_STACK_BASE
}.

(** Different segments have no page in common. *)
Definition apart (bias : Z) (ph ph' : elf64_phdr_t) : Prop :=
  loadable ph = true -> loadable ph' = true -> seg_hi bias ph <= seg_lo bias ph' \/ seg_hi bias ph' <= seg_lo bias ph.

Lemma segment_attrs ph : attrs (segment_flags ph).
Proof using Type.
  unfold segment_flags. split; repeat case_bool; try done; cbn; lia.
Qed.

Definition seg_pages (bias : Z) (ph : elf64_phdr_t) : nat := Z.to_nat ((seg_hi bias ph - seg_lo bias ph) / 4096).

Lemma segment_range bias file_size ph : 0 <= bias -> segment_ok bias file_size ph ->
  seg_hi bias ph = seg_lo bias ph + 4096 * Z.of_nat (seg_pages bias ph) /\ 0 <= seg_lo bias ph <= seg_base bias ph /\
  seg_base bias ph + p_memsz ph <= seg_hi bias ph <= USER_STACK_BASE /\ USER_STACK_BASE <= 2 ^ 47.
Proof using Type.
  intros Hb [S1 S2 S3 S4 S5]. unfold seg_pages, seg_hi, seg_lo, seg_base in *. change USER_STACK_BASE with (0x7FFF00000 * 4096) in *.
  Z.to_euclidean_division_equations. lia.
Qed.

Lemma map_load_ok r base bias file_size ph s : uspace s r -> budget hhdm (4 * seg_pages bias ph) (frames s) ->
  0 <= bias -> file_size < 2 ^ 62 -> segment_ok bias file_size ph ->
  (forall v, seg_lo bias ph <= v < seg_hi bias ph -> leaf (vm s) r v = None) ->
  exists s', map_load hhdm r base bias ph s = (true, s') /\
    loaded hhdm s s' r (seg_lo bias ph) (seg_hi bias ph) (segment_byte base ph (seg_base bias ph)) (segment_flags ph) (4 * seg_pages bias ph).
Proof using HFL Hhhdm Hpage.
  intros U B Hb Hf S Hn. destruct (segment_range bias file_size ph Hb S) as (E1 & E2 & E3 & E4). destruct S as [S1 S2 S3 S4 S5].
  unfold map_load. change (p_vaddr ph + bias) with (seg_base bias ph).
  cbv zeta. rewrite (wrap_small 64 (seg_base bias ph)), (wrap_small 64), !clear_low by lia. fold (seg_lo bias ph). unfold PAGE_SIZE. change 0xFFF with 4095.
  fold (seg_hi bias ph). fold (seg_pages bias ph). rewrite E1 in *.
  apply (map_segment_ok (seg_pages bias ph) r base ph (seg_base bias ph) (segment_flags ph) (seg_lo bias ph) s); auto; try lia.
  - apply segment_attrs.
  - unfold aligned, seg_lo. apply Z.mod_mul. lia.
Qed.

(** The pages of all segments. *)
Definition image_pages (bias : Z) (l : list elf64_phdr_t) : nat :=
  list_sum (map (fun ph => if loadable ph then seg_pages bias ph else 0%nat) l).

(** What loading the segments [l] does. *)
Record loads (s s' : vmm P H) (r : Z) (base : buffer) (bias : Z) (l : list elf64_phdr_t) (n : nat) : Prop := {
  lo_space : uspace s' r;
  lo_allocs : exists k, (k <= n)%nat /\ frames s' = allocs k (frames s);
  lo_other : forall v, user v -> (forall ph, In ph l -> loadable ph = true -> ~ seg_lo bias ph <= v < seg_hi bias ph) ->
    leaf (vm s') r v = leaf (vm s) r v /\ (mapped s r v -> user_byte r v s' = user_byte r v s);
  lo_page : forall ph v, In ph l -> loadable ph = true -> seg_lo bias ph <= v < seg_hi bias ph ->
    exists e, leaf (vm s') r v = Some (false, e) /\ Z.land e FLAGS_MASK = Z.lor (Z.land (segment_flags ph) FLAGS_MASK) VMM_FLAG_PRESENT /\
      user_byte r v s' = segment_byte base ph (seg_base bias ph) v
}.

Lemma loads_skip s s' r base bias ph l n : loadable ph = false -> loads s s' r base bias l n -> loads s s' r base bias (ph :: l) n.
Proof using Type.
  intros N [A1 A2 A3 A4]. split; auto.
  - intros v Hv Hn. apply A3; [done|]. intros ph' Hin. apply Hn. by right.
  - intros ph' v [<-|Hin]; [congruence|by apply A4].
Qed.

Lemma loads_cons s s1 s' r base bias ph l n m : 0 <= seg_lo bias ph -> seg_hi bias ph <= 2 ^ 47 ->
  loaded hhdm s s1 r (seg_lo bias ph) (seg_hi bias ph) (segment_byte base ph (seg_base bias ph)) (segment_flags ph) n ->
  loadable ph = true -> Forall (apart bias ph) l -> loads s1 s' r base bias l m -> loads s s' r base bias (ph :: l) (n + m).
Proof using Type.
  intros Hlo Hhi [U1 (k1 & Hk1 & A1) O1 P1] Hl Hap [U2 (k2 & Hk2 & A2) O2 P2]. rewrite List.Forall_forall in Hap. split; [done| | |].
  - exists (k1 + k2)%nat. split; [lia|]. by rewrite A2, A1, allocs_add.
  - intros v Hv Hn. destruct (O1 v Hv (Hn ph (or_introl eq_refl) Hl)) as [E1 B1].
    destruct (O2 v Hv (fun ph' Hin => Hn ph' (or_intror Hin))) as [E2 B2].
    split; [congruence|]. intros [e Le]. rewrite B2, B1; [done|by exists e|exists e; congruence].
  - intros ph' v [<-|Hin] Hl' Hv; [|by apply P2].
    destruct (O2 v) as [E B]; [unfold user; lia|intros ph' Hin Hl'' Hv'; specialize (Hap ph' Hin Hl Hl''); lia|].
    destruct (P1 v Hv) as (e & Le & Fl & C). exists e. split_and!; [congruence|done|]. rewrite B; [done|by exists e].
Qed.

Lemma map_loads_ok l : forall r base bias file_size s, uspace s r -> budget hhdm (4 * image_pages bias l) (frames s) ->
  0 <= bias -> file_size < 2 ^ 62 -> (forall ph, In ph l -> loadable ph = true -> segment_ok bias file_size ph) ->
  ForallOrdPairs (apart bias) l ->
  (forall ph v, In ph l -> loadable ph = true -> seg_lo bias ph <= v < seg_hi bias ph -> leaf (vm s) r v = None) ->
  exists s', map_loads hhdm l r base bias s = (true, s') /\ loads s s' r base bias l (4 * image_pages bias l).
Proof using HFL Hhhdm Hpage.
  induction l as [|ph l IH]; intros r base bias file_size s U B Hb Hf HS HA Hn; cbn [map_loads].
  { exists s. split; [done|]. split; [done|exists 0%nat; split; [lia|done]|done|done]. }
  inversion HA as [|? ? HA1 HA2]; subst.
  change (image_pages bias (ph :: l)) with ((if loadable ph then seg_pages bias ph else 0) + image_pages bias l)%nat in *.
  destruct (loadable ph) eqn:El; cbn [negb].
  2:{ destruct (IH r base bias file_size s U B Hb Hf) as (s' & E & L); auto; [intros; apply HS; auto; by right|intros ph' v Hin; apply Hn; by right|].
      exists s'. split; [exact E|]. by apply loads_skip. }
  set (m := image_pages bias l) in *. pose proof (HS ph (or_introl eq_refl) El) as S.
  destruct (segment_range bias file_size ph Hb S) as (_ & E2 & E3 & E4). pose proof (us_ok _ _ _ U) as Hok.
  replace (4 * (seg_pages bias ph + m))%nat with (4 * seg_pages bias ph + 4 * m)%nat in * by lia.
  destruct (map_load_ok r base bias file_size ph s U) as (s1 & -> & L1); auto.
  { apply (budget_le hhdm (4 * seg_pages bias ph + 4 * m)); auto; lia. } { intros v Hv. apply (Hn ph); auto. by left. }
  cbn [negb]. destruct (IH r base bias file_size s1) as (s' & E & L2); auto; [apply L1| | | |].
  - by apply (loaded_budget hhdm _ _ _ _ _ _ _ _ _ L1).
  - intros ph' Hin. apply HS. by right.
  - intros ph' v Hin Hl' Hv. rewrite List.Forall_forall in HA1. pose proof (HA1 ph' Hin El Hl') as D.
    destruct (segment_range bias file_size ph' Hb (HS ph' (or_intror Hin) Hl')) as (_ & F2 & F3 & _).
    rewrite (proj1 (ld_other _ _ _ _ _ _ _ _ _ L1 v ltac:(unfold user; lia) ltac:(lia))). apply (Hn ph'); auto. by right.
  - exists s'. split; [exact E|]. by apply (loads_cons s s1 s' r base bias ph l); [lia|lia|..].
Qed.

(** ** The pages of the stack *)

Definition STACK_FLAGS : Z := Z.lor (Z.lor (Z.lor VMM_FLAG_PRESENT VMM_FLAG_USER) VMM_FLAG_WRITE) VMM_FLAG_NX.

Lemma stack_pages_ok n : forall r i s, uspace s r -> budget hhdm (4 * n) (frames s) -> 0 <= i -> i + Z.of_nat n <= USER_STACK_PAGES ->
  (forall v, USER_STACK_BASE + 4096 * i <= v < USER_STACK_TOP -> leaf (vm s) r v = None) ->
  exists s', stack_pages hhdm n r i s = (true, s') /\
    loaded hhdm s s' r (USER_STACK_BASE + 4096 * i) (USER_STACK_BASE + 4096 * (i + Z.of_nat n)) (fun _ => 0) STACK_FLAGS (4 * n).
Proof using HFL Hhhdm Hpage.
  induction n as [|n IH]; intros r i s U B Hi Hn Hnone; cbn [stack_pages].
  { exists s. split; [done|]. rewrite Z.add_0_r. by apply loaded_nil. }
  pose proof (us_ok _ _ _ U) as Hok. assert (budget hhdm 4 (frames s)) as B4 by (apply (budget_le hhdm (4 * S n)); auto; lia).
  assert (USER_STACK_TOP = USER_STACK_BASE + 0x100000 /\ USER_STACK_BASE = 0x00007FFF00000000 /\ USER_STACK_PAGES = 256) as (ET & EB & EP) by done.
  destruct (alloc_frame s) as [phys s1] eqn:Ea.
  destruct (alloc_space s r phys s1 Ea U B4) as (Hp & Ev & Ek). rewrite (proj2 (Z.eqb_neq phys 0) Hp). cbv zeta. rewrite Ek.
  unfold PAGE_SIZE, zero_page. rewrite (Z.mul_comm i). fold STACK_FLAGS.
  destruct (page_step hhdm Hhhdm Hpage s r (USER_STACK_BASE + 4096 * i) (fun _ => 0) STACK_FLAGS phys s1
    (snd (memset (phys + hhdm) 0 4096 (vm s1))) Ea) as (s3 & E3 & L1); auto; try lia.
  { intros a Ha. rewrite memset_at, Ev by lia. case_bool; [lia|done]. }
  { intros j Hj. rewrite memset_at by lia. case_bool; [done|lia]. }
  { by split; [vm_compute; split; [discriminate|reflexivity]|]. }
  { unfold aligned. rewrite EB. Z.to_euclidean_division_equations. lia. }
  { apply Hnone. lia. }
  unfold PAGE_SIZE. rewrite E3. destruct (IH r (i + 1) s3) as (s' & E & L2); auto; try lia.
  { apply L1. }
  { apply (loaded_budget hhdm _ _ _ _ _ _ _ _ _ L1); auto. by replace (4 + 4 * n)%nat with (4 * S n)%nat by lia. }
  { intros v Hv. rewrite (proj1 (ld_other _ _ _ _ _ _ _ _ _ L1 v ltac:(unfold user; lia) ltac:(lia))). apply Hnone. lia. }
  exists s'. split; [exact E|]. replace (4 * S n)%nat with (4 + 4 * n)%nat by lia.
  replace (USER_STACK_BASE + 4096 * (i + 1)) with (USER_STACK_BASE + 4096 * i + 4096) in L2 by lia.
  replace (i + Z.of_nat (S n)) with (i + 1 + Z.of_nat n) by lia.
  apply (loaded_app hhdm s s3 s' r _ (USER_STACK_BASE + 4096 * i + 4096)); [exact L1|exact L2|lia|lia].
Qed.

Lemma user_stack_ok r s : uspace s r -> budget hhdm 1024 (frames s) ->
  (forall v, USER_STACK_BASE <= v < USER_STACK_TOP -> leaf (vm s) r v = None) ->
  exists s', allocate_user_stack hhdm r s = (true, s') /\ loaded hhdm s s' r USER_STACK_BASE USER_STACK_TOP (fun _ => 0) STACK_FLAGS 1024.
Proof using HFL Hhhdm Hpage.
  intros U B Hn. destruct (stack_pages_ok (Z.to_nat USER_STACK_PAGES) r 0 s U B) as (s' & E & L); [lia|done| |].
  { intros v Hv. apply Hn. lia. }
  exists s'. split; [exact E|exact L].
Qed.

(** ** The stack pointer and the vectors *)

(** What build_initial_stack leaves: the vectors of the arguments and of the
    environment, and a stack pointer as at the entry of a function. *)
Record stack_built (s s' : vmm P H) (r argc : Z) (argv : strings) (envp : option strings) (rsp argv_user envp_user : Z) : Prop := {
  sb_align : rsp mod 16 = 8;
  sb_range : USER_STACK_TOP - 0x3000 <= rsp <= argv_user /\ argv_user < envp_user < USER_STACK_TOP;
  sb_argv : vector_at r argv_user argc argv s';
  sb_envp : vector_at r envp_user (count_string_vector envp 16) (default (fun _ => None) envp) s';
  sb_kept : kept s s' r rsp USER_STACK_TOP
}.

Lemma low16 x : 0 <= x < 2 ^ 64 -> clear_bits x 0xF = x / 16 * 16 /\ Z.land x 0xF = x mod 16.
Proof using Type.
  intros Hx. split.
  - unfold clear_bits. change (u64 (Z.lnot 0xF)) with (Z.shiftl (Z.ones 60) 4). rewrite land_field by lia. change (2 ^ 4) with 16.
    rewrite Z.mod_small; [done|]. split; [apply Z.div_pos; lia|apply Z.div_lt_upper_bound; lia].
  - change 0xF with (Z.ones 4). by rewrite Z.land_ones by lia.
Qed.

Lemma stack_args_range name argc argv : 1 <= fst (stack_args name argc argv) <= 16.
Proof using Type. unfold stack_args. destruct argv; repeat case_bool; cbn; lia. Qed.

Lemma build_initial_stack_ok r name argc argv envp junk s : uspace s r -> r <> 0 -> range_mapped s r USER_STACK_BASE USER_STACK_TOP ->
  let '(argc', argv') := stack_args name argc argv in
  exists rsp av ev s', build_initial_stack hhdm r name argc argv envp junk s = (rsp, (av, ev), s') /\ rsp <> 0 /\
    stack_built s s' r argc' argv' envp rsp av ev.
Proof using Hhhdm Hpage.
  intros U Hr R. unfold build_initial_stack. pose proof (stack_args_range name argc argv) as Ha.
  destruct (stack_args name argc argv) as [argc' argv']. cbn [fst] in Ha. pose proof (vector_count_range envp 16 ltac:(lia)) as Hc.
  assert (USER_STACK_TOP = USER_STACK_BASE + 0x100000 /\ USER_STACK_BASE = 0x00007FFF00000000) as [ET EB] by done.
  destruct (push_strings_ok r argc' argv' envp junk s U Hr ltac:(lia) R) as (sp & ep & ap & s1 & -> & K1 & Hsp & Se & Sa). cbn [negb].
  set (envc := count_string_vector envp 16) in *. rewrite (proj1 (low16 sp ltac:(lia))). set (sp' := sp / 16 * 16).
  assert (sp - 15 <= sp' <= sp /\ sp' mod 16 = 0) as [Hsp' Hal] by (unfold sp'; Z.to_euclidean_division_equations; lia).
  pose proof (kept_range s s1 r _ _ _ _ K1 R) as R1.
  destruct (push_vectors_ok r sp' argc' envc ap ep s1) as (s2 & -> & K2 & Wa & We); [apply K1|exact Hr|lia|lia|intros v Hv; apply R1; lia|lia|]. cbn [negb].
  set (ev := sp' - 8 * (envc + 1)) in *. set (av := ev - 8 * (argc' + 1)) in *. rewrite (proj2 (low16 av ltac:(unfold av, ev; lia))).
  assert (av mod 16 = 0 \/ av mod 16 = 8) as Hm by (unfold av, ev; Z.to_euclidean_division_equations; lia).
  set (rsp := if negb (av mod 16 =? 8) then u64 (av - 8) else av).
  assert (rsp mod 16 = 8 /\ av - 8 <= rsp <= av) as [Hal2 Hrsp].
  { unfold rsp. rewrite (wrap_small 64) by (unfold av, ev; lia). case_bool; Z.to_euclidean_division_equations; lia. }
  assert (forall c items ptrs, strings_at r c items ptrs sp (USER_STACK_TOP - 8) s1 -> strings_at r c items ptrs sp (USER_STACK_TOP - 8) s2) as W.
  { intros c items ptrs S. apply (strings_at_kept r c items ptrs sp (USER_STACK_TOP - 8) s1 s2 av sp' K2 S); try lia. intros v Hv. apply R1. lia. }
  exists rsp, av, ev, s2. split; [done|]. split; [unfold av, ev in *; lia|]. split; auto.
  - unfold av, ev in *. lia.
  - apply (vector_of_words r av argc' argv' ap sp (USER_STACK_TOP - 8)); auto; lia.
  - apply (vector_of_words r ev envc _ ep sp (USER_STACK_TOP - 8)); auto; lia.
  - apply (kept_steps s s1 s2 r sp (USER_STACK_TOP - 8) av sp'); [done|done|unfold av, ev in *; lia|lia].
Qed.

(** ** The stack for the dynamic linker *)

Lemma flat_u64_len l : Z.of_nat (length (flat_map u64_bytes l)) = 8 * Z.of_nat (length l).
Proof using Type. induction l as [|x l IH]; [done|]. cbn [flat_map]. rewrite length_app, u64_bytes_len. cbn [length]. lia. Qed.

(** A block copied below what is on the stack. *)
Lemma push_block r sp l hi s : uspace s r -> range_mapped s r USER_STACK_BASE hi -> hi <= 2 ^ 47 ->
  USER_STACK_BASE + Z.of_nat (length l) <= sp -> sp <= hi ->
  let sp' := sp - Z.of_nat (length l) in
  exists s', copy_to_user_mapping hhdm r (u64 sp') l s = (true, s') /\ u64 sp' = sp' /\ kept s s' r sp' sp /\ at_user r sp' l s' /\
    range_mapped s' r USER_STACK_BASE hi.
Proof using Hhhdm Hpage.
  intros U R Hhi Hlo Hsp sp'. assert (USER_STACK_BASE = 0x00007FFF00000000) as EB by done.
  assert (u64 sp' = sp') as E by (apply wrap_small; unfold sp'; lia). rewrite E.
  destruct (copy_to_user_ok r sp' l s U) as (s' & -> & K & A); [unfold sp'; lia|unfold sp'; lia|intros v Hv; apply R; unfold sp' in *; lia|].
  replace (sp' + Z.of_nat (length l)) with sp in K by (unfold sp'; lia).
  exists s'. split_and!; auto. by apply (kept_range s s' r _ _ _ _ K).
Qed.

(** The part of build_initial_stack_ldso below the strings and the path of the
    program: the random bytes, the auxiliary vector, the two vectors of
    pointers and the argument count. *)
Record ldso_built (s' : vmm P H) (r argc : Z) (argv : strings) (envc : Z) (env : strings) (rsp av aux : Z) (l : list Z) : Prop := {
  lb_rsp : rsp = if Z.even (argc + envc) then av - 8 else av;
  lb_argc : user_u64 r rsp s' = argc;
  lb_argv : forall j, (if Z.even (argc + envc) then 0 else 1) <= j < argc ->
    at_user r (user_u64 r (av + 8 * j) s') (stack_string (default [] (argv j))) s';
  lb_null : user_u64 r (av + 8 * argc) s' = 0;
  lb_envp : vector_at r (av + 8 * (argc + 1)) envc env s';
  lb_aux : aux = av + 8 * (argc + 1) + 8 * (envc + 1) /\ at_user r aux l s'
}.

(** The vectors and the count below an auxiliary vector at [sp]. *)
Lemma ldso_vectors r sp argc envc argv env ap ep lo hi l s : uspace s r -> r <> 0 -> 1 <= argc <= 16 -> 0 <= envc <= 16 -> sp mod 16 = 0 ->
  USER_STACK_BASE + 0x1000 <= sp -> sp + Z.of_nat (length l) <= lo -> lo <= hi -> hi <= 2 ^ 47 -> range_mapped s r USER_STACK_BASE hi ->
  at_user r sp l s -> strings_at r argc argv ap lo hi s -> strings_at r envc env ep lo hi s ->
  let av := sp - 8 * (envc + 1) - 8 * (argc + 1) in
  exists s1 s', push_vectors hhdm r sp argc envc ap ep s = (true, (av, sp - 8 * (envc + 1)), s1) /\
    let rsp := if negb (Z.land av 0xF =? 8) then u64 (av - 8) else av in
    elf_write_u64_user hhdm r rsp (if argc <=? 0 then 1 else argc) s1 = (true, s') /\ rsp <> 0 /\
    ldso_built s' r argc argv envc env rsp av sp l.
Proof using Hhhdm Hpage.
  intros U Hr Ha He Hal H0 H1 H2 H3 R A Sa Se av. assert (USER_STACK_BASE = 0x00007FFF00000000) as EB by done.
  destruct (push_vectors_ok r sp argc envc ap ep s U Hr ltac:(lia) He) as (s1 & E1 & K1 & Wa & We); [intros v Hv; apply R; lia|lia|].
  fold av in E1, K1, Wa. pose proof (kept_range s s1 r _ _ _ _ K1 R) as R1.
  set (rsp := if negb (Z.land av 0xF =? 8) then u64 (av - 8) else av).
  assert (rsp = (if Z.even (argc + envc) then av - 8 else av) /\ rsp mod 8 = 0) as [Ersp Hrsp].
  { unfold rsp. rewrite (proj2 (low16 av ltac:(unfold av; lia))), (wrap_small 64) by (unfold av; lia).
    assert (exists q, sp = 16 * q) as [q Eq] by (exists (sp / 16); Z.to_euclidean_division_equations; lia).
    destruct (Z.even (argc + envc)) eqn:Ev.
    - apply Z.even_spec in Ev as [m Em]. assert (av = 16 * (q - m - 1)) as -> by (unfold av; lia).
      rewrite (Z.mul_comm 16), Z.mod_mul by lia. cbn [Z.eqb negb]. split; [done|]. Z.to_euclidean_division_equations. lia.
    - rewrite <- Z.negb_odd in Ev. apply negb_false_iff, Z.odd_spec in Ev as [m Em]. assert (av = 16 * (q - m - 2) + 8) as -> by (unfold av; lia).
      assert ((16 * (q - m - 2) + 8) mod 16 = 8) as -> by (Z.to_euclidean_division_equations; lia). cbn [Z.eqb negb].
      split; [done|]. replace (16 * (q - m - 2) + 8) with ((2 * (q - m - 2) + 1) * 8) by lia. apply Z.mod_mul. lia. }
  assert (av - 8 <= rsp <= av) as Hr' by (rewrite Ersp; destruct (Z.even _); lia).
  destruct (write_u64_ok r rsp argc s1 (kp_space _ _ _ _ _ K1)) as (s' & E2 & K2 & A2);
    [unfold user, av in *; lia|apply R1; unfold av in *; lia|done|lia|].
  exists s1, s'. split; [exact E1|]. cbv zeta. fold rsp. rewrite (proj2 (Z.leb_gt argc 0)) by lia. split; [exact E2|]. split; [unfold av in *; lia|].
  pose proof (kept_steps s s1 s' r av sp rsp (rsp + 8) (av - 8) sp K1 K2 ltac:(lia) ltac:(unfold av in *; lia)) as K.
  assert (forall c items ptrs, strings_at r c items ptrs lo hi s -> strings_at r c items ptrs lo hi s') as Str.
  { intros c items ptrs S. apply (strings_at_kept r c items ptrs lo hi s s' _ _ K S); try lia. intros v Hv. apply R. lia. }
  assert (forall j, (if Z.even (argc + envc) then 0 else 1) <= j -> 0 <= j <= argc -> forall v, at_user r (av + 8 * j) (u64_bytes v) s1 -> at_user r (av + 8 * j) (u64_bytes v) s') as Kw.
  { intros j Hj Hj' v Aw. apply (word_kept s1 s' r rsp (rsp + 8) _ v K2); try (unfold av in *; lia); [|rewrite Ersp; destruct (Z.even _); lia|exact Aw].
    intros x Hx. apply R1. unfold av in *. lia. }
  split; [exact Ersp|exact (at_user_u64 r rsp argc s' A2 ltac:(lia))| | | |].
  - intros j Hj. assert (0 <= j < argc) as Hj' by (destruct (Z.even _); lia). destruct (Str _ _ _ Sa j Hj') as (B1 & B2 & B3).
    rewrite (at_user_u64 r _ (ap j) s' (Kw j ltac:(lia) ltac:(lia) _ (proj1 Wa j Hj')) ltac:(lia)). exact B3.
  - apply (at_user_u64 r _ 0 s'); [|lia]. apply Kw; [destruct (Z.even _); lia|lia|apply Wa].
  - replace (av + 8 * (argc + 1)) with (sp - 8 * (envc + 1)) by (unfold av; lia).
    apply (vector_of_words r _ envc env ep lo hi); [|by apply Str|lia|lia].
    apply (words_kept s1 s' r rsp (rsp + 8) _ envc ep K2); try (unfold av in *; lia); [|exact We]. intros v Hv. apply R1. lia.
  - split; [unfold av; lia|]. apply (kept_at s s' r (av - 8) sp _ _ K); try lia; [|exact A]. intros v Hv. apply R. lia.
Qed.

(** The dynamic linker's stack as build_initial_stack_ldso leaves it. *)
Lemma build_ldso_ok r name argc argv envp execfn at_phdr phent phnum at_entry at_base junk s :
  uspace s r -> r <> 0 -> range_mapped s r USER_STACK_BASE USER_STACK_TOP ->
  let '(argc', argv') := stack_args name argc argv in
  exists rsp av aux random_slot execfn_user s',
    build_initial_stack_ldso hhdm r name argc argv envp execfn at_phdr phent phnum at_entry at_base junk s = (rsp, s') /\ rsp <> 0 /\
    ldso_built s' r argc' argv' (count_string_vector envp 16) (default (fun _ => None) envp) rsp av aux
      (flat_map u64_bytes (auxv at_phdr phent phnum at_entry at_base random_slot execfn_user)).
Proof using Hhhdm Hpage.
  intros U Hr R. unfold build_initial_stack_ldso. pose proof (stack_args_range name argc argv) as Ha.
  destruct (stack_args name argc argv) as [argc' argv']. cbn [fst] in Ha. pose proof (vector_count_range envp 16 ltac:(lia)) as Hc.
  assert (USER_STACK_TOP = USER_STACK_BASE + 0x100000 /\ USER_STACK_BASE = 0x00007FFF00000000) as [ET EB] by done.
  destruct (push_strings_ok r argc' argv' envp junk s U Hr ltac:(lia) R) as (sp & ep & ap & s1 & -> & K1 & Hsp & Se & Sa). cbn [negb].
  set (envc := count_string_vector envp 16) in *. set (env := default (fun _ => None) envp) in *.
  pose proof (kept_range s s1 r _ _ _ _ K1 R) as R1.
  set (step := match execfn with Some (c :: f) => _ | _ => _ end).
  assert (exists execfn_user sp2 s2, step = (true, execfn_user, sp2, s2) /\ sp - 255 <= sp2 <= sp /\ kept s1 s2 r sp2 sp) as (eu & sp2 & s2 & Est & Hsp2 & K2).
  { unfold step. destruct execfn as [[|c f]|]; [by exists 0, sp, s1; split_and!; [|lia|lia|apply kept_refl; apply K1]| |
      by exists 0, sp, s1; split_and!; [|lia|lia|apply kept_refl; apply K1]].
    pose proof (stack_string_len (c :: f)) as Hl. set (l := stack_string (c :: f)) in *.
    destruct (push_block r sp l USER_STACK_TOP s1) as (s2 & E & Eu & K & _ & _); [apply K1|done|lia|lia|lia|].
    rewrite Eu in *. rewrite E. exists (sp - Z.of_nat (length l)), (sp - Z.of_nat (length l)), s2. split_and!; [done|lia|lia|done]. }
  rewrite Est. clear step Est. cbn [negb]. pose proof (kept_range s1 s2 r _ _ _ _ K2 R1) as R2.
  destruct (push_block r sp2 (repeat 0x41 16) USER_STACK_TOP s2) as (s3 & E3 & Eu3 & K3 & _ & R3);
    [apply K2|done|lia|rewrite repeat_length; lia|lia|]. rewrite repeat_length in *. change (Z.of_nat 16) with 16 in *. rewrite Eu3 in *.
  cbv zeta. rewrite E3. cbn [negb]. rewrite (proj1 (low16 (sp2 - 16) ltac:(lia))). set (sp3 := (sp2 - 16) / 16 * 16).
  assert (sp2 - 31 <= sp3 <= sp2 - 16 /\ sp3 mod 16 = 0) as [Hsp3 Hal] by (unfold sp3; Z.to_euclidean_division_equations; lia). clearbody sp3.
  set (l := flat_map u64_bytes _). assert (Z.of_nat (length l) = 144 \/ Z.of_nat (length l) = 160) as Hl.
  { unfold l. rewrite flat_u64_len. unfold auxv. destruct (eu =? 0); cbn; lia. }
  destruct (push_block r sp3 l USER_STACK_TOP s3) as (s4 & E4 & Eu4 & K4 & A4 & R4); [apply K3|done|lia|lia|lia|]. rewrite Eu4 in *. rewrite E4. cbn [negb].
  pose proof (kept_steps s1 s2 s3 r sp2 sp (sp2 - 16) sp2 (sp2 - 16) sp K2 K3 ltac:(lia) ltac:(lia)) as K13.
  pose proof (kept_steps s1 s3 s4 r (sp2 - 16) sp (sp3 - Z.of_nat (length l)) sp3 (sp3 - Z.of_nat (length l)) sp K13 K4 ltac:(lia) ltac:(lia)) as K14.
  assert (forall c items ptrs, strings_at r c items ptrs sp (USER_STACK_TOP - 8) s1 -> strings_at r c items ptrs sp (USER_STACK_TOP - 8) s4) as Str.
  { intros c items ptrs S. apply (strings_at_kept r c items ptrs sp (USER_STACK_TOP - 8) s1 s4 _ _ K14 S); try lia. intros v Hv. apply R1. lia. }
  destruct (ldso_vectors r (sp3 - Z.of_nat (length l)) argc' envc argv' env ap ep sp (USER_STACK_TOP - 8) l s4) as (s5 & s6 & E5 & E6 & Nz & B);
    [apply K4|exact Hr|lia|lia|destruct Hl as [-> | ->]; Z.to_euclidean_division_equations; lia|lia|lia|lia|lia|intros v Hv; apply R4; lia|exact A4|
     exact (Str _ _ _ Sa)|exact (Str _ _ _ Se)|].
  rewrite E5. cbn [negb]. rewrite E6. cbn [negb]. eexists _, _, _, (sp2 - 16), eu, s6. split; [reflexivity|]. split; [exact Nz|exact B].
Qed.

(** ** Relocations *)

(** From [s] to [s'] each slot of [l] got its value, and nothing else changed. *)
Record patched (s s' : vmm P H) (r : Z) (l : list (Z * Z)) : Prop := {
  pa_space : uspace s' r;
  pa_leaf : forall v, leaf (vm s') r v = leaf (vm s) r v;
  pa_slot : forall loc val, In (loc, val) l -> at_user r loc (u64_bytes val) s';
  pa_other : forall v, user v -> mapped s r v -> (forall loc val, In (loc, val) l -> ~ loc <= v < loc + 8) -> user_byte r v s' = user_byte r v s
}.

Lemma patched_nil s r : uspace s r -> patched s s r [].
Proof using Type. by split. Qed.

(** A slot that can be written. *)
Definition slot s r (loc : Z) : Prop := user loc /\ loc mod 8 = 0 /\ range_mapped s r loc (loc + 8).

Lemma patched_cons s s1 s' r loc val l : slot s r loc -> kept s s1 r loc (loc + 8) -> at_user r loc (u64_bytes val) s1 ->
  patched s1 s' r l -> (forall loc' val', In (loc', val') l -> loc' mod 8 = 0 /\ loc' <> loc) -> patched s s' r ((loc, val) :: l).
Proof using Type.
  intros (Hu & Hm & R) K A [P1 P2 P3 P4] Hl.
  assert (forall loc' val' v, In (loc', val') l -> loc <= v < loc + 8 -> ~ loc' <= v < loc' + 8) as Hd.
  { intros loc' val' v Hin Hv. destruct (Hl loc' val' Hin). Z.to_euclidean_division_equations. lia. }
  split; auto.
  - intros v. by rewrite P2, (kp_leaf _ _ _ _ _ K).
  - intros loc' val' [[= <- <-]|Hin]; [|by apply P3]. intros k Hk. rewrite u64_bytes_len in Hk. unfold view.
    rewrite P4; [apply A; by rewrite u64_bytes_len| |apply (kept_mapped _ _ _ _ _ _ K), R; lia|intros l' v' Hin; apply (Hd l' v' _ Hin); lia].
    unfold user in *. Z.to_euclidean_division_equations. lia.
  - intros v Hv M N. rewrite P4; [|done|by apply (kept_mapped _ _ _ _ _ _ K)|intros; apply N with val0; by right].
    apply (kp_bytes _ _ _ _ _ K); auto. by apply (N loc val); left.
Qed.

(** The entry [k] of the table at [off]: its type, the place and the value. *)
Definition reloc_at (base : buffer) (off relaent load_base bias k : Z) : Z * (Z * Z) :=
  let rr := off + k * relaent in
  (u32 (load 8 (rr + 8) base), (u64 (bias + load 8 rr base), u64 (load_base + load 8 (rr + 16) base))).

(** The entries that are there: those that end in the table. *)
Definition reloc_count (relasz relaent : Z) : Z := if relasz <? SIZEOF_RELA then 0 else (relasz - SIZEOF_RELA) / relaent + 1.

Definition relocs_from (base : buffer) (off relaent load_base bias k : Z) (m : nat) : list (Z * Z) :=
  omap (fun e => if fst e =? R_X86_64_RELATIVE then Some (snd e) else None)
       (map (reloc_at base off relaent load_base bias) (seqZ k (Z.of_nat m))).

(** Every entry is of a known type, and the places of the relative ones are
    different slots of the image. *)
Definition table_ok (base : buffer) (off relaent load_base bias k : Z) (m : nat) s r : Prop :=
  Forall (fun e => fst e = R_X86_64_NONE \/ fst e = R_X86_64_RELATIVE /\ slot s r (fst (snd e)))
    (map (reloc_at base off relaent load_base bias) (seqZ k (Z.of_nat m))) /\
  List.NoDup (map fst (relocs_from base off relaent load_base bias k m)).

Lemma relocs_cons base off relaent load_base bias k m :
  relocs_from base off relaent load_base bias k (S m) =
  let e := reloc_at base off relaent load_base bias k in
  if fst e =? R_X86_64_RELATIVE then snd e :: relocs_from base off relaent load_base bias (k + 1) m
  else relocs_from base off relaent load_base bias (k + 1) m.
Proof using Type.
  unfold relocs_from. rewrite (seqZ_cons k) by lia. replace (Z.pred (Z.of_nat (S m))) with (Z.of_nat m) by lia.
  cbn [map omap list_omap]. by case_bool.
Qed.

Lemma slot_mono s s1 r loc : (forall v, mapped s r v -> mapped s1 r v) -> slot s r loc -> slot s1 r loc.
Proof using Type. intros M (A & B & C). split_and!; auto. intros v Hv. by apply M, C. Qed.

Lemma table_ok_mono base off relaent load_base bias k m s s1 r : (forall v, mapped s r v -> mapped s1 r v) ->
  table_ok base off relaent load_base bias k m s r -> table_ok base off relaent load_base bias k m s1 r.
Proof using Type.
  intros M [T1 T2]. split; [|done]. eapply Forall_impl; [|exact T1]. intros e [?|[? ?]]; [by left|right]. split; [done|]. by apply (slot_mono s).
Qed.

(** The places of the entries after the first. *)
Lemma relocs_slots base off relaent load_base bias k m s r loc val : table_ok base off relaent load_base bias k m s r ->
  In (loc, val) (relocs_from base off relaent load_base bias k m) -> loc mod 8 = 0.
Proof using Type.
  intros [T1 _] Hin. unfold relocs_from in Hin. apply list_elem_of_In, list_elem_of_omap in Hin as (e & He & Hs).
  rewrite Forall_forall in T1. specialize (T1 e (proj1 (list_elem_of_In _ _) He)). case_bool; [|done]. injection Hs as Hs.
  destruct T1 as [E|[_ (_ & Hm & _)]]; [by rewrite E in *|]. by rewrite Hs in Hm.
Qed.

Lemma table_ok_cons base off relaent load_base bias k m s r : table_ok base off relaent load_base bias k (S m) s r ->
  let e := reloc_at base off relaent load_base bias k in
  (fst e = R_X86_64_NONE \/ (fst e = R_X86_64_RELATIVE /\ slot s r (fst (snd e)) /\
     forall loc val, In (loc, val) (relocs_from base off relaent load_base bias (k + 1) m) -> loc mod 8 = 0 /\ loc <> fst (snd e))) /\
  table_ok base off relaent load_base bias (k + 1) m s r.
Proof using Type.
  intros T. cbv zeta. set (e := reloc_at base off relaent load_base bias k).
  assert (table_ok base off relaent load_base bias (k + 1) m s r /\ (fst e = R_X86_64_NONE \/ fst e = R_X86_64_RELATIVE /\ slot s r (fst (snd e))) /\
    (fst e = R_X86_64_RELATIVE -> ~ In (fst (snd e)) (map fst (relocs_from base off relaent load_base bias (k + 1) m)))) as (T' & T0 & N).
  { destruct T as [T1 T2]. rewrite relocs_cons in T2. cbv zeta in T2. fold e in T2. rewrite (seqZ_cons k) in T1 by lia.
    replace (Z.pred (Z.of_nat (S m))) with (Z.of_nat m) in T1 by lia. apply Forall_cons_1 in T1 as [T0 T1]. fold e in T0.
    destruct (Z.eqb_spec (fst e) R_X86_64_RELATIVE) as [E|E].
    - cbn [map] in T2. apply NoDup_cons_iff in T2 as [N T2]. split_and!; [by split|exact T0|]. intros _. exact N.
    - split_and!; [by split|exact T0|done]. }
  split; [|exact T']. destruct T0 as [?|[E Sl]]; [by left|right]. split_and!; auto. intros loc val Hin.
  split; [by eapply relocs_slots|]. intros ->. apply (N E). apply in_map_iff. by exists (fst (snd e), val).
Qed.

Lemma relocate_ok m : forall r base off relasz relaent load_base bias k n s, uspace s r -> (m < n)%nat -> 0 <= k ->
  k + Z.of_nat m = reloc_count relasz relaent -> SIZEOF_RELA <= relaent -> 0 <= off -> 0 < relasz -> off + relasz < 2 ^ 62 -> relaent < 2 ^ 62 ->
  table_ok base off relaent load_base bias k m s r ->
  exists s', relocate hhdm n r base off relasz relaent load_base bias (k * relaent) s = Some (true, s') /\
    patched s s' r (relocs_from base off relaent load_base bias k m).
Proof using Hhhdm Hpage.
  unfold SIZEOF_RELA. induction m as [|m IH]; intros r base off relasz relaent load_base bias k n s U Hn Hk Hc He Ho Hsz Hb Hb2 T;
    (destruct n as [|n]; [lia|]); cbn [relocate]; unfold SIZEOF_RELA in *.
  { exists s. unfold reloc_count, SIZEOF_RELA in Hc. assert (relasz < k * relaent + 24) as Hend.
    { case_bool; [nia|]. pose proof (Z.div_mod (relasz - 24) relaent ltac:(lia)). pose proof (Z.mod_pos_bound (relasz - 24) relaent ltac:(lia)). nia. }
    assert (0 <= k * relaent <= relasz + relaent) as Hr.
    { split; [nia|]. case_bool; [nia|]. pose proof (Z.mul_div_le (relasz - 24) relaent ltac:(lia)). nia. }
    rewrite (wrap_small 64) by lia. rewrite (proj2 (Z.ltb_lt _ _)) by lia. split; [done|by apply patched_nil]. }
  assert (k * relaent + 24 <= relasz /\ 0 <= k * relaent) as [Hend H0].
  { split; [|nia]. unfold reloc_count, SIZEOF_RELA in Hc. case_bool; [lia|]. pose proof (Z.mul_div_le (relasz - 24) relaent ltac:(lia)). nia. }
  rewrite (wrap_small 64) by lia. rewrite (proj2 (Z.ltb_ge _ _)) by lia. rewrite (swrap_small 64) by lia. rewrite (wrap_small 64 (k * relaent + relaent)) by lia.
  replace (k * relaent + relaent) with ((k + 1) * relaent) by lia. destruct (table_ok_cons _ _ _ _ _ _ _ _ _ T) as [T0 T1].
  rewrite relocs_cons. unfold reloc_at in T0 |- *. cbn [fst snd] in T0 |- *.
  destruct T0 as [E0|(E0 & Sl & Hnew)]; rewrite E0; cbn [Z.eqb R_X86_64_NONE R_X86_64_RELATIVE].
  - apply IH; auto; lia.
  - destruct Sl as (Hu & Hm & R). set (loc := u64 (bias + load 8 (off + k * relaent) base)) in *.
    destruct (write_u64_ok r loc (u64 (load_base + load 8 (off + k * relaent + 16) base)) s U Hu (R loc ltac:(lia)) Hm) as (s1 & E1 & K1 & A1).
    { apply Z.mod_pos_bound. lia. }
    change (8 =? 8) with true. cbv iota. rewrite E1. cbv iota beta.
    destruct (IH r base off relasz relaent load_base bias (k + 1) n s1) as (s' & E & Pa); auto; try lia; [apply K1| |].
    { apply (table_ok_mono base off relaent load_base bias (k + 1) m s s1 r); [|exact T1]. intros v. apply (kept_mapped _ _ _ _ _ _ K1). }
    exists s'. split; [exact E|]. apply (patched_cons s s1 s' r); auto. by split_and!.
Qed.

End props.
End ElfProps.
