(* ===== verification/ElfClaims.v ===== *)
(** * Claims about the ELF loader

    What a program finds when it starts: its segments, a stack with its
    arguments and its environment, and nothing else. *)

From S2P Require Import Prelude Mem Str Block Fat32 Vmm VmmProps VmmClaims UserSpace Cstr Elf ElfProps.
Import Mem Str Vmm VmmProps UserSpace Cstr Elf ElfProps.
Import Block(buffer, blit) Fat32(M, M_ret, M_bind, out_of_fuel).

Module ElfClaims.

#[local] Existing Instances M_ret M_bind.

Section claims.
Context {P H F T : Type} `{HF : Frames P} `{HFL : !FramesLaws P} `{HK : Kheap H} `{HFI : Files F} `{HSP : Spawn T}.
Variable hhdm : Z.
Hypothesis Hhhdm : 0 <= hhdm.
Hypothesis Hpage : aligned hhdm.
Variable junk : buffer.
Variable reads : nat.
#[local] Notation W := (world P H F T).
Implicit Types w : W.

(** A file the loader accepts: the headers are in the file, the segments lie in
    the file and below the stack and share no page, and there is nothing to
    relocate. *)
Record static_program (base : buffer) (size bias : Z) : Prop := {
  sp_size : SIZEOF_EHDR <= size < 2 ^ 62;
  sp_header : is_elf64 base && known_type base && phdr_size_ok base && phdrs_inside base size = true;
  sp_table : 0 <= e_phoff (ehdr_of base) /\ 0 <= e_phnum (ehdr_of base) /\
    e_phoff (ehdr_of base) + e_phnum (ehdr_of base) * SIZEOF_PHDR <= size;
  sp_bias : bias = if e_type (ehdr_of base) =? ET_DYN then USER_ELF_DYN_BASE else 0;
  sp_segments : forall ph, In ph (phdrs base) -> loadable ph = true -> segment_ok bias size ph;
  sp_apart : ForallOrdPairs (apart bias) (phdrs base);
  sp_static : elf_find_phdr base PT_DYNAMIC = None
}.

(** The kernel is running in a tree of tables. *)
Record kernel_ok w : Prop := {
  ko_frames : fr_ok (frames (space w));
  ko_bytes : bytes (vm (space w));
  ko_tree : tree hhdm (frames (space w)) (vm (space w)) (vmm_get_kernel_pml4 hhdm (cr3 w) (space w))
}.

(** The frames a program needs: its root, and for a page of a segment or of the
    stack one frame and at most three tables. *)
Definition frames_needed (base : buffer) (bias : Z) : nat := 1 + 4 * image_pages bias (phdrs base) + 1024.

(** What the program finds in the space [r]. *)
Record program_ready (s : vmm P H) (r : Z) (base : buffer) (bias argc : Z) (argv : strings) (envp : option strings)
    (img : elf_exec_image_t) : Prop := {
  pr_root : im_pml4 img = r /\ r <> 0;
  pr_plain : im_ldso_entry img = false;
  pr_entry : im_entry img = u64 (bias + e_entry (ehdr_of base));
  pr_segment : forall ph v, In ph (phdrs base) -> loadable ph = true -> seg_base bias ph <= v < seg_base bias ph + p_memsz ph ->
    user_byte hhdm r v s = segment_byte base ph (seg_base bias ph) v /\
    vmm_get_pte_flags hhdm r v s = Z.lor (Z.land (segment_flags ph) FLAGS_MASK) VMM_FLAG_PRESENT;
  pr_unmapped : forall v, user v -> ~ USER_STACK_BASE <= v < USER_STACK_TOP ->
    (forall ph, In ph (phdrs base) -> loadable ph = true -> ~ seg_lo bias ph <= v < seg_hi bias ph) ->
    vmm_virt_to_phys hhdm r v s = 0;
  pr_stack : im_rsp img mod 16 = 8 /\ USER_STACK_BASE <= im_rsp img < USER_STACK_TOP;
  pr_argv : im_argc img = argc /\ vector_at hhdm r (im_argv img) argc argv s;
  pr_envp : vector_at hhdm r (im_envp img) (count_string_vector envp 16) (default (fun _ => None) envp) s
}.

(** The three steps on the memory of the new space. *)
Lemma image_steps (s : vmm P H) r base size bias name argc argv envp : uspace hhdm s r -> r <> 0 ->
  (forall v, user v -> leaf hhdm (vm s) r v = None) ->
  static_program base size bias -> budget hhdm (4 * image_pages bias (phdrs base) + 1024) (frames s) ->
  let '(argc', argv') := stack_args name argc argv in
  exists s1 s2 s3 rsp av ev,
    elf_map_pt_loads hhdm r base bias s = (true, s1) /\ allocate_user_stack hhdm r s1 = (true, s2) /\
    build_initial_stack hhdm r name argc argv envp junk s2 = (rsp, (av, ev), s3) /\ rsp <> 0 /\
    loads hhdm s s1 r base bias (phdrs base) (4 * image_pages bias (phdrs base)) /\
    loaded hhdm s1 s2 r USER_STACK_BASE USER_STACK_TOP (fun _ => 0) STACK_FLAGS 1024 /\
    stack_built hhdm s2 s3 r argc' argv' envp rsp av ev.
Proof using HFL Hhhdm Hpage.
  intros U Hr Hnone [S1 _ _ S3 S4 S5 S6] B. pose proof (us_ok _ _ _ U) as Hok.
  assert (0 <= bias) as Hb by (rewrite S3; case_bool; unfold USER_ELF_DYN_BASE; lia).
  assert (USER_STACK_TOP = USER_STACK_BASE + 0x100000 /\ USER_STACK_BASE = 0x00007FFF00000000) as [ET EB] by done.
  assert (forall ph v, In ph (phdrs base) -> loadable ph = true -> seg_lo bias ph <= v < seg_hi bias ph -> 0 <= v < USER_STACK_BASE) as Hseg.
  { intros ph v Hin Hl Hv. destruct (segment_range bias size ph Hb (S4 ph Hin Hl)) as (_ & ? & ? & _). lia. }
  destruct (map_loads_ok hhdm Hhhdm Hpage (phdrs base) r base bias size s U) as (s1 & E1 & L1); auto; try lia.
  { apply (budget_le hhdm _ _ _ Hok B). lia. }
  { intros ph v Hin Hl Hv. apply Hnone. specialize (Hseg ph v Hin Hl Hv). unfold user. lia. }
  destruct (user_stack_ok hhdm Hhhdm Hpage r s1) as (s2 & E2 & L2); [apply L1| | |].
  { destruct (lo_allocs _ _ _ _ _ _ _ _ L1) as (k & Hk & ->). apply (budget_le hhdm (4 * image_pages bias (phdrs base) + 1024 - k));
      [by apply allocs_grows|apply budget_after; [done|done|lia]|lia]. }
  { intros v Hv. rewrite (proj1 (lo_other _ _ _ _ _ _ _ _ L1 v ltac:(unfold user; lia) ltac:(intros ph Hin Hl Hv'; specialize (Hseg ph v Hin Hl Hv'); lia))).
    apply Hnone. unfold user. lia. }
  pose proof (build_initial_stack_ok hhdm Hhhdm Hpage r name argc argv envp junk s2 (ld_space _ _ _ _ _ _ _ _ _ L2) Hr) as K.
  destruct (stack_args name argc argv) as [argc' argv']. destruct K as (rsp & av & ev & s3 & E3 & Hrsp & SB).
  { intros v Hv. destruct (ld_page _ _ _ _ _ _ _ _ _ L2 v Hv) as (e & Le & _). by exists e. }
  exists s1, s2, s3, rsp, av, ev. split_and!; auto.
Qed.

(** The steps give a program that is ready to run. *)
Lemma steps_ready (s s1 s2 s3 : vmm P H) r base size bias argc argv envp rsp av ev img :
  (forall v, user v -> leaf hhdm (vm s) r v = None) -> r <> 0 -> static_program base size bias ->
  loads hhdm s s1 r base bias (phdrs base) (4 * image_pages bias (phdrs base)) ->
  loaded hhdm s1 s2 r USER_STACK_BASE USER_STACK_TOP (fun _ => 0) STACK_FLAGS 1024 ->
  stack_built hhdm s2 s3 r argc argv envp rsp av ev ->
  im_pml4 img = r -> im_entry img = u64 (bias + e_entry (ehdr_of base)) -> im_rsp img = rsp -> im_argc img = argc ->
  im_argv img = av -> im_envp img = ev -> im_ldso_entry img = false -> program_ready s3 r base bias argc argv envp img.
Proof using Hhhdm Hpage.
  intros Hnone Hr [_ _ _ S3 S4 _ _] L1 L2 [B1 B2 B3 B4 B5] I1 I2 I3 I4 I5 I6 I7.
  assert (0 <= bias) as Hb by (rewrite S3; case_bool; unfold USER_ELF_DYN_BASE; lia).
  assert (USER_STACK_TOP = USER_STACK_BASE + 0x100000 /\ USER_STACK_BASE = 0x00007FFF00000000) as [ET EB] by done.
  pose proof (us_tree _ _ _ (kp_space _ _ _ _ _ _ B5)) as T3.
  split; rewrite ?I3, ?I4, ?I5, ?I6; auto.
  - intros ph v Hin Hl Hv. destruct (segment_range bias size ph Hb (S4 ph Hin Hl)) as (_ & R1 & R2 & _).
    destruct (lo_page _ _ _ _ _ _ _ _ L1 ph v Hin Hl ltac:(lia)) as (e & Le & Fl & C).
    destruct (ld_other _ _ _ _ _ _ _ _ _ L2 v ltac:(unfold user; lia) ltac:(lia)) as [E2 C2].
    assert (leaf hhdm (vm s2) r v = Some (false, e)) as Le2 by congruence. split.
    + rewrite (kp_bytes _ _ _ _ _ _ B5) by (unfold user; try lia; by exists e). rewrite C2 by (by exists e). exact C.
    + rewrite (flags_leaf hhdm s3 r v false e); [exact Fl|exact T3|]. by rewrite (kp_leaf _ _ _ _ _ _ B5).
  - intros v Hv Ns Nseg. rewrite (virt_to_phys_leaf hhdm s3 r v T3), (kp_leaf _ _ _ _ _ _ B5).
    rewrite (proj1 (ld_other _ _ _ _ _ _ _ _ _ L2 v Hv Ns)), (proj1 (lo_other _ _ _ _ _ _ _ _ L1 v Hv Nseg)), Hnone by done. done.
  - split; [done|lia].
Qed.

(** *** Running the loader's steps *)

Lemma run_space {A B} (f : vmm P H -> A * vmm P H) (k : A -> M W B) w s a s' : f s = (a, s') ->
  (on_space f ≫= k) (w <| space := s |>) = k a (w <| space := s' |>).
Proof using Type. intros E. unfold mbind, M_bind, on_space. change (space (w <| space := s |>)) with s. by rewrite E. Qed.

Lemma run_space_opt {A B} (f : vmm P H -> option (A * vmm P H)) (k : A -> M W B) w s a s' : f s = Some (a, s') ->
  (on_space_opt f ≫= k) (w <| space := s |>) = k a (w <| space := s' |>).
Proof using Type. intros E. unfold mbind, M_bind, on_space_opt. change (space (w <| space := s |>)) with s. by rewrite E. Qed.

Lemma run_create {B} (k : Z -> M W B) w r s' : vmm_create_user_pml4 hhdm (cr3 w) (space w) = (r, s') ->
  (create_pml4 hhdm ≫= k) w = k r (w <| space := s' |>).
Proof using Type. intros E. unfold create_pml4, mbind, M_bind, on_space, get. cbn [space cr3]. by rewrite E. Qed.

Lemma clamp_stack_args name argc argv : clamp_argc argc = fst (stack_args name argc (Some argv)).
Proof using Type. unfold clamp_argc, stack_args. destruct name as [[|c nm]|]; by destruct (argc <=? 0). Qed.

(** exec of a static program: given the frames for its pages and tables,
    elf_prepare_static_image returns an image in whose address space every
    segment reads as the file followed by zeros, with the segment's access
    rights; the stack holds the arguments and the environment, each vector ended
    by NULL, with the stack pointer aligned as at a function's entry; and no
    other user page is mapped.  Nothing but memory changes. *)
Theorem static_image_ready w base size bias name argc argv envp :
  static_program base size bias -> kernel_ok w -> budget hhdm (frames_needed base bias) (frames (space w)) ->
  let '(argc', argv') := stack_args name argc (Some argv) in
  exists img s', elf_prepare_static_image hhdm junk base size name argc (Some argv) envp w = Some (Some img, w <| space := s' |>) /\
    program_ready s' (im_pml4 img) base bias argc' argv' envp img.
Proof using HFL Hhhdm Hpage.
  intros Hprog [K1 K2 K3] B. pose proof Hprog as [S1 S2 St S3 S4 S5 S6]. apply andb_true_iff in S2 as [S2 E4].
  apply andb_true_iff in S2 as [S2 E3]. apply andb_true_iff in S2 as [E1 E2]. unfold frames_needed in B. cbn [Nat.add] in B.
  set (n := (4 * image_pages bias (phdrs base) + 1024)%nat) in *.
  destruct (create_space hhdm Hhhdm (cr3 w) (space w) K1 K2 K3) as (r & s0 & Ec & Hr & U & Ef & Hnone).
  { apply (budget_le hhdm (S n)); auto. lia. }
  pose proof (image_steps s0 r base size bias name argc (Some argv) envp U Hr Hnone Hprog) as K.
  pose proof (clamp_stack_args name argc argv) as Eargc.
  destruct (stack_args name argc (Some argv)) as [argc' argv'] eqn:Ea. cbn [fst] in Eargc.
  destruct K as (s1 & s2 & s3 & rsp & av & ev & X1 & X2 & X3 & Hrsp & L1 & L2 & SB).
  { rewrite Ef. pose proof (budget_after hhdm (S n) 1 _ K1 B ltac:(lia)) as B'. by replace (S n - 1)%nat with n in B' by lia. }
  exists {| im_pml4 := r; im_entry := u64 (bias + e_entry (ehdr_of base)); im_rsp := rsp; im_argc := argc'; im_argv := av; im_envp := ev;
    im_brk_start := brk_after (elf_max_load_end base bias); im_ldso_entry := false |}, s3.
  split; [|by apply (steps_ready s0 s1 s2 s3 r base size bias argc' argv' envp rsp av ev)].
  unfold elf_prepare_static_image. rewrite (proj2 (Z.ltb_ge size SIZEOF_EHDR)), E1, E2, E3, E4 by lia. cbn [negb andb].
  rewrite (run_create _ w r s0 Ec), (proj2 (Z.eqb_neq r 0) Hr), <- S3. rewrite (run_space _ _ w s0 true s1 X1). cbn [negb].
  rewrite (run_space_opt _ _ w s1 true s1); [|unfold elf_apply_relocations; by rewrite S6]. cbn [negb].
  rewrite (run_space _ _ w s1 true s2 X2). cbn [negb]. rewrite (run_space _ _ w s2 _ s3 X3).
  rewrite (proj2 (Z.eqb_neq rsp 0) Hrsp). rewrite Eargc. reflexivity.
Qed.

(** A relocation table that the dynamic section describes and the file holds. *)
Record dynamic_ok (base : buffer) (size : Z) (ph : elf64_phdr_t) (rela_va relasz relaent off : Z) : Prop := {
  dy_find : elf_find_phdr base PT_DYNAMIC = Some ph;
  dy_size : size < 2 ^ 61;
  dy_memsz : p_memsz ph <> 0;
  dy_file : 0 <= p_offset ph /\ 0 <= p_filesz ph /\ p_offset ph + p_filesz ph <= size;
  dy_scan : scan_dynamic base (Z.to_nat (p_filesz ph / SIZEOF_DYN)) (p_offset ph) (p_offset ph + p_filesz ph) (0, 0, SIZEOF_RELA) = (rela_va, relasz, relaent);
  dy_table : 0 < relasz /\ rela_va <> 0 /\ SIZEOF_RELA <= relaent < 2 ^ 62;
  dy_off : elf_va_to_file_off base rela_va = Some off /\ 0 <= off /\ off + relasz <= size
}.

(** C25: elf_apply_relocations on a table of relative relocations whose places
    are different mapped words: it returns, every place holds the load base plus
    the addend of its entry, and no other byte of the space changes. *)
Theorem relocations_applied (s : vmm P H) r base size load_base bias ph rela_va relasz relaent off :
  uspace hhdm s r -> dynamic_ok base size ph rela_va relasz relaent off ->
  table_ok hhdm base off relaent load_base bias 0 (Z.to_nat (reloc_count relasz relaent)) s r ->
  exists s', elf_apply_relocations hhdm r base size load_base bias s = Some (true, s') /\
    (forall k, 0 <= k < reloc_count relasz relaent -> let '(type, (loc, val)) := reloc_at base off relaent load_base bias k in
      type = R_X86_64_RELATIVE -> user_u64 hhdm r loc s' = val) /\
    (forall v, user v -> mapped hhdm s r v ->
      (forall k, 0 <= k < reloc_count relasz relaent -> let '(type, (loc, _)) := reloc_at base off relaent load_base bias k in
        type = R_X86_64_RELATIVE -> ~ loc <= v < loc + 8) -> user_byte hhdm r v s' = user_byte hhdm r v s).
Proof using Hhhdm Hpage.
  intros U [D1 D2 D3 (D4 & D5 & D6) D7 (D8 & D9 & D10) (D11 & D12 & D13)] Tab. unfold SIZEOF_RELA in D10.
  assert (0 <= reloc_count relasz relaent <= relasz / 24) as Hc.
  { unfold reloc_count, SIZEOF_RELA. case_bool; [Z.to_euclidean_division_equations; lia|].
    assert ((relasz - 24) / relaent <= (relasz - 24) / 24) by (apply Z.div_le_compat_l; lia).
    assert (0 <= (relasz - 24) / relaent) by (apply Z.div_pos; lia). assert ((relasz - 24) / 24 + 1 <= relasz / 24) by (Z.to_euclidean_division_equations; lia). lia. }
  destruct (relocate_ok hhdm Hhhdm Hpage (Z.to_nat (reloc_count relasz relaent)) r base off relasz relaent load_base bias 0 (S (Z.to_nat (relasz / 24))) s U)
    as (s' & E & Pa); auto; unfold SIZEOF_RELA; try lia.
  exists s'. split.
  - unfold elf_apply_relocations. rewrite D1, (proj2 (Z.eqb_neq _ 0) D3). rewrite (wrap_small 64), !(swrap_small 64) by lia.
    rewrite (proj2 (Z.ltb_ge size _)) by lia. replace (p_offset ph + p_filesz ph - p_offset ph) with (p_filesz ph) by lia. rewrite D7.
    rewrite (proj2 (Z.eqb_neq relasz 0)), (proj2 (Z.eqb_neq rela_va 0)), (proj2 (Z.ltb_ge relaent _)) by (unfold SIZEOF_RELA; lia). cbn [orb].
    rewrite D11, (wrap_small 64), (proj2 (Z.ltb_ge size _)) by lia. exact E.
  - assert (forall k loc val, 0 <= k < reloc_count relasz relaent -> reloc_at base off relaent load_base bias k = (R_X86_64_RELATIVE, (loc, val)) ->
      In (loc, val) (relocs_from base off relaent load_base bias 0 (Z.to_nat (reloc_count relasz relaent)))) as Hin.
    { intros k loc val Hk Ek. unfold relocs_from. apply list_elem_of_In, list_elem_of_omap. exists (R_X86_64_RELATIVE, (loc, val)).
      split; [|done]. apply list_elem_of_In, in_map_iff. exists k. split; [done|]. apply list_elem_of_In, elem_of_seqZ. lia. }
    split.
    + intros k Hk. destruct (reloc_at base off relaent load_base bias k) as [ty [loc val]] eqn:Ek. intros ->.
      apply at_user_u64; [by apply (pa_slot _ _ _ _ _ Pa), (Hin k)|]. unfold reloc_at in Ek. injection Ek as _ _ <-. apply Z.mod_pos_bound. lia.
    + intros v Hv M N. apply (pa_other _ _ _ _ _ Pa); auto. intros loc val Hi. unfold relocs_from in Hi.
      apply list_elem_of_In, list_elem_of_omap in Hi as (e & He & Hs). apply list_elem_of_In, in_map_iff in He as (k & Ek & Hk).
      apply list_elem_of_In, elem_of_seqZ in Hk. specialize (N k ltac:(lia)). rewrite Ek in N. destruct e as [ty [l' v']]. cbn [fst snd] in Hs.
      destruct (Z.eqb_spec ty R_X86_64_RELATIVE); [|done]. injection Hs as -> ->. by apply N.
Qed.

(** The stack for the dynamic linker holds the argument count at the stack
    pointer, the vectors of the arguments and of the environment with their
    NULLs and the auxiliary vector after them.  When the numbers of arguments
    and of variables add up to an odd number there is no room for the count: it
    is written over argv[0]. *)
Theorem ldso_stack (s : vmm P H) r name argc argv envp execfn at_phdr phent phnum at_entry at_base :
  uspace hhdm s r -> r <> 0 -> range_mapped hhdm s r USER_STACK_BASE USER_STACK_TOP ->
  let '(argc', argv') := stack_args name argc argv in
  let envc := count_string_vector envp 16 in
  exists rsp av random_slot execfn_user s',
    build_initial_stack_ldso hhdm r name argc argv envp execfn at_phdr phent phnum at_entry at_base junk s = (rsp, s') /\ rsp <> 0 /\
    user_u64 hhdm r rsp s' = argc' /\
    (if Z.even (argc' + envc) then av = rsp + 8 /\ vector_at hhdm r av argc' argv' s' else av = rsp) /\
    vector_at hhdm r (av + 8 * (argc' + 1)) envc (default (fun _ => None) envp) s' /\
    at_user hhdm r (av + 8 * (argc' + 1) + 8 * (envc + 1))
      (flat_map u64_bytes (auxv at_phdr phent phnum at_entry at_base random_slot execfn_user)) s'.
Proof using Hhhdm Hpage.
  intros U Hr R. pose proof (build_ldso_ok hhdm Hhhdm Hpage r name argc argv envp execfn at_phdr phent phnum at_entry at_base junk s U Hr R) as K.
  destruct (stack_args name argc argv) as [argc' argv']. cbv zeta. destruct K as (rsp & av & aux & rs & eu & s' & E & Nz & [B1 B2 B3 B4 B5 (B6 & B7)]).
  exists rsp, av, rs, eu, s'. split_and!; auto; [|by rewrite <- B6].
  destruct (Z.even (argc' + count_string_vector envp 16)); [|done]. split; [lia|]. split; [exact B3|exact B4].
Qed.

(** *** What a failing exec leaves alone *)

(** A computation that touches no task and not the page table register. *)
Definition calm {A} (m : M W A) : Prop := forall w a w', m w = Some (a, w') -> task w' = task w /\ current w' = current w /\ cr3 w' = cr3 w.

Lemma bind_inv {A B} (e : M W A) (k : A -> M W B) w b w2 : (e ≫= k) w = Some (b, w2) -> exists a w1, e w = Some (a, w1) /\ k a w1 = Some (b, w2).
Proof using Type. unfold mbind, M_bind. destruct (e w) as [[a w1]|]; [|done]. eauto. Qed.

Lemma calm_ret {A} (a : A) : calm (mret a).
Proof using Type. by intros w b w' [= <- <-]. Qed.

Lemma calm_bind {A B} (e : M W A) (k : A -> M W B) : calm e -> (forall a, calm (k a)) -> calm (e ≫= k).
Proof using Type.
  intros He Hk w b w2 E. apply bind_inv in E as (a & w1 & E1 & E2). destruct (He _ _ _ E1) as (? & ? & ?). destruct (Hk _ _ _ _ E2) as (? & ? & ?).
  split_and!; congruence.
Qed.

Lemma calm_space {A} (f : vmm P H -> A * vmm P H) : calm (on_space f).
Proof using Type. intros w a w'. unfold on_space. destruct (f (space w)) as [x y]. by intros [= <- <-]. Qed.

Lemma calm_space_opt {A} (f : vmm P H -> option (A * vmm P H)) : calm (on_space_opt f).
Proof using Type. intros w a w'. unfold on_space_opt. destruct (f (space w)) as [[x y]|]; [|done]. by intros [= <- <-]. Qed.

Lemma calm_files {A} (f : F -> option (A * F)) : calm (on_files f).
Proof using Type. intros w a w'. unfold on_files. destruct (f (files w)) as [[x y]|]; [|done]. by intros [= <- <-]. Qed.

Lemma calm_get : calm get.
Proof using Type. by intros w a w' [= <- <-]. Qed.

Lemma calm_if {A} (b : bool) (m1 m2 : M W A) : calm m1 -> calm m2 -> calm (if b then m1 else m2).
Proof using Type. by destruct b. Qed.

Ltac calm := repeat first
  [ apply calm_ret | apply calm_space | apply calm_space_opt | apply calm_files | apply calm_get | solve [auto] | match goal with |- forall _, _ => intros ? end
  | apply calm_if | apply calm_bind | match goal with |- calm (let '(_, _) := ?x in _) => destruct x end
  | match goal with |- calm (match ?x with _ => _ end) => destruct x end ].

Lemma calm_read_loop n : forall fd buf data size cap, calm (read_loop junk n fd buf data size cap).
Proof using Type.
  induction n as [|n IH]; intros fd buf data size cap; [by intros w a w'|]. cbn [read_loop]. unfold kmalloc, kfree. calm.
Qed.

Lemma calm_read_open fd : calm (read_open_file junk reads fd).
Proof using Type. pose proof (calm_read_loop reads). unfold read_open_file, kmalloc. calm. Qed.

Lemma calm_read path : calm (elf_read_whole_file junk reads path).
Proof using Type. pose proof calm_read_open. unfold elf_read_whole_file. calm. Qed.

Lemma calm_static base size name argc argv envp : calm (elf_prepare_static_image hhdm junk base size name argc argv envp).
Proof using Type. unfold elf_prepare_static_image, create_pml4, destroy_pml4. calm. Qed.

Lemma calm_dynamic base size name argc argv envp execfn : calm (elf_prepare_dynamic_image hhdm junk reads base size name argc argv envp execfn).
Proof using Type. pose proof calm_read. unfold elf_prepare_dynamic_image, create_pml4, destroy_pml4, kfree. calm. Qed.

Lemma calm_resolve name cap : calm (elf_resolve_executable junk name cap).
Proof using Type.
  assert (forall path, calm (elf_path_has_magic junk path)) as Hm by (intros path; unfold elf_path_has_magic; calm).
  assert (forall path c, calm (try_elf_candidate_path junk path c)) as Ht by (intros path c; unfold try_elf_candidate_path; calm).
  assert (forall dirs nm c, calm (search junk dirs nm c)) as Hs by (induction dirs; intros nm c; cbn [search]; calm).
  unfold elf_resolve_executable. calm.
Qed.

(** The task that called exec, in its new image. *)
Record replaced (w w' : W) : Prop := {
  rp_others : forall t, t <> current w -> task w' t = task w t;
  rp_current : current w' = current w;
  rp_cr3 : cr3 w' = vmm_virt_hhdm_to_phys hhdm (t_pml4 (mm (task w' (current w))));
  rp_id : id (task w' (current w)) = id (task w (current w)) /\ thread_group (task w' (current w)) = 0;
  rp_leader : thread_group (task w (current w)) = 0 \/ thread_group (task w (current w)) = id (task w (current w));
  rp_signals : signal_pending (task w' (current w)) = 0 /\ sig_mask (task w' (current w)) = 0 /\
    forall i, 0 <= i < 32 -> sig_handlers (task w' (current w)) i = 0;
  rp_memory : vmas (mm (task w' (current w))) = [] /\ brk_current (mm (task w' (current w))) = brk_start (mm (task w' (current w)));
  rp_tls : tls_base (task w' (current w)) = 0
}.

Lemma commit_replaces img resolved w w' : commit_image hhdm img resolved w = Some (tt, w') ->
  thread_group (task w (current w)) = 0 \/ thread_group (task w (current w)) = id (task w (current w)) -> replaced w w'.
Proof using Type.
  intros E Hl. unfold commit_image in E. apply bind_inv in E as (a & w0 & E0 & E). injection E0 as <- <-. cbv zeta in E.
  apply bind_inv in E as (vt & w1 & E1 & E). unfold on_space, vmm_destroy_task_vmas in E1. injection E1 as <- <-.
  apply bind_inv in E as (u & w2 & E2 & E). injection E2 as <- <-.
  apply bind_inv in E as (u & w3 & E3 & E). destruct (calm_files _ _ _ _ E3) as (C1 & C2 & C3).
  apply bind_inv in E as (u' & w4 & E4 & E). injection E4 as <- <-.
  assert (calm (if negb (t_pml4 (mm (task w (current w))) =? 0) && negb (t_pml4 (mm (task w (current w))) =? im_pml4 img)
    then destroy_pml4 hhdm (t_pml4 (mm (task w (current w)))) else mret tt : M W unit)) as C by (unfold destroy_pml4; calm).
  destruct (C _ _ _ E) as (F1 & F2 & F3). cbn in F1, F2, F3, C1, C2. rewrite C1 in F1. rewrite C2 in F2.
  split; rewrite ?F1, ?F2, ?F3; auto; rewrite ?upd_eq; auto.
  - intros t Ht. by rewrite upd_ne.
  - cbn. split_and!; auto. intros i Hi. case_bool; [done|lia].
Qed.


End claims.

(** ** A small program *)

Module Demo.

Import VmmClaims VmmClaims.Demo.

#[local] Instance no_files : Files unit := {
  fs_open _ _ f := Some (-1, f); fs_read _ b _ f := Some (-1, b, f); fs_close _ f := Some (-1, f); fs_close_cloexec _ f := Some f }.
#[local] Instance no_spawn : Spawn unit := { sched_spawn _ _ _ _ x := (None, x) }.

(** One segment of four bytes of code and four of zeros at 0x400000. *)
Definition tiny : list Z :=
  le 4 ELF_MAGIC ++ [2; 1; 1] ++ repeat 0 9 ++ le 2 ET_EXEC ++ le 2 0x3E ++ le 4 1 ++ le 8 0x400000 ++ le 8 64 ++ le 8 0 ++ le 4 0 ++
  le 2 64 ++ le 2 56 ++ le 2 1 ++ repeat 0 6 ++
  le 4 PT_LOAD ++ le 4 5 ++ le 8 120 ++ le 8 0x400000 ++ le 8 0x400000 ++ le 8 4 ++ le 8 8 ++ le 8 4096 ++
  [0x90; 0x90; 0xEB; 0xFE].

Definition tiny_file : buffer := array tiny.
Definition tiny_segment : elf64_phdr_t :=
  {| p_type := PT_LOAD; p_flags := 5; p_offset := 120; p_vaddr := 0x400000; p_filesz := 4; p_memsz := 8 |}.

Lemma tiny_phdrs : phdrs tiny_file = [tiny_segment].
Proof. vm_compute. reflexivity. Qed.

Definition big : vmm frame_bump Z :=
  start <| frames := {| fb_next := 0x2000; fb_end := 0x100000000; fb_refs := fun _ => 0 |} |>.

Definition kernel : world frame_bump Z unit unit := {|
  space := big; files := tt; sched := tt; cr3 := 0; current := 0;
  task := fun _ => {| id := 0; thread_group := 0; mm := {| t_pml4 := 0; brk_start := 0; brk_current := 0; vmas := [] |};
    signal_pending := 0; sig_mask := 0; sig_handlers := fun _ => 0; tls_base := 0; name := [] |} |}.

Lemma allocs_bump n p : fb_next p + 4096 * Z.of_nat n <= fb_end p ->
  fb_next (allocs n p) = fb_next p + 4096 * Z.of_nat n /\ fb_end (allocs n p) = fb_end p.
Proof.
  revert p. induction n as [|n IH]; intros p Hp; cbn [allocs]; [lia|].
  cbn [fr_alloc bump_frames]. rewrite (proj2 (Z.leb_le _ _)) by lia. cbn [snd].
  match goal with |- fb_next (allocs n ?q) = _ /\ _ => destruct (IH q) as [E1 E2] end; cbn in *; lia.
Qed.

Lemma bump_budget n p : fb_next p + 4096 * Z.of_nat n <= fb_end p -> 0 < fb_next p -> fb_end p <= 0x100000000 -> budget hhdm0 n p.
Proof.
  intros Hp H0 He. split.
  - intros k Hk. destruct (allocs_bump k p ltac:(lia)) as [E1 E2]. cbn [fr_alloc bump_frames]. rewrite E1, E2.
    rewrite (proj2 (Z.leb_le _ _)) by lia. cbn. lia.
  - intros a Ha. cbn in Ha. destruct (allocs_bump n p ltac:(lia)) as [E1 E2]. rewrite E1 in Ha. unfold hhdm0. lia.
Qed.

Lemma tiny_program : static_program tiny_file 124 0.
Proof.
  split; rewrite ?tiny_phdrs.
  - unfold SIZEOF_EHDR. lia.
  - vm_compute. reflexivity.
  - vm_compute. split_and!; discriminate.
  - vm_compute. reflexivity.
  - intros ph [<-|[]] _. split; cbn; try lia. unfold seg_base, USER_STACK_BASE. cbn. lia.
  - apply FOP_cons; [apply List.Forall_nil|apply FOP_nil].
  - vm_compute. reflexivity.
Qed.

Lemma kernel_runs : kernel_ok hhdm0 kernel.
Proof.
  split.
  - split; [cbn; lia|done].
  - intros a. cbn. lia.
  - change (vmm_get_kernel_pml4 hhdm0 (cr3 kernel) (space kernel)) with root0. change (vm (space kernel)) with (vm start).
    apply empty_tree; [|intros i _; reflexivity]. split. exists 0x1000. split; [done|]. split; [split; cbn; lia|]. split; [done|lia].
Qed.

Definition init : list Z := [105; 110; 105; 116].

(** The program reads its code, zeros after it, and its name as the only
    argument. *)
Lemma static_image_ready_witness : exists img s',
  elf_prepare_static_image hhdm0 (fun _ => 7) tiny_file 124 (Some init) 1 (Some (fun _ => Some init)) None kernel =
    Some (Some img, kernel <| space := s' |>) /\
  im_entry img = 0x400000 /\ im_argc img = 1 /\ user_byte hhdm0 (im_pml4 img) 0x400002 s' = 0xEB /\
  user_byte hhdm0 (im_pml4 img) 0x400004 s' = 0 /\ vmm_virt_to_phys hhdm0 (im_pml4 img) 0x401000 s' = 0 /\
  at_user hhdm0 (im_pml4 img) (user_u64 hhdm0 (im_pml4 img) (im_argv img + 8 * 0) s') (init ++ [0]) s'.
Proof.
  pose proof (static_image_ready hhdm0 hhdm0_pos (eq_refl : aligned hhdm0) (fun _ => 7) kernel tiny_file 124 0 (Some init) 1
    (fun _ => Some init) None tiny_program kernel_runs) as K.
  assert (budget hhdm0 (frames_needed tiny_file 0) (frames (space kernel))) as B.
  { assert (frames_needed tiny_file 0 = 1029%nat) as -> by (vm_compute; reflexivity).
    apply bump_budget; [change (0x2000 + 4096 * Z.of_nat 1029 <= 0x100000000); lia|done|done]. }
  specialize (K B). change (stack_args (Some init) 1 (Some (fun _ => Some init))) with (1, fun _ : Z => Some init) in K. cbv beta iota in K.
  destruct K as (img & s' & E & R). exists img, s'. split; [exact E|].
  assert (In tiny_segment (phdrs tiny_file)) as Hin by (rewrite tiny_phdrs; by left).
  destruct (pr_argv _ _ _ _ _ _ _ _ _ R) as [A1 [A2 _]]. split_and!.
  - rewrite (pr_entry _ _ _ _ _ _ _ _ _ R). vm_compute. reflexivity.
  - exact A1.
  - rewrite (proj1 (pr_segment _ _ _ _ _ _ _ _ _ R tiny_segment 0x400002 Hin eq_refl ltac:(unfold seg_base; cbn; lia))). vm_compute. reflexivity.
  - rewrite (proj1 (pr_segment _ _ _ _ _ _ _ _ _ R tiny_segment 0x400004 Hin eq_refl ltac:(unfold seg_base; cbn; lia))). vm_compute. reflexivity.
  - apply (pr_unmapped _ _ _ _ _ _ _ _ _ R); [unfold user; lia|unfold USER_STACK_BASE, USER_STACK_TOP; lia|].
    intros ph. rewrite tiny_phdrs. intros [<-|[]] _. vm_compute. intros [_ X]. discriminate.
  - exact (A2 0 ltac:(lia)).
Defined.

(** A space with a stack. *)
Lemma stack_space : exists (s : vmm frame_bump Z) r, uspace hhdm0 s r /\ r <> 0 /\ range_mapped hhdm0 s r USER_STACK_BASE USER_STACK_TOP.
Proof.
  destruct kernel_runs as [K1 K2 K3].
  assert (budget hhdm0 1025 (frames big)) as B by (apply bump_budget; [change (0x2000 + 4096 * Z.of_nat 1025 <= 0x100000000); lia|done|done]).
  destruct (create_space hhdm0 hhdm0_pos (cr3 kernel) (space kernel) K1 K2 K3) as (r & s0 & _ & Hr & U & Ef & Hn).
  { apply (budget_le hhdm0 1025); auto. lia. }
  destruct (user_stack_ok hhdm0 hhdm0_pos (eq_refl : aligned hhdm0) r s0 U) as (s & _ & L).
  { rewrite Ef. exact (budget_after hhdm0 1025 1 _ K1 B ltac:(lia)). }
  { intros v Hv. apply Hn. unfold user, USER_STACK_BASE, USER_STACK_TOP in *. change USER_STACK_SIZE with 0x100000 in *. unfold USER_STACK_BASE in *. lia. }
  exists s, r. split_and!; [apply L|done|]. intros v Hv. destruct (ld_page _ _ _ _ _ _ _ _ _ L v Hv) as (e & Le & _). by exists e.
Qed.

(** One argument and no variables: the word the program takes for argv[0] is the
    argument count. *)
Lemma ldso_stack_witness : exists (s s' : vmm frame_bump Z) r rsp,
  build_initial_stack_ldso hhdm0 r (Some init) 1 (Some (fun _ => Some init)) None (Some init) 0x400040 56 1 0x400000 0x800000 (fun _ => 7) s = (rsp, s') /\
  rsp <> 0 /\ user_u64 hhdm0 r rsp s' = 1 /\ user_u64 hhdm0 r (rsp + 8 * 2) s' = 0.
Proof.
  destruct stack_space as (s & r & U & Hr & R).
  pose proof (ldso_stack hhdm0 hhdm0_pos (eq_refl : aligned hhdm0) (fun _ => 7) s r (Some init) 1 (Some (fun _ => Some init)) None (Some init)
    0x400040 56 1 0x400000 0x800000 U Hr R) as K.
  change (stack_args (Some init) 1 (Some (fun _ => Some init))) with (1, fun _ : Z => Some init) in K. cbv beta iota in K.
  change (count_string_vector None 16) with 0 in K. cbv zeta in K. change (Z.even (1 + 0)) with false in K. cbv iota in K.
  destruct K as (rsp & av & rs & eu & s' & E & Nz & A & -> & [_ V] & _). exists s, s', r, rsp. split_and!; auto.
  rewrite <- V. f_equal. lia.
Defined.

(** A file with a relocation table of one entry: the word at the bottom of the
    stack becomes the load base plus 0x10. *)
Definition relocatable : list Z :=
  le 4 ELF_MAGIC ++ [2; 1; 1] ++ repeat 0 9 ++ le 2 ET_DYN ++ le 2 0x3E ++ le 4 1 ++ le 8 0 ++ le 8 64 ++ le 8 0 ++ le 4 0 ++
  le 2 64 ++ le 2 56 ++ le 2 2 ++ repeat 0 6 ++
  le 4 PT_LOAD ++ le 4 6 ++ le 8 0 ++ le 8 0x1000 ++ le 8 0 ++ le 8 300 ++ le 8 300 ++ le 8 4096 ++
  le 4 PT_DYNAMIC ++ le 4 6 ++ le 8 176 ++ le 8 0x10B0 ++ le 8 0 ++ le 8 48 ++ le 8 48 ++ le 8 8 ++
  le 8 DT_RELA ++ le 8 0x10E0 ++ le 8 DT_RELASZ ++ le 8 24 ++ le 8 DT_NULL ++ le 8 0 ++
  le 8 (USER_STACK_BASE - 0x400000) ++ le 8 R_X86_64_RELATIVE ++ le 8 0x10.

Definition relocatable_dyn : elf64_phdr_t := {| p_type := PT_DYNAMIC; p_flags := 6; p_offset := 176; p_vaddr := 0x10B0; p_filesz := 48; p_memsz := 48 |}.

Lemma relocations_applied_witness : exists (s s' : vmm frame_bump Z) r,
  elf_apply_relocations hhdm0 r (array relocatable) 300 0x401000 0x400000 s = Some (true, s') /\ user_u64 hhdm0 r USER_STACK_BASE s' = 0x401010.
Proof.
  destruct stack_space as (s & r & U & Hr & R).
  destruct (relocations_applied hhdm0 hhdm0_pos (eq_refl : aligned hhdm0) s r (array relocatable) 300 0x401000 0x400000 relocatable_dyn 0x10E0 24 24 224 U)
    as (s' & E & V & _).
  - split; try lia; [vm_compute; reflexivity|cbn; lia|cbn; lia|vm_compute; reflexivity|unfold SIZEOF_RELA; lia|split; [vm_compute; reflexivity|lia]].
  - assert (map (reloc_at (array relocatable) 224 24 0x401000 0x400000) (seqZ 0 (Z.of_nat (Z.to_nat (reloc_count 24 24)))) =
      [(R_X86_64_RELATIVE, (USER_STACK_BASE, 0x401010))]) as Em by (vm_compute; reflexivity).
    split; [rewrite Em; apply List.Forall_cons; [|apply List.Forall_nil]|unfold relocs_from; rewrite Em; apply NoDup_cons; [by intros []|apply NoDup_nil]].
    right. split; [done|]. cbn [fst snd]. split; [unfold user, USER_STACK_BASE; lia|]. split; [done|]. intros v Hv. apply R.
    unfold USER_STACK_TOP. change USER_STACK_SIZE with 0x100000. lia.
  - exists s, s', r. split; [exact E|]. specialize (V 0 ltac:(vm_compute; split; [discriminate|reflexivity])).
    change (reloc_at (array relocatable) 224 24 0x401000 0x400000 0) with (R_X86_64_RELATIVE, (USER_STACK_BASE, 0x401010)) in V. by apply V.
Defined.


End Demo.
End ElfClaims.
