(* ===== verification/ElfExec.v ===== *)
(** * exec from a path to a running program

    The interface of the files with its laws, reading a whole file, and the
    composition of exec: the program at a path is found, read, loaded and
    entered. *)

From S2P Require Import Prelude Mem Str Block Fat32 Vmm VmmProps VmmClaims NetBase UserSpace Cstr Elf ElfProps ElfClaims.
Import Mem Str Vmm VmmProps UserSpace Cstr Elf ElfProps ElfClaims.
Import Block(buffer, blit) Fat32(M, M_ret, M_bind, out_of_fuel).

(** What the loader relies on: a file that exists can be opened, reads return
    its bytes in order and nothing only at its end, and reading and closing
    change no file. *)
Class FilesLaws (F : Type) `{Files F} := {
  fs_file : F -> list Z -> option (list Z);
  fs_pos : F -> Z -> option (list Z * Z);
  fs_open_law f path c : fs_file f path = Some c ->
    exists fd f', fs_open path 0 f = Some (fd, f') /\ 0 <= fd /\ fs_pos f' fd = Some (c, 0) /\ fs_file f' = fs_file f;
  fs_read_law f fd c o buf count : fs_pos f fd = Some (c, o) -> 0 <= o <= Z.of_nat (length c) -> 0 < count ->
    exists n b f', fs_read fd buf count f = Some (n, b, f') /\ 0 <= n <= count /\ o + n <= Z.of_nat (length c) /\
      (n = 0 -> o = Z.of_nat (length c)) /\ (4 <= count -> o = 0 -> 4 <= Z.of_nat (length c) -> 4 <= n) /\
      (forall i, 0 <= i < n -> b i = nth (Z.to_nat (o + i)) c 0) /\ fs_pos f' fd = Some (c, o + n) /\ fs_file f' = fs_file f;
  fs_close_law f fd : exists rc f', fs_close fd f = Some (rc, f') /\ fs_file f' = fs_file f;
  fs_cloexec_law f t : exists f', fs_close_cloexec t f = Some f'
}.

Module ElfExec.

#[local] Existing Instances M_ret M_bind.

Section exec.
Context {P H F T : Type} `{HF : Frames P} `{HFL : !FramesLaws P} `{HK : Kheap H} `{HFI : Files F} `{HFIL : !FilesLaws F} `{HSP : Spawn T}.
Variable hhdm : Z.
Hypothesis Hhhdm : 0 <= hhdm.
Hypothesis Hpage : aligned hhdm.
Variable junk : buffer.
Variable reads : nat.
#[local] Notation W := (world P H F T).
Implicit Types w : W.

(** The heap serves every request. *)
Hypothesis Hheap : forall n (h : H), fst (kh_alloc n h) <> 0.

(** Only the heap, the files and their descriptors differ. *)
Record reading (w w' : W) : Prop := {
  rg_space : exists h, space w' = (space w) <| kheap := h |>;
  rg_files : fs_file (files w') = fs_file (files w);
  rg_tasks : task w' = task w /\ current w' = current w /\ cr3 w' = cr3 w /\ sched w' = sched w
}.

Lemma reading_refl w : reading w w.
Proof using Type. split; [exists (kheap (space w)); by destruct w as [[]]|done|done]. Qed.

Lemma reading_trans w1 w2 w3 : reading w1 w2 -> reading w2 w3 -> reading w1 w3.
Proof using Type.
  intros [(h & E) F1 (A & B & C & D)] [(h' & E') F2 (A' & B' & C' & D')]. split; [exists h'; by rewrite E', E|congruence|split_and!; congruence].
Qed.

Lemma bind_run {A B} (e : M W A) (k : A -> M W B) w a w' : e w = Some (a, w') -> (e ≫= k) w = k a w'.
Proof using Type. intros E. unfold mbind, M_bind. by rewrite E. Qed.

Lemma run_kmalloc n w : exists a w', kmalloc n w = Some (a, w') /\ a <> 0 /\ reading w w' /\ files w' = files w.
Proof using Hheap.
  unfold kmalloc, on_space. pose proof (Hheap n (kheap (space w))) as Hn. destruct (kh_alloc n (kheap (space w))) as [a h]. cbn in Hn.
  eexists a, _. split; [reflexivity|]. split_and!; auto. split; [by exists h|done|done].
Qed.

Lemma run_kfree a w : exists w', kfree a w = Some (tt, w') /\ reading w w' /\ files w' = files w.
Proof using Type. eexists. split; [reflexivity|]. split; [|done]. split; [eexists; reflexivity|done|done]. Qed.

(** ** Reading a file *)

(** The first [size] bytes of [data] are those of [c]. *)
Definition holds_prefix (c : list Z) (data : buffer) (size : Z) : Prop := forall i, 0 <= i < size -> data i = nth (Z.to_nat i) c 0.

Lemma read_rounds_ok n : forall fd c buf data size cap w,
  fs_pos (files w) fd = Some (c, size) -> 0 <= size <= cap -> size <= Z.of_nat (length c) -> Z.of_nat (length c) < MAX_FILE ->
  holds_prefix c data size -> Z.of_nat (length c) - size < Z.of_nat n -> (exists k, 0 <= k <= 6 /\ cap = 65536 * 2 ^ k) ->
  exists buf' data' w', read_loop junk n fd buf data size cap w = Some (Some (buf', data', Z.of_nat (length c)), w') /\
    holds_prefix c data' (Z.of_nat (length c)) /\ reading w w'.
Proof using Hheap.
  induction n as [|n IH]; intros fd c buf data size cap w Hpos Hsz Hle Hmax Hd Hn Hcap; [lia|]. cbn [read_loop].
  assert (exists buf1 data1 cap1 w1, (if size =? cap then
           let new_cap := cap * 2 in
           if MAX_FILE <? new_cap then mret (false, buf, data, cap)
           else
             next ← kmalloc new_cap;
             if next =? 0 then mret (false, buf, data, cap)
             else _ ← kfree buf; mret (true, next, blit junk 0 data 0 size, new_cap)
         else mret (true, buf, data, cap) : M W (bool * Z * buffer * Z)) w = Some (true, buf1, data1, cap1, w1) /\
    size < cap1 /\ holds_prefix c data1 size /\ reading w w1 /\ files w1 = files w /\ (exists k, 0 <= k <= 6 /\ cap1 = 65536 * 2 ^ k))
    as (buf1 & data1 & cap1 & w1 & E1 & Hc1 & Hd1 & R1 & F1 & Hcap1).
  { destruct Hcap as (k & Hk & ->). destruct (Z.eqb_spec size (65536 * 2 ^ k)) as [Es|Ne].
    2:{ exists buf, data, (65536 * 2 ^ k), w. split; [done|]. split_and!; auto; [lia|apply reading_refl|by exists k]. }
    assert (k <= 5) as Hk5. { destruct (decide (k = 6)) as [->|]; [|lia]. change (65536 * 2 ^ 6) with MAX_FILE in Es. lia. }
    assert (65536 * 2 ^ k * 2 = 65536 * 2 ^ (k + 1)) as E2 by (rewrite Z.pow_add_r by lia; lia).
    assert (2 ^ (k + 1) <= 2 ^ 6) as Hp by (apply Z.pow_le_mono_r; lia). assert (0 < 2 ^ k) by (apply Z.pow_pos_nonneg; lia).
    cbv zeta. rewrite E2, (proj2 (Z.ltb_ge MAX_FILE _)) by (change MAX_FILE with (65536 * 2 ^ 6); lia).
    destruct (run_kmalloc (65536 * 2 ^ (k + 1)) w) as (a & w2 & Ea & Na & Ra & Fa). rewrite (bind_run _ _ _ _ _ Ea), (proj2 (Z.eqb_neq a 0) Na).
    destruct (run_kfree buf w2) as (w3 & Eb & Rb & Fb). rewrite (bind_run _ _ _ _ _ Eb).
    eexists a, _, _, w3. split; [reflexivity|]. split_and!; [lia| |by apply (reading_trans w w2)|congruence|exists (k + 1); split; [lia|done]].
    intros i Hi. unfold blit. case_bool; [|lia]. rewrite <- Hd by done. f_equal. lia. }
  rewrite (bind_run _ _ _ _ _ E1). cbn [negb].
  destruct (fs_read_law (files w1) fd c size (fun i => data1 (size + i)) (cap1 - size)) as (m & b & f' & Er & Hm & Ho & Hz & _ & Hb & Hp & Hf);
    [by rewrite F1|lia|lia|].
  assert (on_files (fs_read fd (fun i => data1 (size + i)) (cap1 - size)) w1 = Some ((m, b), w1 <| files := f' |>)) as E2.
  { unfold on_files. rewrite Er. reflexivity. }
  rewrite (bind_run _ _ _ _ _ E2). cbv beta iota zeta. rewrite (proj2 (Z.ltb_ge m 0)) by lia.
  assert (reading w (w1 <| files := f' |>)) as R2.
  { apply (reading_trans w w1); [done|]. split; [exists (kheap (space w1)); by destruct w1 as [[]]|cbn; exact Hf|done]. }
  assert (holds_prefix c (blit data1 size b 0 (cap1 - size)) (size + m)) as Hd2.
  { intros i Hi. unfold blit. case_bool.
    - replace (i - size + 0) with (i - size) by lia. rewrite Hb by lia. do 2 f_equal. lia.
    - apply Hd1. lia. }
  destruct (Z.eqb_spec m 0) as [->|Nm].
  - specialize (Hz eq_refl). exists buf1, (blit data1 size b 0 (cap1 - size)), (w1 <| files := f' |>). rewrite <- Hz.
    split; [done|]. split; [|done]. by rewrite Z.add_0_r in Hd2.
  - destruct (IH fd c buf1 (blit data1 size b 0 (cap1 - size)) (size + m) cap1 (w1 <| files := f' |>)) as (buf2 & data2 & w2 & E3 & H3 & R3); auto; try lia.
    exists buf2, data2, w2. split; [exact E3|]. split; [done|]. by apply (reading_trans w (w1 <| files := f' |>)).
Qed.

(** elf_read_whole_file returns the file when it has less than 4 MiB. *)
Lemma read_whole_ok path c w : fs_file (files w) path = Some c -> Z.of_nat (length c) < MAX_FILE -> Z.of_nat (length c) < Z.of_nat reads ->
  exists buf data w', elf_read_whole_file junk reads path w = Some (Some (buf, data, Z.of_nat (length c)), w') /\
    holds_prefix c data (Z.of_nat (length c)) /\ reading w w'.
Proof using Hheap.
  intros Hf Hm Hr. unfold elf_read_whole_file. destruct (fs_open_law (files w) path c Hf) as (fd & f' & Eo & Hfd & Hp & Hk).
  assert (on_files (fs_open path 0) w = Some (fd, w <| files := f' |>)) as E1 by (unfold on_files; by rewrite Eo).
  rewrite (bind_run _ _ _ _ _ E1), (proj2 (Z.ltb_ge fd 0) Hfd). unfold read_open_file.
  assert (reading w (w <| files := f' |>)) as R1 by (split; [exists (kheap (space w)); by destruct w as [[]]|exact Hk|done]).
  destruct (run_kmalloc 65536 (w <| files := f' |>)) as (buf & w2 & E2 & N2 & R2 & F2). rewrite (bind_run _ _ _ _ _ E2), (proj2 (Z.eqb_neq buf 0) N2).
  destruct (read_rounds_ok reads fd c buf junk 0 65536 w2) as (buf' & data & w3 & E3 & H3 & R3); auto; try lia.
  { by rewrite F2. } { intros i Hi. lia. } { by exists 0. }
  rewrite (bind_run _ _ _ _ _ E3). destruct (fs_close_law (files w3) fd) as (rc & f4 & E4 & K4).
  assert (on_files (fs_close fd) w3 = Some (rc, w3 <| files := f4 |>)) as E5 by (unfold on_files; by rewrite E4).
  rewrite (bind_run _ _ _ _ _ E5). exists buf', data, (w3 <| files := f4 |>). split_and!; [done|done|].
  apply (reading_trans w w3); [apply (reading_trans w w2); [by apply (reading_trans w (w <| files := f' |>))|done]|].
  split; [exists (kheap (space w3)); by destruct w3 as [[]]|exact K4|done].
Qed.

(** ** Files as buffers *)

Lemma ehdr_ext (a b : buffer) : (forall i, 0 <= i < SIZEOF_EHDR -> a i = b i) -> ehdr_of a = ehdr_of b.
Proof using Type.
  unfold SIZEOF_EHDR. intros E. unfold ehdr_of. rewrite (E 4) by lia.
  f_equal; apply load_ext; intros i Hi; apply E; cbn in Hi; lia.
Qed.

Lemma phdr_ext (a b : buffer) o : (forall i, o <= i < o + SIZEOF_PHDR -> a i = b i) -> phdr_of a o = phdr_of b o.
Proof using Type.
  unfold SIZEOF_PHDR. intros E. unfold phdr_of. f_equal; apply load_ext; intros i Hi; apply E; cbn in Hi; lia.
Qed.

(** Programs whose files agree have the same headers. *)
Section agree.
Variables (a b : buffer) (size bias : Z).
Hypothesis E : forall i, 0 <= i < size -> b i = a i.
Hypothesis S : static_program a size bias.

Lemma agree_ehdr : ehdr_of b = ehdr_of a.
Proof using E S. apply ehdr_ext. intros i Hi. apply E. destruct S as [? _ _ _ _ _ _]. lia. Qed.

Lemma agree_phdrs : phdrs b = phdrs a.
Proof using E S.
  unfold phdrs. rewrite agree_ehdr. destruct S as [S1 S2 (S3 & S4 & S5) _ _ _ _].
  assert (e_phentsize (ehdr_of a) = SIZEOF_PHDR) as Es.
  { apply andb_true_iff in S2 as [S2 _]. apply andb_true_iff in S2 as [_ S2]. by apply Z.eqb_eq. }
  apply list_omap_ext, Forall2_same_length_lookup_2; [done|]. intros i x y Hx Hy. rewrite Hx in Hy. injection Hy as <-.
  apply list_elem_of_lookup_2, elem_of_seqZ in Hx. unfold elf_phdr_at. rewrite agree_ehdr, Es. case_bool; [done|]. unfold SIZEOF_PHDR in *.
  f_equal. rewrite (swrap_small 64) by nia. apply phdr_ext. intros j Hj. apply E. unfold SIZEOF_PHDR in Hj. nia.
Qed.

Lemma agree_program : static_program b size bias.
Proof using E S.
  destruct S as [S1 S2 S3 S4 S5 S6 S7]. unfold is_elf64, known_type, phdr_size_ok, phdrs_inside in *.
  split; unfold is_elf64, known_type, phdr_size_ok, phdrs_inside, elf_find_phdr in *; rewrite ?agree_ehdr, ?agree_phdrs; auto.
Qed.

Lemma agree_segment ph v : In ph (phdrs a) -> loadable ph = true -> segment_byte b ph (seg_base bias ph) v = segment_byte a ph (seg_base bias ph) v.
Proof using E S.
  intros Hin Hl. unfold segment_byte. case_bool; [|done]. destruct S as [_ _ _ _ S5 _ _]. destruct (S5 ph Hin Hl). apply E. lia.
Qed.
End agree.

(** ** What a change of frames or of the heap leaves *)

Lemma virt_to_phys_vm r v (s s' : vmm P H) : vm s' = vm s -> vmm_virt_to_phys hhdm r v s' = vmm_virt_to_phys hhdm r v s.
Proof using Type. intros E. unfold vmm_virt_to_phys, walk_pd, Vmm.get. by rewrite E. Qed.

Lemma view_vm r v (s s' : vmm P H) : vm s' = vm s -> user_byte hhdm r v s' = user_byte hhdm r v s.
Proof using Type. intros E. unfold user_byte. by rewrite (virt_to_phys_vm r v s s' E), E. Qed.

Lemma at_user_vm r a l (s s' : vmm P H) : vm s' = vm s -> at_user hhdm r a l s -> at_user hhdm r a l s'.
Proof using Type. intros E A k Hk. unfold view. rewrite (view_vm _ _ s s' E). by apply A. Qed.

Lemma vector_vm r a n items (s s' : vmm P H) : vm s' = vm s -> vector_at hhdm r a n items s -> vector_at hhdm r a n items s'.
Proof using Type.
  intros E [A N]. assert (forall x, user_u64 hhdm r x s' = user_u64 hhdm r x s) as Eu.
  { intros x. apply load_ext. intros b _. unfold view. by apply view_vm. }
  split; [intros j Hj; rewrite Eu; apply (at_user_vm _ _ _ s s' E); by apply A|by rewrite Eu].
Qed.

Lemma program_vm (s s' : vmm P H) r (a b : buffer) size bias argc argv envp img : vm s' = vm s ->
  (forall i, 0 <= i < size -> b i = a i) -> static_program a size bias ->
  program_ready hhdm s r b bias argc argv envp img -> program_ready hhdm s' r a bias argc argv envp img.
Proof using Type.
  intros E Eb S [A1 A2 A3 A4 A5 A6 (A7 & A8) A9].
  split; rewrite <- ?(agree_ehdr a b size bias Eb S); auto; rewrite <- ?(agree_phdrs a b size bias Eb S).
  - intros ph v Hin Hl Hv. destruct (A4 ph v Hin Hl Hv) as [B1 B2]. rewrite (view_vm _ _ s s' E), B1. split.
    + apply (agree_segment a b size bias Eb S); [by rewrite <- (agree_phdrs a b size bias Eb S)|done].
    + rewrite <- B2. unfold vmm_get_pte_flags, walk_pd, Vmm.get. by rewrite E.
  - intros v Hv N1 N2. rewrite (virt_to_phys_vm _ _ s s' E). by apply A5.
  - split; [done|]. by apply (vector_vm _ _ _ _ s s' E).
  - by apply (vector_vm _ _ _ _ s s' E).
Qed.

(** Freeing an address space changes the allocator only. *)
Lemma destroy_vm r (s : vmm P H) : vm (vmm_destroy_user_pml4 hhdm r s) = vm s.
Proof using Type.
  assert (forall a (x : vmm P H), vm (free_frame a x) = vm x) as E0 by done.
  assert (forall e huge (x : vmm P H), vm (release_user_mapping e huge x) = vm x) as E1.
  { intros e huge x. unfold release_user_mapping. repeat case_bool; done. }
  assert (forall pt (x : vmm P H), vm (free_pt pt x) = vm x) as E2.
  { intros pt x. unfold free_pt. apply (for_loop_ind (fun y => vm y = vm x)); [|done]. intros i y _ Ey. by rewrite E1. }
  assert (forall pd (x : vmm P H), vm (free_pd hhdm pd x) = vm x) as E3.
  { intros pd x. unfold free_pd. apply (for_loop_ind (fun y => vm y = vm x)); [|done]. intros i y _ Ey. cbv zeta.
    case_bool; [done|]. case_bool; [by rewrite E1|]. by rewrite E0, E2. }
  assert (forall pd (x : vmm P H), vm (free_pdpt hhdm pd x) = vm x) as E4.
  { intros pd x. unfold free_pdpt. apply (for_loop_ind (fun y => vm y = vm x)); [|done]. intros i y _ Ey. cbv zeta.
    case_bool; [done|]. by rewrite E0, E3. }
  unfold vmm_destroy_user_pml4. case_bool; [done|]. cbv zeta. rewrite E0. apply (for_loop_ind (fun y => vm y = vm s)); [|done]. intros i y _ Ey. cbv zeta.
  case_bool; [done|]. by rewrite E0, E4.
Qed.

(** ** exec *)

Lemma magic_word (b : buffer) : (forall i, 0 <= i < 4 -> 0 <= b i < 256) ->
  Z.lor (Z.lor (Z.lor (b 0) (Z.shiftl (b 1) 8)) (Z.shiftl (b 2) 16)) (Z.shiftl (b 3) 24) = load 4 0 b.
Proof using Type.
  intros Hb. pose proof (Hb 0 ltac:(lia)). pose proof (Hb 1 ltac:(lia)). pose proof (Hb 2 ltac:(lia)). pose proof (Hb 3 ltac:(lia)).
  assert (forall x y n, 0 <= n -> 0 <= x < 2 ^ n -> Z.lor x (Z.shiftl y n) = x + y * 2 ^ n) as L.
  { intros x y n Hn Hx. rewrite Z.lor_comm, Z.shiftl_mul_pow2, NetBase.lor_add by lia. lia. }
  rewrite (L (b 0)), (L (b 0 + b 1 * 2 ^ 8)), (L (b 0 + b 1 * 2 ^ 8 + b 2 * 2 ^ 16)) by lia.
  cbn [load]. change (0 + 1) with 1. change (1 + 1) with 2. change (2 + 1) with 3. lia.
Qed.

(** A path with a slash that names a program is its own resolution. *)
Lemma resolve_ok path c w : fs_file (files w) path = Some c -> Forall (fun x => 0 <= x < 256) c -> 4 <= Z.of_nat (length c) ->
  e_magic (ehdr_of (array c)) = ELF_MAGIC -> path <> [] -> existsb (Z.eqb 47) path = true -> strlen path < 256 ->
  exists w', elf_resolve_executable junk (Some path) 256 w = Some (Some path, w') /\ reading w w'.
Proof using Type.
  intros Hf Hb Hl Hm Hne Hs Hlen. unfold elf_resolve_executable, path_has_slash. destruct path as [|p0 path]; [done|]. rewrite Hs.
  set (path1 := p0 :: path) in *. change (256 =? 0) with false. cbv iota. unfold try_elf_candidate_path, elf_path_has_magic.
  destruct (fs_open_law (files w) path1 c Hf) as (fd & f1 & Eo & Hfd & Hp & K1).
  assert (on_files (fs_open path1 0) w = Some (fd, w <| files := f1 |>)) as E1 by (unfold on_files; by rewrite Eo).
  destruct (fs_read_law f1 fd c 0 junk 4 Hp ltac:(lia) ltac:(lia)) as (n & b & f2 & Er & Hn & _ & _ & Hn4 & Hbb & _ & K2).
  assert (n = 4) as -> by (specialize (Hn4 ltac:(lia) ltac:(lia) Hl); lia).
  assert (on_files (fs_read fd junk 4) (w <| files := f1 |>) = Some ((4, b), w <| files := f2 |>)) as E2.
  { unfold on_files. change (files (w <| files := f1 |>)) with f1. by rewrite Er. }
  destruct (fs_close_law f2 fd) as (rc & f3 & Ec & K3).
  assert (on_files (fs_close fd) (w <| files := f2 |>) = Some (rc, w <| files := f3 |>)) as E3.
  { unfold on_files. change (files (w <| files := f2 |>)) with f2. by rewrite Ec. }
  exists (w <| files := f3 |>). split.
  - unfold mbind, M_bind in *. rewrite E1. rewrite (proj2 (Z.ltb_ge fd 0) Hfd). rewrite E2. cbv beta iota. rewrite E3. change (negb (4 =? 4)) with false. cbv iota.
    rewrite magic_word.
    + assert (load 4 0 b = ELF_MAGIC) as ->.
      { rewrite <- Hm. unfold ehdr_of. cbn [e_magic]. apply load_ext. intros i Hi. unfold array. by rewrite Hbb by (cbn in Hi; lia). }
      cbn [negb]. rewrite copy_str_id by done. done.
    + intros i Hi. rewrite Hbb by lia. rewrite List.Forall_forall in Hb. apply Hb, nth_In. lia.
  - split; [exists (kheap (space w)); by destruct w as [[]]|cbn; congruence|done].
Qed.

(** The switch to the new image goes through. *)
Lemma commit_ok img resolved w : exists w', commit_image hhdm img resolved w = Some (tt, w') /\
  vm (space w') = vm (space w) /\ t_pml4 (mm (task w' (current w))) = im_pml4 img.
Proof using HFIL.
  unfold commit_image, mbind, M_bind, get, modify, on_space, vmm_destroy_task_vmas, on_files. cbn [fst snd].
  match goal with |- context [fs_close_cloexec ?t ?f] => destruct (fs_cloexec_law f t) as (f' & Ef) end. rewrite Ef.
  unfold destroy_pml4, on_space. case_bool; eexists; (split; [reflexivity|]); split; try (cbn; by rewrite upd_eq); try done.
  exact (destroy_vm _ _).
Qed.

Lemma stack_args_resolved path argc argv argc0 argv0 nm : resolved_argv path argc (Some argv) = (argc0, argv0) ->
  stack_args nm argc0 (Some argv0) = (argc0, argv0).
Proof using Type.
  unfold resolved_argv, stack_args. intros E. destruct (Z.leb_spec argc 0); [by injection E as <- <-|].
  destruct (Z.ltb_spec 16 argc); injection E as <- <-; [done|]. rewrite (proj2 (Z.leb_gt argc 0)), (proj2 (Z.ltb_ge 16 argc)) by lia. done.
Qed.

Lemma kernel_reading w w' h : space w' = (space w) <| kheap := h |> -> cr3 w' = cr3 w -> kernel_ok hhdm w -> kernel_ok hhdm w'.
Proof using Type. intros E Ec [A B C]. split; rewrite E, ?Ec; auto. Qed.


End exec.

(** ** A machine with one file *)

Module Demo.

Import VmmClaims VmmClaims.Demo ElfClaims.Demo.

(** Files by path and the open descriptors. *)
Record memfs := { mf_files : list Z -> option (list Z); mf_open : Z -> option (list Z * Z); mf_next : Z }.

#[local] Instance memfs_files : Files memfs := {
  fs_open path _ f :=
    match mf_files f path with
    | None => Some (-1, f)
    | Some c => Some (mf_next f, {| mf_files := mf_files f; mf_open := (mf_open f).[mf_next f <- Some (c, 0)]; mf_next := Z.max 0 (mf_next f) + 1 |})
    end;
  fs_read fd buf count f :=
    match mf_open f fd with
    | None => Some (-1, buf, f)
    | Some (c, o) =>
        let n := Z.max 0 (Z.min count (Z.of_nat (length c) - o)) in
        Some (n, blit buf 0 (array c) o n, {| mf_files := mf_files f; mf_open := (mf_open f).[fd <- Some (c, o + n)]; mf_next := mf_next f |})
    end;
  fs_close fd f := Some (0, {| mf_files := mf_files f; mf_open := (mf_open f).[fd <- None]; mf_next := mf_next f |});
  fs_close_cloexec _ f := Some f
}.

#[local] Instance memfs_laws : FilesLaws memfs.
Proof.
  refine {| fs_file f path := if 0 <=? mf_next f then mf_files f path else None; fs_pos := mf_open |}.
  - intros f path c E. cbn. destruct (Z.leb_spec 0 (mf_next f)); [|done]. rewrite E. eexists _, _. split; [reflexivity|]. cbn.
    rewrite (proj2 (Z.leb_le 0 (Z.max 0 (mf_next f) + 1))) by lia. split_and!; [lia|apply upd_eq|done].
  - intros f fd c o buf count E Ho Hc. cbn. rewrite E. eexists _, _, _. split; [reflexivity|]. cbn.
    split_and!; try lia; [|by rewrite upd_eq|done]. intros i Hi. unfold blit, array. case_bool; [|lia]. do 2 f_equal. lia.
  - intros f fd. by eexists _, _.
  - intros f t. by eexists.
Defined.

#[local] Instance steady_heap : Kheap unit := { kh_alloc _ h := (64, h); kh_free _ h := h }.

Lemma heap_serves n (h : unit) : fst (kh_alloc n h) <> 0.
Proof. cbn. lia. Qed.

Definition path : list Z := [47; 105].

Definition machine : world frame_bump unit memfs unit := {|
  space := {| vm := fun _ => 0; frames := {| fb_next := 0x2000; fb_end := 0x100000000; fb_refs := fun _ => 0 |}; kheap := tt;
    g_next_kernel_stack := 0; g_kernel_pml4 := root0; next_mmap_addr := MMAP_BASE; tlb_log := [] |};
  files := {| mf_files := fun p => if streq p path then Some tiny else None; mf_open := fun _ => None; mf_next := 3 |};
  sched := tt; cr3 := 0x1000; current := 1;
  task := fun _ => {| id := 1; thread_group := 0; mm := {| t_pml4 := 0; brk_start := 0; brk_current := 0; vmas := [] |};
    signal_pending := 4; sig_mask := 0; sig_handlers := fun _ => 0x5000; tls_base := 0; name := [] |} |}.

Lemma machine_ok : kernel_ok hhdm0 machine.
Proof.
  split.
  - split; [cbn; lia|done].
  - intros a. cbn. lia.
  - change (vmm_get_kernel_pml4 hhdm0 (cr3 machine) (space machine)) with root0.
    apply empty_tree; [|intros i _; reflexivity]. split. exists 0x1000. split; [done|]. split; [split; cbn; lia|]. split; [done|lia].
Qed.


End Demo.
End ElfExec.
